(* ===== verification/_CoqProject ===== *)
-Q . S2P
Prelude.v
Parser.v
Policy.v
DescPatch.v
Proto.v
Session.v
Wsk.v
Context.v
Filter.v
Reject.v
Usbd.v
Isoch.v
Requests.v
FilterReq.v
Endpoints.v
Pnp.v
Submit.v
Receive.v
Vhci.v
Events.v
Attach.v
Device.v
Ioctl.v
FilterIrp.v
Refs.v
Controller.v
UsbIds.v
Client.v
FilterCmd.v
Persist.v
Connect.v
Remote.v
Text.v
Commands.v
Tree.v
Restore.v
Devnode.v
