(* ===== verification/Prelude.v ===== *)
(** * Verification of the USB/IP client for Windows

    The program attaches USB devices of a remote host.  Its core is a kernel driver
    (src/drivers/ude) that emulates a USB host controller with the UdeCx class extension:
    it imports a device from a server, decides by a whitelist whether the device may be
    used, plugs an emulated device into a root-hub port, translates every URB of Windows
    into a USB/IP message, and completes it with the server's answer.  An upper filter
    driver (src/drivers/ude_filter) repeats for the controller the requests UdeCx does not
    pass on, and src/drivers/libdrv holds what both share.  Applications reach the driver
    through a library (src/userspace/libusbip), which also asks servers for their devices;
    the command-line tool (src/userspace/usbip) and the window of devices
    (src/userspace/wusbip) are built on it; another tool (src/userspace/devnode) creates the
    device node of the controller.

    ** How the parts interact, and where they are

    A request of an application enters through the IOCTL handlers (Ioctl).  PLUGIN_HARDWARE
    starts a work item that connects, imports (Session: the exchange; Filter: the check of the
    descriptors with Parser and Policy; Reject: the log entry of a rejection), creates a device
    with the accepted descriptors (Filter, DescPatch) and plugs it in (Device, Vhci, Endpoints).
    Each step is announced to the open files (Events); when it fails, attach attempts follow
    (Attach).  URBs of a plugged-in device become messages (Submit, FilterReq, Isoch, Proto,
    Usbd) and wait in the device's request list (Requests) until the receiving thread (Receive)
    completes them; their memory is that of Context, their socket that of Wsk.  The filter
    driver places itself above the root hub and its children (Pnp), and makes requests of its
    own (FilterIrp).  Controller puts the handlers, work items and callbacks of the controller
    together.  On the other side of the IOCTLs are the library (Client, Persist, Connect,
    Remote, UsbIds), the commands (FilterCmd, Commands) and the window (Tree).

    In the order of the dependencies, with the sources each file models:

    - Prelude (this file): machine integers as [Z], little-endian bytes, reads and writes
      of buffers with [None] outside of them, NTSTATUS, the result type and its monad.
    - Parser: [evaluate_configuration] of ude/device_filter_parser.h.
    - Policy: ude/device_filter_policy.h, the policy of ude/device_filter.cpp and its
      IOCTLs in ude/vhci_ioctl.cpp.
    - DescPatch: ude/descriptor_patch.cpp, libdrv/usbdsc.cpp.
    - Proto: include/usbip/proto.h, libdrv/pdu.cpp.
    - Session: ude/network.cpp, the calls of libdrv/wsk_cpp.cpp it makes,
      include/usbip/proto_op.h and the import exchange of ude/vhci_ioctl.cpp.
    - Wsk: struct SOCKET of libdrv/wsk_cpp.cpp, closing it and the calls on it.
    - Context: libdrv/mdl_cpp.cpp, ude/wsk_context.cpp.
    - Filter: ude/device_filter.cpp, [import_remote_device], [add_snapshot_descriptors].
    - Reject: the text of a rejection in ude/device_filter.cpp.
    - Usbd: libdrv/usbd_helper.cpp.
    - Isoch: packing and unpacking of isochronous packets in ude/device_ioctl.cpp and
      ude/wsk_receive.cpp.
    - Requests: ude/request_list.cpp, [next_seqnum], completion and cancellation.
    - FilterReq: ude_filter/request.h and request.cpp, the URBs of ude_filter/int_dev_ctrl.cpp,
      ude/filter_request.cpp, ude/endpoint_list.cpp as a list.
    - Endpoints: the endpoint callbacks of ude/device.cpp, ude/endpoint_list.cpp as it is linked.
    - Pnp: ude_filter/pnp.cpp, device.cpp and query_interface.cpp, libdrv/irp.cpp.
    - Submit: ude/proto.cpp, ude/device_ioctl.cpp.
    - Receive: ude/wsk_receive.cpp, ude/wsk_context.cpp.
    - Vhci: ude/context.h, the ports in ude/vhci.cpp.
    - Events: the notifications in ude/vhci.cpp, [device_read] of ude/vhci_ioctl.cpp.
    - Attach: ude/persistent.cpp, the constants in ude/vhci.cpp, libdrv/strconv.cpp.
    - Device: creating, plugging in and detaching in ude/device.cpp.
    - Ioctl: ude/vhci_ioctl.cpp, the attributes in ude/context.cpp.
    - FilterIrp: the IRPs, URBs and buffers of ude_filter/int_dev_ctrl.cpp, [clone] of
      libdrv/select.cpp, the owning pointers of libdrv.
    - Refs: libdrv/wdf_cpp.cpp, wdm_cpp.cpp and their headers, libusbip/generic_handle_ex.h.
    - Controller: the driver files from the view of the controller, over sequences of
      requests and callbacks.
    - UsbIds: libusbip/src/usb_ids.cpp.
    - Client: libusbip/src/vhci.cpp and device_speed.cpp, down to the IOCTLs.
    - FilterCmd: usbip/filter.cpp.
    - Persist: libusbip/src/persistent.cpp, [split_multi_sz] of its strconv.cpp.
    - Connect: attach and detach of the library against the handlers of Controller.
    - Remote: libusbip/src/remote.cpp, last_error.h and win_socket.h.
    - Text: the numbers std::format and wxString::Format write.
    - Commands: usbip/attach.cpp, detach.cpp, list.cpp, port.cpp, the output of filter.cpp.
    - Tree: the tree of wusbip/wusbip.cpp, device_columns.cpp, utils.cpp, filter_dialog.cpp.
    - Devnode: devnode/main.cpp.

    ** How the code is read

    A handler is a function from the state to an optional result and state.  [None] means
    what the code must never do: an access outside of a buffer or array, a null or deleted
    object, a failed assumption, or a loop that did not end within its fuel; the safety
    theorems show when it cannot happen.  A fallible call returns an [ntstatus] or a
    [res].  Framework objects are handles, and the contexts the framework keeps for them
    are maps in the state, so that aliasing is visible.  A function that runs under one
    lock is one step; where the order of the steps of several threads matters (Requests,
    Wsk, Events, Attach, FilterIrp, Controller) the theorems quantify over all sequences of
    steps.

    What the programs call (WDF, UdeCx, Winsock and Winsock Kernel, the registry, memory
    allocation, SetupAPI, USBD_ParseDescriptors, string conversion and hashing, wxConfig) is a class of
    operations or a parameter; its laws are documented behaviour of the interface, and each
    file has an instance at which the witnesses of the theorems are computed.  In particular
    Pnp relies on the PnP manager's order of requests and on the I/O manager's stacks, Endpoints
    on the order in which UdeCx creates, starts and destroys endpoints, FilterIrp on the
    stack locations of an IRP, and Tree on a configuration that returns what was written and
    a conversion to UTF-8 that is injective.

    ** What the theorems show

    - The whitelist: no interface can be hidden from the parser, a rejection names a real
      culprit, a damaged stored policy lets nothing in, and a device is plugged in only with
      the bytes that were accepted (Parser, Policy, Filter, DescPatch,
      [Controller.blocked_device_never_plugged_in]).  What a filter command promises is what the
      driver then enforces (FilterCmd), and the log entry of a rejection fits its memory
      whatever the device says (Reject).
    - The protocol: headers, payload sizes, import replies, isochronous packets and statuses
      convert exactly (Proto, Session, Isoch, Usbd); an accepted URB is one well-formed message
      (Submit); packed and converted requests of the filter driver are recovered (FilterReq).
    - A hostile server: whatever it sends, the driver stays in its buffers (two shapes of
      answers excepted, which are findings), the receiving thread ends and no request is
      completed twice (Isoch, Receive, Requests); on proper answers the thread refines the
      abstract delivery of answers one by one ([Receive.recv_loop_refines_deliver]).
    - Objects and memory: a socket is closed only when no call uses it, and is closed in the
      end (Wsk); contexts and the filter driver's own requests own their memory, and nothing
      leaks (Context, FilterIrp); references, handles and locks are balanced by their wrappers
      (Refs); the linked endpoint list refines the list of endpoints (Endpoints); each child
      of the hub gets one filter (Pnp).
    - The controller: ports, subscriptions and attach attempts stay consistent under every
      sequence of operations (Vhci, Events, Attach, [Controller.controller_consistent]),
      notifications arrive in order, attempts end, a plug-in request is completed once, a
      detach releases all it should, and removal is final.
    - From an application: an attach request reaches the driver as it was asked for, a
      detached device is no longer listed, what is listed is attached, the persistent devices
      read back as written (Connect, Client, Persist); a server's devices are listed as it sent
      them, and one socket is owned at a time (Remote); names are found in usb.ids and no read
      leaves it (UsbIds); stashed devices are those attached (Commands); the rows of the window
      follow the events of the driver and come back when loaded (Tree); a device node that was
      installed is removed again, and no device without its identifier is (Devnode).

    ** Fuel

    Loops without a structural measure carry fuel that the callers compute from the
    input: buffer loops the length of the buffer, list loops the length of the list, the
    receiving thread the number of bytes the peer has yet to send plus one (a message takes
    at least its header), port loops the number of ports, the attempt counter 32 doublings,
    sending to a socket the length of what is sent, a text its length plus one, the search for
    an endpoint the number of contexts, a number 32 digits, an enumeration of devices their number plus one.  The library asks again
    with a larger buffer while the driver says that it is too small: 7 calls suffice for all
    the ports, 3 for the largest policy, 1 for a list of persistent devices of at most 512
    units.  An address is waited for twice at most.  Termination is a theorem of each, never
    an assumption: the functions are shown to return a result at the fuel the code's
    callers are given.

    ** Not modelled, and limits

    Interleaving inside a handler or work item of the controller is not modelled: a
    connection in progress when the removal starts, or a report of the devices while one is
    detached, is seen before or after it.  The schedules of Wsk are those where the wait for
    the calls on a socket does not run into its timeout of 30 s.  Allocation failures are inputs
    where the code has a path for them.  Tracing, assertions of the drivers (NT_ASSERT) and
    reference counts of MDLs are not state.  Of the drivers, the entry points, queue and
    interface creation and the power callbacks only configure or call the framework.  Of the window, layout, menus, fonts, the log, the tray icon, sorting
    and the thread that reads events are calls of wxWidgets.  The declaration of the
    command-line options with the vendored CLI11, the installer and the tests are left out. *)

From Stdlib Require Export ZArith Lia ZifyBool Strings.Byte.
From Stdlib Require Strings.String Strings.Ascii.
From stdpp Require Export base list gmap option.

Set Default Proof Using "Type".

#[global] Open Scope Z_scope.

(** ** Machine integers: a w-bit value is a [Z], wrapped explicitly *)

Definition u8 (z : Z) : Z := z mod 2 ^ 8.
Definition u16 (z : Z) : Z := z mod 2 ^ 16.
Definition u32 (z : Z) : Z := z mod 2 ^ 32.
Definition u64 (z : Z) : Z := z mod 2 ^ 64.

(** Two's complement reading of the low 32 bits (INT32, int, LONG). *)
Definition s32 (z : Z) : Z := (z + 2 ^ 31) mod 2 ^ 32 - 2 ^ 31.

Definition is_u8 (z : Z) : Prop := 0 <= z < 2 ^ 8.
Definition is_u16 (z : Z) : Prop := 0 <= z < 2 ^ 16.
Definition is_u32 (z : Z) : Prop := 0 <= z < 2 ^ 32.
Definition is_s32 (z : Z) : Prop := - 2 ^ 31 <= z < 2 ^ 31.

(** RtlUlongByteSwap / _byteswap_ulong, RtlUshortByteSwap / _byteswap_ushort. *)
Definition bswap32 (z : Z) : Z :=
  Z.lor (Z.shiftl (Z.land z 255) 24)
    (Z.lor (Z.shiftl (Z.land (Z.shiftr z 8) 255) 16)
       (Z.lor (Z.shiftl (Z.land (Z.shiftr z 16) 255) 8)
          (Z.land (Z.shiftr z 24) 255))).

Definition bswap16 (z : Z) : Z :=
  Z.lor (Z.shiftl (Z.land z 255) 8) (Z.land (Z.shiftr z 8) 255).

(** ** Bytes *)

#[global] Instance byte_eq_dec : EqDecision byte := Byte.byte_eq_dec.

Definition b2z (b : byte) : Z := Z.of_N (Byte.to_N b).
Definition z2b (z : Z) : byte := default x00 (Byte.of_N (Z.to_N (u8 z))).

(** Little-endian memory image of an unsigned integer and its reading. *)
Fixpoint le_bytes (n : nat) (z : Z) : list byte :=
  match n with
  | O => []
  | S n => z2b z :: le_bytes n (z / 256)
  end.

Fixpoint le_val (bs : list byte) : Z :=
  match bs with
  | [] => 0
  | b :: bs => b2z b + 256 * le_val bs
  end.

(** Network order image and its reading. *)
Definition be_bytes (n : nat) (z : Z) : list byte := rev (le_bytes n z).
Definition be_val (bs : list byte) : Z := le_val (rev bs).

(** [bytes_at off len p]: the [len] bytes at offset [off] of a buffer, when they exist. *)
Definition bytes_at (off len : nat) (p : list byte) : option (list byte) :=
  if decide (off + len <= length p)%nat then Some (take len (drop off p)) else None.

(** A one-byte read of a buffer: [None] is a read outside of it. *)
Definition rd (p : list byte) (off : nat) : option Z := b2z <$> (p !! off).

(** The UTF-16 units of an ASCII text. *)
Definition wide (s : String.string) : list Z := map (fun a => Z.of_N (Ascii.N_of_ascii a)) (String.list_ascii_of_string s).

(** ** Status codes

    An NTSTATUS is one of the codes the sources name, or a non-zero code an
    operating-system call returned ([NT_OS]).  The USBIP_ERROR codes are those
    of userspace/resources/messages.mc; all have the severity Error. *)
Inductive ntstatus : Type :=
| STATUS_SUCCESS | STATUS_PENDING
| STATUS_CANCELLED | STATUS_INVALID_PARAMETER | STATUS_INVALID_BUFFER_SIZE
| STATUS_BUFFER_TOO_SMALL | STATUS_INSUFFICIENT_RESOURCES | STATUS_NOT_SUPPORTED
| STATUS_INVALID_DEVICE_REQUEST | STATUS_INVALID_DEVICE_STATE
| STATUS_DEVICE_NOT_CONNECTED | STATUS_UNSUCCESSFUL | STATUS_RECEIVE_PARTIAL
| STATUS_CONNECTION_DISCONNECTED | STATUS_INVALID_HANDLE
| STATUS_INVALID_CONFIG_VALUE | STATUS_FILE_FORCED_CLOSED | STATUS_END_OF_FILE
| STATUS_NO_MORE_ENTRIES | STATUS_WDF_BUSY
| USBIP_ERROR_GENERAL | USBIP_ERROR_VERSION | USBIP_ERROR_PROTOCOL
| USBIP_ERROR_PORTFULL | USBIP_ERROR_ABI | USBIP_ERROR_ST_NA
| USBIP_ERROR_ST_DEV_BUSY | USBIP_ERROR_ST_DEV_ERR | USBIP_ERROR_ST_NODEV
| USBIP_ERROR_ST_ERROR | USBIP_ERROR_SERIAL_NUMBER | USBIP_ERROR_DEVICE_FILTERED
| NT_OS (code : positive).

#[global] Instance ntstatus_eq_dec : EqDecision ntstatus.
Proof. solve_decision. Defined.

(** NT_SUCCESS: severities Success and Informational. *)
Definition NT_SUCCESS (st : ntstatus) : bool :=
  match st with
  | STATUS_SUCCESS | STATUS_PENDING | STATUS_RECEIVE_PARTIAL => true
  | NT_OS c => Z.pos c <? 0x80000000
  | _ => false
  end.

(** NT_ERROR: severity Error.  STATUS_NO_MORE_ENTRIES (0x8000001A) is a warning. *)
Definition NT_ERROR (st : ntstatus) : bool :=
  match st with
  | STATUS_SUCCESS | STATUS_PENDING | STATUS_RECEIVE_PARTIAL
  | STATUS_NO_MORE_ENTRIES => false
  | NT_OS c => 0xC0000000 <=? Z.pos c
  | _ => true
  end.

(** ** Results of fallible operations: [if (auto err = f()) return err;] *)
Inductive res (A : Type) : Type :=
| Ok (a : A)
| Err (e : ntstatus).
Arguments Ok {A} a.
Arguments Err {A} e.

#[global] Instance res_ret : MRet res := fun A a => Ok a.
#[global] Instance res_bind : MBind res := fun A B f r =>
  match r with Ok a => f a | Err e => Err e end.

(** The NTSTATUS a function with an [_Out_] argument returns. *)
Definition res_status {A} (r : res A) : ntstatus :=
  match r with Ok _ => STATUS_SUCCESS | Err e => e end.

(** An operating-system call's status as a result. *)
Definition of_status (st : ntstatus) : res unit :=
  match st with STATUS_SUCCESS => Ok tt | e => Err e end.

Definition guard_err (b : bool) (e : ntstatus) : res unit :=
  if b then Ok tt else Err e.

(** ** Stateful operations

    An operation on a state [S]: [None] is an access outside of a buffer (or lack of
    fuel), which the theorems exclude; otherwise a result and the new state. *)
Definition io (S A : Type) : Type := S -> option (res A * S).

#[global] Instance io_ret S : MRet (io S) := fun A a s => Some (Ok a, s).
#[global] Instance io_bind S : MBind (io S) := fun A B f m s =>
  match m s with
  | None => None
  | Some (Err e, s) => Some (Err e, s)
  | Some (Ok a, s) => f a s
  end.

Definition io_get {S} : io S S := fun s => Some (Ok s, s).
Definition io_modify {S} (f : S -> S) : io S unit := fun s => Some (Ok tt, f s).
Definition io_throw {S A} (e : ntstatus) : io S A := fun s => Some (Err e, s).
Definition io_opt {S A} (o : option A) : io S A := fun s => a ← o; Some (Ok a, s).
Definition io_res {S A} (r : res A) : io S A := fun s => Some (r, s).

(** [if (auto err = m) ...]: the result as a value. *)
Definition io_try {S A} (m : io S A) : io S (res A) := fun s =>
  match m s with None => None | Some (r, s) => Some (Ok r, s) end.

Create Rewrite HintDb bytes.
Create HintDb ranges.

(** ** Tactics *)

Ltac deex :=
  repeat match goal with
    | H : exists x, _ |- _ => let y := fresh x in destruct H as [y H]
    | H : _ /\ _ |- _ => destruct H
    end.

(** Linear arithmetic with division and modulo by constants. *)
Ltac zdm := Z.to_euclidean_division_equations; lia.

(** Split the conjunctions and disjunctions of boolean tests; [lia] reads the rest. *)
Ltac bool_prop :=
  repeat match goal with
    | H : (_ && _)%bool = true |- _ => apply andb_prop in H; destruct H
    | H : (_ || _)%bool = false |- _ => apply Bool.orb_false_iff in H; destruct H
    end.

Ltac uints := unfold is_u8, is_u16, is_u32, is_s32, u8, u16, u32, u64, s32 in *.

(** ** Lemmas: ranges *)

Lemma u8_range z : is_u8 (u8 z).
Proof. apply Z.mod_pos_bound. lia. Qed.
Lemma u16_range z : is_u16 (u16 z).
Proof. apply Z.mod_pos_bound. lia. Qed.
Lemma u32_range z : is_u32 (u32 z).
Proof. apply Z.mod_pos_bound. lia. Qed.
Lemma s32_range z : is_s32 (s32 z).
Proof. unfold is_s32, s32. pose proof (Z.mod_pos_bound (z + 2 ^ 31) (2 ^ 32)). lia. Qed.

Lemma u8_id z : is_u8 z -> u8 z = z.
Proof. apply Z.mod_small. Qed.
Lemma u16_id z : is_u16 z -> u16 z = z.
Proof. apply Z.mod_small. Qed.
Lemma u32_id z : is_u32 z -> u32 z = z.
Proof. apply Z.mod_small. Qed.
Lemma s32_id z : is_s32 z -> s32 z = z.
Proof. unfold is_s32, s32. intros. rewrite Z.mod_small; lia. Qed.

Lemma s32_u32 z : is_s32 z -> s32 (u32 z) = z.
Proof.
  unfold is_s32, s32, u32. intros H. rewrite Z.add_mod_idemp_l by lia.
  rewrite Z.mod_small; lia.
Qed.

Lemma s32_nonneg z : is_u32 z -> 0 <= s32 z -> s32 z = z.
Proof.
  unfold is_u32, s32. intros H H0.
  destruct (Z_lt_ge_dec z (2 ^ 31)) as [Hlt|Hge]; [rewrite Z.mod_small; lia|].
  exfalso. replace (z + 2 ^ 31) with (z - 2 ^ 31 + 1 * 2 ^ 32) in H0 by lia.
  rewrite Z.mod_add, Z.mod_small in H0; lia.
Qed.

Lemma s32_neg z : 2 ^ 31 <= z < 2 ^ 32 -> s32 z = z - 2 ^ 32.
Proof.
  intros H. unfold s32. replace (z + 2 ^ 31) with (z - 2 ^ 31 + 1 * 2 ^ 32) by lia.
  rewrite Z.mod_add, Z.mod_small; lia.
Qed.

#[export] Hint Resolve u8_range u16_range u32_range s32_range : ranges.

(** ** Lemmas: bytes *)

Lemma b2z_range b : is_u8 (b2z b).
Proof. unfold is_u8, b2z. pose proof (Byte.to_N_bounded b). lia. Qed.

Lemma b2z_inj a b : b2z a = b2z b -> a = b.
Proof.
  unfold b2z. intros H%N2Z.inj.
  pose proof (Byte.of_to_N a). pose proof (Byte.of_to_N b). congruence.
Qed.

Lemma b2z_z2b z : b2z (z2b z) = u8 z.
Proof.
  unfold b2z, z2b. pose proof (u8_range z) as Hr. unfold is_u8 in Hr.
  destruct (Byte.of_N (Z.to_N (u8 z))) as [b|] eqn:E; simpl.
  - apply Byte.to_of_N in E. rewrite E. lia.
  - apply Byte.of_N_None_iff in E. lia.
Qed.

Lemma z2b_b2z b : z2b (b2z b) = b.
Proof. apply b2z_inj. rewrite b2z_z2b. apply u8_id, b2z_range. Qed.

#[export] Hint Resolve b2z_range : ranges.
#[export] Hint Rewrite b2z_z2b z2b_b2z : bytes.

Lemma length_le_bytes n z : length (le_bytes n z) = n.
Proof. revert z. induction n; simpl; auto. Qed.

Lemma length_be_bytes n z : length (be_bytes n z) = n.
Proof. unfold be_bytes. rewrite length_rev. apply length_le_bytes. Qed.

Lemma le_val_range bs : 0 <= le_val bs < 256 ^ Z.of_nat (length bs).
Proof.
  induction bs as [|b bs IH]; simpl le_val; [simpl; lia|].
  rewrite length_cons, Nat2Z.inj_succ, Z.pow_succ_r by lia.
  pose proof (b2z_range b). unfold is_u8 in *. lia.
Qed.

Lemma le_val_le_bytes n z : le_val (le_bytes n z) = z mod 256 ^ Z.of_nat n.
Proof.
  revert z. induction n as [|n IH]; intros z; simpl le_bytes; simpl le_val.
  - simpl. by rewrite Z.mod_1_r.
  - rewrite IH, b2z_z2b, Nat2Z.inj_succ, Z.pow_succ_r by lia.
    unfold u8. rewrite Z.rem_mul_r by lia. reflexivity.
Qed.

Lemma le_bytes_le_val bs : le_bytes (length bs) (le_val bs) = bs.
Proof.
  induction bs as [|b bs IH]; [done|]. simpl. pose proof (b2z_range b) as Hb. unfold is_u8 in Hb. f_equal.
  - apply b2z_inj. rewrite b2z_z2b. unfold u8. zdm.
  - transitivity (le_bytes (length bs) (le_val bs)); [f_equal; zdm | done].
Qed.

Lemma be_val_be_bytes n z : be_val (be_bytes n z) = z mod 256 ^ Z.of_nat n.
Proof. unfold be_val, be_bytes. rewrite rev_involutive. apply le_val_le_bytes. Qed.

#[export] Hint Rewrite length_le_bytes length_be_bytes : bytes.

(** A field of a structure is read back from the structure's image. *)
Lemma bytes_at_app_r off len (p q : list byte) :
  off = length p -> bytes_at (off + 0) len (p ++ q) = bytes_at 0 len q.
Proof.
  intros ->. unfold bytes_at. rewrite length_app, Nat.add_0_r, drop_app_length.
  simpl. repeat case_decide; auto; lia.
Qed.

Lemma bytes_at_length off len p bs : bytes_at off len p = Some bs -> length bs = len.
Proof.
  unfold bytes_at. case_decide; intros; simplify_eq. rewrite length_take, length_drop. lia.
Qed.

Lemma rd_Some p off : (off < length p)%nat -> exists b, p !! off = Some b /\ rd p off = Some (b2z b).
Proof.
  intros H. apply lookup_lt_is_Some in H as [b Hb]. exists b. unfold rd. by rewrite Hb.
Qed.

Lemma rd_range p off z : rd p off = Some z -> is_u8 z.
Proof. unfold rd. destruct (p !! off); simpl; intros; simplify_eq. auto with ranges. Qed.

Lemma rd_lt p off z : rd p off = Some z -> (off < length p)%nat.
Proof. unfold rd. destruct (p !! off) eqn:E; simpl; intros; simplify_eq. by apply lookup_lt_Some in E. Qed.

(** ** Lemmas: byte swapping *)

Lemma lor_shiftl_add a b k : 0 <= k -> 0 <= b < 2 ^ k -> Z.lor (Z.shiftl a k) b = a * 2 ^ k + b.
Proof.
  intros Hk Hb. rewrite <- Z.shiftl_mul_pow2 by lia. symmetry. apply Z.add_nocarry_lor.
  apply Z.bits_inj'. intros n Hn. rewrite Z.land_spec, Z.bits_0, Z.shiftl_spec by lia.
  destruct (Z_lt_ge_dec n k) as [H|H].
  - by rewrite (Z.testbit_neg_r a) by lia.
  - rewrite <- (Z.mod_small b (2 ^ k)) by lia.
    by rewrite Z.mod_pow2_bits_high, andb_false_r by lia.
Qed.

Lemma land_255 z : Z.land z 255 = z mod 256.
Proof. change 255 with (Z.ones 8). by rewrite Z.land_ones by lia. Qed.

Lemma bswap32_arith z :
  bswap32 z = (z mod 256) * 2 ^ 24 + (z / 2 ^ 8) mod 256 * 2 ^ 16
              + (z / 2 ^ 16) mod 256 * 2 ^ 8 + (z / 2 ^ 24) mod 256.
Proof.
  unfold bswap32. rewrite !land_255, !Z.shiftr_div_pow2 by lia.
  pose proof (Z.mod_pos_bound z 256). pose proof (Z.mod_pos_bound (z / 2 ^ 8) 256).
  pose proof (Z.mod_pos_bound (z / 2 ^ 16) 256). pose proof (Z.mod_pos_bound (z / 2 ^ 24) 256).
  rewrite (lor_shiftl_add _ (_ mod _) 8) by lia.
  rewrite (lor_shiftl_add _ _ 16) by lia. rewrite (lor_shiftl_add _ _ 24) by lia. lia.
Qed.

Lemma bswap16_arith z : bswap16 z = (z mod 256) * 2 ^ 8 + (z / 2 ^ 8) mod 256.
Proof.
  unfold bswap16. rewrite !land_255, !Z.shiftr_div_pow2 by lia.
  pose proof (Z.mod_pos_bound (z / 2 ^ 8) 256).
  rewrite (lor_shiftl_add _ _ 8) by lia. lia.
Qed.

Lemma bswap32_range z : is_u32 (bswap32 z).
Proof.
  rewrite bswap32_arith. unfold is_u32.
  pose proof (Z.mod_pos_bound z 256). pose proof (Z.mod_pos_bound (z / 2 ^ 8) 256).
  pose proof (Z.mod_pos_bound (z / 2 ^ 16) 256). pose proof (Z.mod_pos_bound (z / 2 ^ 24) 256). lia.
Qed.

Lemma bswap16_range z : is_u16 (bswap16 z).
Proof.
  rewrite bswap16_arith. unfold is_u16.
  pose proof (Z.mod_pos_bound z 256). pose proof (Z.mod_pos_bound (z / 2 ^ 8) 256). lia.
Qed.

(** A swapped value reads the bytes in the opposite order. *)
Lemma bswap32_val z : bswap32 z = be_val (le_bytes 4 z).
Proof.
  rewrite bswap32_arith. unfold be_val. simpl. rewrite !b2z_z2b, !Z.div_div by lia.
  unfold u8. change (256 * (256 * 256)) with 16777216. change (256 * 256) with 65536.
  change (2 ^ 8) with 256. change (2 ^ 16) with 65536. change (2 ^ 24) with 16777216.
  lia.
Qed.

Lemma bswap16_val z : bswap16 z = be_val (le_bytes 2 z).
Proof.
  rewrite bswap16_arith. unfold be_val. simpl. rewrite !b2z_z2b.
  unfold u8. change (2 ^ 8) with 256. lia.
Qed.

(** The little-endian image of a swapped value is the network-order image. *)
Lemma le_bytes_bswap32 z : le_bytes 4 (bswap32 z) = be_bytes 4 z.
Proof.
  rewrite bswap32_val. unfold be_val, be_bytes.
  rewrite <- (le_bytes_le_val (rev (le_bytes 4 z))) at 2. by rewrite length_rev, length_le_bytes.
Qed.

Lemma le_bytes_bswap16 z : le_bytes 2 (bswap16 z) = be_bytes 2 z.
Proof.
  rewrite bswap16_val. unfold be_val, be_bytes.
  rewrite <- (le_bytes_le_val (rev (le_bytes 2 z))) at 2. by rewrite length_rev, length_le_bytes.
Qed.

Lemma bswap32_involutive z : is_u32 z -> bswap32 (bswap32 z) = z.
Proof.
  intros H. rewrite (bswap32_val (bswap32 z)), le_bytes_bswap32, be_val_be_bytes.
  by apply Z.mod_small.
Qed.

Lemma bswap16_involutive z : is_u16 z -> bswap16 (bswap16 z) = z.
Proof.
  intros H. rewrite (bswap16_val (bswap16 z)), le_bytes_bswap16, be_val_be_bytes.
  by apply Z.mod_small.
Qed.

#[export] Hint Resolve bswap32_range bswap16_range : ranges.
#[export] Hint Rewrite le_bytes_bswap32 le_bytes_bswap16 : bytes.

(** ** Lemmas: results and statuses *)

Lemma res_bind_Ok {A B} (r : res A) (f : A -> res B) b :
  (r ≫= f) = Ok b <-> exists a, r = Ok a /\ f a = Ok b.
Proof. destruct r; simpl; split; intros; deex; simplify_eq; eauto. Qed.

Lemma of_status_Ok st u : of_status st = Ok u <-> st = STATUS_SUCCESS.
Proof. destruct u, st; simpl; split; intros; simplify_eq; auto. Qed.

Lemma guard_err_Ok b e u : guard_err b e = Ok u <-> b = true.
Proof. destruct u, b; simpl; split; intros; simplify_eq; auto. Qed.

Lemma NT_ERROR_not_success st : NT_ERROR st = true -> NT_SUCCESS st = false.
Proof. destruct st; simpl; intros; try discriminate; auto. lia. Qed.

(** ** Lemmas: stateful operations *)

Lemma io_bind_inv {S A B} (m : io S A) (f : A -> io S B) s r s2 :
  (m ≫= f) s = Some (r, s2) ->
  (exists a s1, m s = Some (Ok a, s1) /\ f a s1 = Some (r, s2)) \/
  (exists e, m s = Some (Err e, s2) /\ r = Err e).
Proof.
  unfold mbind, io_bind. destruct (m s) as [[[a|e] s1]|]; intros H; [eauto|simplify_eq; eauto|done].
Qed.

Lemma io_bind_step {S A B} (m : io S A) (f : A -> io S B) s a s1 :
  m s = Some (Ok a, s1) -> (m ≫= f) s = f a s1.
Proof. unfold mbind, io_bind. by intros ->. Qed.

Lemma io_bind_stop {S A B} (m : io S A) (f : A -> io S B) s e s1 :
  m s = Some (Err e, s1) -> (m ≫= f) s = Some (Err e, s1).
Proof. unfold mbind, io_bind. by intros ->. Qed.

Lemma io_opt_bind {S A B} (o : option A) (f : A -> io S B) s a :
  o = Some a -> (io_opt o ≫= f) s = f a s.
Proof. intros ->. done. Qed.

Lemma io_res_bind {S A B} (r : res A) (f : A -> io S B) s :
  (io_res r ≫= f) s = match r with Ok a => f a s | Err e => Some (Err e, s) end.
Proof. by destruct r. Qed.
