(* ===== verification/Parser.v ===== *)
(** * Configuration-descriptor parser of the device-type filter

    Models drivers/ude/device_filter_parser.h: [evaluate_configuration] with its
    loop state, its result and its error codes, against a declarative reading of
    a configuration descriptor as a chain of length-prefixed descriptors.  A read
    of the buffer is [rd]; [None] stands for a read outside of the buffer (or a
    loop that did not end within its fuel), and the theorems show that it never
    happens. *)

From S2P Require Import Prelude.

(** ** Data *)

Record interface_class : Type := {
  number : Z; alternate_setting : Z; cls : Z; subcls : Z; protocol : Z }.

Definition no_interface : interface_class :=
  {| number := 0; alternate_setting := 0; cls := 0; subcls := 0; protocol := 0 |}.

#[global] Instance interface_class_eq_dec : EqDecision interface_class.
Proof. solve_decision. Defined.

(** [data] is [None] for a null pointer; [size] is the extent the caller claims. *)
Record descriptor_bytes : Type := { data : option (list byte); size : nat }.

Inductive descriptor_error : Type :=
| none | configuration_header_too_short | invalid_configuration_header
| total_length_mismatch | descriptor_header_truncated | invalid_descriptor_length
| invalid_interface_descriptor | invalid_endpoint_descriptor | no_interfaces
| interface_count_mismatch | interface_not_allowed.

#[global] Instance descriptor_error_eq_dec : EqDecision descriptor_error.
Proof. solve_decision. Defined.

Record descriptor_result : Type := {
  error : descriptor_error;
  declared_interfaces : Z;
  observed_interfaces : Z;
  offending_interface : interface_class }.

(** [explicit operator bool] of descriptor_result. *)
Definition result_ok (r : descriptor_result) : bool := bool_decide (error r = none).

Definition configuration_descriptor_size : nat := 9.
Definition interface_descriptor_size : Z := 9.
Definition endpoint_descriptor_size : Z := 7.
Definition configuration_descriptor_type : Z := 2.
Definition interface_descriptor_type : Z := 4.
Definition endpoint_descriptor_type : Z := 5.

(** ** The parser *)

Record parser_state : Type := {
  offset : nat;
  seen_interfaces : gset Z;  (* bool[256] indexed by a byte *)
  interface_descriptors : Z;
  observed : Z }.

Section parser.
Context (p : list byte) (sz : nat) (is_allowed : interface_class -> option bool).

(** [result.error = e; return result;] *)
Definition fail (declared obs : Z) (e : descriptor_error) (i : interface_class) : descriptor_result :=
  {| error := e; declared_interfaces := declared; observed_interfaces := obs;
     offending_interface := i |}.

Definition read_interface (o : nat) : option interface_class :=
  n ← rd p (o + 2); a ← rd p (o + 3); c ← rd p (o + 5); s ← rd p (o + 6); q ← rd p (o + 7);
  Some {| number := n; alternate_setting := a; cls := c; subcls := s; protocol := q |}.

(** One iteration of the while loop: the next state, or the result it returns. *)
Definition parse_one (declared : Z) (s : parser_state) : option (parser_state + descriptor_result) :=
  let o := offset s in
  let stop e i obs := Some (inr (fail declared obs e i)) in
  if decide (sz - o < 2)%nat then stop descriptor_header_truncated no_interface (observed s) else
  length ← rd p o;
  type ← rd p (o + 1);
  if (length <? 2) || (Z.of_nat (sz - o) <? length) then
    stop invalid_descriptor_length no_interface (observed s)
  else
    let next seen n obs := Some (inl {| offset := o + Z.to_nat length; seen_interfaces := seen;
                                         interface_descriptors := n; observed := obs |}) in
    if type =? interface_descriptor_type then
      if length <? interface_descriptor_size then
        stop invalid_interface_descriptor no_interface (observed s)
      else
        intf ← read_interface o;
        let n := interface_descriptors s + 1 in
        let '(seen, obs) :=
          if decide (number intf ∈ seen_interfaces s) then (seen_interfaces s, observed s)
          else ({[number intf]} ∪ seen_interfaces s, observed s + 1) in
        ok ← is_allowed intf;
        if negb ok then stop interface_not_allowed intf obs else next seen n obs
    else if (type =? endpoint_descriptor_type) && (length <? endpoint_descriptor_size) then
      stop invalid_endpoint_descriptor no_interface (observed s)
    else next (seen_interfaces s) (interface_descriptors s) (observed s).

(** The checks after the loop. *)
Definition parse_end (declared : Z) (s : parser_state) : descriptor_result :=
  if interface_descriptors s =? 0 then fail declared (observed s) no_interfaces no_interface
  else if negb (observed s =? declared) then
    fail declared (observed s) interface_count_mismatch no_interface
  else fail declared (observed s) none no_interface.

Fixpoint parse_loop (fuel : nat) (declared : Z) (s : parser_state) : option descriptor_result :=
  if decide (offset s < sz)%nat then
    match fuel with
    | O => None
    | S fuel =>
        step ← parse_one declared s;
        match step with
        | inl s' => parse_loop fuel declared s'
        | inr r => Some r
        end
    end
  else Some (parse_end declared s).
End parser.

Definition initial_state : parser_state :=
  {| offset := 0; seen_interfaces := ∅; interface_descriptors := 0; observed := 0 |}.

(** Every iteration advances by at least two bytes, so [size] iterations suffice. *)
Definition evaluate_configuration (bytes : descriptor_bytes)
    (is_allowed : interface_class -> option bool) : option descriptor_result :=
  match data bytes with
  | None => Some (fail 0 0 configuration_header_too_short no_interface)
  | Some p =>
      if decide (size bytes < configuration_descriptor_size)%nat then
        Some (fail 0 0 configuration_header_too_short no_interface)
      else
        b0 ← rd p 0; b1 ← rd p 1;
        if negb (b0 =? Z.of_nat configuration_descriptor_size) || negb (b1 =? configuration_descriptor_type) then
          Some (fail 0 0 invalid_configuration_header no_interface)
        else
          b2 ← rd p 2; b3 ← rd p 3;
          let total := Z.lor b2 (Z.shiftl b3 8) in
          if negb (total =? Z.of_nat (size bytes)) then
            Some (fail 0 0 total_length_mismatch no_interface)
          else
            b4 ← rd p 4;
            parse_loop p (size bytes) is_allowed (size bytes) b4 initial_state
  end.

(** ** Specification: a chain of descriptors *)

(** One descriptor: its first byte is its length, its second its type. *)
Definition is_descriptor (d : list byte) : Prop :=
  exists l t body, d = l :: t :: body /\ b2z l = Z.of_nat (length d).

Inductive desc_chain : list byte -> list (list byte) -> Prop :=
| chain_nil : desc_chain [] []
| chain_cons d rest ds :
    is_descriptor d -> desc_chain rest ds -> desc_chain (d ++ rest) (d :: ds).

Definition desc_type (d : list byte) : option Z := rd d 1.

Definition is_interface (d : list byte) : Prop := desc_type d = Some interface_descriptor_type.

#[global] Instance is_interface_dec d : Decision (is_interface d).
Proof. unfold is_interface. apply _. Defined.

Definition interface_of (d : list byte) : option interface_class := read_interface d 0.

(** Interface and endpoint descriptors are long enough for their fields. *)
Definition fields_present (d : list byte) : Prop :=
  (is_interface d -> (9 <= length d)%nat) /\
  (desc_type d = Some endpoint_descriptor_type -> (7 <= length d)%nat).

Definition interface_allowed (allowed : interface_class -> Prop) (d : list byte) : Prop :=
  is_interface d -> exists i, interface_of d = Some i /\ allowed i.

(** The distinct bInterfaceNumber values of a chain. *)
Definition interface_numbers (ds : list (list byte)) : gset Z :=
  list_to_set (omap (fun d => number <$> interface_of d) (filter is_interface ds)).

(** What a configuration descriptor must be for the filter to accept it. *)
Record valid_configuration (allowed : interface_class -> Prop) (bs : list byte) : Prop := {
  vc_header : (9 <= length bs)%nat /\ rd bs 0 = Some 9 /\ rd bs 1 = Some 2;
  vc_total : exists lo hi, rd bs 2 = Some lo /\ rd bs 3 = Some hi /\ lo + 256 * hi = Z.of_nat (length bs);
  vc_body : exists ds declared,
      desc_chain bs ds /\ Forall fields_present ds /\ Forall (interface_allowed allowed) ds /\
      Exists is_interface ds /\
      rd bs 4 = Some declared /\ Z.of_nat (base.size (interface_numbers ds)) = declared }.

(** ** Lemmas: chains *)

Lemma rd_app_l p q k : (k < length p)%nat -> rd (p ++ q) k = rd p k.
Proof. intros. unfold rd. by rewrite lookup_app_l. Qed.

Lemma rd_drop p o k : rd (drop o p) k = rd p (o + k).
Proof. unfold rd. by rewrite lookup_drop. Qed.

Lemma rd_take p n k : (k < n)%nat -> rd (take n p) k = rd p k.
Proof. intros. unfold rd. by rewrite lookup_take_lt. Qed.

Lemma read_interface_drop p o : read_interface (drop o p) 0 = read_interface p o.
Proof. unfold read_interface. by rewrite !rd_drop, !Nat.add_0_l. Qed.

Lemma read_interface_app p q o : (o + 8 <= length p)%nat -> read_interface (p ++ q) o = read_interface p o.
Proof. intros. unfold read_interface. by rewrite !rd_app_l by lia. Qed.

Lemma read_interface_Some p o : (o + 8 <= length p)%nat -> exists i, read_interface p o = Some i.
Proof.
  intros H. unfold read_interface.
  destruct (rd_Some p (o + 2)) as (?&_&->); [lia|]. destruct (rd_Some p (o + 3)) as (?&_&->); [lia|].
  destruct (rd_Some p (o + 5)) as (?&_&->); [lia|]. destruct (rd_Some p (o + 6)) as (?&_&->); [lia|].
  destruct (rd_Some p (o + 7)) as (?&_&->); [lia|]. simpl. eauto.
Qed.

Lemma is_descriptor_intro d l t : rd d 0 = Some l -> rd d 1 = Some t ->
  l = Z.of_nat (length d) -> is_descriptor d.
Proof.
  destruct d as [|a [|b d]]; cbn; intros; simplify_eq. by exists a, b, d.
Qed.

Lemma chain_head rest ds : rest <> [] -> desc_chain rest ds ->
  exists d ds', ds = d :: ds' /\ rest = d ++ drop (length d) rest /\
    rd rest 0 = Some (Z.of_nat (length d)) /\ rd rest 1 = desc_type d /\
    (2 <= length d <= length rest)%nat /\ desc_chain (drop (length d) rest) ds'.
Proof.
  intros Hne Hc. destruct Hc as [|d rest ds Hd Hc]; [done|].
  exists d, ds. rewrite drop_app_length. destruct Hd as (l&t&body&->&Hl).
  simpl. unfold rd, desc_type, rd. simpl. rewrite Hl. simpl.
  rewrite length_app. repeat split; auto; lia.
Qed.

Lemma numbers_nil : interface_numbers [] = ∅.
Proof. reflexivity. Qed.

Lemma numbers_cons d ds : interface_numbers (d :: ds) =
  (if decide (is_interface d) then list_to_set (option_list (number <$> interface_of d)) else ∅)
    ∪ interface_numbers ds.
Proof.
  unfold interface_numbers. rewrite filter_cons. case_decide; [|set_solver].
  simpl. destruct (interface_of d); simpl; set_solver.
Qed.

(** ** Lemmas: the loop *)

(** The reads of one iteration, on the rest of the snapshot. *)
Section loop.
Context (p : list byte) (sz : nat) (is_allowed : interface_class -> option bool)
        (allowedb : interface_class -> bool) (declared : Z).
Hypothesis Hsz : (sz <= length p)%nat.
Hypothesis Hcb : forall i, is_allowed i = Some (allowedb i).
Let allowed i := allowedb i = true.
Let rest (s : parser_state) := drop (offset s) (take sz p).

Definition state_ok (s : parser_state) : Prop :=
  (offset s <= sz)%nat /\ 0 <= interface_descriptors s /\
  observed s = Z.of_nat (base.size (seen_interfaces s)).

(** [s'] is [s] after the well-formed descriptor [d]. *)
Definition after (s : parser_state) (d : list byte) (s' : parser_state) : Prop :=
  offset s' = (offset s + length d)%nat /\
  interface_descriptors s' = interface_descriptors s + (if decide (is_interface d) then 1 else 0) /\
  seen_interfaces s' = seen_interfaces s ∪ interface_numbers [d].

Definition good (d : list byte) : Prop := fields_present d /\ interface_allowed allowed d.

Lemma rest_length s : length (rest s) = (sz - offset s)%nat.
Proof. unfold rest. rewrite length_drop, length_take. lia. Qed.

Lemma rest_rd s k : (k < sz - offset s)%nat -> rd (rest s) k = rd p (offset s + k).
Proof. intros. unfold rest. by rewrite rd_drop, rd_take by lia. Qed.

Lemma rest_interface s : (8 <= sz - offset s)%nat ->
  read_interface (rest s) 0 = read_interface p (offset s).
Proof. intros. unfold read_interface. by rewrite !rest_rd by lia. Qed.

Lemma rest_prefix_interface s n : (8 <= n <= sz - offset s)%nat ->
  interface_of (take n (rest s)) = read_interface p (offset s).
Proof.
  intros. rewrite <- rest_interface by lia. unfold interface_of, read_interface.
  by rewrite !rd_take by lia.
Qed.

(** A rejected iteration: no chain of good descriptors starts here. *)
Definition rejects (s : parser_state) (r : descriptor_result) : Prop :=
  error r <> none /\
  ~ (exists d, rd (rest s) 0 = Some (Z.of_nat (length d)) /\ (2 <= length d <= length (rest s))%nat /\
               d = take (length d) (rest s) /\ good d).

Lemma insert_observed s n : observed s = Z.of_nat (base.size (seen_interfaces s)) ->
  n ∉ seen_interfaces s ->
  observed s + 1 = Z.of_nat (base.size ({[n]} ∪ seen_interfaces s)).
Proof. intros -> H. rewrite size_union, size_singleton by set_solver. lia. Qed.

Lemma parse_one_spec s : state_ok s -> (offset s < sz)%nat ->
  (exists s' d, parse_one p sz is_allowed declared s = Some (inl s') /\
     d = take (length d) (rest s) /\ rd (rest s) 0 = Some (Z.of_nat (length d)) /\
     (2 <= length d <= length (rest s))%nat /\ good d /\ after s d s' /\ state_ok s') \/
  (exists r, parse_one p sz is_allowed declared s = Some (inr r) /\ rejects s r).
Proof.
  intros (Ho&Hn&Hobs) Hlt. unfold parse_one.
  case_decide as H2.
  { right. eexists; split; [done|]. split; [done|]. intros (d&_&Hd&_). rewrite rest_length in Hd. lia. }
  destruct (rd_Some p (offset s)) as (bl&_&Hl); [lia|]. rewrite Hl. simpl.
  destruct (rd_Some p (offset s + 1)) as (bt&_&Ht); [lia|]. rewrite Ht. simpl.
  assert (Hr0 : rd (rest s) 0 = Some (b2z bl)) by (rewrite rest_rd, Nat.add_0_r by lia; done).
  pose proof (b2z_range bl) as Hbl. unfold is_u8 in Hbl.
  destruct ((b2z bl <? 2) || (Z.of_nat (sz - offset s) <? b2z bl)) eqn:Elen.
  { right. eexists; split; [done|]. split; [done|]. intros (d&Hd0&Hd&_).
    rewrite rest_length in Hd. rewrite Hr0 in Hd0. injection Hd0 as Hd0. lia. }
  bool_prop.
  set (d := take (Z.to_nat (b2z bl)) (rest s)).
  assert (Hd : length d = Z.to_nat (b2z bl)) by (unfold d; rewrite length_take, rest_length; lia).
  assert (Hty : desc_type d = Some (b2z bt)).
  { unfold desc_type, d. rewrite rd_take, rest_rd by lia. done. }
  assert (Hrej : forall r, error r <> none -> ~ good d -> rejects s r).
  { intros r Hr Hg. split; [done|]. intros (d'&Hd0&_&Hd'&Hg').
    rewrite Hr0 in Hd0. injection Hd0 as Hd0. apply Hg. unfold d.
    replace (Z.to_nat (b2z bl)) with (length d') by lia. by rewrite <- Hd'. }
  assert (Hsame : d = take (length d) (rest s) /\ rd (rest s) 0 = Some (Z.of_nat (length d)) /\
                  (2 <= length d <= length (rest s))%nat).
  { rewrite Hd, rest_length, Hr0. repeat split; try lia. f_equal. lia. }
  destruct (b2z bt =? interface_descriptor_type) eqn:Eint.
  - assert (Hi : is_interface d) by (unfold is_interface; rewrite Hty; f_equal; lia).
    assert (Hne : desc_type d <> Some endpoint_descriptor_type).
    { unfold is_interface in Hi. rewrite Hi. done. }
    unfold interface_descriptor_size.
    destruct (b2z bl <? 9) eqn:E9; bool_prop.
    { right. eexists; split; [done|]. apply Hrej; [done|]. intros [[Hf _] _]. specialize (Hf Hi). lia. }
    destruct (read_interface_Some p (offset s)) as [i Hri]; [lia|]. rewrite Hri. simpl.
    assert (Hof : interface_of d = Some i) by (unfold d; rewrite rest_prefix_interface by lia; done).
    assert (Hnum : interface_numbers [d] = {[number i]}).
    { rewrite numbers_cons. rewrite decide_True by done. rewrite Hof. simpl. set_solver. }
    rewrite Hcb. destruct (decide (number i ∈ seen_interfaces s)) as [Hin|Hin]; simpl;
      (destruct (allowedb i) eqn:Eal; simpl;
       [|right; eexists; split; [done|]; apply Hrej; [done|]; intros [_ Hal];
         destruct (Hal Hi) as (i'&Hi'&Ha); unfold allowed in Ha; congruence]).
    all: left; eexists _, d; split; [done|].
    all: destruct Hsame as (?&?&?); repeat (split; [done|]).
    all: split; [split; [split; [intros; lia|done]|intros _; exists i; done]|].
    all: split; [unfold after; simpl; rewrite decide_True by done; rewrite Hnum; repeat split;
           [by rewrite Hd|set_solver]|].
    + unfold state_ok; simpl; repeat split; [lia|lia|done].
    + unfold state_ok; simpl; repeat split; [lia|lia|by apply insert_observed].
  - assert (Hi : ~ is_interface d).
    { unfold is_interface. rewrite Hty. intros ?; simplify_eq. lia. }
    unfold endpoint_descriptor_size. destruct ((b2z bt =? endpoint_descriptor_type) && (b2z bl <? 7)) eqn:Eep; bool_prop.
    { right. eexists; split; [done|]. apply Hrej; [done|]. intros [[_ Hf] _].
      rewrite Hty in Hf. specialize (Hf ltac:(f_equal; lia)). lia. }
    left; eexists _, d; split; [done|]. destruct Hsame as (?&?&?); repeat (split; [done|]).
    split; [split; [split; [by intros ?|rewrite Hty; intros [= ?]; lia]|by intros ?]|].
    split; [|unfold state_ok; simpl; repeat split; [lia|lia|done]].
    unfold after; simpl. rewrite decide_False by done. rewrite numbers_cons, decide_False by done.
    rewrite Hd. repeat split; [lia|set_solver].
Qed.

Definition chain_of (s : parser_state) (ds : list (list byte)) : Prop :=
  desc_chain (rest s) ds /\ Forall good ds /\
  (0 < interface_descriptors s \/ Exists is_interface ds) /\
  Z.of_nat (base.size (seen_interfaces s ∪ interface_numbers ds)) = declared.

Lemma parse_end_spec s : state_ok s -> rest s = [] ->
  error (parse_end declared s) = none <-> exists ds, chain_of s ds.
Proof.
  intros (_&Hn&Hobs) Hr. unfold parse_end, chain_of. rewrite Hr. split.
  - intros H. exists []. rewrite numbers_nil, union_empty_r_L.
    destruct (_ =? 0) eqn:E0; [done|]. destruct (negb _) eqn:E1; [done|].
    split; [constructor|]. split; [constructor|]. split; [left; lia|]. simpl. lia.
  - intros (ds&Hc&_&Hi&Hd). inversion Hc as [|d r ds' Hdd Hcc Hnil]; subst ds.
    + rewrite numbers_nil, union_empty_r_L in Hd.
      destruct Hi as [Hi|Hi]; [|by inversion Hi].
      replace (_ =? 0) with false by lia. by replace (negb _) with false by lia.
    + apply app_eq_nil in Hnil as [-> _]. destruct Hdd as (?&?&?&?&_). done.
Qed.

Lemma after_chain s d s' ds : after s d s' -> (length d <= length (rest s))%nat ->
  rest s' = drop (length d) (rest s) /\
  (chain_of s' ds <->
     desc_chain (drop (length d) (rest s)) ds /\ Forall good ds /\
     (0 < interface_descriptors s' \/ Exists is_interface ds) /\
     Z.of_nat (base.size (seen_interfaces s ∪ interface_numbers (d :: ds))) = declared).
Proof.
  intros (Ho&Hi&Hs) Hlen.
  assert (Hr : rest s' = drop (length d) (rest s)).
  { unfold rest. rewrite drop_drop. by rewrite Ho. }
  split; [done|]. unfold chain_of. rewrite Hr, Hs.
  replace (seen_interfaces s ∪ interface_numbers [d] ∪ interface_numbers ds)
    with (seen_interfaces s ∪ interface_numbers (d :: ds)); [done|].
  rewrite (numbers_cons d ds), (numbers_cons d []). rewrite numbers_nil. set_solver.
Qed.

Lemma parse_loop_spec fuel s : state_ok s -> (sz - offset s <= fuel)%nat ->
  exists r, parse_loop p sz is_allowed fuel declared s = Some r /\
            (error r = none <-> exists ds, chain_of s ds).
Proof.
  revert s. induction fuel as [|fuel IH]; intros s Hs Hf.
  all: simpl; case_decide as Hlt; [|eexists; split; [done|]; apply parse_end_spec;
         [done|apply nil_length_inv; rewrite rest_length; lia]].
  { lia. }
  assert (Hne : rest s <> []) by (intros H; apply (f_equal length) in H; rewrite rest_length in H; simpl in H; lia).
  destruct (parse_one_spec s Hs Hlt) as [(s'&d&->&Hd&Hd0&Hl&Hg&Ha&Hs')|(r&->&Hr)]; simpl.
  - destruct (IH s' Hs') as (r&Hr&Hspec); [destruct Ha as (->&_); lia|].
    exists r. split; [done|]. rewrite Hspec. clear Hspec.
    assert (Hi : forall ds, (0 < interface_descriptors s' \/ Exists is_interface ds) <->
                 (0 < interface_descriptors s \/ Exists is_interface (d :: ds))).
    { intros ds. rewrite Exists_cons. destruct Ha as (_&->&_), Hs as (_&?&_).
      case_decide; intuition lia. }
    split; intros (ds&Hc).
    + apply (after_chain s d s' ds Ha) in Hc as (Hc&Hgs&Hin&Hdec); [|lia].
      exists (d :: ds). split; [|split; [by constructor|split; [by apply Hi|done]]].
      rewrite <- (take_drop (length d) (rest s)), <- Hd. constructor; [|done].
      apply (is_descriptor_intro d (Z.of_nat (length d)) (default 0 (desc_type d))); [| |done].
      * rewrite Hd, rd_take by lia. rewrite <- Hd. done.
      * destruct (rd_Some d 1) as (b&_&Hb); [lia|]. unfold desc_type. by rewrite Hb.
    + destruct Hc as (Hc&Hgs&Hin&Hdec).
      destruct (chain_head _ _ Hne Hc) as (d'&ds'&->&Hrest&Hd0'&_&Hl'&Hc').
      assert (d' = d) as ->.
      { rewrite Hd0 in Hd0'. injection Hd0' as Hd0'. apply Nat2Z.inj in Hd0'.
        rewrite Hd, Hd0'. rewrite Hrest. by rewrite take_app_length. }
      exists ds'. apply (after_chain s d s' ds' Ha); [lia|].
      split; [done|]. split; [by inversion Hgs|]. split; [by apply Hi|done].
  - exists r. split; [done|]. destruct Hr as [Hr Hno]. split; [done|].
    intros (ds&Hc&Hgs&_). exfalso. apply Hno.
    destruct (chain_head _ _ Hne Hc) as (d'&ds'&->&Hrest&Hd0'&_&Hl'&Hc').
    exists d'. split; [done|]. split; [done|]. split; [|by inversion Hgs].
    rewrite Hrest. by rewrite take_app_length.
Qed.
End loop.

Lemma lor_shift_8 lo hi : is_u8 lo -> Z.lor lo (Z.shiftl hi 8) = lo + 256 * hi.
Proof. intros H. rewrite Z.lor_comm, lor_shiftl_add; unfold is_u8 in *; lia. Qed.

Lemma Forall_good allowedb ds :
  Forall (good allowedb) ds <->
  Forall fields_present ds /\ Forall (interface_allowed (fun i => allowedb i = true)) ds.
Proof. unfold good. rewrite !List.Forall_forall. naive_solver. Qed.

Lemma chain_of_valid allowedb bs declared :
  (exists ds, chain_of bs (length bs) allowedb declared initial_state ds) <->
  exists ds, desc_chain bs ds /\ Forall fields_present ds /\
    Forall (interface_allowed (fun i => allowedb i = true)) ds /\
    Exists is_interface ds /\ Z.of_nat (base.size (interface_numbers ds)) = declared.
Proof.
  unfold chain_of. simpl. rewrite drop_0, firstn_all.
  split; intros (ds&H); exists ds; rewrite Forall_good, union_empty_l_L in *; intuition lia.
Qed.

(** The parser and the declarative reading agree on a snapshot of exactly [size] bytes. *)
Lemma evaluate_exact bs is_allowed allowedb :
  (forall i, is_allowed i = Some (allowedb i)) ->
  exists r, evaluate_configuration {| data := Some bs; size := length bs |} is_allowed = Some r /\
            (error r = none <-> valid_configuration (fun i => allowedb i = true) bs).
Proof.
  intros Hcb. unfold evaluate_configuration. simpl. unfold configuration_descriptor_size.
  case_decide as H9; [eexists; split; [done|]; split; [done|intros [(?&_) _ _]; lia]|].
  destruct (rd_Some bs 0) as (b0&_&R0); [lia|]. destruct (rd_Some bs 1) as (b1&_&R1); [lia|].
  destruct (rd_Some bs 2) as (b2&_&R2); [lia|]. destruct (rd_Some bs 3) as (b3&_&R3); [lia|].
  destruct (rd_Some bs 4) as (b4&_&R4); [lia|]. rewrite R0, R1. simpl.
  destruct (_ || _) eqn:Ehdr.
  { eexists; split; [done|]. split; [done|]. intros [(_&H0&H1) _ _].
    rewrite R0 in H0. rewrite R1 in H1. injection H0 as ?. injection H1 as ?.
    unfold configuration_descriptor_type in Ehdr. lia. }
  rewrite R2, R3. simpl. rewrite lor_shift_8 by auto with ranges.
  destruct (negb (_ =? Z.of_nat (length bs))) eqn:Etot.
  { eexists; split; [done|]. split; [done|]. intros [_ (lo&hi&H2&H3&?) _].
    rewrite R2 in H2. rewrite R3 in H3. injection H2 as ?. injection H3 as ?. lia. }
  rewrite R4. simpl.
  destruct (parse_loop_spec bs (length bs) is_allowed allowedb (b2z b4) (Nat.le_refl _) Hcb
              (length bs) initial_state) as (r&Hr&Hspec); [split; simpl; [lia|split; [lia|reflexivity]]|simpl; lia|].
  exists r. split; [done|]. rewrite Hspec, chain_of_valid. clear Hspec. split.
  - intros (ds&?&?&?&?&?). unfold configuration_descriptor_type in Ehdr. split.
    + rewrite R0, R1. repeat split; [lia|f_equal; lia|f_equal; lia].
    + exists (b2z b2), (b2z b3). repeat split; [done|done|lia].
    + exists ds, (b2z b4). auto 10.
  - intros [_ _ (ds&n&?&?&?&?&H4&?)]. rewrite R4 in H4. injection H4 as ->. exists ds. auto.
Qed.

(** Bytes past [size] are never looked at. *)
Lemma parse_one_take p sz cb declared s : (sz <= length p)%nat -> (offset s < sz)%nat ->
  parse_one (take sz p) sz cb declared s = parse_one p sz cb declared s.
Proof.
  intros Hsz Hlt. unfold parse_one. case_decide; [done|]. rewrite !rd_take by lia.
  destruct (rd p (offset s)) as [l|] eqn:El; [|done]. simpl.
  destruct (rd p (offset s + 1)) as [t|]; [|done]. simpl.
  destruct (_ || _) eqn:E1; [done|]. destruct (t =? interface_descriptor_type); [|done].
  destruct (l <? interface_descriptor_size) eqn:E2; [done|].
  unfold interface_descriptor_size in E2. unfold read_interface. by rewrite !rd_take by lia.
Qed.

Lemma parse_loop_take p sz cb declared fuel s : (sz <= length p)%nat ->
  parse_loop (take sz p) sz cb fuel declared s = parse_loop p sz cb fuel declared s.
Proof.
  intros Hsz. revert s. induction fuel as [|fuel IH]; intros s; simpl; [done|].
  case_decide; [|done]. rewrite parse_one_take by done.
  destruct (parse_one _ _ _ _ _) as [[s'|r]|]; simpl; auto.
Qed.

Lemma evaluate_take p sz cb : (sz <= length p)%nat ->
  evaluate_configuration {| data := Some (take sz p); size := sz |} cb =
  evaluate_configuration {| data := Some p; size := sz |} cb.
Proof.
  intros Hsz. unfold evaluate_configuration. simpl. unfold configuration_descriptor_size.
  case_decide; [done|]. rewrite !rd_take by lia.
  destruct (rd p 0); [|done]; simpl. destruct (rd p 1); [|done]; simpl.
  destruct (_ || _); [done|]. destruct (rd p 2); [|done]; simpl. destruct (rd p 3); [|done]; simpl.
  destruct (negb _); [done|]. destruct (rd p 4); [|done]; simpl. by apply parse_loop_take.
Qed.

Lemma desc_chain_unique bs ds1 ds2 : desc_chain bs ds1 -> desc_chain bs ds2 -> ds1 = ds2.
Proof.
  intros H1. revert ds2. induction H1 as [|d rest ds Hd Hc IH]; intros ds2 H2.
  - inversion H2 as [|d r ds' Hd _ Hnil]; [done|].
    apply app_eq_nil in Hnil as [-> _]. destruct Hd as (?&?&?&?&_). done.
  - assert (Hne : d ++ rest <> []) by (destruct Hd as (?&?&?&->&_); done).
    destruct (chain_head _ _ Hne H2) as (d'&ds'&->&Hrest&H0&_&_&Hc').
    assert (d' = d) as ->.
    { destruct Hd as (l&t&body&->&Hl). unfold rd in H0. simpl in H0. injection H0 as H0.
      rewrite Hl in H0. apply Nat2Z.inj in H0.
      assert (Ht : take (length d') ((l :: t :: body) ++ rest) = d') by (rewrite Hrest; apply take_app_length).
      rewrite <- H0 in Ht. by rewrite take_app_length in Ht. }
    f_equal. apply IH. by rewrite drop_app_length in Hc'.
Qed.

(** A loop that rejects a class names an interface descriptor of the chain it walked. *)
Definition names_disallowed (allowedb : interface_class -> bool) (bs : list byte) (i : interface_class) : Prop :=
  exists pre d post, bs = pre ++ d ++ post /\ is_descriptor d /\ is_interface d /\
    interface_of d = Some i /\ allowedb i = false /\ exists ds, desc_chain pre ds.

Lemma desc_chain_app p ds d : desc_chain p ds -> is_descriptor d -> desc_chain (p ++ d) (ds ++ [d]).
Proof.
  induction 1 as [|d' rest ds' Hd' Hc IH]; intros Hd; simpl.
  - pose proof (chain_cons d [] [] Hd chain_nil) as H. by rewrite app_nil_r in H.
  - rewrite <- app_assoc. constructor; auto.
Qed.

Lemma taken_descriptor d r : d = take (length d) r -> rd r 0 = Some (Z.of_nat (length d)) ->
  (2 <= length d)%nat -> is_descriptor d.
Proof.
  intros Hd H0 Hl. destruct (rd_Some d 1) as (b&_&Hb); [lia|].
  apply (is_descriptor_intro d (Z.of_nat (length d)) (b2z b)); [|done|done].
  rewrite Hd, rd_take by lia. by rewrite <- Hd.
Qed.

Lemma parse_one_offending bs cb allowedb declared s r :
  (forall i, cb i = Some (allowedb i)) -> (offset s < length bs)%nat ->
  parse_one bs (length bs) cb declared s = Some (inr r) -> error r = interface_not_allowed ->
  exists d, d = take (length d) (drop (offset s) bs) /\ is_descriptor d /\ is_interface d /\
    interface_of d = Some (offending_interface r) /\ allowedb (offending_interface r) = false.
Proof.
  intros Hcb Hlt H He. unfold parse_one in H. case_decide as H2; [simplify_eq; done|].
  destruct (rd_Some bs (offset s)) as (bl&_&Hl); [lia|]. rewrite Hl in H. simpl in H.
  destruct (rd_Some bs (offset s + 1)) as (bt&_&Ht); [lia|]. rewrite Ht in H. simpl in H.
  destruct (_ || _) eqn:E1; [simplify_eq; done|].
  destruct (b2z bt =? interface_descriptor_type) eqn:E2;
    [|destruct (_ && _); simplify_eq; done].
  destruct (b2z bl <? interface_descriptor_size) eqn:E3; [simplify_eq; done|].
  unfold interface_descriptor_size in E3.
  set (d := take (Z.to_nat (b2z bl)) (drop (offset s) bs)).
  assert (Hd : length d = Z.to_nat (b2z bl)) by (unfold d; rewrite length_take, length_drop; lia).
  destruct (read_interface bs (offset s)) as [i|] eqn:Ei; [|done]. simpl in H.
  rewrite Hcb in H.
  assert (Hr : allowedb i = false /\ offending_interface r = i).
  { destruct (decide (number i ∈ seen_interfaces s)), (allowedb i); simpl in H; simplify_eq; done. }
  destruct Hr as [Ha Hr]. exists d. rewrite Hr.
  assert (Hrd : forall k, (k < length d)%nat -> rd d k = rd bs (offset s + k)).
  { intros k Hk. unfold d in *. rewrite rd_take, rd_drop by lia. done. }
  split; [by rewrite Hd|]. split.
  { apply (is_descriptor_intro d (b2z bl) (b2z bt)); [rewrite Hrd, Nat.add_0_r by lia; done|
      rewrite Hrd by lia; done|lia]. }
  split; [unfold is_interface, desc_type; rewrite Hrd by lia; rewrite Ht; f_equal; lia|].
  split; [|done]. rewrite <- Ei. unfold interface_of, read_interface. by rewrite !Hrd by lia.
Qed.

Lemma parse_loop_offending bs cb allowedb declared fuel s r ds :
  (forall i, cb i = Some (allowedb i)) ->
  state_ok (length bs) s -> desc_chain (take (offset s) bs) ds ->
  parse_loop bs (length bs) cb fuel declared s = Some r -> error r = interface_not_allowed ->
  names_disallowed allowedb bs (offending_interface r).
Proof.
  intros Hcb. revert s ds. induction fuel as [|fuel IH]; intros s ds Hs Hc H He; simpl in H;
    (case_decide as Hlt; [|injection H as <-; unfold parse_end in He;
       destruct (_ =? 0); [done|]; destruct (negb _); done]); [done|].
  destruct (parse_one bs (length bs) cb declared s) as [[s'|r']|] eqn:E; simpl in H; [| |done].
  - destruct (parse_one_spec bs (length bs) cb allowedb declared (Nat.le_refl _) Hcb s Hs Hlt)
      as [(s2&d&E2&Hd&H0&Hl&_&(Ho&_&_)&Hs2)|(r'&E2&_)]; rewrite E in E2; [|done].
    injection E2 as <-. rewrite firstn_all in *.
    apply (IH s' (ds ++ [d])); [done| |done|done].
    rewrite Ho, <- (take_drop (offset s) bs), take_app_ge
      by (rewrite length_take; lia). rewrite length_take, length_drop in *.
    replace (offset s + length d - _)%nat with (length d) by lia. rewrite <- Hd.
    apply desc_chain_app; [done|]. apply (taken_descriptor d _ Hd H0). lia.
  - injection H as <-.
    destruct (parse_one_offending bs cb allowedb declared s r' Hcb Hlt E He) as (d&Hd&Hdd&Hi&Hof&Ha).
    exists (take (offset s) bs), d, (drop (length d) (drop (offset s) bs)).
    split; [|by eauto 10].
    transitivity (take (offset s) bs ++ drop (offset s) bs); [by rewrite take_drop|f_equal].
    rewrite <- (take_drop (length d) (drop (offset s) bs)) at 1. by rewrite <- Hd.
Qed.

(** A buffer whose bytes past [size] are stale agrees with the exact snapshot. *)
Lemma evaluate_prefix p sz cb allowedb : (sz <= length p)%nat ->
  (forall i, cb i = Some (allowedb i)) ->
  exists r, evaluate_configuration {| data := Some p; size := sz |} cb = Some r /\
            (error r = none <-> valid_configuration (fun i => allowedb i = true) (take sz p)).
Proof.
  intros Hsz Hcb. rewrite <- evaluate_take by done.
  destruct (evaluate_exact (take sz p) cb allowedb Hcb) as (r&Hr&Hspec).
  rewrite length_take_le in Hr by done. eauto.
Qed.

(** C3: on every buffer of at least [size] bytes the parser returns a result (it
    never reads outside the buffer and its loop ends), and it accepts exactly the
    valid configuration descriptors: wTotalLength is the snapshot's size, the bytes
    are a chain of complete descriptors, there is an interface, every interface and
    alternate setting is allowed, and bNumInterfaces is the number of distinct
    interface numbers. *)
Theorem evaluate_configuration_correct : forall (p : list byte) (sz : nat)
    (cb : interface_class -> option bool) (allowedb : interface_class -> bool),
  (sz <= length p)%nat -> (forall i, cb i = Some (allowedb i)) ->
  exists r, evaluate_configuration {| data := Some p; size := sz |} cb = Some r /\
            (error r = none <-> valid_configuration (fun i => allowedb i = true) (take sz p)).
Proof. intros. by apply evaluate_prefix. Qed.

(** No interface can be hidden from the filter: if the parser accepts, then
    however the accepted bytes are read as a chain of descriptors, every interface
    descriptor of that chain (alternate settings included) is allowed. *)
Theorem accepted_hides_no_interface : forall (p : list byte) (sz : nat)
    (cb : interface_class -> option bool) (allowedb : interface_class -> bool) r ds d,
  (sz <= length p)%nat -> (forall i, cb i = Some (allowedb i)) ->
  evaluate_configuration {| data := Some p; size := sz |} cb = Some r -> result_ok r = true ->
  desc_chain (take sz p) ds -> d ∈ ds -> is_interface d ->
  exists i, interface_of d = Some i /\ allowedb i = true.
Proof.
  intros p sz cb allowedb r ds d Hsz Hcb Hr Hok Hc Hin Hd.
  destruct (evaluate_prefix p sz cb allowedb Hsz Hcb) as (r'&Hr'&Hspec).
  rewrite Hr in Hr'. injection Hr' as <-. unfold result_ok in Hok. apply bool_decide_eq_true in Hok.
  apply Hspec in Hok as [_ _ (ds'&n&Hc'&_&Hal&_)].
  rewrite (desc_chain_unique _ _ _ Hc Hc') in Hin.
  rewrite List.Forall_forall in Hal. apply Hal; [by apply list_elem_of_In|done].
Qed.

(** A rejection for a class names a real culprit: an interface descriptor that
    the chain reaches, whose class tuple the callback refused. *)
Theorem rejection_names_disallowed_interface : forall bs
    (cb : interface_class -> option bool) (allowedb : interface_class -> bool) r,
  (forall i, cb i = Some (allowedb i)) ->
  evaluate_configuration {| data := Some bs; size := length bs |} cb = Some r ->
  error r = interface_not_allowed ->
  names_disallowed allowedb bs (offending_interface r).
Proof.
  intros bs cb allowedb r Hcb Hr He. unfold evaluate_configuration in Hr. simpl in Hr.
  case_decide; [simplify_eq; done|].
  destruct (rd bs 0); [|done]; simpl in Hr. destruct (rd bs 1); [|done]; simpl in Hr.
  destruct (_ || _); [simplify_eq; done|].
  destruct (rd bs 2); [|done]; simpl in Hr. destruct (rd bs 3); [|done]; simpl in Hr.
  destruct (negb _); [simplify_eq; done|]. destruct (rd bs 4) as [n|]; [|done]; simpl in Hr.
  eapply (parse_loop_offending bs cb allowedb n _ initial_state); [done| |constructor|done|done].
  split; simpl; [lia|split; [lia|reflexivity]].
Qed.

(** ** Witnesses: a mass-storage configuration, and the same with a hidden keyboard *)

Definition storage_config : list byte := map z2b
  [9; 2; 32; 0; 1; 1; 0; 128; 50;
   9; 4; 0; 0; 2; 8; 6; 80; 0;
   7; 5; 129; 2; 0; 2; 0;
   7; 5; 2; 2; 0; 2; 0].

Definition smuggling_config : list byte := map z2b
  [9; 2; 41; 0; 2; 1; 0; 128; 50;
   9; 4; 0; 0; 2; 8; 6; 80; 0;
   7; 5; 129; 2; 0; 2; 0;
   7; 5; 2; 2; 0; 2; 0;
   9; 4; 1; 0; 1; 3; 1; 1; 0].

Definition storage_only (i : interface_class) : bool := cls i =? 8.

Example storage_accepted : forall e,
  option_map result_ok (evaluate_configuration {| data := Some (storage_config ++ e); size := 32 |}
     (fun i => Some (storage_only i))) = Some true.
Proof. reflexivity. Qed.

Lemma evaluate_configuration_correct_witness :
  exists r, evaluate_configuration {| data := Some storage_config; size := 32 |}
              (fun i => Some (storage_only i)) = Some r /\
    (error r = none <-> valid_configuration (fun i => storage_only i = true) (take 32 storage_config)).
Proof. apply (evaluate_configuration_correct storage_config 32); [vm_compute; lia|done]. Defined.

Lemma accepted_hides_no_interface_witness :
  exists i, interface_of (take 9 (drop 9 storage_config)) = Some i /\ storage_only i = true.
Proof.
  apply (accepted_hides_no_interface storage_config 32 (fun i => Some (storage_only i)) storage_only
    (fail 1 1 none no_interface)
    [take 9 storage_config; take 9 (drop 9 storage_config); take 7 (drop 18 storage_config);
     take 7 (drop 25 storage_config)]).
  - vm_compute. lia.
  - done.
  - reflexivity.
  - reflexivity.
  - change (desc_chain (take 9 storage_config ++ take 9 (drop 9 storage_config) ++
      take 7 (drop 18 storage_config) ++ take 7 (drop 25 storage_config) ++ [])
      [take 9 storage_config; take 9 (drop 9 storage_config);
       take 7 (drop 18 storage_config); take 7 (drop 25 storage_config)]).
    repeat (apply chain_cons; [by eexists _, _, _|]). constructor.
  - right. left.
  - reflexivity.
Defined.

Lemma rejection_names_disallowed_interface_witness :
  exists i, names_disallowed storage_only smuggling_config i /\ cls i = 3 /\ number i = 1.
Proof.
  eexists. split.
  - apply (rejection_names_disallowed_interface smuggling_config (fun i => Some (storage_only i)));
      [done|vm_compute; reflexivity|reflexivity].
  - split; reflexivity.
Defined.
