(* ===== verification/Policy.v ===== *)
(** * The device-type whitelist policy

    Models drivers/ude/device_filter_policy.h (sanitizing and serializing), the
    policy record of device_filter.h with [is_allowed], [load] and [store] of
    device_filter.cpp, and the SET_DEVICE_FILTER / GET_DEVICE_FILTER handlers of
    vhci_ioctl.cpp.  The registry is an interface ([Registry]) whose laws are the
    documented behaviour of WdfRegistryQueryValue and WdfRegistryAssignValue. *)

From S2P Require Import Prelude.

(** ** Data *)

(** enum class filter_mode : UINT8; a mode read from outside is any byte. *)
Definition mode_disabled : Z := 0.
Definition mode_whitelist : Z := 1.

Definition FILTER_MATCH_CLASS : Z := 1.
Definition FILTER_MATCH_SUBCLASS : Z := 2.
Definition FILTER_MATCH_PROTOCOL : Z := 4.
Definition MAX_DEVICE_FILTER_ENTRIES : nat := 64.

Record device_filter_entry : Type := {
  bClass : byte; bSubClass : byte; bProtocol : byte; match_flags : byte }.

Definition zero_entry : device_filter_entry :=
  {| bClass := x00; bSubClass := x00; bProtocol := x00; match_flags := x00 |}.

(** [entries] is the fixed array of MAX_DEVICE_FILTER_ENTRIES elements. *)
Record policy : Type := { mode : byte; count : Z; entries : list device_filter_entry }.

Definition policy_ok (p : policy) : Prop :=
  length (entries p) = MAX_DEVICE_FILTER_ENTRIES /\ is_u32 (count p).

(** The state of a policy after [load]: the fields is_allowed relies on. *)
Definition policy_sane (p : policy) : Prop :=
  policy_ok p /\ count p <= Z.of_nat MAX_DEVICE_FILTER_ENTRIES /\
  (b2z (mode p) = mode_disabled \/ b2z (mode p) = mode_whitelist).

(** ** is_allowed *)

Definition flag_set (e : device_filter_entry) (f : Z) : bool :=
  negb (Z.land (b2z (match_flags e)) f =? 0).

(** The three [continue] tests of the loop. *)
Definition entry_matches (e : device_filter_entry) (cls sub proto : Z) : bool :=
  if flag_set e FILTER_MATCH_CLASS && negb (b2z (bClass e) =? cls) then false
  else if flag_set e FILTER_MATCH_SUBCLASS && negb (b2z (bSubClass e) =? sub) then false
  else if flag_set e FILTER_MATCH_PROTOCOL && negb (b2z (bProtocol e) =? proto) then false
  else true.

(** [for (i = 0; i < p.count; ++i)]; [None] is a read past the array. *)
Fixpoint allowed_loop (es : list device_filter_entry) (n : nat) (cls sub proto : Z) : option bool :=
  match n, es with
  | O, _ => Some false
  | S _, [] => None
  | S n, e :: es => if entry_matches e cls sub proto then Some true else allowed_loop es n cls sub proto
  end.

Definition is_allowed (p : policy) (cls sub proto : Z) : option bool :=
  if b2z (mode p) =? mode_disabled then Some true
  else allowed_loop (entries p) (Z.to_nat (count p)) cls sub proto.

(** ** Sanitizing (device_filter_policy.h) *)

Inductive policy_value_status : Type := ok | bad_type_or_size.

Definition policy_entry_capacity : Z := Z.of_nat MAX_DEVICE_FILTER_ENTRIES.
Definition entry_size : Z := 4.
(** offsetof(policy, entries): UINT8 mode, padding, ULONG count. *)
Definition policy_entries_offset : Z := 8.

Definition make_fail_closed_policy (whitelist_mode : byte) : policy :=
  {| mode := whitelist_mode; count := 0; entries := replicate MAX_DEVICE_FILTER_ENTRIES zero_entry |}.

Definition sanitize_loaded_policy (raw : policy) (actual_bytes value_type binary_type : Z)
    (disabled_mode whitelist_mode : byte) : policy * policy_value_status :=
  let out := make_fail_closed_policy whitelist_mode in
  if negb (value_type =? binary_type) || (actual_bytes <? policy_entries_offset) then
    (out, bad_type_or_size)
  else
    let max_by_len := (actual_bytes - policy_entries_offset) / entry_size in
    let cnt := count raw in
    let cnt := if max_by_len <? cnt then max_by_len else cnt in
    let cnt := if policy_entry_capacity <? cnt then policy_entry_capacity else cnt in
    ({| mode := if bool_decide (mode raw = disabled_mode) then disabled_mode else whitelist_mode;
        count := u32 cnt;
        entries := take (Z.to_nat cnt) (entries raw) ++ drop (Z.to_nat cnt) (entries out) |}, ok).

Definition sanitize_policy_for_store (p : policy) (disabled_mode whitelist_mode : byte) : policy :=
  {| mode := if bool_decide (mode p = disabled_mode) then mode p else whitelist_mode;
     count := if policy_entry_capacity <? count p then u32 policy_entry_capacity else count p;
     entries := entries p |}.

Definition serialized_policy_size (cnt : Z) : Z := policy_entries_offset + cnt * entry_size.

(** ** The memory image of a policy *)

Definition entry_bytes (e : device_filter_entry) : list byte :=
  [bClass e; bSubClass e; bProtocol e; match_flags e].

(** The three padding bytes after [mode] carry no information. *)
Definition policy_bytes (pad : list byte) (p : policy) : list byte :=
  mode p :: take 3 (pad ++ replicate 3 x00) ++ le_bytes 4 (count p) ++ concat (map entry_bytes (entries p)).

Fixpoint entries_of_bytes (n : nat) (bs : list byte) : list device_filter_entry :=
  match n, bs with
  | S n, a :: b :: c :: d :: bs =>
      {| bClass := a; bSubClass := b; bProtocol := c; match_flags := d |} :: entries_of_bytes n bs
  | _, _ => []
  end.

Definition policy_of_bytes (bs : list byte) : policy :=
  {| mode := nth 0 bs x00; count := le_val (take 4 (drop 4 bs));
     entries := entries_of_bytes MAX_DEVICE_FILTER_ENTRIES (drop 8 bs) |}.

Definition sizeof_policy : Z := 264.

(** ** The registry *)

Definition REG_BINARY : Z := 3.

(** The driver's Parameters key: opening it for reading or for writing, querying
    the DeviceFilter value into a buffer of [len] bytes (status, the bytes written
    to the buffer, the value's size, its type), assigning it. *)
Class Registry (R : Type) : Type := {
  reg_open : R -> ntstatus;
  reg_open_for_set : R -> ntstatus;
  reg_query : R -> Z -> ntstatus * list byte * Z * Z;
  reg_assign : R -> Z -> list byte -> ntstatus * R }.

(** A successful query wrote exactly the value, which fits; an assigned value is
    what a large enough query returns; assigning does not change access rights. *)
Class RegistryLaws (R : Type) `{Registry R} : Prop := {
  reg_query_fits : forall r len bs actual ty,
      reg_query r len = (STATUS_SUCCESS, bs, actual, ty) ->
      Z.of_nat (length bs) = actual /\ actual <= len;
  reg_query_assigned : forall r r' ty bs len,
      reg_assign r ty bs = (STATUS_SUCCESS, r') -> Z.of_nat (length bs) <= len ->
      reg_query r' len = (STATUS_SUCCESS, bs, Z.of_nat (length bs), ty);
  reg_open_assigned : forall r r' ty bs st,
      reg_assign r ty bs = (st, r') -> reg_open r' = reg_open r }.

Section registry.
Context {R : Type} `{Registry R}.

Definition whitelist_byte : byte := x01.
Definition disabled_byte : byte := x00.

(** [stack] is the indeterminate content of the local [policy tmp]. *)
Definition load (r : R) (stack : list byte) : policy :=
  let p := make_fail_closed_policy whitelist_byte in
  if decide (reg_open r = STATUS_SUCCESS) then
    let '(st, bs, actual, type) := reg_query r sizeof_policy in
    if decide (st = STATUS_SUCCESS) then
      let tmp := bs ++ drop (length bs) stack in
      fst (sanitize_loaded_policy (policy_of_bytes tmp) actual type REG_BINARY disabled_byte whitelist_byte)
    else p
  else p.

Definition store (r : R) (pad : list byte) (p : policy) : ntstatus * R :=
  let tmp := sanitize_policy_for_store p disabled_byte whitelist_byte in
  let st := reg_open_for_set r in
  if decide (st = STATUS_SUCCESS) then
    let len := u32 (serialized_policy_size (count tmp)) in
    reg_assign r REG_BINARY (take (Z.to_nat len) (policy_bytes pad tmp))
  else (st, r).

(** ** IOCTLs

    struct device_filter { ULONG size; UINT8 mode; UINT8 reserved[3]; ULONG count;
    device_filter_entry entries[1]; } *)
Definition sizeof_device_filter : Z := 16.
Definition device_filter_entries_offset : Z := 12.

Definition field (off len : nat) (buf : list byte) : Z := le_val (take len (drop off buf)).

(** WdfRequestRetrieve{Input,Output}Buffer with a minimum length. *)
Definition retrieve_buffer (min_len : Z) (buf : list byte) : res unit :=
  guard_err (min_len <=? Z.of_nat (length buf)) STATUS_BUFFER_TOO_SMALL.

Definition avail_entries (buf : list byte) : Z :=
  (Z.of_nat (length buf) - device_filter_entries_offset) / entry_size.

Definition set_device_filter (r : R) (pad : list byte) (inbuf : list byte) : ntstatus * R :=
  match retrieve_buffer sizeof_device_filter inbuf with
  | Err e => (e, r)
  | Ok _ =>
      let cnt := field 8 4 inbuf in
      if negb (field 0 4 inbuf =? sizeof_device_filter) then (USBIP_ERROR_ABI, r)
      else if avail_entries inbuf <? cnt then (STATUS_INVALID_BUFFER_SIZE, r)
      else if Z.of_nat MAX_DEVICE_FILTER_ENTRIES <? cnt then (STATUS_INVALID_PARAMETER, r)
      else
        let n := Z.to_nat cnt in
        store r pad {| mode := nth 4 inbuf x00; count := cnt;
                       entries := entries_of_bytes n (drop 12 inbuf) ++
                                  replicate (MAX_DEVICE_FILTER_ENTRIES - n) zero_entry |}
  end.

(** The status, WdfRequestSetInformation and the output buffer's new content. *)
Definition get_device_filter (r : R) (stack outbuf : list byte) : ntstatus * Z * list byte :=
  match retrieve_buffer sizeof_device_filter outbuf with
  | Err e => (e, 0, outbuf)
  | Ok _ =>
      if negb (field 0 4 outbuf =? sizeof_device_filter) then (USBIP_ERROR_ABI, 0, outbuf)
      else
        let p := load r stack in
        if avail_entries outbuf <? count p then (STATUS_BUFFER_TOO_SMALL, 0, outbuf)
        else
          let out := take 4 outbuf ++ [mode p; x00; x00; x00] ++ le_bytes 4 (count p) ++
                     concat (map entry_bytes (take (Z.to_nat (count p)) (entries p))) in
          let written := device_filter_entries_offset + count p * entry_size in
          (STATUS_SUCCESS, written, out ++ drop (length out) outbuf)
  end.
End registry.

(** ** Specifications *)

(** Entry [e] matches a class tuple: every field it constrains is equal. *)
Definition entry_admits (e : device_filter_entry) (cls sub proto : Z) : Prop :=
  (Z.testbit (b2z (match_flags e)) 0 = true -> b2z (bClass e) = cls) /\
  (Z.testbit (b2z (match_flags e)) 1 = true -> b2z (bSubClass e) = sub) /\
  (Z.testbit (b2z (match_flags e)) 2 = true -> b2z (bProtocol e) = proto).

(** The policy admits a tuple: disabled, or one of the first [count] entries matches. *)
Definition policy_admits (p : policy) (cls sub proto : Z) : Prop :=
  b2z (mode p) = mode_disabled \/
  exists i e, Z.of_nat i < count p /\ entries p !! i = Some e /\ entry_admits e cls sub proto.

(** What a registry value of at least policy_entries_offset bytes means. *)
Definition value_count (bs : list byte) : nat :=
  Nat.min (Z.to_nat (field 4 4 bs))
    (Nat.min ((length bs - 8) / 4) MAX_DEVICE_FILTER_ENTRIES).

Definition value_policy (bs : list byte) : policy :=
  {| mode := if bool_decide (nth 0 bs x00 = disabled_byte) then disabled_byte else whitelist_byte;
     count := Z.of_nat (value_count bs);
     entries := entries_of_bytes (value_count bs) (drop 8 bs) ++
                replicate (MAX_DEVICE_FILTER_ENTRIES - value_count bs) zero_entry |}.

(** The policy a registry promises, whatever the stack of [load] holds. *)
Definition registry_policy {R} `{Registry R} (r : R) : policy :=
  match decide (reg_open r = STATUS_SUCCESS), reg_query r sizeof_policy with
  | left _, (STATUS_SUCCESS, bs, actual, ty) =>
      if (ty =? REG_BINARY) && (policy_entries_offset <=? actual) then value_policy bs
      else make_fail_closed_policy whitelist_byte
  | _, _ => make_fail_closed_policy whitelist_byte
  end.

(** The policy [store] keeps: the normal form of [p]. *)
Definition normal_policy (p : policy) : policy :=
  let n := Nat.min (Z.to_nat (count p)) MAX_DEVICE_FILTER_ENTRIES in
  {| mode := if bool_decide (mode p = disabled_byte) then disabled_byte else whitelist_byte;
     count := Z.of_nat n;
     entries := take n (entries p) ++ replicate (MAX_DEVICE_FILTER_ENTRIES - n) zero_entry |}.

(** ** Lemmas *)

Lemma land_bit_set z k : 0 <= k -> (Z.land z (2 ^ k) =? 0) = negb (Z.testbit z k).
Proof.
  intros Hk. destruct (Z.testbit z k) eqn:E; simpl.
  - apply Z.eqb_neq. intros H0.
    assert (Z.testbit (Z.land z (2 ^ k)) k = false) as Hf by (rewrite H0; apply Z.bits_0).
    rewrite Z.land_spec, E, Z.pow2_bits_true in Hf by lia. discriminate.
  - apply Z.eqb_eq, Z.bits_inj'. intros n Hn. rewrite Z.land_spec, Z.bits_0.
    destruct (decide (n = k)) as [->|Hne]; [by rewrite E|].
    rewrite Z.pow2_bits_false by lia. apply andb_false_r.
Qed.

Lemma entry_matches_admits e cls sub proto :
  entry_matches e cls sub proto = true <-> entry_admits e cls sub proto.
Proof.
  unfold entry_matches, entry_admits, flag_set.
  change FILTER_MATCH_CLASS with (2 ^ 0). change FILTER_MATCH_SUBCLASS with (2 ^ 1).
  change FILTER_MATCH_PROTOCOL with (2 ^ 2). rewrite !land_bit_set, !negb_involutive by lia.
  repeat match goal with |- context [Z.testbit ?a ?b] => destruct (Z.testbit a b) end;
    repeat match goal with |- context [?a =? ?b] => destruct (Z.eqb_spec a b) end;
    simpl; naive_solver.
Qed.

Lemma allowed_loop_Some es n cls sub proto : (n <= length es)%nat ->
  exists b, allowed_loop es n cls sub proto = Some b /\
    (b = true <-> exists i e, (i < n)%nat /\ es !! i = Some e /\ entry_admits e cls sub proto).
Proof.
  revert es. induction n as [|n IH]; intros es Hn.
  - destruct es; exists false; (split; [done|]); split; [done|intros; deex; lia | done|intros; deex; lia].
  - destruct es as [|e es]; simpl in *; [lia|].
    destruct (entry_matches e cls sub proto) eqn:E.
    + exists true. split; [done|]. split; [|done]. intros _. exists 0%nat, e.
      split; [lia|]. split; [done|]. by apply entry_matches_admits.
    + destruct (IH es) as (b & Hb & Hi); [lia|]. exists b. split; [done|]. rewrite Hi. split.
      * intros (i & e' & ? & ? & ?). exists (S i), e'. split; [lia|done].
      * intros ([|i] & e' & ? & He' & Ha); simpl in He'; simplify_eq.
        -- apply entry_matches_admits in Ha. congruence.
        -- exists i, e'. split; [lia|done].
Qed.

Lemma length_entries_of_bytes n bs : (4 * n <= length bs)%nat -> length (entries_of_bytes n bs) = n.
Proof.
  revert bs. induction n as [|n IH]; intros bs Hl; [done|].
  destruct bs as [|a [|b [|c [|d bs]]]]; simpl in *; try lia. f_equal. apply IH. lia.
Qed.

(** A prefix of the entries depends only on the bytes it is read from. *)
Lemma take_entries_of_bytes k n bs t : (k <= n)%nat -> (4 * k <= length bs)%nat ->
  take k (entries_of_bytes n (bs ++ t)) = entries_of_bytes k bs.
Proof.
  revert n bs. induction k as [|k IH]; intros n bs Hk Hl; [done|].
  destruct n as [|n]; [lia|].
  destruct bs as [|a [|b [|c [|d bs]]]]; simpl in *; try lia. f_equal. apply IH; lia.
Qed.

Lemma entries_of_entry_bytes es t :
  entries_of_bytes (length es) (concat (map entry_bytes es) ++ t) = es.
Proof. induction es as [|[a b c d] es IH]; simpl; [done|]. by rewrite IH. Qed.

Lemma entry_bytes_of_entries n bs : (4 * n <= length bs)%nat ->
  concat (map entry_bytes (entries_of_bytes n bs)) = take (4 * n) bs.
Proof.
  revert bs. induction n as [|n IH]; intros bs Hl; [done|].
  destruct bs as [|a [|b [|c [|d bs]]]]; simpl in Hl; try lia.
  replace (4 * S n)%nat with (S (S (S (S (4 * n))))) by lia. simpl. rewrite IH by lia. done.
Qed.

Lemma length_concat_entry_bytes es : length (concat (map entry_bytes es)) = (4 * length es)%nat.
Proof. induction es as [|e es IH]; [done|]. rewrite map_cons, concat_cons, length_app, IH. simpl. lia. Qed.

Lemma field_range off len bs : 0 <= field off len bs < 256 ^ Z.of_nat len.
Proof.
  unfold field. pose proof (le_val_range (take len (drop off bs))) as H.
  assert (length (take len (drop off bs)) <= len)%nat by (rewrite length_take; lia).
  assert (256 ^ Z.of_nat (length (take len (drop off bs))) <= 256 ^ Z.of_nat len)
    by (apply Z.pow_le_mono_r; lia). lia.
Qed.

Lemma value_count_le bs : (value_count bs <= MAX_DEVICE_FILTER_ENTRIES)%nat /\ (4 * value_count bs <= length bs - 8)%nat.
Proof.
  unfold value_count, MAX_DEVICE_FILTER_ENTRIES. split; [lia|].
  assert (4 * ((length bs - 8) / 4) <= length bs - 8)%nat by (apply Nat.Div0.mul_div_le). lia.
Qed.

Lemma make_fail_closed_sane : policy_sane (make_fail_closed_policy whitelist_byte).
Proof. repeat split; simpl; try lia. by right. Qed.

Lemma value_policy_sane bs : policy_sane (value_policy bs).
Proof.
  destruct (value_count_le bs) as [Hc Hl]. unfold MAX_DEVICE_FILTER_ENTRIES in Hc.
  unfold value_policy, policy_sane, policy_ok, is_u32, MAX_DEVICE_FILTER_ENTRIES.
  cbn [entries count mode]. repeat split; try lia.
  - rewrite length_app, length_replicate, length_entries_of_bytes; [|rewrite length_drop; lia]. lia.
  - case_bool_decide; [left|right]; done.
Qed.

(** The code's sanitizer on a stack buffer whose first bytes are the value. *)
Lemma sanitize_value bs t ty :
  (8 <= length bs)%nat -> ty = REG_BINARY ->
  fst (sanitize_loaded_policy (policy_of_bytes (bs ++ t)) (Z.of_nat (length bs)) ty REG_BINARY
         disabled_byte whitelist_byte) = value_policy bs.
Proof.
  intros Hl ->. unfold sanitize_loaded_policy. rewrite Z.eqb_refl.
  destruct (Z.ltb_spec (Z.of_nat (length bs)) policy_entries_offset) as [Hb|_];
    [unfold policy_entries_offset in Hb; lia|]. cbn [negb orb fst].
  assert (count (policy_of_bytes (bs ++ t)) = field 4 4 bs) as Hf.
  { unfold field. cbn [count policy_of_bytes]. rewrite drop_app_le, take_app_le by (rewrite ?length_drop; lia). done. }
  pose proof (field_range 4 4 bs) as Hr. destruct (value_count_le bs) as [Hc Hv].
  match goal with |- context [{| mode := _; count := u32 ?c; entries := _ |}] =>
    assert (c = Z.of_nat (value_count bs)) as Hcnt end.
  { unfold value_count, policy_entry_capacity, entry_size, policy_entries_offset, MAX_DEVICE_FILTER_ENTRIES.
    rewrite Hf.
    assert (Z.of_nat ((length bs - 8) / 4) = (Z.of_nat (length bs) - 8) / 4) as Hd
      by (rewrite Nat2Z.inj_div; f_equal; lia).
    rewrite <- Hd. generalize ((length bs - 8) / 4)%nat. intros q.
    destruct (Z.ltb_spec (Z.of_nat q) (field 4 4 bs));
      match goal with |- context [?a <? ?b] => destruct (Z.ltb_spec a b) end; lia. }
  rewrite Hcnt, Nat2Z.id. unfold value_policy. f_equal.
  - destruct bs; [simpl in Hl; lia|done].
  - apply u32_id. unfold is_u32, MAX_DEVICE_FILTER_ENTRIES in *. lia.
  - cbn [entries make_fail_closed_policy policy_of_bytes]. f_equal; [|by rewrite drop_replicate].
    rewrite drop_app_le by lia. apply take_entries_of_bytes; [done|]. rewrite length_drop. lia.
Qed.

(** With the registry's laws, [load] computes the promised policy. *)
Lemma load_registry_policy {R} `{HR : RegistryLaws R} (r : R) stack :
  load r stack = registry_policy r.
Proof.
  unfold load, registry_policy. destruct (decide (reg_open r = STATUS_SUCCESS)); [|done].
  destruct (reg_query r sizeof_policy) as [[[st bs] actual] ty] eqn:Eq.
  destruct (decide (st = STATUS_SUCCESS)) as [->|Hst]; [|by destruct st].
  apply reg_query_fits in Eq as [<- _].
  destruct (Z.eqb_spec ty REG_BINARY) as [Ht|Ht]; simpl;
    [|unfold sanitize_loaded_policy; apply Z.eqb_neq in Ht; by rewrite Ht].
  destruct (Z.leb_spec policy_entries_offset (Z.of_nat (length bs))) as [Hl|Hl].
  - apply sanitize_value; [|done]. unfold policy_entries_offset in Hl. lia.
  - unfold sanitize_loaded_policy. apply Z.ltb_lt in Hl. by rewrite Hl, orb_true_r.
Qed.

Lemma registry_policy_sane {R} `{Registry R} (r : R) : policy_sane (registry_policy r).
Proof.
  unfold registry_policy. destruct (decide _); [|apply make_fail_closed_sane].
  destruct (reg_query r sizeof_policy) as [[[st bs] actual] ty].
  destruct st; try apply make_fail_closed_sane.
  destruct (_ && _)%bool; [apply value_policy_sane|apply make_fail_closed_sane].
Qed.

Lemma is_allowed_sane p cls sub proto : policy_sane p ->
  exists b, is_allowed p cls sub proto = Some b /\ (b = true <-> policy_admits p cls sub proto).
Proof.
  intros [[Hl Hu] [Hc Hm]]. unfold is_allowed, policy_admits.
  destruct (Z.eqb_spec (b2z (mode p)) mode_disabled) as [E|E].
  - exists true. split; [done|]. split; auto.
  - destruct (allowed_loop_Some (entries p) (Z.to_nat (count p)) cls sub proto) as (b & Hb & Hi); [lia|].
    exists b. split; [done|]. rewrite Hi. split.
    + intros (i & e & ? & ?). right. exists i, e. split; [lia|done].
    + intros [?|(i & e & ? & ?)]; [done|]. exists i, e. split; [lia|done].
Qed.

Lemma length_pad pad : length (take 3 (pad ++ replicate 3 x00)) = 3%nat.
Proof. rewrite length_take, length_app, length_replicate. lia. Qed.

(** The value [store] writes: the header and the active prefix of the entries. *)
Definition active_count (p : policy) : nat := Nat.min (Z.to_nat (count p)) MAX_DEVICE_FILTER_ENTRIES.

Definition stored_value (pad : list byte) (p : policy) : list byte :=
  let tmp := sanitize_policy_for_store p disabled_byte whitelist_byte in
  take (Z.to_nat (u32 (serialized_policy_size (count tmp)))) (policy_bytes pad tmp).

Lemma stored_count p : policy_ok p ->
  count (sanitize_policy_for_store p disabled_byte whitelist_byte) = Z.of_nat (active_count p).
Proof.
  intros [_ Hc]. unfold is_u32 in Hc.
  unfold sanitize_policy_for_store, active_count, policy_entry_capacity, MAX_DEVICE_FILTER_ENTRIES.
  cbn [count].
  destruct (Z.ltb_spec (Z.of_nat 64) (count p)); [change (u32 (Z.of_nat 64)) with 64|]; lia.
Qed.

Lemma stored_value_shape pad p : policy_ok p ->
  stored_value pad p =
  mode (sanitize_policy_for_store p disabled_byte whitelist_byte) :: take 3 (pad ++ replicate 3 x00) ++
  le_bytes 4 (Z.of_nat (active_count p)) ++ concat (map entry_bytes (take (active_count p) (entries p))).
Proof.
  intros Hok. unfold stored_value. cbv zeta. rewrite stored_count by done.
  destruct Hok as [Hl Hc]. unfold MAX_DEVICE_FILTER_ENTRIES in Hl.
  assert (active_count p <= 64)%nat as Hn by (unfold active_count, MAX_DEVICE_FILTER_ENTRIES; lia).
  assert (Z.to_nat (u32 (serialized_policy_size (Z.of_nat (active_count p)))) = (8 + 4 * active_count p)%nat) as ->.
  { unfold serialized_policy_size, policy_entries_offset, entry_size.
    rewrite u32_id by (unfold is_u32; lia). lia. }
  unfold policy_bytes. rewrite stored_count by done.
  cbn [entries sanitize_policy_for_store].
  change (8 + 4 * active_count p)%nat with (S (3 + (4 + 4 * active_count p))). rewrite firstn_cons. f_equal.
  rewrite take_app_add' by (by rewrite length_pad). f_equal.
  rewrite take_app_add' by (by rewrite length_le_bytes). f_equal.
  rewrite <- (take_drop (active_count p) (entries p)) at 1.
  rewrite map_app, concat_app, take_app_length' by (rewrite length_concat_entry_bytes, length_take; lia). done.
Qed.

Lemma length_stored_value pad p : policy_ok p ->
  length (stored_value pad p) = (8 + 4 * active_count p)%nat /\ (active_count p <= 64)%nat.
Proof.
  intros Hok. rewrite stored_value_shape by done. destruct Hok as [Hl _].
  unfold MAX_DEVICE_FILTER_ENTRIES in Hl.
  assert (active_count p <= 64)%nat by (unfold active_count, MAX_DEVICE_FILTER_ENTRIES; lia).
  rewrite length_cons, !length_app, length_pad, length_le_bytes, length_concat_entry_bytes, length_take. lia.
Qed.

(** Read back, the stored value is the normal form of the policy. *)
Lemma value_policy_stored pad p : policy_ok p -> value_policy (stored_value pad p) = normal_policy p.
Proof.
  intros Hok. destruct (length_stored_value pad p Hok) as [Hlen Hn].
  pose proof (stored_value_shape pad p Hok) as Hbs. destruct Hok as [Hl _].
  unfold MAX_DEVICE_FILTER_ENTRIES in Hl. set (n := active_count p) in *. set (bs := stored_value pad p) in *.
  assert (field 4 4 bs = Z.of_nat n) as Hfld.
  { unfold field. rewrite Hbs. change 4%nat with (S 3) at 2. rewrite skipn_cons.
    rewrite drop_app_length' by (by rewrite length_pad).
    rewrite take_app_length' by (by rewrite length_le_bytes). rewrite le_val_le_bytes.
    apply Z.mod_small. lia. }
  assert (value_count bs = n) as Hvc.
  { unfold value_count, MAX_DEVICE_FILTER_ENTRIES. rewrite Hfld, Hlen.
    replace (8 + 4 * n - 8)%nat with (n * 4)%nat by lia. rewrite Nat.div_mul by lia. lia. }
  unfold value_policy, normal_policy. rewrite Hvc. f_equal.
  - rewrite Hbs. unfold sanitize_policy_for_store. cbn [mode nth].
    destruct (bool_decide (mode p = disabled_byte)) eqn:Hd; [|done].
    apply bool_decide_eq_true in Hd. by rewrite Hd.
  - f_equal. rewrite Hbs. change 8%nat with (S (3 + 4)). rewrite skipn_cons, <- drop_drop.
    rewrite drop_app_length' by (by rewrite length_pad).
    rewrite drop_app_length' by (by rewrite length_le_bytes).
    rewrite <- (app_nil_r (concat _)).
    replace n with (length (take n (entries p))) at 1 by (rewrite length_take; lia).
    apply entries_of_entry_bytes.
Qed.

(** A successful [store] makes the normal form the registry's policy. *)
Lemma store_registry_policy {R} `{HR : RegistryLaws R} (r r' : R) pad p :
  policy_ok p -> reg_open r = STATUS_SUCCESS -> store r pad p = (STATUS_SUCCESS, r') ->
  registry_policy r' = normal_policy p.
Proof.
  intros Hok Ho Hs. unfold store in Hs. destruct (decide _); [|by simplify_eq].
  change (reg_assign r REG_BINARY (stored_value pad p) = (STATUS_SUCCESS, r')) in Hs.
  pose proof (reg_open_assigned _ _ _ _ _ Hs) as Ho'.
  destruct (length_stored_value pad p Hok) as [Hlen Hn].
  apply (reg_query_assigned _ _ _ _ sizeof_policy) in Hs; [|unfold sizeof_policy; lia].
  unfold registry_policy. rewrite Ho', Ho. destruct (decide _); [|done]. rewrite Hs.
  destruct (Z.leb_spec policy_entries_offset (Z.of_nat (length (stored_value pad p)))) as [_|Hb];
    [by apply value_policy_stored|]. unfold policy_entries_offset in Hb. lia.
Qed.

Lemma policy_admits_normal p cls sub proto : policy_sane p ->
  policy_admits (normal_policy p) cls sub proto <-> policy_admits p cls sub proto.
Proof.
  intros [[Hl Hc] [Hc64 Hm]]. unfold is_u32 in Hc. unfold MAX_DEVICE_FILTER_ENTRIES in Hl, Hc64.
  change (count (normal_policy p)) with (Z.of_nat (active_count p)).
  assert (Z.of_nat (active_count p) = count p) as Hac
    by (unfold active_count, MAX_DEVICE_FILTER_ENTRIES; lia).
  unfold policy_admits. change (count (normal_policy p)) with (Z.of_nat (active_count p)).
  assert (b2z (mode (normal_policy p)) = mode_disabled <-> b2z (mode p) = mode_disabled) as ->.
  { unfold normal_policy. cbn [mode]. case_bool_decide as Hd; [rewrite Hd; done|].
    split; [done|]. intros Hz. exfalso. apply Hd, b2z_inj, Hz. }
  apply or_iff_compat_l. rewrite Hac.
  assert (forall i, Z.of_nat i < count p -> entries (normal_policy p) !! i = entries p !! i) as He.
  { intros i Hi. unfold normal_policy. cbn [entries]. fold (active_count p).
    rewrite lookup_app_l by (rewrite length_take; lia). apply lookup_take_lt. lia. }
  split; intros (i & e & Hi & Hlk & Ha); exists i, e; (split; [done|]); (split; [|done]);
    [rewrite <- He by done|rewrite He by done]; done.
Qed.

Lemma normal_policy_sane p : policy_ok p -> policy_sane (normal_policy p).
Proof.
  intros [Hl Hc]. unfold MAX_DEVICE_FILTER_ENTRIES in Hl. unfold normal_policy. fold (active_count p).
  assert (active_count p <= 64)%nat by (unfold active_count, MAX_DEVICE_FILTER_ENTRIES; lia).
  unfold policy_sane, policy_ok, is_u32, MAX_DEVICE_FILTER_ENTRIES. cbn [entries count mode].
  rewrite length_app, length_take, length_replicate.
  repeat split; try lia. case_bool_decide; [left|right]; done.
Qed.

Lemma is_allowed_congr p q cls sub proto : policy_sane p -> policy_sane q ->
  (policy_admits p cls sub proto <-> policy_admits q cls sub proto) ->
  is_allowed p cls sub proto = is_allowed q cls sub proto.
Proof.
  intros Hp Hq Hi. destruct (is_allowed_sane p cls sub proto Hp) as (b & -> & Hb).
  destruct (is_allowed_sane q cls sub proto Hq) as (c & -> & Hc). f_equal. apply eq_true_iff_eq.
  by rewrite Hb, Hc.
Qed.

(** The checks of [set_device_filter] and the policy it builds. *)
Lemma set_device_filter_success {R} `{Registry R} (r r' : R) pad inbuf :
  set_device_filter r pad inbuf = (STATUS_SUCCESS, r') ->
  let n := Z.to_nat (field 8 4 inbuf) in
  let p := {| mode := nth 4 inbuf x00; count := field 8 4 inbuf;
              entries := entries_of_bytes n (drop 12 inbuf) ++
                         replicate (MAX_DEVICE_FILTER_ENTRIES - n) zero_entry |} in
  (12 + 4 * n <= length inbuf)%nat /\ (n <= 64)%nat /\ policy_ok p /\ store r pad p = (STATUS_SUCCESS, r').
Proof.
  unfold set_device_filter, retrieve_buffer. intros Hs.
  destruct (Z.leb_spec sizeof_device_filter (Z.of_nat (length inbuf))) as [Hl|]; simpl in Hs; [|by simplify_eq].
  destruct (negb _); [by simplify_eq|].
  destruct (Z.ltb_spec (avail_entries inbuf) (field 8 4 inbuf)) as [|Ha]; [by simplify_eq|].
  destruct (Z.ltb_spec (Z.of_nat MAX_DEVICE_FILTER_ENTRIES) (field 8 4 inbuf)) as [|Hm]; [by simplify_eq|].
  pose proof (field_range 8 4 inbuf) as Hr.
  unfold MAX_DEVICE_FILTER_ENTRIES, avail_entries, device_filter_entries_offset, entry_size, sizeof_device_filter in *.
  assert (12 + 4 * Z.to_nat (field 8 4 inbuf) <= length inbuf)%nat as Hin by zdm.
  split; [done|]. split; [lia|]. split; [|exact Hs].
  split; [|unfold is_u32; simpl; lia]. cbn [entries].
  rewrite length_app, length_replicate, length_entries_of_bytes; [|rewrite length_drop; lia].
  unfold MAX_DEVICE_FILTER_ENTRIES. lia.
Qed.

(** ** A registry holding one value, for examples *)
Record one_value_registry : Type := { rv_value : option (Z * list byte); rv_writable : bool }.

#[global] Instance one_value_registry_ops : Registry one_value_registry := {
  reg_open _ := STATUS_SUCCESS;
  reg_open_for_set r := if rv_writable r then STATUS_SUCCESS else NT_OS 0xC0000022;
  reg_query r len :=
    match rv_value r with
    | None => (NT_OS 0xC0000034, [], 0, 0)
    | Some (ty, bs) =>
        if Z.of_nat (length bs) <=? len then (STATUS_SUCCESS, bs, Z.of_nat (length bs), ty)
        else (NT_OS 0x80000005, [], Z.of_nat (length bs), ty)
    end;
  reg_assign r ty bs := (STATUS_SUCCESS, {| rv_value := Some (ty, bs); rv_writable := rv_writable r |}) }.

#[global] Instance one_value_registry_laws : RegistryLaws one_value_registry.
Proof.
  split.
  - intros [[[t v]|] w] len bs actual ty; simpl; [|discriminate].
    destruct (Z.leb_spec (Z.of_nat (length v)) len); intros; simplify_eq. auto.
  - intros r r' ty bs len Ha Hl. injection Ha as <-. simpl.
    destruct (Z.leb_spec (Z.of_nat (length bs)) len); [done|lia].
  - intros r r' ty bs st Ha. done.
Qed.

Definition hid_entry : device_filter_entry :=
  {| bClass := x03; bSubClass := x00; bProtocol := x00; match_flags := x01 |}.

(** Mode 2 is unknown, so it is stored as a whitelist. *)
Definition hid_policy : policy :=
  {| mode := x02; count := 1; entries := hid_entry :: replicate 63 zero_entry |}.

Definition empty_registry : one_value_registry := {| rv_value := None; rv_writable := true |}.

(** Mass storage only, as an administrator would set it. *)
Definition storage_policy : policy :=
  {| mode := x01; count := 1;
     entries := {| bClass := x08; bSubClass := x00; bProtocol := x00; match_flags := x01 |} ::
                replicate 63 zero_entry |}.

Definition storage_registry : one_value_registry := snd (store empty_registry [] storage_policy).

Definition hid_registry : one_value_registry := snd (store empty_registry [] hid_policy).

(** ** Properties *)

(** C38: a loaded policy never makes is_allowed read outside of its entries, and a
    class is allowed only by a readable REG_BINARY value of at least eight bytes
    which disables the filter or whose active entries match; anything else denies,
    whatever the uninitialised stack buffer of [load] holds. *)
Theorem loaded_policy_fails_closed {R} `{HR : RegistryLaws R} (r : R) stack cls sub proto :
  exists b, is_allowed (load r stack) cls sub proto = Some b /\
    (b = true <->
     exists bs, reg_open r = STATUS_SUCCESS /\
       reg_query r sizeof_policy = (STATUS_SUCCESS, bs, Z.of_nat (length bs), REG_BINARY) /\
       (8 <= length bs)%nat /\ policy_admits (value_policy bs) cls sub proto).
Proof.
  rewrite load_registry_policy.
  destruct (is_allowed_sane (registry_policy r) cls sub proto (registry_policy_sane r)) as (b & Hb & Hi).
  exists b. split; [done|]. rewrite Hi. clear b Hb Hi. unfold registry_policy.
  assert (~ policy_admits (make_fail_closed_policy whitelist_byte) cls sub proto) as Hfc.
  { intros [Hm|(i & e & Hlt & _)]; [done|simpl in Hlt; lia]. }
  destruct (decide (reg_open r = STATUS_SUCCESS)); [|naive_solver].
  destruct (reg_query r sizeof_policy) as [[[st bs] actual] ty] eqn:Eq.
  destruct (decide (st = STATUS_SUCCESS)) as [->|Hst]; [|destruct st; naive_solver].
  pose proof (reg_query_fits _ _ _ _ _ Eq) as [<- _].
  destruct (Z.eqb_spec ty REG_BINARY) as [->|Ht]; simpl; [|naive_solver].
  destruct (Z.leb_spec policy_entries_offset (Z.of_nat (length bs))) as [Hl|Hl];
    unfold policy_entries_offset in Hl.
  - split; [intros Ha; exists bs; repeat split; auto; lia|]. intros (bs' & _ & Hq & _ & Ha). by simplify_eq.
  - split; [done|]. intros (bs' & _ & Hq & H8 & _). simplify_eq. lia.
Qed.

Lemma loaded_policy_fails_closed_witness :
  is_allowed (load hid_registry []) 3 1 2 = Some true /\ is_allowed (load hid_registry []) 8 6 80 = Some false /\
  exists b, is_allowed (load empty_registry []) 3 1 2 = Some b /\
    (b = true <->
     exists bs, reg_open empty_registry = STATUS_SUCCESS /\
       reg_query empty_registry sizeof_policy = (STATUS_SUCCESS, bs, Z.of_nat (length bs), REG_BINARY) /\
       (8 <= length bs)%nat /\ policy_admits (value_policy bs) 3 1 2).
Proof.
  split; [vm_compute; reflexivity|]. split; [vm_compute; reflexivity|].
  apply (loaded_policy_fails_closed empty_registry [] 3 1 2).
Defined.

(** Storing a policy and loading it again gives its normal form (an unknown mode
    becomes a whitelist, the count is at most the capacity, inactive entries are zero),
    and a policy with a known mode and a count in range decides every class as before. *)
Theorem store_load_roundtrip {R} `{HR : RegistryLaws R} (r r' : R) pad stack p :
  policy_ok p -> reg_open r = STATUS_SUCCESS -> store r pad p = (STATUS_SUCCESS, r') ->
  load r' stack = normal_policy p /\
  (policy_sane p -> forall cls sub proto,
     is_allowed (load r' stack) cls sub proto = is_allowed p cls sub proto).
Proof.
  intros Hok Ho Hs. rewrite load_registry_policy, (store_registry_policy r r' pad p Hok Ho Hs).
  split; [done|]. intros Hsane cls sub proto.
  apply is_allowed_congr; auto using normal_policy_sane, policy_admits_normal.
Qed.

Lemma store_load_roundtrip_witness :
  load hid_registry [xff] = normal_policy hid_policy /\ b2z (mode (load hid_registry [xff])) = mode_whitelist.
Proof.
  assert (load hid_registry [xff] = normal_policy hid_policy) as H.
  { refine (proj1 (store_load_roundtrip empty_registry hid_registry [] [xff] hid_policy _ _ _)).
    - split; [reflexivity|]. unfold is_u32. simpl. lia.
    - reflexivity.
    - vm_compute. reflexivity. }
  split; [exact H|]. rewrite H. reflexivity.
Defined.

(** A policy accepted by SET_DEVICE_FILTER lies within its input buffer, and
    GET_DEVICE_FILTER with a large enough buffer then returns it: 12 + 4 * count bytes,
    the caller's size field, the normalised mode, zeroed reserved bytes, and the count and
    entries exactly as they were set; the rest of the buffer is untouched. *)
Theorem set_get_device_filter_roundtrip {R} `{HR : RegistryLaws R} (r r' : R) pad stack inbuf outbuf :
  reg_open r = STATUS_SUCCESS -> set_device_filter r pad inbuf = (STATUS_SUCCESS, r') ->
  (16 <= length outbuf)%nat -> field 0 4 outbuf = sizeof_device_filter ->
  let used := (12 + 4 * Z.to_nat (field 8 4 inbuf))%nat in
  (used <= length inbuf)%nat /\
  ((used <= length outbuf)%nat ->
   get_device_filter r' stack outbuf =
     (STATUS_SUCCESS, Z.of_nat used,
      take 4 outbuf ++
      [if bool_decide (nth 4 inbuf x00 = disabled_byte) then disabled_byte else whitelist_byte; x00; x00; x00] ++
      take (used - 8) (drop 8 inbuf) ++ drop used outbuf)) /\
  ((length outbuf < used)%nat -> get_device_filter r' stack outbuf = (STATUS_BUFFER_TOO_SMALL, 0, outbuf)).
Proof.
  intros Ho Hs Hl16 Hsz used. destruct (set_device_filter_success _ _ _ _ Hs) as (Hin & Hn & Hok & Hst).
  set (n := Z.to_nat (field 8 4 inbuf)) in *. split; [done|].
  pose proof (field_range 8 4 inbuf) as Hr.
  assert (load r' stack = normal_policy _) as Hload
    by (rewrite load_registry_policy; exact (store_registry_policy _ _ _ _ Hok Ho Hst)).
  set (p := {| mode := _; count := _; entries := _ |}) in *.
  assert (active_count p = n) as Hac by (unfold active_count, MAX_DEVICE_FILTER_ENTRIES; simpl; lia).
  assert (count (normal_policy p) = Z.of_nat n) as Hc by (rewrite <- Hac; done).
  assert (entries_of_bytes n (drop 12 inbuf) = take n (entries (normal_policy p))) as He.
  { unfold normal_policy. fold (active_count p). rewrite Hac. cbn [entries p].
    rewrite take_app_le by (rewrite length_take, length_app, length_entries_of_bytes;
      [lia | rewrite length_drop; lia]).
    rewrite take_take, Nat.min_id, take_app_length'; [done|].
    rewrite length_entries_of_bytes; [done|]. rewrite length_drop. lia. }
  unfold get_device_filter, retrieve_buffer. rewrite Hsz, Z.eqb_refl, Hload, Hc, Nat2Z.id.
  unfold sizeof_device_filter, avail_entries, device_filter_entries_offset, entry_size.
  destruct (Z.leb_spec 16 (Z.of_nat (length outbuf))) as [_|]; [|lia]. cbn [guard_err negb].
  split; intros Hlen;
    (destruct (Z.ltb_spec ((Z.of_nat (length outbuf) - 12) / 4) (Z.of_nat n)); [try zdm; done|try zdm]).
  rewrite <- He, entry_bytes_of_entries by (rewrite length_drop; lia). f_equal; [f_equal; lia|].
  assert (le_bytes 4 (Z.of_nat n) ++ take (4 * n) (drop 12 inbuf) = take (used - 8) (drop 8 inbuf)) as Hfin.
  { replace (used - 8)%nat with (4 + 4 * n)%nat by lia.
    rewrite <- (take_drop 4 (drop 8 inbuf)), drop_drop.
    rewrite take_app_add' by (rewrite length_take, length_drop; lia). f_equal.
    replace (Z.of_nat n) with (field 8 4 inbuf) by lia. unfold field.
    rewrite <- le_bytes_le_val. f_equal. rewrite length_take, length_drop. lia. }
  rewrite Hfin, <- !app_assoc. do 3 f_equal. f_equal.
  rewrite !length_app, !length_take, !length_drop. simpl length. lia.
Qed.

Lemma set_get_device_filter_roundtrip_witness :
  let inbuf := le_bytes 4 16 ++ [x01; x00; x00; x00] ++ le_bytes 4 1 ++ [x03; x00; x00; x01] in
  let r' := snd (set_device_filter empty_registry [] inbuf) in
  get_device_filter r' [] (le_bytes 4 16 ++ replicate 20 xff) =
    (STATUS_SUCCESS, 16, inbuf ++ replicate 8 xff).
Proof.
  intros inbuf r'.
  assert (field 0 4 (le_bytes 4 16 ++ replicate 20 xff) = sizeof_device_filter) as Hsz by reflexivity.
  assert (set_device_filter empty_registry [] inbuf = (STATUS_SUCCESS, r')) as Hs by (vm_compute; reflexivity).
  pose proof (set_get_device_filter_roundtrip empty_registry r' [] [] inbuf
    (le_bytes 4 16 ++ replicate 20 xff) eq_refl Hs ltac:(simpl; lia) Hsz) as (_ & Hget & _).
  rewrite Hget by (vm_compute; lia). reflexivity.
Defined.
