(* ===== verification/DescPatch.v ===== *)
(** * Adapting a configuration descriptor for UdeCx

    Models drivers/ude/descriptor_patch.cpp and [find_next] of
    drivers/libdrv/usbdsc.cpp on the memory of the descriptor, a list of bytes;
    [None] is an access outside of it or a loop that did not end within its fuel.
    USBD_ParseDescriptors is a routine of the operating system: it is a parameter
    with its documented behaviour on a well-formed buffer ([ParseDescriptors]). *)

From S2P Require Import Prelude Parser.

(** ** Memory *)

Definition wr (p : list byte) (off : nat) (v : Z) : option (list byte) :=
  if decide (off < length p)%nat then Some (<[off := z2b v]> p) else None.

(** UINT16 fields are little-endian. *)
Definition rd16 (p : list byte) (off : nat) : option Z :=
  lo ← rd p off; hi ← rd p (off + 1); Some (lo + 256 * hi).

Definition wr16 (p : list byte) (off : nat) (v : Z) : option (list byte) :=
  p ← wr p off (v mod 256); wr p (off + 1) (v / 256).

(** ** Code *)

Definition USB_SPEED_HIGH : Z := 3.

(** [for (UCHAR i = 1; i <= max_interval; ++i)], [n] iterations left. *)
Fixpoint interval_loop (n : nat) (i microframes : Z) : Z :=
  match n with
  | O => 16
  | S n => if microframes <=? Z.shiftl 1 (i - 1) then i else interval_loop n (i + 1) microframes
  end.

Definition to_high_speed_interval (interval : Z) : Z := interval_loop 16 1 (8 * interval).

(** bmAttributes & USB_ENDPOINT_TYPE_MASK *)
Inductive pipe_type : Type := UsbdPipeTypeControl | UsbdPipeTypeIsochronous | UsbdPipeTypeBulk | UsbdPipeTypeInterrupt.

Definition usb_endpoint_type (bmAttributes : Z) : pipe_type :=
  let t := Z.land bmAttributes 3 in
  if t =? 0 then UsbdPipeTypeControl else if t =? 1 then UsbdPipeTypeIsochronous
  else if t =? 2 then UsbdPipeTypeBulk else UsbdPipeTypeInterrupt.

(** The body of the loop after the length test, on the endpoint descriptor at [cur]. *)
Definition patch_endpoint (buf : list byte) (cur : nat) : option (list byte) :=
  attributes ← rd buf (cur + 3);
  match usb_endpoint_type attributes with
  | UsbdPipeTypeBulk => wr16 buf (cur + 4) 512
  | UsbdPipeTypeIsochronous =>
      iv ← rd buf (cur + 6); wr buf (cur + 6) (if iv + 3 <? 16 then iv + 3 else 16)
  | UsbdPipeTypeInterrupt =>
      iv ← rd buf (cur + 6); wr buf (cur + 6) (to_high_speed_interval iv)
  | UsbdPipeTypeControl => Some buf
  end.

(** libdrv::next *)
Definition next (buf : list byte) (cur : nat) : option nat :=
  l ← rd buf cur; Some (cur + Z.to_nat l)%nat.

Section patch.
(** buffer, TotalLength, StartPosition, DescriptorType *)
Context (USBD_ParseDescriptors : list byte -> Z -> nat -> Z -> option nat).

Fixpoint patch_loop (fuel : nat) (configuration : list byte) (cur : nat) : option (list byte) :=
  wTotalLength ← rd16 configuration 2;
  match USBD_ParseDescriptors configuration wTotalLength cur endpoint_descriptor_type with
  | None => Some configuration
  | Some cur =>
      match fuel with
      | O => None
      | S fuel =>
          bLength ← rd configuration cur;
          configuration ← (if bLength <? endpoint_descriptor_size then Some configuration
                           else patch_endpoint configuration cur);
          cur ← next configuration cur;
          patch_loop fuel configuration cur
      end
  end.

Definition patch_configuration_for_udecx (configuration : list byte) (speed : Z) : option (list byte) :=
  if USB_SPEED_HIGH <=? speed then Some configuration
  else patch_loop (length configuration) configuration 0.
End patch.

(** libdrv::find_next: the loop, and the start of the search. *)
Fixpoint find_next_loop (fuel : nat) (cfg : list byte) (last : Z) (type : Z) (cur : nat) : option (option nat) :=
  if Z.of_nat cur + 2 <=? last then
    match fuel with
    | O => None
    | S fuel =>
        bLength ← rd cfg cur;
        if (2 <=? bLength) && (Z.of_nat cur + bLength <=? last) then
          bDescriptorType ← rd cfg (cur + 1);
          if bDescriptorType =? type then Some (Some cur)
          else find_next_loop fuel cfg last type (cur + Z.to_nat bLength)
        else Some None
    end
  else Some None.

Definition find_next (cfg : list byte) (type : Z) (cur : option nat) : option (option nat) :=
  last ← rd16 cfg 2;
  start ← match cur with Some c => next cfg c | None => Some 0%nat end;
  find_next_loop (length cfg) cfg last type start.

(** ** Specification *)

(** The first descriptor of a type in a chain that starts at offset [o]. *)
Fixpoint first_of_type (ds : list (list byte)) (o : nat) (type : Z) : option nat :=
  match ds with
  | [] => None
  | d :: ds => if bool_decide (desc_type d = Some type) then Some o
               else first_of_type ds (o + length d) type
  end.

(** USBD_ParseDescriptors on a well-formed rest of a buffer of TotalLength bytes. *)
Class ParseDescriptors (parse : list byte -> Z -> nat -> Z -> option nat) : Prop :=
  parse_descriptors_chain : forall pre rest ds type,
    desc_chain rest ds ->
    parse (pre ++ rest) (Z.of_nat (length (pre ++ rest))) (length pre) type =
    first_of_type ds (length pre) type.

(** What the patch makes of one descriptor. *)
Definition patch_desc (d : list byte) : list byte :=
  match d with
  | l :: t :: addr :: attr :: m0 :: m1 :: iv :: tail =>
      if b2z t =? endpoint_descriptor_type then
        match usb_endpoint_type (b2z attr) with
        | UsbdPipeTypeBulk => l :: t :: addr :: attr :: x00 :: x02 :: iv :: tail
        | UsbdPipeTypeIsochronous =>
            l :: t :: addr :: attr :: m0 :: m1 :: z2b (Z.min (b2z iv + 3) 16) :: tail
        | UsbdPipeTypeInterrupt =>
            l :: t :: addr :: attr :: m0 :: m1 :: z2b (to_high_speed_interval (b2z iv)) :: tail
        | UsbdPipeTypeControl => d
        end
      else d
  | _ => d
  end.

(** ** Lemmas *)

Lemma length_patch_desc d : length (patch_desc d) = length d.
Proof.
  unfold patch_desc. destruct d as [|l [|t [|a [|at' [|m0 [|m1 [|iv tl]]]]]]]; try done.
  destruct (_ =? _); [|done]. by destruct (usb_endpoint_type _).
Qed.

Lemma patch_desc_head d k : (k < 4)%nat -> rd (patch_desc d) k = rd d k.
Proof.
  intros Hk. unfold patch_desc. destruct d as [|l [|t [|a [|at' [|m0 [|m1 [|iv tl]]]]]]]; try done.
  destruct (_ =? _); [|done]. destruct (usb_endpoint_type _); try done;
    do 4 (destruct k as [|k]; [done|]); lia.
Qed.

Lemma patch_desc_other d : desc_type d <> Some endpoint_descriptor_type -> patch_desc d = d.
Proof.
  unfold desc_type. destruct d as [|l [|t d]]; try done. cbn. intros Ht.
  destruct d as [|a [|at' [|m0 [|m1 [|iv tl]]]]]; try done.
  destruct (Z.eqb_spec (b2z t) endpoint_descriptor_type) as [E|E]; [|done]. by rewrite E in Ht.
Qed.

Lemma desc_type_patch d : desc_type (patch_desc d) = desc_type d.
Proof. apply patch_desc_head. lia. Qed.

Lemma insert_middle (pre d rest : list byte) k b :
  (k < length d)%nat -> <[(length pre + k)%nat := b]> (pre ++ d ++ rest) = pre ++ <[k := b]> d ++ rest.
Proof. intros Hk. rewrite insert_app_r, insert_app_l by done. done. Qed.

Lemma wr_middle pre d rest k v : (k < length d)%nat ->
  wr (pre ++ d ++ rest) (length pre + k) v = Some (pre ++ <[k := z2b v]> d ++ rest).
Proof.
  intros Hk. unfold wr. rewrite decide_True by (rewrite !length_app; lia). by rewrite insert_middle.
Qed.

Lemma rd_middle pre d rest k : (k < length d)%nat ->
  rd (pre ++ d ++ rest) (length pre + k) = rd d k.
Proof.
  intros Hk. unfold rd. rewrite lookup_app_r by lia. rewrite lookup_app_l by lia.
  by replace (length pre + k - length pre)%nat with k by lia.
Qed.

(** The code's update of one endpoint descriptor, in the middle of the buffer. *)
Lemma patch_endpoint_middle pre d rest :
  (7 <= length d)%nat -> desc_type d = Some endpoint_descriptor_type ->
  patch_endpoint (pre ++ d ++ rest) (length pre) = Some (pre ++ patch_desc d ++ rest).
Proof.
  intros Hl Ht.
  destruct d as [|l [|t [|a [|attr [|m0 [|m1 [|iv tl]]]]]]]; simpl in Hl; try lia.
  unfold desc_type in Ht. cbn in Ht. injection Ht as Ht.
  set (d := l :: t :: a :: attr :: m0 :: m1 :: iv :: tl).
  assert (7 <= length d)%nat as Hd by (simpl; lia).
  assert (forall d' k v, (7 <= length d')%nat -> (k < 7)%nat ->
            wr (pre ++ d' ++ rest) (length pre + k) v = Some (pre ++ <[k := z2b v]> d' ++ rest)) as W
    by (intros; apply wr_middle; lia).
  assert (rd (pre ++ d ++ rest) (length pre + 3) = Some (b2z attr)) as R3 by (rewrite rd_middle by lia; done).
  assert (rd (pre ++ d ++ rest) (length pre + 6) = Some (b2z iv)) as R6 by (rewrite rd_middle by lia; done).
  unfold patch_endpoint. rewrite R3, R6. unfold d at 5. unfold patch_desc, mbind, option_bind.
  rewrite Ht, Z.eqb_refl. destruct (usb_endpoint_type (b2z attr)).
  - done.
  - rewrite W by lia. pose proof (b2z_range iv).
    replace (Z.min (b2z iv + 3) 16) with (if b2z iv + 3 <? 16 then b2z iv + 3 else 16); [done|].
    destruct (Z.ltb_spec (b2z iv + 3) 16); lia.
  - unfold wr16, mbind, option_bind. rewrite W by lia. rewrite <- Nat.add_assoc.
    rewrite W by (rewrite ?length_insert; lia). done.
  - rewrite W by lia. done.
Qed.

Lemma first_of_type_skip d ds o type : desc_type d <> Some type ->
  first_of_type (d :: ds) o type = first_of_type ds (o + length d) type.
Proof. intros. simpl. by rewrite bool_decide_eq_false_2. Qed.

Lemma desc_chain_length rest ds : desc_chain rest ds -> (length ds <= length rest)%nat.
Proof.
  induction 1 as [|d rest ds Hd Hc IH]; [done|]. destruct Hd as (l & t & b & -> & _). simpl.
  rewrite length_app. lia.
Qed.

Lemma descriptor_length d : is_descriptor d -> rd d 0 = Some (Z.of_nat (length d)).
Proof. intros (l & t & b & -> & Hl). unfold rd. cbn. by rewrite Hl. Qed.

Lemma is_descriptor_patch d : is_descriptor d -> is_descriptor (patch_desc d).
Proof.
  intros Hd. pose proof (descriptor_length d Hd) as H0. destruct Hd as (l & t & b & -> & Hl).
  assert (rd (patch_desc (l :: t :: b)) 1 = rd (l :: t :: b) 1) as H1 by (apply patch_desc_head; lia).
  assert (rd (patch_desc (l :: t :: b)) 0 = rd (l :: t :: b) 0) as H2 by (apply patch_desc_head; lia).
  eapply is_descriptor_intro; [rewrite H2; exact H0|rewrite H1; reflexivity|].
  by rewrite length_patch_desc.
Qed.

Lemma desc_chain_patch rest ds : desc_chain rest ds ->
  desc_chain (concat (map patch_desc ds)) (map patch_desc ds).
Proof. induction 1; simpl; [constructor|]. constructor; auto using is_descriptor_patch. Qed.

Lemma length_concat_patch ds : length (concat (map patch_desc ds)) = length (concat ds).
Proof.
  induction ds as [|d ds IH]; [done|]. by rewrite map_cons, !concat_cons, !length_app, length_patch_desc, IH.
Qed.

Lemma desc_chain_concat rest ds : desc_chain rest ds -> concat ds = rest.
Proof. induction 1 as [|d rest ds Hd Hc IH]; [done|]. by rewrite concat_cons, IH. Qed.

Section patch_loop.
Context (parse : list byte -> Z -> nat -> Z -> option nat) `{!ParseDescriptors parse}.

Definition total_is_length (buf : list byte) : Prop := rd16 buf 2 = Some (Z.of_nat (length buf)).

Lemma patch_loop_skip fuel pre d rest ds :
  desc_chain (d ++ rest) (d :: ds) -> desc_type d <> Some endpoint_descriptor_type ->
  total_is_length (pre ++ d ++ rest) ->
  patch_loop parse fuel (pre ++ d ++ rest) (length pre) =
  patch_loop parse fuel ((pre ++ d) ++ rest) (length (pre ++ d)).
Proof.
  intros Hc Ht Htot. inversion Hc as [|d' r' ds' Hd Hcr Heq]; subst.
  apply app_inv_head in Heq. subst r'.
  pose proof (parse_descriptors_chain pre (d ++ rest) (d :: ds) endpoint_descriptor_type Hc) as P1.
  pose proof (parse_descriptors_chain (pre ++ d) rest ds endpoint_descriptor_type Hcr) as P2.
  rewrite first_of_type_skip in P1 by done. rewrite <- app_assoc in *.
  destruct fuel; cbn [patch_loop]; rewrite Htot; cbn [mbind option_bind];
    rewrite P1, P2, length_app; done.
Qed.

(** The header fields the loop rereads lie before every descriptor it changes. *)
Lemma total_is_length_middle pre d d' rest :
  (4 <= length pre)%nat -> length d' = length d ->
  total_is_length (pre ++ d ++ rest) -> total_is_length (pre ++ d' ++ rest).
Proof.
  unfold total_is_length, rd16. intros Hp Hl. rewrite !(rd_app_l pre) by lia.
  by rewrite !length_app, Hl.
Qed.

(** From a position in a chain on, the loop patches every descriptor of the chain. *)
Lemma patch_loop_chain fuel pre rest ds :
  desc_chain rest ds -> Forall fields_present ds -> (length ds <= fuel)%nat -> (4 <= length pre)%nat ->
  total_is_length (pre ++ rest) ->
  patch_loop parse fuel (pre ++ rest) (length pre) = Some (pre ++ concat (map patch_desc ds)).
Proof.
  intros Hc. revert fuel pre. induction Hc as [|d rest ds Hd Hc IH]; intros fuel pre Hf Hfuel Hp Htot.
  - pose proof (parse_descriptors_chain pre [] [] endpoint_descriptor_type chain_nil) as P.
    destruct fuel; cbn [patch_loop]; rewrite Htot; cbn [mbind option_bind]; by rewrite P.
  - apply Forall_cons_1 in Hf as [[_ Hep] Hf]. simpl in Hfuel.
    assert (desc_chain (d ++ rest) (d :: ds)) as Hcc by by constructor.
    destruct (decide (desc_type d = Some endpoint_descriptor_type)) as [Ht|Ht].
    + specialize (Hep Ht). destruct fuel as [|fuel]; [lia|]. cbn [patch_loop].
      rewrite Htot. cbn [mbind option_bind].
      rewrite (parse_descriptors_chain pre (d ++ rest) (d :: ds)) by done.
      cbn [first_of_type]. rewrite bool_decide_eq_true_2 by done.
      pose proof (rd_middle pre d rest 0 ltac:(lia)) as R0. rewrite Nat.add_0_r, descriptor_length in R0 by done.
      rewrite R0. unfold endpoint_descriptor_size. cbn [mbind option_bind].
      destruct (Z.ltb_spec (Z.of_nat (length d)) 7) as [|_]; [lia|].
      rewrite patch_endpoint_middle by done. cbn [mbind option_bind]. unfold next.
      pose proof (rd_middle pre (patch_desc d) rest 0) as R0'.
      rewrite length_patch_desc, Nat.add_0_r, patch_desc_head, descriptor_length in R0' by (done || lia).
      rewrite R0' by lia. cbn [mbind option_bind]. rewrite Nat2Z.id.
      replace (length pre + length d)%nat with (length (pre ++ patch_desc d))
        by (by rewrite length_app, length_patch_desc).
      rewrite app_assoc.
      rewrite IH; [by rewrite <- app_assoc|done|lia|rewrite length_app; lia|].
      rewrite <- app_assoc. revert Htot. apply total_is_length_middle; [lia|apply length_patch_desc].
    + rewrite (patch_loop_skip fuel pre d rest ds) by done.
      rewrite IH; [by rewrite map_cons, concat_cons, patch_desc_other, app_assoc
                  |done|lia|rewrite length_app; lia|by rewrite <- app_assoc].
Qed.

(** The whole loop: the first descriptor is the configuration descriptor itself. *)
Lemma patch_configuration_chain cfg ds speed :
  rd cfg 1 = Some configuration_descriptor_type -> rd cfg 0 = Some 9 -> total_is_length cfg ->
  desc_chain cfg ds -> Forall fields_present ds ->
  patch_configuration_for_udecx parse cfg speed =
  Some (if USB_SPEED_HIGH <=? speed then cfg else concat (map patch_desc ds)).
Proof.
  intros H1 H0 Htot Hc Hf. unfold patch_configuration_for_udecx. destruct (_ <=? speed); [done|].
  pose proof (desc_chain_length _ _ Hc) as Hlen.
  assert (cfg <> []) as Hne by (intros ->; discriminate).
  destruct (chain_head _ _ Hne Hc) as (d & ds' & -> & Hrest & Hd0 & Hd1 & Hl & Hc').
  rewrite H0 in Hd0. injection Hd0 as Hd0. rewrite H1 in Hd1.
  assert (desc_type d <> Some endpoint_descriptor_type) as Ht by by rewrite <- Hd1.
  remember (drop (length d) cfg) as rest eqn:Hr. clear Hr. subst cfg.
  apply Forall_cons_1 in Hf as [_ Hf].
  rewrite <- (app_nil_l (d ++ rest)) at 2. change 0%nat with (length (@nil byte)) at 1.
  rewrite (patch_loop_skip _ [] d rest ds') by done.
  rewrite patch_loop_chain with (ds := ds'); [|done..|simpl in Hlen; lia|simpl; lia|done].
  by rewrite map_cons, concat_cons, patch_desc_other.
Qed.
End patch_loop.

(** ** A configuration of the server that was not checked *)

(** What the patch relies on for any bytes: USBD_ParseDescriptors walks from descriptor to
    descriptor and returns one that lies entirely inside of TotalLength bytes. *)
Class ParseInside (parse : list byte -> Z -> nat -> Z -> option nat) : Prop :=
  parse_inside : forall cfg total cur type p, total <= Z.of_nat (length cfg) -> parse cfg total cur type = Some p ->
    rd cfg (p + 1) = Some type /\ (exists l, rd cfg p = Some l /\ 2 <= l /\ Z.of_nat p + l <= total) /\
    (p = cur \/ exists l, rd cfg cur = Some l /\ Z.of_nat cur + l <= Z.of_nat p).

Section unchecked.
Context (parse : list byte -> Z -> nat -> Z -> option nat) `{!ParseInside parse}.

Lemma wr_keeps buf off v : (off < length buf)%nat -> exists buf', wr buf off v = Some buf' /\ length buf' = length buf /\
  forall k, (k < off)%nat -> rd buf' k = rd buf k.
Proof.
  intros Hl. unfold wr. rewrite decide_True by done. eexists. split; [done|]. split; [by rewrite length_insert|].
  intros k Hk. unfold rd. by rewrite list_lookup_insert_ne by lia.
Qed.

Lemma patch_endpoint_keeps buf cur : (cur + 7 <= length buf)%nat -> exists buf', patch_endpoint buf cur = Some buf' /\
  length buf' = length buf /\ forall k, (k < cur + 4)%nat -> rd buf' k = rd buf k.
Proof.
  intros Hl. unfold patch_endpoint.
  destruct (rd_Some buf (cur + 3)) as (b3 & _ & ->); [lia|]. destruct (rd_Some buf (cur + 6)) as (b6 & _ & ->); [lia|].
  cbn [mbind option_bind]. destruct (usb_endpoint_type (b2z b3)).
  - by exists buf.
  - edestruct (wr_keeps buf (cur + 6)) as (b & -> & ? & Hk); [lia|]. exists b. split; [done|]. split; [done|]. intros k ?. apply Hk. lia.
  - unfold wr16. edestruct (wr_keeps buf (cur + 4)) as (b & -> & Hb & Hk); [lia|]. cbn [mbind option_bind].
    edestruct (wr_keeps b (cur + 4 + 1)) as (b' & -> & Hb' & Hk'); [lia|]. exists b'. split; [done|].
    split; [congruence|]. intros k ?. rewrite Hk', Hk by lia. done.
  - edestruct (wr_keeps buf (cur + 6)) as (b & -> & ? & Hk); [lia|]. exists b. split; [done|]. split; [done|]. intros k ?. apply Hk. lia.
Qed.

Lemma rd16_keeps (buf buf' : list byte) off : (forall k, (k < off + 2)%nat -> rd buf' k = rd buf k) -> rd16 buf' off = rd16 buf off.
Proof. intros Hk. unfold rd16. by rewrite !Hk by lia. Qed.

Lemma patch_loop_total fuel buf cur total : rd16 buf 2 = Some total -> total <= Z.of_nat (length buf) ->
  (4 <= cur)%nat \/ (exists l, rd buf cur = Some l /\ 4 <= Z.of_nat cur + l) /\ rd buf (cur + 1) <> Some endpoint_descriptor_type ->
  (length buf - cur <= fuel)%nat ->
  exists buf', patch_loop parse fuel buf cur = Some buf' /\ length buf' = length buf.
Proof.
  revert buf cur. induction fuel as [|fuel IH]; intros buf cur Ht Hl Hcur Hfuel; cbn [patch_loop]; rewrite Ht; cbn [mbind option_bind];
    (destruct (parse buf total cur endpoint_descriptor_type) as [p|] eqn:Hp; [|by eexists]);
    apply parse_inside in Hp as (Htype & (l & Hrl & Hl2 & Hle) & Hpos); try done.
  - exfalso. destruct Hpos as [->|(l' & Hr' & Hle')]; [destruct Hcur as [|[_ Hn]]; [|done]; lia|].
    apply rd_range in Hr'. unfold is_u8 in Hr'. destruct Hcur as [|[_ Hn]]; lia.
  - assert (4 <= p)%nat as H4.
    { destruct Hpos as [->|(l' & Hr' & Hle')]; [by destruct Hcur as [|[_ []]]|].
      pose proof (rd_range _ _ _ Hr') as Hu. unfold is_u8 in Hu.
      destruct Hcur as [|[(l0 & Hr0 & Hle0) _]]; [lia|]. rewrite Hr' in Hr0. injection Hr0 as <-. lia. }
    assert (cur <= p)%nat as Hcp.
    { destruct Hpos as [->|(l' & Hr' & Hle')]; [done|]. pose proof (rd_range _ _ _ Hr') as Hu. unfold is_u8 in Hu. lia. }
    rewrite Hrl. cbn [mbind option_bind].
    assert (exists buf', (if l <? endpoint_descriptor_size then Some buf else patch_endpoint buf p) = Some buf' /\
      length buf' = length buf /\ forall k, (k < p + 4)%nat -> rd buf' k = rd buf k) as (buf' & -> & Hbl & Hk).
    { unfold endpoint_descriptor_size. destruct (Z.ltb_spec l 7); [by exists buf|]. apply patch_endpoint_keeps. lia. }
    cbn [mbind option_bind]. unfold next. rewrite Hk, Hrl by lia. cbn [mbind option_bind].
    destruct (IH buf' (p + Z.to_nat l)%nat) as (b & -> & Hb); [|lia|left; lia|lia|by exists b; rewrite Hb].
    rewrite (rd16_keeps buf) by (intros; apply Hk; lia). done.
Qed.

(** The bytes of a response that says to be a whole configuration descriptor. *)
Lemma patch_configuration_total cfg total speed : rd cfg 0 = Some 9 -> rd cfg 1 = Some 2 -> rd16 cfg 2 = Some total ->
  total <= Z.of_nat (length cfg) ->
  exists cfg', patch_configuration_for_udecx parse cfg speed = Some cfg' /\ length cfg' = length cfg.
Proof.
  intros H0 H1 Ht Hl. unfold patch_configuration_for_udecx. destruct (_ <=? speed); [by exists cfg|].
  apply (patch_loop_total _ _ _ total); [done..| |lia]. right. change (0 + 1)%nat with 1%nat. rewrite H1.
  split; [exists 9; split; [done|lia]|done].
Qed.
End unchecked.

(** find_next searches a chain as USBD_ParseDescriptors is documented to. *)
Lemma find_next_loop_chain fuel pre rest ds type :
  desc_chain rest ds -> (length ds <= fuel)%nat ->
  find_next_loop fuel (pre ++ rest) (Z.of_nat (length (pre ++ rest))) type (length pre) =
  Some (first_of_type ds (length pre) type).
Proof.
  intros Hc. revert fuel pre. induction Hc as [|d rest ds Hd Hc IH]; intros fuel pre Hf.
  - rewrite length_app. simpl length. destruct fuel; cbn [find_next_loop];
      (destruct (Z.leb_spec (Z.of_nat (length pre) + 2) (Z.of_nat (length pre + 0))); [lia|done]).
  - simpl in Hf. destruct fuel as [|fuel]; [lia|]. cbn [find_next_loop].
    pose proof (descriptor_length d Hd) as H0. assert (2 <= length d)%nat as Hl2
      by (destruct Hd as (l & t & b & -> & _); simpl; lia).
    pose proof (rd_middle pre d rest 0 ltac:(lia)) as R0. rewrite Nat.add_0_r, H0 in R0.
    pose proof (rd_middle pre d rest 1 ltac:(lia)) as R1.
    destruct (rd_Some d 1) as (t & _ & Ht); [lia|]. rewrite Ht in R1.
    destruct (Z.leb_spec (Z.of_nat (length pre) + 2) (Z.of_nat (length (pre ++ d ++ rest)))) as [_|Hx];
      [|rewrite !length_app in Hx; lia].
    rewrite R0. cbn [mbind option_bind].
    destruct (Z.leb_spec 2 (Z.of_nat (length d))) as [_|]; [|lia].
    destruct (Z.leb_spec (Z.of_nat (length pre) + Z.of_nat (length d)) (Z.of_nat (length (pre ++ d ++ rest)))) as [_|Hx];
      [|rewrite !length_app in Hx; lia].
    cbn [andb]. rewrite R1. cbn [mbind option_bind first_of_type]. unfold desc_type. rewrite Ht.
    destruct (Z.eqb_spec (b2z t) type) as [->|Hne]; [by rewrite bool_decide_eq_true_2|].
    rewrite bool_decide_eq_false_2 by congruence. rewrite Nat2Z.id, app_assoc, <- length_app.
    apply IH. lia.
Qed.

(** An implementation of USBD_ParseDescriptors with the program's own search loop. *)
Definition parse_with_find_next (buf : list byte) (total : Z) (start : nat) (type : Z) : option nat :=
  default None (find_next_loop (length buf) buf total type start).

#[global] Instance parse_with_find_next_ok : ParseDescriptors parse_with_find_next.
Proof.
  intros pre rest ds type Hc. unfold parse_with_find_next.
  rewrite find_next_loop_chain with (ds := ds); [done|done|].
  pose proof (desc_chain_length _ _ Hc). rewrite length_app. lia.
Qed.

Lemma find_next_loop_inside fuel cfg last type cur p : find_next_loop fuel cfg last type cur = Some (Some p) ->
  rd cfg (p + 1) = Some type /\ (exists l, rd cfg p = Some l /\ 2 <= l /\ Z.of_nat p + l <= last) /\
  (p = cur \/ exists l, rd cfg cur = Some l /\ Z.of_nat cur + l <= Z.of_nat p).
Proof.
  revert cur. induction fuel as [|fuel IH]; intros cur; cbn [find_next_loop]; (destruct (Z.of_nat cur + 2 <=? last); [|done]); [done|].
  destruct (rd cfg cur) as [l|] eqn:Hl; cbn [mbind option_bind]; [|done].
  destruct ((2 <=? l) && (Z.of_nat cur + l <=? last)) eqn:Hc; [|done]. bool_prop.
  destruct (rd cfg (cur + 1)) as [t|] eqn:Ht; cbn [mbind option_bind]; [|done].
  destruct (Z.eqb_spec t type) as [->|_].
  - intros [= <-]. split; [done|]. split; [exists l; split; [done|lia]|by left].
  - intros Hr. apply IH in Hr as (? & ? & Hpos). split; [done|]. split; [done|]. right. exists l. split; [done|].
    destruct Hpos as [->|(l' & Hr' & ?)]; [lia|]. apply rd_range in Hr'. unfold is_u8 in Hr'. lia.
Qed.

#[global] Instance parse_with_find_next_inside : ParseInside parse_with_find_next.
Proof.
  intros cfg total cur type p _. unfold parse_with_find_next. destruct (find_next_loop _ _ _ _ _) as [[q|]|] eqn:Hf; [|done..].
  cbn. intros [= <-]. by apply find_next_loop_inside in Hf.
Qed.

(** The patch keeps what the filter checked. *)
Lemma is_interface_patch d : is_interface (patch_desc d) <-> is_interface d.
Proof. unfold is_interface. by rewrite desc_type_patch. Qed.

Lemma interface_patch d : is_interface d -> patch_desc d = d.
Proof. unfold is_interface. intros H. apply patch_desc_other. by rewrite H. Qed.

Lemma interface_numbers_patch ds : interface_numbers (map patch_desc ds) = interface_numbers ds.
Proof.
  induction ds as [|d ds IH]; [done|]. rewrite map_cons, !numbers_cons, IH. f_equal.
  destruct (decide (is_interface d)) as [Hi|Hi].
  - rewrite decide_True by (by apply is_interface_patch). by rewrite interface_patch.
  - rewrite decide_False; [done|]. by rewrite is_interface_patch.
Qed.

Lemma fields_present_patch d : fields_present (patch_desc d) <-> fields_present d.
Proof. unfold fields_present. by rewrite is_interface_patch, desc_type_patch, length_patch_desc. Qed.

Lemma interface_allowed_patch allowed d :
  interface_allowed allowed (patch_desc d) <-> interface_allowed allowed d.
Proof.
  unfold interface_allowed. rewrite is_interface_patch.
  split; intros H Hi; specialize (H Hi); [rewrite interface_patch in H|rewrite interface_patch]; done.
Qed.

Lemma Forall_map_iff (P : list byte -> Prop) ds :
  (forall d, P (patch_desc d) <-> P d) -> Forall P (map patch_desc ds) <-> Forall P ds.
Proof.
  intros HP. induction ds as [|d ds IH]; [done|]. rewrite map_cons, !List.Forall_cons_iff, IH, HP. done.
Qed.

Lemma valid_configuration_chain allowed cfg : valid_configuration allowed cfg ->
  exists ds, desc_chain cfg ds /\ Forall fields_present ds /\ total_is_length cfg /\
    rd cfg 0 = Some 9 /\ rd cfg 1 = Some configuration_descriptor_type.
Proof.
  intros [(Hl & H0 & H1) (lo & hi & H2 & H3 & Ht) (ds & n & Hc & Hf & _)]. exists ds.
  repeat split; auto. unfold total_is_length, rd16. simpl. by rewrite H2, H3, <- Ht.
Qed.

Lemma valid_configuration_patch allowed cfg ds : desc_chain cfg ds ->
  valid_configuration allowed cfg -> valid_configuration allowed (concat (map patch_desc ds)).
Proof.
  intros Hc [(Hl & H0 & H1) (lo & hi & H2 & H3 & Ht) (ds' & n & Hc' & Hf & Ha & He & H4 & Hn)].
  assert (ds' = ds) as -> by (eapply desc_chain_unique; done).
  assert (cfg <> []) as Hne by (intros ->; discriminate).
  assert (forall k, (k < 9)%nat -> rd (concat (map patch_desc ds)) k = rd cfg k) as Hk.
  { destruct (chain_head _ _ Hne Hc) as (d & ds' & -> & Hr & Hd0 & Hd1 & Hdl & Hc2). intros k Hk.
    rewrite H0 in Hd0. injection Hd0 as Hd0. rewrite map_cons, concat_cons, patch_desc_other.
    - rewrite Hr, !rd_app_l by lia. done.
    - rewrite <- Hd1, H1. done. }
  assert (length (concat (map patch_desc ds)) = length cfg) as Hlen
    by (by rewrite length_concat_patch, (desc_chain_concat _ _ Hc)).
  split.
  - rewrite Hlen, !Hk by lia. done.
  - exists lo, hi. rewrite Hlen, !Hk by lia. done.
  - exists (map patch_desc ds), n. rewrite Hk by lia. split; [by eapply desc_chain_patch|].
    rewrite !Forall_map_iff by auto using fields_present_patch, interface_allowed_patch.
    repeat split; auto; [|by rewrite interface_numbers_patch].
    clear -He. induction He as [d ds Hi|d ds He IH]; simpl.
    + left. by apply is_interface_patch.
    + right. exact IH.
Qed.

(** The interval search, from exponent [i - 1] on. *)
Lemma interval_loop_spec n i mf : 1 <= i -> 0 <= mf <= 2 ^ (i + Z.of_nat n - 2) ->
  (i = 1 \/ 2 ^ (i - 2) < mf) -> (1 <= n)%nat ->
  i <= interval_loop n i mf < i + Z.of_nat n /\ mf <= 2 ^ (interval_loop n i mf - 1) /\
  (interval_loop n i mf = 1 \/ 2 ^ (interval_loop n i mf - 2) < mf).
Proof.
  revert i. induction n as [|n IH]; intros i Hi Hmf Hlow Hn; [lia|]. cbn [interval_loop].
  rewrite Z.shiftl_mul_pow2, Z.mul_1_l by lia.
  destruct (Z.leb_spec mf (2 ^ (i - 1))) as [Hle|Hgt]; [split; [lia|done]|].
  destruct n as [|n]; [replace (i + Z.of_nat 1 - 2) with (i - 1) in Hmf by lia; lia|].
  destruct (IH (i + 1)) as (? & ? & ?); [lia| |right; by replace (i + 1 - 2) with (i - 1) by lia|lia|].
  - by replace (i + 1 + Z.of_nat (S n) - 2) with (i + Z.of_nat (S (S n)) - 2) by lia.
  - split; [lia|done].
Qed.

(** ** Properties *)

(** C39: on a configuration the filter accepts, the patch ends within its fuel without an
    access outside of the buffer; at low and full speed it changes exactly the
    bMaxPacketSize or bInterval bytes of the endpoint descriptors ([patch_desc]), at
    higher speeds nothing, and what the filter decided remains true of the result. *)
Theorem patch_configuration_correct (parse : list byte -> Z -> nat -> Z -> option nat)
    {HP : ParseDescriptors parse} cfg speed (allowed : interface_class -> Prop) :
  valid_configuration allowed cfg ->
  exists cfg' ds, patch_configuration_for_udecx parse cfg speed = Some cfg' /\ desc_chain cfg ds /\
    cfg' = (if USB_SPEED_HIGH <=? speed then cfg else concat (map patch_desc ds)) /\
    length cfg' = length cfg /\ valid_configuration allowed cfg'.
Proof.
  intros Hv. destruct (valid_configuration_chain _ _ Hv) as (ds & Hc & Hf & Ht & H0 & H1).
  eexists _, ds. rewrite (patch_configuration_chain parse cfg ds speed) by done.
  repeat (split; [done|]). destruct (_ <=? speed); [done|]. split.
  - by rewrite length_concat_patch, (desc_chain_concat _ _ Hc).
  - by apply valid_configuration_patch with cfg.
Qed.

(** A full-speed mass-storage configuration: one interrupt endpoint with a 10 ms
    interval and one bulk endpoint. *)
Definition full_speed_config : list byte := map z2b
  [9; 2; 32; 0; 1; 1; 0; 128; 50;  9; 4; 0; 0; 2; 8; 6; 80; 0;
   7; 5; 129; 3; 8; 0; 10;  7; 5; 2; 2; 64; 0; 0].

Definition patched_config : list byte := map z2b
  [9; 2; 32; 0; 1; 1; 0; 128; 50;  9; 4; 0; 0; 2; 8; 6; 80; 0;
   7; 5; 129; 3; 8; 0; 8;  7; 5; 2; 2; 0; 2; 0].

Lemma full_speed_config_valid : valid_configuration (fun i => storage_only i = true) full_speed_config.
Proof.
  destruct (evaluate_exact full_speed_config (fun i => Some (storage_only i)) storage_only) as (r & Hr & Hi);
    [done|]. apply Hi. vm_compute in Hr. injection Hr as <-. reflexivity.
Qed.

Lemma patch_configuration_correct_witness :
  patch_configuration_for_udecx parse_with_find_next full_speed_config 2 = Some patched_config /\
  valid_configuration (fun i => storage_only i = true) patched_config.
Proof.
  destruct (patch_configuration_correct parse_with_find_next full_speed_config 2 _ full_speed_config_valid)
    as (cfg' & ds & Hp & _ & _ & _ & Hv).
  assert (patch_configuration_for_udecx parse_with_find_next full_speed_config 2 = Some patched_config) as He
    by (vm_compute; reflexivity).
  split; [exact He|]. rewrite He in Hp. injection Hp as <-. exact Hv.
Defined.

(** An interrupt interval of a full-speed endpoint (1..255 ms) becomes the least
    exponent whose high-speed period, 2^(result - 1) microframes of 125 us, is not
    shorter; the cap of sixteen is never reached. *)
Theorem to_high_speed_interval_least ms : 1 <= ms <= 255 ->
  let e := to_high_speed_interval ms in
  4 <= e <= 12 /\ 8 * ms <= 2 ^ (e - 1) /\ forall e', 1 <= e' -> 8 * ms <= 2 ^ (e' - 1) -> e <= e'.
Proof.
  intros Hms e.
  destruct (interval_loop_spec 16 1 (8 * ms)) as (Hr & Hle & Hlow); [lia|simpl; lia|by left|lia|].
  change (interval_loop 16 1 (8 * ms)) with e in *. clearbody e.
  assert (4 <= e) as H4.
  { destruct (Z_lt_ge_dec e 4) as [Hlt|]; [|lia].
    assert (2 ^ (e - 1) <= 2 ^ 2) by (apply Z.pow_le_mono_r; lia). lia. }
  destruct Hlow as [->|Hlow]; [lia|]. split; [split; [done|]|split; [done|]].
  - destruct (Z_lt_ge_dec 12 e) as [Hlt|]; [|lia].
    assert (2 ^ 11 <= 2 ^ (e - 2)) by (apply Z.pow_le_mono_r; lia). lia.
  - intros e' He' Hle'. destruct (Z_lt_ge_dec e' e) as [Hlt|]; [|lia].
    assert (2 ^ (e' - 1) <= 2 ^ (e - 2)) by (apply Z.pow_le_mono_r; lia). lia.
Qed.

Lemma to_high_speed_interval_least_witness : to_high_speed_interval 10 = 8 /\ 4 <= to_high_speed_interval 255 <= 12.
Proof. split; [reflexivity|]. apply (to_high_speed_interval_least 255). lia. Defined.

(** find_next ends and, after the descriptor [d] of a well-formed configuration (or
    from its beginning), returns the position of the first later descriptor of the type. *)
Theorem find_next_first cfg ds1 d ds2 type :
  desc_chain cfg (ds1 ++ d :: ds2) -> total_is_length cfg ->
  find_next cfg type None = Some (first_of_type (ds1 ++ d :: ds2) 0 type) /\
  find_next cfg type (Some (length (concat ds1))) =
    Some (first_of_type ds2 (length (concat ds1) + length d) type).
Proof.
  intros Hc Ht. pose proof (desc_chain_length _ _ Hc) as Hlen. rewrite length_app in Hlen. simpl in Hlen.
  unfold find_next. rewrite Ht. cbn [mbind option_bind]. split.
  - rewrite <- (app_nil_l cfg) at 2 3. change 0%nat with (length (@nil byte)).
    apply find_next_loop_chain; [done|]. rewrite length_app. simpl. lia.
  - assert (exists rest, cfg = concat ds1 ++ d ++ rest /\ is_descriptor d /\ desc_chain rest ds2)
      as (rest & -> & Hd & Hc2).
    { clear Ht Hlen. revert cfg Hc. induction ds1 as [|d1 ds1 IH]; intros cfg Hc; simpl in Hc.
      - inversion Hc; subst. eauto.
      - inversion Hc as [|? r ? Hd1 Hr]; subst. destruct (IH _ Hr) as (rest & -> & ? & ?).
        exists rest. split; [|done]. simpl. by rewrite <- app_assoc. }
    assert (2 <= length d)%nat by (destruct Hd as (l & t & b & -> & _); simpl; lia).
    unfold next. pose proof (rd_middle (concat ds1) d rest 0 ltac:(lia)) as R0.
    rewrite Nat.add_0_r, descriptor_length in R0 by done. rewrite R0. cbn [mbind option_bind].
    rewrite Nat2Z.id, app_assoc, <- length_app. apply find_next_loop_chain; [done|].
    rewrite length_app. pose proof (desc_chain_length _ _ Hc2). lia.
Qed.

Lemma find_next_first_witness : find_next full_speed_config 5 (Some 18%nat) = Some (Some 25%nat).
Proof.
  pose (ds1 := [firstn 9 full_speed_config; firstn 9 (skipn 9 full_speed_config)]).
  pose (d := firstn 7 (skipn 18 full_speed_config)). pose (ds2 := [skipn 25 full_speed_config]).
  assert (desc_chain full_speed_config (ds1 ++ d :: ds2)) as Hc.
  { change full_speed_config with (firstn 9 full_speed_config ++ firstn 9 (skipn 9 full_speed_config) ++
      d ++ skipn 25 full_speed_config ++ []).
    repeat constructor; (eexists _, _, _; split; [reflexivity|reflexivity]). }
  exact (proj2 (find_next_first full_speed_config ds1 d ds2 5 Hc eq_refl)).
Defined.
