(* ===== verification/Proto.v ===== *)
(** * USB/IP protocol data units

    Models include/usbip/proto.h and drivers/libdrv/pdu.cpp.  A [header] is the
    48-byte structure of the host: five words of header_basic, and the union body
    as five words and eight bytes, which is how its four members overlay each
    other.  Words are unsigned 32-bit values; the INT32 fields are read with
    [s32].  Sizes and pointers are 64-bit (the drivers are built for x64 and
    ARM64), so pointer arithmetic is modulo 2^64. *)

From S2P Require Import Prelude.

Definition CMD_SUBMIT : Z := 1.
Definition CMD_UNLINK : Z := 2.
Definition RET_SUBMIT : Z := 3.
Definition RET_UNLINK : Z := 4.

Definition dir_out : Z := 0.
Definition dir_in : Z := 1.

Definition max_iso_packets : Z := 1024.
Definition number_of_packets_non_isoch : Z := -1.

Definition is_valid_number_of_packets (n : Z) : bool := (0 <=? n) && (n <=? max_iso_packets).

Record header : Type := {
  command : Z; seqnum : Z; devid : Z; direction : Z; ep : Z;
  w0 : Z; w1 : Z; w2 : Z; w3 : Z; w4 : Z;
  setup : list byte }.

Definition sizeof_header : nat := 48.

(** Every word is an unsigned 32-bit value. *)
Definition header_ok (h : header) : Prop :=
  Forall is_u32 [command h; seqnum h; devid h; direction h; ep h; w0 h; w1 h; w2 h; w3 h; w4 h] /\
  length (setup h) = 8%nat.

(** header{}: value-initialised. *)
Definition zero_header : header :=
  {| command := 0; seqnum := 0; devid := 0; direction := 0; ep := 0;
     w0 := 0; w1 := 0; w2 := 0; w3 := 0; w4 := 0; setup := replicate 8 x00 |}.

(** header_cmd_submit, header_ret_submit, header_cmd_unlink and header_ret_unlink. *)
Definition cs_transfer_flags (h : header) : Z := w0 h.
Definition cs_transfer_buffer_length (h : header) : Z := s32 (w1 h).
Definition cs_start_frame (h : header) : Z := s32 (w2 h).
Definition cs_number_of_packets (h : header) : Z := s32 (w3 h).
Definition cs_interval (h : header) : Z := s32 (w4 h).

Definition rs_status (h : header) : Z := s32 (w0 h).
Definition rs_actual_length (h : header) : Z := s32 (w1 h).
Definition rs_start_frame (h : header) : Z := s32 (w2 h).
Definition rs_number_of_packets (h : header) : Z := s32 (w3 h).
Definition rs_error_count (h : header) : Z := s32 (w4 h).

Definition cu_seqnum (h : header) : Z := w0 h.
Definition ru_status (h : header) : Z := s32 (w0 h).

(** ** Memory image *)

Definition words (ws : list Z) : list byte := concat (map (le_bytes 4) ws).

Definition header_bytes (h : header) : list byte :=
  words [command h; seqnum h; devid h; direction h; ep h; w0 h; w1 h; w2 h; w3 h; w4 h] ++ setup h.

Definition word (bs : list byte) (i : nat) : Z := le_val (take 4 (drop (4 * i) bs)).

Definition header_of_bytes (bs : list byte) : header :=
  {| command := word bs 0; seqnum := word bs 1; devid := word bs 2; direction := word bs 3; ep := word bs 4;
     w0 := word bs 5; w1 := word bs 6; w2 := word bs 7; w3 := word bs 8; w4 := word bs 9;
     setup := take 8 (drop 40 bs) |}.

(** ** Byte order *)

Inductive swap_dir : Type := host2net | net2host.
#[global] Instance swap_dir_eq_dec : EqDecision swap_dir.
Proof. solve_decision. Defined.

Definition bswap_basic (h : header) : header :=
  {| command := bswap32 (command h); seqnum := bswap32 (seqnum h); devid := bswap32 (devid h);
     direction := bswap32 (direction h); ep := bswap32 (ep h);
     w0 := w0 h; w1 := w1 h; w2 := w2 h; w3 := w3 h; w4 := w4 h; setup := setup h |}.

Definition set_body (h : header) (a b c d e : Z) : header :=
  {| command := command h; seqnum := seqnum h; devid := devid h; direction := direction h; ep := ep h;
     w0 := a; w1 := b; w2 := c; w3 := d; w4 := e; setup := setup h |}.

Definition bswap_cmd_submit (h : header) : header :=
  set_body h (bswap32 (w0 h)) (bswap32 (w1 h)) (bswap32 (w2 h)) (bswap32 (w3 h)) (bswap32 (w4 h)).
Definition bswap_ret_submit (h : header) : header :=
  set_body h (bswap32 (w0 h)) (bswap32 (w1 h)) (bswap32 (w2 h)) (bswap32 (w3 h)) (bswap32 (w4 h)).
Definition bswap_cmd_unlink (h : header) : header := set_body h (bswap32 (w0 h)) (w1 h) (w2 h) (w3 h) (w4 h).
Definition bswap_ret_unlink (h : header) : header := set_body h (bswap32 (w0 h)) (w1 h) (w2 h) (w3 h) (w4 h).

Definition byteswap_header (hdr : header) (dir : swap_dir) : header :=
  let hdr := if decide (dir = net2host) then bswap_basic hdr else hdr in
  let hdr :=
    if command hdr =? CMD_SUBMIT then bswap_cmd_submit hdr
    else if command hdr =? RET_SUBMIT then bswap_ret_submit hdr
    else if command hdr =? CMD_UNLINK then bswap_cmd_unlink hdr
    else if command hdr =? RET_UNLINK then bswap_ret_unlink hdr
    else hdr in
  if decide (dir = host2net) then bswap_basic hdr else hdr.

(** ** Isochronous packet descriptors *)

Record iso_packet_descriptor : Type := { iso_offset : Z; iso_length : Z; iso_actual_length : Z; iso_status : Z }.

Definition sizeof_iso_packet_descriptor : Z := 16.

Definition iso_ok (d : iso_packet_descriptor) : Prop :=
  Forall is_u32 [iso_offset d; iso_length d; iso_actual_length d; iso_status d].

Definition byteswap_one (d : iso_packet_descriptor) : iso_packet_descriptor :=
  {| iso_offset := bswap32 (iso_offset d); iso_length := bswap32 (iso_length d);
     iso_actual_length := bswap32 (iso_actual_length d); iso_status := bswap32 (iso_status d) |}.

(** byteswap(d, cnt): [None] is an access past the array. *)
Fixpoint byteswap (d : list iso_packet_descriptor) (cnt : nat) : option (list iso_packet_descriptor) :=
  match cnt, d with
  | O, d => Some d
  | S cnt, d0 :: d => d ← byteswap d cnt; Some (byteswap_one d0 :: d)
  | S _, [] => None
  end.

Definition iso_bytes (d : iso_packet_descriptor) : list byte :=
  words [iso_offset d; iso_length d; iso_actual_length d; iso_status d].

Definition iso_of_bytes (bs : list byte) : iso_packet_descriptor :=
  {| iso_offset := word bs 0; iso_length := word bs 1; iso_actual_length := word bs 2; iso_status := word bs 3 |}.

(** ** Sizes *)

(** get_isoc_descr: the offset of the descriptors from the header (modulo 2^64) and their count. *)
Definition get_isoc_descr (hdr : header) : Z * Z :=
  let is_out := direction hdr =? dir_out in
  let '(len, cnt) :=
    if command hdr =? CMD_SUBMIT then
      (if is_out then cs_transfer_buffer_length hdr else 0, u64 (cs_number_of_packets hdr))
    else if command hdr =? RET_SUBMIT then
      (if is_out then 0 else rs_actual_length hdr, u64 (rs_number_of_packets hdr))
    else (0, 0) in
  (u64 (Z.of_nat sizeof_header + len), if cnt =? u64 number_of_packets_non_isoch then 0 else cnt).

Definition get_total_size (hdr : header) : Z :=
  let '(isoc, cnt) := get_isoc_descr hdr in u64 (isoc + cnt * sizeof_iso_packet_descriptor).

Definition get_payload_size (hdr : header) : Z := u64 (get_total_size hdr - Z.of_nat sizeof_header).

(** byteswap_payload: swaps in place the descriptors that follow the transfer
    buffer; [mem] is the memory from the header on. *)
Definition isos_of_bytes (n : nat) (bs : list byte) : list iso_packet_descriptor :=
  map (fun i => iso_of_bytes (drop (16 * i) bs)) (seq 0 n).

Definition isos_bytes (ds : list iso_packet_descriptor) : list byte := concat (map iso_bytes ds).

Definition byteswap_payload (hdr : header) (mem : list byte) : option (list byte) :=
  let '(isoc, cnt) := get_isoc_descr hdr in
  if cnt =? 0 then Some mem
  else
    let n := Z.to_nat cnt in
    descr ← bytes_at (Z.to_nat isoc) (16 * n) mem;
    ds ← byteswap (isos_of_bytes n descr) n;
    Some (take (Z.to_nat isoc) mem ++ isos_bytes ds ++ drop (Z.to_nat isoc + 16 * n) mem).

(** ** Lemmas *)

Lemma length_words ws : length (words ws) = (4 * length ws)%nat.
Proof.
  unfold words. induction ws as [|w ws IH]; [done|].
  rewrite map_cons, concat_cons, length_app, length_le_bytes, IH. simpl. lia.
Qed.

Lemma word_words ws rest i w : ws !! i = Some w -> is_u32 w -> word (words ws ++ rest) i = w.
Proof.
  intros Hi Hw. unfold word. revert i Hi. unfold words. induction ws as [|w' ws IH]; intros i Hi; [done|].
  rewrite map_cons, concat_cons, <- app_assoc. destruct i as [|i]; simpl in Hi.
  - injection Hi as ->. rewrite drop_0, take_app_length' by (by rewrite length_le_bytes).
    rewrite le_val_le_bytes. by apply Z.mod_small.
  - rewrite drop_app_ge by (rewrite length_le_bytes; lia). rewrite length_le_bytes.
    replace (4 * S i - 4)%nat with (4 * i)%nat by lia. by apply IH.
Qed.

Lemma drop_words ws rest : drop (4 * length ws) (words ws ++ rest) = rest.
Proof. apply drop_app_length'. by rewrite length_words. Qed.

Lemma word_range bs i : is_u32 (word bs i).
Proof.
  unfold word, is_u32. pose proof (le_val_range (take 4 (drop (4 * i) bs))) as H.
  assert (256 ^ Z.of_nat (length (take 4 (drop (4 * i) bs))) <= 256 ^ 4)
    by (apply Z.pow_le_mono_r; [lia|rewrite length_take; lia]). lia.
Qed.

#[export] Hint Resolve word_range : ranges.

Lemma header_bytes_roundtrip h : header_ok h -> header_of_bytes (header_bytes h) = h.
Proof.
  intros [Hw Hs]. rewrite List.Forall_forall in Hw. unfold header_of_bytes, header_bytes.
  change 40%nat with (4 * length [command h; seqnum h; devid h; direction h; ep h; w0 h; w1 h; w2 h; w3 h; w4 h])%nat.
  rewrite drop_words. destruct h; cbn [command seqnum devid direction ep w0 w1 w2 w3 w4 setup] in *.
  f_equal; try (apply word_words; [reflexivity|apply Hw; simpl; tauto]).
  apply take_ge. lia.
Qed.

Lemma bswap_basic_ok h : header_ok h -> header_ok (bswap_basic h).
Proof.
  intros [Hw Hs]. split; [|done]. simpl. rewrite !List.Forall_cons_iff in *.
  split_and!; auto with ranges; apply Hw.
Qed.

Lemma header_ok_set_body h a b c d e : header_ok h -> Forall is_u32 [a; b; c; d; e] ->
  header_ok (set_body h a b c d e).
Proof.
  intros [Hw Hs] Hb. split; [|done]. unfold set_body. cbn [command seqnum devid direction ep w0 w1 w2 w3 w4].
  rewrite !List.Forall_cons_iff in *. tauto.
Qed.

Lemma bswap_body_ok h : header_ok h ->
  header_ok (bswap_cmd_submit h) /\ header_ok (bswap_ret_submit h) /\
  header_ok (bswap_cmd_unlink h) /\ header_ok (bswap_ret_unlink h).
Proof.
  intros Hok. pose proof Hok as [Hw _]. rewrite !List.Forall_cons_iff in Hw.
  split_and!; (apply header_ok_set_body; [done|]); rewrite !List.Forall_cons_iff; split_and!; auto with ranges; apply Hw.
Qed.

Lemma byteswap_header_ok h dir : header_ok h -> header_ok (byteswap_header h dir).
Proof.
  intros Hok. unfold byteswap_header.
  assert (header_ok (if decide (dir = net2host) then bswap_basic h else h)) as Hb
    by (case_decide; [by apply bswap_basic_ok|done]).
  set (h1 := if decide (dir = net2host) then _ else _) in *. clearbody h1.
  destruct (bswap_body_ok h1 Hb) as (? & ? & ? & ?).
  case_decide; repeat case_match; try apply bswap_basic_ok; done.
Qed.

(** bswap is an involution on words, so each body swap undoes itself. *)
Lemma bswap_involutive h : header_ok h ->
  bswap_basic (bswap_basic h) = h /\ bswap_cmd_submit (bswap_cmd_submit h) = h /\
  bswap_ret_submit (bswap_ret_submit h) = h /\ bswap_cmd_unlink (bswap_cmd_unlink h) = h /\
  bswap_ret_unlink (bswap_ret_unlink h) = h.
Proof.
  intros [Hw _]. rewrite !List.Forall_cons_iff in Hw. destruct h. cbn in Hw.
  unfold bswap_basic, bswap_cmd_submit, bswap_ret_submit, bswap_cmd_unlink, bswap_ret_unlink, set_body. cbn.
  rewrite !bswap32_involutive by tauto. done.
Qed.

(** What is written to the wire: network order for every field the command uses. *)
Definition wire_body (h : header) : list byte :=
  if (command h =? CMD_SUBMIT) || (command h =? RET_SUBMIT) then
    concat (map (be_bytes 4) [w0 h; w1 h; w2 h; w3 h; w4 h]) ++ setup h
  else be_bytes 4 (w0 h) ++ words [w1 h; w2 h; w3 h; w4 h] ++ setup h.

Definition wire_header (h : header) : list byte :=
  concat (map (be_bytes 4) [command h; seqnum h; devid h; direction h; ep h]) ++ wire_body h.

Definition known_command (h : header) : bool :=
  (command h =? CMD_SUBMIT) || (command h =? RET_SUBMIT) || (command h =? CMD_UNLINK) || (command h =? RET_UNLINK).

Lemma byteswap_header_wire h : known_command h = true ->
  header_bytes (byteswap_header h host2net) = wire_header h.
Proof.
  intros Hk. unfold byteswap_header, wire_header, wire_body, known_command in *.
  rewrite (decide_False (P := host2net = net2host)), (decide_True (P := host2net = host2net)) by done.
  unfold header_bytes, words.
  destruct (command h =? CMD_SUBMIT); [|destruct (command h =? RET_SUBMIT);
    [|destruct (command h =? CMD_UNLINK); [|destruct (command h =? RET_UNLINK); [|done]]]];
    unfold bswap_basic, bswap_cmd_submit, bswap_ret_submit, bswap_cmd_unlink, bswap_ret_unlink, set_body;
    cbn [command seqnum devid direction ep w0 w1 w2 w3 w4 setup map orb];
    rewrite !le_bytes_bswap32; rewrite !concat_cons, !concat_nil, <- !app_assoc; reflexivity.
Qed.

Lemma net2host_host2net h : header_ok h -> byteswap_header (byteswap_header h host2net) net2host = h.
Proof.
  intros Hok. destruct (bswap_body_ok h Hok) as (O1 & O2 & O3 & O4).
  destruct (bswap_involutive h Hok) as (I0 & I1 & I2 & I3 & I4).
  assert (forall g, header_ok g -> bswap_basic (bswap_basic g) = g) as IB by (intros; by apply bswap_involutive).
  unfold byteswap_header. rewrite !(decide_False (P := host2net = net2host)), !(decide_True (P := host2net = host2net)),
    !(decide_True (P := net2host = net2host)), !(decide_False (P := net2host = host2net)) by done.
  destruct (command h =? CMD_SUBMIT) eqn:E1; [|destruct (command h =? RET_SUBMIT) eqn:E2;
    [|destruct (command h =? CMD_UNLINK) eqn:E3; [|destruct (command h =? RET_UNLINK) eqn:E4]]].
  - rewrite IB by done. change (command (bswap_cmd_submit h)) with (command h). by rewrite E1, I1.
  - rewrite IB by done. change (command (bswap_ret_submit h)) with (command h). by rewrite E1, E2, I2.
  - rewrite IB by done. change (command (bswap_cmd_unlink h)) with (command h). by rewrite E1, E2, E3, I3.
  - rewrite IB by done. change (command (bswap_ret_unlink h)) with (command h). by rewrite E1, E2, E3, E4, I4.
  - rewrite IB by done. by rewrite E1, E2, E3, E4.
Qed.


(** Packet descriptors. *)
Lemma isos_length n bs : length (isos_of_bytes n bs) = n.
Proof. unfold isos_of_bytes. by rewrite length_map, length_seq. Qed.

Lemma byteswap_all ds : byteswap ds (length ds) = Some (map byteswap_one ds).
Proof. induction ds as [|d ds IH]; [done|]. simpl. by rewrite IH. Qed.

Lemma length_iso_bytes d : length (iso_bytes d) = 16%nat.
Proof. unfold iso_bytes. by rewrite length_words. Qed.

Lemma length_isos_bytes ds : length (isos_bytes ds) = (16 * length ds)%nat.
Proof.
  unfold isos_bytes. induction ds as [|d ds IH]; [done|].
  rewrite map_cons, concat_cons, length_app, length_iso_bytes, IH. simpl. lia.
Qed.

Lemma iso_bytes_roundtrip d rest : iso_ok d -> iso_of_bytes (iso_bytes d ++ rest) = d.
Proof.
  unfold iso_ok. rewrite List.Forall_forall. intros Hd. unfold iso_of_bytes, iso_bytes.
  destruct d; cbn [iso_offset iso_length iso_actual_length iso_status] in *.
  f_equal; (apply word_words; [reflexivity|apply Hd; simpl; tauto]).
Qed.

Lemma isos_of_bytes_S n bs : isos_of_bytes (S n) bs = iso_of_bytes bs :: isos_of_bytes n (drop 16 bs).
Proof.
  unfold isos_of_bytes. cbn [seq map]. f_equal. rewrite <- seq_shift, map_map. apply map_ext. intros i.
  rewrite drop_drop. do 2 f_equal. lia.
Qed.

Lemma isos_bytes_roundtrip ds rest : Forall iso_ok ds -> isos_of_bytes (length ds) (isos_bytes ds ++ rest) = ds.
Proof.
  induction 1 as [|d ds Hd Hds IH]; [done|]. cbn [length]. rewrite isos_of_bytes_S.
  unfold isos_bytes. rewrite map_cons, concat_cons, <- app_assoc, iso_bytes_roundtrip by done. f_equal.
  rewrite drop_app_length' by (by rewrite length_iso_bytes). apply IH.
Qed.

Lemma byteswap_one_ok d : iso_ok (byteswap_one d).
Proof. unfold iso_ok, iso_of_bytes, byteswap_one. cbn [iso_offset iso_length iso_actual_length iso_status]. rewrite !List.Forall_cons_iff. split_and!; auto using List.Forall_nil with ranges. Qed.

Lemma byteswap_one_involutive d : iso_ok d -> byteswap_one (byteswap_one d) = d.
Proof.
  unfold iso_ok. rewrite !List.Forall_cons_iff. intros (? & ? & ? & ? & _). destruct d.
  unfold byteswap_one. cbn in *. by rewrite !bswap32_involutive.
Qed.

Lemma word_drop k bs i : word (drop (4 * k) bs) i = word bs (k + i).
Proof. unfold word. rewrite drop_drop. do 3 f_equal. lia. Qed.

Lemma word_image bs i : (4 * i + 4 <= length bs)%nat -> le_bytes 4 (word bs i) = take 4 (drop (4 * i) bs).
Proof.
  intros H. unfold word. rewrite <- (le_bytes_le_val (take 4 _)) at 2. f_equal.
  rewrite length_take, length_drop. lia.
Qed.

Lemma iso_of_bytes_ok bs : iso_ok (iso_of_bytes bs).
Proof. unfold iso_ok, iso_of_bytes, byteswap_one. cbn [iso_offset iso_length iso_actual_length iso_status]. rewrite !List.Forall_cons_iff. split_and!; auto using List.Forall_nil with ranges. Qed.

Lemma isos_of_bytes_ok n bs : Forall iso_ok (isos_of_bytes n bs).
Proof.
  unfold isos_of_bytes. apply List.Forall_forall. intros d Hd. apply in_map_iff in Hd as (i & <- & _).
  apply iso_of_bytes_ok.
Qed.

(** The image of the descriptors read from memory is that memory. *)
Lemma iso_image bs : (16 <= length bs)%nat -> iso_bytes (iso_of_bytes bs) = take 16 bs.
Proof.
  intros H. unfold iso_bytes, iso_of_bytes, words. cbn [map concat iso_offset iso_length iso_actual_length iso_status].
  rewrite !word_image by lia. rewrite app_nil_r.
  transitivity (take (4 + (4 + (4 + 4))) bs); [|done].
  rewrite <- (take_take_drop bs 4), <- (take_take_drop (drop 4 bs) 4),
    <- (take_take_drop (drop 4 (drop 4 bs)) 4), !drop_drop. done.
Qed.

Lemma isos_image n bs : (16 * n <= length bs)%nat -> isos_bytes (isos_of_bytes n bs) = take (16 * n) bs.
Proof.
  revert bs. induction n as [|n IH]; intros bs H; [done|]. rewrite isos_of_bytes_S. unfold isos_bytes.
  rewrite map_cons, concat_cons, iso_image by lia. fold (isos_bytes (isos_of_bytes n (drop 16 bs))).
  rewrite IH by (rewrite length_drop; lia). replace (16 * S n)%nat with (16 + 16 * n)%nat by lia.
  apply take_take_drop.
Qed.

(** Sizes of a submit: the transfer buffer that travels with it, and its descriptors. *)
Definition transfer_len (h : header) : Z :=
  if command h =? CMD_SUBMIT then (if direction h =? dir_out then cs_transfer_buffer_length h else 0)
  else (if direction h =? dir_out then 0 else rs_actual_length h).

Definition packets (h : header) : Z := s32 (w3 h).

Definition is_submit (h : header) : Prop := command h = CMD_SUBMIT \/ command h = RET_SUBMIT.

Lemma get_isoc_descr_submit h : is_submit h -> 0 <= transfer_len h < 2 ^ 31 ->
  packets h = -1 \/ 0 <= packets h ->
  get_isoc_descr h = (48 + transfer_len h, Z.max 0 (packets h)).
Proof.
  intros Hc Hl Hp. pose proof (s32_range (w3 h)) as Hr. unfold is_s32 in Hr. fold (packets h) in Hr.
  assert (get_isoc_descr h = (u64 (48 + transfer_len h),
            if u64 (packets h) =? u64 (-1) then 0 else u64 (packets h))) as ->.
  { unfold get_isoc_descr, transfer_len. change (Z.of_nat sizeof_header) with 48.
    destruct Hc as [-> | ->]; cbn; by destruct (direction h =? dir_out). }
  change (u64 (-1)) with (2 ^ 64 - 1). unfold u64. rewrite (Z.mod_small (48 + _)) by lia. f_equal.
  destruct Hp as [-> | Hp]; [done|]. rewrite Z.mod_small by lia.
  destruct (Z.eqb_spec (packets h) (2 ^ 64 - 1)); lia.
Qed.

Lemma transfer_len_bound h : transfer_len h < 2 ^ 31.
Proof.
  unfold transfer_len, cs_transfer_buffer_length, rs_actual_length.
  pose proof (s32_range (w1 h)) as Hr. unfold is_s32 in Hr. repeat case_match; lia.
Qed.

Lemma byteswap_payload_submit h mem n len : is_submit h -> 0 <= transfer_len h ->
  packets h = -1 \/ 0 <= packets h -> n = Z.to_nat (packets h) -> len = Z.to_nat (transfer_len h) ->
  (48 + len + 16 * n <= length mem)%nat ->
  byteswap_payload h mem =
    Some (take (48 + len) mem ++ isos_bytes (map byteswap_one (isos_of_bytes n (drop (48 + len) mem))) ++
          drop (48 + len + 16 * n) mem).
Proof.
  intros Hc Hl Hp Hn Hlen Hm. pose proof (transfer_len_bound h) as Hb.
  unfold byteswap_payload. rewrite (get_isoc_descr_submit h Hc ltac:(lia) Hp).
  replace (Z.to_nat (48 + transfer_len h)) with (48 + len)%nat by lia.
  destruct (Z.eqb_spec (Z.max 0 (packets h)) 0) as [E|E].
  - replace n with 0%nat by lia. rewrite Nat.mul_0_r, Nat.add_0_r. cbn. by rewrite take_drop.
  - replace (Z.to_nat (Z.max 0 (packets h))) with n by lia. unfold bytes_at.
    rewrite decide_True by lia. cbn [mbind option_bind].
    assert (isos_of_bytes n (take (16 * n) (drop (48 + len) mem)) = isos_of_bytes n (drop (48 + len) mem)) as ->.
    { rewrite <- isos_image by (rewrite length_drop; lia).
      rewrite <- (app_nil_r (isos_bytes _)).
      rewrite <- (isos_length n (drop (48 + len) mem)) at 1. apply isos_bytes_roundtrip, isos_of_bytes_ok. }
    rewrite <- (isos_length n (drop (48 + len) mem)) at 2. rewrite byteswap_all. done.
Qed.

(** Swapping descriptors in place twice restores the memory. *)
Lemma swap_isos_twice n mem : (16 * n <= length mem)%nat ->
  isos_bytes (map byteswap_one (isos_of_bytes n
    (isos_bytes (map byteswap_one (isos_of_bytes n mem)) ++ drop (16 * n) mem))) = take (16 * n) mem.
Proof.
  intros Hm. set (B := isos_of_bytes n mem).
  assert (length B = n) as HB by apply isos_length.
  assert (isos_of_bytes n (isos_bytes (map byteswap_one B) ++ drop (16 * n) mem) = map byteswap_one B) as ->.
  { replace n with (length (map byteswap_one B)) at 1 by (by rewrite length_map).
    apply isos_bytes_roundtrip, List.Forall_forall. intros d Hin.
    apply in_map_iff in Hin as (? & <- & _). apply byteswap_one_ok. }
  rewrite map_map. assert (map (fun x => byteswap_one (byteswap_one x)) B = B) as ->.
  { rewrite <- (map_id B) at 2. apply map_ext_in. intros d Hin. apply byteswap_one_involutive.
    pose proof (isos_of_bytes_ok n mem) as HF. rewrite List.Forall_forall in HF. by apply HF. }
  by apply isos_image.
Qed.

(** ** Properties *)

(** The 48 bytes of a converted header of any of the four commands are its fields
    in network byte order (the unused words of an unlink as they are), and a receiver that
    reads the bytes and converts them back has the header that was sent. *)
Theorem header_wire_roundtrip h : header_ok h -> known_command h = true ->
  header_bytes (byteswap_header h host2net) = wire_header h /\
  byteswap_header (header_of_bytes (header_bytes (byteswap_header h host2net))) net2host = h.
Proof.
  intros Hok Hk. split; [by apply byteswap_header_wire|].
  rewrite header_bytes_roundtrip by (by apply byteswap_header_ok). by apply net2host_host2net.
Qed.

Definition sample_header : header :=
  {| command := CMD_SUBMIT; seqnum := 7; devid := 0x10002; direction := dir_in; ep := 0;
     w0 := 0; w1 := 18; w2 := 0; w3 := 0xffffffff; w4 := 0; setup := map z2b [128; 6; 0; 1; 0; 0; 18; 0] |}.

Lemma header_wire_roundtrip_witness :
  header_bytes (byteswap_header sample_header host2net) = wire_header sample_header /\
  byteswap_header (header_of_bytes (header_bytes (byteswap_header sample_header host2net))) net2host = sample_header /\
  take 8 (wire_header sample_header) = map z2b [0; 0; 0; 1; 0; 0; 0; 7].
Proof.
  assert (header_ok sample_header) as Hok.
  { split; [|reflexivity]. rewrite !List.Forall_cons_iff. unfold is_u32. simpl.
    unfold CMD_SUBMIT, dir_in. split_and!; try lia. constructor. }
  destruct (header_wire_roundtrip sample_header Hok eq_refl) as [H1 H2].
  split; [exact H1|]. split; [exact H2|]. reflexivity.
Defined.

(** For a submit with a non-negative length and a packet count that is not negative
    or marks a non-isochronous transfer, the total and payload sizes are the exact sums
    of header, transfer buffer and descriptors (no wrap-around), and byteswap_payload
    swaps exactly the descriptors that follow the transfer buffer, twice being the identity. *)
Theorem payload_size_exact h mem : is_submit h -> 0 <= transfer_len h ->
  packets h = -1 \/ 0 <= packets h ->
  let n := Z.to_nat (packets h) in
  let len := Z.to_nat (transfer_len h) in
  get_payload_size h = Z.of_nat (len + 16 * n) /\
  get_total_size h = Z.of_nat (48 + len + 16 * n) /\
  ((48 + len + 16 * n <= length mem)%nat ->
   byteswap_payload h mem =
     Some (take (48 + len) mem ++
           isos_bytes (map byteswap_one (isos_of_bytes n (drop (48 + len) mem))) ++
           drop (48 + len + 16 * n) mem) /\
   (byteswap_payload h mem ≫= byteswap_payload h) = Some mem).
Proof.
  intros Hc Hl Hp n len. pose proof (s32_range (w3 h)) as Hr. fold (packets h) in Hr.
  pose proof (transfer_len_bound h) as Hl2. unfold is_s32 in Hr.
  assert (get_total_size h = Z.of_nat (48 + len + 16 * n)) as Ht.
  { unfold get_total_size. rewrite (get_isoc_descr_submit h Hc ltac:(lia) Hp).
    unfold u64, sizeof_iso_packet_descriptor. rewrite Z.mod_small by lia. lia. }
  split; [|split; [done|]].
  { unfold get_payload_size. rewrite Ht. change (Z.of_nat sizeof_header) with 48.
    unfold u64. rewrite Z.mod_small by lia. lia. }
  intros Hm. split; [by apply byteswap_payload_submit|].
  rewrite (byteswap_payload_submit h mem n len) by done. cbn [mbind option_bind].
  set (A := take (48 + len) mem).
  assert (length A = 48 + len)%nat as HA by (unfold A; rewrite length_take; lia).
  set (B := isos_bytes (map _ _)). assert (length B = 16 * n)%nat as HB
    by (unfold B; by rewrite length_isos_bytes, length_map, isos_length).
  rewrite (byteswap_payload_submit h _ n len) by (done || (rewrite !length_app, length_drop; lia)). f_equal.
  rewrite take_app_length' by done. rewrite drop_app_length' by done.
  rewrite (app_assoc A B), (drop_app_length' (A ++ B)) by (rewrite length_app; lia).
  replace (48 + len + 16 * n)%nat with (16 * n + (48 + len))%nat by lia.
  rewrite <- (drop_drop (16 * n) (48 + len)) || rewrite Nat.add_comm, <- drop_drop.
  unfold B. rewrite swap_isos_twice by (rewrite length_drop; lia).
  rewrite take_drop. apply take_drop.
Qed.

(** Two packets after a four-byte transfer buffer. *)
Definition isoc_out_header : header :=
  {| command := CMD_SUBMIT; seqnum := 8; devid := 0x10002; direction := dir_out; ep := 1;
     w0 := 0; w1 := 4; w2 := 0; w3 := 2; w4 := 1; setup := replicate 8 x00 |}.

Lemma payload_size_exact_witness :
  get_payload_size isoc_out_header = 36 /\
  (byteswap_payload isoc_out_header (replicate 40 x01 ++ map z2b (seqZ 0 44)) ≫= byteswap_payload isoc_out_header)
    = Some (replicate 40 x01 ++ map z2b (seqZ 0 44)).
Proof.
  destruct (payload_size_exact isoc_out_header (replicate 40 x01 ++ map z2b (seqZ 0 44)))
    as (Hs & _ & Hm); [by left|vm_compute; congruence|right; vm_compute; congruence|].
  split; [exact Hs|]. apply Hm. vm_compute. lia.
Defined.
