(* ===== verification/Session.v ===== *)
(** * The connection to a server and the import exchange

    Models the synchronous socket calls of drivers/libdrv/wsk_cpp.cpp and
    drivers/ude/network.cpp, the OP_REQ_IMPORT / OP_REP_IMPORT structures of
    include/usbip/proto_op.h with userspace/libusbip/src/proto_op.cpp and op_common.h,
    and the import exchange of drivers/ude/vhci_ioctl.cpp.  The kernel's network, its
    memory allocator and MDL preparation are an interface, [Net]; the UTF-8
    conversion of the bus id is a parameter. *)

From S2P Require Import Prelude Proto.

(** ** The kernel's services *)

Class Net (N : Type) : Type := {
  (** Mdl::prepare_nonpaged / prepare_paged of a buffer of this length *)
  net_mdl : N -> Z -> ntstatus;
  (** WskSend: its status and IoStatus.Information *)
  net_send : N -> list byte -> ntstatus * Z * N;
  (** WskReceive with WSK_FLAG_WAITALL: its status and the bytes it stored *)
  net_receive : N -> Z -> ntstatus * list byte * N;
  (** ExAllocatePoolZero *)
  net_alloc : N -> Z -> bool * N }.

Definition STATUS_PARTIAL_COPY : ntstatus := NT_OS 0x8000000D.

Section session.
Context {N : Type} `{Net N}.

(** wsk::send and wsk::receive of one buffer. *)
Definition wsk_send (n : N) (data : list byte) : ntstatus * N :=
  let '(st, sent, n) := net_send n data in
  (if NT_SUCCESS st && negb (sent =? Z.of_nat (length data)) then STATUS_PARTIAL_COPY else st, n).

Definition wsk_receive (n : N) (len : Z) : ntstatus * list byte * N :=
  let '(st, data, n) := net_receive n len in
  (if NT_SUCCESS st && negb (Z.of_nat (length data) =? len) then STATUS_RECEIVE_PARTIAL else st, data, n).

(** usbip::send and usbip::recv *)
Definition send (n : N) (data : list byte) : ntstatus * N :=
  match net_mdl n (Z.of_nat (length data)) with
  | STATUS_SUCCESS => wsk_send n data
  | err => (err, n)
  end.

Definition recv (n : N) (len : Z) : ntstatus * list byte * N :=
  match net_mdl n len with
  | STATUS_SUCCESS => wsk_receive n len
  | err => (err, [], n)
  end.

(** A successful receive stored every byte that was asked for. *)
Lemma recv_success n len data n' : 0 <= len ->
  recv n len = (STATUS_SUCCESS, data, n') -> Z.of_nat (length data) = len.
Proof.
  intros Hl. unfold recv. destruct (net_mdl n len); try discriminate.
  unfold wsk_receive. destruct (net_receive n len) as [[st d] n1].
  destruct (NT_SUCCESS st && _) eqn:E; intros Hs; simplify_eq. simpl in E. lia.
Qed.

(** The bytes that the kernel has received from the server, in their order, from one state of the network to another. *)
Inductive received : N -> list byte -> N -> Prop :=
| received_none n : received n [] n
| received_sent n data st sent n1 bs n' : net_send n data = (st, sent, n1) -> received n1 bs n' -> received n bs n'
| received_alloc n len b n1 bs n' : net_alloc n len = (b, n1) -> received n1 bs n' -> received n bs n'
| received_data n len st data n1 bs n' : net_receive n len = (st, data, n1) -> received n1 bs n' -> received n (data ++ bs) n'.

Lemma received_app n bs1 n1 bs2 n2 : received n bs1 n1 -> received n1 bs2 n2 -> received n (bs1 ++ bs2) n2.
Proof.
  induction 1 as [| | |n len st data n1 bs n' E Hr IH]; intros H2; [done|eapply received_sent; eauto|eapply received_alloc; eauto|].
  rewrite <- app_assoc. eapply received_data; eauto.
Qed.

Lemma send_received n data st n' : send n data = (st, n') -> received n [] n'.
Proof.
  unfold send, wsk_send. destruct (net_send n data) as [[st0 sent] n1] eqn:E.
  destruct (net_mdl n _); intros [= _ <-]; try apply received_none. eapply received_sent; [exact E|apply received_none].
Qed.

Lemma recv_received n len st data n' : recv n len = (st, data, n') -> received n data n'.
Proof.
  unfold recv, wsk_receive. destruct (net_receive n len) as [[st0 data0] n1] eqn:E.
  destruct (net_mdl n len); intros [= _ <- <-]; try apply received_none.
  rewrite <- (app_nil_r data0). eapply received_data; [exact E|apply received_none].
Qed.
End session.

(** ** proto_op.h *)

Definition USBIP_VERSION : Z := 0x111.
Definition BUS_ID_SIZE : nat := 32.
Definition DEV_PATH_MAX : nat := 256.
Definition OP_REQ_IMPORT : Z := 0x8003.
Definition OP_REP_IMPORT : Z := 0x0003.

Record op_common : Type := { version : Z; code : Z; status : Z }.

Record usbip_usb_device : Type := {
  path : list byte; udev_busid : list byte;
  busnum : Z; devnum : Z; udev_speed : Z;
  idVendor : Z; idProduct : Z; bcdDevice : Z;
  bDeviceClass : Z; bDeviceSubClass : Z; bDeviceProtocol : Z;
  bConfigurationValue : Z; bNumConfigurations : Z; bNumInterfaces : Z }.

Definition byteswap_op_common (c : op_common) : op_common :=
  {| version := bswap16 (version c); code := bswap16 (code c); status := bswap32 (status c) |}.

Definition byteswap_usb_device (d : usbip_usb_device) : usbip_usb_device :=
  {| path := path d; udev_busid := udev_busid d;
     busnum := bswap32 (busnum d); devnum := bswap32 (devnum d); udev_speed := bswap32 (udev_speed d);
     idVendor := bswap16 (idVendor d); idProduct := bswap16 (idProduct d); bcdDevice := bswap16 (bcdDevice d);
     bDeviceClass := bDeviceClass d; bDeviceSubClass := bDeviceSubClass d; bDeviceProtocol := bDeviceProtocol d;
     bConfigurationValue := bConfigurationValue d; bNumConfigurations := bNumConfigurations d;
     bNumInterfaces := bNumInterfaces d |}.

(** Memory images (the structures are packed). *)
Definition sizeof_op_common : Z := 8.
Definition sizeof_usb_device : Z := 312.

Definition op_common_bytes (c : op_common) : list byte :=
  le_bytes 2 (version c) ++ le_bytes 2 (code c) ++ le_bytes 4 (status c).

Definition uint (off len : nat) (bs : list byte) : Z := le_val (take len (drop off bs)).

Definition op_common_of_bytes (bs : list byte) : op_common :=
  {| version := uint 0 2 bs; code := uint 2 2 bs; status := uint 4 4 bs |}.

Definition usb_device_bytes (d : usbip_usb_device) : list byte :=
  path d ++ udev_busid d ++ le_bytes 4 (busnum d) ++ le_bytes 4 (devnum d) ++ le_bytes 4 (udev_speed d) ++
  le_bytes 2 (idVendor d) ++ le_bytes 2 (idProduct d) ++ le_bytes 2 (bcdDevice d) ++
  [z2b (bDeviceClass d); z2b (bDeviceSubClass d); z2b (bDeviceProtocol d);
   z2b (bConfigurationValue d); z2b (bNumConfigurations d); z2b (bNumInterfaces d)].

Definition usb_device_of_bytes (bs : list byte) : usbip_usb_device :=
  {| path := take 256 bs; udev_busid := take 32 (drop 256 bs);
     busnum := uint 288 4 bs; devnum := uint 292 4 bs; udev_speed := uint 296 4 bs;
     idVendor := uint 300 2 bs; idProduct := uint 302 2 bs; bcdDevice := uint 304 2 bs;
     bDeviceClass := uint 306 1 bs; bDeviceSubClass := uint 307 1 bs; bDeviceProtocol := uint 308 1 bs;
     bConfigurationValue := uint 309 1 bs; bNumConfigurations := uint 310 1 bs; bNumInterfaces := uint 311 1 bs |}.

(** op_status_error *)
Definition op_status_error (st : Z) : ntstatus :=
  if st =? 0 then STATUS_SUCCESS else if st =? 1 then USBIP_ERROR_ST_NA
  else if st =? 2 then USBIP_ERROR_ST_DEV_BUSY else if st =? 3 then USBIP_ERROR_ST_DEV_ERR
  else if st =? 4 then USBIP_ERROR_ST_NODEV else USBIP_ERROR_ST_ERROR.

Section import.
Context {N : Type} `{Net N}.

(** libdrv::unicode_to_utf8: the status and the characters it wrote (at most [maxlen]). *)
Context (unicode_to_utf8 : nat -> list Z -> ntstatus * list byte).

Definition recv_op_common (n : N) (expected_code : Z) : ntstatus * N :=
  let '(err, data, n) := recv n sizeof_op_common in
  match err with
  | STATUS_SUCCESS =>
      let r := byteswap_op_common (op_common_of_bytes data) in
      if negb (version r =? USBIP_VERSION) then (USBIP_ERROR_VERSION, n)
      else if negb (code r =? expected_code) then (USBIP_ERROR_PROTOCOL, n)
      else (op_status_error (s32 (status r)), n)
  | err => (err, n)
  end.

(** char busid[BUS_ID_SIZE], zero-initialised and then written by the conversion. *)
Definition busid_buffer (chars : list byte) : list byte :=
  take BUS_ID_SIZE (chars ++ replicate BUS_ID_SIZE x00).

Definition send_req_import (n : N) (busid : list Z) : ntstatus * N :=
  let '(err, chars) := unicode_to_utf8 BUS_ID_SIZE busid in
  match err with
  | STATUS_SUCCESS =>
      let hdr := byteswap_op_common {| version := USBIP_VERSION; code := OP_REQ_IMPORT; status := 0 |} in
      send n (op_common_bytes hdr ++ busid_buffer chars)
  | err => (err, n)
  end.

(** strncmp(a, b, n) == 0 *)
Fixpoint strn_equal (n : nat) (a b : list byte) : bool :=
  match n, a, b with
  | S n, x :: a, y :: b =>
      if bool_decide (x = y) then (if bool_decide (x = x00) then true else strn_equal n a b) else false
  | _, _, _ => true
  end.

Definition recv_rep_import (n : N) (busid : list Z) : res usbip_usb_device * N :=
  let '(err, n) := recv_op_common n OP_REP_IMPORT in
  match err with
  | STATUS_SUCCESS =>
      let '(err, data, n) := recv n sizeof_usb_device in
      match err with
      | STATUS_SUCCESS =>
          let reply := byteswap_usb_device (usb_device_of_bytes data) in
          let '(err, chars) := unicode_to_utf8 BUS_ID_SIZE busid in
          match err with
          | STATUS_SUCCESS =>
              if negb (strn_equal BUS_ID_SIZE (udev_busid reply) (busid_buffer chars))
              then (Err USBIP_ERROR_PROTOCOL, n)
              else (Ok reply, n)
          | err => (Err err, n)
          end
      | err => (Err err, n)
      end
  | err => (Err err, n)
  end.
End import.

(** make_devid *)
Definition make_devid (busnum devnum : Z) : Z := u32 (Z.lor (Z.shiftl (u16 busnum) 16) (u16 devnum)).

(** ** Lemmas: structure images *)

Lemma uint_skip (p q : list byte) off len : (length p <= off)%nat ->
  uint off len (p ++ q) = uint (off - length p) len q.
Proof. intros Hp. unfold uint. by rewrite drop_app_ge. Qed.

Lemma uint_le_bytes len z q : 0 <= z < 256 ^ Z.of_nat len -> uint 0 len (le_bytes len z ++ q) = z.
Proof.
  intros Hz. unfold uint. rewrite drop_0, take_app_length' by (by rewrite length_le_bytes).
  rewrite le_val_le_bytes. by apply Z.mod_small.
Qed.

Lemma uint_range off len bs : 0 <= uint off len bs < 256 ^ Z.of_nat len.
Proof.
  unfold uint. pose proof (le_val_range (take len (drop off bs))) as Hr.
  assert (256 ^ Z.of_nat (length (take len (drop off bs))) <= 256 ^ Z.of_nat len)
    by (apply Z.pow_le_mono_r; [lia|rewrite length_take; lia]). lia.
Qed.

Lemma uint_image off len bs : (off + len <= length bs)%nat -> le_bytes len (uint off len bs) = take len (drop off bs).
Proof.
  intros Hl. unfold uint. rewrite <- (le_bytes_le_val (take len (drop off bs))) at 2. f_equal.
  rewrite length_take, length_drop. lia.
Qed.

(** Field widths of a usbip_usb_device. *)
Definition usb_device_ok (d : usbip_usb_device) : Prop :=
  length (path d) = DEV_PATH_MAX /\ length (udev_busid d) = BUS_ID_SIZE /\
  Forall is_u32 [busnum d; devnum d; udev_speed d] /\
  Forall is_u16 [idVendor d; idProduct d; bcdDevice d] /\
  Forall is_u8 [bDeviceClass d; bDeviceSubClass d; bDeviceProtocol d;
                bConfigurationValue d; bNumConfigurations d; bNumInterfaces d].

Lemma byteswap_usb_device_ok d : usb_device_ok d -> usb_device_ok (byteswap_usb_device d).
Proof.
  intros (Hp & Hb & H32 & H16 & H8). do 2 (split; [done|]). split; [|split; [|done]];
    rewrite !List.Forall_cons_iff; cbn [byteswap_usb_device busnum devnum udev_speed idVendor idProduct bcdDevice];
    split_and!; auto using List.Forall_nil with ranges.
Qed.

Lemma byteswap_usb_device_involutive d : usb_device_ok d -> byteswap_usb_device (byteswap_usb_device d) = d.
Proof.
  intros (_ & _ & H32 & H16 & _). rewrite !List.Forall_cons_iff in H32. rewrite !List.Forall_cons_iff in H16. destruct d.
  unfold byteswap_usb_device. cbn in *.
  rewrite !bswap32_involutive, !bswap16_involutive by tauto. done.
Qed.

Lemma length_usb_device_bytes d : usb_device_ok d -> length (usb_device_bytes d) = 312%nat.
Proof.
  intros (Hp & Hb & _). unfold usb_device_bytes. rewrite !length_app, !length_le_bytes, Hp, Hb. done.
Qed.

Lemma usb_device_of_usb_device_bytes d : usb_device_ok d -> usb_device_of_bytes (usb_device_bytes d) = d.
Proof.
  intros (Hp & Hb & H32 & H16 & H8). rewrite !List.Forall_cons_iff in H32. rewrite !List.Forall_cons_iff in H16. rewrite !List.Forall_cons_iff in H8.
  unfold usb_device_of_bytes, usb_device_bytes.
  unfold DEV_PATH_MAX in Hp. unfold BUS_ID_SIZE in Hb. unfold is_u32 in H32. unfold is_u16 in H16. unfold is_u8 in H8.
  destruct d. cbn [path udev_busid busnum devnum udev_speed idVendor idProduct bcdDevice bDeviceClass
    bDeviceSubClass bDeviceProtocol bConfigurationValue bNumConfigurations bNumInterfaces] in *.
  f_equal; [by rewrite take_app_length' by done
           |rewrite drop_app_length' by done; by rewrite take_app_length' by done|..];
    repeat (rewrite uint_skip by (rewrite ?length_le_bytes; lia)); rewrite ?Hp, ?Hb, ?length_le_bytes;
    cbn [Nat.sub]; try (apply uint_le_bytes; simpl; lia);
    unfold uint; cbn [drop take le_val]; rewrite ?b2z_z2b; uints;
    destruct H8 as (? & ? & ? & ? & ? & ? & _); rewrite Z.mod_small; lia.
Qed.

Lemma le_bytes_mod n z : le_bytes n (z mod 256 ^ Z.of_nat n) = le_bytes n z.
Proof.
  rewrite <- (le_val_le_bytes n z). rewrite <- (length_le_bytes n z) at 1. apply le_bytes_le_val.
Qed.

(** The common header of a message, as it is on the wire. *)
Definition wire_op_common (version code status : Z) : list byte :=
  be_bytes 2 version ++ be_bytes 2 code ++ be_bytes 4 status.

Lemma byteswap_op_common_wire c :
  op_common_bytes (byteswap_op_common c) = wire_op_common (version c) (code c) (status c).
Proof. unfold op_common_bytes, byteswap_op_common, wire_op_common. cbn [version code status]. by autorewrite with bytes. Qed.

Lemma op_common_of_wire data c : length data = 8%nat -> byteswap_op_common (op_common_of_bytes data) = c ->
  data = wire_op_common (version c) (code c) (status c).
Proof.
  intros Hl <-. rewrite <- byteswap_op_common_wire. unfold byteswap_op_common, op_common_of_bytes, op_common_bytes.
  cbn [version code status].
  rewrite !bswap16_involutive by exact (uint_range _ 2 data).
  rewrite bswap32_involutive by exact (uint_range _ 4 data).
  rewrite !uint_image by lia. rewrite drop_0.
  transitivity (take 8 data); [by rewrite take_ge by lia|].
  transitivity (take (2 + (2 + 4)) data); [done|].
  by rewrite <- (take_take_drop data 2), <- (take_take_drop (drop 2 data) 2), drop_drop.
Qed.

Lemma be_bytes_inj n a b : 0 <= a < 256 ^ Z.of_nat n -> 0 <= b < 256 ^ Z.of_nat n ->
  be_bytes n a = be_bytes n b -> a = b.
Proof.
  intros Ha Hb He. apply (f_equal be_val) in He. rewrite !be_val_be_bytes in He.
  by rewrite !Z.mod_small in He by done.
Qed.

(** strncmp equal to zero: the same characters up to a NUL or the end of the arrays. *)
Definition same_string (a b : list byte) : Prop :=
  exists k, take k a = take k b /\ (a !! k = Some x00 /\ b !! k = Some x00 \/ k = length a \/ k = length b).

Lemma strn_equal_same n a b : (length a <= n)%nat -> strn_equal n a b = true -> same_string a b.
Proof.
  revert a b. induction n as [|n IH]; intros a b Hl He.
  - destruct a; [|simpl in Hl; lia]. exists 0%nat. simpl. auto.
  - destruct a as [|x a]; [exists 0%nat; simpl; auto|]. destruct b as [|y b]; [exists 0%nat; simpl; auto|].
    simpl in He. case_bool_decide as Hxy; [|done]. subst y. case_bool_decide as Hx.
    + exists 0%nat. subst. simpl. auto.
    + destruct (IH a b) as (k & Hk & Hend); [simpl in Hl; lia|done|].
      exists (S k). simpl. rewrite Hk. split; [done|]. destruct Hend as [[? ?]|[->| ->]]; auto.
Qed.

Lemma usb_device_of_bytes_ok bs : length bs = 312%nat -> usb_device_ok (usb_device_of_bytes bs).
Proof.
  intros Hl. split; [cbn [path usb_device_of_bytes]; rewrite length_take; unfold DEV_PATH_MAX; lia|].
  split; [cbn [udev_busid usb_device_of_bytes]; rewrite length_take, length_drop; unfold BUS_ID_SIZE; lia|].
  split_and!; rewrite !List.Forall_cons_iff; split_and!; auto using List.Forall_nil;
    first [apply (uint_range _ 4)|apply (uint_range _ 2)|apply (uint_range _ 1)].
Qed.

Lemma usb_device_bytes_of_bytes bs : length bs = 312%nat -> usb_device_bytes (usb_device_of_bytes bs) = bs.
Proof.
  intros Hl. unfold usb_device_bytes, usb_device_of_bytes.
  cbn [path udev_busid busnum devnum udev_speed idVendor idProduct bcdDevice bDeviceClass
    bDeviceSubClass bDeviceProtocol bConfigurationValue bNumConfigurations bNumInterfaces].
  assert (forall off, (off < length bs)%nat -> [z2b (uint off 1 bs)] = take 1 (drop off bs)) as H1.
  { intros off Ho. rewrite <- uint_image by lia. done. }
  change ([z2b (uint 306 1 bs); z2b (uint 307 1 bs); z2b (uint 308 1 bs); z2b (uint 309 1 bs);
           z2b (uint 310 1 bs); z2b (uint 311 1 bs)])
    with ([z2b (uint 306 1 bs)] ++ [z2b (uint 307 1 bs)] ++ [z2b (uint 308 1 bs)] ++ [z2b (uint 309 1 bs)] ++
          [z2b (uint 310 1 bs)] ++ [z2b (uint 311 1 bs)]).
  rewrite !H1, !uint_image by lia.
  transitivity (take (256 + (32 + (4 + (4 + (4 + (2 + (2 + (2 + (1 + (1 + (1 + (1 + (1 + 1))))))))))))) bs);
    [|by rewrite take_ge by (rewrite Hl; done)].
  rewrite <- !take_take_drop, !drop_drop. reflexivity.
Qed.

Lemma op_status_error_ok st : op_status_error st = STATUS_SUCCESS <-> st = 0.
Proof. unfold op_status_error. split; [repeat case_match; intros; try discriminate; lia|by intros ->]. Qed.

Lemma op_common_wire expected : 0 <= expected < 2 ^ 16 ->
  byteswap_op_common (op_common_of_bytes (wire_op_common USBIP_VERSION expected 0)) =
  {| version := USBIP_VERSION; code := expected; status := 0 |}.
Proof.
  intros He. pose proof (byteswap_op_common_wire {| version := USBIP_VERSION; code := expected; status := 0 |}) as Hw.
  cbn [version code status] in Hw. rewrite <- Hw.
  unfold op_common_of_bytes, op_common_bytes, byteswap_op_common. cbn [version code status].
  rewrite <- (app_nil_r (le_bytes 4 _)).
  f_equal; repeat (rewrite uint_skip by (rewrite ?length_le_bytes; lia)); rewrite ?length_le_bytes; cbn [Nat.sub];
    rewrite uint_le_bytes by (exact (bswap16_range _) || exact (bswap32_range _)).
  by apply bswap16_involutive.
Qed.

Section reply.
Context {N : Type} `{Net N} (unicode_to_utf8 : nat -> list Z -> ntstatus * list byte).

Lemma recv_op_common_success (n n' : N) expected : 0 <= expected < 2 ^ 16 ->
  recv_op_common n expected = (STATUS_SUCCESS, n') <->
  recv n sizeof_op_common = (STATUS_SUCCESS, wire_op_common USBIP_VERSION expected 0, n').
Proof.
  intros He. unfold recv_op_common. split.
  - destruct (recv n sizeof_op_common) as [[st data] n1] eqn:Er.
    destruct st; try (intros; congruence).
    apply recv_success in Er as Hl; [|done]. unfold sizeof_op_common in Hl.
    set (r := byteswap_op_common (op_common_of_bytes data)) in *.
    assert (data = wire_op_common (version r) (code r) (status r)) as Hw by (apply op_common_of_wire; [lia|done]).
    destruct (Z.eqb_spec (version r) USBIP_VERSION) as [Hv|]; [|intros; simplify_eq].
    destruct (Z.eqb_spec (code r) expected) as [Hc|]; [|intros; simplify_eq]. cbn [negb].
    intros Hs. injection Hs as Hs <-. apply op_status_error_ok in Hs. change (s32 (status r) = 0) in Hs.
    assert (status r = 0) as H0.
    { rewrite <- (s32_nonneg (status r)); [done|apply bswap32_range|by rewrite Hs]. }
    by rewrite Hw, Hv, Hc, H0.
  - intros ->.
    pose proof (op_common_wire expected He) as Hb.
    rewrite Hb. cbn [version code status].
    rewrite !Z.eqb_refl. done.
Qed.

Lemma recv_rep_import_ok (n n' : N) busid d :
  recv_rep_import unicode_to_utf8 n busid = (Ok d, n') -> usb_device_ok d.
Proof.
  unfold recv_rep_import. destruct (recv_op_common n OP_REP_IMPORT) as [err n1].
  destruct err; try (intros; congruence). destruct (recv n1 sizeof_usb_device) as [[err data] n2] eqn:E2.
  destruct err; try (intros; congruence). apply recv_success in E2 as Hl; [|done]. unfold sizeof_usb_device in Hl.
  destruct (unicode_to_utf8 BUS_ID_SIZE busid) as [err chars]. destruct err; try (intros; congruence).
  destruct (strn_equal _ _ _); intros Hd; [|simpl in Hd; congruence]. injection Hd as <- _.
  apply byteswap_usb_device_ok, usb_device_of_bytes_ok. lia.
Qed.

(** An error is never reported as success. *)
Lemma recv_rep_import_error (n n' : N) busid e : recv_rep_import unicode_to_utf8 n busid = (Err e, n') -> e <> STATUS_SUCCESS.
Proof.
  unfold recv_rep_import. destruct (recv_op_common n OP_REP_IMPORT) as [err n1].
  destruct err; try (intros; congruence). destruct (recv n1 sizeof_usb_device) as [[err data] n2].
  destruct err; try (intros; congruence). destruct (unicode_to_utf8 BUS_ID_SIZE busid) as [err chars].
  destruct err; try (intros; congruence). destruct (strn_equal _ _ _); simpl; intros; congruence.
Qed.
End reply.

(** ** A scripted peer, for examples: what it will send, what it was sent, and
    whether the kernel's pool has memory *)
Record peer : Type := { incoming : list byte; sent : list byte; memory_left : bool }.

#[global] Instance peer_net : Net peer := {
  net_mdl _ _ := STATUS_SUCCESS;
  net_send p data :=
    (STATUS_SUCCESS, Z.of_nat (length data),
     {| incoming := incoming p; sent := sent p ++ data; memory_left := memory_left p |});
  net_receive p len :=
    let n := Z.to_nat len in
    if decide (n <= length (incoming p))%nat then
      (STATUS_SUCCESS, take n (incoming p),
       {| incoming := drop n (incoming p); sent := sent p; memory_left := memory_left p |})
    else (STATUS_CONNECTION_DISCONNECTED, [], p);
  net_alloc p _ := (memory_left p, p) }.

Definition peer_of (bs : list byte) : peer := {| incoming := bs; sent := []; memory_left := true |}.

(** What was received from the peer is what it was going to send. *)
Lemma peer_received (p p' : peer) bs : received p bs p' -> incoming p = bs ++ incoming p'.
Proof.
  induction 1 as [|n data st sent n1 bs n' E _ IH|n len b n1 bs n' E _ IH|n len st data n1 bs n' E _ IH]; [done| | |]; cbn in E.
  - injection E as _ _ <-. exact IH.
  - injection E as _ <-. exact IH.
  - destruct (decide _); injection E as _ <- <-; [|exact IH]. cbn in IH. by rewrite <- app_assoc, <- IH, take_drop.
Qed.

(** ASCII bus ids convert to themselves. *)
Definition ascii_to_utf8 (maxlen : nat) (s : list Z) : ntstatus * list byte :=
  if decide (length s <= maxlen)%nat then (STATUS_SUCCESS, map z2b s)
  else (NT_OS 0x80000005, take maxlen (map z2b s)).

Definition busid_1_1 : list Z := [49; 45; 49].

(** A mass-storage stick as a server describes it. *)
Definition stick : usbip_usb_device :=
  {| path := replicate 256 x00; udev_busid := busid_buffer (map z2b busid_1_1);
     busnum := 1; devnum := 2; udev_speed := 3; idVendor := 0x0781; idProduct := 0x5567; bcdDevice := 0x100;
     bDeviceClass := 0; bDeviceSubClass := 0; bDeviceProtocol := 0;
     bConfigurationValue := 1; bNumConfigurations := 1; bNumInterfaces := 1 |}.

Definition import_reply (d : usbip_usb_device) : list byte :=
  wire_op_common USBIP_VERSION OP_REP_IMPORT 0 ++ usb_device_bytes (byteswap_usb_device d).

(** ** Properties *)

(** The import reply is accepted exactly when the server sent, in network order,
    the protocol version, OP_REP_IMPORT and status zero, then the 312 bytes of a device
    record whose bus id equals the requested one as a C string; the accepted record is
    the one those bytes encode, with every field in its range. *)
Theorem import_reply_accepted {N} `{Net N} conv (n n' : N) busid d :
  recv_rep_import conv n busid = (Ok d, n') <->
  usb_device_ok d /\
  exists n1 chars,
    recv n sizeof_op_common = (STATUS_SUCCESS, wire_op_common USBIP_VERSION OP_REP_IMPORT 0, n1) /\
    recv n1 sizeof_usb_device = (STATUS_SUCCESS, usb_device_bytes (byteswap_usb_device d), n') /\
    conv BUS_ID_SIZE busid = (STATUS_SUCCESS, chars) /\
    strn_equal BUS_ID_SIZE (udev_busid d) (busid_buffer chars) = true.
Proof.
  unfold recv_rep_import. split.
  - destruct (recv_op_common n OP_REP_IMPORT) as [err n1] eqn:E1. destruct err; try (intros; congruence).
    apply recv_op_common_success in E1; [|unfold OP_REP_IMPORT; lia].
    destruct (recv n1 sizeof_usb_device) as [[err data] n2] eqn:E2. destruct err; try (intros; congruence).
    apply recv_success in E2 as Hl; [|done]. unfold sizeof_usb_device in Hl.
    destruct (conv BUS_ID_SIZE busid) as [err chars] eqn:E3. destruct err; try (intros; congruence).
    destruct (strn_equal _ _ _) eqn:E4; cbn [negb]; intros Hd; [|congruence].
    injection Hd as <- <-. assert (usb_device_ok (usb_device_of_bytes data)) as Hok
      by (apply usb_device_of_bytes_ok; lia).
    split; [by apply byteswap_usb_device_ok|]. exists n1, chars.
    rewrite byteswap_usb_device_involutive, usb_device_bytes_of_bytes by (done || lia). done.
  - intros (Hok & n1 & chars & E1 & E2 & E3 & E4).
    apply recv_op_common_success in E1; [|unfold OP_REP_IMPORT; lia]. rewrite E1, E2, E3.
    rewrite usb_device_of_usb_device_bytes by by apply byteswap_usb_device_ok.
    rewrite byteswap_usb_device_involutive by done. by rewrite E4.
Qed.

Lemma import_reply_accepted_witness :
  recv_rep_import ascii_to_utf8 (peer_of (import_reply stick ++ [x07])) busid_1_1 = (Ok stick, peer_of [x07]).
Proof.
  apply import_reply_accepted. split.
  - split; [reflexivity|]. split; [reflexivity|].
    split_and!; rewrite !List.Forall_cons_iff; split_and!; auto using List.Forall_nil; unfold is_u32, is_u16, is_u8; simpl; lia.
  - eexists _, _. split; [vm_compute; reflexivity|]. split; [vm_compute; reflexivity|].
    split; [reflexivity|]. vm_compute. reflexivity.
Defined.

(** What a reply that was accepted consists of: the header and the 312 bytes of the record. *)
Lemma import_reply_bytes {N} `{Net N} conv (n n' : N) busid d : recv_rep_import conv n busid = (Ok d, n') ->
  exists reply, length reply = 312%nat /\ d = byteswap_usb_device (usb_device_of_bytes reply) /\
    received n (wire_op_common USBIP_VERSION OP_REP_IMPORT 0 ++ reply) n'.
Proof.
  unfold recv_rep_import. destruct (recv_op_common n OP_REP_IMPORT) as [err n1] eqn:E1. destruct err; try (intros; congruence).
  apply recv_op_common_success in E1; [|unfold OP_REP_IMPORT; lia].
  destruct (recv n1 sizeof_usb_device) as [[err data] n2] eqn:E2. destruct err; try (intros; congruence).
  apply recv_success in E2 as Hl; [|done]. unfold sizeof_usb_device in Hl.
  destruct (conv BUS_ID_SIZE busid) as [err chars]. destruct err; try (intros; congruence).
  destruct (strn_equal _ _ _); cbn [negb]; intros Hd; [|congruence]. injection Hd as <- <-.
  exists data. split; [lia|]. split; [done|]. eapply received_app; eapply recv_received; eassumption.
Qed.

Lemma send_req_import_received {N} `{Net N} conv (n n' : N) busid st : send_req_import conv n busid = (st, n') -> received n [] n'.
Proof.
  unfold send_req_import. destruct (conv BUS_ID_SIZE busid) as [err chars].
  destruct err; first [apply send_received|intros [= _ <-]; apply received_none].
Qed.

(** The import request is 40 bytes: version, OP_REQ_IMPORT and status zero in network
    order, then the converted bus id padded with NULs; a conversion or send error is
    returned and nothing else is sent. *)
Theorem import_request_wire {N} `{Net N} conv (n : N) busid :
  (forall chars, conv BUS_ID_SIZE busid = (STATUS_SUCCESS, chars) ->
     send_req_import conv n busid =
       send n (wire_op_common USBIP_VERSION OP_REQ_IMPORT 0 ++ busid_buffer chars) /\
     length (wire_op_common USBIP_VERSION OP_REQ_IMPORT 0 ++ busid_buffer chars) = 40%nat /\
     take (length chars) (busid_buffer chars) = take BUS_ID_SIZE chars) /\
  (forall err chars, conv BUS_ID_SIZE busid = (err, chars) -> err <> STATUS_SUCCESS ->
     send_req_import conv n busid = (err, n)).
Proof.
  split.
  - intros chars Hc. unfold send_req_import. rewrite Hc, byteswap_op_common_wire. cbn [version code status].
    split; [done|]. unfold busid_buffer, BUS_ID_SIZE. split.
    + rewrite length_app, length_take, length_app, length_replicate.
      change (length (wire_op_common _ _ _)) with 8%nat. lia.
    + rewrite take_take. destruct (decide (length chars <= 32)%nat) as [Hl|Hl].
      * rewrite Nat.min_l by lia. rewrite take_app_length. by rewrite take_ge by lia.
      * rewrite Nat.min_r by lia. by rewrite take_app_le by lia.
  - intros err chars Hc Hne. unfold send_req_import. rewrite Hc. by destruct err.
Qed.

Lemma import_request_wire_witness :
  send_req_import ascii_to_utf8 (peer_of []) busid_1_1 =
  send (peer_of []) (map z2b [1; 17; 128; 3; 0; 0; 0; 0; 49; 45; 49] ++ replicate 29 x00).
Proof.
  destruct (import_request_wire ascii_to_utf8 (peer_of []) busid_1_1) as [H _].
  destruct (H (map z2b busid_1_1) eq_refl) as [-> _]. reflexivity.
Defined.
