(* ===== verification/Wsk.v ===== *)
(** * Sockets of the kernel

    struct SOCKET of drivers/libdrv/wsk_cpp.cpp and what goes on on it.  A socket may only be
    closed when none of its functions runs, and afterwards none may be called: [invoke] counts
    the calls in one 64-bit word whose high bits say that the socket is being closed and that
    the event for it was set; [wait_invokers] waits for the event.  The atomic operations on
    that word are the steps of [step], which any number of activations take in any order.  The
    second half has the calls themselves, [transfer], [control] and the socket options, and
    the allocation of a socket. *)

From S2P Require Import Prelude Proto Session.

(** ** The word that counts the calls *)

Definition EVENT_SET_OFFSET : Z := 62.
Definition CLOSING : Z := Z.shiftl 1 61.

(** invoke: the increment, and whether the call is refused; the decrement, and whether the
    count became zero while the socket is being closed and the event is not set. *)
Definition enter (cnt : Z) : bool * Z := let n := u64 (cnt + 1) in (negb (Z.land n CLOSING =? 0), n).
Definition leave (cnt : Z) : bool * Z := let n := u64 (cnt - 1) in (n =? CLOSING, n).

(** InterlockedBitTestAndSet64(&invoke_cnt, EVENT_SET_OFFSET) *)
Definition set_event_bit (cnt : Z) : bool * Z := (Z.testbit cnt EVENT_SET_OFFSET, Z.setbit cnt EVENT_SET_OFFSET).

(** ** Activations *)

(** Where an activation of invoke or close is. *)
Inductive pc : Type :=
| Idle               (* in neither *)
| InCall             (* in the function of the socket *)
| Refused            (* will return STATUS_NOT_SUPPORTED *)
| Testing            (* its decrement gave CLOSING; before the test of EVENT_SET *)
| Signalling         (* the bit was clear; before KeSetEvent *)
| Waiting            (* in KeWaitForSingleObject *)
| Marking            (* no calls: before setting EVENT_SET *)
| ClosingSocket.     (* in WskCloseSocket *)

#[global] Instance pc_eq_dec : EqDecision pc.
Proof. solve_decision. Defined.

Record socket : Type := { invoke_cnt : Z; can_close : bool; threads : list pc }.

Inductive action : Type := Enter | Leave | Test | Signal | Close | Mark | Wake | TimeOut | Finish.

(** What happens to the socket: its functions are called and return, WskCloseSocket is
    called; a call or a close is refused. *)
Inductive call : Type :=
| Called (t : nat) | Returned (t : nat) | NotSupported (t : nat)
| CloseSocket (t : nat) | Closed (t : nat) | CloseRefused (t : nat).

Definition goto (s : socket) (t : nat) (p : pc) (cnt : Z) : socket :=
  {| invoke_cnt := cnt; can_close := can_close s; threads := <[t := p]> (threads s) |}.

(** The steps of invoke. *)
Definition invoke_step (s : socket) (t : nat) (p : pc) (a : action) : option (socket * list call) :=
  match p, a with
  | Idle, Enter =>
      let '(refused, n) := enter (invoke_cnt s) in
      Some (goto s t (if refused then Refused else InCall) n, if refused then [] else [Called t])
  | InCall, Leave => let '(last, n) := leave (invoke_cnt s) in Some (goto s t (if last then Testing else Idle) n, [Returned t])
  | Refused, Leave => let '(last, n) := leave (invoke_cnt s) in Some (goto s t (if last then Testing else Idle) n, [NotSupported t])
  | Testing, Test => let '(was_set, n) := set_event_bit (invoke_cnt s) in Some (goto s t (if was_set then Idle else Signalling) n, [])
  | Signalling, Signal =>
      Some ({| invoke_cnt := invoke_cnt s; can_close := true; threads := <[t := Idle]> (threads s) |}, [])
  | _, _ => None
  end.

(** The steps of wait_invokers; the wait ends with the event or after 30 seconds. *)
Definition wait_invokers_step (s : socket) (t : nat) (p : pc) (a : action) : option (socket * list call) :=
  match p, a with
  | Idle, Close =>
      let n := invoke_cnt s in
      let cnt := Z.lor n CLOSING in
      if negb (Z.land n CLOSING =? 0) then Some (goto s t Idle cnt, [CloseRefused t])
      else if negb (n =? 0) then Some (goto s t Waiting cnt, [])
      else Some (goto s t Marking cnt, [])
  | Waiting, Wake => if can_close s then Some (goto s t ClosingSocket (invoke_cnt s), [CloseSocket t]) else None
  | Waiting, TimeOut => if can_close s then None else Some (goto s t ClosingSocket (invoke_cnt s), [CloseSocket t])
  | Marking, Mark => Some (goto s t ClosingSocket (snd (set_event_bit (invoke_cnt s))), [CloseSocket t])
  | _, _ => None
  end.

(** close: wait_invokers, WskCloseSocket. *)
Definition close_step (s : socket) (t : nat) (p : pc) (a : action) : option (socket * list call) :=
  match p, a with
  | ClosingSocket, Finish => Some (goto s t Idle (invoke_cnt s), [Closed t])
  | _, _ => wait_invokers_step s t p a
  end.

Definition step (s : socket) (ta : nat * action) : option (socket * list call) :=
  let '(t, a) := ta in
  p ← threads s !! t;
  match invoke_step s t p a with Some r => Some r | None => close_step s t p a end.

Fixpoint run (s : socket) (sched : list (nat * action)) : option (socket * list call) :=
  match sched with
  | [] => Some (s, [])
  | ta :: sched =>
      '(s, evs) ← step s ta;
      '(s, tr) ← run s sched;
      Some (s, evs ++ tr)
  end.

(** A new socket with [n] activations around it. *)
Definition new_socket (n : nat) : socket := {| invoke_cnt := 0; can_close := false; threads := replicate n Idle |}.


(** ** The calls *)

Inductive irp_name : Type := recv_irp | send_irp | misc_irp.

Inductive sock_option : Type :=
| SO_KEEPALIVE | TCP_KEEPIDLE | TCP_KEEPCNT | TCP_KEEPINTVL | SO_WSK_EVENT_CALLBACK.

(** The functions of the provider with the arguments that matter here; for WskControlSocket
    the bytes of the value to be set or the size of the value asked for, and whether an IRP is passed. *)
Inductive wsk_function : Type :=
| WskSend (data : list byte) (flags : Z)
| WskReceive (len flags : Z)
| WskBind (address : list byte) | WskConnect (address : list byte) | WskDisconnect (data : list byte) (flags : Z)
| WskGetLocalAddress | WskGetRemoteAddress
| WskSetOption (o : sock_option) (value : list byte) (use_irp : bool)
| WskGetOption (o : sock_option) (size : Z)
| WskCloseSocket.

(** The provider: what a call returns, the end of a wait for an IRP, and IoStatus.Information
    and the bytes written once it was completed. *)
Class Provider (N : Type) : Type := {
  provider_call : N -> wsk_function -> ntstatus * N;
  provider_wait : N -> irp_name -> ntstatus * N;
  information : N -> irp_name -> Z;
  output : N -> irp_name -> list byte }.

Section calls.
Context {N : Type} `{Provider N}.

(** irp_cls::wait_for_completion *)
Definition wait_for_completion (n : N) (irp : irp_name) (st : ntstatus) : ntstatus * N :=
  match st with STATUS_PENDING => provider_wait n irp | st => (st, n) end.

(** invoke by one activation, on a socket that is being closed or not. *)
Definition invoke (closing : bool) (n : N) (f : wsk_function) : ntstatus * N :=
  if closing then (STATUS_NOT_SUPPORTED, n) else provider_call n f.

Definition invoke_and_wait (closing : bool) (n : N) (irp : irp_name) (f : wsk_function) : ntstatus * N :=
  let '(st, n) := invoke closing n f in wait_for_completion n irp st.

Definition transfer (closing : bool) (n : N) (f : wsk_function) (send : bool) : ntstatus * Z * N :=
  let irp := if send then send_irp else recv_irp in
  let '(st, n) := invoke_and_wait closing n irp f in
  (st, if NT_SUCCESS st then information n irp else 0, n).

Definition send (closing : bool) (n : N) (data : list byte) (flags : Z) : ntstatus * N :=
  let '(st, sent, n) := transfer closing n (WskSend data flags) true in
  (if NT_SUCCESS st && negb (sent =? Z.of_nat (length data)) then STATUS_PARTIAL_COPY else st, n).

Definition WSK_FLAG_WAITALL : Z := 2.

(** receive; [actual] when the caller wants the number of bytes. *)
Definition receive (closing : bool) (n : N) (len flags : Z) (actual : bool) : ntstatus * Z * N :=
  let flags := if actual then flags else Z.lor flags WSK_FLAG_WAITALL in
  let '(st, received, n) := transfer closing n (WskReceive len flags) false in
  (if negb actual && NT_SUCCESS st && negb (received =? len) then STATUS_RECEIVE_PARTIAL else st, received, n).

(** control with an IRP: the status and IoStatus.Information. *)
Definition control_irp (closing : bool) (n : N) (f : wsk_function) : ntstatus * Z * N :=
  let '(st, n) := invoke_and_wait closing n misc_irp f in
  (st, if NT_SUCCESS st then information n misc_irp else 0, n).

Definition setsockopt (closing : bool) (n : N) (o : sock_option) (value : list byte) : ntstatus * N :=
  let '(st, _, n) := control_irp closing n (WskSetOption o value true) in (st, n).

(** getsockopt: a status that is not zero is returned as it is. *)
Definition getsockopt (closing : bool) (n : N) (o : sock_option) (size : Z) : ntstatus * list byte * N :=
  let '(st, actual, n) := control_irp closing n (WskGetOption o size) in
  (match st with STATUS_SUCCESS => if actual =? size then STATUS_SUCCESS else STATUS_INVALID_BUFFER_SIZE | st => st end, output n misc_irp, n).

Definition WSK_EVENT_DISABLE : Z := 0x80000000.

Definition event_callback_control (closing : bool) (n : N) (mask : Z) (wait4disable : bool) : ntstatus * N :=
  if wait4disable && (Z.land mask WSK_EVENT_DISABLE =? 0) then (STATUS_INVALID_PARAMETER, n)
  else
    let f := WskSetOption SO_WSK_EVENT_CALLBACK (le_bytes 4 mask) wait4disable in
    if wait4disable then let '(st, _, n) := control_irp closing n f in (st, n) else invoke closing n f.

Definition bind (closing : bool) (n : N) (address : list byte) : ntstatus * N := invoke_and_wait closing n misc_irp (WskBind address).

(** The caller waits for the completion of its own IRP. *)
Definition connect (closing : bool) (n : N) (address : list byte) : ntstatus * N := invoke closing n (WskConnect address).

Definition disconnect (closing : bool) (n : N) (data : list byte) (flags : Z) : ntstatus * N :=
  invoke_and_wait closing n misc_irp (WskDisconnect data flags).

Definition getlocaladdr (closing : bool) (n : N) : ntstatus * list byte * N :=
  let '(st, n) := invoke_and_wait closing n misc_irp WskGetLocalAddress in (st, output n misc_irp, n).

Definition getremoteaddr (closing : bool) (n : N) : ntstatus * list byte * N :=
  let '(st, n) := invoke_and_wait closing n misc_irp WskGetRemoteAddress in (st, output n misc_irp, n).

Definition get_keepalive (closing : bool) (n : N) : ntstatus * list byte * N := getsockopt closing n SO_KEEPALIVE 1.

(** The options in order until one is refused; those that are not positive are left alone. *)
Fixpoint set_options (closing : bool) (n : N) (opts : list (sock_option * list byte)) : ntstatus * N :=
  match opts with
  | [] => (STATUS_SUCCESS, n)
  | (o, v) :: opts =>
      let '(st, n) := setsockopt closing n o v in
      match st with STATUS_SUCCESS => set_options closing n opts | err => (err, n) end
  end.

Definition positive_option (o : sock_option) (v : Z) : list (sock_option * list byte) := if 0 <? v then [(o, le_bytes 4 v)] else [].

Definition set_keepalive (closing : bool) (n : N) (idle cnt intvl : Z) : ntstatus * N :=
  set_options closing n ((SO_KEEPALIVE, [x01]) :: positive_option TCP_KEEPIDLE idle ++ positive_option TCP_KEEPCNT cnt ++ positive_option TCP_KEEPINTVL intvl).

(** get_keepalive_opts of the options asked for, with the values read before an error. *)
Fixpoint get_keepalive_opts (closing : bool) (n : N) (opts : list sock_option) : ntstatus * list (list byte) * N :=
  match opts with
  | [] => (STATUS_SUCCESS, [], n)
  | o :: opts =>
      let '(st, v, n) := getsockopt closing n o 4 in
      match st with
      | STATUS_SUCCESS => let '(st, vs, n) := get_keepalive_opts closing n opts in (st, v :: vs, n)
      | err => (err, [], n)
      end
  end.

(** close after wait_invokers *)
Definition close_socket (n : N) : ntstatus * N := let '(st, n) := provider_call n WskCloseSocket in wait_for_completion n misc_irp st.
End calls.

(** ** Allocation *)

(** The memory of the sockets and the IRPs that are allocated. *)
Record ledger : Type := { pools : Z; irps : Z }.

(** recv_irp, send_irp and misc_irp of a socket: whether they hold an IRP. *)
Definition socket_irps : Type := (bool * bool * bool)%type.

(** IoFreeIrp of an irp_cls that has one; irp_cls::dtor *)
Definition free_irp (has : bool) (l : ledger) : ledger := if has then {| pools := pools l; irps := irps l - 1 |} else l.

(** wsk::free *)
Definition free_socket (s : socket_irps) (l : ledger) : ledger :=
  let '(r, snd_, m) := s in
  let l := free_irp m (free_irp snd_ (free_irp r l)) in
  {| pools := pools l - 1; irps := irps l |}.

(** alloc_socket; [pool_ok] and [irp_ok] say which allocations succeed. *)
Definition alloc_socket (pool_ok : bool) (irp_ok : irp_name -> bool) (l : ledger) : ntstatus * option socket_irps * ledger :=
  if negb pool_ok then (STATUS_INSUFFICIENT_RESOURCES, None, l)
  else
    let l := {| pools := pools l + 1; irps := irps l |} in
    let ctor l := {| pools := pools l; irps := irps l + 1 |} in
    if negb (irp_ok recv_irp) then (STATUS_INSUFFICIENT_RESOURCES, None, free_socket (false, false, false) l)
    else if negb (irp_ok send_irp) then (STATUS_INSUFFICIENT_RESOURCES, None, free_socket (true, false, false) (ctor l))
    else if negb (irp_ok misc_irp) then (STATUS_INSUFFICIENT_RESOURCES, None, free_socket (true, true, false) (ctor (ctor l)))
    else (STATUS_SUCCESS, Some (true, true, true), ctor (ctor (ctor l))).

(** wsk::socket: [created] is the status of WskSocket after the wait. *)
Definition wsk_socket (provider pool_ok : bool) (irp_ok : irp_name -> bool) (created : ntstatus) (l : ledger)
  : ntstatus * option socket_irps * ledger :=
  if negb provider then (STATUS_UNSUCCESSFUL, None, l)
  else
    match alloc_socket pool_ok irp_ok l with
    | (STATUS_SUCCESS, Some s, l) => if NT_SUCCESS created then (created, Some s, l) else (created, None, free_socket s l)
    | (err, _, l) => (err, None, l)
    end.

(** ** Lemmas: the word *)

(** The count with the two flags. *)
Definition word (c : Z) (closing event : bool) : Z := c + Z.b2z closing * 2 ^ 61 + Z.b2z event * 2 ^ 62.

Lemma land_pow2 a n : 0 <= n -> Z.land a (2 ^ n) = if Z.testbit a n then 2 ^ n else 0.
Proof.
  intros Hn. apply Z.bits_inj'. intros m Hm. rewrite Z.land_spec, Z.pow2_bits_eqb by lia.
  destruct (Z.eqb_spec n m) as [->|Hne].
  - rewrite andb_true_r. destruct (Z.testbit a m); [by rewrite Z.pow2_bits_true|by rewrite Z.bits_0].
  - rewrite andb_false_r. destruct (Z.testbit a n); [by rewrite Z.pow2_bits_false|by rewrite Z.bits_0].
Qed.

Lemma setbit_clear a n : 0 <= n -> Z.testbit a n = false -> Z.setbit a n = a + 2 ^ n.
Proof.
  intros Hn Ha. rewrite Z.setbit_spec', <- Z.add_nocarry_lor; [done|]. by rewrite land_pow2, Ha by lia.
Qed.

Lemma setbit_set a n : 0 <= n -> Z.testbit a n = true -> Z.setbit a n = a.
Proof.
  intros Hn Ha. apply Z.bits_inj'. intros m Hm. rewrite Z.setbit_eqb by lia.
  destruct (Z.eqb_spec n m) as [<-|]; [by rewrite Ha|done].
Qed.

Lemma word_bits c b e : 0 <= c < 2 ^ 61 -> Z.testbit (word c b e) 61 = b /\ Z.testbit (word c b e) 62 = e.
Proof.
  intros Hc. rewrite !Z.testbit_odd, !Z.shiftr_div_pow2 by lia. unfold word.
  assert ((c + Z.b2z b * 2 ^ 61 + Z.b2z e * 2 ^ 62) / 2 ^ 61 = Z.b2z b + 2 * Z.b2z e) as ->
    by (symmetry; apply (Z.div_unique _ _ _ c); destruct b, e; cbn [Z.b2z]; lia).
  assert ((c + Z.b2z b * 2 ^ 61 + Z.b2z e * 2 ^ 62) / 2 ^ 62 = Z.b2z e) as ->
    by (symmetry; apply (Z.div_unique _ _ _ (c + Z.b2z b * 2 ^ 61)); destruct b, e; cbn [Z.b2z]; lia).
  by destruct b, e.
Qed.

Lemma closing_word c b e : 0 <= c < 2 ^ 61 -> negb (Z.land (word c b e) CLOSING =? 0) = b.
Proof.
  intros Hc. change CLOSING with (2 ^ 61). rewrite land_pow2 by lia. destruct (word_bits c b e Hc) as [-> _]. by destruct b.
Qed.

Lemma enter_word c b e : 0 <= c -> c + 1 < 2 ^ 61 -> enter (word c b e) = (b, word (c + 1) b e).
Proof.
  intros Hc Hc1. unfold enter. assert (u64 (word c b e + 1) = word (c + 1) b e) as ->.
  { unfold word, u64. rewrite Z.mod_small; [lia|]. destruct b, e; cbn [Z.b2z]; lia. }
  by rewrite closing_word by lia.
Qed.

Lemma leave_word c b e : 0 < c < 2 ^ 61 -> leave (word c b e) = (b && negb e && (c =? 1), word (c - 1) b e).
Proof.
  intros Hc. unfold leave. assert (u64 (word c b e - 1) = word (c - 1) b e) as ->.
  { unfold word, u64. rewrite Z.mod_small; [lia|]. destruct b, e; cbn [Z.b2z]; lia. }
  f_equal. change CLOSING with (2 ^ 61). unfold word. destruct b, e; cbn [Z.b2z andb negb]; lia.
Qed.

Lemma set_event_word c b e : 0 <= c < 2 ^ 61 -> set_event_bit (word c b e) = (e, word c b true).
Proof.
  intros Hc. unfold set_event_bit. change EVENT_SET_OFFSET with 62. destruct (word_bits c b e Hc) as [_ He]. rewrite He. f_equal.
  destruct e; [by apply setbit_set|]. rewrite setbit_clear by done. unfold word. cbn [Z.b2z]. lia.
Qed.

Lemma or_closing_word c e : 0 <= c < 2 ^ 61 -> Z.lor (word c false e) CLOSING = word c true e.
Proof.
  intros Hc. change CLOSING with (2 ^ 61). rewrite <- Z.setbit_spec', setbit_clear by (try apply (word_bits c); lia).
  unfold word. cbn [Z.b2z]. lia.
Qed.

Lemma or_closed_word c e : 0 <= c < 2 ^ 61 -> Z.lor (word c true e) CLOSING = word c true e.
Proof. intros Hc. change CLOSING with (2 ^ 61). by rewrite <- Z.setbit_spec', setbit_set by (try apply (word_bits c); lia). Qed.

(** ** Lemmas: counting activations *)

Definition occ (p : pc) (l : list pc) : Z := Z.of_nat (length (filter (fun q => q = p) l)).

Lemma occ_nonneg p l : 0 <= occ p l.
Proof. unfold occ. lia. Qed.

Lemma occ_cons p q l : occ p (q :: l) = Z.b2z (bool_decide (q = p)) + occ p l.
Proof. unfold occ. rewrite filter_cons. case_decide; [rewrite bool_decide_true by done|rewrite bool_decide_false by done]; cbn [length Z.b2z]; lia. Qed.

Lemma occ_insert p q r l t : l !! t = Some q ->
  occ p (<[t := r]> l) = occ p l - Z.b2z (bool_decide (q = p)) + Z.b2z (bool_decide (r = p)).
Proof.
  revert t. induction l as [|x l IH]; intros [|t] Ht; simplify_eq/=.
  - rewrite !occ_cons. lia.
  - rewrite !occ_cons, (IH t) by done. lia.
Qed.

Lemma occ_pos p l t : l !! t = Some p -> 0 < occ p l.
Proof.
  revert t. induction l as [|x l IH]; intros [|t] Ht; simplify_eq/=; rewrite occ_cons; pose proof (occ_nonneg p l).
  - rewrite bool_decide_true by done. cbn [Z.b2z]. lia.
  - apply IH in Ht. destruct (bool_decide _); cbn [Z.b2z]; lia.
Qed.


Lemma occ_le_length l : occ InCall l + occ Refused l <= Z.of_nat (length l).
Proof.
  induction l as [|x l IH]; [done|]. rewrite !occ_cons. cbn [length].
  destruct x; cbn [bool_decide decide decide_rel pc_eq_dec]; repeat case_bool_decide; simplify_eq; cbn [Z.b2z]; lia.
Qed.

Lemma occ_replicate_idle p n : p <> Idle -> occ p (replicate n Idle) = 0.
Proof. intros Hp. induction n as [|n IH]; [done|]. cbn [replicate]. rewrite occ_cons, bool_decide_false by congruence. done. Qed.

(** ** The invariant *)

Definition calls_in (s : socket) : Z := occ InCall (threads s) + occ Refused (threads s).

(** [closing] and [event] are the flags of the word. *)
Record consistent (s : socket) (closing event : bool) : Prop := {
  c_word : invoke_cnt s = word (calls_in s) closing event;
  c_small : Z.of_nat (length (threads s)) < 2 ^ 61;
  c_open : closing = false -> event = false /\ can_close s = false /\ occ Refused (threads s) = 0 /\
           occ Testing (threads s) = 0 /\ occ Signalling (threads s) = 0 /\ occ Waiting (threads s) = 0 /\
           occ Marking (threads s) = 0 /\ occ ClosingSocket (threads s) = 0;
  c_one : occ Waiting (threads s) + occ Marking (threads s) + occ ClosingSocket (threads s) <= 1;
  c_event : occ InCall (threads s) = 0 \/ (event = false /\ occ Testing (threads s) = 0 /\ occ Marking (threads s) = 0);
  c_set : event = true \/ (occ Signalling (threads s) = 0 /\ occ ClosingSocket (threads s) = 0 /\ can_close s = false);
  c_wait : occ Waiting (threads s) = 0 \/
           (if event then can_close s = true \/ 0 < occ Signalling (threads s) else 0 < calls_in s \/ 0 < occ Testing (threads s)) }.

Definition no_timeout (ta : nat * action) : Prop := snd ta <> TimeOut.

Lemma consistent_new n : Z.of_nat n < 2 ^ 61 -> consistent (new_socket n) false false.
Proof.
  intros Hn. constructor; unfold new_socket, calls_in; cbn [threads invoke_cnt can_close];
    rewrite ?length_replicate, ?occ_replicate_idle by done; try done; lia.
Qed.

(** What a step or a run adds to the calls in progress. *)
Fixpoint calls_open (tr : list call) : Z :=
  match tr with
  | [] => 0
  | Called _ :: tr => calls_open tr + 1
  | Returned _ :: tr => calls_open tr - 1
  | _ :: tr => calls_open tr
  end.

(** Neither a call of a function of the socket nor of WskCloseSocket. *)
Definition quiet (x : call) : bool := match x with Called _ | CloseSocket _ => false | _ => true end.

(** The socket was closed or nobody but its closer will call a function of it any more. *)
Definition sealed (s : socket) (event : bool) : Prop := event = true /\ occ Waiting (threads s) + occ Marking (threads s) = 0.

Record step_effect (s s' : socket) (event event' : bool) (evs : list call) : Prop := {
  se_one : (length evs <= 1)%nat;
  se_calls : occ InCall (threads s') = occ InCall (threads s) + calls_open evs;
  se_close : forall t, CloseSocket t ∈ evs -> occ InCall (threads s) = 0 /\ sealed s' event';
  se_sealed : sealed s event -> sealed s' event' /\ forallb quiet evs = true }.

(** Counts after one activation moved. *)
Ltac moved Ht :=
  rewrite ?(occ_insert _ _ _ _ _ Ht);
  repeat match goal with
  | |- context [bool_decide (?p = ?q)] => let r := eval vm_compute in (bool_decide (p = q)) in change (bool_decide (p = q)) with r
  end; cbn [Z.b2z].

(** The range of the count, and the counts before a step. *)
Lemma consistent_counts s c e t q : consistent s c e -> threads s !! t = Some q ->
  0 <= calls_in s < 2 ^ 61 /\ 0 < occ q (threads s) /\ (forall p, 0 <= occ p (threads s)) /\
  (q <> InCall -> q <> Refused -> calls_in s + 1 < 2 ^ 61).
Proof.
  intros Hc Ht. pose proof (occ_le_length (threads s)). pose proof (c_small s c e Hc).
  pose proof (occ_nonneg InCall (threads s)). pose proof (occ_nonneg Refused (threads s)). pose proof (occ_pos q (threads s) t Ht).
  unfold calls_in. split; [lia|]. split; [done|]. split; [intros; apply occ_nonneg|]. intros Hi Hr.
  pose proof (occ_le_length (<[t := InCall]> (threads s))) as Hl. rewrite length_insert, !(occ_insert _ q _ _ _ Ht) in Hl.
  rewrite !(bool_decide_false (q = _)), (bool_decide_true (InCall = InCall)), (bool_decide_false (InCall = Refused)) in Hl by done.
  cbn [Z.b2z] in Hl. lia.
Qed.

(** Linear arithmetic with the counts alone, after a choice of the parts of disjunctions. *)
Ltac counts := repeat match goal with H : _ -> _ |- _ => clear H | H : _ = word _ _ _ |- _ => clear H end; lia.
Ltac by_counts :=
  repeat match goal with |- _ /\ _ => split | |- false = true -> _ => discriminate end;
  first [done | counts | left; by_counts | right; by_counts].

(** The parts of the invariant and the effect after a step of an activation. *)
Ltac step_parts Ht :=
  split; constructor; unfold calls_in, sealed; cbn [threads invoke_cnt can_close goto length calls_open forallb quiet andb];
  rewrite ?length_insert; moved Ht;
  [ f_equal; counts | counts | let H := fresh in intros H; try discriminate H; by_counts | counts | by_counts | by_counts | by_counts
  | counts | counts
  | intros ? Hel; try (apply elem_of_nil in Hel; done); apply list_elem_of_singleton in Hel; try done; by_counts
  | let H1 := fresh in let H2 := fresh in intros [H1 H2]; try done; by_counts ].

(** The cases of the invariant. *)
Ltac cases_of Hc :=
  destruct Hc as [? ? ? ? ? ? ?];
  repeat match goal with H : true = false -> _ |- _ => clear H | H : false = false -> _ |- _ => specialize (H eq_refl) end;
  destruct_and?; destruct_or?; destruct_and?; simplify_eq.

(** The facts before a step of the activation [t]. *)
Ltac step_facts s Hc Ht :=
  destruct (consistent_counts _ _ _ _ _ Hc Ht) as (Hr & Hp & Hn & Hi);
  let H1 := fresh in pose proof (Hn InCall) as H1; let H2 := fresh in pose proof (Hn Refused) as H2;
  let H3 := fresh in pose proof (Hn Testing) as H3; let H4 := fresh in pose proof (Hn Signalling) as H4;
  let H5 := fresh in pose proof (Hn Waiting) as H5; let H6 := fresh in pose proof (Hn Marking) as H6;
  let H7 := fresh in pose proof (Hn ClosingSocket) as H7; clear Hn;
  rewrite ?(c_word s _ _ Hc); unfold calls_in in Hr, Hi |- *.

Lemma invoke_step_consistent s c e t p a s' evs : consistent s c e -> threads s !! t = Some p ->
  invoke_step s t p a = Some (s', evs) -> exists e', consistent s' c e' /\ step_effect s s' e e' evs.
Proof.
  intros Hc Ht. unfold invoke_step. step_facts s Hc Ht. destruct p, a; try discriminate.
  - specialize (Hi ltac:(done) ltac:(done)). rewrite enter_word by lia. intros [= <- <-]. exists e.
    destruct c, e; cases_of Hc; unfold calls_in in *; step_parts Ht.
  - clear Hi. rewrite leave_word by lia. intros [= <- <-]. exists e.
    destruct (Z.eqb_spec (occ InCall (threads s) + occ Refused (threads s)) 1), c, e;
      cases_of Hc; unfold calls_in in *; cbn [andb negb]; step_parts Ht.
  - clear Hi. rewrite leave_word by lia. intros [= <- <-]. exists e.
    destruct (Z.eqb_spec (occ InCall (threads s) + occ Refused (threads s)) 1), c, e;
      cases_of Hc; unfold calls_in in *; cbn [andb negb]; step_parts Ht.
  - specialize (Hi ltac:(done) ltac:(done)). rewrite set_event_word by lia. intros [= <- <-]. exists true.
    destruct c, e; cases_of Hc; unfold calls_in in *; step_parts Ht.
  - intros [= <- <-]. exists e. destruct c, e; cases_of Hc; unfold calls_in in *; step_parts Ht.
Qed.

Lemma close_step_consistent s c e t p a s' evs : consistent s c e -> threads s !! t = Some p -> a <> TimeOut ->
  close_step s t p a = Some (s', evs) -> exists c' e', consistent s' c' e' /\ step_effect s s' e e' evs.
Proof.
  intros Hc Ht Ha. unfold close_step, wait_invokers_step. step_facts s Hc Ht. destruct p, a; try done.
  - specialize (Hi ltac:(done) ltac:(done)). cbv zeta. rewrite closing_word by lia. intros Hx. exists true, e. destruct c; revert Hx.
    + rewrite or_closed_word by lia. intros [= <- <-]. destruct e; cases_of Hc; unfold calls_in in *; step_parts Ht.
    + rewrite or_closing_word by lia.
      assert (negb (word (occ InCall (threads s) + occ Refused (threads s)) false e =? 0) =
              (e || (0 <? occ InCall (threads s) + occ Refused (threads s)))) as ->
        by (unfold word; destruct e; cbn [Z.b2z orb]; lia).
      destruct (Z.ltb_spec 0 (occ InCall (threads s) + occ Refused (threads s))), e; cbn [orb]; intros [= <- <-];
        cases_of Hc; unfold calls_in in *; step_parts Ht.
  - destruct (can_close s) eqn:Hcan; [|done]. intros [= <- <-]. exists c, e.
    destruct c, e; cases_of Hc; unfold calls_in in *; step_parts Ht.
  - specialize (Hi ltac:(done) ltac:(done)). rewrite set_event_word by lia. intros [= <- <-]. exists c, true.
    destruct c, e; cases_of Hc; unfold calls_in in *; cbn [snd]; step_parts Ht.
  - intros [= <- <-]. exists c, e. destruct c, e; cases_of Hc; unfold calls_in in *; step_parts Ht.
Qed.

Lemma step_consistent s c e ta s' evs : consistent s c e -> no_timeout ta -> step s ta = Some (s', evs) ->
  exists c' e', consistent s' c' e' /\ step_effect s s' e e' evs.
Proof.
  destruct ta as [t a]. intros Hc Ha. unfold step. destruct (threads s !! t) as [p|] eqn:Ht; [|done]. cbn [mbind option_bind].
  destruct (invoke_step s t p a) as [r|] eqn:Hi.
  - intros [= ->]. destruct (invoke_step_consistent s c e t p a s' evs Hc Ht Hi) as (e' & ? & ?). by exists c, e'.
  - intros Hx. by apply (close_step_consistent s c e t p a).
Qed.

(** ** Closing excludes calls *)

Lemma calls_open_app a b : calls_open (a ++ b) = calls_open a + calls_open b.
Proof. induction a as [|x a IH]; [done|]. destruct x; cbn [app calls_open]; lia. Qed.

Record run_effect (s s' : socket) (event event' : bool) (tr : list call) : Prop := {
  re_calls : occ InCall (threads s') = occ InCall (threads s) + calls_open tr;
  re_sealed : sealed s event -> sealed s' event' /\ forallb quiet tr = true;
  re_close : forall tr1 t tr2, tr = tr1 ++ CloseSocket t :: tr2 ->
             occ InCall (threads s) + calls_open tr1 = 0 /\ forallb quiet tr2 = true }.

Lemma effects_compose s1 s2 s3 e1 e2 e3 evs tr : step_effect s1 s2 e1 e2 evs -> run_effect s2 s3 e2 e3 tr -> run_effect s1 s3 e1 e3 (evs ++ tr).
Proof.
  intros [H1 Hcalls Hclose Hseal] [Rcalls Rseal Rclose]. constructor.
  - rewrite calls_open_app. lia.
  - intros Hs. destruct (Hseal Hs) as [Hs2 Hq]. destruct (Rseal Hs2) as [Hs3 Hq']. by rewrite forallb_app, Hq, Hq'.
  - intros tr1 t tr2 Heq. destruct evs as [|x [|? ?]]; [| |cbn [length] in H1; lia].
    + cbn [app] in Heq. destruct (Rclose tr1 t tr2 Heq). cbn [calls_open] in Hcalls. split; [lia|done].
    + destruct tr1 as [|y tr1]; cbn [app] in Heq; simplify_eq.
      * destruct (Hclose t ltac:(by apply list_elem_of_singleton)) as [Hz Hs2]. destruct (Rseal Hs2) as [_ Hq].
        cbn [calls_open]. split; [lia|done].
      * destruct (Rclose tr1 t tr2 eq_refl) as [Hz Hq]. split; [|done].
        cbn [calls_open] in Hcalls |- *. destruct y; lia.
Qed.

Lemma run_consistent s c e sched s' tr : consistent s c e -> Forall no_timeout sched -> run s sched = Some (s', tr) ->
  exists c' e', consistent s' c' e' /\ run_effect s s' e e' tr.
Proof.
  revert s c e tr. induction sched as [|ta sched IH]; intros s c e tr Hc Hs; cbn [run].
  - intros [= <- <-]. exists c, e. split; [done|]. constructor; [cbn; lia|done|]. intros tr1 t tr2 Heq. by destruct tr1.
  - apply Forall_cons_1 in Hs as [Ha Hs]. destruct (step s ta) as [[s1 evs]|] eqn:Hx; [|done]. cbn [mbind option_bind].
    destruct (run s1 sched) as [[s2 tr2]|] eqn:Hr; [|done]. cbn [mbind option_bind]. intros [= <- <-].
    destruct (step_consistent s c e ta s1 evs Hc Ha Hx) as (c1 & e1 & Hc1 & He1).
    destruct (IH s1 c1 e1 tr2 Hc1 Hs Hr) as (c2 & e2 & Hc2 & He2). exists c2, e2. split; [done|]. by eapply effects_compose.
Qed.

(** C25: WskCloseSocket is called when nothing else is going on.  Whatever the order in which the
    activations around a socket take their steps, as long as no wait of the closer ends by its
    timeout of 30 seconds (after one WskCloseSocket is called while a function runs, see timeout_closes_under_call): at the call every function of the socket that was called has returned, and afterwards
    none is called any more, and the socket is not closed again. *)
Theorem close_excludes_calls (n : nat) (sched : list (nat * action)) (s : socket) (tr : list call) :
  Z.of_nat n < 2 ^ 61 -> Forall no_timeout sched -> run (new_socket n) sched = Some (s, tr) ->
  forall tr1 t tr2, tr = tr1 ++ CloseSocket t :: tr2 -> calls_open tr1 = 0 /\ forallb quiet tr2 = true.
Proof.
  intros Hn Hs Hr tr1 t tr2 Heq.
  destruct (run_consistent _ false false sched s tr (consistent_new n Hn) Hs Hr) as (c' & e' & _ & [_ _ Hclose]).
  destruct (Hclose tr1 t tr2 Heq) as [Hz Hq]. unfold new_socket in Hz. cbn [threads] in Hz. rewrite occ_replicate_idle in Hz by done.
  split; [lia|done].
Qed.

(** ** The closer is not forgotten *)








(** The wait for the event ends after 30 seconds too, and then the socket is closed under a call. *)
Lemma timeout_closes_under_call :
  exists s tr, run (new_socket 2) [(0%nat, Enter); (1%nat, Close); (1%nat, TimeOut)] = Some (s, tr) /\
    tr = [Called 0; CloseSocket 1] /\ occ InCall (threads s) = 1.
Proof. do 2 eexists. split; [reflexivity|]. by split. Qed.

(** ** Calls of one activation *)

(** A socket that could not be made leaves nothing allocated, and freeing one that was made
    gives everything back. *)
Lemma socket_allocation provider pool_ok irp_ok created l :
  match wsk_socket provider pool_ok irp_ok created l with
  | (st, Some s, l') => NT_SUCCESS st = true /\ l' = {| pools := pools l + 1; irps := irps l + 3 |} /\ free_socket s l' = l
  | (st, None, l') => st <> STATUS_SUCCESS /\ l' = l
  end.
Proof.
  unfold wsk_socket, alloc_socket. destruct l as [p i].
  destruct provider, pool_ok, (irp_ok recv_irp), (irp_ok send_irp), (irp_ok misc_irp); cbn [negb free_socket free_irp pools irps];
    try (split; [done|]; f_equal; lia).
  destruct (NT_SUCCESS created) eqn:Hc; cbn [free_socket free_irp pools irps].
  - split; [done|]. split; f_equal; lia.
  - split; [by intros ->|]. f_equal; lia.
Qed.

Section calls.
Context {N : Type} `{Provider N}.

(** Nothing reaches the provider from a socket that is being closed. *)
Lemma refused_when_closing (n : N) f irp : invoke_and_wait true n irp f = (STATUS_NOT_SUPPORTED, n).
Proof. done. Qed.

(** A receive that does not ask for the number of bytes succeeds only with all of them. *)
Lemma receive_exact closing (n : N) len flags received n' :
  receive closing n len flags false = (STATUS_SUCCESS, received, n') -> received = len.
Proof.
  unfold receive. destruct (transfer _ _ _ _) as [[st r] n1]. cbn [negb andb].
  destruct (NT_SUCCESS st) eqn:Hst; cbn [andb]; [|by intros [= -> ? ?]].
  destruct (Z.eqb_spec r len) as [->|]; cbn [negb]; by intros [= ? ? ?].
Qed.

(** The calls that the session uses are these. *)
#[local] Instance provider_net (mdl : N -> Z -> ntstatus) (alloc : N -> Z -> bool * N) (store : N -> list byte) : Net N := {|
  net_mdl := mdl;
  net_send := fun n data => transfer false n (WskSend data 0) true;
  net_receive := fun n len =>
    let '(st, received, n) := transfer false n (WskReceive len WSK_FLAG_WAITALL) false in (st, take (Z.to_nat received) (store n), n);
  net_alloc := alloc |}.

Lemma session_send mdl alloc store (n : N) data :
  Session.wsk_send (H := provider_net mdl alloc store) n data = send false n data 0.
Proof. done. Qed.

Lemma session_receive mdl alloc store (n : N) len : 0 <= len ->
  (forall n' irp, 0 <= information n' irp <= Z.of_nat (length (store n'))) ->
  let '(st, data, n') := Session.wsk_receive (H := provider_net mdl alloc store) n len in
  receive false n len 0 false = (st, Z.of_nat (length data), n').
Proof.
  intros Hl Hi. unfold Session.wsk_receive, receive. cbn [net_receive provider_net negb andb].
  change (Z.lor 0 WSK_FLAG_WAITALL) with WSK_FLAG_WAITALL. destruct (transfer _ _ _ _) as [[st r] n1] eqn:Ht.
  assert (Z.of_nat (length (take (Z.to_nat r) (store n1))) = r) as Hr.
  { unfold transfer in Ht. destruct (invoke_and_wait _ _ _ _) as [st' n2]. injection Ht as <- <- <-. rewrite length_take.
    destruct (NT_SUCCESS st'); [|lia]. specialize (Hi n2 recv_irp). lia. }
  by rewrite Hr.
Qed.
End calls.

(** ** Witnesses *)

Module Demo.
(** A call in progress, a closer that waits, a call that is refused. *)
Definition closing_schedule : list (nat * action) := [(0%nat, Enter); (1%nat, Close); (2%nat, Enter)].

Definition rest_of_schedule : list (nat * action) :=
  [(2%nat, Leave); (0%nat, Leave); (0%nat, Test); (0%nat, Signal); (1%nat, Wake); (2%nat, Enter); (1%nat, Finish); (2%nat, Leave)].

Definition closed_trace : list call := [Called 0; NotSupported 2; Returned 0; CloseSocket 1; Closed 1; NotSupported 2].

Lemma closing_runs : (fun r => snd r) <$> run (new_socket 3) (closing_schedule ++ rest_of_schedule) = Some closed_trace.
Proof. vm_compute. reflexivity. Qed.

Lemma close_excludes_calls_witness :
  exists tr1 tr2, closed_trace = tr1 ++ CloseSocket 1 :: tr2 /\ calls_open tr1 = 0 /\ forallb quiet tr2 = true.
Proof.
  exists [Called 0; NotSupported 2; Returned 0], [Closed 1; NotSupported 2]. split; [reflexivity|].
  pose proof closing_runs as Hr. destruct (run (new_socket 3) (closing_schedule ++ rest_of_schedule)) as [[s tr]|] eqn:E; [|done].
  apply (close_excludes_calls 3 (closing_schedule ++ rest_of_schedule) s closed_trace) with (t := 1%nat).
  - reflexivity.
  - repeat constructor; done.
  - rewrite E. injection Hr as ->. reflexivity.
  - reflexivity.
Defined.



End Demo.
