(* ===== verification/Context.v ===== *)
(** * Contexts of network transfers

    drivers/libdrv/mdl_cpp.cpp and drivers/ude/wsk_context.cpp: a context with the header, the
    IRP and the MDLs of one transfer.  Contexts are kept in a lookaside list, and what was
    allocated for a transfer, the array of packet descriptors and the buffer that a short
    transfer buffer is lengthened with, serves the next one.  The kernel's memory is a map from
    what is allocated; freeing what is not allocated is an error ([None]). *)

From S2P Require Import Prelude Proto.

(** ** The kernel's memory *)

Inductive kobject : Type := Pool (size : Z) | MdlObject | IrpObject.

(** [outcomes] says which of the next allocations succeed. *)
Record kheap : Type := { live : gmap positive kobject; outcomes : list bool }.

Definition draw (h : kheap) : bool * kheap :=
  match outcomes h with [] => (true, h) | b :: o => (b, {| live := live h; outcomes := o |}) end.

Definition kalloc (h : kheap) (o : kobject) : option positive * kheap :=
  let '(b, h) := draw h in
  if b then
    let p := fresh (dom (live h)) in (Some p, {| live := <[p := o]> (live h); outcomes := outcomes h |})
  else (None, h).

Definition same_kind (a b : kobject) : bool :=
  match a, b with Pool _, Pool _ | MdlObject, MdlObject | IrpObject, IrpObject => true | _, _ => false end.

Definition kfree (h : kheap) (p : positive) (kind : kobject) : option kheap :=
  o ← live h !! p;
  if same_kind o kind then Some {| live := delete p (live h); outcomes := outcomes h |} else None.

(** Freeing a pointer that may be NULL (unique_ptr, irp_ptr). *)
Definition kfree_opt (h : kheap) (p : option positive) (kind : kobject) : option kheap :=
  match p with Some p => kfree h p kind | None => Some h end.

(** ** Mdl (mdl_cpp.cpp) *)

(** An MDL: the memory it describes, [mdl_base] with an offset, and the flags. *)
Record mdl : Type := {
  mdl_id : positive; mdl_base : positive; mdl_off : Z; mdl_len : Z; nonpaged : bool; locked : bool; partial : bool }.

Definition with_flags (m : mdl) (np lk pt : bool) : mdl :=
  {| mdl_id := mdl_id m; mdl_base := mdl_base m; mdl_off := mdl_off m; mdl_len := mdl_len m; nonpaged := np; locked := lk; partial := pt |}.

(** Mdl(VirtualAddress, Length) and Mdl(SourceMdl, Offset, Length) *)
Definition new_mdl (h : kheap) (base : positive) (off len : Z) : option mdl * kheap :=
  let '(p, h) := kalloc h MdlObject in
  ((fun p => {| mdl_id := p; mdl_base := base; mdl_off := off; mdl_len := len; nonpaged := false; locked := false; partial := false |}) <$> p, h).

Definition new_partial_mdl (h : kheap) (src : mdl) (off len : Z) : option mdl * kheap :=
  let '(m, h) := new_mdl h (mdl_base src) (mdl_off src + off) len in
  ((fun m => with_flags m (nonpaged m) (locked m) true) <$> m, h).

Definition mdl_size (m : option mdl) : Z := match m with Some m => mdl_len m | None => 0 end.

(** Only locked pages are to be undone. *)
Definition unprepare (m : mdl) : mdl := if locked m then with_flags m (nonpaged m) false (partial m) else m.

(** IoFreeMdl: not while the pages are locked. *)
Definition IoFreeMdl (h : kheap) (m : mdl) : option kheap := if locked m then None else kfree h (mdl_id m) MdlObject.

(** reset(mdl) *)
Definition mdl_reset (h : kheap) (m new : option mdl) : option (option mdl * kheap) :=
  match m with Some m => h ← IoFreeMdl h (unprepare m); Some (new, h) | None => Some (new, h) end.

(** operator=(Mdl&&) *)
Definition mdl_assign (h : kheap) (m new : option mdl) : option (option mdl * kheap) :=
  if bool_decide (mdl_id <$> m = mdl_id <$> new) then Some (m, h) else mdl_reset h m new.

Definition STATUS_ALREADY_COMPLETE : ntstatus := NT_OS 0xFF.
Definition STATUS_LOCK_NOT_GRANTED : ntstatus := NT_OS 0xC0000055.

Definition prepare_nonpaged (m : option mdl) : ntstatus * option mdl :=
  match m with
  | None => (STATUS_INSUFFICIENT_RESOURCES, None)
  | Some m => if nonpaged m then (STATUS_ALREADY_COMPLETE, Some m) else (STATUS_SUCCESS, Some (with_flags m true (locked m) (partial m)))
  end.

(** lock: [granted] when MmProbeAndLockPages raises no exception. *)
Definition mdl_lock (m : mdl) (granted : bool) : ntstatus * mdl :=
  if locked m then (STATUS_ALREADY_COMPLETE, m)
  else
    let m := with_flags m (nonpaged m) granted (partial m) in
    (if locked m then STATUS_SUCCESS else STATUS_LOCK_NOT_GRANTED, m).

Definition prepare_paged (m : option mdl) (granted : bool) : ntstatus * option mdl :=
  match m with
  | Some m => let '(st, m) := mdl_lock m granted in (st, Some m)
  | None => (STATUS_INSUFFICIENT_RESOURCES, None)
  end.

(** ** wsk_context *)

Definition MAXLEN : Z := 4096 / 2.

Record wsk_context : Type := {
  self : positive; mdl_hdr : option mdl; mdl_buf : option mdl; mdl_buf_tail : option mdl; mdl_isoc : option mdl;
  wsk_irp : option positive; buf_tail : option positive; isoc : option positive; isoc_alloc_cnt : Z; is_isoc : bool; request : option Z }.

Definition with_hdr (c : wsk_context) (m : option mdl) (irp : option positive) : wsk_context :=
  {| self := self c; mdl_hdr := m; mdl_buf := mdl_buf c; mdl_buf_tail := mdl_buf_tail c; mdl_isoc := mdl_isoc c;
     wsk_irp := irp; buf_tail := buf_tail c; isoc := isoc c; isoc_alloc_cnt := isoc_alloc_cnt c; is_isoc := is_isoc c; request := request c |}.
Definition with_buf (c : wsk_context) (m : option mdl) : wsk_context :=
  {| self := self c; mdl_hdr := mdl_hdr c; mdl_buf := m; mdl_buf_tail := mdl_buf_tail c; mdl_isoc := mdl_isoc c;
     wsk_irp := wsk_irp c; buf_tail := buf_tail c; isoc := isoc c; isoc_alloc_cnt := isoc_alloc_cnt c; is_isoc := is_isoc c; request := request c |}.
Definition with_tail (c : wsk_context) (b : option positive) (m : option mdl) : wsk_context :=
  {| self := self c; mdl_hdr := mdl_hdr c; mdl_buf := mdl_buf c; mdl_buf_tail := m; mdl_isoc := mdl_isoc c;
     wsk_irp := wsk_irp c; buf_tail := b; isoc := isoc c; isoc_alloc_cnt := isoc_alloc_cnt c; is_isoc := is_isoc c; request := request c |}.
Definition with_isoc (c : wsk_context) (b : option positive) (cnt : Z) (m : option mdl) : wsk_context :=
  {| self := self c; mdl_hdr := mdl_hdr c; mdl_buf := mdl_buf c; mdl_buf_tail := mdl_buf_tail c; mdl_isoc := m;
     wsk_irp := wsk_irp c; buf_tail := buf_tail c; isoc := b; isoc_alloc_cnt := cnt; is_isoc := is_isoc c; request := request c |}.
Definition with_request (c : wsk_context) (is_isoc : bool) (r : option Z) : wsk_context :=
  {| self := self c; mdl_hdr := mdl_hdr c; mdl_buf := mdl_buf c; mdl_buf_tail := mdl_buf_tail c; mdl_isoc := mdl_isoc c;
     wsk_irp := wsk_irp c; buf_tail := buf_tail c; isoc := isoc c; isoc_alloc_cnt := isoc_alloc_cnt c; is_isoc := is_isoc; request := r |}.

(** Zeroed memory. *)
Definition zero_context (p : positive) : wsk_context :=
  {| self := p; mdl_hdr := None; mdl_buf := None; mdl_buf_tail := None; mdl_isoc := None; wsk_irp := None; buf_tail := None;
     isoc := None; isoc_alloc_cnt := 0; is_isoc := false; request := None |}.

Section contexts.
(** sizeof(wsk_context) and the offset of hdr in it *)
Context (sizeof_wsk_context hdr_offset : Z).

Definition free_function_ex (h : kheap) (c : wsk_context) : option kheap :=
  '(_, h) ← mdl_reset h (mdl_hdr c) None;
  '(_, h) ← mdl_reset h (mdl_buf c) None;
  '(_, h) ← mdl_reset h (mdl_buf_tail c) None;
  '(_, h) ← mdl_reset h (mdl_isoc c) None;
  h ← kfree_opt h (wsk_irp c) IrpObject;
  h ← kfree_opt h (buf_tail c) (Pool 0);
  h ← kfree_opt h (isoc c) (Pool 0);
  kfree h (self c) (Pool 0).

Definition allocate_function_ex (h : kheap) : option (option wsk_context * kheap) :=
  let '(p, h) := kalloc h (Pool sizeof_wsk_context) in
  match p with
  | None => Some (None, h)
  | Some p =>
      let c := zero_context p in
      let '(m, h) := new_mdl h p hdr_offset (Z.of_nat sizeof_header) in
      '(m, h) ← mdl_assign h (mdl_hdr c) m;
      let '(err, m) := prepare_nonpaged m in
      let c := with_hdr c m None in
      match err with
      | STATUS_SUCCESS =>
          let '(irp, h) := kalloc h IrpObject in
          let c := with_hdr c (mdl_hdr c) irp in
          if bool_decide (irp = None) then h ← free_function_ex h c; Some (None, h) else Some (Some c, h)
      | _ => h ← free_function_ex h c; Some (None, h)
      end
  end.

(** The end of prepare_isoc: an MDL of [isoc_len] bytes of the array. *)
Definition describe_isoc (h : kheap) (c : wsk_context) (isoc_len : Z) : option (ntstatus * wsk_context * kheap) :=
  if mdl_size (mdl_isoc c) =? isoc_len then Some (STATUS_SUCCESS, c, h)
  else
    b ← isoc c;
    let '(m, h) := new_mdl h b 0 isoc_len in
    '(m, h) ← mdl_assign h (mdl_isoc c) m;
    let '(err, m) := prepare_nonpaged m in
    Some (err, with_isoc c (isoc c) (isoc_alloc_cnt c) m, h).

Definition prepare_isoc (h : kheap) (c : wsk_context) (NumberOfPackets : Z) : option (ntstatus * wsk_context * kheap) :=
  let c := with_request c (negb (NumberOfPackets =? 0)) (request c) in
  if NumberOfPackets =? 0 then Some (STATUS_SUCCESS, c, h)
  else
    let isoc_len := u32 (NumberOfPackets * sizeof_iso_packet_descriptor) in
    if isoc_alloc_cnt c <? NumberOfPackets then
      let '(b, h) := kalloc h (Pool isoc_len) in
      match b with
      | None => Some (STATUS_INSUFFICIENT_RESOURCES, c, h)
      | Some b =>
          h ← kfree_opt h (isoc c) (Pool 0);
          '(m, h) ← mdl_reset h (mdl_isoc c) None;
          describe_isoc h (with_isoc c (Some b) NumberOfPackets m) isoc_len
      end
    else describe_isoc h c isoc_len.

Definition alloc_buf_tail (h : kheap) (buf : option positive) (length : Z) : ntstatus * option positive * kheap :=
  if MAXLEN <? length then (STATUS_BUFFER_TOO_SMALL, buf, h)
  else
    match buf with
    | Some _ => (STATUS_SUCCESS, buf, h)
    | None =>
        let '(p, h) := kalloc h (Pool MAXLEN) in
        match p with None => (STATUS_INSUFFICIENT_RESOURCES, None, h) | Some _ => (STATUS_SUCCESS, p, h) end
    end.

Definition alloc_mdl_buf_tail (h : kheap) (c : wsk_context) (length : Z) : option (ntstatus * wsk_context * kheap) :=
  let '(err, b, h) := alloc_buf_tail h (buf_tail c) length in
  let c := with_tail c b (mdl_buf_tail c) in
  match err, b with
  | STATUS_SUCCESS, Some p =>
      if mdl_size (mdl_buf_tail c) =? length then Some (STATUS_SUCCESS, c, h)
      else
        let '(m, h) := new_mdl h p 0 length in
        '(m, h) ← mdl_assign h (mdl_buf_tail c) m;
        match m with
        | None => Some (STATUS_INSUFFICIENT_RESOURCES, with_tail c b None, h)
        | Some _ => let '(st, m) := prepare_nonpaged m in Some (st, with_tail c b m, h)
        end
  | err, _ => Some (err, c, h)
  end.

(** *** The lookaside list *)

Record contexts : Type := { heap : kheap; used : list wsk_context; idle : list wsk_context }.

(** ExAllocateFromLookasideListEx *)
Definition from_lookaside (s : contexts) : option (option wsk_context * contexts) :=
  match idle s with
  | c :: l => Some (Some c, {| heap := heap s; used := used s; idle := l |})
  | [] => '(c, h) ← allocate_function_ex (heap s); Some (c, {| heap := h; used := used s; idle := [] |})
  end.

(** alloc_wsk_context *)
Definition alloc_wsk_context (s : contexts) (r : option Z) (NumberOfPackets : Z) : option (bool * contexts) :=
  '(c, s) ← from_lookaside s;
  match c with
  | None => Some (false, s)
  | Some c =>
      '(err, c, h) ← prepare_isoc (heap s) c NumberOfPackets;
      match err with
      | STATUS_SUCCESS => Some (true, {| heap := h; used := with_request c (is_isoc c) r :: used s; idle := idle s |})
      | _ => h ← free_function_ex h c; Some (false, {| heap := h; used := used s; idle := idle s |})
      end
  end.

(** free; [keep] when the lookaside list is not full. *)
Definition free_wsk_context (s : contexts) (c : wsk_context) (rest : list wsk_context) (keep : bool) : option contexts :=
  '(m, h) ← mdl_reset (heap s) (mdl_buf c) None;
  let c := with_buf c m in
  if keep then Some {| heap := h; used := rest; idle := c :: idle s |}
  else h ← free_function_ex h c; Some {| heap := h; used := rest; idle := idle s |}.

(** ExDeleteLookasideListEx *)
Definition delete_wsk_context_list (s : contexts) : option kheap :=
  fold_left (fun h c => h ← h; free_function_ex h c) (idle s) (Some (heap s)).

(** What the driver does with its contexts; [i] is one that is in use. *)
Inductive ctx_op : Type :=
| AllocContext (r : option Z) (n : Z)
| PrepareIsoc (i : nat) (n : Z)
| BufTail (i : nat) (len : Z)
| SetBuf (i : nat) (src : mdl) (len : Z)
| FreeContext (i : nat) (keep : bool).

Definition update (s : contexts) (i : nat) (c : wsk_context) (h : kheap) : contexts :=
  {| heap := h; used := <[i := c]> (used s); idle := idle s |}.

Definition ctx_step (s : contexts) (o : ctx_op) : option contexts :=
  match o with
  | AllocContext r n => '(_, s) ← alloc_wsk_context s r n; Some s
  | PrepareIsoc i n =>
      match used s !! i with
      | None => Some s
      | Some c => '(_, c, h) ← prepare_isoc (heap s) c n; Some (update s i c h)
      end
  | BufTail i len =>
      match used s !! i with
      | None => Some s
      | Some c => '(_, c, h) ← alloc_mdl_buf_tail (heap s) c len; Some (update s i c h)
      end
  | SetBuf i src len =>
      match used s !! i with
      | None => Some s
      | Some c =>
          let '(m, h) := new_partial_mdl (heap s) src 0 len in
          '(m, h) ← mdl_assign h (mdl_buf c) m; Some (update s i (with_buf c m) h)
      end
  | FreeContext i keep =>
      match used s !! i with
      | None => Some s
      | Some c => free_wsk_context s c (delete i (used s)) keep
      end
  end.

Fixpoint ctx_run (s : contexts) (ops : list ctx_op) : option contexts :=
  match ops with [] => Some s | o :: ops => s ← ctx_step s o; ctx_run s ops end.
End contexts.

(** ** Lemmas: what is allocated *)

(** The heap has these objects and no others. *)
Definition holds (h : kheap) (l : list (positive * kobject)) : Prop := map_to_list (live h) ≡ₚ l.

#[global] Instance holds_proper h : Proper ((≡ₚ) ==> iff) (holds h).
Proof. intros l l' Hl. unfold holds. by rewrite Hl. Qed.

Lemma holds_perm h l l' : holds h l -> l ≡ₚ l' -> holds h l'.
Proof. intros Hl Hp. by rewrite <- Hp. Qed.

Definition mdl_objects (m : option mdl) : list (positive * kobject) := match m with Some m => [(mdl_id m, MdlObject)] | None => [] end.
Definition opt_objects (p : option positive) (o : kobject) : list (positive * kobject) := match p with Some p => [(p, o)] | None => [] end.

Lemma kalloc_spec h o l : holds h l -> let '(p, h') := kalloc h o in holds h' (opt_objects p o ++ l).
Proof.
  unfold kalloc, draw, holds. intros Hl.
  assert (forall out, holds {| live := <[fresh (dom (live h)) := o]> (live h); outcomes := out |} ((fresh (dom (live h)), o) :: l)) as Hi.
  { intros out. unfold holds. cbn [live]. rewrite map_to_list_insert; [by rewrite Hl|]. apply not_elem_of_dom, is_fresh. }
  destruct (outcomes h) as [|[|] out]; cbn [live outcomes opt_objects app]; [apply (Hi [])|apply (Hi out)|done].
Qed.

Lemma kfree_spec h p o kind l : holds h ((p, o) :: l) -> same_kind o kind = true -> exists h', kfree h p kind = Some h' /\ holds h' l.
Proof.
  unfold holds. intros Hl Hk.
  assert (live h !! p = Some o) as Hp by (apply elem_of_map_to_list; rewrite Hl; by left).
  unfold kfree. rewrite Hp. cbn [mbind option_bind]. rewrite Hk. eexists. split; [done|]. cbn [live].
  apply (Permutation_cons_inv (a := (p, o))). by rewrite map_to_list_delete.
Qed.

Lemma kfree_opt_spec h p o kind l : holds h (opt_objects p o ++ l) -> same_kind o kind = true ->
  exists h', kfree_opt h p kind = Some h' /\ holds h' l.
Proof. destruct p as [p|]; cbn [opt_objects app kfree_opt]; [by apply kfree_spec|]. intros Hl _. by exists h. Qed.

Lemma mdl_reset_spec h m new l : holds h (mdl_objects m ++ l) -> exists h', mdl_reset h m new = Some (new, h') /\ holds h' l.
Proof.
  destruct m as [m|]; cbn [mdl_objects app mdl_reset]; [|intros Hl; by exists h]. intros Hl.
  assert (mdl_id (unprepare m) = mdl_id m /\ locked (unprepare m) = false) as [Hid Hlk] by (unfold unprepare; by destruct (locked m) eqn:?).
  unfold IoFreeMdl. rewrite Hlk, Hid. destruct (kfree_spec h _ _ MdlObject l Hl eq_refl) as (h' & -> & Hh). by exists h'.
Qed.

Lemma mdl_assign_spec h m new l : holds h (mdl_objects m ++ mdl_objects new ++ l) ->
  exists h', mdl_assign h m new = Some (new, h') /\ holds h' (mdl_objects new ++ l).
Proof.
  intros Hl. unfold mdl_assign. case_bool_decide as Hid; [|by apply mdl_reset_spec].
  destruct m as [m|], new as [n|]; cbn [fmap option_fmap option_map mdl_objects app] in *; try done; [|by exists h].
  injection Hid as Hid. pose proof (NoDup_fst_map_to_list (live h)) as Hnd. unfold holds in Hl. rewrite Hl, Hid in Hnd.
  cbn [fmap list_fmap fst] in Hnd. apply list.NoDup_cons in Hnd as [Hnd _]. destruct Hnd. by left.
Qed.

Lemma new_mdl_spec h base off len l : holds h l ->
  let '(m, h') := new_mdl h base off len in
  holds h' (mdl_objects m ++ l) /\
  (forall m', m = Some m' -> mdl_base m' = base /\ mdl_off m' = off /\ mdl_len m' = len /\ nonpaged m' = false /\ locked m' = false).
Proof.
  intros Hl. unfold new_mdl. pose proof (kalloc_spec h MdlObject l Hl) as Ha. destruct (kalloc h MdlObject) as [[p|] h'];
    cbn [fmap option_fmap option_map mdl_objects opt_objects] in *; (split; [done|]); [|done]. by intros m' [= <-].
Qed.

Section owned.
Context (sizeof_wsk_context hdr_offset : Z).

(** What a context owns. *)
Definition objects (c : wsk_context) : list (positive * kobject) :=
  mdl_objects (mdl_hdr c) ++ mdl_objects (mdl_buf c) ++ mdl_objects (mdl_buf_tail c) ++ mdl_objects (mdl_isoc c) ++
  opt_objects (wsk_irp c) IrpObject ++ opt_objects (buf_tail c) (Pool MAXLEN) ++
  opt_objects (isoc c) (Pool (sizeof_iso_packet_descriptor * isoc_alloc_cnt c)) ++ [(self c, Pool sizeof_wsk_context)].

(** Every MDL of a context describes memory of the context; [mdl_buf] is that of a request. *)
Record ctx_ok (c : wsk_context) : Prop := {
  ok_hdr : exists m, mdl_hdr c = Some m /\ mdl_base m = self c /\ mdl_off m = hdr_offset /\ mdl_len m = Z.of_nat sizeof_header /\ nonpaged m = true;
  ok_irp : is_Some (wsk_irp c);
  ok_tail : forall m, mdl_buf_tail c = Some m ->
            buf_tail c = Some (mdl_base m) /\ mdl_off m = 0 /\ 0 <= mdl_len m <= MAXLEN /\ nonpaged m = true;
  ok_isoc : forall m, mdl_isoc c = Some m ->
            isoc c = Some (mdl_base m) /\ mdl_off m = 0 /\ 0 <= mdl_len m <= sizeof_iso_packet_descriptor * isoc_alloc_cnt c /\ nonpaged m = true;
  ok_cnt : 0 <= isoc_alloc_cnt c < 2 ^ 28 /\ (isoc c = None -> isoc_alloc_cnt c = 0) }.

Lemma free_function_ex_spec h c l : holds h (objects c ++ l) -> exists h', free_function_ex h c = Some h' /\ holds h' l.
Proof.
  unfold objects. rewrite <- !app_assoc. intros Hl. unfold free_function_ex.
  apply mdl_reset_spec with (new := None) in Hl as (h1 & -> & Hl). cbn [mbind option_bind].
  apply mdl_reset_spec with (new := None) in Hl as (h2 & -> & Hl). cbn [mbind option_bind].
  apply mdl_reset_spec with (new := None) in Hl as (h3 & -> & Hl). cbn [mbind option_bind].
  apply mdl_reset_spec with (new := None) in Hl as (h4 & -> & Hl). cbn [mbind option_bind].
  apply kfree_opt_spec with (kind := IrpObject) in Hl as (h5 & -> & Hl); [|done]. cbn [mbind option_bind].
  apply kfree_opt_spec with (kind := Pool 0) in Hl as (h6 & -> & Hl); [|done]. cbn [mbind option_bind].
  apply kfree_opt_spec with (kind := Pool 0) in Hl as (h7 & -> & Hl); [|done]. cbn [mbind option_bind].
  by apply (kfree_spec _ _ _ (Pool 0)) in Hl.
Qed.

Lemma allocate_function_ex_spec h l : holds h l ->
  exists c h', allocate_function_ex sizeof_wsk_context hdr_offset h = Some (c, h') /\
    match c with Some c => ctx_ok c /\ mdl_buf c = None /\ holds h' (objects c ++ l) | None => holds h' l end.
Proof.
  intros Hl. unfold allocate_function_ex. pose proof (kalloc_spec h (Pool sizeof_wsk_context) l Hl) as Ha.
  destruct (kalloc h (Pool sizeof_wsk_context)) as [[p|] h1]; [|by exists None, h1]. cbn [opt_objects app] in Ha.
  pose proof (new_mdl_spec h1 p hdr_offset (Z.of_nat sizeof_header) _ Ha) as Hm.
  destruct (new_mdl h1 p hdr_offset (Z.of_nat sizeof_header)) as [m h2]. destruct Hm as [Hm Hmd]. cbn [zero_context mdl_hdr].
  destruct (mdl_assign_spec h2 None m _ Hm) as (h3 & -> & Hl3). cbn [mbind option_bind].
  destruct m as [m|]; cbn [prepare_nonpaged].
  2:{ destruct (free_function_ex_spec h3 (with_hdr (zero_context p) None None) l Hl3) as (h4 & -> & Hl4). by exists None, h4. }
  destruct (Hmd m eq_refl) as (Hb & Ho & Hn & Hnp & _). rewrite Hnp.
  pose proof (kalloc_spec h3 IrpObject _ Hl3) as Hi. destruct (kalloc h3 IrpObject) as [[irp|] h4].
  - rewrite bool_decide_false by done. eexists _, h4. split; [done|]. split.
    + constructor; cbn; try done. eexists. split; [done|]. cbn. by rewrite Hb.
    + split; [done|]. apply (holds_perm _ _ _ Hi). unfold objects. cbn. solve_Permutation.
  - rewrite bool_decide_true by done. cbn [opt_objects app] in Hi.
    destruct (free_function_ex_spec h4 (with_hdr (with_hdr (zero_context p) (Some (with_flags m true (locked m) (partial m))) None)
       (Some (with_flags m true (locked m) (partial m))) None) l Hi) as (h5 & Hf & Hl5).
    cbn [mdl_hdr with_hdr] in Hf |- *. rewrite Hf. by exists None, h5.
Qed.

(** What a call leaves of a context. *)
Record prepared (c c' : wsk_context) : Prop := {
  pr_self : self c' = self c; pr_buf : mdl_buf c' = mdl_buf c; pr_hdr : mdl_hdr c' = mdl_hdr c; pr_request : request c' = request c }.

Lemma describe_isoc_spec h c n l : ctx_ok c -> 0 < n <= isoc_alloc_cnt c -> holds h (objects c ++ l) ->
  exists err c' h', describe_isoc h c (sizeof_iso_packet_descriptor * n) = Some (err, c', h') /\ ctx_ok c' /\ holds h' (objects c' ++ l) /\
    prepared c c' /\ is_isoc c' = is_isoc c /\ buf_tail c' = buf_tail c /\ mdl_buf_tail c' = mdl_buf_tail c /\
    (err = STATUS_SUCCESS -> mdl_size (mdl_isoc c') = sizeof_iso_packet_descriptor * n /\ isoc_alloc_cnt c' = isoc_alloc_cnt c).
Proof.
  intros Hok Hn Hl. unfold describe_isoc. destruct (Z.eqb_spec (mdl_size (mdl_isoc c)) (sizeof_iso_packet_descriptor * n)) as [He|_].
  { exists STATUS_SUCCESS, c, h. by do 6 (split; [done|]). }
  destruct Hok as [Oh Oi Ot Os [Oc1 Oc2]]. destruct (isoc c) as [b|] eqn:Hb; [|specialize (Oc2 eq_refl); lia]. cbn [mbind option_bind].
  pose proof (new_mdl_spec h b 0 (sizeof_iso_packet_descriptor * n) _ Hl) as Hm.
  destruct (new_mdl h b 0 (sizeof_iso_packet_descriptor * n)) as [m h1]. destruct Hm as [Hm Hmd].
  destruct (mdl_assign_spec h1 (mdl_isoc c) m
     (mdl_objects (mdl_hdr c) ++ mdl_objects (mdl_buf c) ++ mdl_objects (mdl_buf_tail c) ++ opt_objects (wsk_irp c) IrpObject ++
      opt_objects (buf_tail c) (Pool MAXLEN) ++ opt_objects (isoc c) (Pool (sizeof_iso_packet_descriptor * isoc_alloc_cnt c)) ++
      (self c, Pool sizeof_wsk_context) :: l)) as (h2 & -> & Hl2).
  { apply (holds_perm _ _ _ Hm). unfold objects. solve_Permutation. }
  cbn [mbind option_bind]. destruct m as [m|].
  - destruct (Hmd m eq_refl) as (Mb & Mo & Ml & Mn & _). cbn [prepare_nonpaged]. rewrite Mn. eexists _, _, h2. split; [done|].
    split.
    { constructor; cbn; try done. intros m' [= <-]. cbn. rewrite Mb, Mo, Ml. split; [done|].
      unfold sizeof_iso_packet_descriptor. split; [done|]. split; [lia|done]. }
    split; [apply (holds_perm _ _ _ Hl2); unfold objects; cbn; rewrite ?Hb; cbn; solve_Permutation|].
    do 4 (split; [done|]). intros _. cbn. by rewrite Ml.
  - cbn [prepare_nonpaged]. eexists _, _, h2. split; [done|]. split; [by constructor|].
    split; [apply (holds_perm _ _ _ Hl2); unfold objects; cbn; rewrite ?Hb; cbn; solve_Permutation|]. by do 4 (split; [done|]).
Qed.

Lemma prepare_packets_spec h c n l : ctx_ok c -> 0 <= n < 2 ^ 28 -> holds h (objects c ++ l) ->
  exists err c' h', prepare_isoc h c n = Some (err, c', h') /\ ctx_ok c' /\ holds h' (objects c' ++ l) /\
    prepared c c' /\ is_isoc c' = negb (n =? 0) /\ buf_tail c' = buf_tail c /\ mdl_buf_tail c' = mdl_buf_tail c /\
    (err = STATUS_SUCCESS -> n <> 0 -> mdl_size (mdl_isoc c') = sizeof_iso_packet_descriptor * n /\ n <= isoc_alloc_cnt c').
Proof.
  intros Hok Hn Hl. unfold prepare_isoc. destruct (Z.eqb_spec n 0) as [->|Hz].
  { eexists _, _, h. split; [done|]. split; [by destruct Hok; constructor|]. by do 5 (split; [done|]). }
  cbn [negb isoc_alloc_cnt with_request request isoc mdl_isoc]. set (c1 := with_request c true (request c)).
  assert (ctx_ok c1) as Hok1 by (by destruct Hok; constructor).
  replace (u32 (n * sizeof_iso_packet_descriptor)) with (sizeof_iso_packet_descriptor * n)
    by (unfold u32, sizeof_iso_packet_descriptor; rewrite Z.mod_small; lia).
  destruct (Z.ltb_spec (isoc_alloc_cnt c) n) as [Hlt|Hge].
  2:{ destruct (describe_isoc_spec h c1 n l Hok1 ltac:(cbn; lia) Hl) as (err & c' & h' & -> & Hc' & Hl' & [] & Hi & Ht & Hmt & Hs).
      exists err, c', h'. do 7 (split; [done|]). intros He _. destruct (Hs He) as [? ->]. split; [done|]. cbn. lia. }
  pose proof (kalloc_spec h (Pool (sizeof_iso_packet_descriptor * n)) _ Hl) as Ha.
  destruct (kalloc h (Pool (sizeof_iso_packet_descriptor * n))) as [[b|] h1].
  2:{ eexists _, c1, h1. split; [done|]. by do 6 (split; [done|]). }
  cbn [opt_objects app] in Ha.
  set (others := mdl_objects (mdl_hdr c) ++ mdl_objects (mdl_buf c) ++ mdl_objects (mdl_buf_tail c) ++ opt_objects (wsk_irp c) IrpObject ++
      opt_objects (buf_tail c) (Pool MAXLEN) ++ (b, Pool (sizeof_iso_packet_descriptor * n)) :: (self c, Pool sizeof_wsk_context) :: l).
  destruct (kfree_opt_spec h1 (isoc c) (Pool (sizeof_iso_packet_descriptor * isoc_alloc_cnt c)) (Pool 0) (mdl_objects (mdl_isoc c) ++ others))
    as (h2 & -> & Hl2); [|done|].
  { apply (holds_perm _ _ _ Ha). unfold objects, others. solve_Permutation. }
  cbn [mbind option_bind]. destruct (mdl_reset_spec h2 (mdl_isoc c) None others Hl2) as (h3 & -> & Hl3). cbn [mbind option_bind].
  destruct (describe_isoc_spec h3 (with_isoc c1 (Some b) n None) n l) as (err & c' & h' & -> & Hc' & Hl' & [] & Hi & Ht & Hmt & Hs).
  - by destruct Hok1; constructor.
  - cbn. lia.
  - apply (holds_perm _ _ _ Hl3). unfold objects, others. cbn. solve_Permutation.
  - exists err, c', h'. do 7 (split; [done|]). intros He _. destruct (Hs He) as [? ->]. split; [done|]. cbn. lia.
Qed.

Lemma lengthen_spec h c len l : ctx_ok c -> 0 <= len -> holds h (objects c ++ l) ->
  exists err c' h', alloc_mdl_buf_tail h c len = Some (err, c', h') /\ ctx_ok c' /\ holds h' (objects c' ++ l) /\
    prepared c c' /\ is_isoc c' = is_isoc c /\ (err = STATUS_SUCCESS -> mdl_size (mdl_buf_tail c') = len /\ is_Some (buf_tail c')).
Proof.
  intros Hok Hlen Hl. unfold alloc_mdl_buf_tail, alloc_buf_tail. destruct (Z.ltb_spec MAXLEN len) as [Hm|Hm].
  { eexists _, _, h. split; [done|]. split; [by destruct Hok; constructor|]. by do 3 (split; [done|]). }
  assert (exists err b h1, (match buf_tail c with Some _ => (STATUS_SUCCESS, buf_tail c, h)
       | None => let '(p, h) := kalloc h (Pool MAXLEN) in match p with None => (STATUS_INSUFFICIENT_RESOURCES, None, h) | Some _ => (STATUS_SUCCESS, p, h) end end)
     = (err, b, h1) /\ holds h1 (objects (with_tail c b (mdl_buf_tail c)) ++ l) /\ ctx_ok (with_tail c b (mdl_buf_tail c)) /\
     err = (match b with Some _ => STATUS_SUCCESS | None => STATUS_INSUFFICIENT_RESOURCES end)) as (err & b & h1 & -> & Hl1 & Hok1 & Hb).
  { destruct (buf_tail c) as [p|] eqn:Hp.
    - eexists _, _, _. split; [done|]. split; [|split; [|done]]; [|destruct Hok as [? ? Ot ? ?]; constructor; cbn; try done; intros m E; rewrite <- Hp; by apply Ot].
      apply (holds_perm _ _ _ Hl). unfold objects. cbn. by rewrite Hp.
    - pose proof (kalloc_spec h (Pool MAXLEN) _ Hl) as Ha.
      assert (mdl_buf_tail c = None) as Ht by (destruct (mdl_buf_tail c) as [m|] eqn:E; [|done]; destruct (ok_tail c Hok m E); congruence).
      destruct (kalloc h (Pool MAXLEN)) as [[p|] h1]; eexists _, _, _; (split; [done|]); (split; [|split; [|done]]).
      + apply (holds_perm _ _ _ Ha). unfold objects. cbn. rewrite Hp. cbn. solve_Permutation.
      + destruct Hok; constructor; cbn; try done. by rewrite Ht.
      + apply (holds_perm _ _ _ Ha). unfold objects. cbn. by rewrite Hp.
      + destruct Hok; constructor; cbn; try done. by rewrite Ht. }
  destruct b as [p|]; subst err; [|by eexists _, _, h1; do 5 (split; [done|])].
  cbn [mdl_buf_tail with_tail]. destruct (Z.eqb_spec (mdl_size (mdl_buf_tail c)) len) as [He|_].
  { eexists _, _, h1. split; [done|]. do 4 (split; [done|]). intros _. split; [done|by eexists]. }
  pose proof (new_mdl_spec h1 p 0 len _ Hl1) as Hn. destruct (new_mdl h1 p 0 len) as [m h2]. destruct Hn as [Hn Hmd].
  destruct (mdl_assign_spec h2 (mdl_buf_tail c) m
     (mdl_objects (mdl_hdr c) ++ mdl_objects (mdl_buf c) ++ mdl_objects (mdl_isoc c) ++ opt_objects (wsk_irp c) IrpObject ++
      (p, Pool MAXLEN) :: opt_objects (isoc c) (Pool (sizeof_iso_packet_descriptor * isoc_alloc_cnt c)) ++
      (self c, Pool sizeof_wsk_context) :: l)) as (h3 & -> & Hl3).
  { apply (holds_perm _ _ _ Hn). unfold objects. cbn. solve_Permutation. }
  cbn [mbind option_bind]. destruct m as [m|].
  - destruct (Hmd m eq_refl) as (Mb & Mo & Ml & Mn & _). cbn [prepare_nonpaged]. rewrite Mn. eexists _, _, h3. split; [done|]. split.
    { destruct Hok1; constructor; cbn in *; try done. intros m' [= <-]. cbn. rewrite Mb, Mo, Ml. split; [done|]. split; [done|]. split; [lia|done]. }
    split; [apply (holds_perm _ _ _ Hl3); unfold objects; cbn; solve_Permutation|]. do 2 (split; [done|]). intros _. cbn. rewrite Ml. split; [done|by eexists].
  - eexists _, _, h3. split; [done|]. split; [destruct Hok1; constructor; cbn in *; try done|].
    split; [apply (holds_perm _ _ _ Hl3); unfold objects; cbn; solve_Permutation|]. by do 2 (split; [done|]).
Qed.

(** ** All contexts *)

Definition owned (s : contexts) : list (positive * kobject) := (used s ++ idle s) ≫= objects.

Record contexts_ok (s : contexts) : Prop := {
  co_heap : holds (heap s) (owned s);
  co_ctx : Forall ctx_ok (used s ++ idle s);
  co_idle : Forall (fun c => mdl_buf c = None) (idle s) }.

Lemma insert_Permutation (l : list wsk_context) i c c' : l !! i = Some c -> <[i := c']> l ≡ₚ c' :: delete i l.
Proof.
  revert i. induction l as [|x l IH]; intros [|i] Hi; simplify_eq/=; [done|]. rewrite (IH i Hi). apply perm_swap.
Qed.

Lemma owned_used s i c : used s !! i = Some c -> owned s ≡ₚ objects c ++ ((delete i (used s) ++ idle s) ≫= objects).
Proof. intros Hi. unfold owned. by rewrite (delete_Permutation _ _ _ Hi) at 1. Qed.

Lemma used_ok s i c : contexts_ok s -> used s !! i = Some c ->
  ctx_ok c /\ Forall ctx_ok (delete i (used s) ++ idle s) /\ holds (heap s) (objects c ++ ((delete i (used s) ++ idle s) ≫= objects)).
Proof.
  intros [Hh Hc _] Hi. rewrite (delete_Permutation (used s) i c Hi) in Hc at 1. apply Forall_cons_1 in Hc as [? ?].
  split; [done|]. split; [done|]. by apply (holds_perm _ _ _ Hh), owned_used.
Qed.

Lemma update_ok s i c c' h : contexts_ok s -> used s !! i = Some c -> ctx_ok c' ->
  holds h (objects c' ++ ((delete i (used s) ++ idle s) ≫= objects)) -> contexts_ok (update s i c' h).
Proof.
  intros Hs Hi Hc Hh. destruct (used_ok s i c Hs Hi) as (_ & Hf & _). constructor; cbn [used idle heap update owned].
  - apply (holds_perm _ _ _ Hh). unfold owned. cbn [used idle update]. by rewrite (insert_Permutation _ _ _ c' Hi).
  - rewrite (insert_Permutation _ _ _ c' Hi). by apply list.Forall_cons.
  - apply Hs.
Qed.

(** A context taken from the lookaside list, or a new one. *)
Lemma from_lookaside_spec s : contexts_ok s ->
  exists c s', from_lookaside sizeof_wsk_context hdr_offset s = Some (c, s') /\ used s' = used s /\
    match c with
    | None => contexts_ok s'
    | Some c => ctx_ok c /\ mdl_buf c = None /\ holds (heap s') (objects c ++ owned s') /\ Forall ctx_ok (used s' ++ idle s') /\
                Forall (fun c => mdl_buf c = None) (idle s')
    end.
Proof.
  intros [Hh Hc Hi]. unfold from_lookaside. destruct (idle s) as [|c l] eqn:E.
  - unfold owned in Hh. rewrite E in Hh. rewrite app_nil_r in *.
    destruct (allocate_function_ex_spec (heap s) (used s ≫= objects) Hh) as (c & h' & -> & Hx). cbn [mbind option_bind].
    eexists c, _. split; [done|]. split; [done|]. destruct c as [c|].
    + destruct Hx as (? & ? & ?). unfold owned. cbn [heap used idle]. by rewrite app_nil_r.
    + by constructor; unfold owned; cbn [heap used idle]; rewrite ?app_nil_r.
  - eexists (Some c), _. split; [done|]. split; [done|]. cbn [heap used idle].
    apply Forall_app in Hc as [Hu Hl]. apply Forall_cons_1 in Hl as [Hc Hl]. apply Forall_cons_1 in Hi as [Hb Hi].
    split; [done|]. split; [done|]. split; [|split; [by apply Forall_app|done]].
    apply (holds_perm _ _ _ Hh). unfold owned. cbn [used idle]. rewrite E, !bind_app. cbn [mbind list_bind]. fold (mbind objects l).
    rewrite !app_assoc. by rewrite (Permutation_app_comm (used s ≫= objects)).
Qed.

Lemma objects_with_request c b r : objects (with_request c b r) = objects c.
Proof. done. Qed.

(** alloc_wsk_context hands out a context for the request that is to be sent. *)
Record ready (c : wsk_context) (r : option Z) (n : Z) : Prop := {
  rd_ok : ctx_ok c; rd_request : request c = r; rd_buf : mdl_buf c = None; rd_isoc : is_isoc c = negb (n =? 0);
  rd_packets : n <> 0 -> mdl_size (mdl_isoc c) = sizeof_iso_packet_descriptor * n }.

Lemma alloc_wsk_context_spec s r n : contexts_ok s -> 0 <= n < 2 ^ 28 ->
  exists b s', alloc_wsk_context sizeof_wsk_context hdr_offset s r n = Some (b, s') /\ contexts_ok s' /\
    if b : bool then exists c, used s' = c :: used s /\ ready c r n else used s' = used s.
Proof.
  intros Hs Hn. unfold alloc_wsk_context. destruct (from_lookaside_spec s Hs) as (c & s1 & -> & Hu & Hx). cbn [mbind option_bind].
  destruct c as [c|]; [|by exists false, s1]. destruct Hx as (Hc & Hb & Hh & Hf & Hi).
  destruct (prepare_packets_spec (heap s1) c n (owned s1) Hc Hn Hh) as (err & c' & h' & -> & Hc' & Hh' & [P1 P2 P3 P4] & Hq & _ & _ & Hp).
  cbn [mbind option_bind]. destruct (decide (err = STATUS_SUCCESS)) as [->|He].
  - eexists true, _. split; [done|]. split.
    + constructor; cbn [heap used idle]; [done| |done]. apply list.Forall_cons. split; [by destruct Hc'; constructor|done].
    + eexists. split; [by rewrite <- Hu|]. constructor; cbn; [by destruct Hc'; constructor|done|by rewrite P2|done|]. intros Hz. by apply (Hp eq_refl).
  - destruct (free_function_ex_spec h' c' (owned s1) Hh') as (h2 & Hfree & Hh2).
    destruct err; try done; rewrite Hfree; cbn [mbind option_bind]; eexists false, _; by split; [done|].
Qed.

Definition op_ok (o : ctx_op) : Prop :=
  match o with AllocContext _ n | PrepareIsoc _ n => 0 <= n < 2 ^ 28 | BufTail _ len => 0 <= len | _ => True end.

Lemma ctx_step_ok s o : contexts_ok s -> op_ok o -> exists s', ctx_step sizeof_wsk_context hdr_offset s o = Some s' /\ contexts_ok s'.
Proof.
  intros Hs Ho. destruct o as [r n|i n|i len|i src len|i keep]; cbn [ctx_step op_ok] in *.
  - destruct (alloc_wsk_context_spec s r n Hs Ho) as (b & s' & -> & Hs' & _). by exists s'.
  - destruct (used s !! i) as [c|] eqn:Hi; [|by exists s]. destruct (used_ok s i c Hs Hi) as (Hc & Hf & Hh).
    destruct (prepare_packets_spec _ c n _ Hc Ho Hh) as (err & c' & h' & -> & Hc' & Hh' & _). eexists. split; [done|]. by apply (update_ok s i c).
  - destruct (used s !! i) as [c|] eqn:Hi; [|by exists s]. destruct (used_ok s i c Hs Hi) as (Hc & Hf & Hh).
    destruct (lengthen_spec _ c len _ Hc Ho Hh) as (err & c' & h' & -> & Hc' & Hh' & _). eexists. split; [done|]. by apply (update_ok s i c).
  - destruct (used s !! i) as [c|] eqn:Hi; [|by exists s]. destruct (used_ok s i c Hs Hi) as (Hc & Hf & Hh).
    unfold new_partial_mdl. pose proof (new_mdl_spec _ (mdl_base src) (mdl_off src + 0) len _ Hh) as Hm.
    destruct (new_mdl (heap s) (mdl_base src) (mdl_off src + 0) len) as [m h1]. destruct Hm as [Hm _].
    set (pm := (fun m => with_flags m (nonpaged m) (locked m) true) <$> m).
    destruct (mdl_assign_spec h1 (mdl_buf c) pm
      (mdl_objects (mdl_hdr c) ++ mdl_objects (mdl_buf_tail c) ++ mdl_objects (mdl_isoc c) ++ opt_objects (wsk_irp c) IrpObject ++
       opt_objects (buf_tail c) (Pool MAXLEN) ++ opt_objects (isoc c) (Pool (sizeof_iso_packet_descriptor * isoc_alloc_cnt c)) ++
       (self c, Pool sizeof_wsk_context) :: ((delete i (used s) ++ idle s) ≫= objects))) as (h2 & -> & Hl2).
    { apply (holds_perm _ _ _ Hm). replace (mdl_objects pm) with (mdl_objects m) by (by destruct m). unfold objects. solve_Permutation. }
    eexists. split; [done|]. apply (update_ok s i c); [done|done|by destruct Hc; constructor|].
    apply (holds_perm _ _ _ Hl2). unfold objects. cbn [mdl_hdr mdl_buf mdl_buf_tail mdl_isoc wsk_irp buf_tail isoc isoc_alloc_cnt self with_buf].
    solve_Permutation.
  - destruct (used s !! i) as [c|] eqn:Hi; [|by exists s]. destruct (used_ok s i c Hs Hi) as (Hc & Hf & Hh). unfold free_wsk_context.
    destruct (mdl_reset_spec (heap s) (mdl_buf c) None (objects (with_buf c None) ++ ((delete i (used s) ++ idle s) ≫= objects)))
      as (h1 & -> & Hl1).
    { apply (holds_perm _ _ _ Hh). unfold objects. cbn [mdl_hdr mdl_buf mdl_buf_tail mdl_isoc wsk_irp buf_tail isoc isoc_alloc_cnt self with_buf mdl_objects].
      solve_Permutation. }
    cbn [mbind option_bind]. apply Forall_app in Hf as [Hfu Hfi]. destruct keep.
    + eexists. split; [done|]. constructor; cbn [heap used idle].
      * apply (holds_perm _ _ _ Hl1). unfold owned. cbn [used idle]. rewrite !bind_app. cbn [mbind list_bind]. fold (mbind objects (idle s)). solve_Permutation.
      * apply Forall_app. split; [done|]. apply list.Forall_cons. split; [by destruct Hc; constructor|done].
      * apply list.Forall_cons. split; [done|apply Hs].
    + destruct (free_function_ex_spec h1 _ _ Hl1) as (h2 & -> & Hl2). eexists. split; [done|].
      constructor; cbn [heap used idle]; [done|by apply Forall_app|apply Hs].
Qed.

Lemma delete_list_spec l h rest : holds h ((l ≫= objects) ++ rest) ->
  exists h', fold_left (fun h c => h ← h; free_function_ex h c) l (Some h) = Some h' /\ holds h' rest.
Proof.
  revert h. induction l as [|c l IH]; intros h Hl; [by exists h|]. cbn [fold_left mbind option_bind].
  rewrite bind_cons, <- app_assoc in Hl. destruct (free_function_ex_spec h c _ Hl) as (h1 & -> & Hl1). by apply IH.
Qed.

Lemma ctx_run_ok ops s : contexts_ok s -> Forall op_ok ops -> exists s', ctx_run sizeof_wsk_context hdr_offset s ops = Some s' /\ contexts_ok s'.
Proof.
  revert s. induction ops as [|o ops IH]; intros s Hs Ho; [by exists s|]. apply Forall_cons_1 in Ho as [Ho Hos]. cbn [ctx_run].
  destruct (ctx_step_ok s o Hs Ho) as (s1 & -> & Hs1). by apply IH.
Qed.

(** C27: the contexts own their memory.  Whatever allocations fail and in whatever order contexts are
    taken, prepared for packets, lengthened, given a transfer buffer and freed: nothing is freed
    twice, what is allocated is what the contexts in use and in the lookaside list own, and every MDL of a
    context describes memory of that context.  A context that is taken next, used before or not,
    is ready for its request: no transfer buffer of an earlier one, and the array of exactly the number of
    packets asked for.  When no context is in use deleting the list frees everything. *)
Theorem contexts_own_their_memory (outs : list bool) (ops : list ctx_op) (r : option Z) (n : Z) :
  Forall op_ok ops -> 0 <= n < 2 ^ 28 ->
  exists s, ctx_run sizeof_wsk_context hdr_offset {| heap := {| live := ∅; outcomes := outs |}; used := []; idle := [] |} ops = Some s /\
    map_to_list (live (heap s)) ≡ₚ owned s /\ Forall ctx_ok (used s ++ idle s) /\
    (exists b s', alloc_wsk_context sizeof_wsk_context hdr_offset s r n = Some (b, s') /\
       if b : bool then exists c, used s' = c :: used s /\ ready c r n else used s' = used s) /\
    (used s = [] -> exists h, delete_wsk_context_list s = Some h /\ live h = ∅).
Proof.
  intros Ho Hn. destruct (ctx_run_ok ops {| heap := {| live := ∅; outcomes := outs |}; used := []; idle := [] |}) as (s & Hr & Hs); [|done|].
  { constructor; [|done|done]. unfold holds, owned. cbn [heap live used idle app]. by rewrite map_to_list_empty. }
  exists s. split; [done|]. split; [apply Hs|]. split; [apply Hs|]. split.
  - destruct (alloc_wsk_context_spec s r n Hs Hn) as (b & s' & Ha & _ & Hb). by exists b, s'.
  - intros Hu. destruct Hs as [Hh _ _]. unfold owned in Hh. rewrite Hu in Hh.
    destruct (delete_list_spec (idle s) (heap s) []) as (h & Hd & Hl); [by rewrite app_nil_r|]. exists h. split; [done|].
    by apply map_to_list_empty_iff, Permutation_nil.
Qed.
End owned.

(** ** Witnesses *)

Module Demo.
(** A transfer with a buffer that is too short, then one of eight packets on the same context,
    whose array cannot be allocated at first. *)
Definition ops : list ctx_op :=
  [AllocContext (Some 1) 0;
   SetBuf 0 {| mdl_id := 1; mdl_base := 1; mdl_off := 0; mdl_len := 64; nonpaged := false; locked := true; partial := false |} 64;
   BufTail 0 100; FreeContext 0 true; AllocContext (Some 2) 8; AllocContext (Some 3) 8; FreeContext 0 true].

Definition results : list bool := [true; true; true; true; true; true; false].

Lemma contexts_own_their_memory_witness :
  exists s, ctx_run 512 64 {| heap := {| live := ∅; outcomes := results |}; used := []; idle := [] |} ops = Some s /\ used s = [] /\
    exists h, delete_wsk_context_list s = Some h /\ live h = ∅.
Proof.
  destruct (contexts_own_their_memory 512 64 results ops (Some 4) 2) as (s & Hr & _ & _ & _ & Hd); [repeat constructor; done|done|].
  exists s. split; [done|].
  assert (used s = []) as Hu.
  { assert (used <$> ctx_run 512 64 {| heap := {| live := ∅; outcomes := results |}; used := []; idle := [] |} ops = Some []) as Hx
      by (vm_compute; reflexivity).
    rewrite Hr in Hx. by injection Hx. }
  split; [done|by apply Hd].
Defined.
End Demo.
