(* ===== verification/Filter.v ===== *)
(** * The device-type filter at import

    Models drivers/ude/device_filter.cpp ([get_descriptor], [snapshot_device_descriptor],
    [check_configuration], [check_device] and the rejection record of [report_rejection]),
    the import of drivers/ude/vhci_ioctl.cpp, and [add_snapshot_descriptors] of
    drivers/ude/device.cpp, which gives the snapshot to UdeCx. *)

From Stdlib Require Import String.
From S2P Require Import Prelude Parser Policy DescPatch Proto Session.

Local Close Scope string_scope.

(** ** State *)

(** data is NULL until the configuration is published; length is a USHORT. *)
Record configuration_descriptor_snapshot : Type := { cfg_data : option (list byte); cfg_length : Z }.

(** [configurations] is [None] while the pointer is NULL. *)
Record descriptor_snapshot : Type := {
  snap_device : list byte;
  configurations : option (list configuration_descriptor_snapshot);
  configuration_count : Z;
  ready : bool }.

(** The fields of imported_device_properties and device_ctx_ext that the import uses; the speed is an enumeration, a signed number. *)
Record device_ctx_ext : Type := {
  ext_busid : list Z;
  ext_devid : Z; ext_speed : Z; ext_vendor : Z; ext_product : Z;
  ext_serial : list byte; ext_iserial : Z;
  descriptors : descriptor_snapshot }.

(** What report_rejection logs: the reason, the interface (-1 for none), the class triple. *)
Record rejection : Type := { reason : string; ifnum : Z; r_cls : Z; r_sub : Z; r_proto : Z }.

Record state (N : Type) : Type := mk_state {
  net : N; ext : device_ctx_ext; next_seqnum : Z; rejections : list rejection }.
Arguments mk_state {N} _ _ _ _.
Arguments net {N} _.
Arguments ext {N} _.
Arguments next_seqnum {N} _.
Arguments rejections {N} _.

Definition set_net {N} (n : N) (s : state N) : state N := mk_state n (ext s) (next_seqnum s) (rejections s).
Definition set_ext {N} (e : device_ctx_ext) (s : state N) : state N := mk_state (net s) e (next_seqnum s) (rejections s).
Definition set_seqnum {N} (q : Z) (s : state N) : state N := mk_state (net s) (ext s) q (rejections s).
Definition add_rejection {N} (r : rejection) (s : state N) : state N :=
  mk_state (net s) (ext s) (next_seqnum s) (rejections s ++ [r]).

Definition set_descriptors (d : descriptor_snapshot) (e : device_ctx_ext) : device_ctx_ext :=
  {| ext_busid := ext_busid e; ext_devid := ext_devid e; ext_speed := ext_speed e; ext_vendor := ext_vendor e;
     ext_product := ext_product e; ext_serial := ext_serial e; ext_iserial := ext_iserial e; descriptors := d |}.

Definition set_iserial (i : Z) (e : device_ctx_ext) : device_ctx_ext :=
  {| ext_busid := ext_busid e; ext_devid := ext_devid e; ext_speed := ext_speed e; ext_vendor := ext_vendor e;
     ext_product := ext_product e; ext_serial := ext_serial e; ext_iserial := i; descriptors := descriptors e |}.

Definition set_identity (devid speed vendor product : Z) (e : device_ctx_ext) : device_ctx_ext :=
  {| ext_busid := ext_busid e; ext_devid := devid; ext_speed := speed; ext_vendor := vendor;
     ext_product := product; ext_serial := ext_serial e; ext_iserial := ext_iserial e; descriptors := descriptors e |}.

Definition descriptor_error_reason (e : descriptor_error) : string :=
  match e with
  | none => "valid"%string
  | configuration_header_too_short => "configuration descriptor header too short"%string
  | invalid_configuration_header => "invalid configuration descriptor header"%string
  | total_length_mismatch => "configuration wTotalLength mismatch"%string
  | descriptor_header_truncated => "trailing partial descriptor header"%string
  | invalid_descriptor_length => "invalid descriptor length"%string
  | invalid_interface_descriptor => "short interface descriptor"%string
  | invalid_endpoint_descriptor => "short endpoint descriptor"%string
  | no_interfaces => "configuration has no interfaces"%string
  | interface_count_mismatch => "bNumInterfaces does not match descriptors"%string
  | interface_not_allowed => "interface class not in whitelist"%string
  end.

(** ** USB_DEVICE_DESCRIPTOR and the header of a configuration *)

Definition sizeof_device_descriptor : Z := 18.
Definition USB_DEVICE_DESCRIPTOR_TYPE : Z := 1.

Definition is_valid_device (d : list byte) : bool :=
  (uint 0 1 d =? sizeof_device_descriptor) && (uint 1 1 d =? USB_DEVICE_DESCRIPTOR_TYPE).

Definition is_valid_configuration (d : list byte) : bool :=
  (uint 0 1 d =? 9) && (uint 1 1 d =? configuration_descriptor_type) && (uint 0 1 d <? uint 2 2 d).

(** The seven comparisons of snapshot_device_descriptor. *)
Definition identity_consistent (d : list byte) (u : usbip_usb_device) : bool :=
  (uint 8 2 d =? idVendor u) && (uint 10 2 d =? idProduct u) && (uint 12 2 d =? bcdDevice u) &&
  (uint 4 1 d =? bDeviceClass u) && (uint 5 1 d =? bDeviceSubClass u) && (uint 6 1 d =? bDeviceProtocol u) &&
  (uint 17 1 d =? bNumConfigurations u).

(** ** The filter *)

Section filter.
Context {N : Type} `{Net N}.
Context (USBD_ParseDescriptors : list byte -> Z -> nat -> Z -> option nat).

Local Abbreviation M := (io (state N)).

Definition m_send (data : list byte) : M unit := fun s =>
  let '(st, n) := send (net s) data in Some (of_status st, set_net n s).

Definition m_recv (len : Z) : M (list byte) := fun s =>
  let '(st, data, n) := recv (net s) len in
  Some (match st with STATUS_SUCCESS => Ok data | e => Err e end, set_net n s).

Definition m_alloc (len : Z) : M bool := fun s =>
  let '(b, n) := net_alloc (net s) len in Some (Ok b, set_net n s).

(** [return seqnum++;] *)
Definition take_seqnum : M Z := fun s => Some (Ok (next_seqnum s), set_seqnum (u32 (next_seqnum s + 1)) s).

(** report_rejection, then [return USBIP_ERROR_DEVICE_FILTERED;] *)
Definition reject {A} (why : string) (i c u p : Z) : M A :=
  io_modify (add_rejection {| reason := why; ifnum := i; r_cls := c; r_sub := u; r_proto := p |}) ;;
  io_throw USBIP_ERROR_DEVICE_FILTERED.

Definition get_descriptor_request (seqnum devid type index len : Z) : header :=
  {| command := CMD_SUBMIT; seqnum := seqnum; devid := devid; direction := dir_in; ep := 0;
     w0 := 0; w1 := len; w2 := 0; w3 := u32 number_of_packets_non_isoch; w4 := 0;
     setup := [z2b 0x80; z2b 0x06; z2b index; z2b type; x00; x00; z2b len; z2b (Z.shiftr len 8)] |}.

(** The buffer after the call, and [actual]. *)
Definition get_descriptor (type index : Z) (buf : list byte) (len : Z) : M (list byte * Z) :=
  seqnum ← take_seqnum;
  st ← io_get;
  m_send (header_bytes (byteswap_header
    (get_descriptor_request seqnum (ext_devid (ext st)) type index len) host2net)) ;;
  rep ← m_recv (Z.of_nat sizeof_header);
  let rep := byteswap_header (header_of_bytes rep) net2host in
  if negb (command rep =? RET_SUBMIT) then io_throw USBIP_ERROR_PROTOCOL
  else if negb (rs_status rep =? 0) then io_throw USBIP_ERROR_GENERAL
  else
    let n := rs_actual_length rep in
    if (n <? 0) || (len <? u32 n) then io_throw USBIP_ERROR_PROTOCOL
    else
      buf ← (if negb (n =? 0) then data ← m_recv n; mret (data ++ drop (Z.to_nat n) buf) else mret buf);
      mret (buf, u16 n).

Definition snapshot_device_descriptor (udev : usbip_usb_device) : M unit :=
  r ← io_try (get_descriptor USB_DEVICE_DESCRIPTOR_TYPE 0 (replicate 18 x00) sizeof_device_descriptor);
  match r with
  | Err _ => reject "device descriptor fetch failed"%string (-1) 0 0 0
  | Ok (device, actual) =>
      if negb (actual =? sizeof_device_descriptor) || negb (is_valid_device device) then
        reject "invalid device descriptor"%string (-1) 0 0 0
      else if negb (identity_consistent device udev) then
        reject "device descriptor differs from import identity"%string (-1)
               (uint 4 1 device) (uint 5 1 device) (uint 6 1 device)
      else
        st ← io_get;
        device ← (if negb (uint 0 1 (ext_serial (ext st)) =? 0) then
                    let device := if uint 16 1 device =? 0 then <[16%nat := xff]> device else device in
                    io_modify (fun s => set_ext (set_iserial (uint 16 1 device) (ext s)) s) ;;
                    mret device
                  else mret device);
        io_modify (fun s =>
          let d := descriptors (ext s) in
          set_ext (set_descriptors {| snap_device := device; configurations := configurations d;
                                      configuration_count := configuration_count d; ready := ready d |}
                                   (ext s)) s)
  end.

Definition MAX_CONFIG_DESCRIPTOR_SIZE : Z := 0xFFFF.

Definition check_configuration (p : policy) (cfg_index : Z) : M configuration_descriptor_snapshot :=
  r ← io_try (get_descriptor configuration_descriptor_type cfg_index (replicate 9 x00) 9);
  match r with
  | Err _ => reject "config descriptor header fetch failed"%string (-1) 0 0 0
  | Ok (head, got) =>
      if (got <? 9) || negb (is_valid_configuration head) then
        reject "invalid config descriptor"%string (-1) 0 0 0
      else
        let total := uint 2 2 head in
        if (total <? 9) || (MAX_CONFIG_DESCRIPTOR_SIZE <? total) then
          reject "bad config wTotalLength"%string (-1) 0 0 0
        else
          mem ← m_alloc total;
          if negb mem then reject "out of memory for config descriptor"%string (-1) 0 0 0
          else
            r ← io_try (get_descriptor configuration_descriptor_type cfg_index
                          (replicate (Z.to_nat total) x00) (u16 total));
            match r with
            | Err _ => reject "full config descriptor fetch failed"%string (-1) 0 0 0
            | Ok (buf, full) =>
                if full <? total then reject "short config descriptor"%string (-1) 0 0 0
                else
                  result ← io_opt (evaluate_configuration {| data := Some buf; size := Z.to_nat full |}
                             (fun i => is_allowed p (cls i) (subcls i) (protocol i)));
                  if negb (result_ok result) then
                    let bad := offending_interface result in
                    let is_iface := bool_decide (error result = interface_not_allowed) in
                    reject (descriptor_error_reason (error result))
                      (if is_iface then number bad else -1) (if is_iface then cls bad else 0)
                      (if is_iface then subcls bad else 0) (if is_iface then protocol bad else 0)
                  else
                    st ← io_get;
                    buf ← io_opt (patch_configuration_for_udecx USBD_ParseDescriptors buf (ext_speed (ext st)));
                    mret {| cfg_data := Some buf; cfg_length := full |}
            end
  end.

(** snapshot.configurations[i] = ... *)
Definition set_configuration (i : nat) (c : configuration_descriptor_snapshot) : M unit :=
  io_modify (fun s =>
    let d := descriptors (ext s) in
    set_ext (set_descriptors {| snap_device := snap_device d;
                                configurations := (fun cs => <[i := c]> cs) <$> configurations d;
                                configuration_count := configuration_count d; ready := ready d |} (ext s)) s).

(** [for (UINT8 i = 0; i < snapshot.configuration_count; ++i)]: [n] configurations left. *)
Fixpoint check_configurations (p : policy) (i n : nat) : M unit :=
  match n with
  | O => mret tt
  | S n => c ← check_configuration p (Z.of_nat i); set_configuration i c ;; check_configurations p (S i) n
  end.

Definition sizeof_configuration_snapshot : Z := 16.

Definition set_configurations (n : Z) : M unit :=
  io_modify (fun s =>
    let d := descriptors (ext s) in
    set_ext (set_descriptors {| snap_device := snap_device d;
                                configurations := Some (replicate (Z.to_nat n) {| cfg_data := None; cfg_length := 0 |});
                                configuration_count := n; ready := ready d |} (ext s)) s).

Definition set_ready : M unit :=
  io_modify (fun s =>
    let d := descriptors (ext s) in
    set_ext (set_descriptors {| snap_device := snap_device d; configurations := configurations d;
                                configuration_count := configuration_count d; ready := true |} (ext s)) s).

(** check_device after [load(p)], up to the publication of the snapshot. *)
Definition take_snapshot (p : policy) (udev : usbip_usb_device) : M unit :=
  allowed ← (if negb (bDeviceClass udev =? 0) && negb (bDeviceClass udev =? 0xEF)
             then io_opt (is_allowed p (bDeviceClass udev) (bDeviceSubClass udev) (bDeviceProtocol udev))
             else mret true);
  if negb allowed then
    reject "device class not in whitelist"%string (-1) (bDeviceClass udev) (bDeviceSubClass udev) (bDeviceProtocol udev)
  else if bNumConfigurations udev =? 0 then reject "device reports no configurations"%string (-1) 0 0 0
  else
    io_modify (set_seqnum 1) ;;
    snapshot_device_descriptor udev ;;
    mem ← m_alloc (sizeof_configuration_snapshot * bNumConfigurations udev);
    if negb mem then reject "out of memory for descriptor snapshot"%string (-1) 0 0 0
    else
      set_configurations (bNumConfigurations udev) ;;
      check_configurations p 0 (Z.to_nat (bNumConfigurations udev)).

Definition check_device (p : policy) (udev : usbip_usb_device) : M unit :=
  take_snapshot p udev ;; set_ready.

(** ** import_remote_device *)

Context (unicode_to_utf8 : nat -> list Z -> ntstatus * list byte).
Context {R : Type} `{Registry R} (reg : R) (stack : list byte).

Definition import_remote_device : M unit :=
  st ← io_get;
  let '(err, n) := send_req_import unicode_to_utf8 (net st) (ext_busid (ext st)) in
  io_modify (set_net n) ;;
  io_res (of_status err) ;;
  let '(r, n) := recv_rep_import unicode_to_utf8 n (ext_busid (ext st)) in
  io_modify (set_net n) ;;
  udev ← io_res r;
  io_modify (fun s => set_ext (set_identity (make_devid (busnum udev) (devnum udev)) (s32 (udev_speed udev))
                                            (idVendor udev) (idProduct udev) (ext s)) s) ;;
  check_device (load reg stack) udev.
End filter.

(** ** Registration with UdeCx (device.cpp)

    The descriptors given to UdeCx, in order: the device descriptor, then each
    configuration with its index. *)
Inductive udecx_descriptor : Type :=
| AddDescriptor (bytes : list byte)
| AddDescriptorWithIndex (bytes : list byte) (index : Z).

(** [udecx] is UdeCx's answer to an addition; the additions made so far and the status. *)
Fixpoint add_configurations (udecx : udecx_descriptor -> ntstatus) (cs : list configuration_descriptor_snapshot)
    (i n : nat) (added : list udecx_descriptor) : option (ntstatus * list udecx_descriptor) :=
  match n with
  | O => Some (STATUS_SUCCESS, added)
  | S n =>
      config ← cs !! i;
      match cfg_data config with
      | Some bytes =>
          if cfg_length config =? 0 then Some (STATUS_INVALID_DEVICE_STATE, added)
          else
            bytes ← bytes_at 0 (Z.to_nat (cfg_length config)) bytes;
            let d := AddDescriptorWithIndex bytes (Z.of_nat i) in
            match udecx d with
            | STATUS_SUCCESS => add_configurations udecx cs (S i) n (added ++ [d])
            | err => Some (err, added)
            end
      | None => Some (STATUS_INVALID_DEVICE_STATE, added)
      end
  end.

Definition add_snapshot_descriptors (udecx : udecx_descriptor -> ntstatus) (s : descriptor_snapshot)
    : option (ntstatus * list udecx_descriptor) :=
  if negb (ready s) then Some (STATUS_SUCCESS, [])
  else
    let d := AddDescriptor (snap_device s) in
    match udecx d with
    | STATUS_SUCCESS =>
        add_configurations udecx (default [] (configurations s)) 0 (Z.to_nat (configuration_count s)) [d]
    | err => Some (err, [])
    end.

(** ** Lemmas *)

(** The class tuples a policy admits, as the parser's callback sees them. *)
Definition tuple_admitted (p : policy) (i : interface_class) : Prop :=
  policy_admits p (cls i) (subcls i) (protocol i).

Lemma valid_configuration_ext (P Q : interface_class -> Prop) bs :
  (forall i, P i <-> Q i) -> valid_configuration P bs -> valid_configuration Q bs.
Proof.
  intros HPQ [H1 H2 (ds & n & Hc & Hf & Ha & Hrest)]. split; [done|done|].
  exists ds, n. split; [done|]. split; [done|]. split; [|done].
  rewrite List.Forall_forall in *. intros d Hd Hi. destruct (Ha d Hd Hi) as (i & ? & ?).
  exists i. split; [done|]. by apply HPQ.
Qed.

(** The parser with the policy's callback decides validity under the policy. *)
Lemma evaluate_with_policy p bs : policy_sane p ->
  exists r, evaluate_configuration {| data := Some bs; size := length bs |}
              (fun i => is_allowed p (cls i) (subcls i) (protocol i)) = Some r /\
    (result_ok r = true <-> valid_configuration (tuple_admitted p) bs).
Proof.
  intros Hp. set (allowedb i := default false (is_allowed p (cls i) (subcls i) (protocol i))).
  assert (forall i, is_allowed p (cls i) (subcls i) (protocol i) = Some (allowedb i) /\
                    (allowedb i = true <-> tuple_admitted p i)) as Hal.
  { intros i. destruct (is_allowed_sane p (cls i) (subcls i) (protocol i) Hp) as (b & Hb & Hi).
    unfold allowedb. by rewrite Hb. }
  destruct (evaluate_exact bs (fun i => is_allowed p (cls i) (subcls i) (protocol i)) allowedb) as (r & Hr & Hv);
    [intros i; apply Hal|].
  exists r. split; [done|]. unfold result_ok. rewrite bool_decide_eq_true, Hv.
  split; apply valid_configuration_ext; intros i; [|symmetry]; apply Hal.
Qed.

(** What the import knows of an accepted configuration. *)
Definition accepted_configuration (p : policy) (c : configuration_descriptor_snapshot) : Prop :=
  exists bytes, cfg_data c = Some bytes /\ cfg_length c = Z.of_nat (length bytes) /\
    is_u16 (cfg_length c) /\ valid_configuration (tuple_admitted p) bytes.

Lemma bytes_at_all (p : list byte) : bytes_at 0 (length p) p = Some p.
Proof. unfold bytes_at. rewrite decide_True by lia. by rewrite drop_0, firstn_all. Qed.

Lemma uint_u16 bs off : is_u16 (uint off 2 bs).
Proof. exact (uint_range off 2 bs). Qed.

Lemma uint_u8 bs off : is_u8 (uint off 1 bs).
Proof. exact (uint_range off 1 bs). Qed.

(** ** Specification: a device as the server has described it *)

(** The device descriptor [device] and the record [reply] of OP_REP_IMPORT, whose fields are in network order, are of the same device:
    idVendor, idProduct, bcdDevice, the class triple and bNumConfigurations; and the descriptor has its length and its type. *)
Record same_identity (reply device : list byte) : Prop := {
  si_descriptor : take 2 device = [x12; x01];
  si_vendor : take 2 (drop 8 device) = rev (take 2 (drop 300 reply));
  si_product : take 2 (drop 10 device) = rev (take 2 (drop 302 reply));
  si_release : take 2 (drop 12 device) = rev (take 2 (drop 304 reply));
  si_class : take 3 (drop 4 device) = take 3 (drop 306 reply);
  si_configurations : drop 17 device = take 1 (drop 310 reply) }.

(** The class of the record may be used: it is left to the interfaces, or the policy admits it. *)
Definition class_allowed (p : policy) (reply : list byte) : Prop :=
  exists cls sub proto, take 3 (drop 306 reply) = [cls; sub; proto] /\ (cls = x00 \/ cls = xef \/ policy_admits p (b2z cls) (b2z sub) (b2z proto)).

(** The answers with the header of a configuration and with the whole of it, which is [bytes]. *)
Definition fetched (answers bytes : list byte) : Prop :=
  exists h1 head h2, answers = h1 ++ head ++ h2 ++ bytes /\ length h1 = 48%nat /\ length head = 9%nat /\ length h2 = 48%nat.

(** The driver's own serial number gives a device that has none an index for its string. *)
Definition with_serial (serial device : list byte) : list byte :=
  match serial !! 0%nat, device !! 16%nat with
  | None, _ | Some x00, _ => device
  | _, Some x00 => <[16%nat := xff]> device
  | _, _ => device
  end.

Section received.
Context {N : Type} `{Net N} (parse : list byte -> Z -> nat -> Z -> option nat).

(** A configuration is published as it was received and adapted for UdeCx, and only if all of its interfaces are allowed. *)
Definition published (p : policy) (speed : Z) (answers : list byte) (c : configuration_descriptor_snapshot) : Prop :=
  exists bytes patched, fetched answers bytes /\ valid_configuration (tuple_admitted p) bytes /\
    patch_configuration_for_udecx parse bytes speed = Some patched /\ c = {| cfg_data := Some patched; cfg_length := Z.of_nat (length bytes) |}.

(** What the driver has received between two states, and what it has published of it. *)
Record import_allowed (p : policy) (s s' : state N) (reply : list byte) : Prop := {
  ia_length : length reply = 312%nat;
  ia_class : class_allowed p reply;
  ia_descriptors : exists h device answers cs,
    received (net s) (wire_op_common USBIP_VERSION OP_REP_IMPORT 0 ++ reply ++ h ++ device ++ concat answers) (net s') /\
    length h = 48%nat /\ length device = 18%nat /\ same_identity reply device /\ answers <> [] /\
    take 1 (drop 310 reply) = [z2b (Z.of_nat (length answers))] /\
    ext_speed (ext s') = s32 (be_val (take 4 (drop 296 reply))) /\
    descriptors (ext s') = {| snap_device := with_serial (ext_serial (ext s)) device; configurations := Some cs;
                              configuration_count := Z.of_nat (length answers); ready := true |} /\
    Forall2 (published p (ext_speed (ext s'))) answers cs }.
End received.

(** Two bytes that the code compares as numbers. *)
Lemma uint_swapped off off' (d r : list byte) : (off + 2 <= length d)%nat -> (off' + 2 <= length r)%nat ->
  uint off 2 d = bswap16 (uint off' 2 r) -> take 2 (drop off d) = rev (take 2 (drop off' r)).
Proof.
  intros Hd Hr He. rewrite <- !uint_image by done. rewrite He, le_bytes_bswap16. done.
Qed.

Lemma uint_same off off' (d r : list byte) : (off + 1 <= length d)%nat -> (off' + 1 <= length r)%nat ->
  uint off 1 d = uint off' 1 r -> take 1 (drop off d) = take 1 (drop off' r).
Proof. intros Hd Hr He. rewrite <- !uint_image by done. by rewrite He. Qed.

(** The comparisons of the code are those of the specification. *)
Lemma identity_consistent_same reply device : length reply = 312%nat -> length device = 18%nat -> is_valid_device device = true ->
  identity_consistent device (byteswap_usb_device (usb_device_of_bytes reply)) = true -> same_identity reply device.
Proof.
  intros Hr Hd Hv Hi. unfold is_valid_device, sizeof_device_descriptor, USB_DEVICE_DESCRIPTOR_TYPE in Hv. unfold identity_consistent in Hi.
  cbn [idVendor idProduct bcdDevice bDeviceClass bDeviceSubClass bDeviceProtocol bNumConfigurations byteswap_usb_device usb_device_of_bytes] in Hi.
  bool_prop. repeat match goal with H : (_ =? _) = true |- _ => apply Z.eqb_eq in H end.
  assert (forall off b, (off < 18)%nat -> uint off 1 device = b -> take 1 (drop off device) = [z2b b]) as Hb.
  { intros off b Ho <-. rewrite <- uint_image by lia. done. }
  assert (forall (l : list byte) off n, take (S n) (drop off l) = take 1 (drop off l) ++ take n (drop (S off) l)) as Hsplit.
  { intros l off n. assert (drop (S off) l = drop 1 (drop off l)) as -> by (rewrite drop_drop; f_equal; lia). destruct (drop off l); [by rewrite drop_nil, !take_nil|done]. }
  split.
  - rewrite <- (drop_0 device), (Hsplit _ 0%nat 1%nat), (Hb 0%nat 18), (Hb 1%nat 1) by (done || lia). done.
  - apply uint_swapped; [lia|lia|done].
  - apply uint_swapped; [lia|lia|done].
  - apply uint_swapped; [lia|lia|done].
  - rewrite (Hsplit device 4%nat 2%nat), (Hsplit reply 306%nat 2%nat), (Hsplit device 5%nat 1%nat), (Hsplit reply 307%nat 1%nat).
    f_equal; [|f_equal]; apply uint_same; (lia || done).
  - rewrite <- (take_ge (drop 17 device) 1) by (rewrite length_drop; lia). apply uint_same; (lia || done).
Qed.

Section lemmas.
Context {N : Type} `{Net N} (parse : list byte -> Z -> nat -> Z -> option nat) `{!ParseDescriptors parse}.

(** [s'] differs from [s] in the network and the sequence number only. *)
Definition same_but_net (s s' : state N) : Prop := ext s' = ext s /\ rejections s' = rejections s.

Lemma m_recv_spec len (s : state N) : 0 <= len ->
  exists r s', m_recv len s = Some (r, s') /\ same_but_net s s' /\
    forall data, r = Ok data -> Z.of_nat (length data) = len /\ received (net s) data (net s').
Proof.
  intros Hl. unfold m_recv. destruct (recv (net s) len) as [[st data] n] eqn:E.
  eexists _, _. split; [reflexivity|]. split; [done|]. intros d Hd.
  destruct st; try discriminate. injection Hd as <-. split; [by apply recv_success in E|by apply recv_received in E].
Qed.

Lemma get_descriptor_spec type index buf len (s : state N) :
  Z.of_nat (length buf) = len -> is_u16 len ->
  exists r s', get_descriptor type index buf len s = Some (r, s') /\ same_but_net s s' /\
    forall buf' actual, r = Ok (buf', actual) -> length buf' = length buf /\ 0 <= actual <= len /\
      exists h bs, received (net s) (h ++ bs) (net s') /\ length h = 48%nat /\ Z.of_nat (length bs) = actual /\ buf' = bs ++ drop (length bs) buf.
Proof.
  intros Hb Hl. unfold is_u16 in Hl. unfold get_descriptor.
  rewrite (io_bind_step take_seqnum _ _ _ _ eq_refl). cbv beta.
  rewrite (io_bind_step io_get _ _ _ _ eq_refl). cbv beta.
  set (s1 := set_seqnum _ s).
  match goal with |- context [m_send ?d] => generalize d; intros req end.
  unfold m_send at 1, mbind at 1, io_bind at 1. destruct (send (net s1) req) as [st n1] eqn:Esend. apply send_received in Esend.
  destruct (of_status st) as [[]|e]; [|eexists _, _; split; [done|]; split; [done|intros; discriminate]].
  destruct (m_recv_spec (Z.of_nat sizeof_header) (set_net n1 s1)) as (r & s2 & Er & Hs2 & Hr); [lia|].
  destruct r as [rep|e]; [specialize (Hr _ eq_refl) as [Hlrep Hrecr]; rewrite (io_bind_step _ _ _ _ _ Er); cbv beta|
    rewrite (io_bind_stop _ _ _ _ _ Er); eexists _, _; split; [done|]; split; [done|intros; discriminate]].
  set (h := byteswap_header (header_of_bytes rep) net2host).
  destruct (negb (command h =? RET_SUBMIT));
    [eexists _, _; split; [done|]; split; [done|intros; discriminate]|].
  destruct (negb (rs_status h =? 0));
    [eexists _, _; split; [done|]; split; [done|intros; discriminate]|].
  destruct ((rs_actual_length h <? 0) || (len <? u32 (rs_actual_length h))) eqn:En;
    [eexists _, _; split; [done|]; split; [done|intros; discriminate]|].
  assert (0 <= rs_actual_length h <= len) as Hn.
  { unfold rs_actual_length in *. pose proof (s32_range (w1 h)) as Hr32. unfold is_s32 in Hr32.
    bool_prop. unfold u32 in *. rewrite Z.mod_small in * by lia. lia. }
  assert (u16 (rs_actual_length h) = rs_actual_length h) as Hu by (apply u16_id; unfold is_u16; lia).
  destruct (Z.eqb_spec (rs_actual_length h) 0) as [E0|E0]; cbn [negb].
  - eexists _, _. split; [reflexivity|]. split; [done|]. intros b' a' Heq. injection Heq as <- <-. split; [done|]. split; [lia|].
    exists rep, []. rewrite app_nil_r, drop_0. split; [by eapply (received_app _ []); [exact Esend|]|]. split; [exact (Nat2Z.inj _ _ Hlrep)|]. split; [by rewrite E0|done].
  - destruct (m_recv_spec (rs_actual_length h) s2) as (r & s3 & Er3 & Hs3 & Hr3); [lia|].
    assert (same_but_net s s3) as Hs by (destruct Hs2 as [A B], Hs3 as [C D]; split; [rewrite C; exact A|rewrite D; exact B]).
    destruct r as [data|e]; unfold mbind at 1 2, io_bind at 1 2; rewrite Er3;
      (eexists _, _; split; [reflexivity|]; split; [exact Hs|]; intros b' a' Heq); [|discriminate].
    injection Heq as <- <-. specialize (Hr3 _ eq_refl) as [Hr3 Hrec3]. rewrite length_app, length_drop. split; [lia|]. split; [lia|].
    exists rep, data. split; [by eapply (received_app _ []); [exact Esend|]; eapply received_app|]. split; [exact (Nat2Z.inj _ _ Hlrep)|].
    split; [lia|]. replace (Z.to_nat (rs_actual_length h)) with (length data) by lia. done.
Qed.

(** An operation of the filter ends; when it fails, the status is the filter's and one
    rejection was logged. *)
Definition filter_outcome {A} (s : state N) (out : option (res A * state N)) (good : A -> state N -> Prop) : Prop :=
  exists r s', out = Some (r, s') /\ ready (descriptors (ext s')) = ready (descriptors (ext s)) /\
    match r with
    | Ok a => rejections s' = rejections s /\ good a s'
    | Err e => e = USBIP_ERROR_DEVICE_FILTERED /\ exists why, rejections s' = rejections s ++ [why]
    end.

Lemma reject_outcome {A} why i c u q (s s0 : state N) (good : A -> state N -> Prop) : same_but_net s0 s ->
  filter_outcome s0 (reject why i c u q s) good.
Proof.
  intros [He Hr]. eexists _, _. split; [reflexivity|]. simpl. rewrite He, Hr. eauto.
Qed.

(** Running a step that leaves the filter's state alone, then the rest. *)
Lemma io_try_bind {A B} (m : io (state N) A) (f : res A -> io (state N) B) (s : state N) r s1 :
  m s = Some (r, s1) -> (io_try m ≫= f) s = f r s1.
Proof. intros Hm. apply io_bind_step. unfold io_try. by rewrite Hm. Qed.

Lemma outcome_same {A} (s s1 : state N) out (good : A -> state N -> Prop) :
  same_but_net s s1 -> filter_outcome s1 out good -> filter_outcome s out good.
Proof. intros [He Hr] (r & s' & ? & Hready & Ho). exists r, s'. rewrite <- He, <- Hr. done. Qed.

(** The device descriptor the snapshot keeps. *)
Definition accepted_device (u : usbip_usb_device) (d : list byte) : Prop :=
  length d = 18%nat /\ is_valid_device d = true /\ identity_consistent d u = true.

Lemma length_eq_18 (d : list byte) : length d = 18%nat ->
  exists a0 a1 a2 a3 a4 a5 a6 a7 a8 a9 b0 b1 b2 b3 b4 b5 b6 b7,
    d = [a0; a1; a2; a3; a4; a5; a6; a7; a8; a9; b0; b1; b2; b3; b4; b5; b6; b7].
Proof.
  intros Hl. do 18 (destruct d as [|? d]; [discriminate Hl|]). destruct d; [|discriminate Hl]. eauto 20.
Qed.

Lemma accepted_device_serial u d b : accepted_device u d -> accepted_device u (<[16%nat := b]> d).
Proof.
  intros (Hl & Hv & Hi). destruct (length_eq_18 d Hl) as (a0&a1&a2&a3&a4&a5&a6&a7&a8&a9&b0&b1&b2&b3&b4&b5&b6&b7&->).
  split; [done|]. split; [exact Hv|exact Hi].
Qed.

Lemma uint_byte off (bs : list byte) : uint off 1 bs = b2z (default x00 (bs !! off)).
Proof.
  unfold uint. destruct (bs !! off) as [b|] eqn:E; cbn [default from_option].
  - rewrite (drop_S _ _ _ E). rewrite firstn_cons, firstn_O. change (b2z b + 256 * 0 = b2z b). lia.
  - apply lookup_ge_None in E. by rewrite drop_ge.
Qed.

Lemma b2z_zero b : (b2z b =? 0) = bool_decide (b = x00).
Proof. by destruct b. Qed.

Lemma with_serial_code (serial device : list byte) : length device = 18%nat ->
  (if negb (uint 0 1 serial =? 0) then if uint 16 1 device =? 0 then <[16%nat := xff]> device else device else device) = with_serial serial device.
Proof.
  intros Hl. rewrite !uint_byte, !b2z_zero. unfold with_serial. destruct (lookup_lt_is_Some_2 device 16) as [b Hb]; [lia|]. rewrite Hb.
  destruct (serial !! 0%nat) as [c|]; [|done]. cbn [default from_option]. unfold id. by destruct c, b.
Qed.

(** What is kept of the device descriptor that was received. *)
Definition device_received (u : usbip_usb_device) (serial : list byte) (n : N) (n' : N) (kept : list byte) : Prop :=
  exists h device, received n (h ++ device) n' /\ length h = 48%nat /\ length device = 18%nat /\
    is_valid_device device = true /\ identity_consistent device u = true /\ kept = with_serial serial device.

Lemma with_serial_accepted serial u device : accepted_device u device -> accepted_device u (with_serial serial device).
Proof.
  intros Ha. unfold with_serial. destruct (serial !! 0%nat) as [[]|]; try done;
    (destruct (device !! 16%nat) as [[]|]; try done; by apply accepted_device_serial).
Qed.

Lemma device_received_accepted u serial n n' kept : device_received u serial n n' kept -> accepted_device u kept.
Proof. intros (h & device & _ & _ & Hl & Hv & Hi & ->). by apply with_serial_accepted. Qed.

Lemma snapshot_device_descriptor_spec u (s : state N) :
  filter_outcome s (snapshot_device_descriptor u s)
    (fun _ s' => device_received u (ext_serial (ext s)) (net s) (net s') (snap_device (descriptors (ext s'))) /\ ext_speed (ext s') = ext_speed (ext s)).
Proof.
  unfold snapshot_device_descriptor.
  destruct (get_descriptor_spec USB_DEVICE_DESCRIPTOR_TYPE 0 (replicate 18 x00) sizeof_device_descriptor s)
    as (r & s1 & Hg & Hs1 & Hr); [done|done|].
  rewrite (io_try_bind _ _ _ _ _ Hg). destruct r as [[device actual]|e]; [|by apply reject_outcome].
  specialize (Hr _ _ eq_refl) as (Hl & _ & h & bs & Hrec & Hh & Hact & Hbuf).
  destruct (negb (actual =? sizeof_device_descriptor) || negb (is_valid_device device)) eqn:E1;
    [by apply reject_outcome|].
  destruct (identity_consistent device u) eqn:E2; [|by apply reject_outcome]. cbn [negb].
  unfold sizeof_device_descriptor in E1. bool_prop. destruct (Z.eqb_spec actual 18) as [Ha|]; [|done].
  assert (length bs = 18%nat) as Hbs by lia. assert (device = bs) as -> by (rewrite Hbuf, Hbs; cbn; by rewrite app_nil_r).
  assert (is_valid_device bs = true) as Hv by (by destruct (is_valid_device bs)).
  assert (forall s', net s' = net s1 -> device_received u (ext_serial (ext s)) (net s) (net s') (with_serial (ext_serial (ext s)) bs)) as Hd.
  { intros s' ->. by exists h, bs. }
  apply (outcome_same _ _ _ _ Hs1). destruct Hs1 as [He1 _].
  rewrite (io_bind_step io_get _ _ _ _ eq_refl). cbv beta. rewrite <- He1 in *.
  pose proof (with_serial_code (ext_serial (ext s1)) bs Hbs) as Hcode.
  destruct (negb (uint 0 1 (ext_serial (ext s1)) =? 0)); eexists _, _; (split; [reflexivity|]);
    (split; [done|]); (split; [done|]); cbn; rewrite Hcode; (split; [by apply Hd|done]).
Qed.

Lemma m_alloc_spec len (s : state N) : exists b s1, m_alloc len s = Some (Ok b, s1) /\ same_but_net s s1 /\ received (net s) [] (net s1).
Proof.
  unfold m_alloc. destruct (net_alloc (net s) len) as [b n] eqn:E. eexists _, _. split; [done|]. split; [done|].
  eapply received_alloc; [exact E|apply received_none].
Qed.

Lemma check_configuration_spec p i (s : state N) : policy_sane p ->
  filter_outcome s (check_configuration parse p i s)
    (fun c s' => accepted_configuration p c /\ ext s' = ext s /\
       exists answers, received (net s) answers (net s') /\ published parse p (ext_speed (ext s)) answers c).
Proof.
  intros Hp. unfold check_configuration.
  destruct (get_descriptor_spec configuration_descriptor_type i (replicate 9 x00) 9 s)
    as (r & s1 & Hg & Hs1 & Hr1); [done|done|].
  rewrite (io_try_bind _ _ _ _ _ Hg). destruct r as [[head got]|e]; [|by apply reject_outcome].
  specialize (Hr1 _ _ eq_refl) as (_ & Hgot & h1 & bs1 & Hrec1 & Hh1 & Hbs1 & _).
  destruct ((got <? 9) || _) eqn:Eg; [by apply reject_outcome|]. apply orb_false_iff in Eg as [Eg _].
  destruct ((uint 2 2 head <? 9) || _) eqn:Et; [by apply reject_outcome|]. bool_prop.
  destruct (m_alloc_spec (uint 2 2 head) s1) as (mem & s2 & Hm & Hs2 & Hrec2). rewrite (io_bind_step _ _ _ _ _ Hm). cbv beta.
  assert (same_but_net s s2) as Hs by (destruct Hs1 as [A B], Hs2 as [C D]; split; congruence).
  destruct mem; [|by apply reject_outcome]. cbn [negb].
  pose proof (uint_u16 head 2) as Hu. set (total := uint 2 2 head) in *.
  destruct (get_descriptor_spec configuration_descriptor_type i (replicate (Z.to_nat total) x00) (u16 total) s2)
    as (r & s3 & Hg3 & Hs3 & Hr3); [rewrite length_replicate, u16_id by done; lia|apply u16_range|].
  rewrite (io_try_bind _ _ _ _ _ Hg3). assert (same_but_net s s3) as Hs' by (destruct Hs as [A B], Hs3 as [C D]; split; congruence).
  destruct r as [[buf full]|e]; [|by apply reject_outcome].
  specialize (Hr3 _ _ eq_refl) as (Hl & Hf & h2 & bs & Hrec3 & Hh2 & Hbs & Hbuf). rewrite length_replicate in Hl. rewrite u16_id in Hf by done.
  destruct (Z.ltb_spec full total) as [|Hft]; [by apply reject_outcome|].
  assert (full = Z.of_nat (length buf)) as Hfull by (rewrite Hl; lia). rewrite Hfull, Nat2Z.id.
  assert (bs = buf) as ->. { rewrite Hbuf, drop_ge by (rewrite length_replicate; lia). by rewrite app_nil_r. }
  destruct (evaluate_with_policy p buf Hp) as (r & Hr & Hok). 
  rewrite (io_opt_bind _ _ _ _ Hr). cbv beta. destruct (result_ok r) eqn:Eok; [|by apply reject_outcome]. cbn [negb].
  specialize (proj1 Hok eq_refl) as Hv. rewrite (io_bind_step io_get _ _ _ _ eq_refl). cbv beta.
  destruct (valid_configuration_chain _ _ Hv) as (ds & Hc & Hfp & Ht & R0 & R1).
  pose proof (patch_configuration_chain parse buf ds (ext_speed (ext s3)) R1 R0 Ht Hc Hfp) as Hpatch.
  rewrite (io_opt_bind _ _ _ _ Hpatch). cbv beta.
  eexists _, _. split; [reflexivity|]. split; [by destruct Hs' as [-> _]|]. split; [apply Hs'|].
  split; [|split; [apply Hs'|]].
  - eexists. split; [reflexivity|]. cbn [cfg_length].
    assert (forall b : bool, length (if b then buf else concat (map patch_desc ds)) = length buf) as Hlen
      by (intros []; [done|by rewrite length_concat_patch, (desc_chain_concat _ _ Hc)]).
    rewrite Hlen. split; [done|]. split; [rewrite <- Hfull; unfold is_u16 in *; lia|].
    destruct (_ <=? _); [done|]. by apply valid_configuration_patch with buf.
  - exists ((h1 ++ bs1) ++ [] ++ h2 ++ buf). split; [by eapply received_app; [exact Hrec1|]; eapply received_app|].
    eexists buf, _. split; [exists h1, bs1, h2; cbn [app]; rewrite <- app_assoc; split; [done|]; lia|]. split; [exact Hv|].
    rewrite <- (proj1 Hs'). split; [exact Hpatch|done].
Qed.

(** Sequencing two steps of the filter. *)
Lemma outcome_bind {A B} (s : state N) (m : io (state N) A) (f : A -> io (state N) B) good1 good2 :
  filter_outcome s (m s) good1 ->
  (forall a s1, good1 a s1 -> filter_outcome s1 (f a s1) good2) ->
  filter_outcome s ((m ≫= f) s) good2.
Proof.
  intros (r & s1 & Hm & Hready & Hr) Hf. destruct r as [a|e].
  - destruct Hr as [Hrej Hg]. rewrite (io_bind_step _ _ _ _ _ Hm).
    destruct (Hf a s1 Hg) as (r & s2 & ? & Hready2 & Ho). exists r, s2. rewrite <- Hready, <- Hrej. done.
  - rewrite (io_bind_stop _ _ _ _ _ Hm). by exists (Err e), s1.
Qed.

(** The loop over the configurations, from index [i] on; [answers] are those with the configurations so far. *)
Definition configurations_accepted (p : policy) (speed : Z) (answers : list (list byte)) (k : nat) (d : descriptor_snapshot) : Prop :=
  exists cs, configurations d = Some cs /\ (k <= length cs)%nat /\
    configuration_count d = Z.of_nat (length cs) /\ Forall (accepted_configuration p) (take k cs) /\
    Forall2 (published parse p speed) answers (take k cs).

Lemma check_configurations_spec p i n answers (s : state N) : policy_sane p ->
  configurations_accepted p (ext_speed (ext s)) answers i (descriptors (ext s)) ->
  configuration_count (descriptors (ext s)) = Z.of_nat (i + n) ->
  filter_outcome s (check_configurations parse p i n s)
    (fun _ s' => configuration_count (descriptors (ext s')) = Z.of_nat (i + n) /\ ext_speed (ext s') = ext_speed (ext s) /\
       snap_device (descriptors (ext s')) = snap_device (descriptors (ext s)) /\
       exists answers', received (net s) (concat answers') (net s') /\
         configurations_accepted p (ext_speed (ext s)) (answers ++ answers') (i + n) (descriptors (ext s'))).
Proof.
  intros Hp. revert i answers s. induction n as [|n IH]; intros i answers s Hc Hn.
  - rewrite Nat.add_0_r in *. eexists _, _. split; [reflexivity|]. do 5 (split; [done|]).
    exists []. rewrite app_nil_r. split; [apply received_none|done].
  - cbn [check_configurations]. eapply outcome_bind; [apply check_configuration_spec, Hp|].
    intros c s1 (Hacc & He & ans & Hrec & Hpub). unfold set_configuration.
    rewrite (io_bind_step (io_modify _) _ _ _ _ eq_refl). cbv beta.
    match goal with |- filter_outcome _ (check_configurations _ _ _ _ ?s2) _ => set (s2' := s2) end.
    replace (i + S n)%nat with (S i + n)%nat in * by lia.
    destruct Hc as (cs & Hcs & Hk & Hcnt & Hall & Hans).
    destruct (IH (S i) (answers ++ [ans]) s2') as (r & s3 & Hrun & Hready & Ho).
    + exists (<[i := c]> cs). cbn. rewrite He, Hcs, Hcnt, length_insert. split; [done|].
      assert (i < length cs)%nat by lia. split; [lia|]. split; [done|].
      rewrite (take_S_r _ _ c) by (by apply list_lookup_insert_eq).
      rewrite take_insert_ge by lia. split; [apply Forall_app_2; [done|]; by constructor|].
      apply Forall2_app; [done|]. by constructor.
    + cbn. by rewrite He.
    + exists r, s3. split; [done|]. split; [done|]. destruct r as [[]|]; [|done].
      cbn in Ho. rewrite He in Ho. destruct Ho as (Hrej & H1 & H2 & H3 & answers' & Hrec' & H4). do 4 (split; [done|]).
      exists (ans :: answers'). split; [cbn; by eapply received_app|]. by rewrite <- app_assoc in H4.
Qed.

(** The state of a device whose descriptors the filter published. *)
Definition snapshot_accepted (p : policy) (u : usbip_usb_device) (d : descriptor_snapshot) : Prop :=
  ready d = true /\ accepted_device u (snap_device d) /\
  configuration_count d = bNumConfigurations u /\ bNumConfigurations u <> 0 /\
  exists cs, configurations d = Some cs /\ Z.of_nat (length cs) = bNumConfigurations u /\
    Forall (accepted_configuration p) cs.

Definition class_admitted (p : policy) (u : usbip_usb_device) : Prop :=
  bDeviceClass u = 0 \/ bDeviceClass u = 0xEF \/
  policy_admits p (bDeviceClass u) (bDeviceSubClass u) (bDeviceProtocol u).

Lemma class_token_spec p u (s : state N) : policy_sane p ->
  exists b, (if negb (bDeviceClass u =? 0) && negb (bDeviceClass u =? 0xEF)
             then io_opt (is_allowed p (bDeviceClass u) (bDeviceSubClass u) (bDeviceProtocol u))
             else mret true) s = Some (Ok b, s) /\ (b = true <-> class_admitted p u).
Proof.
  intros Hp. unfold class_admitted.
  destruct (Z.eqb_spec (bDeviceClass u) 0) as [E|E]; [exists true; naive_solver|].
  destruct (Z.eqb_spec (bDeviceClass u) 0xEF) as [E'|E']; [exists true; naive_solver|]. cbn [negb andb].
  destruct (is_allowed_sane p (bDeviceClass u) (bDeviceSubClass u) (bDeviceProtocol u) Hp) as (b & -> & Hi).
  exists b. split; [done|]. rewrite Hi. naive_solver.
Qed.

(** Everything but [ready] of an accepted snapshot. *)
Definition snapshot_checked (p : policy) (u : usbip_usb_device) (s s' : state N) : Prop :=
  class_admitted p u /\ bNumConfigurations u <> 0 /\ ext_speed (ext s') = ext_speed (ext s) /\
  configuration_count (descriptors (ext s')) = bNumConfigurations u /\
  exists n1 answers, device_received u (ext_serial (ext s)) (net s) n1 (snap_device (descriptors (ext s'))) /\
    received n1 (concat answers) (net s') /\
    configurations_accepted p (ext_speed (ext s)) answers (Z.to_nat (bNumConfigurations u)) (descriptors (ext s')).

Lemma take_snapshot_spec p u (s : state N) : policy_sane p -> is_u8 (bNumConfigurations u) ->
  filter_outcome s (take_snapshot parse p u s) (fun _ s' => snapshot_checked p u s s').
Proof.
  intros Hp Hu8. unfold is_u8 in Hu8. unfold take_snapshot.
  destruct (class_token_spec p u s Hp) as (b & Hb & Hcls). rewrite (io_bind_step _ _ _ _ _ Hb). cbv beta.
  destruct b; [|by apply reject_outcome]. specialize (proj1 Hcls eq_refl) as Hadm. cbn [negb].
  destruct (Z.eqb_spec (bNumConfigurations u) 0) as [|Hnz]; [by apply reject_outcome|].
  rewrite (io_bind_step (io_modify _) _ _ _ _ eq_refl). cbv beta.
  apply (outcome_same _ (set_seqnum 1 s)); [done|].
  eapply outcome_bind; [apply snapshot_device_descriptor_spec|]. intros [] s1 [Hd Hsp]. cbn in Hd, Hsp.
  destruct (m_alloc_spec (sizeof_configuration_snapshot * bNumConfigurations u) s1) as (mem & s2 & Hm & Hs2 & Hrec2).
  rewrite (io_bind_step _ _ _ _ _ Hm). cbv beta. destruct mem; [|by apply reject_outcome]. cbn [negb].
  apply (outcome_same _ _ _ _ Hs2). destruct Hs2 as [He2 _]. unfold set_configurations.
  rewrite (io_bind_step (io_modify _) _ _ _ _ eq_refl). cbv beta.
  match goal with |- filter_outcome _ (check_configurations _ _ _ _ ?s3) _ => set (s3' := s3) end.
  destruct (check_configurations_spec p 0 (Z.to_nat (bNumConfigurations u)) [] s3' Hp) as (r & s4 & ? & Hr & Ho).
  - eexists. split; [reflexivity|]. rewrite length_replicate. split; [lia|]. split; [cbn; lia|].
    rewrite take_0. split; constructor.
  - cbn. lia.
  - exists r, s4. split; [done|]. split; [done|]. destruct r; [|done]. cbn in Ho. rewrite He2 in Ho.
    destruct Ho as (Hrej & Hcnt & Hsp4 & Hsnap & answers & Hrec & Hacc). split; [done|]. do 2 (split; [done|]). split; [congruence|]. split; [lia|].
    exists (net s1), answers. rewrite Hsnap. split; [done|]. rewrite <- Hsp. split; [by eapply (received_app _ []); [exact Hrec2|]|done].
Qed.

(** The outcome of [check_device]: accepted and published, or rejected once. *)
Lemma check_device_outcome p u (s : state N) : policy_sane p -> is_u8 (bNumConfigurations u) ->
  exists r s', check_device parse p u s = Some (r, s') /\
    match r with
    | Ok _ => rejections s' = rejections s /\ snapshot_checked p u s s' /\ ready (descriptors (ext s')) = true
    | Err e => e = USBIP_ERROR_DEVICE_FILTERED /\ (exists why, rejections s' = rejections s ++ [why]) /\
               ready (descriptors (ext s')) = ready (descriptors (ext s))
    end.
Proof.
  intros Hp Hu8. unfold check_device.
  destruct (take_snapshot_spec p u s Hp Hu8) as (r & s1 & Hrun & Hready & Ho). destruct r as [[]|e].
  - rewrite (io_bind_step _ _ _ _ _ Hrun). destruct Ho as (Hrej & Hadm & Hnz & Hsp & Hcnt & n1 & answers & Hd & Hrec & Hacc).
    eexists _, _. split; [reflexivity|]. cbn. split; [done|]. split; [|done]. split; [done|]. split; [done|]. split; [done|]. split; [done|].
    exists n1, answers. done.
  - rewrite (io_bind_stop _ _ _ _ _ Hrun). eexists _, _. split; [reflexivity|]. naive_solver.
Qed.

Lemma checked_accepted p u (s s' : state N) : snapshot_checked p u s s' -> is_u8 (bNumConfigurations u) -> ready (descriptors (ext s')) = true ->
  class_admitted p u /\ snapshot_accepted p u (descriptors (ext s')).
Proof.
  intros (Hadm & Hnz & _ & Hcnt & n1 & answers & Hd & _ & cs & Hcs & Hk & Hlen & Hall & _) Hu8 Hready. unfold is_u8 in Hu8.
  split; [done|]. split; [done|]. split; [by eapply device_received_accepted|]. do 2 (split; [done|]).
  exists cs. split; [done|]. split; [lia|]. by rewrite take_ge in Hall by lia.
Qed.

Lemma checked_class reply : length reply = 312%nat -> forall p, class_admitted p (byteswap_usb_device (usb_device_of_bytes reply)) -> class_allowed p reply.
Proof.
  intros Hr p. unfold class_admitted. cbn [bDeviceClass bDeviceSubClass bDeviceProtocol byteswap_usb_device usb_device_of_bytes].
  destruct (lookup_lt_is_Some_2 reply 306) as [a Ha]; [lia|]. destruct (lookup_lt_is_Some_2 reply 307) as [b Hb]; [lia|].
  destruct (lookup_lt_is_Some_2 reply 308) as [c Hc]; [lia|]. rewrite !uint_byte, Ha, Hb, Hc. cbn [default from_option]. unfold id.
  intros Hadm. exists a, b, c. rewrite (drop_S _ _ _ Ha), (drop_S _ _ _ Hb), (drop_S _ _ _ Hc). split; [done|].
  destruct Hadm as [Hz|[Hz|Hz]]; [left|right; left|right; right]; [by destruct a|by destruct a|done].
Qed.

(** What the filter checked, in terms of the bytes that were received. *)
Lemma checked_import p reply (s s1 s' : state N) : length reply = 312%nat ->
  received (net s) (wire_op_common USBIP_VERSION OP_REP_IMPORT 0 ++ reply) (net s1) -> ext_serial (ext s1) = ext_serial (ext s) ->
  ext_speed (ext s1) = s32 (udev_speed (byteswap_usb_device (usb_device_of_bytes reply))) ->
  snapshot_checked p (byteswap_usb_device (usb_device_of_bytes reply)) s1 s' -> ready (descriptors (ext s')) = true ->
  import_allowed parse p s s' reply.
Proof.
  intros Hr Hrec0 Hser Hspd (Hadm & Hnz & Hsp & Hcnt & n1 & answers & (h & device & Hrec1 & Hh & Hd & Hv & Hi & Hkept) & Hrec2 & cs & Hcs & Hk & Hlen & _ & Hpub) Hready.
  split; [done|by apply checked_class|].
  assert (uint 310 1 reply = bNumConfigurations (byteswap_usb_device (usb_device_of_bytes reply))) as Hn by done.
  pose proof (uint_u8 reply 310) as Hu8. unfold is_u8 in Hu8. rewrite <- Hn in *.
  rewrite take_ge in Hpub by lia. pose proof (Forall2_length Hpub) as Hla.
  exists h, device, answers, cs. split.
  { rewrite (app_assoc _ reply). eapply received_app; [exact Hrec0|]. rewrite app_assoc. eapply received_app; [exact Hrec1|exact Hrec2]. }
  do 2 (split; [done|]). split; [by apply identity_consistent_same|]. split; [intros ->; cbn in Hla; lia|].
  split; [rewrite <- uint_image by lia; cbn [le_bytes]; do 2 f_equal; lia|].
  split; [rewrite Hsp, Hspd; cbn [udev_speed byteswap_usb_device usb_device_of_bytes]; rewrite bswap32_val, uint_image by lia; done|].
  split; [|by rewrite Hsp]. rewrite <- Hser. destruct (descriptors (ext s')). cbn in *. subst. f_equal. lia.
Qed.

(** import_remote_device with the policy the registry promises. *)
Lemma import_outcome conv {R} `{HR : RegistryLaws R} (reg : R) stack (s : state N) :
  exists r s', import_remote_device parse conv reg stack s = Some (r, s') /\
    match r with
    | Ok _ => exists reply u, u = byteswap_usb_device (usb_device_of_bytes reply) /\ usb_device_ok u /\ rejections s' = rejections s /\
        import_allowed parse (registry_policy reg) s s' reply /\
        class_admitted (registry_policy reg) u /\ snapshot_accepted (registry_policy reg) u (descriptors (ext s'))
    | Err e => e <> STATUS_SUCCESS /\ ready (descriptors (ext s')) = ready (descriptors (ext s)) /\
        ((exists why, rejections s' = rejections s ++ [why]) \/ rejections s' = rejections s)
    end.
Proof.
  unfold import_remote_device. rewrite (io_bind_step io_get _ _ _ _ eq_refl). cbv beta.
  destruct (send_req_import conv (net s) (ext_busid (ext s))) as [err n] eqn:Esend. apply send_req_import_received in Esend.
  rewrite (io_bind_step (io_modify _) _ _ _ _ eq_refl). cbv beta.
  rewrite io_res_bind. destruct (of_status err) as [[]|e] eqn:Es;
    [|eexists _, _; split; [reflexivity|]; cbn; split; [destruct err; simpl in Es; congruence|auto]].
  destruct (recv_rep_import conv n (ext_busid (ext s))) as [r n'] eqn:Er.
  rewrite (io_bind_step (io_modify _) _ _ _ _ eq_refl). cbv beta.
  rewrite io_res_bind. destruct r as [u|e];
    [|apply recv_rep_import_error in Er; eexists _, _; split; [reflexivity|]; cbn; auto].
  apply recv_rep_import_ok in Er as Hu. apply import_reply_bytes in Er as (reply & Hlr & Heq & Hrec).
  rewrite (io_bind_step (io_modify _) _ _ _ _ eq_refl). cbv beta. rewrite load_registry_policy.
  match goal with |- context [check_device _ _ _ ?s1] => set (s1' := s1) end.
  assert (is_u8 (bNumConfigurations u)) as Hu8.
  { destruct Hu as (_ & _ & _ & _ & H8). rewrite !List.Forall_cons_iff in H8. apply H8. }
  destruct (check_device_outcome (registry_policy reg) u s1' (registry_policy_sane reg) Hu8) as (r & s2 & Hrun & Ho).
  rewrite Hrun. eexists _, _. split; [reflexivity|]. destruct r.
  - destruct Ho as (Hrej & Hchk & Hready). exists reply, u. do 2 (split; [done|]). split; [done|].
    split; [|by apply (checked_accepted _ _ s1')]. subst u. apply (checked_import _ _ s s1'); try done.
    by eapply (received_app _ []); [exact Esend|].
  - destruct Ho as (-> & ? & ?). split; [done|]. split; [done|]. by left.
Qed.

End lemmas.

(** The additions an accepted snapshot consists of. *)
Definition configuration_addition (i : nat) (c : configuration_descriptor_snapshot) : udecx_descriptor :=
  AddDescriptorWithIndex (default [] (cfg_data c)) (Z.of_nat i).

Definition snapshot_additions (d : descriptor_snapshot) : list udecx_descriptor :=
  AddDescriptor (snap_device d) :: imap configuration_addition (default [] (configurations d)).

Lemma accepted_configuration_not_empty p c : accepted_configuration p c -> cfg_length c <> 0.
Proof.
  intros (bytes & _ & Hl & _ & [(H9 & _) _ _]) H0. rewrite H0 in Hl. destruct bytes; simpl in *; lia.
Qed.

Lemma add_configurations_spec udecx p cs i n added : (i + n)%nat = length cs ->
  Forall (accepted_configuration p) cs ->
  exists st k, add_configurations udecx cs i n added =
      Some (st, added ++ take k (drop i (imap configuration_addition cs))) /\
    (st = STATUS_SUCCESS <-> k = n) /\ (k <= n)%nat.
Proof.
  intros Hlen Hall. revert i added Hlen. induction n as [|n IH]; intros i added Hlen.
  - exists STATUS_SUCCESS, 0%nat. by rewrite take_0, app_nil_r.
  - cbn [add_configurations]. destruct (lookup_lt_is_Some_2 cs i) as [c Hc]; [lia|]. rewrite Hc. cbn [mbind option_bind].
    assert (accepted_configuration p c) as Hacc by (by eapply Forall_lookup_1).
    pose proof (accepted_configuration_not_empty p c Hacc) as Hne. destruct Hacc as (bytes & Hd & Hl & _).
    rewrite Hd. apply Z.eqb_neq in Hne. rewrite Hne, Hl, Nat2Z.id, bytes_at_all. cbn [mbind option_bind].
    assert (drop i (imap configuration_addition cs) =
            AddDescriptorWithIndex bytes (Z.of_nat i) :: drop (S i) (imap configuration_addition cs)) as Hdrop.
    { apply drop_S. rewrite list_lookup_imap, Hc. cbn. unfold configuration_addition. by rewrite Hd. }
    destruct (decide (udecx (AddDescriptorWithIndex bytes (Z.of_nat i)) = STATUS_SUCCESS)) as [Hs|Hs].
    + rewrite Hs. destruct (IH (S i) (added ++ [AddDescriptorWithIndex bytes (Z.of_nat i)])) as (st & k & Ha & Hk & Hle);
        [lia|]. exists st, (S k). rewrite Ha, Hdrop, <- app_assoc. cbn [take app]. split; [done|]. split; [|lia].
      rewrite Hk. lia.
    + exists (udecx (AddDescriptorWithIndex bytes (Z.of_nat i))), 0%nat. rewrite take_0, app_nil_r.
      split; [by destruct (udecx _)|]. split; [|lia]. split; [done|lia].
Qed.

(** ** Properties *)

(** C2: importing a device never touches memory outside of its buffers.  It ends with descriptors
    published exactly when it succeeds, and then of the bytes that were received from the server: the record of the reply
    and the device descriptor are of the same device, byte by byte; the class in the record is left to the interfaces or allowed by the
    policy in the registry; each of the configurations that the record announces was received, is well formed, and has no
    interface that the policy does not allow; and what is published are that descriptor (with an index for
    the driver's serial number) and those configurations (adapted for UdeCx), in order, and nothing else. On any failure nothing is
    published, and at most one rejection is logged. *)
Theorem import_publishes_only_allowed (parse : list byte -> Z -> nat -> Z -> option nat) {HP : ParseDescriptors parse}
    {N} `{Net N} conv {R} `{HR : RegistryLaws R} (reg : R) stack (s : state N) :
  ready (descriptors (ext s)) = false ->
  exists r s', import_remote_device parse conv reg stack s = Some (r, s') /\
    (ready (descriptors (ext s')) = true <-> r = Ok tt) /\
    match r with
    | Ok _ => rejections s' = rejections s /\ exists reply, import_allowed parse (registry_policy reg) s s' reply
    | Err e => (exists why, rejections s' = rejections s ++ [why]) \/ rejections s' = rejections s
    end.
Proof.
  intros Hr. destruct (import_outcome parse conv reg stack s) as (r & s' & Hrun & Ho).
  exists r, s'. split; [done|]. destruct r as [[]|e].
  - destruct Ho as (reply & u & _ & _ & Hrej & Hia & _ & Hs). split; [split; [done|intros; apply Hs]|]. split; [done|]. by exists reply.
  - destruct Ho as (_ & Hrdy & Ho). rewrite Hrdy, Hr. done.
Qed.

(** What the storage stick's server sends. *)
Definition ret_submit (payload : list byte) : list byte :=
  wire_header {| command := RET_SUBMIT; seqnum := 1; devid := 0; direction := 0; ep := 0; w0 := 0;
                 w1 := Z.of_nat (length payload); w2 := 0; w3 := 0; w4 := 0; setup := replicate 8 x00 |} ++ payload.

Definition stick_device_descriptor : list byte := map z2b
  [18; 1; 0; 2; 0; 0; 0; 64; 0x81; 0x07; 0x67; 0x55; 0; 1; 1; 2; 3; 1].

Definition stick_server (config : list byte) : peer :=
  peer_of (import_reply stick ++ ret_submit stick_device_descriptor ++ ret_submit (take 9 config) ++ ret_submit config).

Definition new_ext : device_ctx_ext :=
  {| ext_busid := busid_1_1; ext_devid := 0; ext_speed := 0; ext_vendor := 0; ext_product := 0;
     ext_serial := replicate 16 x00; ext_iserial := 0;
     descriptors := {| snap_device := replicate 18 x00; configurations := None;
                       configuration_count := 0; ready := false |} |}.

Definition import_from (config : list byte) : option (res unit * state peer) :=
  import_remote_device parse_with_find_next ascii_to_utf8 storage_registry []
    (mk_state (stick_server config) new_ext 0 []).

(** The stick is published as its server described it; of a configuration with an interface that is not allowed nothing is. *)
Lemma import_publishes_only_allowed_witness :
  (exists s' reply, import_from storage_config = Some (Ok tt, s') /\ ready (descriptors (ext s')) = true /\
     import_allowed parse_with_find_next storage_policy (mk_state (stick_server storage_config) new_ext 0 []) s' reply /\
     take 312 (drop 8 (incoming (stick_server storage_config))) = reply) /\
  (exists e s', import_from smuggling_config = Some (Err e, s') /\ ready (descriptors (ext s')) <> true).
Proof.
  split.
  - destruct (import_publishes_only_allowed parse_with_find_next ascii_to_utf8 storage_registry []
      (mk_state (stick_server storage_config) new_ext 0 []) eq_refl) as (r & s' & Hrun & Hr & Ho).
    unfold import_from. destruct r as [[]|e]; [|exfalso; vm_compute in Hrun; discriminate].
    destruct Ho as (_ & reply & Hia). exists s', reply. split; [exact Hrun|]. split; [by apply Hr|]. split; [exact Hia|].
    destruct Hia as [Hl _ (h & device & answers & cs & Hrec & _)]. apply peer_received in Hrec. cbn [net] in Hrec. rewrite Hrec.
    rewrite <- !app_assoc. change 8%nat with (length (wire_op_common USBIP_VERSION OP_REP_IMPORT 0)). rewrite drop_app_length. rewrite <- Hl at 1. apply take_app_length.
  - destruct (import_publishes_only_allowed parse_with_find_next ascii_to_utf8 storage_registry []
      (mk_state (stick_server smuggling_config) new_ext 0 []) eq_refl) as (r & s' & Hrun & Hr & _).
    unfold import_from. destruct r as [[]|e]; [exfalso; vm_compute in Hrun; discriminate|].
    exists e, s'. split; [exact Hrun|]. rewrite Hr. discriminate.
Defined.

(** Registering an accepted snapshot stops at the first addition UdeCx refuses. *)
Lemma add_snapshot_spec udecx p u d :
  snapshot_accepted p u d ->
  exists st k, add_snapshot_descriptors udecx d = Some (st, take k (snapshot_additions d)) /\
    (st = STATUS_SUCCESS <-> k = length (snapshot_additions d)) /\ (k <= length (snapshot_additions d))%nat /\
    length (snapshot_additions d) = S (Z.to_nat (bNumConfigurations u)).
Proof.
  intros (Hready & Hdev & Hcnt & Hnz & cs & Hcs & Hlen & Hall).
  assert (snapshot_additions d = AddDescriptor (snap_device d) :: imap configuration_addition cs) as Had
    by (unfold snapshot_additions; by rewrite Hcs).
  assert (length (snapshot_additions d) = S (Z.to_nat (bNumConfigurations u))) as Hsz
    by (rewrite Had, length_cons, length_imap; lia).
  unfold add_snapshot_descriptors. rewrite Hready, Hcs. cbn [negb default].
  destruct (decide (udecx (AddDescriptor (snap_device d)) = STATUS_SUCCESS)) as [Hs|Hs].
  - rewrite Hs. destruct (add_configurations_spec udecx p cs 0 (Z.to_nat (configuration_count d))
      [AddDescriptor (snap_device d)]) as (st & k & Ha & Hk & Hle); [lia|done|].
    exists st, (S k). rewrite Hsz. split; [rewrite Had; exact Ha|].
    rewrite Hcnt in *. split; [rewrite Hk; lia|]. split; [lia|done].
  - exists (udecx (AddDescriptor (snap_device d))), 0%nat. rewrite take_0. split; [by destruct (udecx _)|].
    rewrite Hsz. split; [split; [done|lia]|]. split; [lia|done].
Qed.

(** Whatever UdeCx answers, registering an accepted snapshot stays inside the snapshot
    and adds the device descriptor and then the configurations in order, the exact bytes
    the filter accepted; it succeeds only when all of them were added, and a device whose
    snapshot was not published registers nothing. *)
Theorem registered_descriptors_are_accepted udecx p u d :
  snapshot_accepted p u d ->
  exists st k, add_snapshot_descriptors udecx d = Some (st, take k (snapshot_additions d)) /\
    (st = STATUS_SUCCESS <-> k = length (snapshot_additions d)) /\ (k <= length (snapshot_additions d))%nat /\
    length (snapshot_additions d) = S (Z.to_nat (bNumConfigurations u)) /\
    (forall bytes i, AddDescriptorWithIndex bytes i ∈ snapshot_additions d ->
       valid_configuration (tuple_admitted p) bytes) /\
    (forall d', ready d' = false -> add_snapshot_descriptors udecx d' = Some (STATUS_SUCCESS, [])).
Proof.
  intros Hacc. destruct (add_snapshot_spec udecx p u d Hacc) as (st & k & Ha & Hk & Hle & Hsz).
  exists st, k. split_and!; auto; try apply Hk.
  - destruct Hacc as (_ & _ & _ & _ & cs & Hcs & _ & Hall). intros bytes i Hin. unfold snapshot_additions in Hin.
    rewrite Hcs in Hin. apply elem_of_cons in Hin as [Hin|Hin]; [discriminate|].
    apply elem_of_lookup_imap in Hin as (j & c & Heq & Hj).
    pose proof (Forall_lookup_1 _ _ _ _ Hall Hj) as (bs & Hd & _ & _ & Hv). unfold configuration_addition in Heq.
    rewrite Hd in Heq. injection Heq as -> _. done.
  - intros d' Hd'. unfold add_snapshot_descriptors. by rewrite Hd'.
Qed.

(** The descriptors the import of the storage stick published. *)
Definition stick_snapshot : descriptor_snapshot :=
  match import_from storage_config with
  | Some (_, s) => descriptors (ext s)
  | None => descriptors new_ext
  end.

Lemma stick_snapshot_accepted : snapshot_accepted storage_policy stick stick_snapshot.
Proof.
  split; [vm_compute; reflexivity|]. split.
  { split; [vm_compute; reflexivity|]. split; vm_compute; reflexivity. }
  split; [vm_compute; reflexivity|]. split; [vm_compute; discriminate|].
  exists [{| cfg_data := Some storage_config; cfg_length := Z.of_nat (length storage_config) |}].
  split; [vm_compute; reflexivity|]. split; [reflexivity|]. constructor; [|constructor].
  exists storage_config. split; [reflexivity|]. split; [reflexivity|].
  split; [unfold is_u16; vm_compute; split; [discriminate|reflexivity]|].
  assert (policy_sane storage_policy) as Hp.
  { split; [split; [reflexivity|]|split; [|by right]]; vm_compute; try split; congruence. }
  destruct (evaluate_with_policy storage_policy storage_config Hp) as (r & Hr & Hok).
  apply Hok. vm_compute in Hr. injection Hr as <-. reflexivity.
Qed.

Lemma registered_descriptors_are_accepted_witness :
  exists k, add_snapshot_descriptors (fun _ => STATUS_SUCCESS) stick_snapshot =
            Some (STATUS_SUCCESS, take k (snapshot_additions stick_snapshot)) /\ k = 2%nat.
Proof.
  destruct (registered_descriptors_are_accepted (fun _ => STATUS_SUCCESS) storage_policy stick stick_snapshot
    stick_snapshot_accepted) as (st & k & Ha & Hk & _).
  exists k. assert (st = STATUS_SUCCESS) as Hst by (vm_compute in Ha; congruence).
  rewrite Hst in Ha. split; [exact Ha|]. rewrite (proj1 Hk Hst). vm_compute. reflexivity.
Defined.
