(* ===== verification/Reject.v ===== *)
(** * What a rejection logs

    usb_class_name, format_match_field, format_whitelist and report_rejection of
    drivers/ude/device_filter.cpp: the text of the entry in the system's event log and the memory
    it is written to. *)

From Stdlib Require Import String Ascii.
From stdpp Require Import strings.
From S2P Require Import Prelude Parser Policy Session Filter.
#[local] Open Scope list_scope.

(** ** Wide strings *)

(** The RtlStringCch functions on a buffer of [cch] characters that holds a terminated
    string: what fits is written and the buffer stays terminated. *)
Definition string_fit (cch : nat) (s : list Z) : list Z := take (cch - 1) s.
Definition string_cat (cch : nat) (dst s : list Z) : list Z := string_fit cch (dst ++ s).

Definition hex_digit (n : Z) : Z := if n <? 10 then 48 + n else 55 + n.
(** %02X of a byte, %04X of a 16-bit number *)
Definition hex2 (v : Z) : list Z := [hex_digit (v / 16); hex_digit (v mod 16)].
Definition hex4 (v : Z) : list Z := hex2 (v / 256) ++ hex2 (v mod 256).

(** %d of a number that is not negative *)
Fixpoint decimal (fuel : nat) (v : Z) : list Z :=
  match fuel with O => [] | S fuel => (if v <? 10 then [] else decimal fuel (v / 10)) ++ [48 + v mod 10] end.

(** ** device_filter.cpp *)

Definition usb_class_name (cls : Z) : string :=
  (match cls with
   | 0x00 => "per-interface" | 0x01 => "Audio" | 0x02 => "Communications/CDC" | 0x03 => "HID" | 0x05 => "Physical"
   | 0x06 => "Image" | 0x07 => "Printer" | 0x08 => "Mass Storage" | 0x09 => "Hub" | 0x0A => "CDC-Data"
   | 0x0B => "Smart Card" | 0x0D => "Content Security" | 0x0E => "Video" | 0x0F => "Personal Healthcare"
   | 0x10 => "Audio/Video" | 0x11 => "Billboard" | 0x12 => "USB Type-C Bridge" | 0xDC => "Diagnostic"
   | 0xE0 => "Wireless Controller" | 0xEF => "Miscellaneous" | 0xFE => "Application Specific"
   | 0xFF => "Vendor Specific" | _ => "Unknown"
   end)%Z%string.

Definition format_match_field (matched : bool) (v : byte) : list Z := if matched then hex2 (b2z v) else [42; 42].

(** The item of entry [i]. *)
Definition whitelist_item (i : nat) (e : device_filter_entry) : list Z :=
  let field f v := format_match_field (negb (Z.land (b2z (match_flags e)) f =? 0)) v in
  string_fit 20 ((if bool_decide (i = 0%nat) then [] else wide ", ") ++
    field 1 (bClass e) ++ [47] ++ field 2 (bSubClass e) ++ [47] ++ field 4 (bProtocol e)).

Definition reserve_for_ellipsis : nat := 6.

(** The loop over the entries; [buf] is the text so far. *)
Fixpoint format_entries (i : nat) (es : list device_filter_entry) (buf : list Z) (cch : nat) : list Z :=
  match es with
  | [] => buf
  | e :: es =>
      let item := whitelist_item i e in
      if (cch <=? length buf + length item + reserve_for_ellipsis)%nat then string_cat cch buf (wide ", ...")
      else format_entries (S i) es (string_cat cch buf item) cch
  end.

Definition format_whitelist (p : policy) (cch : nat) : list Z :=
  if count p =? 0 then string_fit cch (wide "(empty)")
  else format_entries 0 (take (Z.to_nat (count p)) (entries p)) [] cch.

Section report.
(** wdm.h: FIELD_OFFSET(IO_ERROR_LOG_PACKET, DumpData), sizeof(IO_ERROR_LOG_PACKET), ERROR_LOG_MAXIMUM_SIZE *)
Context (header_size sizeof_packet maximum_size : Z).

Definition max_chars : nat := Z.to_nat ((maximum_size - sizeof_packet) / 2).

(** The text before it is cut; [busid] and [node_name] are the strings of the context. *)
Definition rejection_text (p : policy) (reason : string) (ifnum cls sub proto vendor product : Z) (busid node_name : list Z) : list Z :=
  let ifrag := if 0 <=? ifnum then string_fit 24 (wide "interface " ++ decimal 10 ifnum ++ wide ", ") else [] in
  wide reason ++ wide "; class " ++ hex2 cls ++ [47] ++ hex2 sub ++ [47] ++ hex2 proto ++ wide " " ++ wide (usb_class_name cls) ++
  wide "; whitelist: " ++ format_whitelist p 128 ++ wide "; VID_" ++ hex4 vendor ++ wide "&PID_" ++ hex4 product ++
  wide "; bus " ++ busid ++ wide "; endpoint " ++ node_name ++ wide "; " ++ ifrag.

(** report_rejection: the packet, [None] when something is written outside of the memory allocated
    for it; [alloc] is IoAllocateErrorLogEntry. *)
Record log_entry : Type := { le_size : Z; le_string_offset : Z; le_text : list Z }.

Definition report_rejection (alloc : Z -> bool) (p : policy) (reason : string) (ifnum cls sub proto vendor product : Z)
    (busid node_name : list Z) : option (option log_entry) :=
  let msg := string_fit max_chars (rejection_text p reason ifnum cls sub proto vendor product busid node_name) in
  let slen := u16 ((Z.of_nat (length msg) + 1) * 2) in
  let size := u16 (header_size + slen) in
  let allocated := u8 size in
  if negb (alloc allocated) then Some None
  else if (allocated <? size) || (size <? header_size + slen) || (slen <? (Z.of_nat (length msg) + 1) * 2) then None
  else Some (Some {| le_size := size; le_string_offset := header_size; le_text := msg |}).
End report.

(** ** The text of the whitelist *)

(** An entry as it is shown. *)
Definition shown_entry (e : device_filter_entry) : list Z :=
  let field f v := format_match_field (negb (Z.land (b2z (match_flags e)) f =? 0)) v in
  field 1 (bClass e) ++ [47] ++ field 2 (bSubClass e) ++ [47] ++ field 4 (bProtocol e).

Definition shown_from (i : nat) (es : list device_filter_entry) : list Z :=
  concat (imap (fun j e => (if bool_decide (i + j = 0)%nat then [] else wide ", ") ++ shown_entry e) es).

(** All entries separated by commas. *)
Definition shown_entries (es : list device_filter_entry) : list Z := shown_from 0 es.

Lemma length_shown_entry e : length (shown_entry e) = 8%nat.
Proof. unfold shown_entry, format_match_field. by repeat case_match. Qed.

Lemma whitelist_item_shown i e : whitelist_item i e = (if bool_decide (i = 0%nat) then [] else wide ", ") ++ shown_entry e.
Proof.
  unfold whitelist_item, string_fit. apply take_ge. fold (shown_entry e). rewrite length_app, length_shown_entry.
  destruct (bool_decide _); cbn; lia.
Qed.

Lemma shown_from_cons i e es : shown_from i (e :: es) = whitelist_item i e ++ shown_from (S i) es.
Proof.
  unfold shown_from. rewrite imap_cons. cbn [concat]. rewrite whitelist_item_shown, Nat.add_0_r. f_equal. f_equal.
  apply imap_ext. intros j x _. cbn. by rewrite Nat.add_succ_r.
Qed.

(** The text of the entries that fit, closed by an ellipsis when some do not. *)
Definition cut_after (k i : nat) (es : list device_filter_entry) : list Z :=
  shown_from i (take k es) ++ (if bool_decide (k = length es) then [] else wide ", ...").

Lemma format_entries_spec i es buf cch : (length buf + reserve_for_ellipsis <= cch)%nat ->
  exists k, (k <= length es)%nat /\ format_entries i es buf cch = buf ++ cut_after k i es /\
    (length (format_entries i es buf cch) < cch)%nat /\
    ((length buf + length (shown_from i es) + reserve_for_ellipsis < cch)%nat -> k = length es).
Proof.
  unfold reserve_for_ellipsis. revert i buf. induction es as [|e es IH]; intros i buf Hb; cbn [format_entries].
  - exists 0%nat. split; [done|]. split; [by rewrite app_nil_r|]. split; [lia|done].
  - rewrite shown_from_cons, length_app. unfold reserve_for_ellipsis.
    destruct (Nat.leb_spec cch (length buf + length (whitelist_item i e) + 6)) as [Hc|Hc].
    + exists 0%nat. cbn [length]. split; [lia|].
      assert (string_cat cch buf (wide ", ...") = buf ++ wide ", ...") as ->.
      { unfold string_cat, string_fit. apply take_ge. rewrite length_app. cbn. lia. }
      split; [done|]. split; [rewrite length_app; cbn; lia|]. lia.
    + assert (string_cat cch buf (whitelist_item i e) = buf ++ whitelist_item i e) as ->.
      { unfold string_cat, string_fit. apply take_ge. rewrite length_app. lia. }
      destruct (IH (S i) (buf ++ whitelist_item i e)) as (k & Hk & -> & Hl & Hf); [rewrite length_app; lia|].
      exists (S k). split; [cbn; lia|]. split; [|split; [done|]].
      * unfold cut_after. cbn [take length]. rewrite shown_from_cons, <- !app_assoc. do 3 f_equal.
        by destruct (decide (k = length es)) as [->|?]; [rewrite !bool_decide_eq_true_2|rewrite !bool_decide_eq_false_2 by (cbn; lia)].
      * intros Hx. rewrite length_app in Hf. cbn. rewrite Hf; lia.
Qed.

Lemma length_shown_from i es : (length (shown_from i es) <= 10 * length es)%nat.
Proof.
  revert i. induction es as [|e es IH]; intros i; [done|]. rewrite shown_from_cons, whitelist_item_shown, !length_app, length_shown_entry.
  specialize (IH (S i)). destruct (bool_decide _); cbn; lia.
Qed.

Lemma length_shown_entries es : (length (shown_entries es) <= 10 * length es - 2)%nat.
Proof.
  destruct es as [|e es]; [done|]. unfold shown_entries. rewrite shown_from_cons, whitelist_item_shown, length_app.
  pose proof (length_shown_from 1 es). cbn [bool_decide length app]. rewrite bool_decide_eq_true_2 by done. cbn [app].
  rewrite length_shown_entry. lia.
Qed.

(** What the buffer holds: the word for none, all the entries, or those that fit and an ellipsis. *)
Definition whitelist_shown (p : policy) (cch : nat) (text : list Z) : Prop :=
  let es := take (Z.to_nat (count p)) (entries p) in
  (length text < cch)%nat /\
  if count p =? 0 then text = wide "(empty)"
  else exists k, (k <= length es)%nat /\ text = cut_after k 0 es /\ ((10 * length es + 4 < cch)%nat -> text = shown_entries es).

Lemma format_whitelist_spec p cch : (8 <= cch)%nat -> whitelist_shown p cch (format_whitelist p cch).
Proof.
  intros Hc. unfold whitelist_shown, format_whitelist. set (es := take (Z.to_nat (count p)) (entries p)). destruct (Z.eqb_spec (count p) 0) as [_|Hn].
  - unfold string_fit. rewrite take_ge by (cbn; lia). split; [cbn; lia|done].
  - destruct (format_entries_spec 0 es [] cch) as (k & Hk & He & Hl & Hf); [unfold reserve_for_ellipsis; cbn; lia|].
    split; [done|]. exists k. split; [done|]. split; [by rewrite He|]. intros Hx. rewrite He, Hf.
    + unfold cut_after. rewrite bool_decide_eq_true_2 by done. rewrite take_ge by done. cbn. by rewrite app_nil_r.
    + unfold reserve_for_ellipsis. pose proof (length_shown_entries es) as Hs. unfold shown_entries in Hs. cbn [length]. lia.
Qed.

(** ** The entry of the event log *)

Section logged.
Context (header_size sizeof_packet maximum_size : Z).

(** C30: logging a rejection stays in its memory.  For every policy, reason and strings of whatever length,
    the packet asked for holds the header and the terminated text exactly
    and fits into the size the event log allows, so the size is not cut when it becomes a byte;
    when the memory is refused nothing is written.  The text is as much of the beginning of the message as fits, so
    it can end inside of any part of it, also inside of a class of the whitelist ([entry_cut_in_packet]).
    The whitelist itself, in its 128 characters, is cut only between its classes: it shows them from the first
    on, marks it when some are left out, and shows all of them when there are at most twelve. *)
Theorem rejection_logged_in_bounds alloc (p : policy) reason ifnum cls sub proto vendor product busid node_name :
  0 <= header_size <= sizeof_packet -> sizeof_packet + 2 <= maximum_size -> maximum_size <= 255 ->
  let text := rejection_text p reason ifnum cls sub proto vendor product busid node_name in
  let shown := format_whitelist p 128 in
  match report_rejection header_size sizeof_packet maximum_size alloc p reason ifnum cls sub proto vendor product busid node_name with
  | None => False
  | Some None => exists size, alloc size = false /\ header_size < size <= maximum_size
  | Some (Some e) =>
      alloc (le_size e) = true /\ le_size e <= maximum_size /\ le_string_offset e = header_size /\
      le_string_offset e + 2 * (Z.of_nat (length (le_text e)) + 1) = le_size e /\
      le_text e = take (Z.to_nat ((maximum_size - sizeof_packet) / 2) - 1) text /\
      (2 * (Z.of_nat (length text) + 1) <= maximum_size - sizeof_packet -> le_text e = text)
  end /\
  whitelist_shown p 128 shown /\
  ((length (take (Z.to_nat (count p)) (entries p)) <= 12)%nat -> count p <> 0 -> shown = shown_entries (take (Z.to_nat (count p)) (entries p))).
Proof.
  intros Hh Hs Hm text shown. pose proof (format_whitelist_spec p 128 ltac:(lia)) as Hw. fold shown in Hw. split; [|split; [done|]].
  2: { intros Hl Hc. destruct Hw as [_ Hw]. destruct (Z.eqb_spec (count p) 0) as [|_]; [done|]. destruct Hw as (k & _ & _ & Hw). apply Hw. lia. }
  unfold report_rejection. fold text. set (msg := string_fit _ text). unfold max_chars in msg.
  pose proof (Z.div_le_lower_bound (maximum_size - sizeof_packet) 2 1 ltac:(lia) ltac:(lia)) as Hd.
  pose proof (Z.mul_div_le (maximum_size - sizeof_packet) 2 ltac:(lia)) as Hd2.
  assert (2 * (Z.of_nat (length msg) + 1) <= maximum_size - sizeof_packet) as Hl.
  { unfold msg, string_fit. rewrite length_take. lia. }
  assert (u16 ((Z.of_nat (length msg) + 1) * 2) = (Z.of_nat (length msg) + 1) * 2) as -> by (apply u16_id; unfold is_u16; lia).
  assert (u16 (header_size + (Z.of_nat (length msg) + 1) * 2) = header_size + (Z.of_nat (length msg) + 1) * 2) as -> by (apply u16_id; unfold is_u16; lia).
  assert (u8 (header_size + (Z.of_nat (length msg) + 1) * 2) = header_size + (Z.of_nat (length msg) + 1) * 2) as -> by (apply u8_id; unfold is_u8; lia).
  destruct (alloc _) eqn:Ha; cbn [negb].
  2: { eexists. split; [exact Ha|]. lia. }
  rewrite !Z.ltb_irrefl. cbn [orb le_size le_string_offset le_text]. do 2 (split; [done || lia|]). split; [done|]. split; [lia|].
  split; [done|]. intros Hx. unfold msg, string_fit. apply take_ge.
  pose proof (Z.div_le_lower_bound (maximum_size - sizeof_packet) 2 (Z.of_nat (length text) + 1)). lia.
Qed.
End logged.

(** ** Witnesses *)

Module Demo.
Definition mass_storage (sub : byte) : device_filter_entry := {| match_flags := z2b 3; bClass := z2b 8; bSubClass := sub; bProtocol := z2b 0 |}.
(** A policy of [n] entries, the classes 08/01 up. *)
Definition allow (n : nat) : policy :=
  {| mode := z2b 1; count := Z.of_nat n; entries := map (fun k => mass_storage (z2b (Z.of_nat k))) (seq 1 MAX_DEVICE_FILTER_ENTRIES) |}.

Definition log (n : nat) (vendor product : Z) : option (option log_entry) :=
  report_rejection 40 48 240 (fun _ => true) (allow n) "interface class not allowed" 1 3 1 2 vendor product (wide "1-2") (wide "host").

Lemma rejection_logged_in_bounds_witness :
  whitelist_shown (allow 64) 128 (format_whitelist (allow 64) 128) /\ exists e, log 64 1 2 = Some (Some e) /\ le_size e = 232.
Proof.
  pose proof (rejection_logged_in_bounds 40 48 240 (fun _ => true) (allow 64) "interface class not allowed" 1 3 1 2 1 2 (wide "1-2") (wide "host")
    ltac:(lia) ltac:(lia) ltac:(lia)) as (Hr & Hw & _). cbv zeta in Hr. fold (log 64 1 2) in Hr.
  split; [exact Hw|]. destruct (log 64 1 2) as [[e|]|] eqn:He; [|by destruct Hr as (? & ? & _)|done].
  exists e. split; [done|]. assert (match log 64 1 2 with Some (Some e) => le_size e | _ => 0 end = 232) as Hx by (vm_compute; reflexivity).
  by rewrite He in Hx.
Defined.

(** With six entries the event log has no longer room for vendor, product, bus id, host and interface. *)
Lemma vendor_not_logged vendor product : log 6 vendor product = log 6 0 0.
Proof. reflexivity. Qed.

(** With sixty-four the text ends inside of the fourth class, although the whitelist was cut between classes. *)
Lemma entry_cut_in_packet : exists e, log 64 1 2 = Some (Some e) /\
  le_text e = wide "interface class not allowed; class 03/01/02 HID; whitelist: 08/01/**, 08/02/**, 08/03/**, 08/04".
Proof. eexists. split; [reflexivity|]. vm_compute. reflexivity. Qed.

End Demo.
