(* ===== verification/Usbd.v ===== *)
(** * Statuses and transfer flags of the two USB stacks

    Models drivers/libdrv/usbd_helper.cpp: the conversions between Linux errno
    values and USBD_STATUS codes, and between URB transfer flags.  A USBD_STATUS is
    one of the names of usb.h the program uses, or another 32-bit code. *)

From S2P Require Import Prelude.

Inductive usbd_status : Type :=
| USBD_STATUS_SUCCESS | USBD_STATUS_PENDING | USBD_STATUS_CRC | USBD_STATUS_BTSTUFF
| EndpointStalled (* USBD_STATUS_STALL_PID *) | USBD_STATUS_ENDPOINT_HALTED
| USBD_STATUS_DEV_NOT_RESPONDING | USBD_STATUS_DATA_OVERRUN | USBD_STATUS_DATA_UNDERRUN
| USBD_STATUS_NO_BANDWIDTH | USBD_STATUS_INTERNAL_HC_ERROR | USBD_STATUS_HUB_INTERNAL_ERROR
| USBD_STATUS_ERROR_SHORT_TRANSFER | USBD_STATUS_BABBLE_DETECTED | USBD_STATUS_ERROR_BUSY
| USBD_STATUS_ISOCH_REQUEST_FAILED | USBD_STATUS_ISO_TD_ERROR | USBD_STATUS_INVALID_PARAMETER
| USBD_STATUS_INSUFFICIENT_RESOURCES | USBD_STATUS_INVALID_PIPE_HANDLE
| USBD_STATUS_TIMEOUT | USBD_STATUS_DEVICE_GONE | USBD_STATUS_CANCELED
| USBD_OTHER (code : Z).

#[global] Instance usbd_status_eq_dec : EqDecision usbd_status.
Proof. solve_decision. Defined.

(** USBD_ERROR(Status): ((USBD_STATUS)(Status) < 0), the error severity. *)
Definition USBD_ERROR (st : usbd_status) : bool :=
  match st with
  | USBD_STATUS_SUCCESS | USBD_STATUS_PENDING => false
  | USBD_OTHER c => s32 c <? 0
  | _ => true
  end.

Definition ENOENT_LNX : Z := 2.
Definition ENXIO_LNX : Z := 6.
Definition ENOMEM_LNX : Z := 12.
Definition EBUSY_LNX : Z := 16.
Definition EXDEV_LNX : Z := 18.
Definition ENODEV_LNX : Z := 19.
Definition EINVAL_LNX : Z := 22.
Definition ENOSPC_LNX : Z := 28.
Definition EPIPE_LNX : Z := 32.
Definition ETIME_LNX : Z := 62.
Definition ENOSR_LNX : Z := 63.
Definition ECOMM_LNX : Z := 70.
Definition EPROTO_LNX : Z := 71.
Definition EOVERFLOW_LNX : Z := 75.
Definition EILSEQ_LNX : Z := 84.
Definition ECONNRESET_LNX : Z := 104.
Definition ESHUTDOWN_LNX : Z := 108.
Definition ETIMEDOUT_LNX : Z := 110.
Definition EHOSTUNREACH_LNX : Z := 113.
Definition EINPROGRESS_LNX : Z := 115.
Definition EREMOTEIO_LNX : Z := 121.

(** [switch] over integer case labels, in the order of the source. *)
Fixpoint switch {A} (cases : list (list Z * A)) (default : A) (x : Z) : A :=
  match cases with
  | [] => default
  | (labels, a) :: cases => if existsb (Z.eqb x) labels then a else switch cases default x
  end.

Definition to_windows_status_ex (usbip_status : Z) (isoch : bool) : usbd_status :=
  switch
    [([0], USBD_STATUS_SUCCESS);
     ([EPIPE_LNX], EndpointStalled);
     ([EREMOTEIO_LNX], USBD_STATUS_ERROR_SHORT_TRANSFER);
     ([ETIME_LNX], USBD_STATUS_DEV_NOT_RESPONDING);
     ([ETIMEDOUT_LNX], USBD_STATUS_TIMEOUT);
     ([ENOENT_LNX; ECONNRESET_LNX], USBD_STATUS_CANCELED);
     ([EOVERFLOW_LNX], USBD_STATUS_BABBLE_DETECTED);
     ([ENODEV_LNX; ESHUTDOWN_LNX; EHOSTUNREACH_LNX], USBD_STATUS_DEVICE_GONE);
     ([EILSEQ_LNX], USBD_STATUS_CRC);
     ([ECOMM_LNX], USBD_STATUS_DATA_OVERRUN);
     ([ENOSR_LNX], USBD_STATUS_DATA_UNDERRUN);
     ([ENOMEM_LNX], USBD_STATUS_INSUFFICIENT_RESOURCES);
     ([EPROTO_LNX], USBD_STATUS_BTSTUFF);
     ([ENOSPC_LNX], USBD_STATUS_NO_BANDWIDTH);
     ([EXDEV_LNX], if isoch then USBD_STATUS_ISO_TD_ERROR else USBD_STATUS_ISOCH_REQUEST_FAILED);
     ([ENXIO_LNX], USBD_STATUS_INTERNAL_HC_ERROR);
     ([EBUSY_LNX], USBD_STATUS_ERROR_BUSY)]
    USBD_STATUS_INVALID_PARAMETER
    (if 0 <=? usbip_status then usbip_status else s32 (- usbip_status)).

Definition to_windows_status (st : Z) : usbd_status := to_windows_status_ex st false.
Definition to_windows_status_isoch (st : Z) : usbd_status := to_windows_status_ex st true.

Definition to_linux_status (st : usbd_status) : Z :=
  let err :=
    match st with
    | USBD_STATUS_SUCCESS => 0
    | EndpointStalled | USBD_STATUS_ENDPOINT_HALTED => EPIPE_LNX
    | USBD_STATUS_ERROR_SHORT_TRANSFER => EREMOTEIO_LNX
    | USBD_STATUS_TIMEOUT => ETIMEDOUT_LNX
    | USBD_STATUS_CANCELED => ECONNRESET_LNX
    | USBD_STATUS_PENDING => EINPROGRESS_LNX
    | USBD_STATUS_BABBLE_DETECTED => EOVERFLOW_LNX
    | USBD_STATUS_DEVICE_GONE => ENODEV_LNX
    | USBD_STATUS_CRC => EILSEQ_LNX
    | USBD_STATUS_DATA_OVERRUN => ECOMM_LNX
    | USBD_STATUS_DATA_UNDERRUN => ENOSR_LNX
    | USBD_STATUS_INSUFFICIENT_RESOURCES => ENOMEM_LNX
    | USBD_STATUS_BTSTUFF | USBD_STATUS_INTERNAL_HC_ERROR
    | USBD_STATUS_HUB_INTERNAL_ERROR | USBD_STATUS_DEV_NOT_RESPONDING => EPROTO_LNX
    | USBD_STATUS_ERROR_BUSY => EBUSY_LNX
    | USBD_STATUS_INVALID_PIPE_HANDLE => ENOENT_LNX
    | st => if USBD_ERROR st then EINVAL_LNX else 0
    end in
  - err.

(** ** Transfer flags: single bits of usb.h and of <linux/usb.h> *)

Definition USBD_TRANSFER_DIRECTION_OUT : Z := 0.
Definition USBD_TRANSFER_DIRECTION_IN : Z := 1.
Definition USBD_SHORT_TRANSFER_OK : Z := 2.
Definition USBD_START_ISO_TRANSFER_ASAP : Z := 4.
Definition USBD_DEFAULT_PIPE_TRANSFER : Z := 8.

Definition URB_SHORT_NOT_OK : Z := 1.
Definition URB_ISO_ASAP : Z := 2.

Definition has_flag (flags f : Z) : bool := negb (Z.land flags f =? 0).

(** USBD_TRANSFER_DIRECTION_FLAG(flags) is flags & USBD_TRANSFER_DIRECTION. *)
Definition IsTransferDirectionIn (flags : Z) : bool := Z.land flags 1 =? USBD_TRANSFER_DIRECTION_IN.
Definition IsTransferDirectionOut (flags : Z) : bool := Z.land flags 1 =? USBD_TRANSFER_DIRECTION_OUT.

Definition to_windows_flags (transfer_flags : Z) (is_in : bool) : Z :=
  let f := if is_in then USBD_TRANSFER_DIRECTION_IN else USBD_TRANSFER_DIRECTION_OUT in
  let f := if is_in && negb (has_flag transfer_flags URB_SHORT_NOT_OK) then Z.lor f USBD_SHORT_TRANSFER_OK else f in
  if has_flag transfer_flags URB_ISO_ASAP then Z.lor f USBD_START_ISO_TRANSFER_ASAP else f.

Definition to_linux_flags (TransferFlags : Z) (is_in : bool) : Z :=
  if has_flag TransferFlags USBD_START_ISO_TRANSFER_ASAP then URB_ISO_ASAP
  else if is_in && negb (has_flag TransferFlags USBD_SHORT_TRANSFER_OK) then URB_SHORT_NOT_OK
  else 0.

(** ** Lemmas *)

Lemma switch_spec {A} cases (d : A) x :
  (exists labels a, (labels, a) ∈ cases /\ In x labels /\ switch cases d x = a) \/
  ((forall labels a, (labels, a) ∈ cases -> ~ In x labels) /\ switch cases d x = d).
Proof.
  induction cases as [|[labels a] cases IH]; simpl.
  - right. split; [|done]. intros ? ? H. by apply elem_of_nil in H.
  - destruct (existsb (Z.eqb x) labels) eqn:E.
    + left. exists labels, a. apply existsb_exists in E as (y & Hy & Heq). apply Z.eqb_eq in Heq as ->.
      split; [left|done].
    + destruct IH as [(l & b & Hin & Hx & Hs)|[Hno Hs]].
      * left. exists l, b. split; [by right|done].
      * right. split; [|done]. intros l b H. apply elem_of_cons in H as [H|H]; [|by eapply Hno].
        injection H as -> ->. intros Hx. assert (existsb (Z.eqb x) labels = true); [|congruence].
        apply existsb_exists. exists x. split; [done|apply Z.eqb_refl].
Qed.

Lemma to_windows_status_abs st isoch : is_s32 st -> st <> - 2 ^ 31 ->
  to_windows_status_ex st isoch = to_windows_status_ex (Z.abs st) isoch.
Proof.
  intros Hs Hne. unfold to_windows_status_ex, is_s32 in *. f_equal.
  destruct (Z.leb_spec 0 st); destruct (Z.leb_spec 0 (Z.abs st)); try lia.
  rewrite s32_id by (unfold is_s32; lia). lia.
Qed.

(** Every label of the conversion but zero maps to an error. *)
Lemma to_windows_status_error st isoch : is_s32 st ->
  USBD_ERROR (to_windows_status_ex st isoch) = negb (st =? 0) /\
  to_windows_status_ex st isoch <> USBD_STATUS_PENDING.
Proof.
  intros Hs. unfold to_windows_status_ex. set (x := if 0 <=? st then st else s32 (- st)).
  assert (x = 0 <-> st = 0) as Hx.
  { unfold x, is_s32 in *. destruct (Z.leb_spec 0 st); [done|]. destruct (decide (st = - 2 ^ 31)) as [->|];
      [split; [intros Hz; vm_compute in Hz; lia|lia]|]. rewrite s32_id by (unfold is_s32; lia). lia. }
  clearbody x. destruct (Z.eqb_spec x 0) as [->|Hne].
  { destruct (Z.eqb_spec st 0); [|tauto]. split; [reflexivity|discriminate]. }
  destruct (Z.eqb_spec st 0); [tauto|]. cbn [negb].
  cbn [switch existsb]. destruct (Z.eqb_spec x 0); [done|]. cbn [orb].
  repeat match goal with |- context [if ?b then _ else _] => destruct b end; split; done.
Qed.

(** ** Properties *)

(** For every 32-bit server status, zero is the only one converted to a USBD
    success, every other one becomes an error and never "pending", the sign does not
    matter, and converting back gives a Linux status that is zero for success and
    otherwise negative; the twelve codes with a USBD equivalent come back unchanged. *)
Theorem status_conversion st isoch : is_s32 st ->
  (to_windows_status_ex st isoch = USBD_STATUS_SUCCESS <-> st = 0) /\
  (st <> 0 -> USBD_ERROR (to_windows_status_ex st isoch) = true /\
              to_windows_status_ex st isoch <> USBD_STATUS_PENDING) /\
  (st <> - 2 ^ 31 -> to_windows_status_ex (- st) isoch = to_windows_status_ex st isoch) /\
  (to_linux_status (to_windows_status_ex st isoch) = 0 <-> st = 0) /\
  to_linux_status (to_windows_status_ex st isoch) <= 0 /\
  (- st ∈ [0; EPIPE_LNX; EREMOTEIO_LNX; ETIMEDOUT_LNX; ECONNRESET_LNX; EOVERFLOW_LNX; ENODEV_LNX;
           EILSEQ_LNX; ECOMM_LNX; ENOSR_LNX; ENOMEM_LNX; EPROTO_LNX; EBUSY_LNX] ->
     to_linux_status (to_windows_status_ex st isoch) = st).
Proof.
  intros Hs. pose proof (to_windows_status_error st isoch Hs) as [He Hp].
  assert (to_windows_status_ex st isoch = USBD_STATUS_SUCCESS <-> st = 0) as Hsucc.
  { split; [|by intros ->]. intros E. rewrite E in He. simpl in He. lia. }
  split; [done|]. split; [intros Hne; split; [rewrite He; lia|done]|]. split; [|split; [|split]].
  - intros Hne. rewrite (to_windows_status_abs st), (to_windows_status_abs (- st)) by (unfold is_s32 in *; lia).
    f_equal. lia.
  - rewrite <- Hsucc. destruct (to_windows_status_ex st isoch); cbn [to_linux_status USBD_ERROR] in *; try done;
      split; intros E; try done.
    + cbv beta iota zeta delta [to_linux_status USBD_ERROR EINVAL_LNX] in E. destruct (s32 code <? 0) eqn:Ec; [lia|].
      assert (st = 0) as Hz by lia. apply Hsucc in Hz. done.
  - destruct (to_windows_status_ex st isoch); cbv beta iota zeta delta [to_linux_status USBD_ERROR];
      repeat match goal with |- context [if ?b then _ else _] => destruct b end; by vm_compute.
  - intros Hin. repeat (apply elem_of_cons in Hin as [Hin|Hin];
      [assert (st = - (- st)) as Hst by lia; rewrite Hin in Hst; rewrite Hst; reflexivity|]).
    by apply elem_of_nil in Hin.
Qed.

Lemma status_conversion_witness :
  to_windows_status (-32) = EndpointStalled /\ to_linux_status (to_windows_status (-32)) = -32.
Proof.
  split; [reflexivity|]. apply (status_conversion (-32) false).
  - unfold is_s32. lia.
  - change (- -32) with EPIPE_LNX. right. left.
Defined.

(** The direction of the URB flags is the direction asked for, the conversion to
    Linux flags sets at most one of the two bits the server understands, and Linux flags
    survive the two conversions up to the rule that a start-as-soon-as-possible transfer
    does not carry the short-transfer bit, which only an IN transfer has. *)
Theorem flags_conversion f is_in : 0 <= f < 4 ->
  IsTransferDirectionIn (to_windows_flags f is_in) = is_in /\
  IsTransferDirectionOut (to_windows_flags f is_in) = negb is_in /\
  to_linux_flags (to_windows_flags f is_in) is_in =
    (if has_flag f URB_ISO_ASAP then URB_ISO_ASAP
     else if is_in && has_flag f URB_SHORT_NOT_OK then URB_SHORT_NOT_OK else 0) /\
  (forall tf, to_linux_flags tf is_in ∈ [0; URB_SHORT_NOT_OK; URB_ISO_ASAP]).
Proof.
  intros Hf. assert (f = 0 \/ f = 1 \/ f = 2 \/ f = 3) as Hcases by lia.
  destruct is_in; destruct Hcases as [->|[->|[->| ->]]];
    (split; [reflexivity|]; split; [reflexivity|]; split; [reflexivity|]);
    intros tf; unfold to_linux_flags; repeat case_match; repeat constructor.
Qed.

Lemma flags_conversion_witness : to_linux_flags (to_windows_flags URB_SHORT_NOT_OK true) true = URB_SHORT_NOT_OK.
Proof. apply (flags_conversion URB_SHORT_NOT_OK true). unfold URB_SHORT_NOT_OK. lia. Defined.
