(* ===== verification/Isoch.v ===== *)
(** * Isochronous transfers

    Models [repack] of drivers/ude/device_ioctl.cpp, which turns the packets of an URB
    into packet descriptors for the server, and [fill_isoc_data] of
    drivers/ude/wsk_receive.cpp, which unpacks the compacted data of the response in
    place, moving each packet from the end to its offset.  Memory is a list of bytes
    and [None] is an access outside of it. *)

From S2P Require Import Prelude Proto Usbd.

(** ** Data *)

(** USBD_ISO_PACKET_DESCRIPTOR *)
Record usbd_iso_packet : Type := { Offset : Z; Length : Z; Status : usbd_status }.

(** The members of _URB_ISOCH_TRANSFER these functions use; NumberOfPackets is the
    length of IsoPacket. *)
Record urb_isoch : Type := { TransferBufferLength : Z; IsoPacket : list usbd_iso_packet }.

Definition set_packet (f : usbd_iso_packet -> usbd_iso_packet) (i : nat) (pkts : list usbd_iso_packet) : list usbd_iso_packet :=
  alter f i pkts.

Definition set_Status (st : usbd_status) (p : usbd_iso_packet) : usbd_iso_packet :=
  {| Offset := Offset p; Length := Length p; Status := st |}.
Definition set_Length (l : Z) (p : usbd_iso_packet) : usbd_iso_packet :=
  {| Offset := Offset p; Length := l; Status := Status p |}.

(** ** repack *)

(** The loop from a packet on; [next_offset] is the next packet's offset or the length
    of the buffer.  The result is the status and the descriptors written. *)
Fixpoint repack_loop (pkts : list usbd_iso_packet) (tbl : Z) : res (list iso_packet_descriptor) :=
  match pkts with
  | [] => Ok []
  | p :: pkts =>
      let next_offset := match pkts with q :: _ => Offset q | [] => tbl end in
      if (Offset p <=? next_offset) && (next_offset <=? tbl) then
        ds ← repack_loop pkts tbl;
        Ok ({| iso_offset := Offset p; iso_length := next_offset - Offset p;
               iso_actual_length := 0; iso_status := 0 |} :: ds)
      else Err STATUS_INVALID_PARAMETER
  end.

Definition repack (r : urb_isoch) : res (list iso_packet_descriptor) :=
  repack_loop (IsoPacket r) (TransferBufferLength r).

(** ** fill_isoc_data *)

(** RtlMoveMemory inside one buffer. *)
Definition memmove (buf : list byte) (dst src n : nat) : option (list byte) :=
  if decide (dst + n <= length buf /\ src + n <= length buf)%nat then
    Some (take dst buf ++ take n (drop src buf) ++ drop (dst + n) buf)
  else None.

Record fill_state : Type := {
  packets : list usbd_iso_packet; buffer : option (list byte); remaining : Z }.

(** One iteration, for packet [i]: the next state, or the status it returns. *)
Definition fill_step (tbl : Z) (src : list iso_packet_descriptor) (i : nat) (s : fill_state)
    : option (fill_state * option ntstatus) :=
  sd ← src !! i;
  let st := if negb (iso_status sd =? 0) then to_windows_status_isoch (s32 (iso_status sd)) else USBD_STATUS_SUCCESS in
  let pkts := set_packet (set_Status st) i (packets s) in
  dd ← pkts !! i;
  let s1 := {| packets := pkts; buffer := buffer s; remaining := remaining s |} in
  let stop := Some (s1, Some STATUS_INVALID_PARAMETER) in
  match buffer s with
  | None => Some (s1, None)
  | Some buf =>
      let al := iso_actual_length sd in
      if al =? 0 then
        Some ({| packets := set_packet (set_Length 0) i pkts; buffer := Some buf; remaining := remaining s |}, None)
      else if iso_length sd <? al then stop
      else if negb (iso_offset sd =? Offset dd) then stop
      else if remaining s <? al then stop
      else
        let len := remaining s - al in
        let stop' := Some ({| packets := pkts; buffer := Some buf; remaining := len |}, Some STATUS_INVALID_PARAMETER) in
        if tbl <? u32 (Offset dd + al) then stop'
        else if Offset dd <? len then stop'
        else
          buf ← (if len <? Offset dd then memmove buf (Z.to_nat (Offset dd)) (Z.to_nat len) (Z.to_nat al)
                 else Some buf);
          Some ({| packets := set_packet (set_Length al) i pkts; buffer := Some buf; remaining := len |}, None)
  end.

(** [for (auto i = LONG64(r.NumberOfPackets) - 1; i >= 0; --i)]: [n] packets are left. *)
Fixpoint fill_loop (tbl : Z) (src : list iso_packet_descriptor) (n : nat) (s : fill_state)
    : option (fill_state * option ntstatus) :=
  match n with
  | O => Some (s, None)
  | S i =>
      '(s, err) ← fill_step tbl src i s;
      match err with
      | Some e => Some (s, Some e)
      | None => fill_loop tbl src i s
      end
  end.

(** The status, the packets and the buffer after the call. *)
Definition fill_isoc_data (r : urb_isoch) (buf : option (list byte)) (length : Z) (src : list iso_packet_descriptor)
    : option (ntstatus * list usbd_iso_packet * option (list byte)) :=
  '(s, err) ← fill_loop (TransferBufferLength r) src (List.length (IsoPacket r))
                {| packets := IsoPacket r; buffer := buf; remaining := length |};
  let st := match err with
            | Some e => e
            | None => if negb (remaining s =? 0) && bool_decide (is_Some buf) then STATUS_INVALID_PARAMETER
                      else STATUS_SUCCESS
            end in
  Some (st, packets s, buffer s).

(** ** Specification *)

(** Where a compacted response keeps packet [i]: after the data of the packets before it. *)
Definition data_before (src : list iso_packet_descriptor) (i : nat) : Z :=
  foldr Z.add 0 (map iso_actual_length (take i src)).

Definition slice (o n : Z) (buf : list byte) : list byte := take (Z.to_nat n) (drop (Z.to_nat o) buf).

(** The packets of an URB that [repack] accepts. *)
Definition packets_ok (r : urb_isoch) : Prop :=
  0 <= TransferBufferLength r < 2 ^ 31 /\
  forall i p, IsoPacket r !! i = Some p -> 0 <= Offset p <= TransferBufferLength r.

(** ** Lemmas: repack *)

Lemma repack_loop_cons p pkts tbl ds :
  repack_loop (p :: pkts) tbl = Ok ds ->
  exists d ds' next, ds = d :: ds' /\ repack_loop pkts tbl = Ok ds' /\
    next = match pkts with q :: _ => Offset q | [] => tbl end /\
    Offset p <= next <= tbl /\
    d = {| iso_offset := Offset p; iso_length := next - Offset p; iso_actual_length := 0; iso_status := 0 |}.
Proof.
  cbn [repack_loop]. set (next := match pkts with q :: _ => Offset q | [] => tbl end).
  destruct ((Offset p <=? next) && (next <=? tbl)) eqn:E; [|discriminate].
  intros (ds' & Hr & Hd)%res_bind_Ok. injection Hd as <-. bool_prop. eexists _, ds', next. split_and!; auto; lia.
Qed.

Lemma repack_loop_spec pkts tbl ds : repack_loop pkts tbl = Ok ds ->
  length ds = length pkts /\
  (forall i p d, pkts !! i = Some p -> ds !! i = Some d ->
     iso_offset d = Offset p /\ iso_actual_length d = 0 /\ iso_status d = 0 /\ 0 <= iso_length d /\
     Offset p <= tbl /\
     iso_offset d + iso_length d = match pkts !! S i with Some q => Offset q | None => tbl end) /\
  foldr Z.add 0 (map iso_length ds) = match pkts with p :: _ => tbl - Offset p | [] => 0 end.
Proof.
  revert ds. induction pkts as [|p pkts IH]; intros ds Hr.
  - injection Hr as <-. split; [done|]. split; [intros; done|done].
  - destruct (repack_loop_cons _ _ _ _ Hr) as (d & ds' & next & -> & Hr' & Hn & Hle & ->).
    destruct (IH ds' Hr') as (Hl & Hp & Hs). split; [simpl; by rewrite Hl|]. split.
    + intros [|i] q d Hq Hd; simpl in Hq, Hd.
      * injection Hq as <-. injection Hd as <-. cbn. split_and!; try lia. rewrite Hn. destruct pkts; simpl; lia.
      * by apply (Hp i q d).
    + cbn [map foldr iso_length]. rewrite Hs, Hn. destruct pkts; lia.
Qed.

Lemma repack_loop_error pkts tbl : (exists ds, repack_loop pkts tbl = Ok ds) \/
  repack_loop pkts tbl = Err STATUS_INVALID_PARAMETER.
Proof.
  induction pkts as [|p pkts IH]; [left; by eexists|]. cbn [repack_loop].
  destruct (_ && _); [|by right]. destruct IH as [[ds ->]| ->]; [left; by eexists|by right].
Qed.

(** ** Lemmas: memory *)

Lemma memmove_spec buf dst src n : (dst + n <= length buf)%nat -> (src + n <= length buf)%nat ->
  exists buf', memmove buf dst src n = Some buf' /\ length buf' = length buf /\
    take n (drop dst buf') = take n (drop src buf) /\
    (forall k, (k < dst)%nat \/ (dst + n <= k)%nat -> buf' !! k = buf !! k).
Proof.
  intros Hd Hs. unfold memmove. rewrite decide_True by done. eexists. split; [done|].
  assert (length (take n (drop src buf)) = n) as Hn by (rewrite length_take, length_drop; lia).
  assert (length (take dst buf) = dst) as Ht by (rewrite length_take; lia).
  split; [rewrite !length_app, length_drop; lia|]. split.
  - rewrite drop_app_length' by lia. by rewrite take_app_length' by lia.
  - intros k [Hk|Hk].
    + rewrite lookup_app_l by lia. apply lookup_take_lt. lia.
    + rewrite !lookup_app_r by lia. rewrite lookup_drop. f_equal. lia.
Qed.

(** ** Lemmas: the loop of fill_isoc_data *)

Definition sum_actual (src : list iso_packet_descriptor) : Z := foldr Z.add 0 (map iso_actual_length src).

Lemma sum_actual_app a b : sum_actual (a ++ b) = sum_actual a + sum_actual b.
Proof. unfold sum_actual. induction a as [|x a IH]; simpl; [done|]. rewrite IH. lia. Qed.

Lemma sum_actual_drop src i sd : src !! i = Some sd ->
  sum_actual (drop i src) = iso_actual_length sd + sum_actual (drop (S i) src).
Proof. intros H. by rewrite (drop_S _ _ _ H). Qed.

Lemma set_packet_offsets f i (pkts pkts0 : list usbd_iso_packet) :
  (forall p, Offset (f p) = Offset p) -> Offset <$> pkts = Offset <$> pkts0 ->
  Offset <$> set_packet f i pkts = Offset <$> pkts0.
Proof.
  intros Hf <-. unfold set_packet. apply list_eq. intros k. rewrite !list_lookup_fmap.
  destruct (decide (k = i)) as [->|Hne].
  - rewrite list_lookup_alter_eq. destruct (pkts !! i); simpl; [by rewrite Hf|done].
  - by rewrite list_lookup_alter_ne.
Qed.

Definition packet_status (sd : iso_packet_descriptor) : usbd_status :=
  if negb (iso_status sd =? 0) then to_windows_status_isoch (s32 (iso_status sd)) else USBD_STATUS_SUCCESS.

Section fill.
Context (r : urb_isoch) (src : list iso_packet_descriptor) (b : list byte) (len0 : Z).
Let tbl := TransferBufferLength r.
Hypothesis Hr : packets_ok r.
Hypothesis Hsrc : length src = length (IsoPacket r).
Hypothesis Hiso : Forall iso_ok src.
Hypothesis Hb : Z.of_nat (length b) = tbl.
Hypothesis Hlen0 : 0 <= len0 <= tbl.

(** The packets keep their places, the data not yet moved is where the server's
    response put it, and the moved packets are at their offsets (unless a later move could
    overlap them). *)
Record inv (n : nat) (s : fill_state) : Prop := {
  inv_offsets : Offset <$> packets s = Offset <$> IsoPacket r;
  inv_buffer : exists bn, buffer s = Some bn /\ length bn = length b /\
      (forall k, Z.of_nat k < remaining s -> bn !! k = b !! k) /\
      (forall i sd p, (n <= i)%nat -> src !! i = Some sd -> IsoPacket r !! i = Some p ->
         (forall j sd' p', (j < i)%nat -> src !! j = Some sd' -> IsoPacket r !! j = Some p' ->
            iso_actual_length sd' = 0 \/ Offset p' + iso_actual_length sd' <= Offset p) ->
         slice (Offset p) (iso_actual_length sd) bn =
         slice (len0 - sum_actual (drop i src)) (iso_actual_length sd) b);
  inv_remaining : 0 <= remaining s <= tbl /\ remaining s + sum_actual (drop n src) = len0;
  inv_done : forall i sd p, (n <= i)%nat -> src !! i = Some sd -> packets s !! i = Some p ->
      Length p = iso_actual_length sd /\ Status p = packet_status sd }.

Lemma iso_field_range i sd : src !! i = Some sd -> is_u32 (iso_actual_length sd) /\ is_u32 (iso_offset sd).
Proof.
  intros H. pose proof (Forall_lookup_1 _ _ _ _ Hiso H) as Hi. unfold iso_ok in Hi.
  rewrite !List.Forall_cons_iff in Hi. tauto.
Qed.

Lemma slice_ext o n (x y : list byte) : 0 <= o -> 0 <= n ->
  (forall k, o <= Z.of_nat k < o + n -> x !! k = y !! k) -> slice o n x = slice o n y.
Proof.
  intros Ho Hn H. unfold slice. apply list_eq. intros k.
  destruct (decide (k < Z.to_nat n)%nat) as [Hk|Hk].
  - rewrite !lookup_take_lt, !lookup_drop by done. apply H. lia.
  - by rewrite !lookup_take_ge by lia.
Qed.

Lemma slice_lookup o n (x : list byte) k : 0 <= o -> 0 <= k < n -> slice o n x !! Z.to_nat k = x !! Z.to_nat (o + k).
Proof. intros Ho Hk. unfold slice. rewrite lookup_take_lt by lia. rewrite lookup_drop. f_equal. lia. Qed.

Ltac stop_here bn :=
  eexists _, _; split; [reflexivity|]; cbn [packets buffer]; split; [done|]; split; [done|]; by exists bn.

(** One packet. *)
Lemma fill_step_spec i s : (i < length src)%nat -> inv (S i) s ->
  exists s' err, fill_step tbl src i s = Some (s', err) /\
    match err with
    | None => inv i s'
    | Some e => e = STATUS_INVALID_PARAMETER /\ Offset <$> packets s' = Offset <$> IsoPacket r /\
                exists bn, buffer s' = Some bn /\ length bn = length b
    end.
Proof.
  intros Hi [Hoff (bn & Hbuf & Hbl & Hsame & Hmoved) (Hrem & Hsum) Hdone].
  destruct (lookup_lt_is_Some_2 src i Hi) as [sd Hsd].
  destruct (lookup_lt_is_Some_2 (IsoPacket r) i) as [p0 Hp0]; [lia|].
  destruct (iso_field_range i sd Hsd) as [Hal Hof]. unfold is_u32 in Hal, Hof.
  destruct Hr as [Htbl Hoffs]. specialize (Hoffs i p0 Hp0) as Hp0o. fold tbl in Htbl, Hp0o.
  unfold fill_step. rewrite Hsd. cbn [mbind option_bind]. fold (packet_status sd).
  set (pk1 := set_packet (set_Status (packet_status sd)) i (packets s)).
  assert (Offset <$> pk1 = Offset <$> IsoPacket r) as Hoff1 by (by apply set_packet_offsets).
  assert (exists dd, pk1 !! i = Some dd /\ Offset dd = Offset p0) as (dd & Hdd & Hddo).
  { assert ((Offset <$> pk1) !! i = Some (Offset p0)) as H by (rewrite Hoff1, list_lookup_fmap, Hp0; done).
    rewrite list_lookup_fmap in H. destruct (pk1 !! i) as [dd|]; [|done]. injection H as H. eauto. }
  assert (Status dd = packet_status sd) as Hddst.
  { unfold pk1, set_packet in Hdd. rewrite list_lookup_alter_eq in Hdd. destruct (packets s !! i); [|done].
    injection Hdd as <-. done. }
  rewrite Hdd. cbn [mbind option_bind]. rewrite Hbuf.
  assert (forall l j sd' p', (i <= j)%nat -> src !! j = Some sd' -> l = iso_actual_length sd ->
            set_packet (set_Length l) i pk1 !! j = Some p' ->
            Length p' = iso_actual_length sd' /\ Status p' = packet_status sd') as Hfin.
  { intros l j sd' p' Hj Hsd' -> Hp'. unfold set_packet in Hp'. destruct (decide (j = i)) as [->|Hne].
    - rewrite list_lookup_alter_eq, Hdd in Hp'. injection Hp' as <-. assert (sd' = sd) as -> by congruence. done.
    - rewrite list_lookup_alter_ne in Hp' by done. unfold pk1, set_packet in Hp'.
      rewrite list_lookup_alter_ne in Hp' by done. apply (Hdone j); [lia|done|done]. }
  assert (sum_actual (drop i src) = iso_actual_length sd + sum_actual (drop (S i) src)) as Hsd_sum
    by (by apply sum_actual_drop).
  destruct (Z.eqb_spec (iso_actual_length sd) 0) as [E0|E0].
  { eexists _, None. split; [reflexivity|]. split; cbn [packets buffer remaining].
    - by apply set_packet_offsets.
    - exists bn. split; [done|]. split; [done|]. split; [done|].
      intros j sd' p' Hj Hsd' Hp' Hbefore. destruct (decide (j = i)) as [->|Hne].
      + assert (sd' = sd) as -> by congruence. unfold slice. by rewrite E0, !take_0.
      + apply Hmoved; auto; lia.
    - split; [done|lia].
    - intros j sd' p' Hj Hsd' Hp'. by apply (Hfin 0 j). }
  destruct (Z.ltb_spec (iso_length sd) (iso_actual_length sd)) as [|Hle];
    [stop_here bn|].
  destruct (Z.eqb_spec (iso_offset sd) (Offset dd)) as [Ho|];
    [|stop_here bn]. cbn [negb].
  destruct (Z.ltb_spec (remaining s) (iso_actual_length sd)) as [|Hge];
    [stop_here bn|].
  set (len := remaining s - iso_actual_length sd).
  rewrite Hddo.
  destruct (Z.ltb_spec tbl (u32 (Offset p0 + iso_actual_length sd))) as [|Hend];
    [stop_here bn|].
  rewrite u32_id in Hend by (unfold is_u32; lia).
  destruct (Z.ltb_spec (Offset p0) len) as [|Hgap]; [stop_here bn|].
  assert (exists bm, (if len <? Offset p0 then memmove bn (Z.to_nat (Offset p0)) (Z.to_nat len) (Z.to_nat (iso_actual_length sd))
             else Some bn) = Some bm /\ length bm = length b /\
           slice (Offset p0) (iso_actual_length sd) bm = slice len (iso_actual_length sd) bn /\
           (forall k, Z.of_nat k < Offset p0 \/ Offset p0 + iso_actual_length sd <= Z.of_nat k -> bm !! k = bn !! k))
    as (bm & Hbm & Hbml & Hslice & Hkeep).
  { destruct (Z.ltb_spec len (Offset p0)) as [Hlt|Hnlt].
    - destruct (memmove_spec bn (Z.to_nat (Offset p0)) (Z.to_nat len) (Z.to_nat (iso_actual_length sd)))
        as (bm & Hm & Hl & Hs & Hk); [lia|lia|]. exists bm. split; [done|]. split; [lia|]. split; [done|].
      intros k Hkk. apply Hk. lia.
    - exists bn. split; [done|]. split; [done|]. split; [|done]. f_equal. lia. }
  rewrite Hbm. cbn [mbind option_bind]. eexists _, None. split; [reflexivity|]. split; cbn [packets buffer remaining].
  - by apply set_packet_offsets.
  - exists bm. split; [done|]. split; [done|]. split.
    + intros k Hk. rewrite Hkeep by lia. apply Hsame. lia.
    + intros j sd' p' Hj Hsd' Hp' Hbefore. destruct (decide (j = i)) as [->|Hne].
      * assert (sd' = sd) as -> by congruence. assert (p' = p0) as -> by congruence.
        rewrite Hslice. replace (len0 - sum_actual (drop i src)) with len by lia.
        apply slice_ext; [lia|lia|]. intros k Hk. apply Hsame. lia.
      * rewrite <- (Hmoved j sd' p') by (auto; lia).
        destruct (Hbefore i sd p0) as [|Hno]; [lia|done|done|lia|].
        destruct (iso_field_range j sd' Hsd') as [Hal' _]. unfold is_u32 in Hal'.
        apply slice_ext; [lia|lia|]. intros k Hk. apply Hkeep. lia.
  - split; [lia|]. unfold len. lia.
  - intros j sd' p' Hj Hsd' Hp'. by apply (Hfin (iso_actual_length sd) j).
Qed.


Lemma inv_start : inv (length src) {| packets := IsoPacket r; buffer := Some b; remaining := len0 |}.
Proof.
  split; cbn [packets buffer remaining].
  - done.
  - exists b. split; [done|]. split; [done|]. split; [done|]. intros i sd p Hi Hsd.
    apply lookup_lt_Some in Hsd. lia.
  - rewrite drop_all. cbn. split; [done|lia].
  - intros i sd p Hi Hsd. apply lookup_lt_Some in Hsd. lia.
Qed.
End fill.

(** The submitted packets of an accepted URB: increasing slots inside the buffer. *)
Lemma repack_slots r ds : repack r = Ok ds ->
  length ds = length (IsoPacket r) /\
  forall i j d p q, (i < j)%nat -> ds !! i = Some d -> IsoPacket r !! i = Some p -> IsoPacket r !! j = Some q ->
    Offset p + iso_length d <= Offset q.
Proof.
  unfold repack. destruct r as [tbl pkts]. cbn [IsoPacket TransferBufferLength]. intros Hrp.
  destruct (repack_loop_spec _ _ _ Hrp) as (Hl & Hp & _). split; [done|].
  intros i j d p q Hij Hd Hpi Hq. revert q Hq. induction j as [|j IH]; intros q Hq; [lia|].
  destruct (decide (i = j)) as [->|Hne].
  - destruct (Hp j p d Hpi Hd) as (Ho & _ & _ & _ & _ & Hn). rewrite Hq in Hn. lia.
  - destruct (lookup_lt_is_Some_2 pkts j) as [p1 Hp1]; [apply lookup_lt_Some in Hq; lia|].
    destruct (lookup_lt_is_Some_2 ds j) as [d1 Hd1]; [rewrite Hl; by apply lookup_lt_Some in Hp1|].
    specialize (IH ltac:(lia) p1 Hp1). destruct (Hp j p1 d1 Hp1 Hd1) as (Ho & _ & _ & Hnn & _ & Hn).
    rewrite Hq in Hn. lia.
Qed.

Lemma repack_packets_ok r ds : repack r = Ok ds -> is_u32 (TransferBufferLength r) -> TransferBufferLength r < 2 ^ 31 ->
  (forall p, p ∈ IsoPacket r -> 0 <= Offset p) -> packets_ok r.
Proof.
  intros Hr Hu Ht Ho. split; [unfold is_u32 in Hu; lia|]. intros i p Hp.
  destruct (repack_loop_spec _ _ _ Hr) as (Hl & Hspec & _).
  destruct (lookup_lt_is_Some_2 ds i) as [d Hd]; [rewrite Hl; by apply lookup_lt_Some in Hp|].
  destruct (Hspec i p d Hp Hd) as (_ & _ & _ & _ & Hle & _). split; [|done]. apply Ho. by eapply list_elem_of_lookup_2.
Qed.

(** An URB as the class drivers build it: unsigned offsets, a buffer of less than 2 GB. *)
Definition urb_ok (r : urb_isoch) : Prop :=
  0 <= TransferBufferLength r < 2 ^ 31 /\ forall p, p ∈ IsoPacket r -> 0 <= Offset p.

Lemma data_before_drop src i : sum_actual src - sum_actual (drop i src) = data_before src i.
Proof.
  unfold data_before. rewrite <- (take_drop i src) at 1. rewrite sum_actual_app. unfold sum_actual. lia.
Qed.

(** A response of a server that echoes the submitted packets: each packet's offset and
    slot are those of the request, its data fits the slot, and the data is what the
    header announced. *)
Definition honest_response (ds src : list iso_packet_descriptor) (len0 : Z) : Prop :=
  (forall i d sd, ds !! i = Some d -> src !! i = Some sd ->
     iso_offset sd = iso_offset d /\ iso_length sd = iso_length d /\
     0 <= iso_actual_length sd <= iso_length d) /\
  sum_actual src = len0.

Lemma take_S_sum src i sd : src !! i = Some sd -> data_before src (S i) = data_before src i + iso_actual_length sd.
Proof.
  intros H. unfold data_before. rewrite (take_S_r _ _ _ H). fold (sum_actual (take i src ++ [sd])).
  fold (sum_actual (take i src)). rewrite sum_actual_app. unfold sum_actual at 2. simpl. lia.
Qed.

(** The data of an honest response up to a packet fits before its offset. *)
Lemma honest_data_before r ds src len0 i p : repack r = Ok ds -> urb_ok r ->
  length src = length (IsoPacket r) -> honest_response ds src len0 ->
  IsoPacket r !! i = Some p -> 0 <= data_before src i <= Offset p.
Proof.
  intros Hr Hu Hsrc [Hh _]. destruct (repack_loop_spec _ _ _ Hr) as (Hl & Hspec & _). revert p.
  induction i as [|i IH]; intros p Hp.
  - unfold data_before. simpl. split; [lia|]. apply Hu. by eapply list_elem_of_lookup_2.
  - destruct (lookup_lt_is_Some_2 (IsoPacket r) i) as [q Hq]; [apply lookup_lt_Some in Hp; lia|].
    destruct (lookup_lt_is_Some_2 ds i) as [d Hd]; [rewrite Hl; by apply lookup_lt_Some in Hq|].
    destruct (lookup_lt_is_Some_2 src i) as [sd Hsd]; [rewrite Hsrc; by apply lookup_lt_Some in Hq|].
    rewrite (take_S_sum _ _ _ Hsd). destruct (Hh i d sd Hd Hsd) as (_ & _ & Ha).
    destruct (Hspec i q d Hq Hd) as (Ho & _ & _ & _ & _ & Hn). rewrite Hp in Hn. specialize (IH q Hq). lia.
Qed.

Lemma fill_step_honest r ds src b len0 i s : repack r = Ok ds -> urb_ok r ->
  length src = length (IsoPacket r) -> honest_response ds src len0 ->
  (i < length src)%nat -> inv r src b len0 (S i) s ->
  forall s' err, fill_step (TransferBufferLength r) src i s = Some (s', err) -> err = None.
Proof.
  intros Hr Hu Hsrc Hh Hi [Hoff (bn & Hbuf & _) (Hrem & Hsum) _] s' err.
  destruct (lookup_lt_is_Some_2 src i Hi) as [sd Hsd].
  destruct (lookup_lt_is_Some_2 (IsoPacket r) i) as [p0 Hp0]; [lia|].
  destruct (repack_loop_spec _ _ _ Hr) as (Hl & Hspec & _).
  destruct (lookup_lt_is_Some_2 ds i) as [d Hd]; [rewrite Hl; lia|].
  pose proof (honest_data_before r ds src len0 i p0 Hr Hu Hsrc Hh Hp0) as Hdb.
  destruct Hh as [Hh Hlen]. destruct (Hh i d sd Hd Hsd) as (Eo & El & Ha).
  destruct (Hspec i p0 d Hp0 Hd) as (Ho & _ & _ & _ & Hle & Hn).
  assert (remaining s - iso_actual_length sd = data_before src i) as Hrem'.
  { rewrite <- data_before_drop, (sum_actual_drop _ _ _ Hsd). lia. }
  assert (Offset p0 + iso_length d <= TransferBufferLength r) as Hend.
  { rewrite <- Ho, Hn. destruct (IsoPacket r !! S i) as [q|] eqn:Hq; [|lia].
    destruct (lookup_lt_is_Some_2 ds (S i)) as [d' Hd']; [rewrite Hl; by apply lookup_lt_Some in Hq|].
    destruct (Hspec (S i) q d' Hq Hd') as (_ & _ & _ & _ & ? & _). lia. }
  destruct Hu as [Ht _].
  unfold fill_step. rewrite Hsd. cbn [mbind option_bind]. fold (packet_status sd).
  set (pk1 := set_packet (set_Status (packet_status sd)) i (packets s)).
  assert (Offset <$> pk1 = Offset <$> IsoPacket r) as Hoff1 by (by apply set_packet_offsets).
  destruct (pk1 !! i) as [dd|] eqn:Hdd; [|discriminate]. cbn [mbind option_bind]. rewrite Hbuf.
  assert (Offset dd = Offset p0) as Hddo.
  { apply (f_equal (lookup i)) in Hoff1. rewrite !list_lookup_fmap, Hdd, Hp0 in Hoff1. by injection Hoff1. }
  destruct (Z.eqb_spec (iso_actual_length sd) 0); [intros Heq; by injection Heq|].
  destruct (Z.ltb_spec (iso_length sd) (iso_actual_length sd)); [lia|].
  destruct (Z.eqb_spec (iso_offset sd) (Offset dd)); [|lia]. cbn [negb].
  destruct (Z.ltb_spec (remaining s) (iso_actual_length sd)); [lia|].
  destruct (Z.ltb_spec (TransferBufferLength r) (u32 (Offset dd + iso_actual_length sd))) as [Hx|];
    [rewrite u32_id in Hx by (unfold is_u32; lia); lia|].
  destruct (Z.ltb_spec (Offset dd) (remaining s - iso_actual_length sd)); [lia|].
  destruct (if _ <? _ then _ else _); cbn [mbind option_bind]; [intros Heq; by injection Heq|discriminate].
Qed.

Lemma fill_loop_honest r ds src b len0 n s : repack r = Ok ds -> urb_ok r ->
  length src = length (IsoPacket r) -> Forall iso_ok src -> Z.of_nat (length b) = TransferBufferLength r ->
  0 <= len0 <= TransferBufferLength r -> honest_response ds src len0 -> (n <= length src)%nat -> inv r src b len0 n s ->
  exists s', fill_loop (TransferBufferLength r) src n s = Some (s', None) /\ inv r src b len0 0 s'.
Proof.
  intros Hr Hu Hsrc Hiso Hb Hlen0 Hh. assert (packets_ok r) as Hok.
  { apply (repack_packets_ok r ds); [done|unfold is_u32; destruct Hu; lia|apply Hu|apply Hu]. }
  revert s. induction n as [|n IH]; intros s Hn Hi; [by exists s|]. cbn [fill_loop].
  destruct (fill_step_spec r src b len0 Hok Hsrc Hiso Hb Hlen0 n s) as (s1 & err & Hs & Ho); [lia|done|].
  assert (err = None) as -> by (by eapply (fill_step_honest r ds src b len0 n s)). rewrite Hs.
  cbn [mbind option_bind]. apply IH; [lia|done].
Qed.

(** ** Properties *)


(** Two packets of eight bytes each in a sixteen-byte buffer, filled with 3 and 5 bytes. *)
Definition two_packets : urb_isoch :=
  {| TransferBufferLength := 16;
     IsoPacket := [{| Offset := 0; Length := 0; Status := USBD_STATUS_PENDING |};
                   {| Offset := 8; Length := 0; Status := USBD_STATUS_PENDING |}] |}.

Definition two_packets_submitted : list iso_packet_descriptor :=
  match repack two_packets with Ok ds => ds | Err _ => [] end.

Definition two_packets_returned (lengths : list Z) : list iso_packet_descriptor :=
  zip_with (fun d al => {| iso_offset := iso_offset d; iso_length := iso_length d;
                           iso_actual_length := al; iso_status := 0 |}) two_packets_submitted lengths.

Definition received : list byte := map z2b (seqZ 1 16).

Lemma two_packets_ok lengths : length lengths = 2%nat -> Forall is_u32 lengths ->
  repack two_packets = Ok two_packets_submitted /\ urb_ok two_packets /\
  length (two_packets_returned lengths) = 2%nat /\ Forall iso_ok (two_packets_returned lengths).
Proof.
  intros Hl Hu. destruct lengths as [|x [|y [|]]]; try discriminate. rewrite !List.Forall_cons_iff in Hu.
  split; [reflexivity|]. split; [split; [simpl; lia|]|split; [reflexivity|]].
  - intros p Hp. repeat (apply elem_of_cons in Hp as [->|Hp]; [simpl; lia|]). by apply elem_of_nil in Hp.
  - unfold two_packets_returned, two_packets_submitted, iso_ok. cbn. rewrite !List.Forall_cons_iff.
    unfold is_u32 in *. destruct Hu as (Hx & Hy & _).
    repeat match goal with |- _ /\ _ => split | |- Forall _ [] => apply List.Forall_nil end; simpl; lia.
Qed.


(** A server that echoes the submitted packets is accepted, and then every packet's
    bytes, wherever the compacted response had them, are at the packet's offset of the
    buffer: the in-place expansion from the last packet to the first loses nothing. *)
Theorem isoch_unpack_correct r ds src b len0 :
  repack r = Ok ds -> urb_ok r ->
  length src = length (IsoPacket r) -> Forall iso_ok src ->
  Z.of_nat (length b) = TransferBufferLength r -> 0 <= len0 <= TransferBufferLength r ->
  honest_response ds src len0 ->
  exists pkts b', fill_isoc_data r (Some b) len0 src = Some (STATUS_SUCCESS, pkts, Some b') /\
    length b' = length b /\
    forall i sd p, src !! i = Some sd -> IsoPacket r !! i = Some p ->
      slice (Offset p) (iso_actual_length sd) b' = slice (data_before src i) (iso_actual_length sd) b.
Proof.
  intros Hr Hu Hsrc Hiso Hb Hlen Hh.
  destruct (fill_loop_honest r ds src b len0 (length src)
    {| packets := IsoPacket r; buffer := Some b; remaining := len0 |} Hr Hu Hsrc Hiso Hb Hlen Hh) as (s & Hl & Hinv);
    [lia|by apply inv_start|].
  unfold fill_isoc_data. rewrite <- Hsrc, Hl. cbn [mbind option_bind].
  destruct Hinv as [_ (bn & Hbuf & Hbl & _ & Hmoved) (Hrem & Hsum) _]. rewrite drop_0 in Hsum.
  pose proof (proj2 Hh) as Htotal. destruct (Z.eqb_spec (remaining s) 0); [|lia]. cbn [negb andb].
  eexists _, bn. rewrite Hbuf. split; [reflexivity|]. split; [done|]. intros i sd p Hsd Hp.
  rewrite (Hmoved i sd p) by (lia || done || (intros j sd' p' Hj Hsd' Hp';
    destruct (repack_slots r ds Hr) as [Hdl Hslots];
    destruct (lookup_lt_is_Some_2 ds j) as [d Hd]; [rewrite Hdl; by apply lookup_lt_Some in Hp'|];
    right; destruct (proj1 Hh j d sd' Hd Hsd') as (_ & _ & Ha);
    pose proof (Hslots j i d p' p Hj Hd Hp' Hp); lia)).
  by rewrite <- Htotal, data_before_drop.
Qed.

Lemma isoch_unpack_correct_witness :
  exists pkts b', fill_isoc_data two_packets (Some received) 8 (two_packets_returned [3; 5]) = Some (STATUS_SUCCESS, pkts, Some b') /\
    slice 8 5 b' = map z2b [4; 5; 6; 7; 8].
Proof.
  destruct (two_packets_ok [3; 5]) as (Hr & Hu & Hl & Hi); [reflexivity|
    repeat constructor; unfold is_u32; simpl; lia|].
  assert (honest_response two_packets_submitted (two_packets_returned [3; 5]) 8) as Hh.
  { split; [|reflexivity]. intros [|[|i]] d sd Hd Hsd; vm_compute in Hd, Hsd; simplify_eq; cbn; split_and!; lia. }
  destruct (isoch_unpack_correct two_packets two_packets_submitted (two_packets_returned [3; 5]) received 8
    Hr Hu Hl Hi eq_refl ltac:(simpl; lia) Hh) as (pkts & b' & Hf & _ & Hs).
  exists pkts, b'. split; [exact Hf|].
  refine (eq_trans (Hs 1%nat {| iso_offset := 8; iso_length := 8; iso_actual_length := 5; iso_status := 0 |}
             {| Offset := 8; Length := 0; Status := USBD_STATUS_PENDING |} _ _) _); vm_compute; reflexivity.
Defined.
