(* ===== verification/Requests.v ===== *)
(** * Requests that wait for the server

    Models next_seqnum of drivers/ude/context.cpp, drivers/ude/request_list.cpp,
    [send_complete] and [send_cmd_unlink_and_complete] of drivers/ude/device_ioctl.cpp,
    [endpoint_purge] of drivers/ude/device.cpp and the dequeueing of [ret_command] in
    drivers/ude/wsk_receive.cpp.  These run concurrently: the atomic steps are the
    critical sections of requests_lock, and [step] interleaves them in any order.

    The framework's cancellation interface is the class [Wdf]: the state it keeps for a
    request, the calls the driver makes, and their documented behaviour as laws. *)

From S2P Require Import Prelude Usbd.

(** ** Sequence numbers *)

Definition extract_num (seqnum : Z) : Z := Z.shiftr seqnum 1.
Definition extract_dir (seqnum : Z) : Z := Z.land seqnum 1.
Definition is_valid_seqnum (seqnum : Z) : bool := negb (extract_num seqnum =? 0).

(** The [while (true)] loop on the counter: the returned number and the new counter.
    InterlockedIncrement returns a LONG, whose double is stored in 32 bits. *)
Fixpoint next_seqnum_loop (fuel : nat) (seqnum : Z) (dir_in : bool) : option (Z * Z) :=
  match fuel with
  | O => None
  | S fuel =>
      let seqnum := u32 (seqnum + 1) in
      let num := u32 (Z.shiftl (s32 seqnum) 1) in
      if negb (num =? 0) then Some (Z.lor num (if dir_in then 1 else 0), seqnum)
      else next_seqnum_loop fuel seqnum dir_in
  end.

(** Two increments are enough: see [next_seqnum_total]. *)
Definition next_seqnum (seqnum : Z) (dir_in : bool) : option (Z * Z) := next_seqnum_loop 2 seqnum dir_in.

(** A run of calls. *)
Fixpoint issue (seqnum : Z) (dirs : list bool) : option (list Z) :=
  match dirs with
  | [] => Some []
  | d :: dirs => '(n, seqnum) ← next_seqnum seqnum d; ns ← issue seqnum dirs; Some (n :: ns)
  end.

(** ** The list of requests *)

(** WDFREQUEST and UDECXUSBENDPOINT handles; WDF_NO_HANDLE is [None]. *)
Definition request : Type := positive.
Definition endpoint : Type := positive.

(** request_ctx of a listed request *)
Record entry : Type := { e_request : request; e_seqnum : Z; e_endpoint : endpoint; e_cancelable : bool }.

#[global] Instance entry_eq_dec : EqDecision entry.
Proof. solve_decision. Defined.

(** request_search *)
Inductive request_search : Type := SEQNUM (n : Z) | REQUEST (r : request) | ENDPOINT (e : endpoint).

Definition multimatch (crit : request_search) : bool :=
  match crit with ENDPOINT _ => true | _ => false end.

Definition matches (req : entry) (crit : request_search) : bool :=
  match crit with
  | SEQNUM n => n =? e_seqnum req
  | REQUEST r => Pos.eqb r (e_request req)
  | ENDPOINT e => Pos.eqb e (e_endpoint req)
  end.

(** The members of device_ctx used here. *)
Record device_ctx : Type := {
  requests : list entry; seqnum : Z; unplugged : bool; sent_requests : Z; cancelable_requests : Z }.

Definition set_requests (dev : device_ctx) (l : list entry) : device_ctx :=
  {| requests := l; seqnum := seqnum dev; unplugged := unplugged dev;
     sent_requests := sent_requests dev; cancelable_requests := cancelable_requests dev |}.

(** What the framework knows of a request: it does not belong to the driver, it belongs
    to the driver and cannot be cancelled, it is marked cancelable, or it was marked and
    has been cancelled, so that EvtRequestCancel is or will be called. *)
Inductive cancel_state : Type := Absent | Owned | Armed | Cancelling.
#[global] Instance cancel_state_eq_dec : EqDecision cancel_state.
Proof. solve_decision. Defined.

(** The framework: [W] is its state. *)
Class Wdf (W : Type) : Type := {
  state_of : W -> request -> cancel_state;
  WdfRequestMarkCancelableEx : W -> request -> ntstatus * W;
  WdfRequestUnmarkCancelable : W -> request -> ntstatus * W;
  WdfRequestComplete : W -> request -> W }.

(** [w'] differs from [w] at most for request [r], which is in state [st] now. *)
Definition updated `{Wdf W} (w w' : W) (r : request) (st : cancel_state) : Prop :=
  state_of w' r = st /\ forall r', r' <> r -> state_of w' r' = state_of w r'.

(** The documented behaviour of the three calls. *)
Class WdfLaws (W : Type) `{Wdf W} : Prop := {
  mark_law : forall w r st w', state_of w r = Owned -> WdfRequestMarkCancelableEx w r = (st, w') ->
    (st = STATUS_SUCCESS /\ updated w w' r Armed) \/ (st <> STATUS_SUCCESS /\ updated w w' r Owned);
  unmark_law : forall w r st w', WdfRequestUnmarkCancelable w r = (st, w') ->
    (state_of w r = Armed -> st = STATUS_SUCCESS /\ updated w w' r Owned) /\
    (state_of w r = Cancelling -> st = STATUS_CANCELLED /\ updated w w' r Cancelling);
  complete_law : forall w r, updated w (WdfRequestComplete w r) r Absent }.

Section list_operations.
Context `{Wdf W}.

(** append_request, for a request context whose fields it sets. *)
Definition append_request (dev : device_ctx) (r : request) (seqnum : Z) (e : endpoint) : device_ctx :=
  set_requests dev (requests dev ++ [{| e_request := r; e_seqnum := seqnum; e_endpoint := e; e_cancelable := false |}]).

(** The loop of mark_request_cancelable: the status, the list, whether a request was marked. *)
Fixpoint mark_loop (seqnum : Z) (l : list entry) (w : W) : ntstatus * list entry * bool * W :=
  match l with
  | [] => (STATUS_SUCCESS, [], false, w)
  | req :: l =>
      if negb (e_seqnum req =? seqnum) then
        let '(st, l, marked, w) := mark_loop seqnum l w in (st, req :: l, marked, w)
      else
        let '(err, w) := WdfRequestMarkCancelableEx w (e_request req) in
        if decide (err <> STATUS_SUCCESS) then (err, l, false, w)
        else (STATUS_SUCCESS,
              {| e_request := e_request req; e_seqnum := e_seqnum req; e_endpoint := e_endpoint req;
                 e_cancelable := true |} :: l, true, w)
  end.

Definition mark_request_cancelable (dev : device_ctx) (seqnum : Z) (w : W) : ntstatus * device_ctx * W :=
  let '(st, l, marked, w) := mark_loop seqnum (requests dev) w in
  (st, {| requests := l; seqnum := Requests.seqnum dev; unplugged := unplugged dev;
          sent_requests := sent_requests dev;
          cancelable_requests := cancelable_requests dev + (if marked then 1 else 0) |}, w).

(** The loop of remove_request: the request to complete, the list, the framework. *)
Fixpoint remove_loop (crit : request_search) (unmark_cancelable : bool) (l : list entry) (w : W)
    : option request * list entry * W :=
  match l with
  | [] => (None, [], w)
  | req :: l =>
      if negb (matches req crit) then
        let '(ret, l, w) := remove_loop crit unmark_cancelable l w in (ret, req :: l, w)
      else if negb (unmark_cancelable && e_cancelable req) then (Some (e_request req), l, w)
      else
        let '(ret, w) := WdfRequestUnmarkCancelable w (e_request req) in
        if negb (bool_decide (ret = STATUS_SUCCESS)) then
          if negb (bool_decide (ret = STATUS_CANCELLED)) then (Some (e_request req), l, w)
          else if multimatch crit then remove_loop crit unmark_cancelable l w
          else (None, l, w)
        else (Some (e_request req), l, w)
  end.

Definition remove_request (dev : device_ctx) (crit : request_search) (unmark_cancelable : bool) (w : W)
    : option request * device_ctx * W :=
  let '(ret, l, w) := remove_loop crit unmark_cancelable (requests dev) w in (ret, set_requests dev l, w).
End list_operations.

(** ** The system: one imported device, its threads and the framework *)

(** A context passed to WskSend whose completion routine has not run. *)
Record send_ctx : Type := { s_request : option request; s_seqnum : Z }.

(** A request a thread has taken and is about to complete, after CMD_UNLINK or not. *)
Record owner : Type := { o_request : request; o_status : ntstatus; o_unlink : bool }.

Record sys {W : Type} : Type := {
  dev : device_ctx;
  wdf : W;
  contexts : gmap request Z;        (* request_ctx::seqnum of every request, listed or not *)
  sends : list send_ctx;
  callbacks : list request;         (* EvtRequestCancel is to be called *)
  owners : list owner;
  unlinks : list Z;                 (* CMD_UNLINK sent: seqnum_unlink *)
  detaching : bool;                 (* async_detach_and_delete was called *)
  arrived : list request;           (* history: requests given to the driver *)
  completed : list (request * ntstatus);  (* history: requests completed *)
  broken : bool                     (* a request was completed twice, or while cancelable *)
}.
Arguments sys : clear implicits.

Section system.
Context `{Wdf W}.

Definition with_list (s : sys W) (d : device_ctx) (w : W) : sys W :=
  {| dev := d; wdf := w; contexts := contexts s; sends := sends s; callbacks := callbacks s; owners := owners s;
     unlinks := unlinks s; detaching := detaching s; arrived := arrived s; completed := completed s; broken := broken s |}.
Definition with_sends (s : sys W) (l : list send_ctx) : sys W :=
  {| dev := dev s; wdf := wdf s; contexts := contexts s; sends := l; callbacks := callbacks s; owners := owners s;
     unlinks := unlinks s; detaching := detaching s; arrived := arrived s; completed := completed s; broken := broken s |}.
Definition with_callbacks (s : sys W) (l : list request) : sys W :=
  {| dev := dev s; wdf := wdf s; contexts := contexts s; sends := sends s; callbacks := l; owners := owners s;
     unlinks := unlinks s; detaching := detaching s; arrived := arrived s; completed := completed s; broken := broken s |}.
Definition with_owners (s : sys W) (l : list owner) : sys W :=
  {| dev := dev s; wdf := wdf s; contexts := contexts s; sends := sends s; callbacks := callbacks s; owners := l;
     unlinks := unlinks s; detaching := detaching s; arrived := arrived s; completed := completed s; broken := broken s |}.
Definition with_detaching (s : sys W) (b : bool) : sys W :=
  {| dev := dev s; wdf := wdf s; contexts := contexts s; sends := sends s; callbacks := callbacks s; owners := owners s;
     unlinks := unlinks s; detaching := b; arrived := arrived s; completed := completed s; broken := broken s |}.

Definition add_owner (s : sys W) (r : request) (st : ntstatus) (unlink : bool) : sys W :=
  with_owners s ({| o_request := r; o_status := st; o_unlink := unlink |} :: owners s).

Definition set_counters (d : device_ctx) (seqnum sent : Z) (unplugged : bool) : device_ctx :=
  {| requests := requests d; seqnum := seqnum; unplugged := unplugged; sent_requests := sent;
     cancelable_requests := cancelable_requests d |}.

(** complete: the framework takes the request back.  Completing one that does not belong
    to the driver, or that is still marked cancelable, is a violation of its rules. *)
Definition complete (s : sys W) (r : request) (st : ntstatus) : sys W :=
  {| dev := dev s; wdf := WdfRequestComplete (wdf s) r; contexts := contexts s; sends := sends s;
     callbacks := callbacks s; owners := owners s; unlinks := unlinks s; detaching := detaching s;
     arrived := arrived s; completed := (r, st) :: completed s;
     broken := broken s || bool_decide (state_of (wdf s) r = Absent \/ state_of (wdf s) r = Armed) |}.

(** ::send for a new request, up to the call of WskSend: append_request and the counter. *)
Definition submit (s : sys W) (r : request) (e : endpoint) (dir_in : bool) (w : W) : option (sys W) :=
  '(n, c) ← next_seqnum (seqnum (dev s)) dir_in;
  let d := set_counters (dev s) c (sent_requests (dev s)) (unplugged (dev s)) in
  Some {| dev := append_request d r n e; wdf := w; contexts := <[r := n]> (contexts s);
          sends := {| s_request := Some r; s_seqnum := n |} :: sends s; callbacks := callbacks s; owners := owners s;
          unlinks := unlinks s; detaching := detaching s; arrived := r :: arrived s;
          completed := completed s; broken := broken s |}.

Definition send_cmd_unlink_and_complete (s : sys W) (r : request) (st : ntstatus) (ctx_allocated : bool) : option (sys W) :=
  s ← (if unplugged (dev s) then Some s
       else if ctx_allocated then
         seqnum_unlink ← contexts s !! r;
         '(n, c) ← next_seqnum (seqnum (dev s)) false;
         Some {| dev := set_counters (dev s) c (sent_requests (dev s)) (unplugged (dev s)); wdf := wdf s;
                 contexts := contexts s; sends := {| s_request := None; s_seqnum := n |} :: sends s;
                 callbacks := callbacks s; owners := owners s; unlinks := seqnum_unlink :: unlinks s;
                 detaching := detaching s; arrived := arrived s; completed := completed s; broken := broken s |}
       else Some s);
  Some (complete s r st).

(** The completion routine of WskSend, for a context that is no longer outstanding. *)
Definition send_complete (s : sys W) (ctx : send_ctx) (st : ntstatus) : sys W :=
  let s :=
    match s_request ctx with
    | None => s
    | Some r =>
        if NT_SUCCESS st then
          let s := with_list s (set_counters (dev s) (seqnum (dev s)) (sent_requests (dev s) + 1) (unplugged (dev s))) (wdf s) in
          let '(err, d, w) := mark_request_cancelable (dev s) (s_seqnum ctx) (wdf s) in
          let s := with_list s d w in
          if decide (err <> STATUS_SUCCESS) then add_owner s r err true else s
        else
          let '(ret, d, w) := remove_request (dev s) (REQUEST r) false (wdf s) in
          let s := with_list s d w in
          match ret with Some _ => add_owner s r st false | None => s end
    end in
  if bool_decide (st = STATUS_FILE_FORCED_CLOSED) && negb (unplugged (dev s)) then with_detaching s true else s.

(** EvtRequestCancel. *)
Definition cancel_request (s : sys W) (r : request) : sys W :=
  let '(_, d, w) := remove_request (dev s) (REQUEST r) false (wdf s) in
  add_owner (with_list s d w) r STATUS_CANCELLED true.

(** ret_command: RET_SUBMIT takes the request of its sequence number; [st] is the status
    the receive thread computes for it. *)
Definition ret_command (s : sys W) (n : Z) (st : ntstatus) : sys W :=
  let '(ret, d, w) := remove_request (dev s) (SEQNUM n) true (wdf s) in
  let s := with_list s d w in
  match ret with Some r => add_owner s r st false | None => s end.

(** One evaluation of the condition of the loop of endpoint_purge: the new state, and
    whether the loop goes on. *)
Definition endpoint_purge_step (s : sys W) (e : endpoint) : sys W * bool :=
  let '(ret, d, w) := remove_request (dev s) (ENDPOINT e) true (wdf s) in
  let s := with_list s d w in
  match ret with Some r => (add_owner s r STATUS_CANCELLED true, true) | None => (s, false) end.

(** The owner of a request completes it. *)
Definition finish (s : sys W) (o : owner) (ctx_allocated : bool) : option (sys W) :=
  if o_unlink o then send_cmd_unlink_and_complete s (o_request o) (o_status o) ctx_allocated
  else Some (complete s (o_request o) (o_status o)).

(** The loop of endpoint_purge, run by one thread. *)
Fixpoint endpoint_purge (fuel : nat) (s : sys W) (e : endpoint) (ctx_allocated : bool) : option (sys W) :=
  match fuel with
  | O => None
  | S fuel =>
      let '(s, more) := endpoint_purge_step s e in
      if more then
        match owners s with
        | o :: os => s ← finish (with_owners s os) o ctx_allocated; endpoint_purge fuel s e ctx_allocated
        | [] => None
        end
      else Some s
  end.

(** No listed request and no outstanding send of a request still has the number. *)
Definition fresh_seqnum (s : sys W) (n : Z) : Prop :=
  (forall req, req ∈ requests (dev s) -> e_seqnum req <> n) /\
  (forall ctx, ctx ∈ sends s -> s_request ctx <> None -> s_seqnum ctx <> n).

(** The request that is listed under the handle of a send, if there is one, is the request that was sent. *)
Definition current (s : sys W) (ctx : send_ctx) : Prop :=
  forall e, e ∈ requests (dev s) -> s_request ctx = Some (e_request e) -> e_seqnum e = s_seqnum ctx.

(** What can happen next.  The framework may give the driver the handle of a completed request for a new one at any
    time, also while the completion routine of the send for the previous request of that handle is pending.  With
    [late_failure] that routine may even be called with an error after the handle was used again. *)
Inductive step (late_failure : bool) : sys W -> sys W -> Prop :=
| Submit s r e dir_in w s' n c :
    state_of (wdf s) r = Absent -> updated (wdf s) w r Owned ->
    next_seqnum (seqnum (dev s)) dir_in = Some (n, c) -> fresh_seqnum s n ->
    submit s r e dir_in w = Some s' -> step late_failure s s'
| SendComplete s l1 ctx l2 st : sends s = l1 ++ ctx :: l2 ->
    late_failure = true \/ NT_SUCCESS st = true \/ current s ctx ->
    step late_failure s (send_complete (with_sends s (l1 ++ l2)) ctx st)
| Cancel s r w : state_of (wdf s) r = Armed -> updated (wdf s) w r Cancelling ->
    step late_failure s (with_callbacks (with_list s (dev s) w) (r :: callbacks s))
| CancelRequest s l1 r l2 : callbacks s = l1 ++ r :: l2 ->
    step late_failure s (cancel_request (with_callbacks s (l1 ++ l2)) r)
| RetSubmit s n st : step late_failure s (ret_command s n st)
| Purge s e : step late_failure s (endpoint_purge_step s e).1
| Finish s l1 o l2 ctx_allocated s' : owners s = l1 ++ o :: l2 ->
    finish (with_owners s (l1 ++ l2)) o ctx_allocated = Some s' -> step late_failure s s'
| Unplug s : step late_failure s (with_list s (set_counters (dev s) (seqnum (dev s)) (sent_requests (dev s)) true) (wdf s)).

Definition initial (s : sys W) : Prop :=
  requests (dev s) = [] /\ sends s = [] /\ callbacks s = [] /\ owners s = [] /\
  arrived s = [] /\ completed s = [] /\ broken s = false /\ forall r, state_of (wdf s) r = Absent.

Inductive reachable (late_failure : bool) : sys W -> Prop :=
| reach_init s : initial s -> reachable late_failure s
| reach_step s s' : reachable late_failure s -> step late_failure s s' -> reachable late_failure s'.
End system.

(** ** Lemmas: sequence numbers *)

(** Counter values matter modulo 2^31: the low 31 bits are the number. *)
Definition half : Z := 2 ^ 31.

Lemma shifted_number c : u32 (Z.shiftl (s32 (u32 c)) 1) = 2 * (c mod half).
Proof. rewrite Z.shiftl_mul_pow2 by lia. unfold u32, s32, half. zdm. Qed.

Lemma next_seqnum_spec c d :
  let a := c mod half in
  let b := 1 + a mod (half - 1) in
  exists c', next_seqnum c d = Some (2 * b + (if d then 1 else 0), c') /\ c' mod half = b.
Proof.
  cbv zeta. unfold next_seqnum. cbn [next_seqnum_loop]. rewrite !shifted_number.
  assert (forall k, 0 < k -> Z.lor (2 * k) (if d then 1 else 0) = 2 * k + (if d then 1 else 0)) as Hlor.
  { intros k Hk. replace (2 * k) with (Z.shiftl k 1) by (rewrite Z.shiftl_mul_pow2; lia).
    rewrite lor_shiftl_add by (destruct d; lia). rewrite Z.shiftl_mul_pow2; lia. }
  assert (u32 (c + 1) mod half = (c + 1) mod half) as E1 by (unfold u32, half; zdm).
  assert (u32 (u32 (c + 1) + 1) mod half = (c + 2) mod half) as E2 by (unfold u32, half; zdm).
  destruct (Z.eqb_spec (2 * ((c + 1) mod half)) 0) as [Hz|Hnz]; cbn [negb].
  - assert ((u32 (c + 1) + 1) mod half = 1) as H1 by (unfold u32, half in *; zdm).
    rewrite H1. change (2 * 1 =? 0) with false. cbn [negb]. rewrite Hlor by lia.
    assert (1 + (c mod half) mod (half - 1) = 1) as Hb.
    { assert (c mod half = half - 1) as -> by (unfold half in *; zdm). reflexivity. }
    rewrite Hb. eexists. split; [reflexivity|]. unfold u32, half in *. zdm.
  - assert (0 < (c + 1) mod half) as Hp by (unfold half in *; zdm). rewrite Hlor by done.
    assert ((c + 1) mod half = 1 + (c mod half) mod (half - 1)) as <- by (unfold half in *; zdm).
    eexists. split; [reflexivity|]. done.
Qed.

Lemma extract_dir_mod n : extract_dir n = n mod 2.
Proof. exact (Z.land_ones n 1 ltac:(lia)). Qed.

Lemma next_seqnum_total c d : exists n c', next_seqnum c d = Some (n, c').
Proof. destruct (next_seqnum_spec c d) as (c' & H & _). eauto. Qed.

(** The number and direction of the k-th call of a run. *)
Lemma issue_spec dirs c : exists ns, issue c dirs = Some ns /\ length ns = length dirs /\
  forall (k : nat) (n : Z) (d : bool), ns !! k = Some n -> dirs !! k = Some d ->
    n = 2 * (1 + (c mod half + Z.of_nat k) mod (half - 1)) + (if d then 1 else 0).
Proof.
  revert c. induction dirs as [|d dirs IH]; intros c.
  - exists []. split; [done|]. split; [done|]. intros k n d' Hk. done.
  - destruct (next_seqnum_spec c d) as (c' & Hn & Hc). destruct (IH c') as (ns & Hi & Hl & Hk).
    eexists. cbn [issue]. rewrite Hn. cbn [mbind option_bind]. rewrite Hi. cbn [mbind option_bind].
    split; [reflexivity|]. split; [cbn; by rewrite Hl|]. intros [|k] n d' Hkn Hkd; cbn in Hkn, Hkd; simplify_eq.
    + by rewrite Z.add_0_r.
    + rewrite (Hk k n d' Hkn Hkd), Hc. do 3 f_equal. unfold half in *.
      rewrite <- Z.add_assoc, (Z.add_comm _ (Z.of_nat k)), Z.add_assoc.
      rewrite Z.add_mod_idemp_r by lia. f_equal. lia.
Qed.

(** ** Lemmas: the loops over the list *)

Section loops.
Context `{WdfLaws W}.

(** What a removal did. *)
Record removal (crit : request_search) (unmark : bool) (l : list entry) (w : W)
    (ret : option request) (l' : list entry) (w' : W) : Prop := {
  rm_sub : l' `sublist_of` l;
  rm_ret : forall r, ret = Some r -> exists e, e ∈ l /\ e_request e = r /\ matches e crit = true /\ ~ (e_request e ∈ e_request <$> l') /\
    if unmark && e_cancelable e then state_of w r = Armed /\ state_of w' r = Owned else state_of w' r = state_of w r;
  rm_gone : forall e, e ∈ l -> e ∉ l' -> ret = Some (e_request e) \/
    (unmark = true /\ state_of w (e_request e) = Cancelling);
  rm_match : forall e, e ∈ l -> matches e crit = false -> e ∈ l';
  rm_none : multimatch crit || negb unmark = true -> ret = None -> forall e, e ∈ l' -> matches e crit = false;
  rm_frame : forall r, ret <> Some r -> state_of w' r = state_of w r
}.

(** Cancelable entries are marked. *)
Definition marked (l : list entry) (w : W) : Prop :=
  forall e, e ∈ l -> e_cancelable e = true -> state_of w (e_request e) = Armed \/ state_of w (e_request e) = Cancelling.

Lemma elem_of_fmap_request e (l : list entry) : e ∈ l -> e_request e ∈ e_request <$> l.
Proof. intros. by apply list_elem_of_fmap_2. Qed.

Lemma remove_loop_spec crit unmark l w ret l' w' : NoDup (e_request <$> l) -> marked l w ->
  remove_loop crit unmark l w = (ret, l', w') -> removal crit unmark l w ret l' w'.
Proof.
  revert w ret l' w'. induction l as [|e l IH]; intros w ret l' w' Hnd Hm.
  { intros [= <- <- <-]. split; try done; intros _ _ e He; by apply elem_of_nil in He. }
  rewrite fmap_cons, list.NoDup_cons in Hnd. destruct Hnd as [He Hnd].
  assert (marked l w) as Hml by (intros x Hx; apply Hm; by right). cbn [remove_loop].
  destruct (matches e crit) eqn:Hma; cbn [negb].
  2: { destruct (remove_loop crit unmark l w) as [[ret1 l1] w1] eqn:Hr. intros [= <- <- <-].
       destruct (IH _ _ _ _ Hnd Hml Hr) as [Hs Hret Hgone Hmat Hnone Hf]. split.
       - by constructor.
       - intros r Hrr. destruct (Hret r Hrr) as (x & Hx & Hxr & Hxm & Hno & Hst). exists x.
         split; [by right|]. do 2 (split; [done|]). split; [|done]. rewrite fmap_cons, elem_of_cons.
         intros [Heq|Hin]; [|done]. apply He. rewrite <- Heq. by apply elem_of_fmap_request.
       - intros x Hx Hnx. apply elem_of_cons in Hx as [->|Hx]; [exfalso; apply Hnx; left|].
         apply Hgone; [done|]. intros Hin. apply Hnx. by right.
       - intros x [->|Hx]%elem_of_cons Hxm; [left|right]. by apply Hmat.
       - intros Hmu Hre x [->|Hx]%elem_of_cons; [done|by apply Hnone].
       - done. }
  assert (forall (r : option request) (w1 : W), r = Some (e_request e) ->
    (if unmark && e_cancelable e then state_of w (e_request e) = Armed /\ state_of w1 (e_request e) = Owned
     else state_of w1 (e_request e) = state_of w (e_request e)) ->
    (forall x, x <> e_request e -> state_of w1 x = state_of w x) -> removal crit unmark (e :: l) w r l w1) as Htake.
  { intros r w1 -> Hst Hfr. split.
    - by constructor.
    - intros r [= <-]. exists e. split; [left|]. done.
    - intros x Hx Hnx. left. apply elem_of_cons in Hx as [->|Hx]; done.
    - intros x [->|Hx]%elem_of_cons Hxm; [congruence|done].
    - done.
    - intros x Hx. apply Hfr. congruence. }
  destruct (unmark && e_cancelable e) eqn:Hu; cbn [negb].
  2: { intros [= <- <- <-]. by apply Htake. }
  apply andb_prop in Hu as [-> Hc].
  destruct (WdfRequestUnmarkCancelable w (e_request e)) as [st w1] eqn:Hunm.
  destruct (unmark_law w (e_request e) st w1 Hunm) as [Harm Hcan].
  destruct (Hm e) as [Hst|Hst]; [left|done| |].
  - destruct (Harm Hst) as (-> & Hs & Hfr). rewrite bool_decide_true by done. cbn [negb]. intros [= <- <- <-].
    apply Htake; done.
  - destruct (Hcan Hst) as (-> & Hs & Hfr). rewrite (bool_decide_false (STATUS_CANCELLED = STATUS_SUCCESS)) by done.
    rewrite bool_decide_true by done. cbn [negb].
    assert (forall r, state_of w1 r = state_of w r) as Hsame.
    { intros r. destruct (decide (r = e_request e)) as [->|]; [congruence|by apply Hfr]. }
    destruct (multimatch crit) eqn:Hmu.
    + intros Hr. assert (marked l w1) as Hml1 by (intros x Hx Hxc; rewrite !Hsame; by apply Hml).
      destruct (IH _ _ _ _ Hnd Hml1 Hr) as [Hsub Hret Hgone Hmat Hnone Hf]. split.
      * by constructor.
      * intros r Hrr. destruct (Hret r Hrr) as (x & Hx & Hxr & Hxm & Hno & Hst'). exists x.
        split; [by right|]. do 3 (split; [done|]). by rewrite !Hsame in Hst'.
      * intros x Hx Hnx. apply elem_of_cons in Hx as [->|Hx]; [by right|]. rewrite <- Hsame. by apply Hgone.
      * intros x [->|Hx]%elem_of_cons Hxm; [congruence|by apply Hmat].
      * done.
      * intros r Hr'. rewrite Hf by done. apply Hsame.
    + intros [= <- <- <-]. split; try done.
      * by constructor.
      * intros x Hx Hnx. apply elem_of_cons in Hx as [->|Hx]; [by right|done].
      * intros x [->|Hx]%elem_of_cons Hxm; [congruence|done].
      * by rewrite Hmu.
Qed.

Lemma mark_loop_spec n l w st l' m w' : NoDup (e_seqnum <$> l) ->
  (forall e, e ∈ l -> e_seqnum e = n -> state_of w (e_request e) = Owned) ->
  mark_loop n l w = (st, l', m, w') ->
  (st = STATUS_SUCCESS /\ l' = l /\ w' = w /\ forall e, e ∈ l -> e_seqnum e <> n) \/
  exists l1 e l2, l = l1 ++ e :: l2 /\ e_seqnum e = n /\
    ((st <> STATUS_SUCCESS /\ l' = l1 ++ l2 /\ updated w w' (e_request e) Owned) \/
     (st = STATUS_SUCCESS /\ updated w w' (e_request e) Armed /\
      l' = l1 ++ {| e_request := e_request e; e_seqnum := e_seqnum e; e_endpoint := e_endpoint e; e_cancelable := true |} :: l2)).
Proof.
  revert l' st m w'. induction l as [|e l IH]; intros l' st m w' Hnd Ho.
  { intros [= <- <- <- <-]. left. split_and!; try done. intros e He. by apply elem_of_nil in He. }
  rewrite fmap_cons, list.NoDup_cons in Hnd. destruct Hnd as [He Hnd]. cbn [mark_loop].
  destruct (Z.eqb_spec (e_seqnum e) n) as [Heq|Hne]; cbn [negb].
  - destruct (WdfRequestMarkCancelableEx w (e_request e)) as [err w1] eqn:Hm.
    destruct (mark_law w (e_request e) err w1) as [[-> Hup]|[Herr Hup]]; [apply Ho; [left|done]|done| |].
    + rewrite decide_False by tauto. intros [= <- <- <- <-]. right. exists [], e, l. split; [done|]. split; [done|]. right. done.
    + rewrite decide_True by done. intros [= <- <- <- <-]. right. exists [], e, l. split; [done|]. split; [done|]. left. done.
  - destruct (mark_loop n l w) as [[[st1 l1] m1] w1] eqn:Hm. intros [= <- <- <- <-].
    destruct (IH l1 st1 m1 w1 Hnd) as [(-> & -> & -> & Hno)|(a & x & b & -> & Hx & Hcase)]; [intros; apply Ho; [by right|done]|done| |].
    + left. split_and!; try done. intros x [->|Hx]%elem_of_cons; [done|by apply Hno].
    + right. exists (e :: a), x, b. split; [done|]. split; [done|].
      destruct Hcase as [(Hst & -> & Hup)|(Hst & Hup & ->)]; [by left|by right].
Qed.
End loops.

(** ** The invariant *)

Section invariant.
Context `{WdfLaws W}.

(** Who holds the requests: the list, the threads about to complete one, and the
    cancellations the framework has not delivered. *)
Record core (l : list entry) (own cbs : list request) (w : W) : Prop := {
  c_nodup : NoDup ((e_request <$> l) ++ own);
  c_cbs_nodup : NoDup cbs;
  c_plain : forall e, e ∈ l -> e_cancelable e = false -> state_of w (e_request e) = Owned;
  c_marked : forall e, e ∈ l -> e_cancelable e = true ->
    state_of w (e_request e) = Armed \/ (state_of w (e_request e) = Cancelling /\ e_request e ∈ cbs);
  c_own : forall r, r ∈ own -> state_of w r = Owned \/ (state_of w r = Cancelling /\ ~ r ∈ cbs);
  c_cbs : forall r, r ∈ cbs -> state_of w r = Cancelling;
  c_live : forall r, state_of w r <> Absent -> r ∈ e_request <$> l \/ r ∈ own \/ r ∈ cbs
}.

Lemma core_perm l own own' cbs cbs' w : own ≡ₚ own' -> cbs ≡ₚ cbs' -> core l own cbs w -> core l own' cbs' w.
Proof.
  intros Ho Hc [Hn Hcn Hp Hm Hw Hb Hl]. split.
  - by rewrite <- Ho.
  - by rewrite <- Hc.
  - done.
  - intros e He Hec. rewrite <- Hc. by apply Hm.
  - intros r. rewrite <- Ho, <- Hc. apply Hw.
  - intros r. rewrite <- Hc. apply Hb.
  - intros r. rewrite <- Ho, <- Hc. apply Hl.
Qed.

Lemma core_marked l own cbs w : core l own cbs w -> marked l w.
Proof. intros Hc e He Hec. destruct (c_marked _ _ _ _ Hc e He Hec) as [|[]]; auto. Qed.

Lemma core_nodup_list l own cbs w : core l own cbs w -> NoDup (e_request <$> l).
Proof. intros Hc. by apply c_nodup, list.NoDup_app in Hc as [? _]. Qed.

Lemma core_disjoint l own cbs w r : core l own cbs w -> r ∈ e_request <$> l -> ~ r ∈ own.
Proof. intros Hc Hr. apply c_nodup, list.NoDup_app in Hc as (_ & Hd & _). by apply Hd. Qed.

(** A new request. *)
Lemma core_submit l own cbs w w' r n e : core l own cbs w -> state_of w r = Absent -> updated w w' r Owned ->
  core (l ++ [{| e_request := r; e_seqnum := n; e_endpoint := e; e_cancelable := false |}]) own cbs w'.
Proof.
  intros Hc Ha [Hr Hf]. pose proof Hc as [Hn Hcn Hp Hm Hw Hb Hl].
  assert (forall x, x ∈ l -> e_request x <> r) as Hne.
  { intros x Hx Heq. destruct (e_cancelable x) eqn:Hxc; [destruct (Hm x Hx Hxc) as [|[]]|specialize (Hp x Hx Hxc)]; congruence. }
  assert (forall x, x ∈ own -> x <> r) as Hno by (intros x Hx ->; destruct (Hw r Hx) as [|[]]; congruence).
  assert (forall x, x ∈ cbs -> x <> r) as Hnc by (intros x Hx ->; specialize (Hb r Hx); congruence).
  split.
  - rewrite fmap_app, <- app_assoc. cbn. rewrite <- Permutation_middle. apply list.NoDup_cons. split; [|done].
    rewrite elem_of_app. intros [Hin|Hin]; [|by apply (Hno r)].
    apply list_elem_of_fmap in Hin as (x & -> & Hx). by apply (Hne x).
  - done.
  - intros x [Hx| ->%list_elem_of_singleton]%elem_of_app Hxc; [|done]. rewrite Hf by auto. auto.
  - intros x [Hx| ->%list_elem_of_singleton]%elem_of_app Hxc; [|done]. rewrite Hf by auto. auto.
  - intros x Hx. rewrite Hf by auto. auto.
  - intros x Hx. rewrite Hf by auto. auto.
  - intros x Hx. rewrite fmap_app, elem_of_app. cbn. destruct (decide (x = r)) as [->|Hxr].
    + left. right. left.
    + rewrite Hf in Hx by done. destruct (Hl x Hx) as [|[]]; auto.
Qed.

(** The framework cancels a marked request. *)
Lemma core_cancel l own cbs w w' r : core l own cbs w -> state_of w r = Armed -> updated w w' r Cancelling ->
  core l own (r :: cbs) w'.
Proof.
  intros Hc Ha [Hr Hf]. pose proof Hc as [Hn Hcn Hp Hm Hw Hb Hl].
  assert (~ r ∈ own) as Hro by (intros Hx; destruct (Hw r Hx) as [|[]]; congruence).
  assert (~ r ∈ cbs) as Hrc by (intros Hx; specialize (Hb r Hx); congruence).
  assert (forall x, state_of w x <> Armed -> state_of w' x = state_of w x) as Hf'
    by (intros x Hx; apply Hf; congruence).
  split.
  - done.
  - by apply list.NoDup_cons.
  - intros e He Hec. specialize (Hp e He Hec). rewrite Hf'; congruence.
  - intros e He Hec. destruct (decide (e_request e = r)) as [->|Hne].
    + right. split; [done|left].
    + rewrite Hf by done. destruct (Hm e He Hec) as [|[? ?]]; [by left|right]. split; [done|by right].
  - intros x Hx. assert (x <> r) by congruence. rewrite Hf by done. destruct (Hw x Hx) as [|[? ?]]; [by left|right].
    split; [done|]. intros [|]%elem_of_cons; done.
  - intros x [->|Hx]%elem_of_cons; [done|]. rewrite Hf by congruence. auto.
  - intros x Hx. destruct (decide (x = r)) as [->|Hne]; [right; right; left|].
    rewrite Hf in Hx by done. destruct (Hl x Hx) as [|[]]; auto. right. right. by right.
Qed.

(** A removal that unmarks: the returned request has an owner. *)
Lemma core_remove crit unmark l own cbs w ret l' w' : core l own cbs w ->
  (unmark = false -> forall e, e ∈ l -> matches e crit = true -> e_cancelable e = false) ->
  removal crit unmark l w ret l' w' ->
  core l' (option_list ret ++ own) cbs w'.
Proof.
  intros Hc Hun [Hsub Hret Hgone Hmat Hnone Hf]. pose proof Hc as [Hn Hcn Hp Hm Hw Hb Hl].
  assert (forall e, e ∈ l' -> e ∈ l) as Hin by (intros e He; by eapply elem_of_sublist).
  assert (forall e, e ∈ l' -> ret <> Some (e_request e)) as Hstay.
  { intros e He Hre. destruct (Hret _ Hre) as (x & _ & Hxe & _ & Hno & _). apply Hno. rewrite Hxe.
    by apply elem_of_fmap_request. }
  assert (forall r, ret = Some r -> r ∈ e_request <$> l /\ state_of w' r = Owned) as Hown.
  { intros r Hr. destruct (Hret r Hr) as (x & Hx & <- & Hxm & _ & Hst). split; [by apply elem_of_fmap_request|].
    destruct (unmark && e_cancelable x) eqn:Hu; [by destruct Hst|]. rewrite Hst. apply Hp; [done|].
    apply andb_false_iff in Hu as [Hu|Hu]; [|done]. by apply (Hun Hu x). }
  assert (forall x, x ∈ own -> state_of w' x = state_of w x) as Hfo.
  { intros x Hx. apply Hf. intros Hr. destruct (Hown x Hr) as [Hxl _]. by apply (core_disjoint l own cbs w x). }
  assert (forall x, x ∈ cbs -> state_of w' x = state_of w x) as Hfc.
  { intros x Hx. apply Hf. intros Hr. destruct (Hret x Hr) as (y & Hy & <- & Hym & _ & Hst).
    destruct (unmark && e_cancelable y) eqn:Hu; [destruct Hst as [Hst _]; specialize (Hb _ Hx); congruence|].
    apply andb_false_iff in Hu. assert (e_cancelable y = false) as Hyc by (destruct Hu as [Hu|]; [by apply (Hun Hu y)|done]).
    specialize (Hp y Hy Hyc). specialize (Hb _ Hx). congruence. }
  split.
  - assert (NoDup ((e_request <$> l') ++ own)) as Hnd.
    { eapply sublist_NoDup; [exact Hn|]. apply sublist_app; [|done]. by apply fmap_sublist. }
    destruct ret as [r|]; [|done]. cbn [option_list option_rect app]. rewrite <- Permutation_middle. apply list.NoDup_cons.
    split; [|done]. destruct (Hret r eq_refl) as (x & _ & <- & _ & Hno & _). destruct (Hown _ eq_refl) as [Hxl _].
    rewrite elem_of_app. intros [|]; [done|]. by apply (core_disjoint l own cbs w (e_request x)).
  - done.
  - intros e He Hec. rewrite Hf by auto. auto.
  - intros e He Hec. rewrite Hf by auto. auto.
  - intros x [Hx|Hx]%elem_of_app; [|rewrite Hfo by done; auto].
    left. apply Hown. destruct ret; [by apply list_elem_of_singleton in Hx as ->|by apply elem_of_nil in Hx].
  - intros x Hx. rewrite Hfc by done. auto.
  - intros x Hx. destruct (decide (ret = Some x)) as [->|Hne]; [right; left; left|]. rewrite Hf in Hx by done.
    destruct (Hl x Hx) as [Hxl|[Hxo|Hxc]]; [|right; left; apply elem_of_app; by right|by right; right].
    apply list_elem_of_fmap in Hxl as (e & -> & He).
    destruct (decide (e_request e ∈ e_request <$> l')) as [|Hno]; [by left|].
    assert (~ e ∈ l') as Hnl by (intros Hel; apply Hno; by apply elem_of_fmap_request).
    destruct (Hgone e He Hnl) as [|[_ Hcan]]; [done|].
    destruct (e_cancelable e) eqn:Hec; [|specialize (Hp e He Hec); congruence].
    destruct (Hm e He Hec) as [|[_ Hcb]]; [congruence|]. by right; right.
Qed.

(** EvtRequestCancel: the request leaves the list whether the removal found it or not. *)
Lemma core_callback l own cbs w r ret l' w' : core l own (r :: cbs) w ->
  removal (REQUEST r) false l w ret l' w' -> core l' (r :: own) cbs w'.
Proof.
  intros Hc [Hsub Hret Hgone Hmat Hnone Hf]. pose proof Hc as [Hn Hcn Hp Hm Hw Hb Hl].
  apply list.NoDup_cons in Hcn as [Hrc Hcn].
  assert (forall e, e ∈ l' -> e ∈ l) as Hin by (intros e He; by eapply elem_of_sublist).
  assert (forall x, ret = Some x -> x = r) as Hretr.
  { intros x Hx. destruct (Hret x Hx) as (e & _ & <- & Hm' & _). cbn in Hm'. apply Pos.eqb_eq in Hm'. done. }
  assert (forall x, state_of w' x = state_of w x) as Hsame.
  { intros x. destruct (decide (ret = Some x)) as [Hx|Hx]; [|by apply Hf].
    destruct (Hret x Hx) as (e & _ & <- & _ & _ & Hst). done. }
  assert (~ r ∈ own) as Hro by (intros Hx; destruct (Hw r Hx) as [|[_ Hnr]]; [specialize (Hb r ltac:(left)); congruence|]; apply Hnr; left).
  assert (~ r ∈ e_request <$> l') as Hrl.
  { intros Hx. destruct ret as [x|] eqn:Hre.
    - assert (x = r) as -> by auto. destruct (Hret r eq_refl) as (y & _ & Hyr & _ & Hno & _). apply Hno. by rewrite Hyr.
    - apply list_elem_of_fmap in Hx as (e & Her & He). specialize (Hnone eq_refl eq_refl e He). cbn in Hnone.
      apply Pos.eqb_neq in Hnone. done. }
  split.
  - rewrite <- Permutation_middle. apply list.NoDup_cons. split; [rewrite elem_of_app; tauto|].
    eapply sublist_NoDup; [exact Hn|]. apply sublist_app; [|done]. by apply fmap_sublist.
  - done.
  - intros e He Hec. rewrite Hsame. auto.
  - intros e He Hec. rewrite Hsame. destruct (Hm e (Hin e He) Hec) as [|[? Hx]]; [by left|].
    apply elem_of_cons in Hx as [Hx|Hx]; [|by right]. exfalso. apply Hrl. rewrite <- Hx. by apply elem_of_fmap_request.
  - intros x [->|Hx]%elem_of_cons; rewrite Hsame; [right; split; [apply Hb; left|done]|].
    destruct (Hw x Hx) as [|[? Hx']]; [by left|right]. split; [done|]. intros ?. apply Hx'. by right.
  - intros x Hx. rewrite Hsame. apply Hb. by right.
  - intros x Hx. rewrite Hsame in Hx. destruct (Hl x Hx) as [Hxl|[Hxo|Hxc]].
    + apply list_elem_of_fmap in Hxl as (e & -> & He). destruct (decide (e_request e ∈ e_request <$> l')) as [|Hno]; [by left|].
      destruct (Hgone e He) as [Hr|[]]; [intros Hel; apply Hno; by apply elem_of_fmap_request| |done].
      right. left. rewrite (Hretr _ Hr). left.
    + right. left. by right.
    + apply elem_of_cons in Hxc as [->|]; [right; left; left|by right; right].
Qed.


(** The owner completes its request. *)
Lemma core_finish l own cbs w w' r : core l (r :: own) cbs w -> updated w w' r Absent -> core l own cbs w'.
Proof.
  intros Hc [Hr Hf]. pose proof Hc as [Hn Hcn Hp Hm Hw Hb Hl].
  rewrite <- Permutation_middle in Hn. apply list.NoDup_cons in Hn as [Hro Hn]. rewrite elem_of_app in Hro.
  assert (~ r ∈ cbs) as Hrc.
  { intros Hx. destruct (Hw r ltac:(left)) as [|[]]; [|done]. specialize (Hb r Hx). congruence. }
  assert (forall e, e ∈ l -> e_request e <> r) as Hne.
  { intros e He Heq. apply Hro. left. rewrite <- Heq. by apply elem_of_fmap_request. }
  split.
  - done.
  - done.
  - intros e He Hec. rewrite Hf by auto. auto.
  - intros e He Hec. rewrite Hf by auto. auto.
  - intros x Hx. rewrite Hf; [apply Hw; by right|]. intros ->. tauto.
  - intros x Hx. rewrite Hf; [auto|]. intros ->. tauto.
  - intros x Hx. destruct (decide (x = r)) as [->|Hxr]; [congruence|]. rewrite Hf in Hx by done.
    destruct (Hl x Hx) as [|[Hxo|]]; auto. apply elem_of_cons in Hxo as [|]; [done|auto].
Qed.

(** Marking fails: the request has an owner; marking succeeds: it is armed. *)
Lemma core_mark_failed l1 e l2 own cbs w w' : core (l1 ++ e :: l2) own cbs w -> state_of w (e_request e) = Owned ->
  updated w w' (e_request e) Owned -> core (l1 ++ l2) (e_request e :: own) cbs w'.
Proof.
  intros Hc Hs [Hr Hf]. pose proof Hc as [Hn Hcn Hp Hm Hw Hb Hl].
  assert (forall x, state_of w' x = state_of w x) as Hsame.
  { intros x. destruct (decide (x = e_request e)) as [->|]; [congruence|by apply Hf]. }
  assert (forall x, x ∈ l1 ++ l2 -> x ∈ l1 ++ e :: l2) as Hin.
  { intros x. rewrite !elem_of_app, elem_of_cons. tauto. }
  split.
  - revert Hn. rewrite !fmap_app, fmap_cons, <- !app_assoc. cbn [app]. by rewrite <- !Permutation_middle.
  - done.
  - intros x Hx Hxc. rewrite Hsame. auto.
  - intros x Hx Hxc. rewrite Hsame. auto.
  - intros x [->|Hx]%elem_of_cons; rewrite Hsame; auto.
  - intros x Hx. rewrite Hsame. auto.
  - intros x Hx. rewrite Hsame in Hx. destruct (Hl x Hx) as [Hxl|[]]; [|right; left; by right|by right; right].
    rewrite fmap_app, elem_of_app, fmap_cons, elem_of_cons in Hxl. rewrite fmap_app, elem_of_app.
    destruct Hxl as [|[->|]]; auto. right. left. left.
Qed.

Lemma core_mark l1 e l2 own cbs w w' : core (l1 ++ e :: l2) own cbs w -> state_of w (e_request e) = Owned ->
  updated w w' (e_request e) Armed ->
  core (l1 ++ {| e_request := e_request e; e_seqnum := e_seqnum e; e_endpoint := e_endpoint e; e_cancelable := true |} :: l2)
    own cbs w'.
Proof.
  intros Hc Hs [Hr Hf]. pose proof Hc as [Hn Hcn Hp Hm Hw Hb Hl].
  set (e' := {| e_request := e_request e; e_seqnum := e_seqnum e; e_endpoint := e_endpoint e; e_cancelable := true |}).
  assert (e_request <$> l1 ++ e' :: l2 = e_request <$> l1 ++ e :: l2) as Hreq by (by rewrite !fmap_app, !fmap_cons).
  pose proof Hn as Hn'. rewrite fmap_app, fmap_cons, <- app_assoc in Hn'. cbn [app] in Hn'.
  rewrite <- Permutation_middle in Hn'. apply list.NoDup_cons in Hn' as [Hno _]. rewrite !elem_of_app in Hno.
  assert (forall x, x ∈ l1 ++ e' :: l2 -> x = e' \/ (x ∈ l1 ++ e :: l2 /\ e_request x <> e_request e)) as Hcase.
  { intros x. rewrite !elem_of_app, !elem_of_cons. intros [Hx|[->|Hx]]; [right|by left|right]; (split; [tauto|]);
      intros Heq; apply Hno; rewrite <- Heq; [left|right; left]; by apply elem_of_fmap_request. }
  assert (forall x, x ∈ own -> x <> e_request e) as Hneo by (intros x Hx ->; tauto).
  assert (forall x, x ∈ cbs -> x <> e_request e) as Hnec by (intros x Hx ->; specialize (Hb _ Hx); congruence).
  split.
  - by rewrite Hreq.
  - done.
  - intros x Hx Hxc. destruct (Hcase x Hx) as [->|[Hx' Hne]]; [done|]. rewrite Hf by done. auto.
  - intros x Hx Hxc. destruct (Hcase x Hx) as [->|[Hx' Hne]]; [by left|]. rewrite Hf by done. auto.
  - intros x Hx. rewrite Hf by auto. auto.
  - intros x Hx. rewrite Hf by auto. auto.
  - intros x Hx. rewrite Hreq. destruct (decide (x = e_request e)) as [->|Hne].
    + left. rewrite fmap_app, elem_of_app. right. left.
    + rewrite Hf in Hx by done. auto.
Qed.

(** Sequence numbers tie an outstanding send to its request. *)
Definition send_number (c : send_ctx) : option Z := match s_request c with Some _ => Some (s_seqnum c) | None => None end.

Record tied (l : list entry) (cs : list send_ctx) : Prop := {
  t_seq : NoDup (e_seqnum <$> l);
  t_sseq : NoDup (omap send_number cs);
  t_sends : forall c r e, c ∈ cs -> s_request c = Some r -> e ∈ l -> e_seqnum e = s_seqnum c ->
    e_request e = r /\ e_cancelable e = false
}.

Lemma tied_mono l l' cs cs' : l' `sublist_of` l -> (forall c, c ∈ cs' -> c ∈ cs) -> NoDup (omap send_number cs') ->
  tied l cs -> tied l' cs'.
Proof.
  intros Hl Hcs Hn [H1 H2 H3].
  assert (forall e, e ∈ l' -> e ∈ l) as Hin by (intros e He; by eapply elem_of_sublist). split.
  - eapply sublist_NoDup; [exact H1|]. by apply fmap_sublist.
  - done.
  - intros c r e Hc Hr He. apply H3; auto.
Qed.

(** The books: what arrived is completed or still belongs to the driver. *)
Definition live (w : W) (r : request) : nat := if decide (state_of w r = Absent) then 0%nat else 1%nat.
Definition balanced (arr : list request) (comp : list (request * ntstatus)) (ctxs : gmap request Z) (w : W) : Prop :=
  (forall r, (count_occ Pos.eq_dec comp.*1 r + live w r = count_occ Pos.eq_dec arr r)%nat) /\
  (forall r, state_of w r <> Absent -> is_Some (ctxs !! r)).

Lemma balanced_same arr comp ctxs w w' : (forall r, state_of w r = Absent <-> state_of w' r = Absent) ->
  balanced arr comp ctxs w -> balanced arr comp ctxs w'.
Proof.
  intros Hs [Hb Hx]. split; intros r; specialize (Hs r).
  - rewrite <- Hb. f_equal. unfold live. repeat case_decide; tauto.
  - intros Hr. apply Hx. tauto.
Qed.

Record inv (s : sys W) : Prop := {
  i_core : core (requests (dev s)) (o_request <$> owners s) (callbacks s) (wdf s);
  i_tied : tied (requests (dev s)) (sends s);
  i_balanced : balanced (arrived s) (completed s) (contexts s) (wdf s);
  i_sound : broken s = false
}.


Lemma removal_live crit unmark l w ret l' w' r : removal crit unmark l w ret l' w' ->
  state_of w r = Absent <-> state_of w' r = Absent.
Proof.
  intros [_ Hret _ _ _ Hf]. destruct (decide (ret = Some r)) as [Hr|Hr]; [|by rewrite Hf].
  destruct (Hret r Hr) as (e & _ & <- & _ & _ & Hst). destruct (unmark && e_cancelable e); [|by rewrite Hst].
  destruct Hst as [-> ->]. done.
Qed.

Lemma remove_request_removal (s : sys W) crit unmark ret d w : inv s ->
  remove_request (dev s) crit unmark (wdf s) = (ret, d, w) ->
  removal crit unmark (requests (dev s)) (wdf s) ret (requests d) w.
Proof.
  intros Hi. unfold remove_request. destruct (remove_loop _ _ _ _) as [[ret' l'] w'] eqn:Hr. intros [= <- <- <-].
  eapply remove_loop_spec; [by eapply core_nodup_list, i_core|by eapply core_marked, i_core|done].
Qed.

Definition take_request (s : sys W) (ret : option request) (d : device_ctx) (w : W) (st : ntstatus) (unlink : bool) : sys W :=
  match ret with Some r => add_owner (with_list s d w) r st unlink | None => with_list s d w end.

Lemma remove_inv (s : sys W) crit unmark ret d w st unlink : inv s ->
  remove_request (dev s) crit unmark (wdf s) = (ret, d, w) ->
  (unmark = false -> forall e, e ∈ requests (dev s) -> matches e crit = true -> e_cancelable e = false) ->
  inv (take_request s ret d w st unlink).
Proof.
  intros Hi Hr Hun. pose proof (remove_request_removal s crit unmark ret d w Hi Hr) as Hrm.
  pose proof (core_remove _ _ _ _ _ _ _ _ _ (i_core s Hi) Hun Hrm) as Hcore.
  assert (balanced (arrived s) (completed s) (contexts s) w) as Hbal.
  { eapply balanced_same; [|apply (i_balanced s Hi)]. intros r. by eapply removal_live. }
  assert (tied (requests d) (sends s)) as Htied.
  { eapply tied_mono; [apply (rm_sub _ _ _ _ _ _ _ Hrm)|done|apply (t_sseq _ _ (i_tied s Hi))|apply (i_tied s Hi)]. }
  destruct ret; by split; try apply (i_sound s Hi).
Qed.

Lemma inv_submit s r e dir_in w n c s' : inv s -> state_of (wdf s) r = Absent -> updated (wdf s) w r Owned ->
  next_seqnum (seqnum (dev s)) dir_in = Some (n, c) -> fresh_seqnum s n ->
  submit s r e dir_in w = Some s' -> inv s'.
Proof.
  intros [Hc [T1 T2 T3] [Hb Hx0] Hs] Ha Hup Hn [Hf1 Hf2]. unfold submit. rewrite Hn. cbn [mbind option_bind].
  intros [= <-]. split; cbn [dev wdf sends callbacks owners arrived completed broken contexts append_request set_requests requests set_counters].
  - by eapply core_submit.
  - split.
    + rewrite fmap_app. cbn. rewrite <- Permutation_cons_append. apply list.NoDup_cons. split; [|done].
      intros (x & Hxn & Hx)%list_elem_of_fmap. by apply (Hf1 x).
    + cbn [omap list_omap send_number s_request s_seqnum]. apply list.NoDup_cons. split; [|done].
      intros (x & Hx & Hxn)%list_elem_of_omap. unfold send_number in Hxn. destruct (s_request x) eqn:Hxr; [|done].
      injection Hxn as Hxn. apply (Hf2 x Hx); congruence.
    + intros x q y [->|Hx]%elem_of_cons; intros Hq [Hy|Hy%list_elem_of_singleton]%elem_of_app Hyn; cbn in *.
      * exfalso. by apply (Hf1 y).
      * subst y. cbn. split; [congruence|done].
      * by apply (T3 x q y).
      * subst y. cbn in Hyn. exfalso. apply (Hf2 x Hx); congruence.
  - split; intros x; destruct Hup as [Hur Huf].
    2: { intros Hx. destruct (decide (x = r)) as [->|Hne]; [by rewrite lookup_insert_eq|].
         rewrite lookup_insert_ne by done. apply Hx0. by rewrite <- Huf. }
    specialize (Hb x). unfold live in *. destruct (decide (x = r)) as [->|Hx].
    + rewrite count_occ_cons_eq by done. rewrite decide_True in Hb by done. rewrite decide_False by congruence. unfold request in *. lia.
    + rewrite count_occ_cons_neq by done. by rewrite Huf.
  - done.
Qed.



(** Completing an owned request. *)
Lemma inv_complete (s : sys W) r own st : core (requests (dev s)) (r :: own) (callbacks s) (wdf s) ->
  o_request <$> owners s ≡ₚ own -> tied (requests (dev s)) (sends s) ->
  balanced (arrived s) (completed s) (contexts s) (wdf s) -> broken s = false -> inv (complete s r st).
Proof.
  intros Hc Hown Ht [Hb Hctx] Hs. pose proof (complete_law (wdf s) r) as Hup.
  assert (state_of (wdf s) r = Owned \/ state_of (wdf s) r = Cancelling) as Hst
    by (destruct (c_own _ _ _ _ Hc r) as [|[]]; [left|auto..]).
  split; cbn [dev wdf sends callbacks owners arrived completed broken contexts complete].
  - eapply core_perm; [symmetry; exact Hown|reflexivity|]. by eapply core_finish.
  - done.
  - split; intros x; destruct Hup as [Hur Huf].
    2: { intros Hxs. apply Hctx. destruct (decide (x = r)) as [->|]; [done|by rewrite <- Huf]. }
    specialize (Hb x). unfold live in *. cbn [fmap list_fmap fst].
    unfold request in *. destruct (decide (x = r)) as [->|Hx].
    + rewrite count_occ_cons_eq by done. rewrite decide_False in Hb by (destruct Hst; congruence).
      rewrite decide_True by done. unfold fmap in *. lia.
    + rewrite count_occ_cons_neq by done. by rewrite Huf.
  - rewrite Hs, bool_decide_false; [done|]. destruct Hst; intros [|]; congruence.
Qed.

Lemma inv_finish (s : sys W) l1 o l2 ok s' : inv s -> owners s = l1 ++ o :: l2 ->
  finish (with_owners s (l1 ++ l2)) o ok = Some s' -> inv s'.
Proof.
  intros [Hc Ht Hb Hs] Ho. assert (o_request <$> owners s ≡ₚ o_request o :: (o_request <$> l1 ++ l2)) as Hp.
  { rewrite Ho, !fmap_app, fmap_cons. by rewrite <- Permutation_middle. }
  assert (core (requests (dev s)) (o_request o :: (o_request <$> l1 ++ l2)) (callbacks s) (wdf s)) as Hc'
    by (by eapply core_perm; [exact Hp|reflexivity|]).
  unfold finish. destruct (o_unlink o).
  2: { intros [= <-]. by apply (inv_complete _ _ (o_request <$> l1 ++ l2)). }
  unfold send_cmd_unlink_and_complete. cbn [dev with_owners contexts].
  destruct (unplugged (dev s)); [intros [= <-]; by apply (inv_complete _ _ (o_request <$> l1 ++ l2))|].
  destruct ok; [|intros [= <-]; by apply (inv_complete _ _ (o_request <$> l1 ++ l2))].
  destruct (contexts s !! o_request o) as [m|]; [|done]. cbn [mbind option_bind].
  destruct (next_seqnum_total (seqnum (dev s)) false) as (n & c & ->). cbn [mbind option_bind]. intros [= <-].
  apply (inv_complete _ _ (o_request <$> l1 ++ l2));
    cbn [dev sends requests set_counters callbacks owners arrived completed broken wdf with_owners]; try done.
  destruct Ht as [H1 H2 H3]. split; [done|done|].
  intros x r e [->|Hx]%elem_of_cons; [done|by apply H3].
Qed.

Lemma inv_cancel (s : sys W) r w : inv s -> state_of (wdf s) r = Armed -> updated (wdf s) w r Cancelling ->
  inv (with_callbacks (with_list s (dev s) w) (r :: callbacks s)).
Proof.
  intros [Hc Ht Hb Hs] Ha Hup. split; cbn [dev wdf sends callbacks owners arrived completed broken with_callbacks with_list]; try done.
  - by eapply core_cancel.
  - eapply balanced_same; [|exact Hb]. intros x. destruct Hup as [Hu Hf].
    destruct (decide (x = r)) as [->|Hx]; [|by rewrite Hf]. rewrite Ha, Hu. done.
Qed.

Lemma inv_cancel_request (s : sys W) l1 r l2 : inv s -> callbacks s = l1 ++ r :: l2 ->
  inv (cancel_request (with_callbacks s (l1 ++ l2)) r).
Proof.
  intros Hi Hcb. unfold cancel_request. cbn [dev wdf with_callbacks].
  destruct (remove_request (dev s) (REQUEST r) false (wdf s)) as [[ret d] w] eqn:Hr.
  pose proof (remove_request_removal _ _ _ _ _ _ Hi Hr) as Hrm. destruct Hi as [Hc Ht Hb Hs].
  split; cbn [dev wdf sends callbacks owners arrived completed broken with_callbacks with_list add_owner with_owners]; try done.
  - cbn [fmap list_fmap o_request]. eapply core_callback; [|exact Hrm].
    eapply core_perm; [reflexivity| |exact Hc]. rewrite Hcb. by rewrite <- Permutation_middle.
  - eapply tied_mono; [apply (rm_sub _ _ _ _ _ _ _ Hrm)|done|apply (t_sseq _ _ Ht)|exact Ht].
  - eapply balanced_same; [|exact Hb]. intros x. by eapply removal_live.
Qed.

Lemma inv_detaching (s : sys W) b : inv s -> inv (with_detaching s b).
Proof. by intros [Hc Ht Hb Hs]; split. Qed.

(** The completion routine of a send. *)
Lemma inv_sent (s : sys W) r n : inv s ->
  (forall e, e ∈ requests (dev s) -> e_seqnum e = n -> e_request e = r /\ e_cancelable e = false) ->
  (forall c q, c ∈ sends s -> s_request c = Some q -> s_seqnum c <> n) ->
  forall err d w, mark_request_cancelable (dev s) n (wdf s) = (err, d, w) ->
  inv (if decide (err <> STATUS_SUCCESS) then add_owner (with_list s d w) r err true else with_list s d w).
Proof.
  intros [Hc Ht Hb Hs] Hrn Hno err d w. unfold mark_request_cancelable.
  destruct (mark_loop n (requests (dev s)) (wdf s)) as [[[st l] m] w1] eqn:Hm. intros [= <- <- <-].
  apply mark_loop_spec in Hm; [|apply (t_seq _ _ Ht)|].
  2: { intros e He Hn. destruct (Hrn e He Hn) as [_ Hec]. by apply (c_plain _ _ _ _ Hc). }
  destruct Hm as [(-> & -> & -> & _)|(l1 & e & l2 & Hl & Hen & Hcase)]; [rewrite decide_False by tauto; by split|].
  assert (e ∈ requests (dev s)) as He by (rewrite Hl, elem_of_app; right; left).
  destruct (Hrn e He Hen) as [Her Hec]. pose proof (c_plain _ _ _ _ Hc e He Hec) as Hst.
  assert (forall w2, state_of w2 (e_request e) <> Absent -> (forall x, x <> e_request e -> state_of w2 x = state_of (wdf s) x) ->
    balanced (arrived s) (completed s) (contexts s) w2) as Hbal.
  { intros w2 Hx Hf. eapply balanced_same; [|exact Hb]. intros x.
    destruct (decide (x = e_request e)) as [->|]; [|by rewrite Hf]. rewrite Hst. split; [done|tauto]. }
  rewrite Hl in Hc. destruct Hcase as [(Hne & -> & Hup)|(-> & Hup & ->)].
  - rewrite decide_True by done. split; cbn [dev wdf sends callbacks owners arrived completed broken with_list add_owner with_owners requests]; try done.
    + cbn [fmap list_fmap o_request]. rewrite <- Her. by eapply core_mark_failed.
    + eapply tied_mono; [|done|apply (t_sseq _ _ Ht)|exact Ht]. rewrite Hl. apply sublist_app; [done|by constructor].
    + destruct Hup as [Hu Hf]. apply Hbal; [congruence|done].
  - rewrite decide_False by tauto. split; cbn [dev wdf sends callbacks owners arrived completed broken with_list requests]; try done.
    + by apply core_mark with (w := wdf s).
    + destruct Ht as [H1 H2 H3]. rewrite Hl in H1, H3.
      set (e' := {| e_request := e_request e; e_seqnum := e_seqnum e; e_endpoint := e_endpoint e; e_cancelable := true |}).
      assert (forall x, x ∈ l1 ++ e' :: l2 -> x = e' \/ x ∈ l1 ++ e :: l2) as Hin
        by (intros x; rewrite !elem_of_app, !elem_of_cons; tauto).
      assert (e ∈ l1 ++ e :: l2) as Hel by (rewrite elem_of_app; right; left). split.
      * by rewrite fmap_app, fmap_cons in *.
      * done.
      * intros c q x Hcs Hq Hx Heq. destruct (Hin x Hx) as [->|Hx']; [|by apply (H3 c q x)].
        exfalso. apply (Hno c q Hcs Hq). cbn in Heq. congruence.
    + destruct Hup as [Hu Hf]. apply Hbal; [congruence|done].
Qed.

Lemma inv_send_complete (s : sys W) l1 ctx l2 st : inv s -> sends s = l1 ++ ctx :: l2 -> NT_SUCCESS st = true \/ current s ctx ->
  inv (send_complete (with_sends s (l1 ++ l2)) ctx st).
Proof.
  intros Hi Hse Hcur. pose proof (i_tied s Hi) as Ht. assert (ctx ∈ sends s) as Hctx by (rewrite Hse, elem_of_app; right; left).
  assert (forall c, c ∈ l1 ++ l2 -> c ∈ sends s) as Hin
    by (intros c; rewrite Hse, !elem_of_app, elem_of_cons; tauto).
  assert (NoDup (omap send_number (l1 ++ l2)) /\
    forall n, send_number ctx = Some n -> ~ n ∈ omap send_number (l1 ++ l2)) as [Hnd Hno].
  { pose proof (t_sseq _ _ Ht) as H2. rewrite Hse, !omap_app in *. cbn in H2. destruct (send_number ctx).
    - rewrite <- Permutation_middle in H2. apply list.NoDup_cons in H2 as [? ?]. split; [done|]. by intros ? [= <-].
    - by split. }
  assert (inv (with_sends s (l1 ++ l2))) as Hi'.
  { destruct Hi as [Hc _ Hb Hs]. split; try done. eapply tied_mono; [reflexivity|exact Hin|done|exact Ht]. }
  unfold send_complete. assert (forall s0 : sys W, inv s0 -> inv
    (if bool_decide (st = STATUS_FILE_FORCED_CLOSED) && negb (unplugged (dev s0)) then with_detaching s0 true else s0)) as Hd.
  { intros s0 Hs0. by destruct (_ && _); [apply inv_detaching|]. }
  apply Hd. destruct (s_request ctx) as [r|] eqn:Hr; [|done]. destruct (NT_SUCCESS st) eqn:Hst.
  - set (s1 := with_list (with_sends s (l1 ++ l2)) _ _).
    assert (inv s1) as Hi1 by (destruct Hi'; by split).
    destruct (mark_request_cancelable (dev s1) (s_seqnum ctx) (wdf s1)) as [[err d] w] eqn:Hm.
    apply (inv_sent s1 r (s_seqnum ctx)); [done| | |done].
    + intros e He Hn. by apply (t_sends _ _ Ht ctx r e).
    + intros c q Hc Hq Heq. apply (Hno (s_seqnum ctx)); [unfold send_number; by rewrite Hr|].
      apply list_elem_of_omap. exists c. split; [done|]. unfold send_number. by rewrite Hq, Heq.
  - destruct (remove_request _ (REQUEST r) false _) as [[ret d] w] eqn:Hrm.
    assert (inv (take_request (with_sends s (l1 ++ l2)) ret d w st false)) as Htk.
    { apply (remove_inv _ (REQUEST r) false); [done|done|]. intros _ e He Hm. apply Pos.eqb_eq in Hm.
      destruct Hcur as [?|Hcur]; [done|]. apply (t_sends _ _ Ht ctx r e); try done. apply Hcur; [done|by rewrite Hr, Hm]. }
    destruct ret as [r'|]; [|done].
    destruct (rm_ret _ _ _ _ _ _ _ (remove_request_removal _ _ _ _ _ _ Hi' Hrm) r' eq_refl) as (e & _ & <- & Hm & _).
    apply Pos.eqb_eq in Hm. by rewrite Hm.
Qed.

Lemma inv_step (s s' : sys W) : inv s -> step false s s' -> inv s'.
Proof.
  intros Hi Hst. destruct Hst as [s r e dir_in w s' n c Ha Hup Hn Hf Hsub|s l1 ctx l2 st Hse Hcur|s r w Ha Hup|s l1 r l2 Hcb
    |s n st|s e|s l1 o l2 ok s' Ho Hfin|s].
  - by eapply inv_submit.
  - apply inv_send_complete; [done..|]. by destruct Hcur as [|?].
  - by apply inv_cancel.
  - by apply inv_cancel_request.
  - unfold ret_command. destruct (remove_request _ _ _ _) as [[ret d] w] eqn:Hr.
    apply (remove_inv s (SEQNUM n) true ret d w st false); done.
  - unfold endpoint_purge_step. destruct (remove_request _ _ _ _) as [[ret d] w] eqn:Hr.
    pose proof (remove_inv s (ENDPOINT e) true ret d w STATUS_CANCELLED true Hi Hr) as Htk. destruct ret; by apply Htk.
  - by eapply inv_finish.
  - destruct Hi; by split.
Qed.

Lemma inv_initial (s : sys W) : initial s -> inv s.
Proof.
  intros (Hr & Hs & Hc & Ho & Ha & Hco & Hb & Habs). split; [|rewrite Hr, Hs| |done].
  - rewrite Hr, Hc, Ho. split; cbn.
    1, 2: constructor.
    1-4: intros ? Hin; by apply elem_of_nil in Hin.
    intros r Hx. by rewrite Habs in Hx.
  - split; [constructor|constructor|]. intros c r e Hx; by apply elem_of_nil in Hx.
  - split; intros r; [|intros Hx; by rewrite Habs in Hx]. rewrite Ha, Hco. cbn. unfold live. by rewrite decide_True.
Qed.

Lemma inv_reachable (s : sys W) : reachable false s -> inv s.
Proof. induction 1; [by apply inv_initial|by eapply inv_step]. Qed.

(** One turn of the loop of endpoint_purge. *)
Lemma finish_total (s : sys W) o os ok : inv s -> owners s = o :: os ->
  exists s', finish (with_owners s os) o ok = Some s' /\ inv s' /\ owners s' = os /\
    requests (dev s') = requests (dev s) /\ callbacks s' = callbacks s /\
    completed s' = (o_request o, o_status o) :: completed s.
Proof.
  intros Hi Ho. destruct (finish (with_owners s os) o ok) as [s'|] eqn:Hf.
  - exists s'. split; [done|]. split; [by apply (inv_finish s [] o os ok)|]. revert Hf.
    unfold finish, send_cmd_unlink_and_complete. cbn [dev with_owners contexts].
    destruct (o_unlink o); [|by intros [= <-]]. destruct (unplugged (dev s)); [by intros [= <-]|].
    destruct ok; [|by intros [= <-]]. destruct (contexts s !! o_request o); [|done].
    destruct (next_seqnum_total (seqnum (dev s)) false) as (n & c & Hn). cbn [mbind option_bind]. rewrite Hn. by intros [= <-].
  - exfalso. revert Hf. unfold finish, send_cmd_unlink_and_complete. cbn [dev with_owners contexts].
    destruct (o_unlink o); [|done]. destruct (unplugged (dev s)); [done|]. destruct ok; [|done].
    destruct (c_own _ _ _ _ (i_core s Hi) (o_request o)) as [Hst|[Hst _]]; [rewrite Ho; left| |];
      (destruct (proj2 (i_balanced s Hi) (o_request o)) as [m ->]; [by rewrite Hst|]);
      destruct (next_seqnum_total (seqnum (dev s)) false) as (n & c & Hn); cbn [mbind option_bind]; by rewrite Hn.
Qed.

Lemma purge_spec fuel (s : sys W) e ok : inv s -> (length (requests (dev s)) < fuel)%nat ->
  exists s', endpoint_purge fuel s e ok = Some s' /\ inv s' /\ owners s' = owners s /\ callbacks s' = callbacks s /\
    (forall x, x ∈ completed s -> x ∈ completed s') /\
    (forall x, x ∈ requests (dev s') <-> x ∈ requests (dev s) /\ e_endpoint x <> e) /\
    (forall x, x ∈ requests (dev s) -> e_endpoint x = e ->
       (e_request x, STATUS_CANCELLED) ∈ completed s' \/ e_request x ∈ callbacks s').
Proof.
  revert s. induction fuel as [|fuel IH]; intros s Hi Hlen; [lia|]. cbn [endpoint_purge].
  unfold endpoint_purge_step. destruct (remove_request (dev s) (ENDPOINT e) true (wdf s)) as [[ret d] w] eqn:Hr.
  pose proof (remove_request_removal _ _ _ _ _ _ Hi Hr) as Hrm.
  pose proof (remove_inv s (ENDPOINT e) true ret d w STATUS_CANCELLED true Hi Hr ltac:(done)) as Hi1.
  pose proof Hrm as [Hsub Hret Hgone Hmat Hnone _].
  assert (forall x, x ∈ requests d -> x ∈ requests (dev s)) as Hin by (intros x Hx; by eapply elem_of_sublist).
  assert (forall x, matches x (ENDPOINT e) = false <-> e_endpoint x <> e) as Hme.
  { intros x. cbn. rewrite Pos.eqb_neq. split; congruence. }
  assert (forall x, x ∈ requests (dev s) -> ~ x ∈ requests d ->
    ret = Some (e_request x) \/ e_request x ∈ callbacks s) as Hfate.
  { intros x Hx Hno. destruct (Hgone x Hx Hno) as [|[_ Hst]]; [by left|right].
    pose proof (i_core s Hi) as Hc. destruct (e_cancelable x) eqn:Hxc.
    - destruct (c_marked _ _ _ _ Hc x Hx Hxc) as [|[]]; [congruence|done].
    - pose proof (c_plain _ _ _ _ Hc x Hx Hxc). congruence. }
  destruct ret as [r|]; cbn [take_request] in Hi1.
  - destruct (finish_total _ _ (owners s) ok Hi1 eq_refl) as (s2 & Hf & Hi2 & Ho2 & Hr2 & Hc2 & Hcp2).
    cbn [owners add_owner with_owners with_list] in Hf |- *. rewrite Hf. cbn [mbind option_bind].
    cbn [requests dev callbacks completed add_owner with_owners with_list o_request o_status] in Hr2, Hc2, Hcp2.
    destruct (Hret r eq_refl) as (y & Hy & Hyr & _ & Hyn & _).
    assert (length (requests d) < length (requests (dev s)))%nat as Hlt.
    { pose proof (core_nodup_list _ _ _ _ (i_core s Hi)) as Hnd. apply (NoDup_fmap_1 e_request) in Hnd.
      apply (submseteq_length (y :: requests d)). apply NoDup_submseteq.
      - apply list.NoDup_cons. split; [|by eapply sublist_NoDup]. intros Hyd. apply Hyn. by apply elem_of_fmap_request.
      - intros x [->|Hx]%elem_of_cons; auto. }
    destruct (IH s2 Hi2 ltac:(rewrite Hr2; lia)) as (s' & He & Hi' & Ho' & Hc' & Hcp' & Hl' & Hf').
    exists s'. split; [done|]. split; [done|]. split; [congruence|]. split; [congruence|].
    split; [intros x Hx; apply Hcp'; rewrite Hcp2; by right|]. split.
    + intros x. rewrite Hl', Hr2. split; [intros [? ?]; auto|intros [Hx Hne]]. split; [|done]. apply Hmat; [done|by apply Hme].
    + intros x Hx Hxe. destruct (decide (x ∈ requests d)) as [Hxd|Hxd]; [apply Hf'; [by rewrite Hr2|done]|].
      destruct (Hfate x Hx Hxd) as [[= ->]|Hcb]; [left; apply Hcp'; rewrite Hcp2; left|right; congruence].
  - eexists. split; [reflexivity|]. split; [done|]. do 2 (split; [done|]). split; [done|]. split.
    + intros x. cbn. split; [intros Hx|intros [Hx Hne]; apply Hmat; [done|by apply Hme]].
      split; [auto|]. apply Hme. by apply Hnone.
    + intros x Hx Hxe. right. destruct (Hfate x Hx) as [|Hcb]; [|done|done]. intros Hxd.
      assert (matches x (ENDPOINT e) = false) as Hm by (by apply Hnone). by apply Hme in Hm.
Qed.
End invariant.

(** ** Properties *)

(** Up to 2^31 - 1 consecutive calls of next_seqnum return, and return numbers that
    are valid, carry the direction asked for in their first bit, and are all different
    whatever their directions, wherever the counter starts and although it wraps. *)
Theorem seqnums_distinct c dirs : Z.of_nat (length dirs) <= 2 ^ 31 - 1 ->
  exists ns, issue c dirs = Some ns /\ length ns = length dirs /\ NoDup (extract_num <$> ns) /\
    forall (k : nat) n, ns !! k = Some n -> is_valid_seqnum n = true /\ is_u32 n /\
      extract_dir n = (if default false (dirs !! k) then 1 else 0).
Proof.
  intros Hlen. destruct (issue_spec dirs c) as (ns & Hi & Hl & Hk). exists ns. split; [done|]. split; [done|].
  assert (forall k n, ns !! k = Some n -> exists d, dirs !! k = Some d /\
    n = 2 * (1 + (c mod half + Z.of_nat k) mod (half - 1)) + (if d : bool then 1 else 0) /\
    extract_num n = 1 + (c mod half + Z.of_nat k) mod (half - 1) /\
    0 <= (c mod half + Z.of_nat k) mod (half - 1) < half - 1) as Hn.
  { intros k n Hkn. destruct (lookup_lt_is_Some_2 dirs k) as [d Hd]; [apply lookup_lt_Some in Hkn; lia|].
    exists d. split; [done|]. pose proof (Hk k n d Hkn Hd) as ->. split; [done|].
    pose proof (Z.mod_pos_bound (c mod half + Z.of_nat k) (half - 1)) as Hb. unfold half in *. split; [|lia].
    unfold extract_num. rewrite Z.shiftr_div_pow2 by lia. destruct d; zdm. }
  split.
  - apply NoDup_alt. intros i j m Hmi Hmj. rewrite list_lookup_fmap in Hmi, Hmj.
    destruct (ns !! i) as [x|] eqn:Hxi; [|done]. destruct (ns !! j) as [y|] eqn:Hyj; [|done]. cbn in Hmi, Hmj.
    destruct (Hn i x Hxi) as (_ & _ & _ & Hi1 & _). destruct (Hn j y Hyj) as (_ & _ & _ & Hj1 & _).
    apply lookup_lt_Some in Hxi, Hyj.
    assert ((c mod half + Z.of_nat i) mod (half - 1) = (c mod half + Z.of_nat j) mod (half - 1)) as Heq
      by (unfold request in *; simplify_eq; lia).
    clear - Heq Hxi Hyj Hl Hlen. generalize dependent (c mod half). intros a Heq. unfold half in *. zdm.
  - intros k n Hkn. destruct (Hn k n Hkn) as (d & -> & -> & Hnum & Hb). cbn [default].
    unfold is_valid_seqnum. rewrite Hnum. split; [lia|]. split; [unfold is_u32, half in *; destruct d; lia|].
    rewrite extract_dir_mod. destruct d; cbn; zdm.
Qed.

Lemma seqnums_distinct_witness : issue (2 ^ 32 - 2) [true; false; true] = Some [2 ^ 32 - 1; 2; 5] /\
  NoDup [2147483647; 1; 2].
Proof.
  split; [reflexivity|]. destruct (seqnums_distinct (2 ^ 32 - 2) [true; false; true]) as (ns & Hi & _ & Hn & _); [simpl; lia|].
  assert (ns = [2 ^ 32 - 1; 2; 5]) as -> by (vm_compute in Hi; injection Hi as <-; reflexivity). exact Hn.
Defined.

(** C7: whatever the interleaving of submissions, send completions, responses,
    cancellations, cancel routines, purges and completions, also when the handle of a completed request is used
    for a new one before the completion routine of the old send was called, no request is completed
    twice or while it is still marked cancelable; every request given to the driver is
    completed or still belongs to it, and then it is listed, about to be completed by a
    thread or about to be passed to the cancel routine; so when nothing is pending
    exactly the requests that arrived have been completed.  Only one interleaving is excluded, [reachable false]: the routine of
    a send is called with an error after the handle of its request was used again - it then takes the new request, see
    late_send_failure_breaks_reused_handle. *)
Theorem requests_completed_exactly_once `{WdfLaws W} (s : sys W) : reachable false s ->
  broken s = false /\
  (forall r, (count_occ Pos.eq_dec (completed s).*1 r + (if decide (state_of (wdf s) r = Absent) then 0 else 1) =
              count_occ Pos.eq_dec (arrived s) r)%nat) /\
  (forall r, state_of (wdf s) r <> Absent ->
     r ∈ e_request <$> requests (dev s) \/ r ∈ o_request <$> owners s \/ r ∈ callbacks s) /\
  (requests (dev s) = [] -> owners s = [] -> callbacks s = [] ->
     forall r, count_occ Pos.eq_dec (completed s).*1 r = count_occ Pos.eq_dec (arrived s) r).
Proof.
  intros Hr. pose proof (inv_reachable s Hr) as [Hc _ [Hb _] Hs]. split; [done|]. split; [exact Hb|].
  pose proof (c_live _ _ _ _ Hc) as Hl. split; [exact Hl|]. intros Hreq Ho Hcb r. rewrite Hreq, Ho, Hcb in Hl.
  specialize (Hb r). unfold live in Hb. destruct (decide (state_of (wdf s) r = Absent)) as [|Hne]; [by rewrite Nat.add_0_r in Hb|].
  exfalso. destruct (Hl r Hne) as [Hx|[Hx|Hx]]; by apply elem_of_nil in Hx.
Qed.

(** Purging an endpoint terminates and leaves exactly the other endpoints' requests
    in the list; every request of the endpoint has been completed as cancelled, or the
    framework has cancelled it and will call the cancel routine. *)
Theorem endpoint_purge_drains `{WdfLaws W} (s : sys W) e ok : reachable false s ->
  exists s', endpoint_purge (S (length (requests (dev s)))) s e ok = Some s' /\
    broken s' = false /\
    (forall x, x ∈ requests (dev s') <-> x ∈ requests (dev s) /\ e_endpoint x <> e) /\
    (forall x, x ∈ requests (dev s) -> e_endpoint x = e ->
       (e_request x, STATUS_CANCELLED) ∈ completed s' \/ e_request x ∈ callbacks s').
Proof.
  intros Hr. destruct (purge_spec (S (length (requests (dev s)))) s e ok (inv_reachable s Hr)) as
    (s' & He & Hi & _ & _ & _ & Hl & Hf); [lia|]. exists s'. split; [done|]. split; [apply (i_sound s' Hi)|]. done.
Qed.

(** ** A framework, for the witnesses *)

Module Demo.
Abbreviation W := (gmap request cancel_state).
Definition get (w : W) (r : request) : cancel_state := default Absent (w !! r).

#[global] Instance wdf_demo : Wdf W := {
  state_of := get;
  WdfRequestMarkCancelableEx w r :=
    match get w r with Owned => (STATUS_SUCCESS, <[r := Armed]> w) | _ => (STATUS_INVALID_DEVICE_REQUEST, w) end;
  WdfRequestUnmarkCancelable w r :=
    match get w r with
    | Armed => (STATUS_SUCCESS, <[r := Owned]> w)
    | Cancelling => (STATUS_CANCELLED, w)
    | _ => (STATUS_INVALID_DEVICE_REQUEST, w)
    end;
  WdfRequestComplete w r := delete r w }.

Lemma get_insert (w : W) r st : updated w (<[r := st]> w) r st.
Proof.
  split; cbn; unfold get; [by rewrite lookup_insert_eq|]. intros r' Hne. by rewrite lookup_insert_ne by congruence.
Qed.

#[global] Instance wdf_demo_laws : WdfLaws W.
Proof.
  split.
  - intros w r st w' Hs Hm. cbn in Hs, Hm. rewrite Hs in Hm. injection Hm as <- <-. left. split; [done|apply get_insert].
  - intros w r st w' Hm. cbn in Hm. split; intros Hs; cbn in Hs; rewrite Hs in Hm; injection Hm as <- <-.
    + split; [done|apply get_insert].
    + split; [done|]. by split.
  - intros w r. split; cbn; unfold get; [by rewrite lookup_delete_eq|]. intros r' Hne. by rewrite lookup_delete_ne by congruence.
Qed.

Definition start : sys W :=
  {| dev := {| requests := []; seqnum := 0; unplugged := false; sent_requests := 0; cancelable_requests := 0 |};
     wdf := ∅; contexts := ∅; sends := []; callbacks := []; owners := []; unlinks := []; detaching := false;
     arrived := []; completed := []; broken := false |}.

(** Request 1 on endpoint 1 is submitted. *)
Definition submitted (s : sys W) (r : request) : sys W := default s (submit s r 1%positive false (<[r := Owned]> (wdf s))).
Definition one : sys W := submitted start 1%positive.

Lemma start_reachable b : reachable b start.
Proof. apply reach_init. repeat split. Qed.

Lemma submitted_step b s r n c : state_of (wdf s) r = Absent -> next_seqnum (seqnum (dev s)) false = Some (n, c) ->
  fresh_seqnum s n -> step b s (submitted s r).
Proof.
  intros Ha Hn Hf. eapply (Submit _ s r 1%positive false (<[r := Owned]> (wdf s)) _ n c); try done; [apply get_insert|].
  unfold submitted, submit. rewrite Hn. reflexivity.
Qed.

Lemma one_reachable b : reachable b one.
Proof.
  eapply reach_step; [apply start_reachable|]. eapply submitted_step; [reflexivity|reflexivity|].
  split; intros ? Hx; by apply elem_of_nil in Hx.
Qed.

(** The request is cancelled by a purge, and its handle is given to the driver again, as
    sequence number 6, before the completion routine of its send has run; the second send succeeds and the
    second request becomes cancelable. *)
Definition purged : sys W := (endpoint_purge_step one 1%positive).1.
Definition unlinked : sys W := default purged (finish (with_owners purged []) {| o_request := 1%positive; o_status := STATUS_CANCELLED; o_unlink := true |} true).
Definition reused : sys W :=
  send_complete (with_sends (submitted unlinked 1%positive) [{| s_request := None; s_seqnum := 4 |}; {| s_request := Some 1%positive; s_seqnum := 2 |}])
    {| s_request := Some 1%positive; s_seqnum := 6 |} STATUS_SUCCESS.

Lemma reused_reachable b : reachable b reused.
Proof.
  assert (reachable b purged) as R1 by (eapply reach_step; [apply one_reachable|apply Purge]).
  assert (reachable b unlinked) as R2 by (eapply reach_step; [exact R1|];
    apply (Finish _ purged [] {| o_request := 1%positive; o_status := STATUS_CANCELLED; o_unlink := true |} [] true); vm_compute; reflexivity).
  assert (reachable b (submitted unlinked 1%positive)) as R3.
  { eapply reach_step; [exact R2|]. eapply (submitted_step b unlinked 1%positive 6 3); [vm_compute; reflexivity|vm_compute; reflexivity|].
    split; intros x Hx; vm_compute in Hx.
    - by apply elem_of_nil in Hx.
    - intros _. repeat (apply elem_of_cons in Hx as [->|Hx]; [by vm_compute|]). by apply elem_of_nil in Hx. }
  eapply reach_step; [exact R3|]. apply (SendComplete _ (submitted unlinked 1%positive) [] _ [_; _]); [vm_compute; reflexivity|].
  right. left. reflexivity.
Qed.

(** The routine of the first send is called at last, without an error: it does not find its request. *)
Definition resent : sys W :=
  send_complete (with_sends reused [{| s_request := None; s_seqnum := 4 |}]) {| s_request := Some 1%positive; s_seqnum := 2 |} STATUS_SUCCESS.

Lemma resent_reachable : reachable false resent.
Proof.
  eapply reach_step; [apply reused_reachable|]. apply (SendComplete _ reused [_] _ []); [vm_compute; reflexivity|]. right. left. reflexivity.
Qed.
End Demo.

(** The first send's routine is called with an error instead: it takes the second request by its handle and completes it while it is cancelable. *)
Lemma late_send_failure_breaks_reused_handle : exists s : sys Demo.W, reachable true s /\ broken s = true.
Proof.
  set (s5 := send_complete (with_sends Demo.reused [{| s_request := None; s_seqnum := 4 |}])
               {| s_request := Some 1%positive; s_seqnum := 2 |} STATUS_CONNECTION_DISCONNECTED).
  set (s6 := default s5 (finish (with_owners s5 [])
               {| o_request := 1%positive; o_status := STATUS_CONNECTION_DISCONNECTED; o_unlink := false |} true)).
  assert (reachable true s5) as R5 by (eapply reach_step; [apply Demo.reused_reachable|];
    apply (SendComplete _ Demo.reused [_] _ []); [vm_compute; reflexivity|by left]).
  exists s6. split; [|vm_compute; reflexivity]. eapply reach_step; [exact R5|].
  apply (Finish _ s5 [] {| o_request := 1%positive; o_status := STATUS_CONNECTION_DISCONNECTED; o_unlink := false |} [] true);
    vm_compute; reflexivity.
Qed.

(** A handle that was used again while its first send was pending: one request is completed, the other one is listed. *)
Lemma requests_completed_exactly_once_witness : broken Demo.resent = false /\ completed Demo.resent = [(1%positive, STATUS_CANCELLED)] /\
  e_request <$> requests (dev Demo.resent) = [1%positive] /\ count_occ Pos.eq_dec (arrived Demo.resent) 1%positive = 2%nat.
Proof.
  destruct (requests_completed_exactly_once Demo.resent Demo.resent_reachable) as (Hb & Hc & _ & _).
  split; [exact Hb|]. split; [vm_compute; reflexivity|]. split; [vm_compute; reflexivity|]. rewrite <- (Hc 1%positive). vm_compute. reflexivity.
Defined.

Lemma endpoint_purge_drains_witness : exists s', endpoint_purge 2 Demo.one 1%positive true = Some s' /\
  completed s' = [(1%positive, STATUS_CANCELLED)] /\ unlinks s' = [2] /\ broken s' = false.
Proof.
  destruct (endpoint_purge_drains Demo.one 1%positive true (Demo.one_reachable false)) as (s' & He & Hb & _ & _).
  exists s'. split; [exact He|]. vm_compute in He. injection He as <-. split; [reflexivity|]. split; [reflexivity|exact Hb].
Defined.
