(* ===== verification/FilterReq.v ===== *)
(** * Requests of the filter driver, endpoints and setup packets

    The emulated controller never receives the requests UdeCx handles itself, so the
    upper filter driver repeats them as packed control transfers.  Models the packing of
    drivers/ude_filter/request.h, request.cpp and the conversions of int_dev_ctrl.cpp,
    the unpacking of drivers/ude/filter_request.cpp, the endpoint list of
    drivers/ude/endpoint_list.cpp and the setup packets of drivers/ude/device_ioctl.cpp. *)

From S2P Require Import Prelude Usbd.

(** ** Constants of usb.h, ch9.h and ch11.h *)

Definition USB_DIR_OUT : Z := 0.
Definition USB_DIR_IN : Z := 0x80.
Definition USB_TYPE_STANDARD : Z := Z.shiftl 0 5.
Definition USB_TYPE_CLASS : Z := Z.shiftl 1 5.
Definition USB_TYPE_VENDOR : Z := Z.shiftl 2 5.
Definition USB_RECIP_DEVICE : Z := 0.
Definition USB_RECIP_INTERFACE : Z := 1.
Definition USB_RECIP_ENDPOINT : Z := 2.
Definition USB_RECIP_OTHER : Z := 3.
Definition USB_RT_PORT : Z := Z.lor USB_TYPE_CLASS USB_RECIP_OTHER.
Definition USB_PORT_FEAT_RESET : Z := 4.

Definition USB_REQUEST_CLEAR_FEATURE : Z := 1.
Definition USB_REQUEST_SET_FEATURE : Z := 3.
Definition USB_REQUEST_GET_DESCRIPTOR : Z := 6.
Definition USB_REQUEST_SET_CONFIGURATION : Z := 9.
Definition USB_REQUEST_SET_INTERFACE : Z := 11.
Definition USB_REQUEST_GET_FIRMWARE_STATUS : Z := 26.
Definition USB_FEATURE_ENDPOINT_STALL : Z := 0.

Definition URB_FUNCTION_SELECT_CONFIGURATION : Z := 0x00.
Definition URB_FUNCTION_SELECT_INTERFACE : Z := 0x01.
Definition URB_FUNCTION_CONTROL_TRANSFER : Z := 0x08.
Definition URB_FUNCTION_BULK_OR_INTERRUPT_TRANSFER : Z := 0x09.
Definition URB_FUNCTION_ISOCH_TRANSFER : Z := 0x0A.
Definition URB_FUNCTION_VENDOR_DEVICE : Z := 0x17.
Definition URB_FUNCTION_VENDOR_INTERFACE : Z := 0x18.
Definition URB_FUNCTION_VENDOR_ENDPOINT : Z := 0x19.
Definition URB_FUNCTION_CLASS_DEVICE : Z := 0x1A.
Definition URB_FUNCTION_CLASS_INTERFACE : Z := 0x1B.
Definition URB_FUNCTION_CLASS_ENDPOINT : Z := 0x1C.
Definition URB_FUNCTION_SYNC_RESET_PIPE_AND_CLEAR_STALL : Z := 0x1E.
Definition URB_FUNCTION_CLASS_OTHER : Z := 0x1F.
Definition URB_FUNCTION_VENDOR_OTHER : Z := 0x20.
Definition URB_FUNCTION_SYNC_RESET_PIPE : Z := 0x30.
Definition URB_FUNCTION_SYNC_CLEAR_STALL : Z := 0x31.
Definition URB_FUNCTION_CONTROL_TRANSFER_EX : Z := 0x32.
Definition URB_FUNCTION_BULK_OR_INTERRUPT_TRANSFER_USING_CHAINED_MDL : Z := 0x37.
Definition URB_FUNCTION_ISOCH_TRANSFER_USING_CHAINED_MDL : Z := 0x38.

(** ** Data *)

(** USB_DEFAULT_PIPE_SETUP_PACKET *)
Record setup_packet : Type := { bmRequestType : Z; bRequest : Z; wValue : Z; wIndex : Z; wLength : Z }.

#[global] Instance setup_packet_eq_dec : EqDecision setup_packet.
Proof. solve_decision. Defined.

Definition setup_bytes (p : setup_packet) : list byte :=
  [z2b (bmRequestType p); z2b (bRequest p)] ++ le_bytes 2 (wValue p) ++ le_bytes 2 (wIndex p) ++ le_bytes 2 (wLength p).

Definition setup_ok (p : setup_packet) : Prop :=
  is_u8 (bmRequestType p) /\ is_u8 (bRequest p) /\ is_u16 (wValue p) /\ is_u16 (wIndex p) /\ is_u16 (wLength p).

Definition is_transfer_dir_out (p : setup_packet) : bool := Z.shiftr (bmRequestType p) 7 =? 0.

(** USBD_PIPE_INFORMATION, USBD_INTERFACE_INFORMATION: the members used. *)
Record pipe_information : Type := { EndpointAddress : Z; p_PipeHandle : Z }.
Record interface_information : Type := { InterfaceNumber : Z; AlternateSetting : Z; Pipes : list pipe_information }.

(** What a TransferBuffer points to: a copy of the URB the filter driver saw, of a kind
    that depends on its function, or bytes.  A configuration descriptor is its
    bConfigurationValue and bNumInterfaces. *)
Inductive transfer_buffer : Type :=
| NoBuffer
| Bytes (data : list byte)
| PipeRequest (pipe : Z) (status : usbd_status)
| SelectInterface (intf : interface_information)
| SelectConfiguration (cd : option (Z * Z)) (intfs : list interface_information).

(** The members of _URB_CONTROL_TRANSFER_EX; _URB_CONTROL_VENDOR_OR_CLASS_REQUEST overlays
    it, RequestTypeReservedBits, Request, Value, Index and Reserved1 being the setup packet. *)
Record urb_control : Type := {
  Function : Z; UrbStatus : usbd_status; PipeHandle : Z; TransferFlags : Z; TransferBufferLength : Z;
  TransferBuffer : transfer_buffer; Timeout : Z; SetupPacket : setup_packet }.

(** endpoint_ctx: handle, descriptor and pipe handle. *)
Record endpoint_ctx : Type := {
  ep_handle : positive; bLength : Z; bDescriptorType : Z; bEndpointAddress : Z; bmAttributes : Z; bInterval : Z;
  ep_PipeHandle : Z }.

(** ** Setup packets *)

Definition make_set_configuration (ConfigurationValue : Z) : setup_packet :=
  {| bmRequestType := Z.lor USB_DIR_OUT (Z.lor USB_TYPE_STANDARD USB_RECIP_DEVICE);
     bRequest := USB_REQUEST_SET_CONFIGURATION; wValue := ConfigurationValue; wIndex := 0; wLength := 0 |}.

Definition make_set_interface (InterfaceNumber AlternateSetting : Z) : setup_packet :=
  {| bmRequestType := Z.lor USB_DIR_OUT (Z.lor USB_TYPE_STANDARD USB_RECIP_INTERFACE);
     bRequest := USB_REQUEST_SET_INTERFACE; wValue := AlternateSetting; wIndex := InterfaceNumber; wLength := 0 |}.

Definition make_clear_endpoint_stall (EndpointAddress : Z) : setup_packet :=
  {| bmRequestType := Z.lor USB_DIR_OUT (Z.lor USB_TYPE_STANDARD USB_RECIP_ENDPOINT);
     bRequest := USB_REQUEST_CLEAR_FEATURE; wValue := USB_FEATURE_ENDPOINT_STALL; wIndex := EndpointAddress; wLength := 0 |}.

Definition make_reset_port (port : Z) : setup_packet :=
  {| bmRequestType := USB_RT_PORT; bRequest := USB_REQUEST_SET_FEATURE;
     wValue := USB_PORT_FEAT_RESET; wIndex := port; wLength := 0 |}.

(** ** The endpoint list *)

(** endpoint_search *)
Inductive endpoint_search : Type := HANDLE (h : Z) | ADDRESS (a : Z).

Definition matches (endp : endpoint_ctx) (crit : endpoint_search) : bool :=
  match crit with
  | HANDLE h => h =? ep_PipeHandle endp
  | ADDRESS a => a =? bEndpointAddress endp
  end.

(** InsertHeadList; the list excludes its head, the default control pipe. *)
Definition insert_endpoint_list (l : list endpoint_ctx) (endp : endpoint_ctx) : list endpoint_ctx := endp :: l.

(** RemoveEntryList of the entry embedded in the endpoint. *)
Definition remove_endpoint_list (l : list endpoint_ctx) (h : positive) : list endpoint_ctx :=
  filter (fun e => ep_handle e <> h) l.

Fixpoint find_endpoint (l : list endpoint_ctx) (crit : endpoint_search) : option endpoint_ctx :=
  match l with
  | [] => None
  | endp :: l => if matches endp crit then Some endp else find_endpoint l crit
  end.

Definition set_pipe_handle (h : Z) (e : endpoint_ctx) : endpoint_ctx :=
  {| ep_handle := ep_handle e; bLength := bLength e; bDescriptorType := bDescriptorType e;
     bEndpointAddress := bEndpointAddress e; bmAttributes := bmAttributes e; bInterval := bInterval e;
     ep_PipeHandle := h |}.

(** [endp->PipeHandle = h] for the endpoint object [endp]. *)
Definition assign_pipe_handle (l : list endpoint_ctx) (endp : endpoint_ctx) (h : Z) : list endpoint_ctx :=
  map (fun e => if Pos.eqb (ep_handle e) (ep_handle endp) then set_pipe_handle h e else e) l.

(** update_pipe_properties *)
Fixpoint update_pipes (l : list endpoint_ctx) (pipes : list pipe_information) : list endpoint_ctx :=
  match pipes with
  | [] => l
  | pipe :: pipes =>
      let l :=
        match find_endpoint l (ADDRESS (EndpointAddress pipe)) with
        | None => l
        | Some endp => assign_pipe_handle l endp (p_PipeHandle pipe)
        end in
      update_pipes l pipes
  end.

Definition update_pipe_properties (l : list endpoint_ctx) (intf : interface_information) : list endpoint_ctx :=
  update_pipes l (Pipes intf).

(** ** Unpacking (filter_request.cpp) *)

(** Every handler may write the setup packet, the status of the original URB and the
    endpoints; [None] is a TransferBuffer of another kind. *)
Definition clear_endpoint_stall (l : list endpoint_ctx) (pkt : setup_packet) (pipe : Z)
    : ntstatus * setup_packet * option usbd_status :=
  match find_endpoint l (HANDLE pipe) with
  | Some endp => (STATUS_SUCCESS, make_clear_endpoint_stall (bEndpointAddress endp), None)
  | None => (STATUS_INVALID_HANDLE, pkt, Some USBD_STATUS_INVALID_PIPE_HANDLE)
  end.

(** The loop over the interfaces; reading past them is [None]. *)
Fixpoint update_interfaces (l : list endpoint_ctx) (n : nat) (intfs : list interface_information)
    : option (list endpoint_ctx) :=
  match n, intfs with
  | O, _ => Some l
  | S n, intf :: intfs => update_interfaces (update_pipe_properties l intf) n intfs
  | S _, [] => None
  end.

Definition select_configuration (l : list endpoint_ctx) (cd : option (Z * Z)) (intfs : list interface_information)
    : option (list endpoint_ctx * setup_packet) :=
  match cd with
  | Some (bConfigurationValue, bNumInterfaces) =>
      l ← update_interfaces l (Z.to_nat bNumInterfaces) intfs;
      Some (l, make_set_configuration bConfigurationValue)
  | None => Some (l, make_set_configuration 0)
  end.

Definition select_interface (l : list endpoint_ctx) (i : interface_information) : list endpoint_ctx * setup_packet :=
  (update_pipe_properties l i, make_set_interface (InterfaceNumber i) (AlternateSetting i)).

Definition set_urb (r : urb_control) (st : usbd_status) (flags : Z) (buf : transfer_buffer) (pkt : setup_packet) : urb_control :=
  {| Function := Function r; UrbStatus := st; PipeHandle := PipeHandle r; TransferFlags := flags;
     TransferBufferLength := TransferBufferLength r; TransferBuffer := buf; Timeout := Timeout r; SetupPacket := pkt |}.

Definition unpack_request (l : list endpoint_ctx) (r : urb_control) (function : Z)
    : option (ntstatus * list endpoint_ctx * urb_control) :=
  let flags := Z.lxor (TransferFlags r) USBD_TRANSFER_DIRECTION_IN in
  if (function =? URB_FUNCTION_SYNC_RESET_PIPE_AND_CLEAR_STALL) || (function =? URB_FUNCTION_SYNC_RESET_PIPE) ||
     (function =? URB_FUNCTION_SYNC_CLEAR_STALL) then
    match TransferBuffer r with
    | PipeRequest pipe st =>
        let '(res, pkt, st') := clear_endpoint_stall l (SetupPacket r) pipe in
        Some (res, l, set_urb r (UrbStatus r) flags (PipeRequest pipe (default st st')) pkt)
    | _ => None
    end
  else if function =? URB_FUNCTION_SELECT_INTERFACE then
    match TransferBuffer r with
    | SelectInterface i =>
        let '(l, pkt) := select_interface l i in
        Some (STATUS_SUCCESS, l, set_urb r (UrbStatus r) flags (TransferBuffer r) pkt)
    | _ => None
    end
  else if function =? URB_FUNCTION_SELECT_CONFIGURATION then
    match TransferBuffer r with
    | SelectConfiguration cd intfs =>
        '(l, pkt) ← select_configuration l cd intfs;
        Some (STATUS_SUCCESS, l, set_urb r (UrbStatus r) flags (TransferBuffer r) pkt)
    | _ => None
    end
  else Some (STATUS_INVALID_PARAMETER, l, set_urb r USBD_STATUS_INVALID_PARAMETER flags (TransferBuffer r) (SetupPacket r)).

(** ** Packing (the filter driver) *)

(** impl::setup_packet and impl::const_part *)
Definition USB_GET_FIRMWARE_ALLOWED_OR_DISALLOWED_STATE : Z := 0.
Definition packed_setup : setup_packet :=
  {| bmRequestType := Z.lor USB_DIR_IN (Z.lor USB_TYPE_STANDARD USB_RECIP_DEVICE);
     bRequest := USB_REQUEST_GET_FIRMWARE_STATUS;
     wValue := USB_GET_FIRMWARE_ALLOWED_OR_DISALLOWED_STATE; wIndex := 0xFFFF; wLength := 0 |}.
Definition const_part : Z := 0xFFFF0000.

Definition is_request_function (function : Z) : bool :=
  existsb (Z.eqb function)
    [URB_FUNCTION_SYNC_RESET_PIPE_AND_CLEAR_STALL; URB_FUNCTION_SYNC_RESET_PIPE; URB_FUNCTION_SYNC_CLEAR_STALL;
     URB_FUNCTION_SELECT_INTERFACE; URB_FUNCTION_SELECT_CONFIGURATION].

Definition is_request (r : urb_control) : bool :=
  (Z.land (Timeout r) const_part =? const_part) &&
  (TransferFlags r =? Z.lor USBD_DEFAULT_PIPE_TRANSFER USBD_TRANSFER_DIRECTION_IN) &&
  bool_decide (SetupPacket r = packed_setup).

(** The function number and the URB afterwards. *)
Definition get_function (r : urb_control) (clear : bool) : Z * urb_control :=
  let function := Z.land (Timeout r) 0xFFFF in
  (function,
   if clear then
     {| Function := Function r; UrbStatus := UrbStatus r; PipeHandle := PipeHandle r; TransferFlags := TransferFlags r;
        TransferBufferLength := TransferBufferLength r; TransferBuffer := TransferBuffer r; Timeout := 0;
        SetupPacket := SetupPacket r |}
   else r).

Definition pack_request (r : urb_control) (buf : transfer_buffer) (function : Z) : urb_control :=
  {| Function := URB_FUNCTION_CONTROL_TRANSFER_EX; UrbStatus := UrbStatus r; PipeHandle := PipeHandle r;
     TransferFlags := Z.lor USBD_DEFAULT_PIPE_TRANSFER USBD_TRANSFER_DIRECTION_IN;
     TransferBufferLength := TransferBufferLength r; TransferBuffer := buf;
     Timeout := Z.lor const_part function; SetupPacket := packed_setup |}.

(** post_process_urb: the copy that is packed and sent after an URB has succeeded. *)
Definition post_process_urb (function : Z) (copy : transfer_buffer) (allocated : bool) : option (transfer_buffer * Z) :=
  if is_request_function function then if allocated then Some (copy, function) else None else None.

(** ** Vendor and class requests *)

Definition get_request_type (r : urb_control) : Z :=
  let bm :=
    if Function r =? URB_FUNCTION_VENDOR_DEVICE then Some (Z.lor USB_TYPE_VENDOR USB_RECIP_DEVICE)
    else if Function r =? URB_FUNCTION_VENDOR_INTERFACE then Some (Z.lor USB_TYPE_VENDOR USB_RECIP_INTERFACE)
    else if Function r =? URB_FUNCTION_VENDOR_ENDPOINT then Some (Z.lor USB_TYPE_VENDOR USB_RECIP_ENDPOINT)
    else if Function r =? URB_FUNCTION_VENDOR_OTHER then Some (Z.lor USB_TYPE_VENDOR USB_RECIP_OTHER)
    else if Function r =? URB_FUNCTION_CLASS_DEVICE then Some (Z.lor USB_TYPE_CLASS USB_RECIP_DEVICE)
    else if Function r =? URB_FUNCTION_CLASS_INTERFACE then Some (Z.lor USB_TYPE_CLASS USB_RECIP_INTERFACE)
    else if Function r =? URB_FUNCTION_CLASS_ENDPOINT then Some (Z.lor USB_TYPE_CLASS USB_RECIP_ENDPOINT)
    else if Function r =? URB_FUNCTION_CLASS_OTHER then Some (Z.lor USB_TYPE_CLASS USB_RECIP_OTHER)
    else None in
  match bm with
  | None => 0
  | Some bm => Z.lor bm (if IsTransferDirectionIn (TransferFlags r) then USB_DIR_IN else USB_DIR_OUT)
  end.

Definition vendor_class_to_control (r : urb_control) (bm : Z) : urb_control :=
  {| Function := URB_FUNCTION_CONTROL_TRANSFER; UrbStatus := UrbStatus r; PipeHandle := PipeHandle r;
     TransferFlags := Z.lor (TransferFlags r) USBD_DEFAULT_PIPE_TRANSFER;
     TransferBufferLength := TransferBufferLength r; TransferBuffer := TransferBuffer r; Timeout := Timeout r;
     SetupPacket := {| bmRequestType := bm; bRequest := bRequest (SetupPacket r); wValue := wValue (SetupPacket r);
                       wIndex := wIndex (SetupPacket r); wLength := u16 (TransferBufferLength r) |} |}.

Definition control_to_vendor_class (r : urb_control) (function : Z) : urb_control :=
  {| Function := function; UrbStatus := UrbStatus r; PipeHandle := PipeHandle r;
     TransferFlags := Z.ldiff (TransferFlags r) USBD_DEFAULT_PIPE_TRANSFER;
     TransferBufferLength := TransferBufferLength r; TransferBuffer := TransferBuffer r; Timeout := Timeout r;
     SetupPacket := {| bmRequestType := 0; bRequest := bRequest (SetupPacket r); wValue := wValue (SetupPacket r);
                       wIndex := wIndex (SetupPacket r); wLength := 0 |} |}.

(** try_legacy_ctrl: the URB sent down, and the context of the completion routine, which
    is the function of a converted URB and null, zero, otherwise. *)
Definition try_legacy_ctrl (r : urb_control) : Z * urb_control :=
  let bm := get_request_type r in
  if bm =? 0 then (0, r) else (Function r, vendor_class_to_control r bm).

(** irp_complete: what the driver above sees, given what came back from below. *)
Definition irp_complete (context : Z) (r : urb_control) : urb_control :=
  if negb (u16 context =? 0) then control_to_vendor_class r (u16 context) else r.

(** ** Lemmas: endpoints *)

Definition update_endpoint (pipes : list pipe_information) (e : endpoint_ctx) : endpoint_ctx :=
  foldl (fun e p => if EndpointAddress p =? bEndpointAddress e then set_pipe_handle (p_PipeHandle p) e else e) e pipes.

(** Endpoint objects are distinct, and a configuration has no two of one address. *)
Definition endpoints_ok (l : list endpoint_ctx) : Prop :=
  NoDup (ep_handle <$> l) /\ NoDup (bEndpointAddress <$> l).

Lemma find_endpoint_Some l crit e : find_endpoint l crit = Some e -> e ∈ l /\ matches e crit = true.
Proof.
  induction l as [|x l IH]; [done|]. cbn [find_endpoint]. destruct (matches x crit) eqn:Hm.
  - intros [= ->]. split; [left|done].
  - intros Hf. destruct (IH Hf) as [Hin Hme]. split; [by right|done].
Qed.

Lemma find_endpoint_None l crit : find_endpoint l crit = None -> forall e, e ∈ l -> matches e crit = false.
Proof.
  induction l as [|x l IH]; intros Hf e He; [by apply elem_of_nil in He|]. cbn [find_endpoint] in Hf.
  destruct (matches x crit) eqn:Hm; [done|]. apply elem_of_cons in He as [->|He]; [done|by apply IH].
Qed.

(** The only endpoint that matches is the one found. *)
Lemma find_endpoint_unique l crit e : e ∈ l -> matches e crit = true ->
  (forall x, x ∈ l -> matches x crit = true -> x = e) -> find_endpoint l crit = Some e.
Proof.
  intros He Hm Hu. destruct (find_endpoint l crit) as [x|] eqn:Hf.
  - apply find_endpoint_Some in Hf as [Hx Hxm]. f_equal. by apply Hu.
  - pose proof (find_endpoint_None l crit Hf e He). congruence.
Qed.

Lemma endpoints_ok_address l e x : endpoints_ok l -> e ∈ l -> x ∈ l -> bEndpointAddress e = bEndpointAddress x -> e = x.
Proof.
  intros [_ Hn] He Hx Heq. apply list_elem_of_lookup in He as [i Hi], Hx as [j Hj].
  assert (i = j) as <-; [|congruence].
  eapply NoDup_lookup; [exact Hn| |]; rewrite list_lookup_fmap; [by rewrite Hi|rewrite Hj; cbn; by rewrite Heq].
Qed.

Lemma endpoints_ok_handle l e x : endpoints_ok l -> e ∈ l -> x ∈ l -> ep_handle e = ep_handle x -> e = x.
Proof.
  intros [Hn _] He Hx Heq. apply list_elem_of_lookup in He as [i Hi], Hx as [j Hj].
  assert (i = j) as <-; [|congruence].
  eapply NoDup_lookup; [exact Hn| |]; rewrite list_lookup_fmap; [by rewrite Hi|rewrite Hj; cbn; by rewrite Heq].
Qed.

Lemma endpoints_ok_map l f : (forall e, ep_handle (f e) = ep_handle e /\ bEndpointAddress (f e) = bEndpointAddress e) ->
  endpoints_ok l -> endpoints_ok (map f l).
Proof.
  intros Hf [H1 H2].
  assert (ep_handle <$> map f l = ep_handle <$> l /\ bEndpointAddress <$> map f l = bEndpointAddress <$> l) as [E1 E2].
  { unfold fmap. induction l as [|x l IH]; [done|]. cbn in *. destruct (Hf x) as [-> ->].
    apply list.NoDup_cons in H1 as [_ H1], H2 as [_ H2]. destruct (IH H1 H2) as [-> ->]. done. }
  split; [by rewrite E1|by rewrite E2].
Qed.

Lemma update_one l p : endpoints_ok l ->
  match find_endpoint l (ADDRESS (EndpointAddress p)) with
  | None => l
  | Some endp => assign_pipe_handle l endp (p_PipeHandle p)
  end = map (fun e => if EndpointAddress p =? bEndpointAddress e then set_pipe_handle (p_PipeHandle p) e else e) l.
Proof.
  intros Hok. destruct (find_endpoint l (ADDRESS (EndpointAddress p))) as [endp|] eqn:Hf.
  - apply find_endpoint_Some in Hf as [Hin Hm]. cbn in Hm. unfold assign_pipe_handle. apply map_ext_in. intros e He.
    apply list_elem_of_In in He. destruct (Pos.eqb_spec (ep_handle e) (ep_handle endp)) as [Heq|Hne].
    + pose proof (endpoints_ok_handle l e endp Hok He Hin Heq) as ->. by rewrite Hm.
    + destruct (Z.eqb_spec (EndpointAddress p) (bEndpointAddress e)) as [Ha|]; [|done]. exfalso. apply Hne.
      f_equal. apply (endpoints_ok_address l); [done..|]. apply Z.eqb_eq in Hm. congruence.
  - symmetry. rewrite <- (map_id l) at 2. apply map_ext_in. intros e He. apply list_elem_of_In in He.
    pose proof (find_endpoint_None l _ Hf e He) as Hm. cbn in Hm. by rewrite Hm.
Qed.

Lemma update_pipes_spec pipes l : endpoints_ok l -> update_pipes l pipes = map (update_endpoint pipes) l.
Proof.
  revert l. induction pipes as [|p pipes IH]; intros l Hok; [symmetry; apply map_id|].
  cbn [update_pipes]. rewrite update_one by done. rewrite IH, map_map; [done|].
  apply endpoints_ok_map; [|done]. intros e. by case_match.
Qed.

Lemma update_endpoint_address pipes e : bEndpointAddress (update_endpoint pipes e) = bEndpointAddress e.
Proof.
  unfold update_endpoint. revert e. induction pipes as [|p pipes IH]; intros e; [done|]. cbn [foldl]. rewrite IH. by case_match.
Qed.

Lemma update_endpoint_other pipes e : ~ bEndpointAddress e ∈ EndpointAddress <$> pipes -> update_endpoint pipes e = e.
Proof.
  unfold update_endpoint. induction pipes as [|p pipes IH]; intros Hno; [done|]. cbn [foldl].
  rewrite fmap_cons, elem_of_cons in Hno. destruct (Z.eqb_spec (EndpointAddress p) (bEndpointAddress e)); [by exfalso; apply Hno; left|].
  apply IH. tauto.
Qed.

Lemma update_endpoint_handle pipes e p : NoDup (EndpointAddress <$> pipes) -> p ∈ pipes ->
  EndpointAddress p = bEndpointAddress e -> ep_PipeHandle (update_endpoint pipes e) = p_PipeHandle p.
Proof.
  unfold update_endpoint. revert e. induction pipes as [|q pipes IH]; intros e Hn Hp Heq; [by apply elem_of_nil in Hp|].
  rewrite fmap_cons in Hn. apply list.NoDup_cons in Hn as [Hq Hn]. cbn [foldl]. apply elem_of_cons in Hp as [->|Hp].
  - rewrite (proj2 (Z.eqb_eq _ _) Heq). fold (update_endpoint pipes (set_pipe_handle (p_PipeHandle q) e)).
    rewrite update_endpoint_other; [done|]. cbn. by rewrite <- Heq.
  - destruct (Z.eqb_spec (EndpointAddress q) (bEndpointAddress e)) as [Hqe|]; [|by apply IH].
    exfalso. apply Hq. rewrite Hqe, <- Heq. by apply list_elem_of_fmap_2.
Qed.

(** ** Lemmas: words *)

Lemma land_high_low k : 0 <= k < 2 ^ 16 ->
  Z.land (Z.lor const_part k) const_part = const_part /\ Z.land (Z.lor const_part k) 0xFFFF = k.
Proof.
  intros Hk. unfold const_part. change 0xFFFF0000 with (Z.shiftl 0xFFFF 16) at 1 4. rewrite lor_shiftl_add by lia. split.
  - apply Z.bits_inj'. intros n Hn. rewrite Z.land_spec.
    change 0xFFFF0000 with (Z.shiftl (Z.ones 16) 16). rewrite !Z.shiftl_spec by lia.
    destruct (Z_lt_ge_dec n 16) as [Hlt|Hge].
    + rewrite (Z.testbit_neg_r _ (n - 16)) by lia. by rewrite andb_false_r.
    + change 65535 with (Z.ones 16). rewrite <- (Z.sub_add 16 n) at 1. rewrite <- Z.div_pow2_bits by lia.
      rewrite Z.div_add_l, (Z.div_small k), Z.add_0_r by lia. apply andb_diag.
  - change 0xFFFF with (Z.ones 16) at 2. rewrite Z.land_ones by lia. rewrite Z.add_comm, Z.mod_add by lia. by apply Z.mod_small.
Qed.

Lemma request_function_cases function : is_request_function function = true ->
  function = URB_FUNCTION_SYNC_RESET_PIPE_AND_CLEAR_STALL \/ function = URB_FUNCTION_SYNC_RESET_PIPE \/
  function = URB_FUNCTION_SYNC_CLEAR_STALL \/ function = URB_FUNCTION_SELECT_INTERFACE \/
  function = URB_FUNCTION_SELECT_CONFIGURATION.
Proof.
  unfold is_request_function. cbn [existsb]. rewrite !Bool.orb_true_iff, !Z.eqb_eq. intuition congruence.
Qed.

Lemma get_request_type_cases r : get_request_type r <> 0 ->
  exists t p, (t = USB_TYPE_VENDOR \/ t = USB_TYPE_CLASS) /\
    (p = USB_RECIP_DEVICE \/ p = USB_RECIP_INTERFACE \/ p = USB_RECIP_ENDPOINT \/ p = USB_RECIP_OTHER) /\
    get_request_type r = Z.lor (Z.lor t p) (if IsTransferDirectionIn (TransferFlags r) then USB_DIR_IN else USB_DIR_OUT) /\
    0 < Function r < 2 ^ 16.
Proof.
  unfold get_request_type. intros Hne.
  repeat match goal with
  | |- context [Function r =? ?c] => destruct (Z.eqb_spec (Function r) c) as [Heq|];
      [rewrite Heq in *; eexists _, _; split; [|split; [|split; [reflexivity|done]]]; by eauto|]
  end.
  exfalso. apply Hne. repeat (rewrite (proj2 (Z.eqb_neq _ _)) by done). done.
Qed.

(** ** Properties *)

(** What the filter driver packs for one of its functions is recognised, its function
    is recovered, and the transfer the emulated device unpacks from it is an OUT transfer
    without data on the default pipe; a vendor or class request converted by the filter
    driver is never taken for a packed request. *)
Theorem packed_request_recognised r buf function : is_request_function function = true ->
  is_request (pack_request r buf function) = true /\
  fst (get_function (pack_request r buf function) true) = function /\
  (forall l st l' q, unpack_request l (snd (get_function (pack_request r buf function) true)) function = Some (st, l', q) ->
     TransferBufferLength q = TransferBufferLength r /\ Timeout q = 0 /\
     IsTransferDirectionOut (TransferFlags q) = true /\ has_flag (TransferFlags q) USBD_DEFAULT_PIPE_TRANSFER = true /\
     (st = STATUS_SUCCESS -> is_transfer_dir_out (SetupPacket q) = true /\ wLength (SetupPacket q) = 0)) /\
  (get_request_type r <> 0 -> is_request (vendor_class_to_control r (get_request_type r)) = false).
Proof.
  intros Hf. assert (0 <= function < 2 ^ 16) as Hr
    by (destruct (request_function_cases function Hf) as [->|[->|[->|[->| ->]]]]; done).
  destruct (land_high_low function Hr) as [H1 H2]. split; [|split; [exact H2|split]].
  - unfold is_request, pack_request. cbn [Timeout TransferFlags SetupPacket]. rewrite H1, !Z.eqb_refl.
    by rewrite bool_decide_true.
  - intros l st l' q. unfold unpack_request.
    change (TransferFlags (snd (get_function (pack_request r buf function) true))) with (Z.lor USBD_DEFAULT_PIPE_TRANSFER USBD_TRANSFER_DIRECTION_IN).
    change (TransferBuffer (snd (get_function (pack_request r buf function) true))) with buf.
    destruct (request_function_cases function Hf) as [->|[->|[->|[->| ->]]]];
      (match goal with |- context [if ?b then _ else _] => let v := eval vm_compute in b in change b with v end);
      cbv iota; try (match goal with |- context [if ?b then _ else _] => let v := eval vm_compute in b in change b with v end; cbv iota).
    1-3: destruct buf as [| |pipe s| |]; try done; unfold clear_endpoint_stall;
      destruct (find_endpoint l (HANDLE pipe)); intros [= <- <- <-]; repeat (split; [done|]); try done; intros; by split.
    + destruct buf as [| | |i|]; try done. intros [= <- <- <-]. repeat (split; [done|]). intros; by split.
    + destruct buf as [| | | |cd intfs]; try done. destruct (select_configuration l cd intfs) as [[l1 pkt]|] eqn:Hs; [|done].
      cbn [mbind option_bind]. intros [= <- <- <-]. cbn. split_and!; try done. intros _. revert Hs. unfold select_configuration.
      destruct cd as [[v n]|]; [|intros [= <- <-]; done].
      destruct (update_interfaces l (Z.to_nat n) intfs); cbn; [intros [= <- <-]; done|done].
  - intros Hne. unfold is_request, vendor_class_to_control. cbn [Timeout TransferFlags SetupPacket].
    rewrite (bool_decide_false _); [by rewrite andb_false_r|]. intros Heq. apply (f_equal bmRequestType) in Heq. cbn in Heq.
    destruct (get_request_type_cases r Hne) as (t & p & Ht & Hp & Hb & _). rewrite Hb in Heq.
    destruct Ht as [->| ->], Hp as [->|[->|[->| ->]]], (IsTransferDirectionIn (TransferFlags r)); vm_compute in Heq; done.
Qed.

Definition blank_urb (function flags len : Z) : urb_control :=
  {| Function := function; UrbStatus := USBD_STATUS_SUCCESS; PipeHandle := 0; TransferFlags := flags;
     TransferBufferLength := len; TransferBuffer := NoBuffer; Timeout := 0;
     SetupPacket := {| bmRequestType := 0; bRequest := 0xA1; wValue := 1; wIndex := 2; wLength := 0 |} |}.

Lemma packed_request_recognised_witness :
  is_request (pack_request (blank_urb 0 0 0) (SelectConfiguration None []) URB_FUNCTION_SELECT_CONFIGURATION) = true.
Proof. apply packed_request_recognised. reflexivity. Defined.

(** A vendor or class request goes down as a control transfer whose setup packet has
    the request's type, recipient and direction and the buffer's length, and comes back
    to the driver above exactly as it was; other requests are passed untouched. *)
Theorem vendor_class_roundtrip r :
  Z.land (TransferFlags r) USBD_DEFAULT_PIPE_TRANSFER = 0 ->
  bmRequestType (SetupPacket r) = 0 -> wLength (SetupPacket r) = 0 ->
  let '(context, down) := try_legacy_ctrl r in
  irp_complete context down = r /\
  (get_request_type r = 0 -> down = r) /\
  (get_request_type r <> 0 ->
     Function down = URB_FUNCTION_CONTROL_TRANSFER /\
     has_flag (TransferFlags down) USBD_DEFAULT_PIPE_TRANSFER = true /\
     is_transfer_dir_out (SetupPacket down) = negb (IsTransferDirectionIn (TransferFlags r)) /\
     IsTransferDirectionIn (TransferFlags down) = IsTransferDirectionIn (TransferFlags r) /\
     (is_u16 (TransferBufferLength r) -> wLength (SetupPacket down) = TransferBufferLength r)).
Proof.
  intros Hflag Hbm Hlen. unfold try_legacy_ctrl. destruct (Z.eqb_spec (get_request_type r) 0) as [Hz|Hnz].
  { split; [done|]. split; [done|]. done. }
  destruct (get_request_type_cases r Hnz) as (t & p & Ht & Hp & Hb & Hf). split; [|split; [done|intros _]].
  - unfold irp_complete. rewrite u16_id by (unfold is_u16; lia). rewrite (proj2 (Z.eqb_neq _ _)) by lia. cbn [negb].
    unfold control_to_vendor_class, vendor_class_to_control. destruct r as [f s ph fl tbl tb to [bm br v i w]]. cbn in *. f_equal.
    + apply Z.bits_inj'. intros n Hn. rewrite Z.ldiff_spec, Z.lor_spec.
      pose proof (f_equal (fun z => Z.testbit z n) Hflag) as Hbit. cbv beta in Hbit. rewrite Z.land_spec, Z.bits_0 in Hbit.
      destruct (Z.testbit fl n), (Z.testbit USBD_DEFAULT_PIPE_TRANSFER n); done.
    + congruence.
  - cbn. split; [done|]. split.
    { unfold has_flag. rewrite Z.land_lor_distr_l, Z.land_diag. rewrite Hflag. done. }
    split; [|split; [|intros Hu; by apply u16_id]].
    + rewrite Hb. unfold is_transfer_dir_out. cbn [bmRequestType].
      destruct Ht as [->| ->], Hp as [->|[->|[->| ->]]], (IsTransferDirectionIn (TransferFlags r)); done.
    + unfold IsTransferDirectionIn. rewrite Z.land_lor_distr_l. change (Z.land USBD_DEFAULT_PIPE_TRANSFER 1) with 0.
      by rewrite Z.lor_0_r.
Qed.

Lemma vendor_class_roundtrip_witness :
  irp_complete URB_FUNCTION_VENDOR_DEVICE (snd (try_legacy_ctrl (blank_urb URB_FUNCTION_VENDOR_DEVICE 3 18))) =
    blank_urb URB_FUNCTION_VENDOR_DEVICE 3 18 /\
  bmRequestType (SetupPacket (snd (try_legacy_ctrl (blank_urb URB_FUNCTION_VENDOR_DEVICE 3 18)))) = 0xC0.
Proof.
  split; [|reflexivity]. apply (vendor_class_roundtrip (blank_urb URB_FUNCTION_VENDOR_DEVICE 3 18)); reflexivity.
Defined.

(** After a packed SELECT_INTERFACE has been unpacked, a packed request to reset or
    clear the stall of one of the interface's pipes becomes CLEAR_FEATURE(ENDPOINT_HALT)
    for the address of that pipe, provided endpoints of no other interface still hold
    the pipe's handle. *)
Theorem clear_stall_reaches_endpoint l i r1 r2 p e st function l1 q1 :
  endpoints_ok l -> NoDup (EndpointAddress <$> Pipes i) -> NoDup (p_PipeHandle <$> Pipes i) ->
  p ∈ Pipes i -> e ∈ l -> bEndpointAddress e = EndpointAddress p ->
  (forall x, x ∈ l -> ~ bEndpointAddress x ∈ EndpointAddress <$> Pipes i -> ep_PipeHandle x <> p_PipeHandle p) ->
  function ∈ [URB_FUNCTION_SYNC_RESET_PIPE_AND_CLEAR_STALL; URB_FUNCTION_SYNC_RESET_PIPE; URB_FUNCTION_SYNC_CLEAR_STALL] ->
  unpack_request l (pack_request r1 (SelectInterface i) URB_FUNCTION_SELECT_INTERFACE) URB_FUNCTION_SELECT_INTERFACE = Some (STATUS_SUCCESS, l1, q1) ->
  SetupPacket q1 = make_set_interface (InterfaceNumber i) (AlternateSetting i) /\
  exists q2, unpack_request l1 (pack_request r2 (PipeRequest (p_PipeHandle p) st) function) function = Some (STATUS_SUCCESS, l1, q2) /\
    SetupPacket q2 = make_clear_endpoint_stall (EndpointAddress p).
Proof.
  intros Hok Hna Hnh Hp He Hea Hother Hfun Hun.
  assert (l1 = map (update_endpoint (Pipes i)) l /\ SetupPacket q1 = make_set_interface (InterfaceNumber i) (AlternateSetting i)) as [-> Hq].
  { unfold unpack_request in Hun. cbn in Hun. injection Hun as <- <-. unfold update_pipe_properties. by rewrite update_pipes_spec. }
  split; [done|]. set (e' := update_endpoint (Pipes i) e).
  assert (find_endpoint (map (update_endpoint (Pipes i)) l) (HANDLE (p_PipeHandle p)) = Some e') as Hfind.
  { apply find_endpoint_unique.
    - apply list_elem_of_In, in_map, list_elem_of_In. done.
    - cbn. unfold e'. rewrite (update_endpoint_handle _ e p) by done. apply Z.eqb_refl.
    - intros x Hx Hm. apply list_elem_of_In, in_map_iff in Hx as (y & <- & Hy). apply list_elem_of_In in Hy.
      cbn in Hm. apply Z.eqb_eq in Hm. unfold e'. f_equal. apply (endpoints_ok_address l); [done..|].
      destruct (decide (bEndpointAddress y ∈ EndpointAddress <$> Pipes i)) as [Hin|Hno].
      + apply list_elem_of_fmap in Hin as (q & Hyq & Hq'). rewrite (update_endpoint_handle _ y q) in Hm by done.
        rewrite Hea, Hyq. apply list_elem_of_lookup in Hp as [a Ha], Hq' as [b Hb].
        assert (a = b) as <-; [|congruence]. eapply NoDup_lookup; [exact Hnh| |]; rewrite list_lookup_fmap;
          [by rewrite Ha|rewrite Hb; cbn; by rewrite Hm].
      + rewrite (update_endpoint_other _ y) in Hm by done. exfalso. by apply (Hother y). }
  apply elem_of_cons in Hfun as [->|Hfun]; [|apply elem_of_cons in Hfun as [->|Hfun]; [|apply list_elem_of_singleton in Hfun as ->]];
    (eexists; split; [unfold unpack_request; cbn [TransferBuffer pack_request]; unfold clear_endpoint_stall; rewrite Hfind; reflexivity|];
     cbn [SetupPacket set_urb]; unfold e'; by rewrite update_endpoint_address, Hea).
Qed.

Definition two_endpoints : list endpoint_ctx :=
  [{| ep_handle := 2; bLength := 7; bDescriptorType := 5; bEndpointAddress := 0x81; bmAttributes := 2; bInterval := 0; ep_PipeHandle := 0 |};
   {| ep_handle := 3; bLength := 7; bDescriptorType := 5; bEndpointAddress := 0x02; bmAttributes := 2; bInterval := 0; ep_PipeHandle := 0 |}].
Definition bulk_interface : interface_information :=
  {| InterfaceNumber := 0; AlternateSetting := 1;
     Pipes := [{| EndpointAddress := 0x81; p_PipeHandle := 1001 |}; {| EndpointAddress := 0x02; p_PipeHandle := 1002 |}] |}.

Lemma clear_stall_reaches_endpoint_witness : exists l1 q2,
  unpack_request l1 (pack_request (blank_urb 0 0 0) (PipeRequest 1002 USBD_STATUS_SUCCESS) URB_FUNCTION_SYNC_CLEAR_STALL)
    URB_FUNCTION_SYNC_CLEAR_STALL = Some (STATUS_SUCCESS, l1, q2) /\ SetupPacket q2 = make_clear_endpoint_stall 0x02.
Proof.
  eexists. refine (proj2 (clear_stall_reaches_endpoint two_endpoints bulk_interface (blank_urb 0 0 0) (blank_urb 0 0 0)
    {| EndpointAddress := 0x02; p_PipeHandle := 1002 |} _ USBD_STATUS_SUCCESS URB_FUNCTION_SYNC_CLEAR_STALL _ _ _ _ _ _ _ _ _ _ _)).
  - split; refine (bool_decide_unpack (NoDup _) _); vm_compute; exact I.
  - refine (bool_decide_unpack (NoDup _) _). vm_compute. exact I.
  - refine (bool_decide_unpack (NoDup _) _). vm_compute. exact I.
  - right. left.
  - right. left.
  - reflexivity.
  - intros x Hx _. repeat (apply elem_of_cons in Hx as [->|Hx]; [discriminate|]). by apply elem_of_nil in Hx.
  - right. right. left.
  - reflexivity.
Defined.
