(* ===== verification/Endpoints.v ===== *)
(** * Endpoints of an emulated device

    drivers/ude/device.cpp: the callbacks that add, reset, start and clean up endpoints and
    their queues, and the intrusive list of drivers/ude/endpoint_list.cpp as the code links it: each endpoint
    context holds a LIST_ENTRY, and that of the default control pipe is the head.  [None] is an access to a context that was
    freed, a write past the descriptor, or a list entry that RemoveEntryList finds corrupted. *)

From S2P Require Import Prelude Usbd FilterReq.
From S2P Require DescPatch.

(** ** Data *)

(** WDF_IO_QUEUE_DISPATCH_TYPE, the types used. *)
Inductive dispatch_type : Type := WdfIoQueueDispatchSequential | WdfIoQueueDispatchParallel.

(** endpoint_ctx of context.h; the parent is the device of the section, [descriptor] is
    USB_ENDPOINT_DESCRIPTOR_AUDIO. *)
Record endpoint : Type := { queue : option positive; descriptor : list byte; pipe : Z; Flink : positive; Blink : positive }.

(** The members of device_ctx the callbacks use; [endps] are the contexts that are allocated,
    [queues] gives get_endpoint of each queue, [io_queue] is what UdeCx was told. *)
Record device : Type := {
  unplugged : bool; ep0 : option positive; ep0_added : bool;
  endps : gmap positive endpoint; queues : gmap positive (positive * dispatch_type); io_queue : gmap positive positive }.

Definition with_endps (d : device) (m : gmap positive endpoint) : device :=
  {| unplugged := unplugged d; ep0 := ep0 d; ep0_added := ep0_added d; endps := m; queues := queues d; io_queue := io_queue d |}.

Definition DESCRIPTOR_SIZE : nat := 9.

(** EP0 of ch9.h: bLength, bDescriptorType and zeros. *)
Definition EP0 : list byte := [x07; x05; x00; x00; x00; x00; x00].

(** The queue of a control pipe takes one request at a time. *)
Definition queue_dispatch (epd : list byte) : option dispatch_type :=
  a ← epd !! 3%nat;
  Some (match DescPatch.usb_endpoint_type (b2z a) with DescPatch.UsbdPipeTypeControl => WdfIoQueueDispatchSequential | _ => WdfIoQueueDispatchParallel end).

(** ** The list *)

Definition set_flink (m : gmap positive endpoint) (p v : positive) : option (gmap positive endpoint) :=
  e ← m !! p;
  Some (<[p := {| queue := queue e; descriptor := descriptor e; pipe := pipe e; Flink := v; Blink := Blink e |}]> m).

Definition set_blink (m : gmap positive endpoint) (p v : positive) : option (gmap positive endpoint) :=
  e ← m !! p;
  Some (<[p := {| queue := queue e; descriptor := descriptor e; pipe := pipe e; Flink := Flink e; Blink := v |}]> m).

(** InitializeListHead *)
Definition InitializeListHead (m : gmap positive endpoint) (p : positive) : option (gmap positive endpoint) :=
  m ← set_flink m p p; set_blink m p p.

(** InsertHeadList *)
Definition InsertHeadList (m : gmap positive endpoint) (head p : positive) : option (gmap positive endpoint) :=
  h ← m !! head;
  let next := Flink h in
  m ← set_flink m p next; m ← set_blink m p head; m ← set_blink m next p; set_flink m head p.

(** RemoveEntryList; it stops the system when the neighbours do not point to the entry. *)
Definition RemoveEntryList (m : gmap positive endpoint) (p : positive) : option (gmap positive endpoint) :=
  e ← m !! p;
  let next := Flink e in
  let prev := Blink e in
  n ← m !! next; q ← m !! prev;
  if bool_decide (Blink n = p) && bool_decide (Flink q = p) then
    m ← set_flink m prev next; set_blink m next prev
  else None.

(** get_endpoint_list_head *)
Definition get_endpoint_list_head (d : device) : option positive := h ← ep0 d; _ ← endps d !! h; Some h.

(** insert_endpoint_list *)
Definition insert_endpoint_list (d : device) (p : positive) : option device :=
  head ← get_endpoint_list_head d;
  m ← InsertHeadList (endps d) head p;
  Some (with_endps d m).

(** remove_endpoint_list *)
Definition remove_endpoint_list (d : device) (p : positive) : option device :=
  m ← RemoveEntryList (endps d) p;
  m ← InitializeListHead m p;
  Some (with_endps d m).

(** What the rest of the driver uses of an endpoint. *)
Definition endpoint_of (p : positive) (e : endpoint) : endpoint_ctx :=
  let byte_at i := b2z (nth i (descriptor e) x00) in
  {| ep_handle := p; bLength := byte_at 0%nat; bDescriptorType := byte_at 1%nat; bEndpointAddress := byte_at 2%nat;
     bmAttributes := byte_at 3%nat; bInterval := byte_at 6%nat; ep_PipeHandle := pipe e |}.

(** find_endpoint: the loop from [entry] until the head. *)
Fixpoint find_from (fuel : nat) (m : gmap positive endpoint) (head entry : positive) (crit : endpoint_search) : option (option positive) :=
  match fuel with
  | O => None
  | S fuel =>
      if Pos.eqb entry head then Some None
      else
        e ← m !! entry;
        if matches (endpoint_of entry e) crit then Some (Some entry) else find_from fuel m head (Flink e) crit
  end.

Definition find_endpoint (d : device) (crit : endpoint_search) : option (option positive) :=
  head ← get_endpoint_list_head d;
  h ← endps d !! head;
  find_from (size (endps d)) (endps d) head (Flink h) crit.

(** update_pipe_properties of filter_request.cpp *)
Fixpoint update_pipe_properties (d : device) (pipes : list pipe_information) : option device :=
  match pipes with
  | [] => Some d
  | p :: pipes =>
      found ← find_endpoint d (ADDRESS (EndpointAddress p));
      match found with
      | None => update_pipe_properties d pipes
      | Some h =>
          e ← endps d !! h;
          let e := {| queue := queue e; descriptor := descriptor e; pipe := p_PipeHandle p; Flink := Flink e; Blink := Blink e |} in
          update_pipe_properties (with_endps d (<[h := e]> (endps d))) pipes
      end
  end.

(** ** Callbacks *)

(** create_endpoint_queue; [answer] is that of WdfIoQueueCreate. *)
Definition create_endpoint_queue (d : device) (p : positive) (dispatch : dispatch_type) (answer : ntstatus * positive) : option (ntstatus * device) :=
  match answer with
  | (STATUS_SUCCESS, q) =>
      e ← endps d !! p;
      let e := {| queue := Some q; descriptor := descriptor e; pipe := pipe e; Flink := Flink e; Blink := Blink e |} in
      Some (STATUS_SUCCESS, {| unplugged := unplugged d; ep0 := ep0 d; ep0_added := ep0_added d; endps := <[p := e]> (endps d);
                               queues := <[q := (p, dispatch)]> (queues d); io_queue := <[p := q]> (io_queue d) |})
  | (err, _) => Some (err, d)
  end.

(** RtlCopyMemory of [len] bytes to the descriptor. *)
Definition copy_descriptor (old epd : list byte) (len : nat) : option (list byte) :=
  if (len <=? length epd)%nat && (len <=? length old)%nat then Some (take len epd ++ drop len old) else None.

Definition set_descriptor (d : device) (p : positive) (epd : list byte) (len : nat) : option device :=
  e ← endps d !! p;
  c ← copy_descriptor (descriptor e) epd len;
  Some (with_endps d (<[p := {| queue := queue e; descriptor := c; pipe := pipe e; Flink := Flink e; Blink := Blink e |}]> (endps d))).

(** endpoint_add, of the descriptor with its length, both absent for the default control pipe;
    [created], [queued] are the answers of UdecxUsbEndpointCreate and WdfIoQueueCreate. *)
Definition endpoint_add (d : device) (EndpointDescriptor : option (list byte)) (len : nat) (created queued : ntstatus * positive)
    : option (ntstatus * device) :=
  if unplugged d then Some (STATUS_DEVICE_NOT_CONNECTED, d)
  else
    let epd := default EP0 EndpointDescriptor in
    match created with
    | (STATUS_SUCCESS, p) =>
        let zero := {| queue := None; descriptor := replicate DESCRIPTOR_SIZE x00; pipe := 0; Flink := p; Blink := p |} in
        let d := with_endps d (<[p := zero]> (endps d)) in
        d ← (if (len =? 0)%nat then
               d ← set_descriptor d p epd 7;
               Some {| unplugged := unplugged d; ep0 := Some p; ep0_added := true; endps := endps d; queues := queues d; io_queue := io_queue d |}
             else
               d ← set_descriptor d p epd len;
               insert_endpoint_list d p);
        dispatch ← queue_dispatch epd;
        create_endpoint_queue d p dispatch queued
    | (err, _) => Some (err, d)
    end.

(** default_endpoint_add *)
Definition default_endpoint_add (d : device) (created queued : ntstatus * positive) : option (ntstatus * device) :=
  endpoint_add d None 0 created queued.

(** endpoint_cleanup *)
Definition endpoint_cleanup (d : device) (p : positive) : option device := remove_endpoint_list d p.

(** endpoint_start: the queue that is started. *)
Definition endpoint_start (d : device) (p : positive) : option (option positive) := e ← endps d !! p; Some (queue e).

(** What a callback does with its request: nothing when it was sent, completion otherwise. *)
Definition complete_unless_pending (st : ntstatus) : option ntstatus :=
  match st with STATUS_PENDING => None | _ => Some st end.

(** endpoint_reset; [st] is what clear_endpoint_stall returned. *)
Definition endpoint_reset (st : ntstatus) : option ntstatus := complete_unless_pending st.

(** device_reset; [st] is what reset_port returned. *)
Definition device_reset (AllDevicesReset : bool) (st : ntstatus) : option ntstatus :=
  if AllDevicesReset then Some STATUS_NOT_SUPPORTED else complete_unless_pending st.

(** ** What UdeCx and the framework do

    Contexts are freed some time after their cleanup callback; [cleaned] are those in between. *)

Inductive op : Type :=
| AddDefault (created queued : ntstatus * positive)
| Add (epd : list byte) (created queued : ntstatus * positive)
| Cleanup (p : positive)
| Free (p : positive)
| Select (pipes : list pipe_information)
| Find (crit : endpoint_search)
| Unplug.

Record state : Type := { dev : device; cleaned : gset positive }.

Definition no_device : device := {| unplugged := false; ep0 := None; ep0_added := false; endps := ∅; queues := ∅; io_queue := ∅ |}.
Definition initial : state := {| dev := no_device; cleaned := ∅ |}.

Definition free_endpoint (d : device) (p : positive) : device :=
  {| unplugged := unplugged d; ep0 := ep0 d; ep0_added := ep0_added d; endps := delete p (endps d);
     queues := filter (fun '(_, (e, _)) => e <> p) (queues d); io_queue := delete p (io_queue d) |}.

Definition unplug (d : device) : device :=
  {| unplugged := true; ep0 := ep0 d; ep0_added := ep0_added d; endps := endps d; queues := queues d; io_queue := io_queue d |}.

Definition step (s : state) (o : op) : option state :=
  let d := dev s in
  let next d := {| dev := d; cleaned := cleaned s |} in
  match o with
  | AddDefault created queued => '(_, d) ← default_endpoint_add d created queued; Some (next d)
  | Add epd created queued => '(_, d) ← endpoint_add d (Some epd) (length epd) created queued; Some (next d)
  | Cleanup p => d ← endpoint_cleanup d p; Some {| dev := d; cleaned := {[p]} ∪ cleaned s |}
  | Free p => Some {| dev := free_endpoint d p; cleaned := cleaned s ∖ {[p]} |}
  | Select pipes => d ← update_pipe_properties d pipes; Some (next d)
  | Find crit => _ ← find_endpoint d crit; Some s
  | Unplug => Some (next (unplug d))
  end.

Fixpoint run (s : state) (ops : list op) : option state :=
  match ops with [] => Some s | o :: ops => s ← step s o; run s ops end.

(** The default control pipe is there and not cleaned up. *)
Definition has_ep0 (s : state) : Prop :=
  match ep0 (dev s) with Some h => h ∈ dom (endps (dev s)) /\ h ∉ cleaned s | None => False end.

Definition new_answers (d : device) (created queued : ntstatus * positive) : Prop :=
  (created.2 ∉ dom (endps d)) /\ (queued.2 ∉ dom (queues d)).

(** The order UdeCx and the framework keep: the default control pipe is created first and once, endpoints are added and looked for
    while it exists, and each context is cleaned up once and then freed.  The descriptor of an endpoint has 7 to 9 bytes. *)
Definition allowed (s : state) (o : op) : Prop :=
  match o with
  | AddDefault created queued => ep0 (dev s) = None /\ new_answers (dev s) created queued
  | Add epd created queued => has_ep0 s /\ new_answers (dev s) created queued /\ (7 <= length epd <= DESCRIPTOR_SIZE)%nat
  | Cleanup p => p ∈ dom (endps (dev s)) /\ p ∉ cleaned s
  | Free p => p ∈ cleaned s
  | Select _ | Find _ => has_ep0 s
  | Unplug => True
  end.

Fixpoint all_allowed (s : state) (ops : list op) : Prop :=
  match ops with
  | [] => True
  | o :: ops => allowed s o /\ match step s o with Some s' => all_allowed s' ops | None => True end
  end.

#[global] Instance has_ep0_dec s : Decision (has_ep0 s).
Proof. unfold has_ep0. destruct (ep0 (dev s)); apply _. Defined.

#[global] Instance allowed_dec s o : Decision (allowed s o).
Proof. destruct o; cbn; unfold new_answers; apply _. Defined.

#[global] Instance all_allowed_dec s ops : Decision (all_allowed s ops).
Proof.
  revert s. induction ops as [|o ops IH]; intros s; cbn; [apply _|]. apply and_dec; [apply _|]. destruct (step s o); [apply IH|apply _].
Defined.

(** The list the rest of the driver reasons about. *)
Definition blank (p : positive) (epd : list byte) : endpoint := {| queue := None; descriptor := epd; pipe := 0; Flink := p; Blink := p |}.

Definition model_step (s : bool * list endpoint_ctx) (o : op) : bool * list endpoint_ctx :=
  let '(u, l) := s in
  match o with
  | Add epd (STATUS_SUCCESS, p) _ => (u, if u then l else FilterReq.insert_endpoint_list l (endpoint_of p (blank p epd)))
  | Cleanup p => (u, FilterReq.remove_endpoint_list l p)
  | Select pipes => (u, update_pipes l pipes)
  | Unplug => (true, l)
  | _ => (u, l)
  end.

Definition model (ops : list op) : list endpoint_ctx := (foldl model_step (false, []) ops).2.

(** ** Lemmas: links *)

Abbreviation links := (gmap positive endpoint).

Definition next (m : links) (p : positive) : option positive := Flink <$> m !! p.
Definition prev (m : links) (p : positive) : option positive := Blink <$> m !! p.
Definition data (e : endpoint) : option positive * list byte * Z := (queue e, descriptor e, pipe e).
Definition same_data (m m' : links) : Prop := forall p, data <$> m' !! p = data <$> m !! p.

Lemma same_data_refl m : same_data m m.
Proof. done. Qed.

Lemma same_data_trans m1 m2 m3 : same_data m1 m2 -> same_data m2 m3 -> same_data m1 m3.
Proof. intros H1 H2 p. by rewrite H2, H1. Qed.

Lemma same_data_dom m m' : same_data m m' -> dom m' = dom m.
Proof.
  intros H. apply set_eq. intros p. rewrite !elem_of_dom. specialize (H p). destruct (m !! p), (m' !! p); cbn in H; try done; split; intros []; done.
Qed.

Lemma same_data_is_Some m m' p : same_data m m' -> is_Some (m !! p) -> is_Some (m' !! p).
Proof. intros H. rewrite <- !elem_of_dom. by rewrite (same_data_dom m m'). Qed.

Lemma endpoint_of_data p e e' : data e = data e' -> endpoint_of p e = endpoint_of p e'.
Proof. destruct e, e'. cbn. by intros [= -> -> ->]. Qed.

Lemma next_Some m p v : next m p = Some v -> exists e, m !! p = Some e /\ Flink e = v.
Proof. unfold next. destruct (m !! p) as [e|]; [|done]. intros [= <-]. by exists e. Qed.

Lemma prev_Some m p v : prev m p = Some v -> exists e, m !! p = Some e /\ Blink e = v.
Proof. unfold prev. destruct (m !! p) as [e|]; [|done]. intros [= <-]. by exists e. Qed.

(** What a write of a link changes. *)
Lemma set_flink_spec m p v : is_Some (m !! p) -> exists m', set_flink m p v = Some m' /\ same_data m m' /\
  (forall a, next m' a = if Pos.eqb a p then Some v else next m a) /\ (forall a, prev m' a = prev m a).
Proof.
  intros [e He]. unfold set_flink. rewrite He. cbn. eexists. split; [done|]. unfold same_data, next, prev.
  split; [|split]; intros a; destruct (Pos.eqb_spec a p) as [->|Hne]; rewrite ?lookup_insert_eq, ?lookup_insert_ne, ?He by congruence; done.
Qed.

Lemma set_blink_spec m p v : is_Some (m !! p) -> exists m', set_blink m p v = Some m' /\ same_data m m' /\
  (forall a, prev m' a = if Pos.eqb a p then Some v else prev m a) /\ (forall a, next m' a = next m a).
Proof.
  intros [e He]. unfold set_blink. rewrite He. cbn. eexists. split; [done|]. unfold same_data, next, prev.
  split; [|split]; intros a; destruct (Pos.eqb_spec a p) as [->|Hne]; rewrite ?lookup_insert_eq, ?lookup_insert_ne, ?He by congruence; done.
Qed.

(** ** Lemmas: rings *)

Definition linked (m : links) (a b : positive) : Prop := next m a = Some b /\ prev m b = Some a.

(** From [a] through [l] to [b]. *)
Fixpoint seg (m : links) (a : positive) (l : list positive) (b : positive) : Prop :=
  match l with [] => linked m a b | x :: l => linked m a x /\ seg m x l b end.

Definition ring (m : links) (l : list positive) : Prop := match l with [] => True | x :: l => seg m x l x end.

(** An entry that InitializeListHead leaves. *)
Definition single (m : links) (p : positive) : Prop := linked m p p.

Lemma seg_app m a l1 b l2 c : seg m a (l1 ++ b :: l2) c <-> seg m a l1 b /\ seg m b l2 c.
Proof. revert a. induction l1 as [|x l1 IH]; intros a; cbn; [tauto|]. rewrite IH. tauto. Qed.

Lemma seg_ext m m' a l b : (forall x, x ∈ a :: l -> next m' x = next m x) -> (forall x, x ∈ b :: l -> prev m' x = prev m x) ->
  seg m a l b -> seg m' a l b.
Proof.
  revert a. induction l as [|x l IH]; intros a Hn Hp; cbn.
  - intros [H1 H2]. split; [rewrite Hn|rewrite Hp]; [done|left|done|left].
  - intros [[H1 H2] Hs]. split; [split; [rewrite Hn|rewrite Hp]; [done|left|done|right; left]|].
    apply IH; [intros y Hy; apply Hn; by right|intros y Hy; apply Hp; set_solver|done].
Qed.

Lemma ring_ext m m' l : (forall x, x ∈ l -> next m' x = next m x /\ prev m' x = prev m x) -> ring m l -> ring m' l.
Proof. destruct l as [|x l]; [done|]. intros H. apply seg_ext; intros y Hy; by apply H. Qed.

Lemma ring_rotate m l1 l2 : ring m (l1 ++ l2) -> ring m (l2 ++ l1).
Proof.
  destruct l1 as [|x l1], l2 as [|y l2]; cbn; rewrite ?app_nil_r; try done. rewrite !seg_app. tauto.
Qed.

Lemma seg_alive m a l b : seg m a l b -> is_Some (m !! b) /\ forall x, x ∈ a :: l -> is_Some (m !! x).
Proof.
  assert (forall p q, linked m p q -> is_Some (m !! p) /\ is_Some (m !! q)) as Hl.
  { intros p q [(e & He & _)%next_Some (e' & He' & _)%prev_Some]. by split; eexists. }
  revert a. induction l as [|x l IH]; intros a; cbn.
  - intros H. apply Hl in H as [? ?]. split; [done|]. intros y Hy. by apply list_elem_of_singleton in Hy as ->.
  - intros [H Hs]. apply Hl in H as [? ?]. apply (IH x) in Hs as [? Hs]. split; [done|]. intros y Hy. apply elem_of_cons in Hy as [->|Hy]; [done|by apply Hs].
Qed.

Lemma ring_alive m l x : ring m l -> x ∈ l -> is_Some (m !! x).
Proof. destruct l as [|y l]; [intros _ H; by apply elem_of_nil in H|]. intros H. by apply seg_alive in H as [_ H]; apply H. Qed.

Lemma last_cons_default {A} (l : list A) y a b : last (y :: l) a = last (y :: l) b.
Proof. revert y. induction l as [|z l IH]; intros y; [done|]. exact (IH z). Qed.

Lemma last_elem {A} (l : list A) a : last l a ∈ a :: l.
Proof.
  revert a. induction l as [|y l IH]; intros a; [left|]. destruct l as [|z l]; [right; left|].
  rewrite (last_cons_default l z a y : last (y :: z :: l) a = last (z :: l) y). by right.
Qed.

(** The last element of a segment points to its end. *)
Lemma seg_last m a l b : seg m a l b -> prev m b = Some (last l a) /\ next m (last l a) = Some b.
Proof.
  revert a. induction l as [|x l IH]; intros a; cbn; [by intros [? ?]|]. intros [_ H]. apply IH in H. destruct l as [|y l]; [done|]. by rewrite (last_cons_default l y a x).
Qed.

Lemma seg_first m a l b : seg m a l b -> next m a = Some (default b (list.head l)) /\ prev m (default b (list.head l)) = Some a.
Proof. destruct l; cbn; [done|]. by intros [? _]. Qed.

(** InsertHeadList puts a new entry right after the head. *)
Lemma InsertHeadList_spec m h l p : seg m h l h -> NoDup (h :: l) -> p ∉ h :: l -> is_Some (m !! p) ->
  exists m', InsertHeadList m h p = Some m' /\ seg m' h (p :: l) h /\ same_data m m' /\
    (forall x, x ∉ h :: p :: l -> next m' x = next m x /\ prev m' x = prev m x).
Proof.
  intros Hs Hnd Hp Hex. pose proof (seg_first _ _ _ _ Hs) as [Hf1 Hf2]. set (f := default h (list.head l)) in *.
  assert (f ∈ h :: l) as Hf by (unfold f; destruct l; set_solver).
  assert (f <> p) as Hfp by (intros ->; done). assert (h <> p) as Hhp by (intros ->; apply Hp; left).
  unfold InsertHeadList. apply next_Some in Hf1 as (eh & Heh & Hfl). rewrite Heh. cbn. rewrite Hfl.
  destruct (set_flink_spec m p f Hex) as (m1 & -> & S1 & N1 & P1). cbn.
  destruct (set_blink_spec m1 p h (same_data_is_Some _ _ _ S1 Hex)) as (m2 & -> & S2 & P2 & N2). cbn.
  pose proof (same_data_trans _ _ _ S1 S2) as S12.
  destruct (set_blink_spec m2 f p) as (m3 & -> & S3 & P3 & N3); [apply (same_data_is_Some m); [done|by apply seg_alive in Hs as [_ Hs]; apply Hs]|]. cbn.
  pose proof (same_data_trans _ _ _ S12 S3) as S13.
  destruct (set_flink_spec m3 h p) as (m4 & -> & S4 & N4 & P4); [apply (same_data_is_Some m); [done|by exists eh]|].
  exists m4. split; [done|].
  assert (forall x, next m4 x = if Pos.eqb x h then Some p else if Pos.eqb x p then Some f else next m x) as N by (intros x; by rewrite N4, N3, N2, N1).
  assert (forall x, prev m4 x = if Pos.eqb x f then Some p else if Pos.eqb x p then Some h else prev m x) as P by (intros x; by rewrite P4, P3, P2, P1).
  apply list.NoDup_cons in Hnd as [Hh Hnd].
  split; [|split; [by apply (same_data_trans _ _ _ S13)|]].
  - cbn. split; [split; [rewrite N, Pos.eqb_refl|rewrite P, (proj2 (Pos.eqb_neq p f)), Pos.eqb_refl by done]; done|].
    destruct l as [|y l]; cbn in f.
    + split; [by rewrite N, (proj2 (Pos.eqb_neq p h)), Pos.eqb_refl by done|by rewrite P, Pos.eqb_refl].
    + subst f. apply list.NoDup_cons in Hnd as [Hy Hnd]. cbn in Hs. destruct Hs as [_ Hs].
      split; [split; [by rewrite N, (proj2 (Pos.eqb_neq p h)), Pos.eqb_refl by done|by rewrite P, Pos.eqb_refl]|].
      revert Hs. apply seg_ext; intros x Hx.
      * rewrite N, (proj2 (Pos.eqb_neq x h)), (proj2 (Pos.eqb_neq x p)); [done|set_solver..].
      * rewrite P, (proj2 (Pos.eqb_neq x y)), (proj2 (Pos.eqb_neq x p)); [done|set_solver..].
  - intros x Hx. rewrite N, P, (proj2 (Pos.eqb_neq x h)), (proj2 (Pos.eqb_neq x p)), (proj2 (Pos.eqb_neq x f)); [done|set_solver..].
Qed.

(** RemoveEntryList takes an entry out of its ring, whichever it is. *)
Lemma RemoveEntryList_spec m p l : ring m (p :: l) -> NoDup (p :: l) ->
  exists m', RemoveEntryList m p = Some m' /\ ring m' l /\ same_data m m' /\
    (forall x, x ∉ p :: l -> next m' x = next m x /\ prev m' x = prev m x).
Proof.
  cbn [ring]. intros Hs Hnd. pose proof (seg_first _ _ _ _ Hs) as [Hf1 Hf2]. pose proof (seg_last _ _ _ _ Hs) as [Hl1 Hl2].
  pose proof (seg_alive _ _ _ _ Hs) as [_ Ha]. set (f := default p (list.head l)) in *. set (z := last l p) in *.
  assert (f ∈ p :: l) as Hf by (unfold f; destruct l; set_solver).
  assert (z ∈ p :: l) as Hz. { unfold z. apply last_elem. }
  unfold RemoveEntryList. apply next_Some in Hf1 as (e & He & Hef). rewrite He. cbn. rewrite Hef.
  assert (prev m p = Some z) as Hl3 by done. unfold prev in Hl3. rewrite He in Hl3. cbn in Hl3. injection Hl3 as Hez. rewrite Hez.
  apply prev_Some in Hf2 as (ef & -> & Hef2). cbn. apply next_Some in Hl2 as (ez & -> & Hez2). cbn. rewrite Hef2, Hez2, bool_decide_eq_true_2 by done. cbn.
  destruct (set_flink_spec m z f (Ha z Hz)) as (m1 & -> & S1 & N1 & P1). cbn.
  destruct (set_blink_spec m1 f z (same_data_is_Some _ _ _ S1 (Ha f Hf))) as (m2 & -> & S2 & P2 & N2).
  exists m2. split; [done|].
  assert (forall x, next m2 x = if Pos.eqb x z then Some f else next m x) as N by (intros x; by rewrite N2, N1).
  assert (forall x, prev m2 x = if Pos.eqb x f then Some z else prev m x) as P by (intros x; by rewrite P2, P1).
  split; [|split; [by apply (same_data_trans _ _ _ S1)|]].
  - destruct l as [|y l]; [done|]. cbn in f. subst f. cbn [ring]. apply list.NoDup_cons in Hnd as [Hp Hnd]. cbn in Hs. destruct Hs as [_ Hs].
    destruct l as [|q l' _] using rev_ind.
    + cbn in z. subst z. split; [by rewrite N, Pos.eqb_refl|by rewrite P, Pos.eqb_refl].
    + assert (z = q) as ->. { unfold z. by rewrite app_comm_cons, List.last_last. }
      apply seg_app in Hs as [Hs _]. apply seg_app. split; [|split; [by rewrite N, Pos.eqb_refl|by rewrite P, Pos.eqb_refl]].
      apply list.NoDup_cons in Hnd as [Hy Hnd]. apply list.NoDup_app in Hnd as (_ & Hq & _).
      revert Hs. apply seg_ext; intros x Hx.
      * rewrite N, (proj2 (Pos.eqb_neq x q)); [done|]. intros ->. apply elem_of_cons in Hx as [->|Hx]; [set_solver|]. specialize (Hq q Hx). set_solver.
      * rewrite P, (proj2 (Pos.eqb_neq x y)); [done|]. set_solver.
  - intros x Hx. rewrite N, P, (proj2 (Pos.eqb_neq x z)), (proj2 (Pos.eqb_neq x f)); [done|set_solver..].
Qed.

Lemma InitializeListHead_spec m p : is_Some (m !! p) ->
  exists m', InitializeListHead m p = Some m' /\ single m' p /\ same_data m m' /\ (forall x, x <> p -> next m' x = next m x /\ prev m' x = prev m x).
Proof.
  intros Hex. unfold InitializeListHead. destruct (set_flink_spec m p p Hex) as (m1 & -> & S1 & N1 & P1). cbn.
  destruct (set_blink_spec m1 p p (same_data_is_Some _ _ _ S1 Hex)) as (m2 & -> & S2 & P2 & N2). exists m2. split; [done|].
  split; [split; [by rewrite N2, N1, Pos.eqb_refl|by rewrite P2, Pos.eqb_refl]|]. split; [by apply (same_data_trans _ _ _ S1)|].
  intros x Hx. by rewrite N2, N1, P2, P1, (proj2 (Pos.eqb_neq x p)) by done.
Qed.

(** ** Lemmas: the state *)

(** The head, while the default control pipe is not cleaned up. *)
Definition head_of (s : state) : list positive :=
  match ep0 (dev s) with
  | Some h => if decide (h ∈ dom (endps (dev s)) /\ h ∉ cleaned s) then [h] else []
  | None => []
  end.

(** [main] are the endpoints in the list, [l] what the rest of the driver knows of them. *)
Record inv (s : state) (main : list positive) (l : list endpoint_ctx) : Prop := {
  i_ring : ring (endps (dev s)) (head_of s ++ main);
  i_nodup : NoDup (head_of s ++ main);
  i_single : forall p, p ∈ dom (endps (dev s)) -> p ∉ head_of s ++ main -> single (endps (dev s)) p;
  i_head : forall h, ep0 (dev s) = Some h -> h ∉ main;
  i_none : ep0 (dev s) = None -> endps (dev s) = ∅;
  i_cleaned : forall p, p ∈ cleaned s -> p ∈ dom (endps (dev s)) /\ p ∉ main;
  i_queues : forall q p t, queues (dev s) !! q = Some (p, t) -> exists e, endps (dev s) !! p = Some e /\ queue e = Some q;
  i_size : forall p e, endps (dev s) !! p = Some e -> length (descriptor e) = DESCRIPTOR_SIZE;
  i_list : Forall2 (fun p c => exists e, endps (dev s) !! p = Some e /\ c = endpoint_of p e) main l }.

Lemma has_ep0_Some s : has_ep0 s -> exists h, ep0 (dev s) = Some h /\ h ∈ dom (endps (dev s)) /\ h ∉ cleaned s.
Proof. unfold has_ep0. destruct (ep0 (dev s)) as [h|]; [|done]. intros []. by exists h. Qed.

Lemma Some_has_ep0 s h : ep0 (dev s) = Some h -> h ∈ dom (endps (dev s)) -> h ∉ cleaned s -> has_ep0 s.
Proof. unfold has_ep0. by intros ->. Qed.

Lemma has_ep0_head s : has_ep0 s -> exists h, ep0 (dev s) = Some h /\ head_of s = [h] /\ get_endpoint_list_head (dev s) = Some h.
Proof.
  intros (h & Hh & Hd & Hc)%has_ep0_Some. exists h. unfold head_of, get_endpoint_list_head. rewrite Hh. split; [done|]. split; [by rewrite decide_True|].
  apply elem_of_dom in Hd as [e He]. cbn. by rewrite He.
Qed.

Lemma ring_dom s main l p : inv s main l -> p ∈ head_of s ++ main -> p ∈ dom (endps (dev s)).
Proof. intros Hi Hp. apply elem_of_dom. by apply (ring_alive _ _ _ (i_ring _ _ _ Hi)). Qed.

(** The list only depends on the data of its endpoints. *)
Lemma list_same_data m m' main l : same_data m m' ->
  Forall2 (fun p c => exists e, m !! p = Some e /\ c = endpoint_of p e) main l -> Forall2 (fun p c => exists e, m' !! p = Some e /\ c = endpoint_of p e) main l.
Proof.
  intros Hs. apply Forall2_impl. intros p c (e & He & ->). specialize (Hs p). rewrite He in Hs.
  destruct (m' !! p) as [e'|] eqn:He'; [|done]. exists e'. split; [done|]. apply endpoint_of_data. cbn in Hs. congruence.
Qed.

Lemma queues_same_data m m' (qs : gmap positive (positive * dispatch_type)) : same_data m m' ->
  (forall q p t, qs !! q = Some (p, t) -> exists e, m !! p = Some e /\ queue e = Some q) ->
  forall q p t, qs !! q = Some (p, t) -> exists e, m' !! p = Some e /\ queue e = Some q.
Proof.
  intros Hs Hq q p t Hqp. destruct (Hq q p t Hqp) as (e & He & Hqe). specialize (Hs p). rewrite He in Hs.
  destruct (m' !! p) as [e'|]; [|done]. exists e'. split; [done|]. cbn in Hs. injection Hs as Hqu _ _. congruence.
Qed.

Lemma size_same_data m m' : same_data m m' -> (forall p e, m !! p = Some e -> length (descriptor e) = DESCRIPTOR_SIZE) ->
  forall p e, m' !! p = Some e -> length (descriptor e) = DESCRIPTOR_SIZE.
Proof.
  intros Hs Hl p e' He'. specialize (Hs p). rewrite He' in Hs. destruct (m !! p) as [e|] eqn:He; [|done]. cbn in Hs. injection Hs as _ Hd _.
  rewrite Hd. by apply (Hl p).
Qed.

(** The walk finds what a search of the list finds. *)
Lemma find_from_spec m h crit main l p : Forall2 (fun p c => exists e, m !! p = Some e /\ c = endpoint_of p e) main l ->
  seg m p main h -> h ∉ main -> forall fuel, (length main < fuel)%nat -> forall e, m !! p = Some e ->
  find_from fuel m h (Flink e) crit = Some (ep_handle <$> FilterReq.find_endpoint l crit).
Proof.
  intros Hl. revert p. induction Hl as [|x c main l (e & He & ->) Hl IH]; intros p Hs Hh fuel Hf ep Hep; cbn in Hs.
  - destruct Hs as [Hn _]. unfold next in Hn. rewrite Hep in Hn. injection Hn as Hn. destruct fuel; [lia|]. cbn. by rewrite Hn, Pos.eqb_refl.
  - destruct Hs as [[Hn _] Hs]. unfold next in Hn. rewrite Hep in Hn. injection Hn as Hn. destruct fuel as [|fuel]; [lia|]. cbn.
    rewrite Hn, (proj2 (Pos.eqb_neq x h)) by set_solver. rewrite He. cbn. destruct (matches _ _); [done|].
    apply (IH x); [done|set_solver|cbn in Hf; lia|done].
Qed.

Lemma find_endpoint_spec s main l crit : inv s main l -> has_ep0 s ->
  find_endpoint (dev s) crit = Some (ep_handle <$> FilterReq.find_endpoint l crit).
Proof.
  intros Hi H0. destruct (has_ep0_head s H0) as (h & Hh & Hhd & Hget). unfold find_endpoint. rewrite Hget. cbn.
  pose proof (i_ring _ _ _ Hi) as Hr. pose proof (i_nodup _ _ _ Hi) as Hn. rewrite Hhd in Hr, Hn. cbn in Hr, Hn.
  destruct (has_ep0_Some _ H0) as (h' & Hh' & Hd & _). replace h' with h in * by congruence. apply elem_of_dom in Hd as [e He]. rewrite He. cbn.
  apply (find_from_spec _ _ _ main l h); [by apply (i_list _ _ _ Hi)|done|by apply list.NoDup_cons in Hn as [? _]| |done].
  rewrite <- size_dom. assert (list_to_set (h :: main) ⊆ dom (endps (dev s))) as Hsub.
  { intros x Hx. apply elem_of_list_to_set in Hx. apply (ring_dom s main l); [done|by rewrite Hhd]. }
  apply subseteq_size in Hsub. rewrite size_list_to_set in Hsub by done. cbn in Hsub. lia.
Qed.

(** ** Lemmas: the steps *)

(** Changes of an endpoint that leave the links alone. *)
Lemma inv_links s s' main l l' : inv s main l -> ep0 (dev s') = ep0 (dev s) -> cleaned s' = cleaned s ->
  dom (endps (dev s')) = dom (endps (dev s)) ->
  (forall p, next (endps (dev s')) p = next (endps (dev s)) p /\ prev (endps (dev s')) p = prev (endps (dev s)) p) ->
  (forall q p t, queues (dev s') !! q = Some (p, t) -> exists e, endps (dev s') !! p = Some e /\ queue e = Some q) ->
  (forall p e, endps (dev s') !! p = Some e -> length (descriptor e) = DESCRIPTOR_SIZE) ->
  Forall2 (fun p c => exists e, endps (dev s') !! p = Some e /\ c = endpoint_of p e) main l' -> inv s' main l'.
Proof.
  intros Hi H0 Hc Hd Hl Hq Hz Hf. assert (head_of s' = head_of s) as Hh by (unfold head_of; by rewrite H0, Hc, Hd).
  destruct Hi. split; try done; rewrite ?Hh, ?H0, ?Hc, ?Hd; try done.
  - by apply (ring_ext (endps (dev s))).
  - intros p Hp Hn. specialize (i_single0 p Hp Hn). destruct (Hl p) as [E1 E2]. unfold single, linked. by rewrite E1, E2.
  - intros Hn. apply dom_empty_inv_L. by rewrite Hd, i_none0, dom_empty_L.
Qed.

Lemma links_insert (m : links) p e e' : m !! p = Some e -> Flink e' = Flink e -> Blink e' = Blink e ->
  dom (<[p := e']> m) = dom m /\ forall x, next (<[p := e']> m) x = next m x /\ prev (<[p := e']> m) x = prev m x.
Proof.
  intros He Hf Hb. split; [rewrite dom_insert_L; assert (p ∈ dom m) by (apply elem_of_dom; by eexists); set_solver|].
  intros x. unfold next, prev. destruct (decide (x = p)) as [->|Hne]; [rewrite lookup_insert_eq, He; cbn; by rewrite Hf, Hb|by rewrite lookup_insert_ne].
Qed.

Lemma inv_create_queue s main l p e dispatch st q : inv s main l -> endps (dev s) !! p = Some e -> queue e = None -> q ∉ dom (queues (dev s)) ->
  exists st' d, create_endpoint_queue (dev s) p dispatch (st, q) = Some (st', d) /\ unplugged d = unplugged (dev s) /\
    inv {| dev := d; cleaned := cleaned s |} main l.
Proof.
  intros Hi He Hqe Hq. unfold create_endpoint_queue. destruct st; try (eexists _, _; split; [done|]; split; [done|]; by destruct s).
  rewrite He. cbn. eexists _, _. split; [done|]. split; [done|].
  destruct (links_insert (endps (dev s)) p e {| queue := Some q; descriptor := descriptor e; pipe := pipe e; Flink := Flink e; Blink := Blink e |} He) as [Hd Hl]; [done..|].
  apply (inv_links s _ main l); try done; cbn.
  - intros q' p' t. destruct (decide (q' = q)) as [->|Hne]; [rewrite lookup_insert_eq; intros [= <- _]; eexists; by rewrite lookup_insert_eq|].
    rewrite lookup_insert_ne by done. intros Hq'. destruct (i_queues _ _ _ Hi q' p' t Hq') as (e' & He' & Hqe').
    rewrite lookup_insert_ne by congruence. by eexists.
  - intros x e' Hx. apply lookup_insert_Some in Hx as [[<- <-]|[_ Hx]]; [exact (i_size _ _ _ Hi p e He)|by apply (i_size _ _ _ Hi x)].
  - eapply Forall2_impl; [|exact (i_list _ _ _ Hi)]. cbn. intros x c (e' & He' & ->).
    destruct (decide (x = p)) as [->|Hne]; [|exists e'; by rewrite lookup_insert_ne].
    eexists. rewrite lookup_insert_eq. split; [done|]. replace e' with e by congruence. done.
Qed.

Lemma head_of_eq s s' : ep0 (dev s') = ep0 (dev s) ->
  (forall h, ep0 (dev s) = Some h -> (h ∈ dom (endps (dev s')) /\ h ∉ cleaned s') <-> (h ∈ dom (endps (dev s)) /\ h ∉ cleaned s)) -> head_of s' = head_of s.
Proof.
  intros H0 H. unfold head_of. rewrite H0. destruct (ep0 (dev s)) as [h|] eqn:Hh; [|done].
  destruct (decide (h ∈ dom (endps (dev s')) /\ _)) as [H1|H1]; [by rewrite decide_True by (by apply (H h))|rewrite decide_False; [done|]].
  intros H2. by apply H1, (H h).
Qed.

(** A new context: the entry is on its own. *)
Lemma inv_new s main l p e : inv s main l -> has_ep0 s -> p ∉ dom (endps (dev s)) -> Flink e = p -> Blink e = p ->
  queue e = None -> length (descriptor e) = DESCRIPTOR_SIZE ->
  inv {| dev := with_endps (dev s) (<[p := e]> (endps (dev s))); cleaned := cleaned s |} main l.
Proof.
  intros Hi H0 Hp Hf Hb Hq Hz.
  assert (head_of {| dev := with_endps (dev s) (<[p := e]> (endps (dev s))); cleaned := cleaned s |} = head_of s) as Hh.
  { apply head_of_eq; [done|]. cbn. intros h Hh. destruct (has_ep0_Some _ H0) as (h' & Hh' & Hd & _). rewrite dom_insert_L. set_solver. }
  assert (forall x, x ∈ head_of s ++ main -> x <> p) as Hne by (intros x Hx ->; by apply Hp, (ring_dom s main l)).
  destruct Hi. split; rewrite ?Hh; cbn; try done.
  - apply (ring_ext (endps (dev s))); [|done]. intros x Hx. unfold next, prev. by rewrite lookup_insert_ne by (symmetry; by apply Hne).
  - intros x Hx Hn. unfold single, linked, next, prev. destruct (decide (x = p)) as [->|Hxp]; [rewrite lookup_insert_eq; cbn; by rewrite Hf, Hb|].
    rewrite lookup_insert_ne by done. apply i_single0; [rewrite dom_insert_L in Hx; set_solver|done].
  - intros Hn. destruct (has_ep0_Some _ H0) as (h & Hh0 & _). congruence.
  - intros x Hx. rewrite dom_insert_L. specialize (i_cleaned0 x Hx). set_solver.
  - intros q x t Hqx. destruct (i_queues0 q x t Hqx) as (e' & He' & Hqe). exists e'. split; [|done]. rewrite lookup_insert_ne; [done|].
    intros ->. apply Hp, elem_of_dom. by eexists.
  - intros x e' Hx. apply lookup_insert_Some in Hx as [[<- <-]|[_ Hx]]; [done|by apply (i_size0 x)].
  - eapply Forall2_impl; [|exact i_list0]. cbn. intros x c (e' & He' & ->). exists e'. split; [|done]. rewrite lookup_insert_ne; [done|].
    intros ->. apply Hp, elem_of_dom. by eexists.
Qed.

Lemma inv_insert s main l p e : inv s main l -> has_ep0 s -> endps (dev s) !! p = Some e -> p ∉ head_of s ++ main -> p ∉ cleaned s ->
  exists m, insert_endpoint_list (dev s) p = Some (with_endps (dev s) m) /\ same_data (endps (dev s)) m /\
    inv {| dev := with_endps (dev s) m; cleaned := cleaned s |} (p :: main) (endpoint_of p e :: l).
Proof.
  intros Hi H0 He Hp Hpc. destruct (has_ep0_head s H0) as (h & Hh & Hhd & Hget). unfold insert_endpoint_list. rewrite Hget. cbn.
  pose proof (i_ring _ _ _ Hi) as Hr. pose proof (i_nodup _ _ _ Hi) as Hn. rewrite Hhd in Hr, Hn, Hp. cbn in Hr, Hn, Hp.
  destruct (InsertHeadList_spec (endps (dev s)) h main p Hr Hn Hp) as (m & -> & Hs & Hsd & Hother); [by eexists|]. cbn.
  exists m. split; [done|]. split; [done|].
  assert (head_of {| dev := with_endps (dev s) m; cleaned := cleaned s |} = [h]) as Hh'.
  { rewrite <- Hhd. apply head_of_eq; [done|]. cbn. intros h' _. by rewrite (same_data_dom (endps (dev s)) m). }
  destruct Hi. split; rewrite ?Hh'; cbn; try done.
  - apply list.NoDup_cons in Hn as [Hn1 Hn2]. apply list.NoDup_cons. split; [set_solver|]. apply list.NoDup_cons. set_solver.
  - intros x Hx Hxn. destruct (Hother x) as [E1 E2]; [set_solver|]. unfold single, linked. rewrite E1, E2. apply i_single0.
    + by rewrite <- (same_data_dom (endps (dev s)) m).
    + rewrite Hhd. set_solver.
  - intros h' Hh2. replace h' with h by congruence. apply list.NoDup_cons in Hn as [Hn _]. set_solver.
  - intros Hn0. congruence.
  - intros x Hx. destruct (i_cleaned0 x Hx) as [H1 H2]. rewrite (same_data_dom (endps (dev s)) m) by done. split; [done|]. set_solver.
  - by apply (queues_same_data (endps (dev s))).
  - by apply (size_same_data (endps (dev s))).
  - apply (list_same_data (endps (dev s))); [done|]. constructor; [by exists e|done].
Qed.

Lemma filter_absent (p : positive) (l : list positive) : p ∉ l -> filter (fun x => x <> p) l = l.
Proof. induction l as [|x l IH]; [done|]. intros Hx. rewrite filter_cons_True by set_solver. f_equal. apply IH. set_solver. Qed.

Lemma filter_split (p : positive) l1 l2 : NoDup (l1 ++ p :: l2) -> filter (fun x => x <> p) (l1 ++ p :: l2) = l1 ++ l2.
Proof.
  intros Hn. apply list.NoDup_app in Hn as (_ & H1 & H2). apply list.NoDup_cons in H2 as [H2 _].
  rewrite list.filter_app, filter_cons_False by (intros H; by apply H). rewrite !filter_absent; [done|done|]. intros Hp. apply (H1 p Hp). left.
Qed.

(** remove_endpoint_list of an entry of a ring, or of one on its own. *)
Lemma remove_spec m L p : ring m L -> NoDup L -> is_Some (m !! p) -> (p ∉ L -> single m p) ->
  exists m1 m2, RemoveEntryList m p = Some m1 /\ InitializeListHead m1 p = Some m2 /\ ring m2 (filter (fun x => x <> p) L) /\ single m2 p /\
    same_data m m2 /\ (forall x, x ∉ L -> x <> p -> next m2 x = next m x /\ prev m2 x = prev m x).
Proof.
  intros Hr Hn Hp Hs. destruct (decide (p ∈ L)) as [Hin|Hin].
  - apply list_elem_of_split in Hin as (l1 & l2 & ->). rewrite filter_split by done. apply ring_rotate in Hr. cbn [app] in Hr.
    assert (NoDup (p :: l2 ++ l1)) as Hn2 by (change (p :: l2 ++ l1) with ((p :: l2) ++ l1); by rewrite (Permutation_app_comm (p :: l2) l1)).
    destruct (RemoveEntryList_spec m p (l2 ++ l1) Hr Hn2) as (m1 & -> & Hr1 & Hd1 & Ho1).
    destruct (InitializeListHead_spec m1 p (same_data_is_Some _ _ _ Hd1 Hp)) as (m2 & Hm2 & Hs2 & Hd2 & Ho2).
    exists m1, m2. split; [done|]. split; [done|]. split; [|split; [done|split; [by apply (same_data_trans _ _ _ Hd1)|]]].
    + apply ring_rotate. apply (ring_ext m1); [|done]. intros x Hx. apply Ho2. intros ->. by apply list.NoDup_cons in Hn2 as [? _].
    + intros x Hx Hxp. destruct (Ho2 x Hxp) as [-> ->]. apply Ho1. set_solver.
  - specialize (Hs Hin). rewrite filter_absent by done.
    destruct (RemoveEntryList_spec m p [] Hs (list.NoDup_singleton p)) as (m1 & -> & _ & Hd1 & Ho1).
    destruct (InitializeListHead_spec m1 p (same_data_is_Some _ _ _ Hd1 Hp)) as (m2 & Hm2 & Hs2 & Hd2 & Ho2).
    assert (forall x, x ∉ L -> x <> p -> next m2 x = next m x /\ prev m2 x = prev m x) as Ho.
    { intros x _ Hxp. destruct (Ho2 x Hxp) as [-> ->]. apply Ho1. set_solver. }
    exists m1, m2. split; [done|]. split; [done|]. split; [|split; [done|split; [by apply (same_data_trans _ _ _ Hd1)|done]]].
    apply (ring_ext m); [|done]. intros x Hx. assert (x <> p) as Hxp by (intros ->; done). destruct (Ho2 x Hxp) as [-> ->]. apply Ho1. set_solver.
Qed.

Lemma list_remove (m : links) p main l : Forall2 (fun q c => exists e, m !! q = Some e /\ c = endpoint_of q e) main l ->
  Forall2 (fun q c => exists e, m !! q = Some e /\ c = endpoint_of q e) (filter (fun x => x <> p) main) (FilterReq.remove_endpoint_list l p).
Proof.
  unfold FilterReq.remove_endpoint_list. induction 1 as [|q c main l (e & He & ->) Hl IH]; [constructor|].
  destruct (decide (q = p)) as [->|Hne].
  - rewrite filter_cons_False by (intros H; by apply H). rewrite filter_cons_False by (intros H; by apply H). done.
  - rewrite filter_cons_True by done. rewrite filter_cons_True by done. constructor; [by exists e|done].
Qed.

Lemma list_frame (m m' : links) main l : (forall x, x ∈ main -> m' !! x = m !! x) ->
  Forall2 (fun q c => exists e, m !! q = Some e /\ c = endpoint_of q e) main l ->
  Forall2 (fun q c => exists e, m' !! q = Some e /\ c = endpoint_of q e) main l.
Proof.
  intros Hm Hl. induction Hl as [|q c main l (e & He & ->) Hl IH]; [constructor|]. constructor.
  - exists e. rewrite Hm by left. done.
  - apply IH. intros x Hx. apply Hm. by right.
Qed.

Lemma endpoint_cleanup_ok s main l p : inv s main l -> p ∈ dom (endps (dev s)) -> p ∉ cleaned s ->
  exists s', step s (Cleanup p) = Some s' /\ unplugged (dev s') = unplugged (dev s) /\
    inv s' (filter (fun x => x <> p) main) (FilterReq.remove_endpoint_list l p).
Proof.
  intros Hi Hp Hc. pose proof Hp as Hp2. apply elem_of_dom in Hp2.
  destruct (remove_spec (endps (dev s)) (head_of s ++ main) p (i_ring _ _ _ Hi) (i_nodup _ _ _ Hi) Hp2) as (m1 & m2 & H1 & H2 & Hr & Hs & Hd & Ho).
  { by apply (i_single _ _ _ Hi). }
  cbn. unfold endpoint_cleanup, remove_endpoint_list. rewrite H1. cbn. rewrite H2. cbn. eexists. split; [done|]. split; [done|].
  assert (head_of {| dev := with_endps (dev s) m2; cleaned := {[p]} ∪ cleaned s |} = filter (fun x => x <> p) (head_of s)) as Hh.
  { unfold head_of. cbn. rewrite (same_data_dom (endps (dev s)) m2) by done. destruct (ep0 (dev s)) as [h|]; [|done].
    destruct (decide (h = p)) as [->|Hne].
    - rewrite decide_False by set_solver. rewrite decide_True by done. by rewrite filter_cons_False by (intros H; by apply H).
    - destruct (decide (h ∈ dom (endps (dev s)) /\ h ∉ cleaned s)) as [[]|Hn]; [rewrite decide_True by set_solver; by rewrite filter_cons_True|].
      rewrite decide_False; [done|]. set_solver. }
  destruct Hi. split; rewrite ?Hh, <- ?list.filter_app; cbn; try done.
  - by apply list.NoDup_filter.
  - intros x Hx Hxn. rewrite (same_data_dom (endps (dev s)) m2) in Hx by done. destruct (decide (x = p)) as [->|Hne]; [done|].
    rewrite list_elem_of_filter in Hxn. destruct (Ho x) as [E1 E2]; [set_solver|done|]. unfold single, linked. rewrite E1, E2.
    apply i_single0; [done|]. set_solver.
  - intros h Hh0. rewrite list_elem_of_filter. specialize (i_head0 h Hh0). set_solver.
  - intros Hn. apply dom_empty_inv_L. rewrite (same_data_dom (endps (dev s)) m2) by done. by rewrite i_none0, dom_empty_L.
  - intros x Hx. rewrite (same_data_dom (endps (dev s)) m2) by done. rewrite list_elem_of_filter. apply elem_of_union in Hx as [Hx|Hx]; [set_solver|].
    specialize (i_cleaned0 x Hx). set_solver.
  - by apply (queues_same_data (endps (dev s))).
  - by apply (size_same_data (endps (dev s))).
  - apply (list_same_data (endps (dev s))); [done|]. by apply list_remove.
Qed.

Lemma free_ok s main l p : inv s main l -> p ∈ cleaned s -> inv {| dev := free_endpoint (dev s) p; cleaned := cleaned s ∖ {[p]} |} main l.
Proof.
  intros Hi Hp. destruct (i_cleaned _ _ _ Hi p Hp) as [Hd Hm].
  assert (head_of {| dev := free_endpoint (dev s) p; cleaned := cleaned s ∖ {[p]} |} = head_of s) as Hh.
  { apply head_of_eq; [done|]. cbn. intros h _. rewrite dom_delete_L. set_solver. }
  assert (p ∉ head_of s) as Hph. { unfold head_of. destruct (ep0 (dev s)) as [h|]; [|set_solver]. case_decide as H; [|set_solver]. intros ->%list_elem_of_singleton. by apply H. }
  destruct Hi. split; rewrite ?Hh; cbn; try done.
  - apply (ring_ext (endps (dev s))); [|done]. intros x Hx. unfold next, prev. rewrite lookup_delete_ne; [done|]. set_solver.
  - intros x Hx Hxn. rewrite dom_delete_L in Hx. unfold single, linked, next, prev. rewrite lookup_delete_ne by set_solver. apply i_single0; [set_solver|done].
  - intros Hn. by rewrite i_none0, delete_empty.
  - intros x Hx. rewrite dom_delete_L. specialize (i_cleaned0 x). set_solver.
  - intros q x t Hq. apply map_lookup_filter_Some in Hq as [Hq Hx]. destruct (i_queues0 q x t Hq) as (e & He & Hqe). exists e. by rewrite lookup_delete_ne.
  - intros x e Hx. apply lookup_delete_Some in Hx as [_ Hx]. by apply (i_size0 x).
  - apply (list_frame (endps (dev s))); [|done]. intros x Hx. apply lookup_delete_ne. set_solver.
Qed.

Lemma find_in_main (m : links) main l crit c : Forall2 (fun q c => exists e, m !! q = Some e /\ c = endpoint_of q e) main l ->
  FilterReq.find_endpoint l crit = Some c -> exists e, m !! ep_handle c = Some e /\ ep_handle c ∈ main.
Proof.
  intros Hl Hf. apply find_endpoint_Some in Hf as [Hc _]. apply list_elem_of_lookup in Hc as [i Hi].
  destruct (Forall2_lookup_r _ _ _ _ _ Hl Hi) as (q & Hq & e & He & ->). exists e. split; [done|]. apply list_elem_of_lookup. by exists i.
Qed.

(** [endp->PipeHandle = h] *)
Lemma assign_ok s main l c h e : inv s main l -> endps (dev s) !! ep_handle c = Some e ->
  let e' := {| queue := queue e; descriptor := descriptor e; pipe := h; Flink := Flink e; Blink := Blink e |} in
  inv {| dev := with_endps (dev s) (<[ep_handle c := e']> (endps (dev s))); cleaned := cleaned s |} main (assign_pipe_handle l c h).
Proof.
  intros Hi He e'. destruct (links_insert (endps (dev s)) (ep_handle c) e e' He) as [Hd Hl]; [done..|].
  apply (inv_links s _ main l); try done; cbn.
  - intros q p t Hq. destruct (i_queues _ _ _ Hi q p t Hq) as (x & Hx & Hqx). destruct (decide (p = ep_handle c)) as [->|Hne].
    + exists e'. rewrite lookup_insert_eq. split; [done|]. cbn. congruence.
    + exists x. by rewrite lookup_insert_ne.
  - intros p x Hx. apply lookup_insert_Some in Hx as [[<- <-]|[_ Hx]]; [exact (i_size _ _ _ Hi _ _ He)|by apply (i_size _ _ _ Hi p)].
  - unfold assign_pipe_handle. pose proof (i_list _ _ _ Hi) as Hf. clear Hi Hl Hd. induction Hf as [|q d main' l' (x & Hx & ->) Hf IH]; [constructor|].
    cbn [map]. constructor; [|exact IH]. cbn [ep_handle endpoint_of]. destruct (Pos.eqb_spec q (ep_handle c)) as [->|Hne].
    + exists e'. rewrite lookup_insert_eq. split; [done|]. replace x with e by congruence. done.
    + exists x. by rewrite lookup_insert_ne.
Qed.

Lemma select_ok pipes s main l : inv s main l -> has_ep0 s ->
  exists d, update_pipe_properties (dev s) pipes = Some d /\ unplugged d = unplugged (dev s) /\
    inv {| dev := d; cleaned := cleaned s |} main (update_pipes l pipes).
Proof.
  revert s l. induction pipes as [|p pipes IH]; intros s l Hi H0.
  - eexists. split; [done|]. split; [done|]. by destruct s.
  - cbn [update_pipe_properties update_pipes]. rewrite (find_endpoint_spec s main l) by done. cbn.
    destruct (FilterReq.find_endpoint l (ADDRESS (EndpointAddress p))) as [c|] eqn:Hc; [|by apply IH].
    destruct (find_in_main _ _ _ _ _ (i_list _ _ _ Hi) Hc) as (e & He & Hin). cbn. rewrite He. cbn.
    pose proof (assign_ok s main l c (p_PipeHandle p) e Hi He) as Hi2. cbn in Hi2.
    apply (IH _ _ Hi2). destruct (has_ep0_Some _ H0) as (h & Hh & Hd & Hcl). apply (Some_has_ep0 _ h); [done|cbn; rewrite dom_insert_L; set_solver|done].
Qed.

Lemma set_descriptor_ok s main l p e epd len : inv s main l -> endps (dev s) !! p = Some e -> p ∉ main ->
  (len <= length epd)%nat -> (len <= DESCRIPTOR_SIZE)%nat ->
  exists d e', set_descriptor (dev s) p epd len = Some d /\ d = with_endps (dev s) (<[p := e']> (endps (dev s))) /\
    queue e' = queue e /\ pipe e' = pipe e /\ descriptor e' = take len epd ++ drop len (descriptor e) /\ inv {| dev := d; cleaned := cleaned s |} main l.
Proof.
  intros Hi He Hp H1 H2. unfold set_descriptor. rewrite He. cbn. unfold copy_descriptor.
  pose proof (i_size _ _ _ Hi p e He) as Hz. rewrite (proj2 (Nat.leb_le len (length epd))), (proj2 (Nat.leb_le len _)) by (rewrite ?Hz; lia). cbn.
  eexists _, _. split; [done|]. split; [done|]. do 3 (split; [done|]).
  match goal with |- inv {| dev := with_endps _ (<[_ := ?e']> _) |} _ _ => destruct (links_insert (endps (dev s)) p e e' He) as [Hd Hl]; [done..|] end.
  apply (inv_links s _ main l); try done; cbn.
  - intros q x t Hq. destruct (i_queues _ _ _ Hi q x t Hq) as (y & Hy & Hqy). destruct (decide (x = p)) as [->|Hne].
    + eexists. rewrite lookup_insert_eq. split; [done|]. cbn. congruence.
    + exists y. by rewrite lookup_insert_ne.
  - intros x y Hy. apply lookup_insert_Some in Hy as [[<- <-]|[_ Hy]]; [|by apply (i_size _ _ _ Hi x)].
    cbn. rewrite length_app, length_take, length_drop. unfold DESCRIPTOR_SIZE in *. lia.
  - apply (list_frame (endps (dev s))); [|by apply (i_list _ _ _ Hi)]. intros x Hx. rewrite lookup_insert_ne; [done|]. by intros ->.
Qed.

Lemma queue_dispatch_Some epd : (7 <= length epd)%nat -> exists t, queue_dispatch epd = Some t.
Proof. intros H. unfold queue_dispatch. destruct (lookup_lt_is_Some_2 epd 3) as [a ->]; [lia|]. cbn. by eexists. Qed.

Lemma new_endpoint p epd e : (7 <= length epd <= DESCRIPTOR_SIZE)%nat -> pipe e = 0 ->
  descriptor e = take (length epd) epd ++ drop (length epd) (replicate DESCRIPTOR_SIZE x00) -> endpoint_of p e = endpoint_of p (blank p epd).
Proof.
  intros Hl Hp Hd. unfold endpoint_of. cbn [descriptor pipe blank]. rewrite Hp, Hd, firstn_all, drop_replicate.
  assert (forall i, (i < 7)%nat -> nth i (epd ++ replicate (DESCRIPTOR_SIZE - length epd) x00) x00 = nth i epd x00) as Hn by (intros i Hi; apply app_nth1; lia).
  by rewrite !Hn by lia.
Qed.

Definition zero_endpoint (p : positive) : endpoint := {| queue := None; descriptor := replicate DESCRIPTOR_SIZE x00; pipe := 0; Flink := p; Blink := p |}.

Lemma add_ok s main l epd created queued : inv s main l -> allowed s (Add epd created queued) ->
  exists s' main', step s (Add epd created queued) = Some s' /\ inv s' main' (model_step (unplugged (dev s), l) (Add epd created queued)).2 /\
    unplugged (dev s') = unplugged (dev s).
Proof.
  intros Hi (H0 & [Hp Hq] & Hl). cbn. unfold endpoint_add. destruct (unplugged (dev s)) eqn:Hu.
  { exists s, main. cbn. split; [by destruct s|]. split; [|done]. destruct created as [[] p]; done. }
  destruct created as [st p], queued as [st' q]. cbn in Hp, Hq.
  destruct st; try (exists s, main; cbn; split; [by destruct s|]; done).
  rewrite (proj2 (Nat.eqb_neq (length epd) 0)) by lia. change (default EP0 (Some epd)) with epd.
  pose proof (inv_new s main l p (zero_endpoint p) Hi H0 Hp eq_refl eq_refl eq_refl eq_refl) as Hi1. fold (zero_endpoint p).
  set (s1 := {| dev := with_endps (dev s) (<[p := zero_endpoint p]> (endps (dev s))); cleaned := cleaned s |}) in *.
  assert (p ∉ main) as Hpm. { intros Hm. apply Hp. apply (ring_dom s main l p Hi). set_solver. }
  destruct (set_descriptor_ok s1 main l p (zero_endpoint p) epd (length epd) Hi1) as (d & e & Hset & -> & Hqe & Hpe & Hde & Hi2); [by apply lookup_insert_eq|done|lia|lia|].
  change (with_endps (dev s) (<[p := zero_endpoint p]> (endps (dev s)))) with (dev s1). rewrite Hset. cbn [mbind option_bind].
  set (s2 := {| dev := with_endps (dev s1) (<[p := e]> (endps (dev s1))); cleaned := cleaned s1 |}) in *.
  assert (has_ep0 s2) as H02. { destruct (has_ep0_Some _ H0) as (h & Hh & Hd & Hc). apply (Some_has_ep0 _ h); [done|cbn; rewrite !dom_insert_L; set_solver|done]. }
  assert (p ∉ cleaned s) as Hpc. { intros Hc. by apply Hp, (i_cleaned _ _ _ Hi). }
  destruct (inv_insert s2 main l p e Hi2 H02) as (m & Hins & Hsd & Hi3); [by apply lookup_insert_eq| |done|].
  { intros Hin. apply elem_of_app in Hin as [Hin|Hin]; [|done]. apply Hp. destruct (has_ep0_Some _ H0) as (h & Hh & Hd & Hc). unfold head_of in Hin. cbn in Hin. rewrite Hh in Hin.
    case_decide; [|by apply elem_of_nil in Hin]. by apply list_elem_of_singleton in Hin as ->. }
  change (with_endps (dev s1) (<[p := e]> (endps (dev s1)))) with (dev s2). rewrite Hins. cbn [mbind option_bind].
  destruct (queue_dispatch_Some epd) as [t ->]; [lia|]. cbn [mbind option_bind].
  assert (exists e3, m !! p = Some e3 /\ queue e3 = None) as (e3 & He3 & Hq3).
  { specialize (Hsd p). cbn in Hsd. rewrite !lookup_insert_eq in Hsd. destruct (m !! p) as [e3|]; [|done]. cbn in Hsd. exists e3. split; [done|].
    injection Hsd as E _ _. by rewrite E, Hqe. }
  destruct (inv_create_queue _ _ _ p e3 t st' q Hi3) as (st2 & d & Hcq & Hud & Hi4); [done|done|done|].
  change (dev {| dev := with_endps (dev s2) m; cleaned := cleaned s2 |}) with (with_endps (dev s2) m) in Hcq. rewrite Hcq. cbn.
  eexists _, _. split; [done|]. split; [|cbn; by rewrite Hud]. cbn in Hi4.
  unfold FilterReq.insert_endpoint_list. rewrite <- (new_endpoint p epd e); [exact Hi4|done|done|done].
Qed.

Lemma add_default_ok s main l created queued : inv s main l -> allowed s (AddDefault created queued) ->
  exists s' main', step s (AddDefault created queued) = Some s' /\ inv s' main' l /\ unplugged (dev s') = unplugged (dev s).
Proof.
  intros Hi (H0 & [Hp Hq]). cbn. unfold default_endpoint_add, endpoint_add. destruct (unplugged (dev s)) eqn:Hu.
  { exists s, main. split; [by destruct s|]. done. }
  destruct created as [st p], queued as [st' q]. cbn in Hp, Hq.
  destruct st; try (exists s, main; cbn; split; [by destruct s|]; done).
  pose proof (i_none _ _ _ Hi H0) as Hm.
  assert (main = [] /\ l = []) as [-> ->].
  { pose proof (i_list _ _ _ Hi) as Hl. destruct Hl as [|x c main l (e & He & _)]; [done|]. by rewrite Hm in He. }
  set (e0 := {| queue := None; descriptor := EP0 ++ [x00; x00]; pipe := 0; Flink := p; Blink := p |}).
  assert (set_descriptor (with_endps (dev s) (<[p := zero_endpoint p]> ∅)) p EP0 7 = Some (with_endps (dev s) (<[p := e0]> ∅))) as Hset.
  { unfold set_descriptor. cbn [with_endps endps]. rewrite lookup_insert_eq. cbn. unfold with_endps. cbn. by rewrite insert_insert_eq. }
  rewrite Hm. cbn [Nat.eqb]. fold (zero_endpoint p). change (default EP0 None) with EP0. rewrite Hset. cbn [mbind option_bind].
  set (s1 := {| dev := {| unplugged := unplugged (dev s); ep0 := Some p; ep0_added := true; endps := <[p := e0]> ∅; queues := queues (dev s); io_queue := io_queue (dev s) |};
                cleaned := cleaned s |}).
  assert (cleaned s = ∅) as Hc.
  { apply set_eq. intros x. split; [|set_solver]. intros Hx. apply (i_cleaned _ _ _ Hi) in Hx as [Hx _]. rewrite Hm in Hx. set_solver. }
  assert (inv s1 [] []) as Hi1.
  { assert (head_of s1 = [p]) as Hh. { unfold head_of. cbn. rewrite decide_True; [done|]. rewrite dom_insert_L, Hc. set_solver. }
    split; rewrite ?Hh; cbn; try done.
    - split; unfold next, prev; by rewrite lookup_insert_eq.
    - apply list.NoDup_singleton.
    - intros x Hx Hn. rewrite dom_insert_L in Hx. set_solver.
    - set_solver.
    - rewrite Hc. set_solver.
    - intros q' x t Hq'. destruct (i_queues _ _ _ Hi q' x t Hq') as (e & He & _). by rewrite Hm in He.
    - intros x e Hx. by apply lookup_insert_Some in Hx as [[<- <-]|[_ Hx]]. }
  destruct (inv_create_queue s1 [] [] p e0 WdfIoQueueDispatchSequential st' q Hi1) as (st2 & d & Hd & Hud & Hi2); [by apply lookup_insert_eq|done| |].
  { exact Hq. }
  change (queue_dispatch EP0) with (Some WdfIoQueueDispatchSequential). cbn [mbind option_bind].
  cbn in Hd. cbn. unfold with_endps. rewrite Hd. cbn. eexists _, []. split; [done|]. split; [exact Hi2|]. cbn. rewrite Hud. exact Hu.
Qed.


Lemma step_ok s main l o : inv s main l -> allowed s o ->
  exists s' main', step s o = Some s' /\ inv s' main' (model_step (unplugged (dev s), l) o).2 /\
    unplugged (dev s') = (model_step (unplugged (dev s), l) o).1.
Proof.
  intros Hi Ha. destruct o as [created queued|epd created queued|p|p|pipes|crit|].
  - exact (add_default_ok s main l created queued Hi Ha).
  - destruct (add_ok s main l epd created queued Hi Ha) as (s' & main' & H1 & H2 & H3). exists s', main'. split; [done|]. split; [done|].
    rewrite H3. cbn. by destruct created as [[] ?].
  - destruct Ha as [H1 H2]. destruct (endpoint_cleanup_ok s main l p Hi H1 H2) as (s' & H3 & H4 & H5). by exists s', (filter (fun x => x <> p) main).
  - eexists _, main. split; [done|]. split; [by apply free_ok|done].
  - destruct (select_ok pipes s main l Hi Ha) as (d & Hd & Hu & Hi'). cbn. rewrite Hd. by eexists _, main.
  - exists s, main. cbn. by rewrite (find_endpoint_spec s main l).
  - eexists _, main. split; [done|]. split; [|done]. destruct Hi. by split.
Qed.

Lemma run_ok ops s main l : inv s main l -> all_allowed s ops ->
  exists s' main', run s ops = Some s' /\ inv s' main' (foldl model_step (unplugged (dev s), l) ops).2.
Proof.
  revert s main l. induction ops as [|o ops IH]; intros s main l Hi Ha; [by exists s, main|]. cbn [all_allowed run foldl] in *.
  destruct Ha as [Ha Hr]. destruct (step_ok s main l o Hi Ha) as (s1 & main1 & Hs & Hi1 & Hu). rewrite Hs in Hr |- *. cbn [mbind option_bind].
  destruct (IH s1 main1 _ Hi1 Hr) as (s' & main' & H1 & H2). exists s', main'. split; [done|].
  rewrite Hu in H2. by destruct (model_step (unplugged (dev s), l) o).
Qed.

Lemma initial_inv : inv initial [] [].
Proof. split; cbn; try done; try constructor. Qed.

(** ** The list of endpoints *)

(** C31: for every sequence of endpoints added, cleaned up in any order, freed, looked for and given pipe handles, with every way the
    framework's calls can fail, the linked list touches only contexts that are allocated, RemoveEntryList never finds a
    corrupted entry, every search ends, and the list is, entry by entry, the sequence the model of the filter requests works on: the newest endpoints
    first, those whose queue could not be created too.  A queue that exists leads to the endpoint it was made for. *)
Theorem endpoint_list_refines ops : all_allowed initial ops ->
  exists s, run initial ops = Some s /\
    (has_ep0 s -> forall crit, find_endpoint (dev s) crit = Some (ep_handle <$> FilterReq.find_endpoint (model ops) crit)) /\
    (forall c, c ∈ model ops -> exists e, endps (dev s) !! ep_handle c = Some e /\ c = endpoint_of (ep_handle c) e) /\
    NoDup (ep_handle <$> model ops) /\
    (forall q p t, queues (dev s) !! q = Some (p, t) -> exists e, endps (dev s) !! p = Some e /\ queue e = Some q).
Proof.
  intros Ha. destruct (run_ok ops initial [] [] initial_inv Ha) as (s & main & Hr & Hi). exists s. split; [done|].
  change (foldl model_step (unplugged (dev initial), []) ops).2 with (model ops) in Hi.
  split; [intros H0 crit; by apply (find_endpoint_spec s main)|]. pose proof (i_list _ _ _ Hi) as Hl. split; [|split; [|by apply (i_queues _ _ _ Hi)]].
  - intros c Hc. apply list_elem_of_lookup in Hc as [i Hc]. by destruct (Forall2_lookup_r _ _ _ _ _ Hl Hc) as (q & Hq & e & He & ->); exists e.
  - assert (ep_handle <$> model ops = main) as ->.
    { clear -Hl. induction Hl as [|q c main l (e & He & ->) Hl IH]; [done|]. cbn. f_equal. exact IH. }
    pose proof (i_nodup _ _ _ Hi) as Hn. by apply list.NoDup_app in Hn as (_ & _ & Hn).
Qed.

(** ** Witnesses *)

Module Demo.
Definition bulk_in : list byte := [x07; x05; x81; x02; x00; x02; x00].
Definition bulk_out : list byte := [x07; x05; x02; x02; x00; x02; x00].

(** Two endpoints get pipe handles; one of them is added again, without a queue, before the old one goes. *)
Definition reconfigured : list op :=
  [AddDefault (STATUS_SUCCESS, 1%positive) (STATUS_SUCCESS, 10%positive);
   Add bulk_in (STATUS_SUCCESS, 2%positive) (STATUS_SUCCESS, 11%positive);
   Add bulk_out (STATUS_SUCCESS, 3%positive) (STATUS_SUCCESS, 12%positive);
   Select [{| EndpointAddress := 0x81; p_PipeHandle := 100 |}; {| EndpointAddress := 0x02; p_PipeHandle := 101 |}];
   Add bulk_in (STATUS_SUCCESS, 4%positive) (STATUS_INSUFFICIENT_RESOURCES, 13%positive);
   Find (ADDRESS 0x81); Cleanup 2%positive; Free 2%positive; Find (HANDLE 101)].

(** The list goes away with its head first. *)
Definition head_first : list op := reconfigured ++ [Unplug; Cleanup 1%positive; Free 1%positive; Cleanup 3%positive; Cleanup 4%positive].

Lemma reconfigured_allowed : all_allowed initial reconfigured /\ all_allowed initial head_first.
Proof. split; apply (bool_decide_unpack _); vm_compute; exact I. Qed.

Lemma endpoint_list_refines_witness : exists s, run initial reconfigured = Some s /\ find_endpoint (dev s) (ADDRESS 0x81) = Some (Some 4%positive) /\
  find_endpoint (dev s) (HANDLE 101) = Some (Some 3%positive) /\ find_endpoint (dev s) (HANDLE 100) = Some None /\ is_Some (run initial head_first).
Proof.
  destruct reconfigured_allowed as [H1 H2]. destruct (endpoint_list_refines reconfigured H1) as (s & Hs & Hf & _).
  destruct (endpoint_list_refines head_first H2) as (s2 & Hs2 & _). exists s. split; [exact Hs|].
  assert (has_ep0 s) as H0. { revert Hs. vm_compute. intros [= <-]. apply (bool_decide_unpack _). vm_compute. exact I. }
  rewrite !Hf by exact H0. split; [vm_compute; reflexivity|]. split; [vm_compute; reflexivity|]. split; [vm_compute; reflexivity|]. by exists s2.
Defined.

(** A descriptor of more than nine bytes, whose length only an assertion compares, is copied past the end of the member. *)
Lemma long_descriptor_overruns : exists s, run initial [AddDefault (STATUS_SUCCESS, 1%positive) (STATUS_SUCCESS, 10%positive)] = Some s /\
  (forall answers, endpoint_add (dev s) (Some (bulk_in ++ [x00; x00; x00])) 10 (STATUS_SUCCESS, 2%positive) answers = None) /\
  is_Some (endpoint_add (dev s) (Some (bulk_in ++ [x00; x00])) 9 (STATUS_SUCCESS, 2%positive) (STATUS_SUCCESS, 11%positive)).
Proof. eexists. split; [reflexivity|]. split; [reflexivity|]. eexists. vm_compute. reflexivity. Qed.

(** endpoint_add fails, the endpoint stays in the list. *)
Lemma failed_add_stays : exists s d, run initial [AddDefault (STATUS_SUCCESS, 1%positive) (STATUS_SUCCESS, 10%positive)] = Some s /\
  endpoint_add (dev s) (Some bulk_in) 7 (STATUS_SUCCESS, 2%positive) (STATUS_INSUFFICIENT_RESOURCES, 11%positive) = Some (STATUS_INSUFFICIENT_RESOURCES, d) /\
  find_endpoint d (ADDRESS 0x81) = Some (Some 2%positive).
Proof. eexists _, _. split; [reflexivity|]. split; [reflexivity|]. vm_compute. reflexivity. Qed.
End Demo.
