(* ===== verification/Pnp.v ===== *)
(** * The filter driver in the device stacks

    drivers/ude_filter/pnp.cpp, device.cpp and query_interface.cpp: the filter driver attaches a filter
    device object (FiDO) above the root hub of the emulated controller, and, each time the hub
    reports its children, above each new child; int_dev_ctrl.cpp (FilterReq) handles the
    requests these receive.  The I/O manager keeps device objects with their extensions and, for
    each, the object attached above it; [None] is a null or deleted object, or memory freed twice. *)

From Stdlib Require Import(notations) Strings.String.
From S2P Require Import Prelude.

(** ** The I/O manager *)

(** struct filter_ext (device.h); the union is tagged by [is_hub]. *)
Inductive filter_kind : Type := Hub (previous : option positive) | Device (usbd_handle : option positive).

Record filter_ext : Type := { self : option positive; target : option positive; pdo : option positive; kind : filter_kind }.

(** A device object; [DeviceExtension] is known for those of this driver only, the name is that
    of its driver, as ObQueryNameString gives it. *)
Record device_object : Type := {
  DeviceType : Z; Characteristics : Z; Flags : Z; DriverName : list Z; DeviceExtension : option filter_ext }.

(** Which of the next calls succeed; the last entry counts for good. *)
Record answers : Type := { on_create : list bool; on_handle : list bool; on_pool : list bool; on_name : list bool }.

Record world : Type := {
  dev : gmap positive device_object;
  attached : gmap positive positive;           (* DEVICE_OBJECT.AttachedDevice *)
  handles : gset positive;                     (* USBD handles that are open *)
  pool : gmap positive (list positive);        (* copies of DEVICE_RELATIONS *)
  answer : answers }.

Definition with_dev (w : world) (d : gmap positive device_object) : world :=
  {| dev := d; attached := attached w; handles := handles w; pool := pool w; answer := answer w |}.
Definition with_attached (w : world) (a : gmap positive positive) : world :=
  {| dev := dev w; attached := a; handles := handles w; pool := pool w; answer := answer w |}.
Definition with_handles (w : world) (h : gset positive) : world :=
  {| dev := dev w; attached := attached w; handles := h; pool := pool w; answer := answer w |}.
Definition with_pool (w : world) (p : gmap positive (list positive)) : world :=
  {| dev := dev w; attached := attached w; handles := handles w; pool := p; answer := answer w |}.
Definition with_answer (w : world) (a : answers) : world :=
  {| dev := dev w; attached := attached w; handles := handles w; pool := pool w; answer := a |}.

Definition next (l : list bool) : bool * list bool := match l with [] => (true, []) | b :: l => (b, l) end.

Definition answer_create (w : world) : bool * world :=
  let a := answer w in let '(b, l) := next (on_create a) in
  (b, with_answer w {| on_create := l; on_handle := on_handle a; on_pool := on_pool a; on_name := on_name a |}).
Definition answer_handle (w : world) : bool * world :=
  let a := answer w in let '(b, l) := next (on_handle a) in
  (b, with_answer w {| on_create := on_create a; on_handle := l; on_pool := on_pool a; on_name := on_name a |}).
Definition answer_pool (w : world) : bool * world :=
  let a := answer w in let '(b, l) := next (on_pool a) in
  (b, with_answer w {| on_create := on_create a; on_handle := on_handle a; on_pool := l; on_name := on_name a |}).
Definition answer_name (w : world) : bool * world :=
  let a := answer w in let '(b, l) := next (on_name a) in
  (b, with_answer w {| on_create := on_create a; on_handle := on_handle a; on_pool := on_pool a; on_name := l |}).

Definition get_filter_ext (w : world) (o : positive) : option filter_ext := d ← dev w !! o; DeviceExtension d.

Definition with_ext (d : device_object) (x : option filter_ext) : device_object :=
  {| DeviceType := DeviceType d; Characteristics := Characteristics d; Flags := Flags d; DriverName := DriverName d; DeviceExtension := x |}.
Definition with_flags (d : device_object) (ty ch fl : Z) : device_object :=
  {| DeviceType := ty; Characteristics := ch; Flags := fl; DriverName := DriverName d; DeviceExtension := DeviceExtension d |}.
Definition with_target (x : filter_ext) (t : option positive) : filter_ext :=
  {| self := self x; target := t; pdo := pdo x; kind := kind x |}.
Definition with_kind (x : filter_ext) (k : filter_kind) : filter_ext :=
  {| self := self x; target := target x; pdo := pdo x; kind := k |}.

(** An assignment to the extension of [o]. *)
Definition set_ext (w : world) (o : positive) (x : filter_ext) : option world :=
  d ← dev w !! o;
  _ ← DeviceExtension d;
  Some (with_dev w (<[o := with_ext d (Some x)]> (dev w))).

Definition is_hub (x : filter_ext) : bool := match kind x with Hub _ => true | Device _ => false end.

Definition FILE_DEVICE_UNKNOWN : Z := 0x22.
Definition FILE_DEVICE_SECURE_OPEN : Z := 0x100.
Definition DO_BUFFERED_IO : Z := 0x4.
Definition DO_DIRECT_IO : Z := 0x10.
Definition DO_DEVICE_INITIALIZING : Z := 0x80.
Definition DO_POWER_PAGABLE : Z := 0x2000.
Definition DO_POWER_INRUSH : Z := 0x4000.

(** IoCreateDevice: the extension is zeroed.  The memory of a deleted object stays as long as
    something is attached to it. *)
Definition IoCreateDevice (w : world) : option positive * world :=
  let '(b, w) := answer_create w in
  if b then
    let o := fresh (dom (dev w) ∪ dom (attached w)) in
    let x := {| self := None; target := None; pdo := None; kind := Device None |} in
    (Some o, with_dev w (<[o := {| DeviceType := FILE_DEVICE_UNKNOWN; Characteristics := FILE_DEVICE_SECURE_OPEN;
      Flags := DO_DEVICE_INITIALIZING; DriverName := []; DeviceExtension := Some x |}]> (dev w)))
  else (None, w).

Definition IoDeleteDevice (w : world) (o : positive) : option world :=
  _ ← dev w !! o; Some (with_dev w (delete o (dev w))).

Definition IoDetachDevice (w : world) (t : positive) : option world :=
  _ ← attached w !! t; Some (with_attached w (delete t (attached w))).

Definition USBD_CreateHandle (w : world) : option positive * world :=
  let '(b, w) := answer_handle w in
  if b then let h := fresh (handles w) in (Some h, with_handles w ({[h]} ∪ handles w)) else (None, w).

Definition USBD_CloseHandle (w : world) (h : positive) : option world :=
  if decide (h ∈ handles w) then Some (with_handles w (handles w ∖ {[h]})) else None.

(** Freeing a pointer that may be NULL. *)
Definition pool_free (w : world) (p : option positive) : option world :=
  match p with
  | None => Some w
  | Some p => _ ← pool w !! p; Some (with_pool w (delete p (pool w)))
  end.

(** ** device.cpp *)

Definition driver_filename : list Z := wide "usbip2_ude"%string.
Definition driver_name : list Z := wide "\Driver\"%string ++ driver_filename.

Section driver.
(** RtlUpcaseUnicodeChar *)
Context (upcase : Z -> Z).
(** IoGetAttachedDevice: the top of the stack of an object; IoAttachDeviceToDeviceStack gives
    none when it refuses to attach. *)
Context (device_top : gmap positive positive -> positive -> option positive).

(** RtlEqualUnicodeString *)
Definition equal_names (a b : list Z) : bool := bool_decide (map upcase a = map upcase b).

(** driver_name_equal: a buffer for the name, then ObQueryNameString. *)
Definition driver_name_equal (w : world) (driver expected : list Z) : bool * world :=
  let '(b, w) := answer_pool w in
  if b then let '(b, w) := answer_name w in (b && equal_names driver expected, w) else (false, w).

Definition is_above_vhci (w : world) (pdo : positive) : option (bool * world) :=
  d ← dev w !! pdo; Some (driver_name_equal w (DriverName d) driver_name).

(** The assertion is that the USBD handle has been closed. *)
Definition do_destroy (w : world) (f : filter_ext) : option world :=
  match kind f with
  | Hub previous => pool_free w previous
  | Device None => Some w
  | Device (Some _) => None
  end.

Definition destroy (w : world) (o : positive) : option world :=
  f ← get_filter_ext w o;
  w ← match target f with
      | Some t => w ← IoDetachDevice w t; set_ext w o (with_target f None)
      | None => Some w
      end;
  f ← get_filter_ext w o;
  w ← do_destroy w f;
  s ← self f;
  IoDeleteDevice w s.

Definition IoAttachDeviceToDeviceStack (w : world) (o pdo : positive) : option (option positive * world) :=
  _ ← dev w !! pdo;
  Some match device_top (attached w) pdo with
       | Some t => (Some t, with_attached w (<[t := o]> (attached w)))
       | None => (None, w)
       end.

(** Propagate type, characteristics and some of the flags of the object beneath. *)
Definition copy_flags (w : world) (fido t : positive) : option world :=
  td ← dev w !! t;
  fd ← dev w !! fido;
  let mask := Z.lor DO_BUFFERED_IO (Z.lor DO_DIRECT_IO (Z.lor DO_POWER_PAGABLE DO_POWER_INRUSH)) in
  Some (with_dev w (<[fido := with_flags fd (DeviceType td) (Characteristics td) (Z.lor (Flags fd) (Z.land (Flags td) mask))]> (dev w))).

Definition clear_initializing (w : world) (fido : positive) : option world :=
  d ← dev w !! fido;
  Some (with_dev w (<[fido := with_flags d (DeviceType d) (Characteristics d) (Z.ldiff (Flags d) DO_DEVICE_INITIALIZING)]> (dev w))).

Definition STATUS_NO_SUCH_DEVICE : ntstatus := NT_OS 0xC000000E.

Definition do_add_device (w : world) (p : positive) (parent : option positive) : option (ntstatus * world) :=
  let '(fido, w) := IoCreateDevice w in
  match fido with
  | None => Some (STATUS_INSUFFICIENT_RESOURCES, w)
  | Some fido =>
      let k := match parent with None => Hub None | Some _ => Device None end in
      let x := {| self := Some fido; target := None; pdo := Some p; kind := k |} in
      w ← set_ext w fido x;
      '(t, w) ← IoAttachDeviceToDeviceStack w fido p;
      match t with
      | None => w ← destroy w fido; Some (STATUS_NO_SUCH_DEVICE, w)
      | Some t =>
          let x := with_target x (Some t) in
          w ← set_ext w fido x;
          w ← copy_flags w fido t;
          if is_hub x then w ← clear_initializing w fido; Some (STATUS_SUCCESS, w)
          else
            let '(h, w) := USBD_CreateHandle w in
            match h with
            | None => w ← destroy w fido; Some (STATUS_INSUFFICIENT_RESOURCES, w)
            | Some h =>
                w ← set_ext w fido (with_kind x (Device (Some h)));
                w ← clear_initializing w fido; Some (STATUS_SUCCESS, w)
            end
      end
  end.

(** add_device: DRIVER_ADD_DEVICE *)
Definition add_device (w : world) (p : positive) : option (ntstatus * world) :=
  '(above, w) ← is_above_vhci w p;
  if above : bool then '(_, w) ← do_add_device w p None; Some (STATUS_SUCCESS, w)
  else Some (STATUS_SUCCESS, w).

(** ** query_interface.cpp *)

(** A function of the bus interface: the bus driver's, with what it returns, or the substitute. *)
Inductive bus_function : Type := OfBus (st : ntstatus) | Substitute.

Record usbdi_v3 : Type := { Version : Z; QueryBusTime : bus_function; QueryBusTimeEx : bus_function }.

Definition bus_status (f : bus_function) : ntstatus := match f with OfBus st => st | Substitute => STATUS_SUCCESS end.

(** The substitutes; [dummy] is the static counter, a null pointer asks for nothing. *)
Definition query_bus_time (dummy : Z) (frame : bool) : ntstatus * option Z * Z :=
  if frame then let dummy := u32 (dummy + 1) in (STATUS_SUCCESS, Some dummy, dummy) else (STATUS_SUCCESS, None, dummy).

Definition query_bus_time_ex (dummy : Z) (frame : bool) : ntstatus * option Z * Z :=
  let '(st, v, dummy) := query_bus_time dummy frame in
  (st, if NT_SUCCESS st then (fun v => u32 (Z.shiftl v 3)) <$> v else v, dummy).

Definition substitute (f : bus_function) : bus_function := if NT_ERROR (bus_status f) then Substitute else f.

Definition substitute_bus_time (r : usbdi_v3) : usbdi_v3 :=
  if Version r =? 3 then
    {| Version := Version r; QueryBusTime := substitute (QueryBusTime r); QueryBusTimeEx := substitute (QueryBusTimeEx r) |}
  else if (0 <=? Version r) && (Version r <=? 2) then
    {| Version := Version r; QueryBusTime := substitute (QueryBusTime r); QueryBusTimeEx := QueryBusTimeEx r |}
  else r.

(** ** pnp.cpp *)

Inductive bus_interface : Type := Usbdi (r : usbdi_v3) | OtherInterface.

(** The minor function with its parameters; what the driver beneath puts into a request that it
    completes: relations, or an interface. *)
Inductive minor_function : Type :=
| START_DEVICE
| REMOVE_DEVICE
| QUERY_DEVICE_RELATIONS (bus_relations : bool) (relations : option (list positive))
| QUERY_INTERFACE (interface : bus_interface)
| OTHER_MINOR.

(** [lower]: the status the driver beneath returns; [can_forward]: whether
    IoForwardIrpSynchronously could forward. *)
Record irp : Type := { minor : minor_function; lower : ntstatus; can_forward : bool }.

(** What is done with a request, in this order. *)
Inductive irp_action : Type :=
| CloseHandle (h : positive) | Forward (t : positive) | ForwardSync (t : positive) | DestroyFilter (o : positive)
| CompleteIrp (st : ntstatus) (interface : option bus_interface).

Definition forward_irp (f : filter_ext) (i : irp) : option (ntstatus * list irp_action) :=
  t ← target f; Some (lower i, [Forward t]).

Definition forward_irp_synchronously (f : filter_ext) (i : irp) : option (ntstatus * list irp_action) :=
  t ← target f; Some (if can_forward i then (lower i, [ForwardSync t]) else (STATUS_NO_MORE_ENTRIES, [])).

(** Offset of Objects and size of DEVICE_RELATIONS with one element. *)
Definition SizeOf_DEVICE_RELATIONS (cnt : nat) : nat := 16 + (if bool_decide (cnt = 0)%nat then 0 else (cnt - 1) * 8).

Definition clone (w : world) (src : list positive) : option (option positive * world) :=
  let sz := SizeOf_DEVICE_RELATIONS (length src) in
  if (sz <? 8 + 8 * length src)%nat then None
  else
    let '(b, w) := answer_pool w in
    if b then let p := fresh (dom (pool w)) in Some (Some p, with_pool w (<[p := src]> (pool w))) else Some (None, w).

(** contains *)
Definition relations_contain (r : list positive) (obj : positive) : bool := existsb (Pos.eqb obj) r.

Definition previous_of (w : world) (previous : option positive) : option (list positive) :=
  match previous with None => Some [] | Some p => pool w !! p end.

(** The loop over the children: a FiDO for each that is not among the previous ones. *)
Fixpoint add_children (w : world) (o : positive) (previous : option positive) (r : list positive) : option world :=
  match r with
  | [] => Some w
  | p :: r =>
      prev ← previous_of w previous;
      w ← (if relations_contain prev p then Some w else '(_, w) ← do_add_device w p (Some o); Some w);
      add_children w o previous r
  end.

(** query_bus_relations of the relations *)
Definition update_relations (w : world) (o : positive) (r : list positive) : option world :=
  f ← get_filter_ext w o;
  match kind f with
  | Device _ => None
  | Hub previous =>
      w ← add_children w o previous r;
      match r with
      | [] => w ← set_ext w o (with_kind f (Hub None)); pool_free w previous
      | _ =>
          '(ptr, w) ← clone w r;
          match ptr with
          | Some ptr => w ← set_ext w o (with_kind f (Hub (Some ptr))); pool_free w previous
          | None => Some w
          end
      end
  end.

(** query_bus_relations of the request *)
Definition query_bus_relations (w : world) (o : positive) (f : filter_ext) (i : irp) (r : option (list positive)) :
    option (ntstatus * list irp_action * world) :=
  '(st, acts) ← forward_irp_synchronously f i;
  w ← (if NT_SUCCESS st then match r with Some r => update_relations w o r | None => Some w end else Some w);
  Some (st, acts ++ [CompleteIrp st None], w).

Definition remove_device (w : world) (o : positive) (f : filter_ext) (i : irp) : option (ntstatus * list irp_action * world) :=
  '(w, acts) ← match kind f with
               | Device (Some h) => w ← USBD_CloseHandle w h; w ← set_ext w o (with_kind f (Device None)); Some (w, [CloseHandle h])
               | _ => Some (w, [])
               end;
  '(st, fwd) ← forward_irp f i;
  w ← destroy w o;
  Some (st, acts ++ fwd ++ [DestroyFilter o], w).

Definition query_interface (f : filter_ext) (i : irp) (b : bus_interface) : option (ntstatus * list irp_action) :=
  '(st, acts) ← forward_irp_synchronously f i;
  let b := match b with
           | Usbdi r => if NT_ERROR st then b else Usbdi (substitute_bus_time r)
           | OtherInterface => b
           end in
  Some (st, acts ++ [CompleteIrp st (Some b)]).

Definition pnp (w : world) (o : positive) (i : irp) : option (ntstatus * list irp_action * world) :=
  f ← get_filter_ext w o;
  let forward := '(st, acts) ← forward_irp f i; Some (st, acts, w) in
  match minor i with
  | START_DEVICE => '(st, acts) ← forward_irp_synchronously f i; Some (st, acts ++ [CompleteIrp st None], w)
  | REMOVE_DEVICE => remove_device w o f i
  | QUERY_DEVICE_RELATIONS bus r => if is_hub f && bus then query_bus_relations w o f i r else forward
  | QUERY_INTERFACE b => if negb (is_hub f) then '(st, acts) ← query_interface f i b; Some (st, acts, w) else forward
  | OTHER_MINOR => forward
  end.

(** ** What happens to the driver *)

(** The other drivers create objects ([Stack]: and attach them), detach and delete them; the
    PnP manager calls AddDevice and sends requests to the FiDOs. *)
Inductive event : Type :=
| NewObject (p : positive) (d : device_object)
| Stack (t o : positive) (d : device_object)
| Unstack (t o : positive)
| DeleteObject (p : positive)
| AddDevice (p : positive)
| Pnp (o : positive) (i : irp).

Definition exec (w : world) (e : event) : option world :=
  match e with
  | NewObject p d => Some (with_dev w (<[p := d]> (dev w)))
  | Stack t o d => Some (with_attached (with_dev w (<[o := d]> (dev w))) (<[t := o]> (attached w)))
  | Unstack t o => Some (with_attached (with_dev w (delete o (dev w))) (delete t (attached w)))
  | DeleteObject p => Some (with_dev w (delete p (dev w)))
  | AddDevice p => '(_, w) ← add_device w p; Some w
  | Pnp o i => '(_, _, w) ← pnp w o i; Some w
  end.

(** [rep] is what each hub has reported last, which is the knowledge of its bus driver. *)
Definition reported (w : world) (rep : gmap positive (list positive)) (e : event) : gmap positive (list positive) :=
  match e with
  | Pnp o i =>
      match minor i with
      | REMOVE_DEVICE => delete o rep
      | QUERY_DEVICE_RELATIONS true (Some r) =>
          if from_option is_hub false (get_filter_ext w o) && can_forward i && NT_SUCCESS (lower i) then <[o := r]> rep else rep
      | _ => rep
      end
  | _ => rep
  end.

Definition foreign (w : world) (o : positive) : Prop := exists d, dev w !! o = Some d /\ DeviceExtension d = None.
Definition unused (w : world) (o : positive) : Prop := dev w !! o = None /\ attached w !! o = None.
(** No FiDO was created for [p]. *)
Definition unfiltered (w : world) (p : positive) : Prop := forall o x, get_filter_ext w o = Some x -> pdo x <> Some p.

(** What the I/O and PnP managers promise: AddDevice is called once for a PDO; a hub reports objects that
    exist, each once, and after an object has been reported missing not again before its stack is gone. *)
Definition enabled (w : world) (rep : gmap positive (list positive)) (e : event) : Prop :=
  match e with
  | NewObject p d => unused w p /\ DeviceExtension d = None
  | Stack t o d => unused w o /\ DeviceExtension d = None /\ is_Some (dev w !! t) /\ attached w !! t = None
  | Unstack t o => attached w !! t = Some o /\ foreign w o
  | DeleteObject p => foreign w p /\ forall t, attached w !! t <> Some p
  | AddDevice p => exists d, dev w !! p = Some d /\ (equal_names (DriverName d) driver_name = true -> unfiltered w p)
  | Pnp o i =>
      exists f, get_filter_ext w o = Some f /\
      match minor i with
      | QUERY_DEVICE_RELATIONS true (Some r) =>
          is_hub f = true -> NoDup r /\
          forall p, p ∈ r -> is_Some (dev w !! p) /\ (p ∉ default [] (rep !! o) -> unfiltered w p)
      | _ => True
      end
  end.

Definition start (a : answers) : world := {| dev := ∅; attached := ∅; handles := ∅; pool := ∅; answer := a |}.

Inductive reachable (a : answers) : world -> gmap positive (list positive) -> Prop :=
| reach_start : reachable a (start a) ∅
| reach_step w rep e w' : reachable a w rep -> enabled w rep e -> exec w e = Some w' -> reachable a w' (reported w rep e).
End driver.

(** ** Who owns a resource *)

Section owns.
Context (own : device_object -> option positive).

(** The resources [S] are those of the objects, each of one object. *)
Record owns (D : gmap positive device_object) (S : gset positive) : Prop := {
  owned_iff h : h ∈ S <-> exists o, D !! o ≫= own = Some h;
  owned_once o1 o2 h : D !! o1 ≫= own = Some h -> D !! o2 ≫= own = Some h -> o1 = o2 }.

Definition just (h : option positive) : gset positive := match h with Some h => {[h]} | None => ∅ end.

(** One object changes and releases or acquires a resource. *)
Lemma owns_update D S o (v : option device_object) : owns D S ->
  (forall h, v ≫= own = Some h -> h ∉ S \/ D !! o ≫= own = Some h) ->
  owns (partial_alter (fun _ => v) o D) ((S ∖ just (D !! o ≫= own)) ∪ just (v ≫= own)).
Proof.
  intros [Hi Ho] Hv. constructor.
  - intros h. rewrite elem_of_union, elem_of_difference, Hi. split.
    + intros [[[o' Ho'] Hn]|Hh].
      * exists o'. rewrite lookup_partial_alter_ne; [done|]. intros <-. rewrite Ho' in Hn. set_solver.
      * exists o. rewrite lookup_partial_alter_eq. destruct (v ≫= own); set_solver.
    + intros [o' Ho']. destruct (decide (o = o')) as [<-|Hn].
      * rewrite lookup_partial_alter_eq in Ho'. right. rewrite Ho'. set_solver.
      * rewrite lookup_partial_alter_ne in Ho' by done. left. split; [by exists o'|].
        destruct (D !! o ≫= own) as [h'|] eqn:Hd; [|set_solver]. cbn. rewrite elem_of_singleton. intros ->. apply Hn. by apply (Ho _ _ h').
  - intros o1 o2 h. destruct (decide (o = o1)) as [<-|H1], (decide (o = o2)) as [<-|H2];
      rewrite ?lookup_partial_alter_eq, ?lookup_partial_alter_ne by done; intros Hx Hy.
    + done.
    + exfalso. destruct (Hv h Hx) as [Hh|Hh]; [apply Hh, Hi; by exists o2|]. apply H2. by apply (Ho _ _ h).
    + exfalso. destruct (Hv h Hy) as [Hh|Hh]; [apply Hh, Hi; by exists o1|]. apply H1. by apply (Ho _ _ h).
    + by apply (Ho _ _ h).
Qed.

Lemma owns_update_to D S S' o v : owns D S -> (forall h, v ≫= own = Some h -> h ∉ S \/ D !! o ≫= own = Some h) ->
  S' = (S ∖ just (D !! o ≫= own)) ∪ just (v ≫= own) -> owns (partial_alter (fun _ => v) o D) S'.
Proof. intros H Hv ->. by apply owns_update. Qed.

Lemma owns_same D S o v : owns D S -> v ≫= own = D !! o ≫= own -> owns (partial_alter (fun _ => v) o D) S.
Proof.
  intros H Hv. apply (owns_update_to D S S o v); [done|intros h; rewrite Hv; by right|]. rewrite Hv.
  destruct (D !! o ≫= own) as [h|] eqn:Hd; cbn; [|set_solver].
  assert (h ∈ S) by (apply (owned_iff _ _ H); by exists o). apply leibniz_equiv. intros x. destruct (decide (x = h)); set_solver.
Qed.

Lemma owns_none D S : owns D S -> (forall o, D !! o ≫= own = None) -> S = ∅.
Proof.
  intros [Hi _] Hn. apply leibniz_equiv. intros h. rewrite Hi. split; [|set_solver]. intros [o Ho]. by rewrite Hn in Ho.
Qed.
End owns.

Definition ext_handle (d : device_object) : option positive :=
  x ← DeviceExtension d; match kind x with Device h => h | Hub _ => None end.
Definition ext_previous (d : device_object) : option positive :=
  x ← DeviceExtension d; match kind x with Hub p => p | Device _ => None end.

Definition initializing (d : device_object) : bool := negb (Z.land (Flags d) DO_DEVICE_INITIALIZING =? 0).

(** A FiDO between requests. *)
Record filter_ok (a : gmap positive positive) (o : positive) (d : device_object) (x : filter_ext) : Prop := {
  filter_self : self x = Some o;
  filter_pdo : is_Some (pdo x);
  filter_attached : exists t, target x = Some t /\ a !! t = Some o;
  filter_handle : kind x <> Device None;
  filter_initialized : initializing d = false }.

Record world_ok (w : world) : Prop := {
  ok_handles : owns ext_handle (dev w) (handles w);
  ok_pool : owns ext_previous (dev w) (dom (pool w));
  ok_range t o : attached w !! t = Some o -> is_Some (dev w !! o);
  ok_once t1 t2 o : attached w !! t1 = Some o -> attached w !! t2 = Some o -> t1 = t2;
  ok_filters o d x : dev w !! o = Some d -> DeviceExtension d = Some x -> filter_ok (attached w) o d x }.

Lemma get_filter_ext_Some w o x : get_filter_ext w o = Some x <-> exists d, dev w !! o = Some d /\ DeviceExtension d = Some x.
Proof. unfold get_filter_ext. destruct (dev w !! o) as [d|]; cbn; naive_solver. Qed.

Lemma cleared_initializing f : Z.land (Z.ldiff f DO_DEVICE_INITIALIZING) DO_DEVICE_INITIALIZING = 0.
Proof.
  apply Z.bits_inj'. intros n Hn. rewrite Z.land_spec, Z.ldiff_spec, Z.bits_0. by destruct (Z.testbit f n), (Z.testbit DO_DEVICE_INITIALIZING n).
Qed.

(** *** Creating and destroying a FiDO *)

Section steps.
Context (upcase : Z -> Z) (device_top : gmap positive positive -> positive -> option positive).
(** The top of a stack has nothing above it; it is the object itself or one that is attached. *)
Context (device_top_law : forall a p t, device_top a p = Some t -> a !! t = None /\ (t = p \/ exists s, a !! s = Some t)).

(** [w'] is [w] with a FiDO for [p] above the top of its stack. *)
Definition filter_added (w w' : world) (p : positive) (parent : option positive) : Prop :=
  exists o d x t td, dev w !! o = None /\ dev w' = <[o := d]> (dev w) /\ DeviceExtension d = Some x /\
    device_top (attached w) p = Some t /\ dev w !! t = Some td /\ attached w' = <[t := o]> (attached w) /\
    DeviceType d = DeviceType td /\ Characteristics d = Characteristics td /\ initializing d = false /\
    self x = Some o /\ pdo x = Some p /\ target x = Some t /\
    match parent with
    | None => kind x = Hub None /\ handles w' = handles w
    | Some _ => exists h, kind x = Device (Some h) /\ (h ∉ handles w) /\ handles w' = {[h]} ∪ handles w
    end.

(** All but the answers. *)
Definition unchanged (w w' : world) : Prop :=
  dev w' = dev w /\ attached w' = attached w /\ handles w' = handles w.

Definition fewer_answers (w w' : world) : Prop :=
  on_pool (answer w') = on_pool (answer w) /\
  (on_create (answer w) = [] -> on_handle (answer w) = [] -> on_create (answer w') = [] /\ on_handle (answer w') = []).

Lemma fewer_answers_refl w : fewer_answers w w.
Proof. done. Qed.

Lemma fewer_answers_trans w1 w2 w3 : fewer_answers w1 w2 -> fewer_answers w2 w3 -> fewer_answers w1 w3.
Proof. intros [H1 H2] [H3 H4]. split; [congruence|]. intros Hc Hh. destruct (H2 Hc Hh). by apply H4. Qed.

(** [destroy] of a FiDO whose USBD handle is closed. *)
Lemma destroy_spec w o d x t : dev w !! o = Some d -> DeviceExtension d = Some x -> self x = Some o ->
  target x = Some t -> is_Some (attached w !! t) ->
  (match kind x with Hub (Some p) => is_Some (pool w !! p) | Device (Some _) => False | _ => True end) ->
  destroy w o = Some {| dev := delete o (dev w); attached := delete t (attached w); handles := handles w;
    pool := match kind x with Hub (Some p) => delete p (pool w) | _ => pool w end; answer := answer w |}.
Proof.
  intros Hd Hx Hs Ht [u Hu] Hk. unfold destroy, get_filter_ext. rewrite Hd. cbn. rewrite Hx. cbn. rewrite Ht.
  unfold IoDetachDevice. rewrite Hu. cbn. unfold set_ext. cbn. rewrite Hd. cbn. rewrite Hx. cbn.
  rewrite lookup_insert_eq. cbn. unfold do_destroy. cbn.
  destruct (kind x) as [[p|]|[h|]]; [destruct Hk as [r Hr]; cbn; rewrite Hr; cbn| | done |]; cbn; rewrite Hs; cbn;
    unfold IoDeleteDevice; cbn; rewrite lookup_insert_eq; cbn; unfold with_dev; cbn; by rewrite delete_insert_eq.
Qed.

(** One that was not attached. *)
Lemma destroy_unattached w o d x : dev w !! o = Some d -> DeviceExtension d = Some x -> self x = Some o ->
  target x = None -> kind x = Hub None \/ kind x = Device None -> destroy w o = Some (with_dev w (delete o (dev w))).
Proof.
  intros Hd Hx Hs Ht Hk. unfold destroy, get_filter_ext. rewrite Hd. cbn. rewrite Hx. cbn. rewrite Ht. cbn. rewrite Hd. cbn. rewrite Hx. cbn.
  unfold do_destroy. destruct Hk as [-> | ->]; cbn; rewrite Hs; cbn; unfold IoDeleteDevice; by rewrite Hd.
Qed.

Lemma do_add_device_spec w p parent : world_ok w -> is_Some (dev w !! p) ->
  exists st w', do_add_device device_top w p parent = Some (st, w') /\ pool w' = pool w /\ fewer_answers w w' /\
    (st = STATUS_SUCCESS /\ filter_added w w' p parent \/
     st <> STATUS_SUCCESS /\ unchanged w w' /\
       ~ (on_create (answer w) = [] /\ on_handle (answer w) = [] /\ is_Some (device_top (attached w) p))).
Proof.
  intros Hw [pd Hp]. unfold do_add_device, IoCreateDevice, answer_create.
  destruct (next (on_create (answer w))) as [b l] eqn:Hn.
  assert (on_create (answer w) = [] -> l = [] /\ b = true) as Hnil.
  { intros He. rewrite He in Hn. by injection Hn as <- <-. }
  destruct b; cbn -[fresh].
  2: { do 2 eexists. split; [done|]. split; [done|]. split; [split; [done|]; intros He _; by destruct (Hnil He)|]. right.
       split; [done|]. split; [done|]. intros (He & _). by destruct (Hnil He). }
  set (o := fresh (dom (dev w) ∪ dom (attached w))).
  assert (dev w !! o = None /\ attached w !! o = None) as [Ho Hao].
  { pose proof (is_fresh (dom (dev w) ∪ dom (attached w))) as Hf. fold o in Hf. rewrite not_elem_of_union, !not_elem_of_dom in Hf. done. }
  assert (o <> p) as Hop by congruence.
  unfold set_ext. cbn. rewrite lookup_insert_eq. cbn. rewrite insert_insert_eq.
  unfold IoAttachDeviceToDeviceStack. cbn -[fresh]. rewrite (lookup_insert_ne _ o p) by done. rewrite Hp. cbn -[fresh].
  destruct (device_top (attached w) p) as [t|] eqn:Ht; cbn -[fresh].
  2: { erewrite destroy_unattached; cbn; [|apply lookup_insert_eq|done|done|done|destruct parent; [by right|by left]].
       do 2 eexists. split; [done|]. split; [done|]. split; [split; [done|]; intros He Hh; by destruct (Hnil He) as [-> _]|].
       right. split; [done|]. split; [|by intros (_ & _ & [? ?])]. unfold unchanged. cbn. by rewrite delete_insert_eq, delete_id. }
  destruct (device_top_law _ _ _ Ht) as [Hat Htd].
  assert (is_Some (dev w !! t)) as [td Htd'].
  { destruct Htd as [->|[s Hs]]; [by exists pd|by apply (ok_range _ Hw s)]. }
  assert (o <> t) as Hot by congruence.
  unfold copy_flags. rewrite lookup_insert_eq. cbn -[fresh]. rewrite insert_insert_eq, (lookup_insert_ne _ o t) by done. rewrite Htd'. cbn -[fresh].
  rewrite lookup_insert_eq. cbn -[fresh]. rewrite insert_insert_eq.
  destruct parent as [par|]; cbn -[fresh].
  - unfold USBD_CreateHandle, answer_handle. destruct (next (on_handle (answer w))) as [b2 l2] eqn:Hn2. cbn -[fresh]. rewrite Hn2.
    assert (on_handle (answer w) = [] -> l2 = [] /\ b2 = true) as Hnil2.
    { intros He. rewrite He in Hn2. by injection Hn2 as <- <-. }
    destruct b2; cbn -[fresh].
    + unfold clear_initializing. rewrite lookup_insert_eq. cbn -[fresh]. rewrite insert_insert_eq, lookup_insert_eq. cbn -[fresh]. rewrite insert_insert_eq.
      do 2 eexists. split; [done|]. split; [done|]. split; [split; [done|]; intros He Hh; by destruct (Hnil He) as [-> _], (Hnil2 Hh) as [-> _]|].
      left. split; [done|]. eexists o, _, _, t, td. do 6 (split; [done|]). do 2 (split; [done|]).
      split; [unfold initializing; cbn -[Z.land Z.ldiff Z.lor]; by rewrite cleared_initializing|]. do 3 (split; [done|]).
      eexists. split; [done|]. split; [apply is_fresh|done].
    + erewrite destroy_spec; cbn; [|apply lookup_insert_eq|done|done|done|rewrite lookup_insert_eq; by eexists|done]. cbn.
      do 2 eexists. split; [done|]. split; [done|]. split; [split; [done|]; intros He Hh; by destruct (Hnil2 Hh) as [_ ?]|].
      right. split; [done|]. split; [|intros (_ & Hh & _); by destruct (Hnil2 Hh)]. unfold unchanged. cbn. by rewrite !delete_insert_id.
  - unfold clear_initializing. cbn -[fresh]. rewrite lookup_insert_eq. cbn -[fresh]. rewrite insert_insert_eq.
    do 2 eexists. split; [done|]. split; [done|]. split; [split; [done|]; intros He Hh; by destruct (Hnil He) as [-> _]|].
    left. split; [done|]. eexists o, _, _, t, td. do 6 (split; [done|]). do 2 (split; [done|]).
    split; [unfold initializing; cbn -[Z.land Z.ldiff Z.lor]; by rewrite cleared_initializing|]. by do 4 (split; [done|]).
Qed.

(** *** The invariant over the steps *)

Lemma world_ok_ext w w' : unchanged w w' -> pool w' = pool w -> world_ok w -> world_ok w'.
Proof. intros (Hd & Ha & Hh) Hp [H1 H2 H3 H5 H4]. constructor; rewrite ?Hd, ?Ha, ?Hh, ?Hp; done. Qed.

Lemma get_unchanged w w' o : unchanged w w' -> get_filter_ext w' o = get_filter_ext w o.
Proof. intros (Hd & _). unfold get_filter_ext. by rewrite Hd. Qed.

(** What is attached to a top is a new object. *)
Lemma attached_once_insert w t o : world_ok w -> dev w !! o = None ->
  forall t1 t2 u, <[t := o]> (attached w) !! t1 = Some u -> <[t := o]> (attached w) !! t2 = Some u -> t1 = t2.
Proof.
  intros Hw Ho t1 t2 u. assert (forall s, attached w !! s <> Some o) as Hn.
  { intros s Hs%(ok_range _ Hw). rewrite Ho in Hs. by destruct Hs. }
  destruct (decide (t = t1)) as [<-|H1], (decide (t = t2)) as [<-|H2]; rewrite ?lookup_insert_eq, ?lookup_insert_ne by done; try done.
  - intros [= <-] H. by destruct (Hn t2).
  - intros H [= <-]. by destruct (Hn t1).
  - apply (ok_once _ Hw).
Qed.

(** An object that is attached to the top of a stack leaves the FiDOs attached. *)
Lemma filter_ok_stack (a : gmap positive positive) t u o d x : a !! t = None -> filter_ok a o d x -> filter_ok (<[t := u]> a) o d x.
Proof.
  intros Ht [Hs Hp (t' & Hx & Ha) Hh Hi]. constructor; try done. exists t'. split; [done|].
  rewrite lookup_insert_ne; [done|]. intros ->. congruence.
Qed.

Lemma filter_added_ok w w' p parent : world_ok w -> pool w' = pool w -> filter_added w w' p parent -> world_ok w'.
Proof.
  intros [H1 H2 H3 H5 H4] Hpool (o & d & x & t & td & Ho & Hd & Hx & Ht & Htd & Ha & _ & _ & Hi & Hs & Hp & Hxt & Hk).
  assert (a_t : attached w !! t = None) by (by apply device_top_law in Ht as [? _]).
  constructor.
  - rewrite Hd. apply (owns_update_to _ _ (handles w)); [done| |].
    + intros h Hh. left. unfold ext_handle in Hh. cbn in Hh. rewrite Hx in Hh. cbn in Hh. destruct parent as [par|].
      * destruct Hk as (h' & Hk & Hf & _). rewrite Hk in Hh. by injection Hh as <-.
      * destruct Hk as [Hk _]. by rewrite Hk in Hh.
    + rewrite Ho. cbn. unfold ext_handle. rewrite Hx. cbn. destruct parent as [par|].
      * destruct Hk as (h' & -> & _ & ->). cbn. set_solver.
      * destruct Hk as [-> ->]. cbn. set_solver.
  - rewrite Hd, Hpool. apply owns_same; [done|]. rewrite Ho. cbn. unfold ext_previous. rewrite Hx. cbn. destruct parent as [par|].
    + destruct Hk as (h' & -> & _). done.
    + destruct Hk as [-> _]. done.
  - rewrite Ha, Hd. intros t' o'. destruct (decide (t = t')) as [<-|Hn].
    + rewrite lookup_insert_eq. intros [= <-]. rewrite lookup_insert_eq. by eexists.
    + rewrite lookup_insert_ne by done. intros Ho'. apply H3 in Ho'. rewrite lookup_insert_ne; [done|]. intros <-. by destruct Ho' as [? Ho'%eq_sym]; rewrite Ho in Ho'.
  - rewrite Ha. by apply attached_once_insert.
  - rewrite Ha, Hd. intros o' d' x' Hd' Hx'. destruct (decide (o = o')) as [<-|Hn].
    + rewrite lookup_insert_eq in Hd'. injection Hd' as <-. rewrite Hx in Hx'. injection Hx' as <-. constructor; try done.
      * exists t. by rewrite lookup_insert_eq.
      * destruct parent as [par|]; [destruct Hk as (h & -> & _)|destruct Hk as [-> _]]; done.
    + rewrite lookup_insert_ne in Hd' by done. apply filter_ok_stack; [done|]. by apply H4.
Qed.

(** Its FiDOs. *)
Lemma filter_added_filters w w' p parent : filter_added w w' p parent ->
  exists o x, get_filter_ext w o = None /\ pdo x = Some p /\ is_hub x = bool_decide (parent = None) /\
    (parent = None -> kind x = Hub None) /\
    (forall p', is_Some (dev w !! p') -> is_Some (dev w' !! p')) /\
    forall o', get_filter_ext w' o' = if decide (o' = o) then Some x else get_filter_ext w o'.
Proof.
  intros (o & d & x & t & td & Ho & Hd & Hx & _ & _ & _ & _ & _ & _ & Hs & Hp & _ & Hk). exists o, x. unfold get_filter_ext.
  split; [by rewrite Ho|]. split; [done|]. split; [|split; [|split]].
  - unfold is_hub. destruct parent as [par|]; [destruct Hk as (h & -> & _)|destruct Hk as [-> _]]; done.
  - intros ->. apply Hk.
  - intros p' Hp'. rewrite Hd. destruct (decide (o = p')) as [<-|]; [rewrite lookup_insert_eq; by eexists|by rewrite lookup_insert_ne].
  - intros o'. rewrite Hd. case_decide as Hd'; [subst o'; by rewrite lookup_insert_eq|by rewrite lookup_insert_ne].
Qed.

(** At most one FiDO for each PDO. *)
Definition one_filter (w : world) : Prop :=
  forall o1 o2 x1 x2 p, get_filter_ext w o1 = Some x1 -> get_filter_ext w o2 = Some x2 -> pdo x1 = Some p -> pdo x2 = Some p -> o1 = o2.

Lemma one_filter_added w w' p parent : filter_added w w' p parent -> one_filter w -> unfiltered w p -> one_filter w'.
Proof.
  intros Ha H1 Hu. destruct (filter_added_filters _ _ _ _ Ha) as (o & x & _ & Hx & _ & _ & _ & Hg). intros o1 o2 x1 x2 q. rewrite !Hg.
  repeat case_decide; subst; try done; intros G1 G2 P1 P2.
  - injection G1 as <-. rewrite Hx in P1. injection P1 as <-. by destruct (Hu _ _ G2).
  - injection G2 as <-. rewrite Hx in P2. injection P2 as <-. by destruct (Hu _ _ G1).
  - by apply (H1 _ _ x1 x2 q).
Qed.

Definition nothing_fails (w : world) : Prop :=
  on_create (answer w) = [] /\ on_handle (answer w) = [] /\ forall a p, is_Some (device_top a p).

Lemma nothing_fails_step w w' : fewer_answers w w' -> nothing_fails w -> nothing_fails w'.
Proof. intros [_ H] (Hc & Hh & Ht). by destruct (H Hc Hh). Qed.

(** What the loop over the children [r] of a hub does, where [pl] are the previous ones. *)
Record children_added (w w' : world) (pl r : list positive) : Prop := {
  ca_ok : world_ok w';
  ca_pool : pool w' = pool w;
  ca_answers : fewer_answers w w';
  ca_dev p : is_Some (dev w !! p) -> is_Some (dev w' !! p);
  ca_old o x : get_filter_ext w o = Some x -> get_filter_ext w' o = Some x;
  ca_new o x : get_filter_ext w' o = Some x ->
    get_filter_ext w o = Some x \/ is_hub x = false /\ exists p, pdo x = Some p /\ p ∈ r /\ p ∉ pl;
  ca_one : NoDup r -> one_filter w -> (forall p, p ∈ r -> p ∉ pl -> unfiltered w p) -> one_filter w';
  ca_all : nothing_fails w -> forall p, p ∈ r -> p ∉ pl ->
    exists o x, get_filter_ext w' o = Some x /\ get_filter_ext w o = None /\ pdo x = Some p /\ is_hub x = false }.

Lemma relations_contain_spec r p : relations_contain r p = bool_decide (p ∈ r).
Proof.
  unfold relations_contain. apply eq_bool_prop_intro. rewrite bool_decide_spec. split.
  - intros H%Is_true_true. apply existsb_exists in H as (q & Hq & He). apply Pos.eqb_eq in He as ->. by apply list_elem_of_In.
  - intros H. apply Is_true_true, existsb_exists. exists p. split; [by apply list_elem_of_In|apply Pos.eqb_refl].
Qed.

Lemma children_added_nil w pl : world_ok w -> children_added w w pl [].
Proof. intros Hw. constructor; try done; try (intros; set_solver). Qed.

Lemma children_added_skip w w' pl p r : p ∈ pl -> children_added w w' pl r -> children_added w w' pl (p :: r).
Proof.
  intros Hp [H1 H2 H3 H4 H5 H6 H7 H8]. constructor; try done.
  - intros o x Hx. destruct (H6 o x Hx) as [?|(Hh & q & Hq & Hr & Hn)]; [by left|]. right. split; [done|]. exists q. set_solver.
  - intros [_ Hr]%list.NoDup_cons H1f Hu. apply H7; [done|done|]. intros q Hq. apply Hu. set_solver.
  - intros Hf q Hq Hn. apply H8; [done| |done]. set_solver.
Qed.

(** The first child gets a FiDO, or creating it fails. *)
Lemma children_added_cons w w1 w2 pl p r o : p ∉ pl -> pool w1 = pool w -> fewer_answers w w1 ->
  filter_added w w1 p (Some o) \/ unchanged w w1 /\ ~ nothing_fails w -> children_added w1 w2 pl r -> children_added w w2 pl (p :: r).
Proof.
  intros Hp Hpool Hans Hst [H1 H2 H3 H4 H5 H6 H7 H8].
  assert (forall o x, get_filter_ext w o = Some x -> get_filter_ext w1 o = Some x) as Hold.
  { intros o' x Hx. destruct Hst as [Ha|[Hu _]]; [|by rewrite (get_unchanged _ _ _ Hu)].
    destruct (filter_added_filters _ _ _ _ Ha) as (f & y & Hn & _ & _ & _ & _ & Hg). rewrite Hg. case_decide; [congruence|done]. }
  constructor.
  - done.
  - congruence.
  - by apply (fewer_answers_trans _ w1).
  - intros q Hq. apply H4. destruct Hst as [Ha|[(-> & _) _]]; [|done].
    destruct (filter_added_filters _ _ _ _ Ha) as (f & y & _ & _ & _ & _ & Hd & _). by apply Hd.
  - intros o' x Hx. by apply H5, Hold.
  - intros o' x Hx. destruct (H6 o' x Hx) as [Hx1|(Hh & q & Hq & Hr & Hn)]; [|right; split; [done|]; exists q; set_solver].
    destruct Hst as [Ha|[Hu _]]; [|rewrite (get_unchanged _ _ _ Hu) in Hx1; by left].
    destruct (filter_added_filters _ _ _ _ Ha) as (f & y & _ & Hy & Hk & _ & _ & Hg). rewrite Hg in Hx1. case_decide; [|by left].
    injection Hx1 as <-. right. split; [done|]. exists p. set_solver.
  - intros [Hpr Hr]%list.NoDup_cons H1f Hu. destruct Hst as [Ha|[Hsame _]].
    + apply H7; [done|apply (one_filter_added _ _ _ _ Ha H1f), Hu; set_solver|]. intros q Hq Hn o' x.
      destruct (filter_added_filters _ _ _ _ Ha) as (f & y & _ & Hy & _ & _ & _ & Hg). rewrite Hg. case_decide.
      * intros [= <-]. rewrite Hy. intros [= ->]. done.
      * apply Hu; set_solver.
    + apply H7; [done| |].
      * intros o1 o2 x1 x2 q. rewrite !(get_unchanged _ _ _ Hsame). apply H1f.
      * intros q Hq Hn o' x. rewrite (get_unchanged _ _ _ Hsame). apply Hu; set_solver.
  - intros Hf q Hq Hn. destruct Hst as [Ha|[_ Hx]]; [|done]. apply elem_of_cons in Hq as [->|Hq].
    + destruct (filter_added_filters _ _ _ _ Ha) as (f & y & Hnf & Hy & Hk & _ & _ & Hg). exists f, y.
      split; [apply H5; rewrite Hg; by rewrite decide_True|done].
    + destruct (H8 (nothing_fails_step _ _ Hans Hf) q Hq Hn) as (f & y & Hg & Hnf & Hy). exists f, y. split; [done|].
      split; [|done]. destruct (get_filter_ext w f) as [z|] eqn:Hz; [|done]. by rewrite (Hold _ _ Hz) in Hnf.
Qed.

Lemma add_children_spec o previous pl r w : world_ok w -> previous_of w previous = Some pl -> (forall p, p ∈ r -> is_Some (dev w !! p)) ->
  exists w', add_children device_top w o previous r = Some w' /\ children_added w w' pl r.
Proof.
  revert w. induction r as [|p r IH]; intros w Hw Hpl Hr; [exists w; split; [done|by apply children_added_nil]|].
  cbn [add_children]. rewrite Hpl. cbn [mbind option_bind]. rewrite relations_contain_spec. case_bool_decide as Hp; cbn [mbind option_bind].
  - destruct (IH w Hw Hpl) as (w' & Ha & Hc); [set_solver|]. exists w'. split; [done|by apply children_added_skip].
  - destruct (do_add_device_spec w p (Some o) Hw) as (st & w1 & -> & Hpool & Hans & Hst); [apply Hr; set_solver|]. cbn [mbind option_bind].
    assert (world_ok w1) as Hw1.
    { destruct Hst as [[_ Ha]|(_ & Hu & _)]; [by apply (filter_added_ok w w1 p (Some o))|by apply (world_ok_ext w)]. }
    assert (forall q, q ∈ r -> is_Some (dev w1 !! q)) as Hr1.
    { intros q Hq. destruct Hst as [[_ Ha]|(_ & (-> & _) & _)]; [|apply Hr; set_solver].
      destruct (filter_added_filters _ _ _ _ Ha) as (f & y & _ & _ & _ & _ & Hd & _). apply Hd, Hr. set_solver. }
    destruct (IH w1 Hw1) as (w2 & Ha2 & Hc2); [|done|].
    { unfold previous_of in *. by rewrite Hpool. }
    exists w2. split; [done|]. apply (children_added_cons w w1 w2 pl p r o); try done.
    destruct Hst as [[_ Ha]|(_ & Hu & Hn)]; [by left|]. right. split; [done|]. intros (Hc & Hh & Ht). by apply Hn.
Qed.

Lemma filter_of w o f : world_ok w -> get_filter_ext w o = Some f ->
  exists d t, dev w !! o = Some d /\ DeviceExtension d = Some f /\ self f = Some o /\ target f = Some t /\ attached w !! t = Some o.
Proof.
  intros Hw (d & Hd & Hx)%get_filter_ext_Some. destruct (ok_filters _ Hw o d f Hd Hx) as [Hs _ (t & Ht & Ha) _ _]. by exists d, t.
Qed.

Lemma previous_owned w o f p : world_ok w -> get_filter_ext w o = Some f -> kind f = Hub (Some p) -> is_Some (pool w !! p).
Proof.
  intros Hw (d & Hd & Hx)%get_filter_ext_Some Hk. apply elem_of_dom, (owned_iff _ _ _ (ok_pool _ Hw)). exists o. rewrite Hd. cbn.
  unfold ext_previous. rewrite Hx. cbn. by rewrite Hk.
Qed.

Lemma previous_of_hub w o f prev : world_ok w -> get_filter_ext w o = Some f -> kind f = Hub prev -> exists pl, previous_of w prev = Some pl.
Proof.
  intros Hw Hg Hk. destruct prev as [p|]; [|by exists []]. destruct (previous_owned w o f p Hw Hg Hk) as [pl Hp]. by exists pl.
Qed.

(** The list of a hub is replaced. *)
Lemma hub_changed_ok w o d f prev prev' pl a : world_ok w -> dev w !! o = Some d -> DeviceExtension d = Some f -> kind f = Hub prev ->
  (forall q, prev' = Some q -> q ∉ dom (pool w)) -> dom pl = (dom (pool w) ∖ just prev) ∪ just prev' ->
  world_ok {| dev := <[o := with_ext d (Some (with_kind f (Hub prev')))]> (dev w); attached := attached w; handles := handles w; pool := pl; answer := a |}.
Proof.
  intros [H1 H2 H3 H5 H4] Hd Hf Hk Hq Hp. constructor; cbn.
  - apply owns_same; [done|]. rewrite Hd. cbn. unfold ext_handle. cbn. by rewrite Hf; cbn; rewrite Hk.
  - apply (owns_update_to _ _ (dom (pool w))); [done| |].
    + intros h Hh. unfold ext_previous in Hh. cbn in Hh. left. by apply Hq.
    + rewrite Hd. cbn. unfold ext_previous. rewrite Hf. cbn. by rewrite Hk.
  - intros t u Hu%H3. destruct (decide (o = u)) as [<-|]; [rewrite lookup_insert_eq; by eexists|by rewrite lookup_insert_ne].
  - done.
  - intros o' d' x' Hd' Hx'. destruct (decide (o = o')) as [<-|Hn]; [|rewrite lookup_insert_ne in Hd' by done; by apply H4].
    rewrite lookup_insert_eq in Hd'. injection Hd' as <-. cbn in Hx'. injection Hx' as <-. by destruct (H4 o d f Hd Hf).
Qed.

(** Another hub keeps its list when arrays that it does not own are freed and allocated. *)
Lemma other_previous w o1 o2 f1 f2 p1 p2 : world_ok w -> get_filter_ext w o1 = Some f1 -> get_filter_ext w o2 = Some f2 ->
  kind f1 = Hub (Some p1) -> kind f2 = Hub (Some p2) -> p1 = p2 -> o1 = o2.
Proof.
  intros Hw (d1 & Hd1 & Hx1)%get_filter_ext_Some (d2 & Hd2 & Hx2)%get_filter_ext_Some K1 K2 <-.
  apply (owned_once _ _ _ (ok_pool _ Hw) _ _ p1); [rewrite Hd1|rewrite Hd2]; cbn; unfold ext_previous;
    [rewrite Hx1|rewrite Hx2]; cbn; [by rewrite K1|by rewrite K2].
Qed.

(** *** Relations *)

(** [w'] is [w] after the hub [o] got the list [prev'] for [prev]. *)
Record list_replaced (w w' : world) (o : positive) (f : filter_ext) (prev' : option positive) : Prop := {
  lr_ok : world_ok w';
  lr_get o' : get_filter_ext w' o' = if decide (o' = o) then Some (with_kind f (Hub prev')) else get_filter_ext w o';
  lr_others o' x p : o' <> o -> get_filter_ext w o' = Some x -> kind x = Hub p -> previous_of w' p = previous_of w p }.

Lemma list_replaced_spec w o d f prev prev' (r : list positive) : world_ok w -> dev w !! o = Some d -> DeviceExtension d = Some f -> kind f = Hub prev ->
  (forall q, prev' = Some q -> q ∉ dom (pool w)) ->
  let w1 := with_pool w (match prev' with Some q => <[q := r]> (pool w) | None => pool w end) in
  exists w', (w ← set_ext w1 o (with_kind f (Hub prev')); pool_free w prev) = Some w' /\ list_replaced w w' o f prev' /\
    answer w' = answer w /\ previous_of w' prev' = Some (match prev' with Some _ => r | None => [] end).
Proof.
  intros Hw Hd Hf Hk Hq w1. unfold set_ext. cbn [dev with_pool w1]. rewrite Hd. cbn [mbind option_bind]. rewrite Hf. cbn [mbind option_bind].
  assert (get_filter_ext w o = Some f) as Hg by (apply get_filter_ext_Some; by exists d).
  set (pl := match prev' with Some q => <[q := r]> (pool w) | None => pool w end) in *.
  set (pl' := match prev with Some p => delete p pl | None => pl end).
  exists {| dev := <[o := with_ext d (Some (with_kind f (Hub prev')))]> (dev w); attached := attached w; handles := handles w; pool := pl'; answer := answer w |}.
  assert (forall p, prev = Some p -> is_Some (pool w !! p)) as Hprev.
  { intros p ->. by apply (previous_owned w o f). }
  assert (forall p q, prev = Some p -> prev' = Some q -> p <> q) as Hne.
  { intros p q Hp Hq' ->. apply (Hq q Hq'). apply elem_of_dom. by apply Hprev. }
  split; [|split; [constructor|split; [done|]]].
  - destruct prev as [p|]; [|done]. cbn. destruct (Hprev p eq_refl) as [x Hx].
    assert (pl !! p = Some x) as ->; [|done]. subst pl. destruct prev' as [q|]; [|done]. rewrite lookup_insert_ne; [done|]. intros ->. by apply (Hne p p).
  - apply (hub_changed_ok w o d f prev prev'); try done. subst pl' pl. apply leibniz_equiv. intros x.
    destruct prev as [p|], prev' as [q|]; cbn; rewrite ?dom_delete, ?dom_insert; set_solver.
  - intros o'. unfold get_filter_ext. cbn. case_decide as Ho; [subst o'; by rewrite lookup_insert_eq|by rewrite lookup_insert_ne].
  - intros o' x p Ho Hx Hk'. destruct p as [p|]; [|done]. cbn. destruct (previous_owned w o' x p Hw Hx Hk') as [y Hy].
    assert (pl !! p = pool w !! p) as Hpl.
    { subst pl. destruct prev' as [q|]; [|done]. rewrite lookup_insert_ne; [done|]. intros <-. apply (Hq q eq_refl), elem_of_dom. by eexists. }
    subst pl'. destruct prev as [p0|]; [|done]. rewrite lookup_delete_ne; [done|]. intros ->.
    apply Ho. symmetry. by apply (other_previous w o o' f x p p).
  - destruct prev' as [q|]; [|done]. cbn. subst pl' pl. destruct prev as [p|]; [rewrite lookup_delete_ne by (by apply Hne)|]; apply lookup_insert_eq.
Qed.

Lemma clone_spec w r : exists b l, next (on_pool (answer w)) = (b, l) /\
  clone w r = Some (if b then let p := fresh (dom (pool w)) in (Some p, with_pool (with_answer w
     {| on_create := on_create (answer w); on_handle := on_handle (answer w); on_pool := l; on_name := on_name (answer w) |}) (<[p := r]> (pool w)))
   else (None, with_answer w
     {| on_create := on_create (answer w); on_handle := on_handle (answer w); on_pool := l; on_name := on_name (answer w) |})).
Proof.
  destruct (next (on_pool (answer w))) as [b l] eqn:Hn. exists b, l. split; [done|]. unfold clone, answer_pool. rewrite Hn.
  assert ((SizeOf_DEVICE_RELATIONS (length r) <? 8 + 8 * length r)%nat = false) as ->.
  { apply Nat.ltb_ge. unfold SizeOf_DEVICE_RELATIONS. case_bool_decide; lia. }
  by destruct b.
Qed.

Lemma list_replaced_answer w a w' o f prev' : list_replaced (with_answer w a) w' o f prev' -> list_replaced w w' o f prev'.
Proof. by intros []. Qed.

Lemma update_relations_spec w o f prev pl r : world_ok w -> get_filter_ext w o = Some f -> kind f = Hub prev -> previous_of w prev = Some pl ->
  (forall p, p ∈ r -> is_Some (dev w !! p)) ->
  exists w1 w', children_added w w1 pl r /\ update_relations device_top w o r = Some w' /\ (on_pool (answer w) = [] -> on_pool (answer w') = []) /\
    ((exists prev', list_replaced w1 w' o f prev' /\ previous_of w' prev' = Some r) \/
     (on_pool (answer w) <> [] /\ unchanged w1 w' /\ pool w' = pool w1)).
Proof.
  intros Hw Hg Hk Hpl Hr. destruct (add_children_spec o prev pl r w Hw Hpl Hr) as (w1 & Ha & Hc). exists w1.
  pose proof (ca_old _ _ _ _ Hc o f Hg) as Hg1. pose proof (ca_ok _ _ _ _ Hc) as Hw1. destruct (ca_answers _ _ _ _ Hc) as [Hans _].
  apply get_filter_ext_Some in Hg1 as (d & Hd & Hf). unfold update_relations. rewrite Hg. cbn [mbind option_bind]. rewrite Hk, Ha. cbn [mbind option_bind].
  destruct r as [|p r].
  - destruct (list_replaced_spec w1 o d f prev None [] Hw1 Hd Hf Hk) as (w' & He & Hl & Hans' & Hp'); [done|].
    exists w'. split; [done|]. split; [by destruct w1|]. split; [by rewrite Hans', Hans|]. left. by exists None.
  - destruct (clone_spec w1 (p :: r)) as (b & l & Hn & ->). cbn [mbind option_bind]. set (a := {| on_create := _; on_handle := _; on_pool := l; on_name := _ |}).
    destruct b.
    + set (q := fresh (dom (pool w1))).
      destruct (list_replaced_spec (with_answer w1 a) o d f prev (Some q) (p :: r)) as (w' & He & Hl & Hans' & Hp'); try done.
      { by apply (world_ok_ext w1). }
      { intros q' [= <-]. apply is_fresh. }
      exists w'. split; [done|]. split; [exact He|]. split.
      { intros Hnil. rewrite <- Hans in Hnil. rewrite Hnil in Hn. rewrite Hans'. cbn. by injection Hn. }
      left. exists (Some q). split; [by apply (list_replaced_answer w1 a)|done].
    + exists (with_answer w1 a). split; [done|]. split; [done|].
      assert (on_pool (answer w) <> []) as Hne by (intros Hx; rewrite <- Hans in Hx; by rewrite Hx in Hn).
      split; [done|]. right. by split.
Qed.

(** *** Removal *)

(** The FiDO [o] is gone. *)
Lemma filter_removed_ok w o d f t pl a : world_ok w -> dev w !! o = Some d -> DeviceExtension d = Some f -> target f = Some t ->
  dom pl = dom (pool w) ∖ just (ext_previous d) ->
  world_ok {| dev := delete o (dev w); attached := delete t (attached w); handles := handles w ∖ just (ext_handle d); pool := pl; answer := a |}.
Proof.
  intros Hw Hd Hf Ht Hpl. pose proof Hw as [H1 H2 H3 H5 H4]. destruct (H4 o d f Hd Hf) as [_ _ (t' & Ht' & Ha) _ _].
  rewrite Ht in Ht'. injection Ht' as <-. constructor; cbn.
  - apply (owns_update_to _ _ (handles w)); [done|done|]. rewrite Hd. cbn. set_solver.
  - apply (owns_update_to _ _ (dom (pool w))); [done|done|]. rewrite Hd. cbn. set_solver.
  - intros t1 u. rewrite lookup_delete_Some. intros [Hn Hu]. rewrite lookup_delete_ne; [by apply (H3 t1)|].
    intros <-. apply Hn. by apply (H5 t t1 o).
  - intros t1 t2 u. rewrite !lookup_delete_Some. intros [_ E1] [_ E2]. by apply (H5 t1 t2 u).
  - intros o' d' x'. rewrite lookup_delete_Some. intros [Hn Hd'] Hx'. destruct (H4 o' d' x' Hd' Hx') as [Fs Fp (t1 & F1 & F2) Fh Fi].
    constructor; try done. exists t1. split; [done|]. rewrite lookup_delete_ne; [done|]. intros <-. congruence.
Qed.

Lemma remove_device_spec w o f i : world_ok w -> get_filter_ext w o = Some f -> exists d t w',
  remove_device w o f i = Some (lower i, match kind f with Device (Some h) => [CloseHandle h] | _ => [] end ++ [Forward t; DestroyFilter o], w') /\
  dev w !! o = Some d /\ target f = Some t /\ world_ok w' /\ dev w' = delete o (dev w) /\ answer w' = answer w /\
  pool w' = (match kind f with Hub (Some p) => delete p (pool w) | _ => pool w end).
Proof.
  intros Hw Hg. destruct (filter_of w o f Hw Hg) as (d & t & Hd & Hf & Hs & Ht & Ha). exists d, t.
  destruct (ok_filters _ Hw o d f Hd Hf) as [_ _ _ Hh _]. unfold remove_device, forward_irp. destruct (kind f) as [p|[h|]] eqn:Hk; [| |done].
  - assert (forall p', p = Some p' -> is_Some (pool w !! p')) as Hp by (intros p' ->; by apply (previous_owned w o f)).
    cbn [mbind option_bind]. rewrite Ht. cbn [mbind option_bind].
    erewrite destroy_spec; [|done|done|done|done|by eexists|]; [|rewrite Hk; destruct p; by auto]. rewrite Hk. cbn [mbind option_bind].
    eexists. do 3 (split; [done|]). split; [|by do 2 (split; [done|])].
    assert (handles w = handles w ∖ just (ext_handle d)) as E.
    { unfold ext_handle. rewrite Hf. cbn. rewrite Hk. cbn. set_solver. }
    rewrite E. apply (filter_removed_ok w o d f t); try done. unfold ext_previous. rewrite Hf. cbn. rewrite Hk. destruct p as [p|]; cbn; [apply leibniz_equiv; by rewrite dom_delete|set_solver].
  - assert (h ∈ handles w) as Hin.
    { apply (owned_iff _ _ _ (ok_handles _ Hw)). exists o. rewrite Hd. cbn. unfold ext_handle. rewrite Hf. cbn. by rewrite Hk. }
    unfold USBD_CloseHandle. rewrite decide_True by done. cbn [mbind option_bind]. unfold set_ext. cbn [dev with_handles]. rewrite Hd.
    cbn [mbind option_bind]. rewrite Hf. cbn [mbind option_bind]. rewrite Ht. cbn [mbind option_bind].
    erewrite destroy_spec; cbn; [|apply lookup_insert_eq|done|done|done|by eexists|done]. rewrite delete_insert_eq.
    eexists. do 3 (split; [done|]). split; [|by do 2 (split; [done|])].
    assert (handles w ∖ {[h]} = handles w ∖ just (ext_handle d)) as E.
    { unfold ext_handle. rewrite Hf. cbn. by rewrite Hk. }
    cbn. rewrite E. apply (filter_removed_ok w o d f t); try done. unfold ext_previous. rewrite Hf. cbn. rewrite Hk. cbn. set_solver.
Qed.

(** *** Objects of other drivers *)

Definition not_ours (v : option device_object) : Prop := v ≫= DeviceExtension = None.

Lemma foreign_not_ours w o : foreign w o -> not_ours (dev w !! o).
Proof. intros (d & -> & Hd). exact Hd. Qed.

Lemma owns_foreign D S o v (own : device_object -> option positive) : (forall d, DeviceExtension d = None -> own d = None) ->
  owns own D S -> not_ours (D !! o) -> not_ours v -> owns own (partial_alter (fun _ => v) o D) S.
Proof.
  unfold not_ours. intros Hown H Ho Hv. apply owns_same; [done|].
  destruct v as [d|], (D !! o) as [d'|]; cbn in *; by rewrite ?Hown.
Qed.

Lemma foreign_changed w v o a : world_ok w -> not_ours (dev w !! o) -> not_ours v ->
  (forall t u, a !! t = Some u -> is_Some (partial_alter (fun _ => v) o (dev w) !! u)) ->
  (forall t1 t2 u, a !! t1 = Some u -> a !! t2 = Some u -> t1 = t2) ->
  (forall t u, attached w !! t = Some u -> not_ours (dev w !! u) \/ a !! t = Some u) ->
  world_ok (with_attached (with_dev w (partial_alter (fun _ => v) o (dev w))) a).
Proof.
  intros [H1 H2 H3 H5 H4] Ho Hv Ha1 Ha2 Ha3.
  constructor; cbn -[partial_alter].
  - apply owns_foreign; try done. intros d Hd. unfold ext_handle. by rewrite Hd.
  - apply owns_foreign; try done. intros d Hd. unfold ext_previous. by rewrite Hd.
  - done.
  - done.
  - intros o' d x Hd Hx. destruct (decide (o = o')) as [<-|Hn].
    { rewrite lookup_partial_alter_eq in Hd. subst v. unfold not_ours in Hv. cbn in Hv. congruence. }
    rewrite lookup_partial_alter_ne in Hd by done. destruct (H4 o' d x Hd Hx) as [Fs Fp (t & F1 & F2) Fh Fi]. constructor; try done.
    exists t. split; [done|]. destruct (Ha3 t o' F2) as [Hno|]; [|done]. unfold not_ours in Hno. rewrite Hd in Hno. cbn in Hno. congruence.
Qed.

Lemma foreign_filters w v o a o' : not_ours (dev w !! o) -> not_ours v ->
  get_filter_ext (with_attached (with_dev w (partial_alter (fun _ => v) o (dev w))) a) o' = get_filter_ext w o'.
Proof.
  intros Ho Hv. unfold get_filter_ext. cbn -[partial_alter]. destruct (decide (o = o')) as [<-|Hn].
  - rewrite lookup_partial_alter_eq. by rewrite Ho.
  - by rewrite lookup_partial_alter_ne.
Qed.

Definition others_event (e : event) : bool := match e with AddDevice _ | Pnp _ _ => false | _ => true end.

Lemma others_event_ok w rep e : world_ok w -> enabled upcase w rep e -> others_event e = true ->
  exists w', exec upcase device_top w e = Some w' /\ world_ok w' /\ pool w' = pool w /\ answer w' = answer w /\
    forall o, get_filter_ext w' o = get_filter_ext w o.
Proof.
  intros Hw He Ho. assert (forall o, dev w !! o = None -> not_ours (dev w !! o)) as Hnone by (intros o ->; done).
  assert (forall d, DeviceExtension d = None -> not_ours (Some d)) as Hsome by done.
  destruct e as [p d|t o d|t o|p|p|o i]; cbn [enabled] in He; try done; cbn [exec].
  - destruct He as [[Hp _] Hd]. eexists. split; [done|].
    split; [|do 2 (split; [done|]); intros o; apply (foreign_filters w (Some d) p (attached w)); auto].
    apply (foreign_changed w (Some d) p (attached w)); auto; [|apply (ok_once _ Hw)].
    intros t u Hu%(ok_range _ Hw). destruct (decide (p = u)) as [<-|]; [rewrite lookup_partial_alter_eq; by eexists|by rewrite lookup_partial_alter_ne].
  - destruct He as ([Hp _] & Hd & Ht & Hat). eexists. split; [done|].
    split; [|do 2 (split; [done|]); intros o'; apply (foreign_filters w (Some d) o _); auto].
    apply (foreign_changed w (Some d) o (<[t := o]> (attached w))); auto.
    + intros t' u. destruct (decide (o = u)) as [<-|Hu]; [rewrite lookup_partial_alter_eq; by eexists|]. rewrite lookup_partial_alter_ne by done.
      destruct (decide (t = t')) as [<-|]; [rewrite lookup_insert_eq; congruence|]. rewrite lookup_insert_ne by done. apply (ok_range _ Hw).
    + by apply attached_once_insert.
    + intros t' u Hu. right. rewrite lookup_insert_ne; [done|]. congruence.
  - destruct He as [Ha Hf%foreign_not_ours]. eexists. split; [done|].
    split; [|do 2 (split; [done|]); intros o'; by apply (foreign_filters w None o _)].
    apply (foreign_changed w None o (delete t (attached w))); try done.
    + intros t' u [Hn Hu]%lookup_delete_Some. assert (o <> u) by (intros <-; apply Hn; by apply (ok_once _ Hw t t' o)).
      rewrite lookup_partial_alter_ne by done. by apply (ok_range _ Hw t').
    + intros t1 t2 u [_ E1]%lookup_delete_Some [_ E2]%lookup_delete_Some. by apply (ok_once _ Hw t1 t2 u).
    + intros t' u Hu. destruct (decide (t = t')) as [<-|]; [left; congruence|]. right. by rewrite lookup_delete_ne.
  - destruct He as [Hf%foreign_not_ours Ha]. eexists. split; [done|].
    split; [|do 2 (split; [done|]); intros o'; by apply (foreign_filters w None p (attached w))].
    apply (foreign_changed w None p (attached w)); try done; [|apply (ok_once _ Hw)|by right].
    intros t u Hu. rewrite lookup_partial_alter_ne; [by apply (ok_range _ Hw t)|]. intros <-. by apply (Ha t).
Qed.

(** *** AddDevice and the requests *)

Lemma driver_name_equal_spec w n e : exists b w1, driver_name_equal upcase w n e = (b, w1) /\ unchanged w w1 /\ pool w1 = pool w /\
  (on_pool (answer w) = [] -> on_pool (answer w1) = []) /\ (b = true -> equal_names upcase n e = true).
Proof.
  unfold driver_name_equal, answer_pool. destruct (next (on_pool (answer w))) as [b l] eqn:Hn.
  assert (on_pool (answer w) = [] -> l = []) as Hl by (intros E; rewrite E in Hn; by injection Hn as _ <-).
  destruct b; [|by do 2 eexists]. unfold answer_name. cbn. destruct (next (on_name (answer w))) as [b2 l2].
  do 2 eexists. do 4 (split; [done|]). by destruct b2.
Qed.

(** [w'] is [w] with a FiDO for the hub [p], or without. *)
Lemma add_device_spec w p d : world_ok w -> dev w !! p = Some d ->
  exists w1 w', add_device upcase device_top w p = Some (STATUS_SUCCESS, w') /\ world_ok w' /\ unchanged w w1 /\ pool w1 = pool w /\ pool w' = pool w1 /\
    (on_pool (answer w) = [] -> on_pool (answer w1) = [] /\ on_pool (answer w') = []) /\
    (unchanged w1 w' \/ filter_added w1 w' p None /\ equal_names upcase (DriverName d) driver_name = true).
Proof.
  intros Hw Hd. unfold add_device, is_above_vhci. rewrite Hd. cbn [mbind option_bind].
  destruct (driver_name_equal_spec w (DriverName d) driver_name) as (b & w1 & -> & Hu & Hp & Hans & Hb). exists w1.
  assert (world_ok w1) as Hw1 by (by apply (world_ok_ext w)). destruct b; [|exists w1; do 5 (split; [done|]); split; [auto|by left]].
  destruct (do_add_device_spec w1 p None Hw1) as (st & w' & -> & Hpool & [Ha _] & Hst); [by rewrite (proj1 Hu), Hd; eexists|].
  exists w'. split; [done|]. split; [|do 3 (split; [done|]); split; [rewrite Ha; auto|]].
  - destruct Hst as [[_ Hf]|(_ & Hx & _)]; [by apply (filter_added_ok w1 w' p None)|by apply (world_ok_ext w1)].
  - destruct Hst as [[_ Hf]|(_ & Hx & _)]; [right; by auto|by left].
Qed.

(** The requests that change neither objects nor memory. *)
Definition quiet (f : filter_ext) (i : irp) : bool :=
  match minor i with
  | REMOVE_DEVICE => false
  | QUERY_DEVICE_RELATIONS true (Some _) => negb (is_hub f && can_forward i && NT_SUCCESS (lower i))
  | _ => true
  end.

(** The order in which requests are forwarded, completed and their resources released. *)
Definition request_outcome (f : filter_ext) (t : positive) (i : irp) (st : ntstatus) (acts : list irp_action) : Prop :=
  let sync b := st = (if can_forward i then lower i else STATUS_NO_MORE_ENTRIES) /\
    acts = (if can_forward i then [ForwardSync t] else []) ++ [CompleteIrp st b] in
  let forward := st = lower i /\ acts = [Forward t] in
  match minor i with
  | START_DEVICE => sync None
  | REMOVE_DEVICE => exists o, st = lower i /\
      acts = (match kind f with Device (Some h) => [CloseHandle h] | _ => [] end) ++ [Forward t; DestroyFilter o]
  | QUERY_DEVICE_RELATIONS bus _ => if is_hub f && bus then sync None else forward
  | QUERY_INTERFACE b =>
      if is_hub f then forward
      else sync (Some match b with
                      | Usbdi r => if NT_ERROR (if can_forward i then lower i else STATUS_NO_MORE_ENTRIES) then b else Usbdi (substitute_bus_time r)
                      | OtherInterface => b
                      end)
  | OTHER_MINOR => forward
  end.

Lemma forward_sync_spec f t i : target f = Some t ->
  forward_irp_synchronously f i = Some (if can_forward i then lower i else STATUS_NO_MORE_ENTRIES, if can_forward i then [ForwardSync t] else []).
Proof. intros Ht. unfold forward_irp_synchronously. rewrite Ht. cbn. by destruct (can_forward i). Qed.

Lemma pnp_quiet w o f t i : get_filter_ext w o = Some f -> target f = Some t -> quiet f i = true ->
  exists st acts, pnp device_top w o i = Some (st, acts, w) /\ request_outcome f t i st acts.
Proof.
  intros Hg Ht Hq. unfold pnp, request_outcome, query_bus_relations, query_interface, forward_irp. rewrite Hg. cbn [mbind option_bind].
  rewrite (forward_sync_spec f t i Ht), Ht. cbn [mbind option_bind]. unfold quiet in Hq.
  destruct (minor i) as [| |bus r|b|]; cbn [mbind option_bind] in *.
  - do 2 eexists. by split.
  - done.
  - destruct bus; rewrite ?andb_true_r, ?andb_false_r; cbn [mbind option_bind]; [|do 2 eexists; by split].
    destruct (is_hub f); cbn [mbind option_bind]; [|do 2 eexists; by split]. cbn in Hq.
    destruct r as [r|]; [|destruct (NT_SUCCESS _); do 2 eexists; by split].
    destruct (can_forward i); cbn in *; [|do 2 eexists; by split]. destruct (NT_SUCCESS (lower i)); [done|]. do 2 eexists; by split.
  - destruct (is_hub f); cbn [negb mbind option_bind]; do 2 eexists; by split.
  - do 2 eexists; by split.
Qed.

(** The request with which a hub reports [r]. *)
Lemma pnp_relations w o f t i r : get_filter_ext w o = Some f -> target f = Some t -> minor i = QUERY_DEVICE_RELATIONS true (Some r) ->
  is_hub f && can_forward i && NT_SUCCESS (lower i) = true ->
  exists acts, pnp device_top w o i = (w' ← update_relations device_top w o r; Some (lower i, acts, w')) /\ request_outcome f t i (lower i) acts.
Proof.
  intros Hg Ht Hm [[Hh Hc]%andb_prop Hs]%andb_prop. unfold pnp, request_outcome, query_bus_relations. rewrite Hg. cbn [mbind option_bind].
  rewrite Hm, Hh, (forward_sync_spec f t i Ht), Hc. cbn [mbind option_bind andb]. rewrite Hs. cbn [mbind option_bind app].
  eexists. split; [|by split]. by destruct (update_relations device_top w o r).
Qed.

Lemma hub_kind f : is_hub f = true -> exists prev, kind f = Hub prev.
Proof. unfold is_hub. destruct (kind f) as [prev|]; [by exists prev|done]. Qed.

Lemma not_quiet f i : quiet f i = false -> minor i = REMOVE_DEVICE \/
  exists r, minor i = QUERY_DEVICE_RELATIONS true (Some r) /\ is_hub f && can_forward i && NT_SUCCESS (lower i) = true.
Proof.
  unfold quiet. destruct (minor i) as [| |[] [r|]|b|]; try done; [by left|]. intros H%negb_false_iff. right. by exists r.
Qed.

(** Every request is handled, from a consistent state to another. *)
Lemma pnp_ok w rep o i : world_ok w -> enabled upcase w rep (Pnp o i) -> exists f t st acts w',
  get_filter_ext w o = Some f /\ target f = Some t /\ pnp device_top w o i = Some (st, acts, w') /\ world_ok w' /\ request_outcome f t i st acts.
Proof.
  intros Hw (f & Hg & He). destruct (filter_of w o f Hw Hg) as (d & t & Hd & Hf & Hs & Ht & Ha). exists f, t.
  destruct (quiet f i) eqn:Hq.
  { destruct (pnp_quiet w o f t i Hg Ht Hq) as (st & acts & Hp & Ho). by exists st, acts, w. }
  destruct (not_quiet f i Hq) as [Hm|(r & Hm & Hc)].
  - destruct (remove_device_spec w o f i Hw Hg) as (d' & t' & w' & Hr & _ & Ht' & Hw' & _). rewrite Ht in Ht'. injection Ht' as <-.
    eexists _, _, w'. do 2 (split; [done|]). unfold pnp. rewrite Hg. cbn [mbind option_bind]. rewrite Hm. split; [exact Hr|]. split; [done|].
    unfold request_outcome. rewrite Hm. by exists o.
  - rewrite Hm in He. pose proof Hc as [[Hh _]%andb_prop _]%andb_prop. destruct (He Hh) as [_ Hr]. destruct (hub_kind f Hh) as [prev Hk].
    destruct (previous_of_hub w o f prev Hw Hg Hk) as [pl Hpl].
    destruct (update_relations_spec w o f prev pl r Hw Hg Hk Hpl) as (w1 & w' & Hca & Hu & _ & Hl); [by intros p Hp; apply Hr|].
    destruct (pnp_relations w o f t i r Hg Ht Hm Hc) as (acts & Hp & Ho). rewrite Hu in Hp. cbn in Hp.
    exists (lower i), acts, w'. do 3 (split; [done|]). split; [|done].
    destruct Hl as [(prev' & Hl & _)|(_ & Hun & Hpool)]; [apply Hl|]. apply (world_ok_ext w1); [done|done|apply Hca].
Qed.

Lemma exec_total w rep e : world_ok w -> enabled upcase w rep e -> exists w', exec upcase device_top w e = Some w' /\ world_ok w'.
Proof.
  intros Hw He. destruct (others_event e) eqn:Hoth.
  { destruct (others_event_ok w rep e Hw He Hoth) as (w' & Hx & Hw' & _). by exists w'. }
  destruct e as [| | | |p|o i]; try done; cbn [exec].
  - destruct He as (d & Hd & _). destruct (add_device_spec w p d Hw Hd) as (w1 & w' & -> & Hw' & _). by exists w'.
  - destruct (pnp_ok w rep o i Hw He) as (f & t & st & acts & w' & _ & _ & -> & Hw' & _). by exists w'.
Qed.

Lemma start_world_ok a : world_ok (start a).
Proof.
  constructor; cbn; try done.
  - constructor; [|done]. intros h. split; [set_solver|]. by intros [o Ho].
  - constructor; [|done]. intros h. rewrite dom_empty_L. split; [set_solver|]. by intros [o Ho].
Qed.

Lemma reachable_ok a w rep : reachable upcase device_top a w rep -> world_ok w.
Proof. induction 1 as [|w rep e w' _ IH He Hx]; [apply start_world_ok|]. destruct (exec_total w rep e IH He) as (w1 & Hx1 & Hw1). congruence. Qed.

(** *** The children of the hubs *)

(** While no copy of the relations fails, the list of a hub is what it has reported last. *)
Record consistent (w : world) (rep : gmap positive (list positive)) : Prop := {
  c_one : one_filter w;
  c_previous o f prev : get_filter_ext w o = Some f -> kind f = Hub prev -> previous_of w prev = Some (default [] (rep !! o));
  c_hubs o : is_Some (rep !! o) -> exists f, get_filter_ext w o = Some f /\ is_hub f = true;
  c_pool : on_pool (answer w) = [] }.

Lemma consistent_same w w' rep : (forall o, get_filter_ext w' o = get_filter_ext w o) -> pool w' = pool w -> on_pool (answer w') = [] ->
  consistent w rep -> consistent w' rep.
Proof.
  intros Hg Hp Ha [H1 H2 H3 _]. constructor; [| | |done].
  - intros o1 o2 x1 x2 p. rewrite !Hg. apply H1.
  - intros o f prev. rewrite Hg. unfold previous_of. rewrite Hp. apply H2.
  - intros o Ho. rewrite Hg. by apply H3.
Qed.

Lemma unfiltered_same w w' p : (forall o, get_filter_ext w' o = get_filter_ext w o) -> unfiltered w p -> unfiltered w' p.
Proof. intros Hg Hu o x. rewrite Hg. apply Hu. Qed.

Lemma consistent_added w w' rep p : consistent w rep -> filter_added w w' p None -> pool w' = pool w -> on_pool (answer w') = [] ->
  unfiltered w p -> consistent w' rep.
Proof.
  intros [H1 H2 H3 _] Ha Hp Hans Hu. destruct (filter_added_filters _ _ _ _ Ha) as (o & x & Hn & Hx & Hh & Hk & _ & Hg).
  constructor; [by apply (one_filter_added _ _ _ _ Ha)| | |done].
  - intros o' f prev. rewrite Hg. unfold previous_of. rewrite Hp. case_decide as Ho; [|apply H2]. subst o'. intros [= <-]. rewrite (Hk eq_refl). intros [= <-].
    destruct (rep !! o) as [r|] eqn:Hr; [|done]. destruct (H3 o) as (f & Hf & _); [by rewrite Hr|]. congruence.
  - intros o' Ho'. destruct (H3 o' Ho') as (f & Hf & Hfh). exists f. rewrite Hg. case_decide; [congruence|done].
Qed.

Lemma consistent_removed w w' rep o f : world_ok w -> consistent w rep -> get_filter_ext w o = Some f ->
  dev w' = delete o (dev w) -> pool w' = (match kind f with Hub (Some p) => delete p (pool w) | _ => pool w end) -> answer w' = answer w ->
  consistent w' (delete o rep).
Proof.
  intros Hw [H1 H2 H3 H4] Hf Hd Hp Ha.
  assert (forall o' x, get_filter_ext w' o' = Some x -> get_filter_ext w o' = Some x /\ o' <> o) as Hg.
  { intros o' x. unfold get_filter_ext. rewrite Hd. destruct (decide (o = o')) as [<-|]; [by rewrite lookup_delete_eq|]. rewrite lookup_delete_ne by done. by split. }
  constructor; [| | |by rewrite Ha].
  - intros o1 o2 x1 x2 p [G1 _]%Hg [G2 _]%Hg. by apply (H1 o1 o2 x1 x2 p).
  - intros o' x prev [G Hn]%Hg Hk. rewrite lookup_delete_ne by done. rewrite <- (H2 o' x prev G Hk). destruct prev as [p|]; [|done]. cbn. rewrite Hp.
    destruct (kind f) as [[p0|]|] eqn:Hkf; cbn; try done. rewrite lookup_delete_ne; [done|]. intros ->. apply Hn.
    by apply (other_previous w o' o x f p p).
  - intros o'. destruct (decide (o = o')) as [<-|Hn]; [rewrite lookup_delete_eq; by intros []|]. rewrite lookup_delete_ne by done. intros Ho'.
    destruct (H3 o' Ho') as (x & Hx & Hxh). exists x. split; [|done]. unfold get_filter_ext. by rewrite Hd, lookup_delete_ne.
Qed.

Lemma consistent_reported w w1 w' rep o f prev' r : consistent w rep -> get_filter_ext w o = Some f -> is_hub f = true ->
  children_added w w1 (default [] (rep !! o)) r -> list_replaced w1 w' o f prev' -> previous_of w' prev' = Some r -> on_pool (answer w') = [] ->
  NoDup r -> (forall p, p ∈ r -> p ∉ default [] (rep !! o) -> unfiltered w p) -> consistent w' (<[o := r]> rep).
Proof.
  intros [H1 H2 H3 _] Hf Hh Hc [_ Hg Hother] Hprev Hans Hr Hu. pose proof (ca_old _ _ _ _ Hc) as Hold.
  pose proof (ca_one _ _ _ _ Hc Hr H1 Hu) as Hone. constructor; [| | |done].
  - intros o1 o2 x1 x2 p. rewrite !Hg.
    assert (forall o' x, (if decide (o' = o) then Some (with_kind f (Hub prev')) else get_filter_ext w1 o') = Some x ->
      exists y, get_filter_ext w1 o' = Some y /\ pdo y = pdo x) as Hx.
    { intros o' x. case_decide as Ho; [|by exists x]. intros [= <-]. subst o'. exists f. split; [by apply Hold|done]. }
    intros (y1 & G1 & E1)%Hx (y2 & G2 & E2)%Hx P1 P2. apply (Hone o1 o2 y1 y2 p); congruence.
  - intros o' x prev. rewrite Hg. case_decide as Ho.
    + subst o'. intros [= <-] [= <-]. by rewrite lookup_insert_eq.
    + intros G Hk. rewrite lookup_insert_ne by done. rewrite (Hother o' x prev Ho G Hk).
      destruct (ca_new _ _ _ _ Hc o' x G) as [Gw|(Hx & _)]; [|unfold is_hub in Hx; by rewrite Hk in Hx].
      unfold previous_of. rewrite (ca_pool _ _ _ _ Hc). by apply (H2 o' x prev).
  - intros o'. destruct (decide (o = o')) as [<-|Hn].
    + intros _. exists (with_kind f (Hub prev')). split; [rewrite Hg; by rewrite decide_True|done].
    + rewrite lookup_insert_ne by done. intros Ho'. destruct (H3 o' Ho') as (x & Hx & Hxh). exists x. split; [|done].
      rewrite Hg, decide_False by done. by apply Hold.
Qed.

Lemma quiet_reported w rep o f i : get_filter_ext w o = Some f -> quiet f i = true -> reported w rep (Pnp o i) = rep.
Proof.
  intros Hg Hq. unfold reported, quiet in *. destruct (minor i) as [| |[] [r|]|b|]; try done. rewrite Hg. cbn. apply negb_true_iff in Hq. by rewrite Hq.
Qed.

Lemma exec_consistent w rep e w' : world_ok w -> consistent w rep -> enabled upcase w rep e -> exec upcase device_top w e = Some w' ->
  consistent w' (reported w rep e).
Proof.
  intros Hw Hcon He Hx. destruct (others_event e) eqn:Hoth.
  { destruct (others_event_ok w rep e Hw He Hoth) as (w1 & Hx1 & _ & Hp & Ha & Hg). rewrite Hx in Hx1. injection Hx1 as <-.
    assert (reported w rep e = rep) as -> by (by destruct e). apply (consistent_same w); try done. rewrite Ha. by destruct Hcon. }
  destruct e as [| | | |p|o i]; try done; cbn [exec] in Hx.
  - destruct He as (d & Hd & Hun). destruct (add_device_spec w p d Hw Hd) as (w1 & w2 & Hadd & _ & Hu & Hp1 & Hp & Hans & Hst).
    rewrite Hadd in Hx. cbn in Hx. injection Hx as <-. cbn [reported]. destruct (Hans (c_pool _ _ Hcon)) as [Ha1 Ha2].
    assert (consistent w1 rep) as Hcon1 by (apply (consistent_same w); [intros o; by apply get_unchanged|done..]).
    destruct Hst as [Hs|[Hf Hn]].
    + apply (consistent_same w1); try done. intros o. by apply get_unchanged.
    + apply (consistent_added w1 w2 rep p); try done. apply (unfiltered_same w); [intros o; by apply get_unchanged|by apply Hun].
  - destruct He as (f & Hg & He). destruct (filter_of w o f Hw Hg) as (d & t & Hd & Hf & Hs & Ht & Ha).
    destruct (quiet f i) eqn:Hq.
    { destruct (pnp_quiet w o f t i Hg Ht Hq) as (st & acts & Hp & _). rewrite Hp in Hx. cbn in Hx. injection Hx as <-. by rewrite (quiet_reported w rep o f i). }
    destruct (not_quiet f i Hq) as [Hm|(r & Hm & Hc)].
    + destruct (remove_device_spec w o f i Hw Hg) as (d' & t' & w2 & Hr & _ & _ & _ & Hd2 & Ha2 & Hp2).
      unfold pnp in Hx. rewrite Hg in Hx. cbn [mbind option_bind] in Hx. rewrite Hm in Hx. rewrite Hr in Hx. cbn in Hx. injection Hx as <-.
      cbn [reported]. rewrite Hm. by apply (consistent_removed w _ rep o f).
    + rewrite Hm in He. pose proof Hc as [[Hh _]%andb_prop _]%andb_prop. destruct (He Hh) as [Hnd Hr]. destruct (hub_kind f Hh) as [prev Hk].
      destruct (update_relations_spec w o f prev (default [] (rep !! o)) r Hw Hg Hk) as (w1 & w2 & Hca & Hu & Hans & Hl);
        [by apply (c_previous _ _ Hcon o f)|by intros p Hp; apply Hr|].
      destruct (pnp_relations w o f t i r Hg Ht Hm Hc) as (acts & Hp & _). rewrite Hu in Hp. cbn in Hp. rewrite Hp in Hx. cbn in Hx. injection Hx as <-.
      cbn [reported]. rewrite Hm, Hg. cbn [from_option]. unfold id. rewrite Hc. destruct Hl as [(prev' & Hl & Hpr)|(Hne & _)]; [|by destruct Hne, Hcon].
      apply (consistent_reported w w1 w2 rep o f prev' r); try done; [apply Hans; by destruct Hcon|]. intros p Hp1 Hp2. by apply Hr.
Qed.

Lemma reachable_consistent a w rep : on_pool a = [] -> reachable upcase device_top a w rep -> world_ok w /\ consistent w rep.
Proof.
  intros Ha. induction 1 as [|w rep e w' _ [Hw Hc] He Hx].
  - split; [apply start_world_ok|]. by constructor; try done; intros o []; rewrite ?lookup_empty in *.
  - split; [|by apply (exec_consistent w rep e w')]. destruct (exec_total w rep e Hw He) as (w1 & Hx1 & Hw1). congruence.
Qed.

(** ** Claims *)

(** C29: in every sequence of what the other drivers and the PnP manager do, whichever calls fail, the driver
    uses no null or deleted object and frees nothing twice.  Every FiDO is attached above its target, initialized
    and, for a device, has an open USBD handle; every open handle and every copy of relations belongs to one FiDO,
    so when none is left nothing is leaked.  A request is forwarded once or completed once, with the
    status of the driver beneath; a handle is closed before the removal is forwarded, and the FiDO destroyed after. *)
Theorem filters_consistent a w rep : reachable upcase device_top a w rep ->
  (forall e, enabled upcase w rep e -> is_Some (exec upcase device_top w e)) /\
  (forall o i, enabled upcase w rep (Pnp o i) -> exists f t st acts w',
    get_filter_ext w o = Some f /\ target f = Some t /\ pnp device_top w o i = Some (st, acts, w') /\ request_outcome f t i st acts) /\
  (forall o d f, dev w !! o = Some d -> DeviceExtension d = Some f -> filter_ok (attached w) o d f) /\
  owns ext_handle (dev w) (handles w) /\ owns ext_previous (dev w) (dom (pool w)) /\
  ((forall o, get_filter_ext w o = None) -> handles w = ∅ /\ pool w = ∅).
Proof.
  intros Hr. pose proof (reachable_ok a w rep Hr) as Hw. split; [|split; [|split; [|split; [|split]]]].
  - intros e He. destruct (exec_total w rep e Hw He) as (w' & -> & _). by eexists.
  - intros o i He. destruct (pnp_ok w rep o i Hw He) as (f & t & st & acts & w' & ? & ? & ? & _ & ?). by exists f, t, st, acts, w'.
  - intros o d f. apply (ok_filters _ Hw).
  - apply Hw.
  - apply Hw.
  - intros Hn.
    assert (forall own : filter_ext -> option positive, forall o, dev w !! o ≫= (fun d => x ← DeviceExtension d; own x) = None) as Hnone.
    { intros own o. specialize (Hn o). unfold get_filter_ext in Hn. destruct (dev w !! o) as [d|]; [|done]. cbn in *. by rewrite Hn. }
    split; [apply (owns_none _ _ _ (ok_handles _ Hw)), Hnone|].
    apply dom_empty_inv_L, (owns_none _ _ _ (ok_pool _ Hw)), Hnone.
Qed.

(** C28: one FiDO for each child.  While copying relations does not fail, the list of a hub is what it has
    reported last, so no object ever has two FiDOs, however often it is reported; and a
    child that is new in a report gets one when no call fails.  A child that was in the report before and has lost its FiDO
    (it was removed and started again while the hub went on to report it) gets none, see removed_child_stays_unfiltered. *)
Theorem one_filter_per_child a w rep : on_pool a = [] -> reachable upcase device_top a w rep ->
  one_filter w /\
  (forall o f prev, get_filter_ext w o = Some f -> kind f = Hub prev -> previous_of w prev = Some (default [] (rep !! o))) /\
  (forall o f i r w', get_filter_ext w o = Some f -> is_hub f = true -> minor i = QUERY_DEVICE_RELATIONS true (Some r) ->
    can_forward i = true -> NT_SUCCESS (lower i) = true -> enabled upcase w rep (Pnp o i) -> nothing_fails w ->
    exec upcase device_top w (Pnp o i) = Some w' ->
    forall p, p ∈ r -> p ∉ default [] (rep !! o) ->
    exists o' x, get_filter_ext w' o' = Some x /\ get_filter_ext w o' = None /\ pdo x = Some p /\ is_hub x = false).
Proof.
  intros Ha Hr. destruct (reachable_consistent a w rep Ha Hr) as [Hw Hc]. split; [apply Hc|]. split; [apply Hc|].
  intros o f i r w' Hg Hh Hm Hfw Hst (f' & Hg' & He) Hf Hx p Hp Hn. rewrite Hg in Hg'. injection Hg' as <-. rewrite Hm in He. destruct (He Hh) as [_ Hlive].
  destruct (filter_of w o f Hw Hg) as (d & t & _ & _ & _ & Ht & _). destruct (hub_kind f Hh) as [prev Hk].
  destruct (update_relations_spec w o f prev _ r Hw Hg Hk (c_previous _ _ Hc o f prev Hg Hk)) as (w1 & w2 & Hca & Hu & _ & Hl); [by intros q Hq; apply Hlive|].
  destruct (pnp_relations w o f t i r Hg Ht Hm) as (acts & Hpnp & _); [by rewrite Hh, Hfw, Hst|]. rewrite Hu in Hpnp. cbn in Hpnp.
  cbn [exec] in Hx. rewrite Hpnp in Hx. cbn in Hx. injection Hx as <-.
  destruct (ca_all _ _ _ _ Hca Hf p Hp Hn) as (o' & x & Hx & Hxn & Hxp & Hxh). exists o', x. split; [|done].
  destruct Hl as [(prev' & Hl & _)|(_ & Hun & _)]; [|by rewrite (get_unchanged _ _ _ Hun)].
  rewrite (lr_get _ _ _ _ _ Hl), decide_False; [done|]. intros ->. congruence.
Qed.

(** A child whose FiDO is gone while the hub goes on to report it, as after it was disabled, gets none any more. *)
Lemma removed_child_stays_unfiltered a w rep o f i r w' p : on_pool a = [] -> reachable upcase device_top a w rep ->
  get_filter_ext w o = Some f -> enabled upcase w rep (Pnp o i) -> minor i = QUERY_DEVICE_RELATIONS true (Some r) -> is_hub f = true ->
  p ∈ default [] (rep !! o) -> unfiltered w p -> exec upcase device_top w (Pnp o i) = Some w' -> unfiltered w' p.
Proof.
  intros Ha Hr Hg (f' & Hg' & He) Hm Hh Hp Hun Hx. destruct (reachable_consistent a w rep Ha Hr) as [Hw Hc].
  rewrite Hg in Hg'. injection Hg' as <-. rewrite Hm in He. destruct (He Hh) as [_ Hlive].
  destruct (filter_of w o f Hw Hg) as (d & t & _ & _ & _ & Ht & _). destruct (hub_kind f Hh) as [prev Hk]. cbn [exec] in Hx.
  destruct (quiet f i) eqn:Hq.
  { destruct (pnp_quiet w o f t i Hg Ht Hq) as (st & acts & Hpnp & _). rewrite Hpnp in Hx. cbn in Hx. by injection Hx as <-. }
  destruct (not_quiet f i Hq) as [Hm'|(r' & Hm' & Hcond)]; rewrite Hm in Hm'; [done|]. injection Hm' as <-.
  destruct (update_relations_spec w o f prev _ r Hw Hg Hk (c_previous _ _ Hc o f prev Hg Hk)) as (w1 & w2 & Hca & Hu & _ & Hl); [by intros q Hq'; apply Hlive|].
  destruct (pnp_relations w o f t i r Hg Ht Hm Hcond) as (acts & Hpnp & _). rewrite Hu in Hpnp. cbn in Hpnp. rewrite Hpnp in Hx. cbn in Hx. injection Hx as <-.
  assert (unfiltered w1 p) as Hun1.
  { intros o' x Hx. destruct (ca_new _ _ _ _ Hca o' x Hx) as [Hx1|(_ & q & Hq1 & _ & Hq2)]; [by apply (Hun o')|]. rewrite Hq1. intros [= ->]. done. }
  intros o' x. destruct Hl as [(prev' & Hl & _)|(_ & Hsame & _)]; [|rewrite (get_unchanged _ _ _ Hsame); apply Hun1].
  rewrite (lr_get _ _ _ _ _ Hl). case_decide as Ho; [|apply Hun1]. intros [= <-]. cbn. by apply (Hun o f).
Qed.
End steps.

(** *** The bus interface *)

(** Of the versions there are, no function for the bus time fails after the query; a working one stays. *)
Lemma bus_time_substituted r : 0 <= Version r <= 3 ->
  let r' := substitute_bus_time r in
  Version r' = Version r /\ NT_ERROR (bus_status (QueryBusTime r')) = false /\
  (Version r = 3 -> NT_ERROR (bus_status (QueryBusTimeEx r')) = false) /\
  (NT_ERROR (bus_status (QueryBusTime r)) = false -> QueryBusTime r' = QueryBusTime r) /\
  (NT_ERROR (bus_status (QueryBusTimeEx r)) = false -> QueryBusTimeEx r' = QueryBusTimeEx r).
Proof.
  intros Hv. cbv zeta. assert (forall f, NT_ERROR (bus_status (substitute f)) = false) as Hs.
  { intros f. unfold substitute. by destruct (NT_ERROR (bus_status f)) eqn:E. }
  assert (forall f, NT_ERROR (bus_status f) = false -> substitute f = f) as Hk by (intros f E; unfold substitute; by rewrite E).
  unfold substitute_bus_time. destruct (Z.eqb_spec (Version r) 3) as [E|E]; cbn.
  - by repeat split; auto.
  - assert ((0 <=? Version r) && (Version r <=? 2) = true) as -> by lia. cbn. by repeat split; auto.
Qed.

(** ** Witnesses *)

Module Demo.
(** The top of a stack, by walking it. *)
Fixpoint walk (fuel : nat) (a : gmap positive positive) (p : positive) : option positive :=
  match fuel with O => None | S n => match a !! p with Some u => walk n a u | None => Some p end end.

Definition top (a : gmap positive positive) (p : positive) : option positive := walk (S (size a)) a p.

Lemma top_law a p t : top a p = Some t -> a !! t = None /\ (t = p \/ exists s, a !! s = Some t).
Proof.
  unfold top. generalize (S (size a)) as n. intros n. revert p. induction n as [|n IH]; intros p; [done|]. cbn.
  destruct (a !! p) as [u|] eqn:Hu; [|intros [= <-]; by split; [|left]].
  intros H. destruct (IH u H) as [Hn [->|Hs]]; split; try done; right; [by exists p|done].
Qed.

(** A test of [enabled]. *)
Definition unfiltered_b (w : world) (p : positive) : bool :=
  bool_decide (map_Forall (fun _ d => (x ← DeviceExtension d; pdo x) <> Some p) (dev w)).

Lemma unfiltered_b_spec w p : unfiltered_b w p = true -> unfiltered w p.
Proof.
  intros H%bool_decide_eq_true o x (d & Hd & Hx)%get_filter_ext_Some Hp. specialize (H o d Hd). cbn in H. rewrite Hx in H. by apply H.
Qed.

Definition unused_b (w : world) (o : positive) : bool := bool_decide (dev w !! o = None /\ attached w !! o = None).
Definition foreign_d (d : device_object) : bool := match DeviceExtension d with None => true | Some _ => false end.

Definition enabled_b (w : world) (rep : gmap positive (list positive)) (e : event) : bool :=
  match e with
  | NewObject p d => unused_b w p && foreign_d d
  | Stack t o d => unused_b w o && foreign_d d && bool_decide (is_Some (dev w !! t)) && bool_decide (attached w !! t = None)
  | AddDevice p => bool_decide (is_Some (dev w !! p)) && unfiltered_b w p
  | Pnp o i =>
      bool_decide (is_Some (get_filter_ext w o)) &&
      match minor i with
      | QUERY_DEVICE_RELATIONS true (Some r) =>
          bool_decide (NoDup r) && forallb (fun p => bool_decide (is_Some (dev w !! p)) && (bool_decide (p ∈ default [] (rep !! o)) || unfiltered_b w p)) r
      | _ => true
      end
  | _ => false
  end.

Lemma foreign_d_spec d : foreign_d d = true -> DeviceExtension d = None.
Proof. unfold foreign_d. by destruct (DeviceExtension d). Qed.

Lemma enabled_b_spec w rep e : enabled_b w rep e = true -> enabled id w rep e.
Proof.
  destruct e as [p d|t o d|t o|p|p|o i]; cbn [enabled_b enabled]; try done.
  - intros [H1%bool_decide_eq_true H2%foreign_d_spec]%andb_prop. done.
  - intros [[[H1%bool_decide_eq_true H2%foreign_d_spec]%andb_prop H3%bool_decide_eq_true]%andb_prop H4%bool_decide_eq_true]%andb_prop. done.
  - intros [[d Hd]%bool_decide_eq_true Hu%unfiltered_b_spec]%andb_prop. by exists d.
  - intros [[f Hf]%bool_decide_eq_true H]%andb_prop. exists f. split; [done|]. destruct (minor i) as [| |[] [r|]|b|]; try done.
    intros _. apply andb_prop in H as [Hn%bool_decide_eq_true Hr]. split; [done|]. intros p Hp.
    rewrite forallb_forall in Hr. destruct (andb_prop _ _ (Hr p (proj1 (list_elem_of_In _ _) Hp))) as [H1%bool_decide_eq_true H2]. split; [done|].
    intros Hnp. apply orb_prop in H2 as [H2%bool_decide_eq_true|H2]; [done|by apply unfiltered_b_spec].
Qed.

Fixpoint run (w : world) (rep : gmap positive (list positive)) (es : list event) : option (world * gmap positive (list positive)) :=
  match es with
  | [] => Some (w, rep)
  | e :: es => if enabled_b w rep e then w' ← exec id top w e; run w' (reported w rep e) es else None
  end.

Lemma run_reachable a es w rep w' rep' : reachable id top a w rep -> run w rep es = Some (w', rep') -> reachable id top a w' rep'.
Proof.
  revert w rep. induction es as [|e es IH]; intros w rep Hr; cbn [run]; [by intros [= <- <-]|].
  destruct (enabled_b w rep e) eqn:He; [|done]. destruct (exec id top w e) as [w1|] eqn:Hx; [|done]. cbn.
  apply IH. apply (reach_step _ _ _ w rep e w1); [done|by apply enabled_b_spec|done].
Qed.

Definition object (name : list Z) : device_object :=
  {| DeviceType := 0x2A; Characteristics := 0; Flags := 0x2014; DriverName := name; DeviceExtension := None |}.
Definition usbhub : list Z := wide "\Driver\USBHUB3"%string.

Definition query (r : list positive) : irp :=
  {| minor := QUERY_DEVICE_RELATIONS true (Some r); lower := STATUS_SUCCESS; can_forward := true |}.
Definition remove : irp := {| minor := REMOVE_DEVICE; lower := STATUS_SUCCESS; can_forward := true |}.

(** The root hub 1 with its function driver 2 gets the FiDO 3; it reports the child 20, that
    and 30, and 30 only. *)
Definition script : list event :=
  [NewObject 1 (object driver_name); Stack 1 2 (object usbhub); AddDevice 1;
   NewObject 20 (object usbhub); Pnp 3 (query [20%positive]); NewObject 30 (object usbhub); Pnp 3 (query [20; 30]%positive); Pnp 3 (query [30%positive])].

Definition good : answers := {| on_create := []; on_handle := []; on_pool := []; on_name := [] |}.

(** The PDOs that have FiDOs, and the targets of these. *)
Definition filters (w : world) : list (option positive * option positive) :=
  omap (fun '(_, d) => (fun x => (pdo x, target x)) <$> DeviceExtension d) (map_to_list (dev w)).

Definition run_from (a : answers) (es : list event) : option (world * gmap positive (list positive)) := run (start a) ∅ es.

Lemma script_result : exists w rep, run_from good script = Some (w, rep) /\
  filters w ≡ₚ [(Some 1, Some 2); (Some 20, Some 20); (Some 30, Some 30)]%positive /\ rep !! 3%positive = Some [30%positive].
Proof.
  destruct (run_from good script) as [[w rep]|] eqn:H; [|exfalso; revert H; vm_compute; discriminate].
  exists w, rep. split; [done|]. revert H. vm_compute. intros [= <- <-]. split; [solve_Permutation|done].
Qed.

Lemma filters_consistent_witness : exists w rep, run_from good (script ++ [Pnp 3 remove]) = Some (w, rep) /\
  world_ok w /\ (forall o d f, dev w !! o = Some d -> DeviceExtension d = Some f -> filter_ok (attached w) o d f).
Proof.
  destruct (run_from good (script ++ [Pnp 3 remove])) as [[w rep]|] eqn:H; [|exfalso; revert H; vm_compute; discriminate].
  exists w, rep. split; [done|]. pose proof (run_reachable good _ _ _ _ _ (reach_start _ _ _) H) as Hr.
  split; [by apply (reachable_ok id top top_law good w rep)|].
  by destruct (filters_consistent id top top_law good w rep Hr) as (_ & _ & Hf & _).
Defined.

Lemma one_filter_per_child_witness : exists w rep, run_from good script = Some (w, rep) /\ one_filter w /\
  exists o, rep !! o = Some [30%positive].
Proof.
  destruct script_result as (w & rep & H & _ & Hrep). exists w, rep. split; [done|].
  pose proof (run_reachable good _ _ _ _ _ (reach_start _ _ _) H) as Hr.
  split; [|by exists 3%positive]. by destruct (one_filter_per_child id top top_law good w rep eq_refl Hr) as (H1 & _).
Defined.

(** When copying the relations fails the list stays as it was, and the next report of the same child
    gives it another FiDO. *)
Lemma copy_failure_doubles : exists w rep,
  run_from {| on_create := []; on_handle := []; on_pool := [true; false]; on_name := [] |}
    (take 5 script ++ [Pnp 3 (query [20%positive])]) = Some (w, rep) /\
  filters w ≡ₚ [(Some 1, Some 2); (Some 20, Some 20); (Some 20, Some 21)]%positive.
Proof.
  destruct (run_from _ _) as [[w rep]|] eqn:H; [|exfalso; revert H; vm_compute; discriminate].
  exists w, rep. split; [done|]. revert H. vm_compute. intros [= <- <-]. solve_Permutation.
Qed.
End Demo.
