(* ===== verification/Submit.v ===== *)
(** * Submitting transfers to the server

    Models drivers/ude/proto.cpp and proto.h (the CMD_SUBMIT header), the transfer
    functions of drivers/ude/device_ioctl.cpp ([control_transfer],
    [bulk_or_interrupt_transfer], [isoch_transfer], [usb_submit_urb], [send_ep0_out],
    [internal_control]) with prepare_wsk_buf and send, and make_transfer_buffer_mdl of
    drivers/ude/network.cpp.  The result is the byte string given to WskSend and the
    request list entry.  Reading or writing outside of a buffer is [None]. *)

From S2P Require Import Prelude Proto Usbd Isoch Requests FilterReq.

(** ** Data *)

(** An URB: the members of all the transfers, the chain of TransferBufferMDL (its bytes,
    MDL by MDL), the members of isochronous transfers, and the memory image of the packed
    URB when TransferBuffer points to one. *)
Record urb : Type := {
  ctl : urb_control; TransferBufferMDL : list (list byte); packed_image : list byte;
  StartFrame : Z; ErrorCount : Z; iso_packets : list usbd_iso_packet }.

Definition TransferLength (u : urb) : Z := FilterReq.TransferBufferLength (ctl u).
Definition NumberOfPackets (u : urb) : Z := Z.of_nat (length (iso_packets u)).
Definition isoch_part (u : urb) : urb_isoch :=
  {| Isoch.TransferBufferLength := TransferLength u; IsoPacket := iso_packets u |}.

(** The members of device_ctx and its properties. *)
Record device : Type := {
  counter : Z; dev_id : Z; serial : list byte; iserial : Z; unplugged : bool;
  endpoints : list FilterReq.endpoint_ctx; ep0 : FilterReq.endpoint_ctx }.

(** What the kernel answers during one call. *)
Record kernel : Type := {
  request_ctx_allocated : bool;            (* get_request_ctx or WdfObjectAllocateContext *)
  request_ctx_error : ntstatus;
  wsk_context_allocated : bool;            (* wsk_context_ptr, with its packet descriptors *)
  mdl_allocated : bool;                    (* IoAllocateMdl *)
  mdl_mapped : bool;                       (* MmGetSystemAddressForMdlSafe *)
  pages_locked : ntstatus;                 (* MmProbeAndLockPages *)
  retrieved : res (list byte)              (* UdecxUrbRetrieveBuffer *)
}.

Record state : Type := {
  dv : device; urb_ : urb;
  reply : option (list byte);              (* the buffer, when the driver answers itself *)
  listed : list (Z * positive);            (* append_request: seqnum and endpoint *)
  wire : list (list byte)                  (* WskSend *)
}.

Definition with_dv (s : state) (d : device) : state :=
  {| dv := d; urb_ := urb_ s; reply := reply s; listed := listed s; wire := wire s |}.
Definition with_urb (s : state) (u : urb) : state :=
  {| dv := dv s; urb_ := u; reply := reply s; listed := listed s; wire := wire s |}.

Definition set_counter (d : device) (c : Z) : device :=
  {| counter := c; dev_id := dev_id d; serial := serial d; iserial := iserial d; unplugged := unplugged d;
     endpoints := endpoints d; ep0 := ep0 d |}.
Definition set_endpoints (d : device) (l : list FilterReq.endpoint_ctx) : device :=
  {| counter := counter d; dev_id := dev_id d; serial := serial d; iserial := iserial d; unplugged := unplugged d;
     endpoints := l; ep0 := ep0 d |}.
Definition set_ctl (u : urb) (c : urb_control) : urb :=
  {| ctl := c; TransferBufferMDL := TransferBufferMDL u; packed_image := packed_image u; StartFrame := StartFrame u; ErrorCount := ErrorCount u;
     iso_packets := iso_packets u |}.
Definition set_length (c : urb_control) (n : Z) : urb_control :=
  {| Function := Function c; UrbStatus := UrbStatus c; FilterReq.PipeHandle := FilterReq.PipeHandle c;
     TransferFlags := TransferFlags c; FilterReq.TransferBufferLength := n; TransferBuffer := TransferBuffer c;
     Timeout := Timeout c; SetupPacket := SetupPacket c |}.

(** ** Endpoint descriptors (ch9.h) *)

Definition usb_endpoint_num (e : FilterReq.endpoint_ctx) : Z := Z.land (bEndpointAddress e) 0x0F.
Definition usb_endpoint_type (e : FilterReq.endpoint_ctx) : Z := Z.land (bmAttributes e) 0x03.
Definition UsbdPipeTypeControl : Z := 0.
Definition usb_endpoint_dir_out (e : FilterReq.endpoint_ctx) : bool := negb (has_flag (bEndpointAddress e) 0x80).
Definition usb_default_control_pipe (e : FilterReq.endpoint_ctx) : bool :=
  (bLength e =? 7) && (bDescriptorType e =? 5) && (bEndpointAddress e =? 0) && (usb_endpoint_type e =? UsbdPipeTypeControl).

(** ** proto.h, proto.cpp *)

(** setup_dir: [Some] of the direction of a setup packet, or unset. *)
Definition setup_dir : Type := option bool.
Definition setup_dir_val (d : setup_dir) : Z :=
  match d with None => 0 | Some dir_out => Z.lor (Z.shiftl 1 (if dir_out then 1 else 0)) 1 end.

Definition fix_transfer_flags (TransferFlags : Z) (dir_out : bool) : Z :=
  if Bool.eqb (IsTransferDirectionOut TransferFlags) dir_out then TransferFlags
  else
    let in_flags := Z.lor USBD_SHORT_TRANSFER_OK USBD_TRANSFER_DIRECTION_IN in
    if dir_out then Z.ldiff TransferFlags in_flags else Z.lor TransferFlags in_flags.

Definition set_cmd_submit_usbip_header (d : device) (epd : FilterReq.endpoint_ctx) (flags len : Z) (setup_out : setup_dir)
    : option (res (header * device)) :=
  if has_flag flags USBD_DEFAULT_PIPE_TRANSFER && negb (usb_default_control_pipe epd) then Some (Err STATUS_INVALID_PARAMETER)
  else
    let dir_out := match setup_out with Some b => b | None => usb_endpoint_dir_out epd end in
    let flags := fix_transfer_flags flags dir_out in
    '(n, c) ← next_seqnum (counter d) (negb dir_out);
    Some (Ok ({| command := CMD_SUBMIT; Proto.seqnum := n; devid := dev_id d;
                 direction := if dir_out then Proto.dir_out else dir_in; ep := usb_endpoint_num epd;
                 w0 := to_linux_flags flags (negb dir_out); w1 := len; w2 := 0;
                 w3 := u32 number_of_packets_non_isoch; w4 := bInterval epd; setup := replicate 8 x00 |},
              set_counter d c)).

Definition set_cmd_unlink_usbip_header (d : device) (seqnum_unlink : Z) (old : header) : option (header * device) :=
  '(n, c) ← next_seqnum (counter d) false;
  Some ({| command := CMD_UNLINK; Proto.seqnum := n; devid := dev_id d; direction := dir_out; ep := 0;
           w0 := seqnum_unlink; w1 := w1 old; w2 := w2 old; w3 := w3 old; w4 := w4 old; setup := setup old |},
        set_counter d c).

(** ** make_transfer_buffer_mdl (network.cpp) *)

Inductive lock_operation : Type := IoReadAccess | IoWriteAccess.
Definition is_read (op : lock_operation) : bool := match op with IoReadAccess => true | IoWriteAccess => false end.

(** The MDL made, by what it describes: nothing, a part of the URB's only MDL, memory from
    the system address of the first MDL of its chain, or locked pages of TransferBuffer. *)
Inductive mdl : Type := NoMdl | Partial (n : Z) | FromHead (n : Z) | Locked (n : Z).

Definition mdl_length (m : mdl) : Z := match m with NoMdl => 0 | Partial n | FromHead n | Locked n => n end.

Definition URB_BUF_LEN : Z := 2 ^ 32 - 1.

Definition chain_size (chain : list (list byte)) : Z := foldr Z.add 0 (map (fun m => Z.of_nat (length m)) chain).

Definition make_transfer_buffer_mdl (k : kernel) (mdl_size : Z) (op : lock_operation) (u : urb) : res mdl :=
  if negb (mdl_size =? URB_BUF_LEN) && (TransferLength u <? mdl_size) then Err STATUS_INVALID_PARAMETER
  else
    let mdl_size := if mdl_size =? URB_BUF_LEN then TransferLength u else mdl_size in
    if mdl_size =? 0 then Ok NoMdl
    else
      match TransferBufferMDL u with
      | head :: next =>
          let len := u32 (chain_size (head :: next)) in
          let has_next := negb (bool_decide (next = [])) in
          if (len <? mdl_size) && (has_next || is_read op) then Err STATUS_BUFFER_TOO_SMALL
          else if negb has_next then
            if mdl_allocated k then Ok (Partial (Z.min len mdl_size)) else Err STATUS_INSUFFICIENT_RESOURCES
          else if negb (mdl_mapped k) then Err STATUS_UNSUCCESSFUL
          else if mdl_allocated k then Ok (FromHead mdl_size) else Err STATUS_INSUFFICIENT_RESOURCES
      | [] =>
          match TransferBuffer (ctl u) with
          | NoBuffer => Err STATUS_INVALID_PARAMETER
          | _ =>
              if mdl_allocated k then _ ← of_status (pages_locked k); Ok (Locked mdl_size)
              else Err STATUS_INSUFFICIENT_RESOURCES
          end
      end.

(** The bytes an MDL describes; [None] is memory that does not belong to the URB.  The
    system address of an MDL maps that MDL's pages only, not those of its successors. *)
Definition buffer_bytes (u : urb) : list byte :=
  match TransferBuffer (ctl u) with NoBuffer => [] | Bytes data => data | _ => packed_image u end.
Definition mdl_bytes (u : urb) (m : mdl) : option (list byte) :=
  match m with
  | NoMdl => Some []
  | Partial n | FromHead n => head ← TransferBufferMDL u !! 0%nat; bytes_at 0 (Z.to_nat n) head
  | Locked n => bytes_at 0 (Z.to_nat n) (buffer_bytes u)
  end.

(** ** device_ioctl.cpp: sending *)

(** prepare_wsk_buf: the bytes of the chain of MDLs and the length to send.  [isoc] are
    the descriptors of the context when is_isoc is set. *)
Definition prepare_wsk_buf (k : kernel) (hdr : header) (isoc : list iso_packet_descriptor) (transfer_buffer : option urb)
    : option (res (list byte * list iso_packet_descriptor * Z)) :=
  data ← match transfer_buffer with
         | Some u =>
             if direction hdr =? dir_out then
               match make_transfer_buffer_mdl k URB_BUF_LEN IoReadAccess u with
               | Err e => Some (Err e)
               | Ok m => bs ← mdl_bytes u m; Some (Ok bs)
               end
             else Some (Ok [])
         | None => Some (Ok [])
         end;
  match data with
  | Err e => Some (Err e)
  | Ok data =>
      isoc ← byteswap isoc (length isoc);
      Some (Ok (data, isoc, get_total_size hdr))
  end.

(** ::send *)
Definition send (k : kernel) (s : state) (has_request : bool) (endpoint : option positive) (hdr : header)
    (isoc : list iso_packet_descriptor) (transfer_buffer : option urb) : option (res ntstatus * state) :=
  buf ← prepare_wsk_buf k hdr isoc transfer_buffer;
  match buf with
  | Err e => Some (Err e, s)
  | Ok (data, isoc, len) =>
      let l := match endpoint with
               | Some e => if has_request then listed s ++ [(Proto.seqnum hdr, e)] else listed s
               | None => listed s
               end in
      msg ← bytes_at 0 (Z.to_nat len) (header_bytes (byteswap_header hdr host2net) ++ data ++ isos_bytes isoc);
      Some (Ok STATUS_PENDING,
            {| dv := dv s; urb_ := urb_ s; reply := reply s; listed := l; wire := wire s ++ [msg] |})
  end.

(** ** device_ioctl.cpp: the transfer functions *)

(** The device string descriptor index asked for, zero if the request is another one. *)
Definition get_device_string_descr (s : setup_packet) : Z :=
  if (bmRequestType s =? Z.lor USB_DIR_IN (Z.lor USB_TYPE_STANDARD USB_RECIP_DEVICE)) &&
     (bRequest s =? USB_REQUEST_GET_DESCRIPTOR) && (Z.shiftr (wValue s) 8 =? 3)
  then Z.land (wValue s) 0xFF else 0.

(** libdrv::usb_string_descr_size, with its conversion to UCHAR. *)
Definition usb_string_descr_size (n : Z) : Z := u8 (2 + u8 n * 2).

(** RtlStringCchLengthA: the characters before the terminator of an array of 16. *)
Fixpoint string_length (s : list byte) : res Z :=
  match s with
  | [] => Err STATUS_INVALID_PARAMETER
  | c :: s => if b2z c =? 0 then Ok 0 else n ← string_length s; Ok (n + 1)
  end.

(** Stores [bs] at [off]; [None] is a write outside of the buffer. *)
Definition store_bytes (off : nat) (bs mem : list byte) : option (list byte) :=
  if decide (off + length bs <= length mem)%nat then Some (take off mem ++ bs ++ drop (off + length bs) mem) else None.

(** The status, TransferBufferLength and the buffer. *)
Definition fill_usb_device_serial (k : kernel) (TransferBufferLength : Z) (serial : list byte)
    : option (res (Z * list byte)) :=
  let hdr_sz := usb_string_descr_size 0 in
  if TransferBufferLength <? hdr_sz then Some (Err STATUS_BUFFER_TOO_SMALL)
  else
    match string_length serial with
    | Err e => Some (Err e)
    | Ok serial_cch =>
        match retrieved k with
        | Err e => Some (Err e)
        | Ok sd =>
            sd ← store_bytes 0 [z2b (usb_string_descr_size serial_cch); z2b 3] sd;
            let buf_cch := (TransferBufferLength - hdr_sz) / 2 in
            let cch := Z.min buf_cch serial_cch in
            sd ← store_bytes 2 (concat (map (fun c => le_bytes 2 (b2z c)) (take (Z.to_nat cch) serial))) sd;
            Some (Ok (usb_string_descr_size cch, sd))
        end
    end.

(** if (endp.PipeHandle != r.PipeHandle) endp.PipeHandle = r.PipeHandle, for the endpoint
    of the queue, which is the default control pipe or a listed one. *)
Definition assign_handle (d : device) (endp : FilterReq.endpoint_ctx) (h : Z) : device :=
  let upd e := if Pos.eqb (ep_handle e) (ep_handle endp) then set_pipe_handle h e else e in
  {| counter := counter d; dev_id := dev_id d; serial := serial d; iserial := iserial d; unplugged := unplugged d;
     endpoints := map upd (endpoints d); ep0 := upd (ep0 d) |}.

(** The handlers: a status, STATUS_PENDING once the transfer is sent, and the state. *)
Definition outcome : Type := option (res ntstatus * state).

Definition set_setup (h : header) (p : setup_packet) : header :=
  {| command := command h; Proto.seqnum := Proto.seqnum h; devid := devid h; direction := direction h; ep := ep h;
     w0 := w0 h; w1 := w1 h; w2 := w2 h; w3 := w3 h; w4 := w4 h; setup := setup_bytes p |}.

(** The part of control_transfer after the filter request has been unpacked. *)
Definition control_transfer_send (k : kernel) (s : state) (endp : FilterReq.endpoint_ctx) : outcome :=
  let r := ctl (urb_ s) in
  let pkt := SetupPacket r in
  let tbl := FilterReq.TransferBufferLength r in
  if tbl <? wLength pkt then Some (Err STATUS_INVALID_PARAMETER, s)
  else
    let buf_len := if wLength pkt <? tbl then wLength pkt else tbl in
    let idx := get_device_string_descr pkt in
    filled ← (if idx =? 0 then Some None
              else if negb (idx =? iserial (dv s)) then Some None
              else
                f ← fill_usb_device_serial k tbl (serial (dv s));
                match f with Ok (len, buf) => Some (Some (len, buf)) | Err _ => Some None end);
    match filled with
    | Some (len, buf) =>
        Some (Ok STATUS_SUCCESS,
              {| dv := dv s; urb_ := set_ctl (urb_ s) (set_length r len); reply := Some buf; listed := listed s; wire := wire s |})
    | None =>
        if negb (wsk_context_allocated k) then Some (Err STATUS_INSUFFICIENT_RESOURCES, s)
        else
          h ← set_cmd_submit_usbip_header (dv s) endp (TransferFlags r) buf_len (Some (is_transfer_dir_out pkt));
          match h with
          | Err e => Some (Err e, s)
          | Ok (hdr, d) =>
              send k (with_dv s d) true (Some (ep_handle endp)) (set_setup hdr pkt) [] (Some (urb_ s))
          end
    end.

Definition control_transfer (k : kernel) (s : state) (endp : FilterReq.endpoint_ctx) : outcome :=
  let r := ctl (urb_ s) in
  let h := FilterReq.PipeHandle r in
  let assign := negb (h =? 0) && negb (ep_PipeHandle endp =? h) in
  let s := if assign then with_dv s (assign_handle (dv s) endp h) else s in
  let endp := if assign then set_pipe_handle h endp else endp in
  if negb (is_request r) then control_transfer_send k s endp
  else
    let '(func, r) := get_function r true in
    '(st, l, r) ← unpack_request (endpoints (dv s)) r func;
    let s := with_urb (with_dv s (set_endpoints (dv s) l)) (set_ctl (urb_ s) r) in
    if negb (bool_decide (st = STATUS_SUCCESS)) then Some (Err st, s) else control_transfer_send k s endp.

Definition assign_transfer_handle (s : state) (endp : FilterReq.endpoint_ctx) : state :=
  let h := FilterReq.PipeHandle (ctl (urb_ s)) in
  if negb (ep_PipeHandle endp =? h) then with_dv s (assign_handle (dv s) endp h) else s.

Definition bulk_or_interrupt_transfer (k : kernel) (s : state) (endp : FilterReq.endpoint_ctx) : outcome :=
  let s := assign_transfer_handle s endp in
  if negb (wsk_context_allocated k) then Some (Err STATUS_INSUFFICIENT_RESOURCES, s)
  else
    h ← set_cmd_submit_usbip_header (dv s) endp (TransferFlags (ctl (urb_ s))) (TransferLength (urb_ s)) None;
    match h with
    | Err e => Some (Err e, s)
    | Ok (hdr, d) => send k (with_dv s d) true (Some (ep_handle endp)) hdr [] (Some (urb_ s))
    end.

Definition set_isoch (h : header) (start_frame number_of_packets : Z) : header :=
  {| command := command h; Proto.seqnum := Proto.seqnum h; devid := devid h; direction := direction h; ep := ep h;
     w0 := w0 h; w1 := w1 h; w2 := start_frame; w3 := number_of_packets; w4 := w4 h; setup := setup h |}.

Definition isoch_transfer (k : kernel) (s : state) (endp : FilterReq.endpoint_ctx) : outcome :=
  let s := assign_transfer_handle s endp in
  let r := ctl (urb_ s) in
  if max_iso_packets <? NumberOfPackets (urb_ s) then Some (Err STATUS_INVALID_PARAMETER, s)
  else if negb (wsk_context_allocated k) then Some (Err STATUS_INSUFFICIENT_RESOURCES, s)
  else
    h ← set_cmd_submit_usbip_header (dv s) endp (Z.lor (TransferFlags r) USBD_START_ISO_TRANSFER_ASAP)
          (TransferLength (urb_ s)) None;
    match h with
    | Err e => Some (Err e, s)
    | Ok (hdr, d) =>
        let s := with_dv s d in
        match repack (isoch_part (urb_ s)) with
        | Err e => Some (Err e, s)
        | Ok isoc =>
            send k s true (Some (ep_handle endp)) (set_isoch hdr (StartFrame (urb_ s)) (NumberOfPackets (urb_ s)))
              isoc (Some (urb_ s))
        end
    end.

Definition usb_submit_urb (k : kernel) (s : state) (endp : FilterReq.endpoint_ctx) : outcome :=
  if negb (request_ctx_allocated k) then Some (Err (request_ctx_error k), s)
  else
    let func := Function (ctl (urb_ s)) in
    if (func =? URB_FUNCTION_BULK_OR_INTERRUPT_TRANSFER) || (func =? URB_FUNCTION_BULK_OR_INTERRUPT_TRANSFER_USING_CHAINED_MDL)
    then bulk_or_interrupt_transfer k s endp
    else if (func =? URB_FUNCTION_ISOCH_TRANSFER) || (func =? URB_FUNCTION_ISOCH_TRANSFER_USING_CHAINED_MDL)
    then isoch_transfer k s endp
    else if (func =? URB_FUNCTION_CONTROL_TRANSFER_EX) || (func =? URB_FUNCTION_CONTROL_TRANSFER)
    then control_transfer k s endp
    else Some (Err STATUS_NOT_SUPPORTED, s).

Definition send_ep0_out (k : kernel) (s : state) (has_request : bool) (setup : setup_packet) : outcome :=
  if negb (wsk_context_allocated k) then Some (Err STATUS_INSUFFICIENT_RESOURCES, s)
  else
    h ← set_cmd_submit_usbip_header (dv s) (ep0 (dv s))
          (Z.lor USBD_DEFAULT_PIPE_TRANSFER USBD_TRANSFER_DIRECTION_OUT) 0 (Some true);
    match h with
    | Err e => Some (Err e, s)
    | Ok (hdr, d) => send k (with_dv s d) has_request (Some (ep_handle (ep0 (dv s)))) (set_setup hdr setup) [] None
    end.

Definition set_configuration (k : kernel) (s : state) (has_request : bool) (ConfigurationValue : Z) : outcome :=
  send_ep0_out k s has_request (make_set_configuration ConfigurationValue).
Definition set_interface (k : kernel) (s : state) (has_request : bool) (InterfaceNumber AlternateSetting : Z) : outcome :=
  send_ep0_out k s has_request (make_set_interface InterfaceNumber AlternateSetting).
Definition clear_endpoint_stall_req (k : kernel) (s : state) (endp : FilterReq.endpoint_ctx) (has_request : bool) : outcome :=
  send_ep0_out k s has_request (make_clear_endpoint_stall (bEndpointAddress endp)).
Definition reset_port (k : kernel) (s : state) (has_request : bool) (port : Z) : outcome :=
  send_ep0_out k s has_request (make_reset_port (u16 port)).

(** How the request was completed by internal_control, if it was. *)
Inductive completion : Type :=
| NotYet | RequestComplete (st : ntstatus) | UrbComplete (st : usbd_status) | UrbCompleteWithNtStatus (st : ntstatus).

Definition status_of (r : res ntstatus) : ntstatus := match r with Ok st => st | Err e => e end.

Definition internal_control (k : kernel) (s : state) (endp : FilterReq.endpoint_ctx) (is_submit_urb : bool)
    : option (completion * state) :=
  if negb is_submit_urb then Some (RequestComplete STATUS_INVALID_DEVICE_REQUEST, s)
  else if unplugged (dv s) then Some (UrbComplete USBD_STATUS_DEVICE_GONE, s)
  else
    '(r, s) ← usb_submit_urb k s endp;
    let st := status_of r in
    Some (if negb (bool_decide (st = STATUS_PENDING)) then UrbCompleteWithNtStatus st else NotYet, s).

(** ** Specification *)

(** The memory an URB gives the driver. *)
Definition urb_memory (u : urb) : list byte :=
  match TransferBufferMDL u with
  | head :: _ => head
  | [] => buffer_bytes u
  end.

Definition iso_wire (d : iso_packet_descriptor) : list byte :=
  concat (map (be_bytes 4) [iso_offset d; iso_length d; iso_actual_length d; iso_status d]).

(** The payload a server expects after a CMD_SUBMIT header: the data of an OUT transfer,
    then the packet descriptors in network order. *)
Definition submit_payload (h : header) (u : urb) (isoc : list iso_packet_descriptor) : list byte :=
  (if direction h =? dir_out then take (Z.to_nat (cs_transfer_buffer_length h)) (urb_memory u) else [])
  ++ concat (map iso_wire isoc).

(** ** Lemmas *)

Lemma iso_wire_bytes isoc : isos_bytes (map byteswap_one isoc) = concat (map iso_wire isoc).
Proof.
  unfold isos_bytes. rewrite map_map. f_equal. apply map_ext. intros d.
  unfold iso_bytes, iso_wire, words, byteswap_one. cbn [map concat iso_offset iso_length iso_actual_length iso_status].
  by rewrite !le_bytes_bswap32.
Qed.

Lemma length_iso_wire isoc : length (concat (map iso_wire isoc)) = (16 * length isoc)%nat.
Proof. by rewrite <- iso_wire_bytes, length_isos_bytes, length_map. Qed.

Lemma bytes_at_0_Some n p bs : bytes_at 0 n p = Some bs <-> bs = take n p /\ (n <= length p)%nat.
Proof.
  unfold bytes_at. rewrite drop_0. case_decide; split; intros Hx.
  - injection Hx as <-. split; [done|lia].
  - destruct Hx as [-> _]. done.
  - done.
  - lia.
Qed.

Lemma get_total_size_submit h n len : command h = CMD_SUBMIT -> transfer_len h = Z.of_nat len ->
  Proto.packets h = -1 /\ n = 0%nat \/ Proto.packets h = Z.of_nat n -> get_total_size h = Z.of_nat (48 + len + 16 * n).
Proof.
  intros Hc Hl Hp. pose proof (transfer_len_bound h) as Hb. pose proof (s32_range (w3 h)) as Hr. fold (Proto.packets h) in Hr.
  unfold is_s32 in Hr. unfold get_total_size. rewrite (get_isoc_descr_submit h) by (try (by left); try lia).
  unfold u64, sizeof_iso_packet_descriptor. rewrite Z.mod_small by lia. lia.
Qed.

Lemma length_header_bytes h : length (setup h) = 8%nat -> length (header_bytes h) = 48%nat.
Proof. intros H. unfold header_bytes. rewrite length_app, length_words, H. reflexivity. Qed.

Lemma setup_byteswap h dir : setup (byteswap_header h dir) = setup h.
Proof. unfold byteswap_header. repeat case_match; reflexivity. Qed.

(** Sending a CMD_SUBMIT whose data covers the announced length. *)
Lemma message_bytes h data isoc len msg : command h = CMD_SUBMIT -> length (setup h) = 8%nat ->
  transfer_len h = Z.of_nat len -> Proto.packets h = -1 /\ isoc = [] \/ Proto.packets h = Z.of_nat (length isoc) ->
  isoc = [] \/ length data = len ->
  bytes_at 0 (Z.to_nat (get_total_size h))
    (header_bytes (byteswap_header h host2net) ++ data ++ isos_bytes (map byteswap_one isoc)) = Some msg <->
  msg = wire_header h ++ take len data ++ concat (map iso_wire isoc) /\ (len <= length data)%nat.
Proof.
  intros Hc Hs Hl Hp Hd.
  assert (Proto.packets h = -1 /\ length isoc = 0%nat \/ Proto.packets h = Z.of_nat (length isoc)) as Hp'
    by (destruct Hp as [[? ->]|]; [by left|by right]).
  rewrite (get_total_size_submit h (length isoc) len Hc Hl Hp').
  rewrite Nat2Z.id, bytes_at_0_Some, <- byteswap_header_wire by (unfold known_command; by rewrite Hc).
  assert (length (header_bytes (byteswap_header h host2net)) = 48%nat) as H48
    by (apply length_header_bytes; by rewrite setup_byteswap).
  rewrite iso_wire_bytes, !length_app, H48, length_iso_wire.
  rewrite <- Nat.add_assoc, take_app_add' by done.
  assert ((len <= length data)%nat -> take (len + 16 * length isoc) (data ++ concat (map iso_wire isoc)) =
    take len data ++ concat (map iso_wire isoc)) as Ht.
  { intros Hle. destruct Hd as [->|Hd].
    - cbn. rewrite Nat.add_0_r, !app_nil_r. done.
    - rewrite take_app_add' by done. rewrite (take_ge data) by lia. f_equal. apply take_ge. rewrite length_iso_wire. lia. }
  split; (intros [-> Hle]; assert (len <= length data)%nat as Hle' by lia; split; [by rewrite Ht|lia]).
Qed.

Lemma make_mdl_read k u m : make_transfer_buffer_mdl k URB_BUF_LEN IoReadAccess u = Ok m -> 0 <= TransferLength u ->
  mdl_length m = TransferLength u /\
  forall bs, mdl_bytes u m = Some bs -> bs = take (Z.to_nat (TransferLength u)) (urb_memory u) /\
    Z.of_nat (length bs) = TransferLength u.
Proof.
  unfold make_transfer_buffer_mdl. rewrite Z.eqb_refl. cbn [negb andb]. intros Hm Hnn.
  destruct (Z.eqb_spec (TransferLength u) 0) as [Hz|Hnz].
  { injection Hm as <-. split; [done|]. intros bs [= <-]. rewrite Hz. done. }
  assert (forall n p bs, n = TransferLength u -> bytes_at 0 (Z.to_nat n) p = Some bs ->
    bs = take (Z.to_nat (TransferLength u)) p /\ Z.of_nat (length bs) = TransferLength u) as Hb.
  { intros n p bs -> [-> Hle]%bytes_at_0_Some. split; [done|]. rewrite length_take. lia. }
  destruct (TransferBufferMDL u) as [|head next] eqn:Hmdl.
  - unfold urb_memory. rewrite Hmdl. set (b := buffer_bytes u) in *.
    destruct (TransferBuffer (ctl u)) as [|data|p st|i|cd l]; [done|..];
      (destruct (mdl_allocated k); [|done]; destruct (of_status (pages_locked k)); [|done]; injection Hm as <-; split; [done|];
       cbn [mdl_bytes]; intros bs; fold b; by apply Hb).
  - destruct (Z.ltb_spec (u32 (chain_size (head :: next))) (TransferLength u)); cbn [andb orb is_read] in Hm;
      [by rewrite Bool.orb_true_r in Hm|].
    unfold urb_memory. rewrite Hmdl.
    destruct (negb (negb (bool_decide (next = [])))).
    + destruct (mdl_allocated k); [|done]. injection Hm as <-. rewrite Z.min_r by lia. cbn [mdl_length mdl_bytes]. rewrite Hmdl.
      split; [done|]. intros bs. by apply Hb.
    + destruct (negb (mdl_mapped k)); [done|]. destruct (mdl_allocated k); [|done]. injection Hm as <-.
      split; [done|]. cbn [mdl_bytes]. rewrite Hmdl. intros bs. by apply Hb.
Qed.

(** What ::send adds to the list and to the wire. *)
Lemma send_spec k s has_request e h isoc tb r s' : send k s has_request e h isoc tb = Some (r, s') ->
  command h = CMD_SUBMIT -> length (setup h) = 8%nat -> 0 <= cs_transfer_buffer_length h ->
  Proto.packets h = -1 /\ isoc = [] \/ Proto.packets h = Z.of_nat (length isoc) ->
  (forall u, tb = Some u -> 0 <= TransferLength u /\ (isoc = [] \/ TransferLength u = cs_transfer_buffer_length h)) ->
  (tb = None -> isoc = [] /\ cs_transfer_buffer_length h = 0) ->
  (exists err, r = Err err /\ s' = s) \/
  (r = Ok STATUS_PENDING /\ dv s' = dv s /\ urb_ s' = urb_ s /\ reply s' = reply s /\
   listed s' = listed s ++ (match e with Some e => if has_request then [(Proto.seqnum h, e)] else [] | None => [] end) /\
   let payload := match tb with Some u => submit_payload h u isoc | None => [] end in
   wire s' = wire s ++ [wire_header h ++ payload] /\ Z.of_nat (length payload) = get_payload_size h).
Proof.
  unfold send. intros Hsend Hc Hs Hlen Hp Htb Hnone.
  destruct (prepare_wsk_buf k h isoc tb) as [[[[data isoc'] len]|err]|] eqn:Hprep; cbn [mbind option_bind] in Hsend; [|left|done].
  2: { injection Hsend as <- <-. eauto. }
  right. unfold prepare_wsk_buf in Hprep.
  destruct (match tb with Some u => _ | None => _ end) as [[data'|err]|] eqn:Hdata; cbn [mbind option_bind] in Hprep; try done.
  rewrite byteswap_all in Hprep. cbn [mbind option_bind] in Hprep. injection Hprep as <- <- <-.
  destruct (bytes_at 0 _ _) as [msg|] eqn:Hmsg; cbn [mbind option_bind] in Hsend; [|done]. injection Hsend as <- <-.
  cbn [dv urb_ reply listed wire]. split; [done|]. do 3 (split; [done|]).
  split; [destruct e; [destruct has_request|]; by rewrite ?app_nil_r|]. cbv zeta.
  set (len := Z.to_nat (transfer_len h)).
  assert (transfer_len h = Z.of_nat len) as Hl.
  { unfold len, transfer_len. rewrite Hc. change (CMD_SUBMIT =? CMD_SUBMIT) with true. cbv iota. destruct (direction h =? dir_out); lia. }
  assert (get_payload_size h = Z.of_nat (len + 16 * length isoc)) as Hps.
  { unfold get_payload_size. rewrite (get_total_size_submit h (length isoc) len Hc Hl)
      by (destruct Hp as [[? ->]|]; [by left|by right]).
    pose proof (transfer_len_bound h). pose proof (s32_range (w3 h)) as Hr. fold (Proto.packets h) in Hr.
    change (Z.of_nat sizeof_header) with 48. unfold u64, is_s32 in *. rewrite Z.mod_small; [lia|].
    destruct Hp as [[_ ->]|Hp]; cbn [length]; lia. }
  rewrite Hps. destruct tb as [u|].
  - destruct (Htb u eq_refl) as [Hnn Hiso]. unfold submit_payload. rewrite length_app, length_iso_wire.
    unfold transfer_len in Hl. rewrite Hc in Hl. change (CMD_SUBMIT =? CMD_SUBMIT) with true in Hl. cbv iota in Hl. revert Hl.
    destruct (direction h =? dir_out) eqn:Hdir; intros Hl.
    + destruct (make_transfer_buffer_mdl k URB_BUF_LEN IoReadAccess u) as [m|] eqn:Hm; [|done].
      destruct (make_mdl_read k u m Hm Hnn) as [_ Hbytes].
      destruct (mdl_bytes u m) as [bs|] eqn:Hbs; cbn [mbind option_bind] in Hdata; [|done]. injection Hdata as <-.
      destruct (Hbytes bs eq_refl) as [-> Hbl].
      apply (message_bytes h _ isoc len) in Hmsg as [-> Hle]; try done; [| |destruct Hiso; [by left|right; lia]].
      * rewrite take_take. replace (len `min` Z.to_nat (TransferLength u))%nat with len by lia.
        replace (Z.to_nat (cs_transfer_buffer_length h)) with len by lia. split; [done|].
        rewrite length_take in *. lia.
      * unfold transfer_len. rewrite Hc, Hdir. change (CMD_SUBMIT =? CMD_SUBMIT) with true. cbv iota. lia.
    + injection Hdata as <-. apply (message_bytes h _ isoc 0) in Hmsg as [-> _]; try done.
      * split; [done|]. cbn [length]. lia.
      * unfold transfer_len. rewrite Hc, Hdir. done.
      * by right.
  - injection Hdata as <-. destruct (Hnone eq_refl) as [-> Hz].
    apply (message_bytes h _ [] 0) in Hmsg as [-> _]; [|done|done| |done|by left].
    { split; [cbn; by rewrite !app_nil_r|]. cbn [length]. unfold len, transfer_len. rewrite Hc.
      change (CMD_SUBMIT =? CMD_SUBMIT) with true. cbv iota. rewrite Hz. by case_match. }
    unfold transfer_len. rewrite Hc. change (CMD_SUBMIT =? CMD_SUBMIT) with true. cbv iota. rewrite Hz. by case_match.
Qed.

(** The header of a CMD_SUBMIT. *)
Definition submit_header (d : device) (epd : FilterReq.endpoint_ctx) (len : Z) (h : header) : Prop :=
  command h = CMD_SUBMIT /\ devid h = dev_id d /\ ep h = Z.land (bEndpointAddress epd) 0x0F /\ w1 h = len /\
  w4 h = bInterval epd /\ length (setup h) = 8%nat /\
  is_u32 (Proto.seqnum h) /\ is_valid_seqnum (Proto.seqnum h) = true /\ extract_dir (Proto.seqnum h) = direction h /\
  (direction h = dir_out \/ direction h = dir_in) /\ w0 h ∈ [0; URB_SHORT_NOT_OK; URB_ISO_ASAP].

Lemma next_seqnum_props c d : exists n c', next_seqnum c d = Some (n, c') /\ is_u32 n /\ is_valid_seqnum n = true /\
  extract_dir n = if d then 1 else 0.
Proof.
  destruct (next_seqnum_spec c d) as (c' & Hn & _). eexists _, c'. split; [exact Hn|].
  pose proof (Z.mod_pos_bound (c mod half) (half - 1)) as Hb. set (b := (c mod half) mod (half - 1)) in *. clearbody b.
  assert (0 <= b < half - 1) as Hb' by (apply Hb; unfold half; lia). clear Hb. unfold half in Hb'.
  split; [unfold is_u32; destruct d; lia|]. split.
  - unfold is_valid_seqnum, extract_num. rewrite Z.shiftr_div_pow2 by lia.
    assert ((2 * (1 + b) + (if d then 1 else 0)) / 2 ^ 1 = 1 + b) as -> by (destruct d; zdm). lia.
  - rewrite extract_dir_mod. destruct d; zdm.
Qed.

Lemma to_linux_flags_values f b : to_linux_flags f b ∈ [0; URB_SHORT_NOT_OK; URB_ISO_ASAP].
Proof. unfold to_linux_flags. repeat case_match; repeat constructor. Qed.

Lemma set_cmd_submit_spec d epd flags len dir : exists r, set_cmd_submit_usbip_header d epd flags len dir = Some r /\
  (r = Err STATUS_INVALID_PARAMETER \/ exists h d', r = Ok (h, d') /\ submit_header d epd len h /\
     direction h = (if match dir with Some b => b | None => usb_endpoint_dir_out epd end then dir_out else dir_in) /\
     w2 h = 0 /\ w3 h = u32 number_of_packets_non_isoch /\ exists c, d' = set_counter d c).
Proof.
  unfold set_cmd_submit_usbip_header. destruct (has_flag flags USBD_DEFAULT_PIPE_TRANSFER && _); [eexists; split; [done|by left]|].
  cbv zeta. set (b := match dir with Some b => b | None => _ end).
  destruct (next_seqnum_props (counter d) (negb b)) as (n & c & -> & Hu & Hv & Hd). cbn [mbind option_bind].
  eexists. split; [done|]. right. eexists _, _. split; [done|].
  split; [|cbn; split; [done|]; split; [done|]; split; [done|]; by exists c].
  unfold submit_header. cbn [command devid ep w1 w4 setup Proto.seqnum direction w0].
  do 6 (split; [done|]). do 2 (split; [done|]). split; [by destruct b|]. split; [destruct b; auto|]. apply to_linux_flags_values.
Qed.

(** [Err], or a message and a list entry, or an answer without the server. *)
Definition nothing_sent (s s' : state) : Prop := wire s' = wire s /\ listed s' = listed s.

Definition message_sent (s s' : state) (endp : FilterReq.endpoint_ctx) (isoc : list iso_packet_descriptor) (h : header) : Prop :=
  wire s' = wire s ++ [wire_header h ++ submit_payload h (urb_ s') isoc] /\
  Z.of_nat (length (submit_payload h (urb_ s') isoc)) = get_payload_size h /\
  listed s' = listed s ++ [(Proto.seqnum h, ep_handle endp)].

Definition submit_ok (s : state) (endp : FilterReq.endpoint_ctx) : Prop :=
  is_u32 (dev_id (dv s)) /\ is_u8 (bEndpointAddress endp) /\ is_u8 (bInterval endp) /\
  0 <= TransferLength (urb_ s) < 2 ^ 31 /\ is_u32 (StartFrame (urb_ s)).

Lemma submit_header_ok d epd len h : submit_header d epd len h -> is_u32 (dev_id d) -> is_u8 (bInterval epd) -> is_u32 len ->
  is_u32 (w2 h) -> is_u32 (w3 h) -> header_ok h.
Proof.
  intros (Hc & Hd & He & Hl & Hi & Hs & Hn & _ & _ & Hdir & Hw) Hdu Hiu Hlu H2 H3. split; [|done].
  rewrite Hc, Hd, He, Hl, Hi.
  assert (is_u32 (Z.land (bEndpointAddress epd) 0x0F)) as Hep.
  { change 0x0F with (Z.ones 4). rewrite Z.land_ones by lia. unfold is_u32. pose proof (Z.mod_pos_bound (bEndpointAddress epd) (2 ^ 4)). lia. }
  assert (is_u32 (w0 h)) as H0.
  { repeat (apply elem_of_cons in Hw as [->|Hw]; [unfold is_u32, URB_SHORT_NOT_OK, URB_ISO_ASAP; lia|]). by apply elem_of_nil in Hw. }
  rewrite !List.Forall_cons_iff. unfold is_u32, is_u8, CMD_SUBMIT, dir_out, dir_in in *.
  split_and!; try lia; try constructor; destruct Hdir; lia.
Qed.

(** A transfer without packets that has a header goes to ::send. *)
Lemma send_plain k s s0 s' r endp h : send k s0 true (Some (ep_handle endp)) h [] (Some (urb_ s0)) = Some (r, s') ->
  wire s0 = wire s -> listed s0 = listed s ->
  command h = CMD_SUBMIT -> length (setup h) = 8%nat -> 0 <= cs_transfer_buffer_length h ->
  w3 h = u32 number_of_packets_non_isoch -> 0 <= TransferLength (urb_ s0) ->
  (nothing_sent s s' /\ exists e, r = Err e) \/ (r = Ok STATUS_PENDING /\ urb_ s' = urb_ s0 /\ message_sent s s' endp [] h).
Proof.
  intros Hs Hw Hl Hc Hse Hlen H3 Ht. apply send_spec in Hs; try done.
  - destruct Hs as [(e & -> & ->)|(-> & Hd & Hu & _ & Hl' & Hw' & Hp)].
    + left. split; [by split|by exists e].
    + right. split; [done|]. split; [done|]. unfold message_sent. rewrite Hu, <- Hw, <- Hl. done.
  - left. split; [|done]. unfold Proto.packets. by rewrite H3.
  - intros u [= <-]. split; [done|by left].
Qed.

Lemma s32_small z : 0 <= z < 2 ^ 31 -> s32 z = z.
Proof. intros. apply s32_id. unfold is_s32. lia. Qed.

(** The transfer is on its way: one message, whose header is the URB's. *)
Definition submitted (s s' : state) (endp : FilterReq.endpoint_ctx) (h : header) (isoc : list iso_packet_descriptor)
    (len packets : Z) : Prop :=
  message_sent s s' endp isoc h /\ header_ok h /\ submit_header (dv s) endp len h /\ Proto.packets h = packets.

Definition refused (s s' : state) (r : res ntstatus) : Prop :=
  nothing_sent s s' /\ ((exists e, r = Err e) \/ r = Ok STATUS_SUCCESS).

Lemma header_ok_set_setup h p : header_ok h -> header_ok (set_setup h p).
Proof. intros [Hw _]. by split. Qed.

Lemma packets_non_isoch h : w3 h = u32 number_of_packets_non_isoch -> Proto.packets h = -1.
Proof. unfold Proto.packets. by intros ->. Qed.

Lemma submit_header_setup d epd len h p : submit_header d epd len h -> submit_header d epd len (set_setup h p).
Proof. intros (? & ? & ? & ? & ? & _ & ?). by repeat (split; [done|]). Qed.

(** A transfer without packets: the header, then ::send. *)
Lemma submit_plain k s s0 endp endp0 flags len dir p r s' :
  (h ← set_cmd_submit_usbip_header (dv s0) endp0 flags len dir;
   match h with
   | Err e => Some (Err e, s0)
   | Ok (hdr, d) => send k (with_dv s0 d) true (Some (ep_handle endp0)) (match p with Some p => set_setup hdr p | None => hdr end) []
                      (Some (urb_ s0))
   end) = Some (r, s') ->
  wire s0 = wire s -> listed s0 = listed s -> dev_id (dv s0) = dev_id (dv s) -> ep_handle endp0 = ep_handle endp ->
  bEndpointAddress endp0 = bEndpointAddress endp -> bInterval endp0 = bInterval endp ->
  is_u32 (dev_id (dv s)) -> is_u8 (bInterval endp) -> 0 <= len < 2 ^ 31 -> 0 <= TransferLength (urb_ s0) ->
  refused s s' r \/ (r = Ok STATUS_PENDING /\ urb_ s' = urb_ s0 /\ exists h, submitted s s' endp h [] len (-1) /\
    direction h = (if match dir with Some b => b | None => usb_endpoint_dir_out endp end then dir_out else dir_in) /\
    setup h = match p with Some p => setup_bytes p | None => setup h end).
Proof.
  intros Hs Hw Hl Hdev Hh Ha Hi Hd Hiu Hlen Ht.
  destruct (set_cmd_submit_spec (dv s0) endp0 flags len dir) as (r0 & Hc & Hcase). rewrite Hc in Hs. cbn [mbind option_bind] in Hs.
  destruct Hcase as [->|(h & d' & -> & Hsub & Hdir & H2 & H3 & c & ->)].
  { injection Hs as <- <-. left. split; [by split|left; by eexists]. }
  set (h' := match p with Some p => set_setup h p | None => h end) in *.
  assert (submit_header (dv s0) endp0 len h' /\ Proto.packets h' = -1 /\ w2 h' = 0 /\ w3 h' = u32 number_of_packets_non_isoch /\
    direction h' = direction h /\ setup h' = match p with Some p => setup_bytes p | None => setup h' end) as (Hsub' & Hp & H2' & H3' & Hd' & Hse).
  { unfold h'. destruct p; repeat (split; [by (try apply submit_header_setup; try apply packets_non_isoch)|]); done. }
  clearbody h'. pose proof Hsub' as (Hcmd & _ & _ & Hw1 & _ & H8 & _).
  assert (0 <= cs_transfer_buffer_length h') as Hlen' by (unfold cs_transfer_buffer_length; rewrite Hw1, s32_small; lia).
  apply (send_plain k s (with_dv s0 (set_counter (dv s0) c)) s' r endp0 h' Hs Hw Hl Hcmd H8 Hlen' H3') in Ht.
  clear Hs. rename Ht into Hs.
  destruct Hs as [[[Hnw Hnl] He]|(-> & Hu & Hm)].
  { left. split; [by split|by left]. }
  right. split; [done|]. split; [done|]. exists h'. split.
  - unfold submitted, message_sent in *. rewrite <- Hh. split; [done|].
    assert (submit_header (dv s) endp len h') as Hsub2.
    { unfold submit_header in *. by rewrite <- Hdev, <- Ha, <- Hi. }
    split; [|done]. eapply submit_header_ok; [exact Hsub2|done|done|unfold is_u32; lia| |].
    + rewrite H2'. by unfold is_u32.
    + rewrite H3'. unfold is_u32, u32, number_of_packets_non_isoch. by cbv.
  - rewrite Hd', Hdir. unfold usb_endpoint_dir_out. rewrite Ha. done.
Qed.

Lemma control_send_spec k s s0 endp endp0 r s' : control_transfer_send k s0 endp0 = Some (r, s') ->
  wire s0 = wire s -> listed s0 = listed s -> dev_id (dv s0) = dev_id (dv s) -> ep_handle endp0 = ep_handle endp ->
  bEndpointAddress endp0 = bEndpointAddress endp -> bInterval endp0 = bInterval endp ->
  is_u32 (dev_id (dv s)) -> is_u8 (bInterval endp) -> 0 <= TransferLength (urb_ s0) < 2 ^ 31 ->
  0 <= wLength (SetupPacket (ctl (urb_ s0))) ->
  refused s s' r \/ (r = Ok STATUS_PENDING /\ urb_ s' = urb_ s0 /\
    let pkt := SetupPacket (ctl (urb_ s0)) in
    exists h, submitted s s' endp h [] (wLength pkt) (-1) /\
    direction h = (if is_transfer_dir_out pkt then dir_out else dir_in) /\ setup h = setup_bytes pkt).
Proof.
  unfold control_transfer_send. intros Hs Hw Hl Hdev Hh Ha Hi Hd Hiu Ht Hwl. cbv zeta in Hs |- *.
  unfold TransferLength in Ht. set (rr := ctl (urb_ s0)) in *. set (pkt := SetupPacket rr) in *.
  destruct (Z.ltb_spec (FilterReq.TransferBufferLength rr) (wLength pkt)) as [|Hle].
  { injection Hs as <- <-. left. split; [by split|left; by eexists]. }
  assert ((if wLength pkt <? FilterReq.TransferBufferLength rr then wLength pkt else FilterReq.TransferBufferLength rr) = wLength pkt) as Hbl
    by (destruct (Z.ltb_spec (wLength pkt) (FilterReq.TransferBufferLength rr)); lia).
  rewrite Hbl in Hs.
  destruct (if get_device_string_descr pkt =? 0 then _ else _) as [[[len buf]|]|]; cbn [mbind option_bind] in Hs; [| |done].
  { injection Hs as <- <-. left. split; [by split|by right]. }
  destruct (negb (wsk_context_allocated k)).
  { injection Hs as <- <-. left. split; [by split|left; by eexists]. }
  apply (submit_plain k s s0 endp endp0 _ _ (Some (is_transfer_dir_out pkt)) (Some pkt)) in Hs; try done; [lia|].
  unfold TransferLength. fold rr. lia.
Qed.

(** What unpacking does to the length, the setup packet and the endpoints. *)
Lemma unpack_lengths l r f st l' r' : unpack_request l r f = Some (st, l', r') ->
  Function r' = Function r /\ FilterReq.TransferBufferLength r' = FilterReq.TransferBufferLength r /\
  (wLength (SetupPacket r') = 0 \/ SetupPacket r' = SetupPacket r).
Proof.
  unfold unpack_request. intros Hu.
  destruct (_ || _ || _); [|destruct (f =? URB_FUNCTION_SELECT_INTERFACE); [|destruct (f =? URB_FUNCTION_SELECT_CONFIGURATION)]].
  - destruct (TransferBuffer r); try done. unfold clear_endpoint_stall in Hu.
    destruct (find_endpoint l (HANDLE pipe)); injection Hu as <- <- <-; split; auto.
  - destruct (TransferBuffer r); try done. injection Hu as <- <- <-. auto.
  - destruct (TransferBuffer r) as [| | | |cd intfs]; try done. unfold select_configuration in Hu.
    destruct cd as [[v n]|]; [destruct (update_interfaces l (Z.to_nat n) intfs); [|done]|]; injection Hu as <- <- <-; auto.
  - injection Hu as <- <- <-. auto.
Qed.

Definition is_control (u : urb) : bool :=
  (Function (ctl u) =? URB_FUNCTION_CONTROL_TRANSFER_EX) || (Function (ctl u) =? URB_FUNCTION_CONTROL_TRANSFER).
Definition is_isoch (u : urb) : bool :=
  (Function (ctl u) =? URB_FUNCTION_ISOCH_TRANSFER) || (Function (ctl u) =? URB_FUNCTION_ISOCH_TRANSFER_USING_CHAINED_MDL).

Lemma control_transfer_spec k s endp r s' : submit_ok s endp -> setup_ok (SetupPacket (ctl (urb_ s))) ->
  control_transfer k s endp = Some (r, s') ->
  refused s s' r \/ (r = Ok STATUS_PENDING /\ Function (ctl (urb_ s')) = Function (ctl (urb_ s)) /\
    let pkt := SetupPacket (ctl (urb_ s')) in
    exists h, submitted s s' endp h [] (wLength pkt) (-1) /\
    direction h = (if is_transfer_dir_out pkt then dir_out else dir_in) /\ setup h = setup_bytes pkt).
Proof.
  unfold control_transfer. intros (Hd & _ & Hi & Ht & _) (_ & _ & _ & _ & Hwl) Hs.
  set (h := FilterReq.PipeHandle (ctl (urb_ s))) in *.
  set (b := negb (h =? 0) && negb (ep_PipeHandle endp =? h)) in *.
  set (s0 := if b then with_dv s (assign_handle (dv s) endp h) else s) in *.
  set (e0 := if b then set_pipe_handle h endp else endp) in *.
  assert (wire s0 = wire s /\ listed s0 = listed s /\ dev_id (dv s0) = dev_id (dv s) /\ urb_ s0 = urb_ s) as (Hw & Hl & Hdev & Hu)
    by (unfold s0; by destruct b).
  assert (ep_handle e0 = ep_handle endp /\ bEndpointAddress e0 = bEndpointAddress endp /\ bInterval e0 = bInterval endp) as (Hh & Ha & Hin)
    by (unfold e0; by destruct b).
  clearbody s0 e0. clear b. cbv zeta in Hs |- *.
  assert (forall s1, control_transfer_send k s1 e0 = Some (r, s') -> wire s1 = wire s -> listed s1 = listed s ->
    dev_id (dv s1) = dev_id (dv s) -> Function (ctl (urb_ s1)) = Function (ctl (urb_ s)) -> TransferLength (urb_ s1) = TransferLength (urb_ s) ->
    0 <= wLength (SetupPacket (ctl (urb_ s1))) ->
    refused s s' r \/ (r = Ok STATUS_PENDING /\ Function (ctl (urb_ s')) = Function (ctl (urb_ s)) /\
    let pkt := SetupPacket (ctl (urb_ s')) in
    exists h, submitted s s' endp h [] (wLength pkt) (-1) /\
    direction h = (if is_transfer_dir_out pkt then dir_out else dir_in) /\ setup h = setup_bytes pkt)) as Hgo.
  { intros s1 H1 Hw1 Hl1 Hd1 Hf1 Ht1 Hp1. eapply (control_send_spec k s s1 endp e0) in H1; try done; [|by rewrite Ht1].
    destruct H1 as [|(-> & -> & H1)]; [by left|right]. split; [done|]. by split. }
  unfold is_u16 in Hwl.
  destruct (negb (is_request (ctl (urb_ s)))).
  - apply (Hgo s0); try done; rewrite Hu; [done|done|lia].
  - cbn [get_function] in Hs. set (r0 := {| Function := _ |}) in *.
    destruct (unpack_request _ r0 _) as [[[st l] r1]|] eqn:Hun; cbn [mbind option_bind] in Hs; [|done].
    apply unpack_lengths in Hun as (Hf & Hlen & Hset). cbn [Function FilterReq.TransferBufferLength SetupPacket r0] in Hf, Hlen, Hset.
    destruct (negb _).
    { injection Hs as <- <-. left. split; [by split|left; by eexists]. }
    apply (Hgo _ Hs); try done. cbn [urb_ with_urb with_dv ctl set_ctl]. destruct Hset as [-> | ->]; lia.
Qed.

Lemma assign_transfer_handle_same s endp : let s0 := assign_transfer_handle s endp in
  wire s0 = wire s /\ listed s0 = listed s /\ dev_id (dv s0) = dev_id (dv s) /\ urb_ s0 = urb_ s.
Proof. unfold assign_transfer_handle. cbv zeta. by destruct (negb _). Qed.

Lemma bulk_transfer_spec k s endp r s' : submit_ok s endp -> bulk_or_interrupt_transfer k s endp = Some (r, s') ->
  refused s s' r \/ (r = Ok STATUS_PENDING /\ urb_ s' = urb_ s /\
    exists h, submitted s s' endp h [] (TransferLength (urb_ s)) (-1) /\
    direction h = (if usb_endpoint_dir_out endp then dir_out else dir_in)).
Proof.
  unfold bulk_or_interrupt_transfer. intros (Hd & _ & Hi & Ht & _) Hs.
  destruct (assign_transfer_handle_same s endp) as (Hw & Hl & Hdev & Hu). set (s0 := assign_transfer_handle s endp) in *.
  clearbody s0. cbv zeta in Hs. rewrite Hu in Hs.
  destruct (negb (wsk_context_allocated k)).
  { injection Hs as <- <-. left. split; [by split|left; by eexists]. }
  rewrite <- Hu in Hs. apply (submit_plain k s s0 endp endp _ _ None None) in Hs; try done; rewrite ?Hu in *; try done; [|lia].
  destruct Hs as [|(-> & -> & h & Hsub & Hdir & _)]; [by left|right]. split; [done|]. split; [done|]. by exists h.
Qed.

Lemma isoch_transfer_spec k s endp r s' : submit_ok s endp -> isoch_transfer k s endp = Some (r, s') ->
  refused s s' r \/ (r = Ok STATUS_PENDING /\ urb_ s' = urb_ s /\
    exists h isoc, repack (isoch_part (urb_ s)) = Ok isoc /\
    submitted s s' endp h isoc (TransferLength (urb_ s)) (NumberOfPackets (urb_ s)) /\
    direction h = (if usb_endpoint_dir_out endp then dir_out else dir_in) /\ w2 h = StartFrame (urb_ s)).
Proof.
  unfold isoch_transfer. intros (Hd & _ & Hi & Ht & Hsf) Hs.
  destruct (assign_transfer_handle_same s endp) as (Hw & Hl & Hdev & Hu). set (s0 := assign_transfer_handle s endp) in *.
  clearbody s0. cbv zeta in Hs. cbn [urb_ with_dv] in Hs. rewrite Hu in Hs.
  destruct (Z.ltb_spec max_iso_packets (NumberOfPackets (urb_ s))) as [|Hnp].
  { injection Hs as <- <-. left. split; [by split|left; by eexists]. }
  destruct (negb (wsk_context_allocated k)).
  { injection Hs as <- <-. left. split; [by split|left; by eexists]. }
  destruct (set_cmd_submit_spec (dv s0) endp (Z.lor (TransferFlags (ctl (urb_ s))) USBD_START_ISO_TRANSFER_ASAP)
    (TransferLength (urb_ s)) None) as (r0 & Hc & Hcase). rewrite Hc in Hs. cbn [mbind option_bind] in Hs.
  destruct Hcase as [->|(h & d' & -> & Hsub & Hdir & H2 & H3 & c & ->)].
  { injection Hs as <- <-. left. split; [by split|left; by eexists]. }
  destruct (repack (isoch_part (urb_ s))) as [isoc|] eqn:Hrep.
  2: { injection Hs as <- <-. left. split; [by split|left; by eexists]. }
  set (h' := set_isoch h (StartFrame (urb_ s)) (NumberOfPackets (urb_ s))) in *.
  unfold NumberOfPackets in *. unfold max_iso_packets in Hnp.
  assert (Proto.packets h' = NumberOfPackets (urb_ s)) as Hp.
  { unfold Proto.packets, NumberOfPackets. cbn [w3 h' set_isoch]. apply s32_small. lia. }
  assert (length isoc = length (iso_packets (urb_ s))) as Hli by (by apply repack_slots in Hrep as [-> _]).
  pose proof Hsub as (Hcmd & _ & _ & Hw1 & _ & H8 & _).
  assert (cs_transfer_buffer_length h' = TransferLength (urb_ s)) as Hlen.
  { unfold cs_transfer_buffer_length. cbn [h' set_isoch w1]. rewrite Hw1. by apply s32_small. }
  apply send_spec in Hs; [|done|done|lia|right; by rewrite Hp, Hli|intros u [= <-]; split; [lia|right; by rewrite Hlen]|done].
  destruct Hs as [(e & -> & ->)|(-> & _ & Hus & _ & Hl' & Hw' & Hps)].
  { left. split; [by split|left; by eexists]. }
  cbn [urb_ with_dv] in Hus. rewrite Hu in Hus.
  right. split; [done|]. split; [done|]. exists h', isoc. split; [done|]. split; [|done].
  unfold submitted, message_sent. rewrite Hus. cbn [wire listed with_dv] in Hl', Hw'. rewrite <- Hw, <- Hl. split; [done|].
  assert (submit_header (dv s) endp (TransferLength (urb_ s)) h') as Hsub2.
  { unfold submit_header in *. by rewrite <- Hdev. }
  split; [|done]. eapply submit_header_ok; [exact Hsub2|done|done|unfold is_u32; lia|done|].
  cbn [w3 h' set_isoch]. unfold is_u32. lia.
Qed.

(** ** No access out of bounds *)

(** TransferBuffer has TransferBufferLength bytes, and the head of a chain of several MDLs
    describes all of them. *)
Definition memory_ok (u : urb) : Prop :=
  match TransferBufferMDL u with
  | [] => TransferBuffer (ctl u) = NoBuffer \/ TransferLength u <= Z.of_nat (length (buffer_bytes u))
  | [_] => True
  | head :: _ => TransferLength u <= Z.of_nat (length head)
  end.

(** A packed request carries the copy of an URB of its function. *)
Definition packed_ok (s : state) : Prop :=
  is_request (ctl (urb_ s)) = true ->
  forall l, exists x, unpack_request l (snd (get_function (ctl (urb_ s)) true)) (fst (get_function (ctl (urb_ s)) true)) = Some x.

Lemma chain_size_u32_le l : u32 (chain_size l) <= chain_size l.
Proof.
  apply Z.mod_le; [|lia]. unfold chain_size. induction l as [|m l IH]; cbn [map foldr]; lia.
Qed.

Lemma mdl_bytes_total k u m : make_transfer_buffer_mdl k URB_BUF_LEN IoReadAccess u = Ok m -> memory_ok u ->
  exists bs, mdl_bytes u m = Some bs.
Proof.
  unfold make_transfer_buffer_mdl, memory_ok. rewrite Z.eqb_refl. cbn [negb andb]. intros Hm Hmem.
  destruct (Z.eqb_spec (TransferLength u) 0) as [Hz|Hnz]; [injection Hm as <-; by eexists|].
  assert (forall n p, n <= Z.of_nat (length p) -> exists bs, bytes_at 0 (Z.to_nat n) p = Some bs) as Hb.
  { intros n p Hle. eexists. apply bytes_at_0_Some. split; [done|lia]. }
  destruct (TransferBufferMDL u) as [|head next] eqn:Hmdl.
  - assert (TransferBuffer (ctl u) <> NoBuffer) as Hne by (intros Hn; by rewrite Hn in Hm).
    destruct Hmem as [|Hmem]; [done|].
    destruct (TransferBuffer (ctl u)); [done|..];
      (destruct (mdl_allocated k); [|done]; destruct (of_status (pages_locked k)); [|done]; injection Hm as <-; by apply Hb).
  - destruct (Z.ltb_spec (u32 (chain_size (head :: next))) (TransferLength u)) as [|Hle]; cbn [andb orb is_read] in Hm;
      [by rewrite Bool.orb_true_r in Hm|].
    destruct next as [|n next].
    + cbn [negb bool_decide] in Hm. destruct (mdl_allocated k); [|done]. injection Hm as <-. rewrite Z.min_r by lia.
      cbn [mdl_bytes]. rewrite Hmdl. apply Hb. pose proof (chain_size_u32_le [head]) as Hc. unfold chain_size in Hc at 2.
      cbn [map foldr] in Hc. lia.
    + destruct (negb (mdl_mapped k)); [done|]. destruct (mdl_allocated k); [|done]. injection Hm as <-.
      cbn [mdl_bytes]. rewrite Hmdl. by apply Hb.
Qed.

(** prepare_wsk_buf fails, or makes a chain that starts with the announced data. *)
Lemma prepare_total k h isoc tb : command h = CMD_SUBMIT -> 0 <= cs_transfer_buffer_length h ->
  (forall u, tb = Some u -> memory_ok u /\ cs_transfer_buffer_length h <= TransferLength u /\
     (isoc = [] \/ TransferLength u = cs_transfer_buffer_length h)) ->
  (tb = None -> isoc = [] /\ cs_transfer_buffer_length h = 0) ->
  (exists e, prepare_wsk_buf k h isoc tb = Some (Err e)) \/
  exists data n, prepare_wsk_buf k h isoc tb = Some (Ok (data, map byteswap_one isoc, get_total_size h)) /\
    transfer_len h = Z.of_nat n /\ (n <= length data)%nat /\ (isoc = [] \/ length data = n).
Proof.
  intros Hc Hlen Htb Hnone. unfold prepare_wsk_buf.
  assert (transfer_len h = if direction h =? dir_out then cs_transfer_buffer_length h else 0) as Hl
    by (unfold transfer_len; by rewrite Hc).
  destruct tb as [u|]; [destruct (Htb u eq_refl) as (Hmem & Hle & Hi); destruct (direction h =? dir_out)|].
  - destruct (make_transfer_buffer_mdl k URB_BUF_LEN IoReadAccess u) as [m|] eqn:Hm; [right|left; by eexists].
    destruct (mdl_bytes_total k u m Hm Hmem) as [bs Hbs]. rewrite Hbs. cbn [mbind option_bind]. rewrite byteswap_all.
    destruct (make_mdl_read k u m Hm) as [_ Hb]; [lia|]. apply Hb in Hbs as [_ Hbl].
    exists bs, (Z.to_nat (cs_transfer_buffer_length h)). split; [done|]. split; [lia|]. split; [lia|].
    destruct Hi as [->|]; [by left|right; lia].
  - right. exists [], 0%nat. cbn [mbind option_bind]. rewrite byteswap_all. split; [done|]. cbn [length]. split; [lia|]. split; [lia|by right].
  - right. destruct (Hnone eq_refl) as [-> Hz]. exists [], 0%nat. split; [done|]. split; [case_match; lia|]. split; [cbn; lia|by left].
Qed.

Lemma send_total k s b e h isoc tb : command h = CMD_SUBMIT -> length (setup h) = 8%nat -> 0 <= cs_transfer_buffer_length h ->
  Proto.packets h = -1 /\ isoc = [] \/ Proto.packets h = Z.of_nat (length isoc) ->
  (forall u, tb = Some u -> memory_ok u /\ cs_transfer_buffer_length h <= TransferLength u /\
     (isoc = [] \/ TransferLength u = cs_transfer_buffer_length h)) ->
  (tb = None -> isoc = [] /\ cs_transfer_buffer_length h = 0) ->
  exists x, send k s b e h isoc tb = Some x.
Proof.
  intros Hc Hs Hlen Hp Htb Hnone. unfold send.
  destruct (prepare_total k h isoc tb Hc Hlen Htb Hnone) as [[err ->]|(data & n & -> & Hl & Hn & Hi)]; cbn [mbind option_bind];
    [by eexists|].
  rewrite (proj2 (message_bytes h data isoc n _ Hc Hs Hl Hp Hi) (conj eq_refl Hn)). by eexists.
Qed.

(** ** The serial number *)

Definition serial_reply (serial buf : list byte) (n : nat) : list byte :=
  [z2b (2 + 2 * Z.of_nat (length serial)); z2b 3] ++ concat (map (fun c => le_bytes 2 (b2z c)) (take n serial)) ++
  drop (2 + 2 * n) buf.

Lemma length_utf16 l : length (concat (map (fun c => le_bytes 2 (b2z c)) l)) = (2 * length l)%nat.
Proof. induction l as [|c l IH]; [done|]. cbn [map concat]. rewrite length_app, IH, length_le_bytes. cbn [length]. lia. Qed.

Lemma store_Some off bs mem : (off + length bs <= length mem)%nat ->
  store_bytes off bs mem = Some (take off mem ++ bs ++ drop (off + length bs) mem).
Proof. intros. unfold store_bytes. by rewrite decide_True. Qed.

Lemma string_length_app s rest : Forall (fun c => b2z c <> 0) s -> string_length (s ++ x00 :: rest) = Ok (Z.of_nat (length s)).
Proof.
  induction s as [|c s IH]; [done|]. intros [Hc Hs]%List.Forall_cons_iff. cbn [app string_length length].
  destruct (Z.eqb_spec (b2z c) 0); [done|]. rewrite IH by done. cbn. f_equal. lia.
Qed.

(** The driver itself answers a request for the serial number with a string descriptor
    of the whole serial number's length whose UTF-16 characters are cut to the transfer
    length; it reports the bytes written and leaves the rest of the buffer alone. *)
Theorem serial_number_descriptor k tbl s rest sd : Forall (fun c => b2z c <> 0) s -> (length s <= 15)%nat -> retrieved k = Ok sd ->
  2 <= tbl <= Z.of_nat (length sd) ->
  let n := Z.to_nat (Z.min ((tbl - 2) / 2) (Z.of_nat (length s))) in
  fill_usb_device_serial k tbl (s ++ x00 :: rest) =
    Some (Ok (2 + 2 * Z.of_nat n, serial_reply s sd n)) /\ 2 + 2 * Z.of_nat n <= tbl.
Proof.
  intros Hz Hl15 Hr Ht n. unfold fill_usb_device_serial. change (usb_string_descr_size 0) with 2.
  destruct (Z.ltb_spec tbl 2); [lia|]. rewrite string_length_app, Hr by done. cbv zeta. fold n.
  assert (0 <= (tbl - 2) / 2 /\ 2 * ((tbl - 2) / 2) <= tbl - 2) as [Hd1 Hd2] by (split; zdm).
  assert ((n <= length s)%nat /\ 2 * Z.of_nat n <= tbl - 2) as [Hns Hnt] by lia.
  assert (usb_string_descr_size (Z.of_nat (length s)) = 2 + 2 * Z.of_nat (length s)) as ->.
  { unfold usb_string_descr_size, u8. rewrite (Z.mod_small (Z.of_nat _)) by lia. rewrite Z.mod_small; lia. }
  rewrite store_Some by (cbn [length]; lia). rewrite take_0. cbn [mbind option_bind app length Nat.add].
  set (sd1 := z2b _ :: z2b 3 :: drop 2 sd).
  assert (length sd1 = length sd) as Hsd1 by (cbn [sd1 length]; rewrite length_drop; lia).
  rewrite (take_app_le s) by lia.
  assert (length (concat (map (fun c => le_bytes 2 (b2z c)) (take n s))) = 2 * n)%nat as Hlen by (rewrite length_utf16, length_take; lia).
  rewrite store_Some by (rewrite Hlen, Hsd1; lia). cbn [mbind option_bind]. rewrite Hlen.
  assert (usb_string_descr_size (Z.min ((tbl - 2) / 2) (Z.of_nat (length s))) = 2 + 2 * Z.of_nat n) as ->.
  { unfold usb_string_descr_size, u8. rewrite (Z.mod_small (Z.min _ _)) by lia. rewrite Z.mod_small; lia. }
  split; [|lia]. unfold serial_reply, sd1. cbn [take app Nat.add drop]. rewrite drop_drop. repeat f_equal. 
Qed.

Definition quiet_kernel : kernel :=
  {| request_ctx_allocated := true; request_ctx_error := STATUS_SUCCESS; wsk_context_allocated := true;
     mdl_allocated := true; mdl_mapped := true; pages_locked := STATUS_SUCCESS; retrieved := Ok (replicate 9 xff) |}.

(** "AB7" asked for with room for 3.5 characters, and "AB" of it with room for 2. *)
Lemma serial_number_descriptor_witness :
  fill_usb_device_serial quiet_kernel 9 [x41; x42; x37; x00; x00] =
    Some (Ok (8, [x08; x03; x41; x00; x42; x00; x37; x00; xff])) /\
  fill_usb_device_serial quiet_kernel 7 [x41; x42; x37; x00; x00] =
    Some (Ok (6, [x08; x03; x41; x00; x42; x00; xff; xff; xff])).
Proof.
  split.
  - refine (proj1 (serial_number_descriptor quiet_kernel 9 [x41; x42; x37] [x00] (replicate 9 xff) _ _ eq_refl _));
      [repeat constructor; by cbv|cbn; lia|cbn; lia].
  - refine (proj1 (serial_number_descriptor quiet_kernel 7 [x41; x42; x37] [x00] (replicate 9 xff) _ _ eq_refl _));
      [repeat constructor; by cbv|cbn; lia|cbn; lia].
Defined.

(** ** Submitting *)

(** The length the header announces: that of the setup packet for a control transfer. *)
Definition announced (s' : state) : Z :=
  if is_control (urb_ s') then wLength (SetupPacket (ctl (urb_ s'))) else TransferLength (urb_ s').

(** The direction: that of the setup packet for a control transfer, that of the endpoint. *)
Definition goes_out (s' : state) (endp : FilterReq.endpoint_ctx) : bool :=
  if is_control (urb_ s') then is_transfer_dir_out (SetupPacket (ctl (urb_ s'))) else usb_endpoint_dir_out endp.

(** C8: an URB that usb_submit_urb accepts puts exactly one message on the socket and one
    entry on the request list: a valid CMD_SUBMIT header for the endpoint, with a fresh
    sequence number of the transfer's direction, then the data of an OUT transfer and the
    packet descriptors, of exactly the length a server computes from that header.  In all
    the other cases nothing is sent and nothing is listed. *)
Theorem submit_outcome k s endp r s' : submit_ok s endp -> setup_ok (SetupPacket (ctl (urb_ s))) ->
  usb_submit_urb k s endp = Some (r, s') ->
  refused s s' r \/
  (r = Ok STATUS_PENDING /\ exists h isoc,
    message_sent s s' endp isoc h /\ header_ok h /\ submit_header (dv s) endp (announced s') h /\
    direction h = (if goes_out s' endp then dir_out else dir_in) /\
    if is_isoch (urb_ s) then repack (isoch_part (urb_ s)) = Ok isoc /\ Proto.packets h = NumberOfPackets (urb_ s) /\ w2 h = StartFrame (urb_ s)
    else isoc = [] /\ Proto.packets h = -1 /\ (is_control (urb_ s) = true -> setup h = setup_bytes (SetupPacket (ctl (urb_ s'))))).
Proof.
  intros Hok Hset Hs. unfold usb_submit_urb in Hs. cbv zeta in Hs.
  destruct (negb (request_ctx_allocated k)).
  { injection Hs as <- <-. left. split; [by split|left; by eexists]. }
  unfold goes_out, announced, is_isoch, is_control. set (f := Function (ctl (urb_ s))) in *.
  destruct (_ || _) eqn:Hb in Hs; [|destruct (_ || _) eqn:Hi in Hs; [|destruct (_ || _) eqn:Hc in Hs]].
  - apply bulk_transfer_spec in Hs as [|(-> & -> & h & (Hm & Hh & Hsub & Hp) & Hd)]; [by left| |done]. right. split; [done|].
    exists h, []. fold f. 
    assert (f = URB_FUNCTION_BULK_OR_INTERRUPT_TRANSFER \/ f = URB_FUNCTION_BULK_OR_INTERRUPT_TRANSFER_USING_CHAINED_MDL) as [-> | ->]
      by (bool_prop; lia); by repeat (split; [done|]).
  - apply isoch_transfer_spec in Hs as [|(-> & -> & h & isoc & Hr & (Hm & Hh & Hsub & Hp) & Hd & H2)]; [by left| |done]. right. split; [done|].
    exists h, isoc. fold f.
    assert (f = URB_FUNCTION_ISOCH_TRANSFER \/ f = URB_FUNCTION_ISOCH_TRANSFER_USING_CHAINED_MDL) as [-> | ->]
      by (bool_prop; lia); by repeat (split; [done|]).
  - apply control_transfer_spec in Hs as [|(-> & Hf & h & (Hm & Hh & Hsub & Hp) & Hd & H2)]; [by left| |done..]. right. split; [done|].
    exists h, []. rewrite Hf. fold f.
    assert (f = URB_FUNCTION_CONTROL_TRANSFER_EX \/ f = URB_FUNCTION_CONTROL_TRANSFER) as [-> | ->]
      by (bool_prop; lia); by repeat (split; [done|]).
  - injection Hs as <- <-. left. split; [by split|left; by eexists].
Qed.

Lemma string_length_bound s n : string_length s = Ok n -> 0 <= n < Z.of_nat (length s).
Proof.
  revert n. induction s as [|c s IH]; intros n; [done|]. cbn [string_length length]. destruct (b2z c =? 0).
  - intros [= <-]. lia.
  - destruct (string_length s) as [m|]; [|done]. intros [= <-]. specialize (IH m eq_refl). lia.
Qed.

Lemma fill_serial_total k tbl serial : length serial = 16%nat -> (forall sd, retrieved k = Ok sd -> tbl <= Z.of_nat (length sd)) ->
  exists x, fill_usb_device_serial k tbl serial = Some x.
Proof.
  intros Hl Hr. unfold fill_usb_device_serial. change (usb_string_descr_size 0) with 2. cbv zeta.
  destruct (Z.ltb_spec tbl 2); [by eexists|]. destruct (string_length serial) as [n|] eqn:Hn; [|by eexists].
  apply string_length_bound in Hn. destruct (retrieved k) as [sd|]; [|by eexists]. specialize (Hr sd eq_refl).
  rewrite store_Some by (cbn [length]; lia). rewrite take_0. cbn [mbind option_bind app length Nat.add].
  rewrite store_Some; [by eexists|]. rewrite length_utf16, length_take. cbn [length]. rewrite length_drop. zdm.
Qed.

Lemma submit_plain_total k s0 endp flags len dir p : 0 <= len < 2 ^ 31 -> memory_ok (urb_ s0) -> len <= TransferLength (urb_ s0) ->
  exists x, (h ← set_cmd_submit_usbip_header (dv s0) endp flags len dir;
   match h with
   | Err e => Some (Err e, s0)
   | Ok (hdr, d) => send k (with_dv s0 d) true (Some (ep_handle endp)) (match p with Some p => set_setup hdr p | None => hdr end) []
                      (Some (urb_ s0))
   end) = Some x.
Proof.
  intros Hlen Hmem Hle.
  destruct (set_cmd_submit_spec (dv s0) endp flags len dir) as (r0 & -> & Hcase). cbn [mbind option_bind].
  destruct Hcase as [->|(h & d' & -> & Hsub & _ & _ & H3 & _)]; [by eexists|].
  destruct Hsub as (Hcmd & _ & _ & Hw1 & _ & H8 & _).
  assert (cs_transfer_buffer_length (match p with Some p => set_setup h p | None => h end) = len) as Hcs
    by (destruct p; unfold cs_transfer_buffer_length; cbn [w1 set_setup]; rewrite Hw1; by apply s32_small).
  apply send_total; [by destruct p|by destruct p|lia| | |done].
  - left. split; [|done]. destruct p; by apply packets_non_isoch.
  - intros u [= <-]. rewrite Hcs. split; [done|]. split; [done|by left].
Qed.

Definition buffers_ok (k : kernel) (s : state) : Prop :=
  memory_ok (urb_ s) /\ packed_ok s /\ length (serial (dv s)) = 16%nat /\
  forall sd, retrieved k = Ok sd -> TransferLength (urb_ s) <= Z.of_nat (length sd).

Lemma control_send_total k s0 endp : 0 <= TransferLength (urb_ s0) < 2 ^ 31 -> 0 <= wLength (SetupPacket (ctl (urb_ s0))) ->
  memory_ok (urb_ s0) -> length (serial (dv s0)) = 16%nat ->
  (forall sd, retrieved k = Ok sd -> TransferLength (urb_ s0) <= Z.of_nat (length sd)) ->
  exists x, control_transfer_send k s0 endp = Some x.
Proof.
  unfold control_transfer_send. intros Ht Hwl Hmem Hser Hret. cbv zeta.
  unfold TransferLength in Ht, Hret. set (rr := ctl (urb_ s0)) in *. set (pkt := SetupPacket rr) in *.
  destruct (Z.ltb_spec (FilterReq.TransferBufferLength rr) (wLength pkt)) as [|Hle]; [by eexists|].
  assert ((if wLength pkt <? FilterReq.TransferBufferLength rr then wLength pkt else FilterReq.TransferBufferLength rr) = wLength pkt) as ->
    by (destruct (Z.ltb_spec (wLength pkt) (FilterReq.TransferBufferLength rr)); lia).
  destruct (fill_serial_total k (FilterReq.TransferBufferLength rr) (serial (dv s0)) Hser Hret) as [f Hf]. rewrite Hf.
  assert (exists o, (if get_device_string_descr pkt =? 0 then Some None else
     if negb (get_device_string_descr pkt =? iserial (dv s0)) then Some None else
     f ← Some f; match f with Ok (len, buf) => Some (Some (len, buf)) | Err _ => Some None end) = Some o) as [o ->].
  { destruct (_ =? 0); [by eexists|]. destruct (negb _); [by eexists|]. destruct f as [[len buf]|]; by eexists. }
  cbn [mbind option_bind]. destruct o as [[len buf]|]; [by eexists|]. destruct (negb (wsk_context_allocated k)); [by eexists|].
  apply (submit_plain_total k s0 endp _ _ _ (Some pkt)); [lia|done|]. unfold TransferLength. fold rr. lia.
Qed.

Lemma unpack_memory u l f st l' r' : memory_ok u -> unpack_request l (snd (get_function (ctl u) true)) f = Some (st, l', r') ->
  memory_ok (set_ctl u r') .
Proof.
  intros Hm Hu. pose proof (unpack_lengths _ _ _ _ _ _ Hu) as (_ & Hlen & _).
  assert ((TransferBuffer r' = NoBuffer <-> TransferBuffer (ctl u) = NoBuffer) /\ buffer_bytes (set_ctl u r') = buffer_bytes u) as [Hb Hbb].
  { unfold buffer_bytes. cbn [ctl set_ctl packed_image]. unfold unpack_request in Hu. cbn [snd get_function TransferBuffer SetupPacket] in Hu.
    destruct (_ || _ || _); [|destruct (f =? URB_FUNCTION_SELECT_INTERFACE); [|destruct (f =? URB_FUNCTION_SELECT_CONFIGURATION)]];
      [destruct (TransferBuffer (ctl u)); try done; destruct (clear_endpoint_stall _ _ _) as [[? ?] ?]
      |destruct (TransferBuffer (ctl u)) eqn:Hb; try done
      |destruct (TransferBuffer (ctl u)) eqn:Hb; try done; destruct (select_configuration _ _ _) as [[? ?]|]; try done|];
      injection Hu as <- <- <-; cbn [TransferBuffer set_urb snd get_function]; rewrite ?Hb; done. }
  unfold memory_ok in *. cbn [TransferBufferMDL set_ctl]. unfold TransferLength in *. rewrite Hbb. cbn [ctl set_ctl]. rewrite Hlen.
  cbn [snd get_function FilterReq.TransferBufferLength]. by destruct (TransferBufferMDL u) as [|? [|? ?]]; rewrite ?Hb.
Qed.

Lemma control_total k s endp : submit_ok s endp -> setup_ok (SetupPacket (ctl (urb_ s))) -> buffers_ok k s ->
  exists x, control_transfer k s endp = Some x.
Proof.
  intros (_ & _ & _ & Ht & _) (_ & _ & _ & _ & Hwl) (Hmem & Hpk & Hser & Hret). unfold control_transfer. cbv zeta.
  set (h := FilterReq.PipeHandle (ctl (urb_ s))). set (b := negb (h =? 0) && negb (ep_PipeHandle endp =? h)).
  set (s0 := if b then with_dv s (assign_handle (dv s) endp h) else s).
  assert (urb_ s0 = urb_ s /\ serial (dv s0) = serial (dv s)) as [Hu Hse] by (unfold s0; by destruct b).
  clearbody s0. generalize (if b then set_pipe_handle h endp else endp). clear b. intros e0. unfold is_u16 in Hwl.
  destruct (is_request (ctl (urb_ s))) eqn:Hreq; cbn [negb].
  - destruct (Hpk Hreq (endpoints (dv s0))) as [[[st l] r1] Hun].
    pose proof (unpack_memory _ _ _ _ _ _ Hmem Hun) as Hmem'.
    pose proof (unpack_lengths _ _ _ _ _ _ Hun) as (_ & Hlen & Hset).
    destruct (get_function (ctl (urb_ s)) true) as [func r0] eqn:Hg. cbn [fst snd] in *. rewrite Hun. cbn [mbind option_bind].
    injection Hg as _ <-. cbn [FilterReq.TransferBufferLength SetupPacket] in Hlen, Hset.
    destruct (negb _); [by eexists|].
    apply control_send_total; unfold TransferLength; cbn [urb_ with_urb with_dv ctl set_ctl serial set_endpoints dv]; rewrite ?Hlen, ?Hu.
    + done.
    + destruct Hset as [-> | ->]; lia.
    + done.
    + by rewrite Hse.
    + done.
  - apply control_send_total; rewrite ?Hu, ?Hse; [done|lia|done..].
Qed.

Lemma isoch_total k s endp : submit_ok s endp -> memory_ok (urb_ s) -> exists x, isoch_transfer k s endp = Some x.
Proof.
  intros (_ & _ & _ & Ht & _) Hmem. unfold isoch_transfer. cbv zeta.
  destruct (assign_transfer_handle_same s endp) as (_ & _ & _ & Hu). set (s0 := assign_transfer_handle s endp) in *. clearbody s0.
  cbn [urb_ with_dv]. rewrite Hu. destruct (Z.ltb_spec max_iso_packets (NumberOfPackets (urb_ s))) as [|Hnp]; [by eexists|].
  destruct (negb _); [by eexists|].
  destruct (set_cmd_submit_spec (dv s0) endp (Z.lor (TransferFlags (ctl (urb_ s))) USBD_START_ISO_TRANSFER_ASAP)
    (TransferLength (urb_ s)) None) as (r0 & -> & Hcase). cbn [mbind option_bind].
  destruct Hcase as [->|(h & d' & -> & Hsub & _)]; [by eexists|].
  destruct (repack (isoch_part (urb_ s))) as [isoc|] eqn:Hrep; [|by eexists].
  assert (length isoc = length (iso_packets (urb_ s))) as Hli by (by apply repack_slots in Hrep as [-> _]).
  destruct Hsub as (Hcmd & _ & _ & Hw1 & _ & H8 & _). unfold NumberOfPackets, max_iso_packets in *.
  assert (cs_transfer_buffer_length (set_isoch h (StartFrame (urb_ s)) (Z.of_nat (length (iso_packets (urb_ s))))) = TransferLength (urb_ s)) as Hcs
    by (unfold cs_transfer_buffer_length; cbn [w1 set_isoch]; rewrite Hw1; by apply s32_small).
  apply send_total; [done|done|lia| | |done].
  - right. unfold Proto.packets. cbn [w3 set_isoch]. rewrite Hli. apply s32_small. lia.
  - intros u [= <-]. rewrite Hcs. split; [done|]. split; [done|by right].
Qed.

(** Submitting never reads or writes outside of the URB's buffers: TransferBuffer, the
    MDLs, the buffer a serial number is written to, the packet descriptors; and the search
    for a sequence number ends. *)
Theorem submit_memory_safe k s endp : submit_ok s endp -> setup_ok (SetupPacket (ctl (urb_ s))) -> buffers_ok k s ->
  exists r s', usb_submit_urb k s endp = Some (r, s').
Proof.
  intros Hok Hset Hbuf. assert (exists x, usb_submit_urb k s endp = Some x) as [[r s'] ->]; [|by eexists _, _].
  unfold usb_submit_urb. cbv zeta. destruct (negb (request_ctx_allocated k)); [by eexists|].
  destruct (_ || _); [|destruct (_ || _); [|destruct (_ || _); [|by eexists]]].
  - unfold bulk_or_interrupt_transfer. cbv zeta. destruct (assign_transfer_handle_same s endp) as (_ & _ & _ & Hu).
    set (s0 := assign_transfer_handle s endp) in *. clearbody s0. destruct (negb _); [by eexists|].
    destruct Hok as (_ & _ & _ & Ht & _), Hbuf as (Hmem & _).
    apply (submit_plain_total k s0 endp _ _ None None); rewrite Hu; [done|done|lia].
  - apply isoch_total; [done|apply Hbuf].
  - by apply control_total.
Qed.

(** ** Witnesses *)

Definition storage : device :=
  {| counter := 41; dev_id := 0x10002; serial := replicate 16 x00; iserial := 3; unplugged := false;
     endpoints := two_endpoints;
     ep0 := {| ep_handle := 1; bLength := 7; bDescriptorType := 5; bEndpointAddress := 0; bmAttributes := 0; bInterval := 0; ep_PipeHandle := 0 |} |}.

Definition bulk_out : endpoint_ctx :=
  {| ep_handle := 3; bLength := 7; bDescriptorType := 5; bEndpointAddress := 0x02; bmAttributes := 2; bInterval := 0; ep_PipeHandle := 0 |}.

Definition write_urb : urb :=
  {| ctl := {| Function := URB_FUNCTION_BULK_OR_INTERRUPT_TRANSFER; UrbStatus := USBD_STATUS_SUCCESS; FilterReq.PipeHandle := 1002;
               TransferFlags := 0; FilterReq.TransferBufferLength := 3; TransferBuffer := Bytes [x0a; x0b; x0c]; Timeout := 0;
               SetupPacket := make_set_configuration 0 |};
     TransferBufferMDL := []; packed_image := []; StartFrame := 0; ErrorCount := 0; iso_packets := [] |}.

Definition write_state : state := {| dv := storage; urb_ := write_urb; reply := None; listed := []; wire := [] |}.

Lemma write_state_ok : submit_ok write_state bulk_out /\ setup_ok (SetupPacket (ctl (urb_ write_state))).
Proof. vm_compute. repeat split; discriminate. Qed.

Lemma submit_memory_safe_witness : exists r s', usb_submit_urb quiet_kernel write_state bulk_out = Some (r, s').
Proof.
  apply (submit_memory_safe quiet_kernel write_state bulk_out (proj1 write_state_ok) (proj2 write_state_ok)).
  split; [right; by cbv|]. split; [discriminate|]. split; [reflexivity|]. intros sd [= <-]. by cbv.
Defined.

(** Three bytes for endpoint 2: 48 + 3 bytes on the socket, sequence number 84. *)
Lemma submit_outcome_witness :
  let s' := {| dv := set_counter (assign_handle storage bulk_out 1002) 42; urb_ := write_urb; reply := None; listed := [(84, 3%positive)];
               wire := [[x00;x00;x00;x01; x00;x00;x00;x54; x00;x01;x00;x02; x00;x00;x00;x00; x00;x00;x00;x02;
                         x00;x00;x00;x00; x00;x00;x00;x03; x00;x00;x00;x00; xff;xff;xff;xff; x00;x00;x00;x00;
                         x00;x00;x00;x00;x00;x00;x00;x00; x0a;x0b;x0c]] |} in
  refused write_state s' (Ok STATUS_PENDING) \/
  (Ok STATUS_PENDING = Ok STATUS_PENDING /\ exists h isoc,
    message_sent write_state s' bulk_out isoc h /\ header_ok h /\ submit_header storage bulk_out 3 h /\
    direction h = dir_out /\ isoc = [] /\ Proto.packets h = -1 /\ (false = true -> setup h = setup_bytes (make_set_configuration 0))).
Proof.
  cbv zeta. refine (submit_outcome quiet_kernel write_state bulk_out _ _ (proj1 write_state_ok) (proj2 write_state_ok) _).
  vm_compute. reflexivity.
Defined.

(** ** A chain whose head is shorter than the transfer *)

(** The buffer of a chain is taken to be at the system address of its head: with a head of
    [length head] bytes the new MDL describes memory past the head's mapping. *)
Lemma chained_mdl_reads_past_head k u head next : TransferBufferMDL u = head :: next -> next <> [] ->
  Z.of_nat (length head) < TransferLength u <= u32 (chain_size (head :: next)) -> TransferLength u < 2 ^ 31 ->
  mdl_mapped k = true -> mdl_allocated k = true ->
  make_transfer_buffer_mdl k URB_BUF_LEN IoReadAccess u = Ok (FromHead (TransferLength u)) /\ mdl_bytes u (FromHead (TransferLength u)) = None.
Proof.
  intros Hu Hn Hl Ht Hm Ha. unfold make_transfer_buffer_mdl. rewrite Z.eqb_refl. cbn [negb andb].
  destruct (Z.eqb_spec (TransferLength u) 0); [lia|]. rewrite Hu. destruct (Z.ltb_spec (u32 (chain_size (head :: next))) (TransferLength u)); [lia|].
  rewrite bool_decide_eq_false_2 by done. cbn [andb negb]. rewrite Hm, Ha. cbn [negb]. split; [done|].
  cbn [mdl_bytes]. rewrite Hu. cbn. unfold bytes_at. rewrite decide_False; [done|]. lia.
Qed.
