(* ===== verification/Receive.v ===== *)
(** * Receiving the server's responses

    Models drivers/ude/wsk_receive.cpp, the thread that reads USBIP_RET_* messages from
    the socket and completes the requests they answer, with the packet descriptors and
    the tail buffer of its wsk_context (drivers/ude/wsk_context.cpp).  The socket is the
    interface [Session.Net].  Reading or writing outside of a buffer, or of an URB that a
    request does not have, is [None]. *)

From S2P Require Import Prelude Parser DescPatch Proto Session Usbd Isoch Requests FilterReq Submit.

(** ** Data *)

(** A request that waits for its response: its URB if it has one, and what
    UdecxUrbRetrieveBuffer returns for it, the memory of the transfer buffer. *)
Record rx_request : Type := { rx_urb : option urb; rx_buffer : res (list byte) }.

(** The wsk_context of the thread.  [isoc] is the array of isoc_alloc_cnt descriptors, []
    if it is NULL; [mdl_isoc] and [mdl_buf_tail] are sizes of MDLs, zero without one. *)
Record wsk_context : Type := {
  hdr : header; isoc : list iso_packet_descriptor; mdl_isoc : Z; is_isoc : bool; buf_tail : bool; mdl_buf_tail : Z }.

(** The members of device_ctx_ext used here. *)
Record rx_device : Type := { has_serial : bool; iserial : Z; speed : Z }.

(** What the kernel answers while one message is processed. *)
Record rx_kernel : Type := { kern : kernel; pool_allocated : bool }.

Definition set_hdr (c : wsk_context) (h : header) : wsk_context :=
  {| hdr := h; isoc := isoc c; mdl_isoc := mdl_isoc c; is_isoc := is_isoc c; buf_tail := buf_tail c; mdl_buf_tail := mdl_buf_tail c |}.
Definition set_isoc (c : wsk_context) (l : list iso_packet_descriptor) : wsk_context :=
  {| hdr := hdr c; isoc := l; mdl_isoc := mdl_isoc c; is_isoc := is_isoc c; buf_tail := buf_tail c; mdl_buf_tail := mdl_buf_tail c |}.
Definition set_rx_urb (r : rx_request) (u : urb) : rx_request := {| rx_urb := Some u; rx_buffer := rx_buffer r |}.
Definition set_rx_buffer (r : rx_request) (b : list byte) : rx_request := {| rx_urb := rx_urb r; rx_buffer := Ok b |}.

Definition set_status (u : urb) (st : usbd_status) : urb :=
  let c := ctl u in
  set_ctl u {| Function := Function c; UrbStatus := st; FilterReq.PipeHandle := FilterReq.PipeHandle c;
               TransferFlags := TransferFlags c; FilterReq.TransferBufferLength := FilterReq.TransferBufferLength c;
               TransferBuffer := TransferBuffer c; Timeout := Timeout c; SetupPacket := SetupPacket c |}.

Definition set_isoch_results (u : urb) (start_frame error_count : Z) (pkts : list usbd_iso_packet) : urb :=
  {| ctl := ctl u; TransferBufferMDL := TransferBufferMDL u; packed_image := packed_image u; StartFrame := start_frame;
     ErrorCount := error_count; iso_packets := pkts |}.

(** UdecxUrbSetBytesCompleted *)
Definition UdecxUrbSetBytesCompleted (u : urb) (n : Z) : urb := set_ctl u (set_length (ctl u) n).

(** ** wsk_context.cpp *)

Definition alloc_buf_tail (k : rx_kernel) (buf : bool) (length : Z) : ntstatus * bool :=
  if 4096 / 2 <? length then (STATUS_BUFFER_TOO_SMALL, buf)
  else if buf then (STATUS_SUCCESS, true)
  else if negb (pool_allocated k) then (STATUS_INSUFFICIENT_RESOURCES, false)
  else (STATUS_SUCCESS, true).

Definition alloc_mdl_buf_tail (k : rx_kernel) (c : wsk_context) (length : Z) : ntstatus * wsk_context :=
  let '(st, b) := alloc_buf_tail k (buf_tail c) length in
  let set m := {| hdr := hdr c; isoc := isoc c; mdl_isoc := mdl_isoc c; is_isoc := is_isoc c; buf_tail := b; mdl_buf_tail := m |} in
  if negb (bool_decide (st = STATUS_SUCCESS)) then (st, set (mdl_buf_tail c))
  else if mdl_buf_tail c =? length then (STATUS_SUCCESS, set (mdl_buf_tail c))
  else if negb (mdl_allocated (kern k)) then (STATUS_INSUFFICIENT_RESOURCES, set 0)
  else (STATUS_SUCCESS, set length).

Definition zero_iso : iso_packet_descriptor := {| iso_offset := 0; iso_length := 0; iso_actual_length := 0; iso_status := 0 |}.

Definition prepare_isoc (k : rx_kernel) (c : wsk_context) (NumberOfPackets : Z) : ntstatus * wsk_context :=
  let set l m := {| hdr := hdr c; isoc := l; mdl_isoc := m; is_isoc := negb (NumberOfPackets =? 0);
                    buf_tail := buf_tail c; mdl_buf_tail := mdl_buf_tail c |} in
  if NumberOfPackets =? 0 then (STATUS_SUCCESS, set (isoc c) (mdl_isoc c))
  else
    let isoc_len := NumberOfPackets * sizeof_iso_packet_descriptor in
    let grow := Z.of_nat (length (isoc c)) <? NumberOfPackets in
    if grow && negb (pool_allocated k) then (STATUS_INSUFFICIENT_RESOURCES, set (isoc c) (mdl_isoc c))
    else
      let l := if grow then replicate (Z.to_nat NumberOfPackets) zero_iso else isoc c in
      let m := if grow then 0 else mdl_isoc c in
      if m =? isoc_len then (STATUS_SUCCESS, set l m)
      else if negb (mdl_allocated (kern k)) then (STATUS_INSUFFICIENT_RESOURCES, set l 0)
      else (STATUS_SUCCESS, set l isoc_len).

(** ** Lengths *)

Definition check (TransferBufferLength actual_length : Z) : ntstatus :=
  if (0 <=? actual_length) && (actual_length <=? TransferBufferLength) then STATUS_SUCCESS else STATUS_INVALID_BUFFER_SIZE.

(** The status and the length afterwards. *)
Definition assign (TransferBufferLength actual_length : Z) : ntstatus * Z :=
  let err := check TransferBufferLength actual_length in
  (err, if bool_decide (err = STATUS_SUCCESS) then actual_length else 0).

(** ** Responses *)

Section receive.
Context {N : Type} `{Net N} (parse : list byte -> Z -> nat -> Z -> option nat).

Definition isoch_transfer (c : wsk_context) (ret : header) (r : rx_request) (u : urb) : option (ntstatus * wsk_context * rx_request) :=
  let cnt := rs_number_of_packets ret in
  let u := if negb (cnt =? 0) && (cnt =? rs_error_count ret) then set_status u USBD_STATUS_ISOCH_REQUEST_FAILED else u in
  let u := set_isoch_results u
             (if has_flag (TransferFlags (ctl u)) USBD_START_ISO_TRANSFER_ASAP then w2 ret else StartFrame u)
             (w4 ret) (iso_packets u) in
  if (0 <=? cnt) && (cnt =? NumberOfPackets u) then
    l ← byteswap (isoc c) (Z.to_nat cnt);
    let c := set_isoc c l in
    let buf := if direction (hdr c) =? dir_in then (b ← rx_buffer r; Ok (Some b)) else Ok None in
    match buf with
    | Err err => Some (err, c, set_rx_urb r u)
    | Ok buffer =>
        '(st, pkts, b) ← fill_isoc_data (isoch_part u) buffer (w1 ret) (isoc c);
        let u := set_isoch_results u (StartFrame u) (ErrorCount u) pkts in
        Some (st, c, {| rx_urb := Some u; rx_buffer := match b with Some b => Ok b | None => rx_buffer r end |})
    end
  else Some (STATUS_INVALID_PARAMETER, c, set_rx_urb r u).

(** The buffer and the properties after the call. *)
Definition post_control_transfer (d : rx_device) (r : urb_control) (buf : list byte) : option (rx_device * list byte) :=
  let dsc_len := u16 (FilterReq.TransferBufferLength r) in
  let ok := has_flag (TransferFlags r) USBD_DEFAULT_PIPE_TRANSFER && negb (is_transfer_dir_out (SetupPacket r)) &&
            (bRequest (SetupPacket r) =? USB_REQUEST_GET_DESCRIPTOR) && (2 <=? dsc_len) in
  if negb ok then Some (d, buf)
  else
    bLength ← rd buf 0;
    bDescriptorType ← rd buf 1;
    if bDescriptorType =? 2 then
      if negb (9 <? dsc_len) || negb (bLength =? 9) then Some (d, buf)
      else
        wTotalLength ← rd16 buf 2;
        if negb (wTotalLength =? dsc_len) then Some (d, buf)
        else buf ← patch_configuration_for_udecx parse buf (speed d); Some (d, buf)
    else if bDescriptorType =? 1 then
      if (dsc_len =? 18) && (bLength =? dsc_len) && has_serial d then
        iSerialNumber ← rd buf 16;
        buf ← (if iSerialNumber =? 0 then wr buf 16 255 else Some buf);
        iSerialNumber ← rd buf 16;
        Some ({| has_serial := has_serial d; iserial := iSerialNumber; speed := speed d |}, buf)
      else Some (d, buf)
    else Some (d, buf).

Definition post_process_transfer_buffer (d : rx_device) (u : urb) (buf : list byte) : option (rx_device * list byte) :=
  if is_control u then post_control_transfer d (ctl u) buf else Some (d, buf).

Definition ret_submit_urb (d : rx_device) (c : wsk_context) (ret : header) (r : rx_request) (u : urb)
    : option (ntstatus * rx_device * wsk_context * rx_request) :=
  let st := if negb (rs_status ret =? 0) then to_windows_status (rs_status ret) else USBD_STATUS_SUCCESS in
  let u := set_status u st in
  if Submit.is_isoch u then
    '(st, c, r) ← isoch_transfer c ret r u; Some (st, d, c, r)
  else
    match rx_buffer r with
    | Err err => Some (if bool_decide (err = STATUS_INVALID_PARAMETER) then STATUS_SUCCESS else err, d, c, set_rx_urb r u)
    | Ok buf =>
        let '(st, len) := if negb (TransferLength u =? w1 ret) then assign (TransferLength u) (rs_actual_length ret)
                          else (STATUS_SUCCESS, TransferLength u) in
        let u := UdecxUrbSetBytesCompleted u len in
        '(d, buf) ← (if NT_SUCCESS st && negb (len =? 0) then post_process_transfer_buffer d u buf else Some (d, buf));
        Some (st, d, c, {| rx_urb := Some u; rx_buffer := Ok buf |})
    end.

Definition ret_submit (d : rx_device) (c : wsk_context) (r : rx_request) : option (ntstatus * rx_device * wsk_context * rx_request) :=
  match rx_urb r with
  | Some u => ret_submit_urb d c (hdr c) r u
  | None => Some (if negb (rs_status (hdr c) =? 0) then STATUS_UNSUCCESSFUL else STATUS_SUCCESS, d, c, r)
  end.

(** ** Payloads *)

(** The chain of MDLs to receive into: a part of the transfer buffer, bytes that are
    dropped, and the packet descriptors. *)
Record chain : Type := { to_buffer : mdl; to_tail : Z; to_isoc : bool }.

Definition chain_length (c : wsk_context) (t : chain) : Z :=
  mdl_length (to_buffer t) + to_tail t + (if to_isoc t then mdl_isoc c else 0).

(** ctx.mdl_buf is [m], with a tail of [gap] bytes; [None] is head->Next of NULL. *)
Definition make_mdl_chain (c : wsk_context) (m : mdl) (gap : Z) : option chain :=
  if negb (is_isoc c) then
    match m with NoMdl => None | _ => Some {| to_buffer := m; to_tail := gap; to_isoc := false |} end
  else Some {| to_buffer := m; to_tail := gap; to_isoc := true |}.

(** The end of prepare_wsk_mdl: the MDL of the buffer and a tail for what it is short of. *)
Definition make_receive_chain (k : rx_kernel) (c : wsk_context) (u : urb) (actual_length : Z) : option (res chain * wsk_context) :=
  match make_transfer_buffer_mdl (kern k) actual_length IoWriteAccess u with
  | Err err => Some (Err err, c)
  | Ok m =>
      let len := mdl_length m in
      if len <? actual_length then
        let gap := actual_length - len in
        let '(err, c) := alloc_mdl_buf_tail k c gap in
        if negb (bool_decide (err = STATUS_SUCCESS)) then Some (Err err, c)
        else t ← make_mdl_chain c m gap; Some (Ok t, c)
      else t ← make_mdl_chain c m 0; Some (Ok t, c)
  end.

Definition prepare_wsk_mdl (k : rx_kernel) (c : wsk_context) (r : rx_request) : option (res chain * wsk_context * rx_request) :=
  let ret := hdr c in
  let '(err, c) := prepare_isoc k c (rs_number_of_packets ret) in
  if negb (bool_decide (err = STATUS_SUCCESS)) then Some (Err err, c, r)
  else
    u ← rx_urb r;
    match rx_buffer r with
    | Err err => Some (Err err, c, r)
    | Ok _ =>
        let TransferBufferLength := TransferLength u in
        let dir_out := direction (hdr c) =? Proto.dir_out in
        let al := rs_actual_length ret in
        let '(fail, len, u) :=
          if is_isoc c then (negb (bool_decide (check TransferBufferLength al = STATUS_SUCCESS)), TransferBufferLength, u)
          else
            let '(err, len) := assign TransferBufferLength al in
            (negb (bool_decide (err = STATUS_SUCCESS)) || dir_out, len, UdecxUrbSetBytesCompleted u len) in
        let r := set_rx_urb r u in
        if fail || (len =? 0) then Some (Err STATUS_INVALID_BUFFER_SIZE, c, r)
        else if dir_out then t ← make_mdl_chain c NoMdl 0; Some (Ok t, c, r)
        else '(t, c) ← make_receive_chain k c u al; Some (t, c, r)
    end.

(** Writing received bytes to the transfer buffer through an MDL, see [mdl_bytes]. *)
Definition write_mdl (u : urb) (buf : list byte) (m : mdl) (data : list byte) : option (list byte) :=
  _ ← mdl_bytes u m; store_bytes 0 data buf.

(** The bytes that arrived are scattered over the chain. *)
Definition scatter (c : wsk_context) (r : rx_request) (t : chain) (data : list byte) : option (wsk_context * rx_request) :=
  u ← rx_urb r;
  let n := Z.to_nat (mdl_length (to_buffer t)) in
  match rx_buffer r with
  | Err _ => None
  | Ok buf =>
      buf ← write_mdl u buf (to_buffer t) (take n data);
      let rest := drop (n + Z.to_nat (to_tail t)) data in
      let c := if to_isoc t then
                 set_isoc c (isos_of_bytes (length (isoc c)) (rest ++ drop (length rest) (isos_bytes (isoc c))))
               else c in
      Some (c, set_rx_buffer r buf)
  end.

(** The status of ::receive for a buffer of [len] bytes, and the bytes stored. *)
Definition receive (n : N) (len : Z) : ntstatus * list byte * N :=
  let '(st, data, n) := net_receive n len in
  let actual := Z.of_nat (length data) in
  (if NT_ERROR st then st
   else if actual =? len then STATUS_SUCCESS
   else if negb (actual =? 0) then STATUS_RECEIVE_PARTIAL
   else STATUS_CONNECTION_DISCONNECTED, data, n).

Definition recv_payload (k : rx_kernel) (n : N) (c : wsk_context) (r : rx_request) (length : Z)
    : option (ntstatus * N * wsk_context * rx_request) :=
  '(t, c, r) ← prepare_wsk_mdl k c r;
  match t with
  | Err err => Some (err, n, c, r)
  | Ok t =>
      if chain_length c t <? length then None
      else
        let '(st, data, n) := receive n length in
        '(c, r) ← scatter c r t data;
        Some (st, n, c, r)
  end.

Definition drain_payload (k : rx_kernel) (n : N) (length : Z) : ntstatus * N :=
  if negb (u32 length =? length) then (STATUS_INVALID_PARAMETER, n)
  else if negb (pool_allocated k) || negb (mdl_allocated (kern k)) then (STATUS_INSUFFICIENT_RESOURCES, n)
  else let '(st, _, n) := receive n length in (st, n).

(** ** Headers *)

Definition set_number_of_packets (h : header) (n : Z) : header := set_body h (w0 h) (w1 h) (w2 h) (u32 n) (w4 h).
Definition set_direction (h : header) (d : Z) : header :=
  {| command := command h; Proto.seqnum := Proto.seqnum h; devid := devid h; direction := d; ep := ep h;
     w0 := w0 h; w1 := w1 h; w2 := w2 h; w3 := w3 h; w4 := w4 h; setup := setup h |}.

(** The header in host order, [None] if it is rejected. *)
Definition validate_header (h : header) : option header :=
  let h := byteswap_header h net2host in
  h ← (if command h =? RET_SUBMIT then
         if rs_number_of_packets h =? number_of_packets_non_isoch then Some (set_number_of_packets h 0)
         else if negb (is_valid_number_of_packets (rs_number_of_packets h)) then None
         else Some h
       else if command h =? RET_UNLINK then Some h
       else None);
  if is_valid_seqnum (Proto.seqnum h) then Some (set_direction h (extract_dir (Proto.seqnum h))) else None.

Definition recv_usbip_header (n : N) : res header * N :=
  let '(st, data, n) := receive n (Z.of_nat sizeof_header) in
  if negb (bool_decide (st = STATUS_SUCCESS)) then (Err st, n)
  else
    match validate_header (header_of_bytes data) with
    | Some h => (Ok h, n)
    | None => (Err STATUS_INVALID_PARAMETER, n)
    end.

(** ** The thread *)

(** ::complete: how the request ends and the URB's status. *)
Definition complete (r : rx_request) (status : ntstatus) : completion * rx_request :=
  match rx_urb r with
  | None => (RequestComplete status, r)
  | Some u =>
      let u := if bool_decide (status = STATUS_CANCELLED) && bool_decide (UrbStatus (ctl u) = USBD_STATUS_PENDING)
               then set_status u USBD_STATUS_CANCELED else u in
      (if NT_SUCCESS status then UrbComplete (UrbStatus (ctl u)) else UrbCompleteWithNtStatus status, set_rx_urb r u)
  end.

(** [waiting]: the requests that device::remove_request can still take from the list, by
    sequence number; [done]: the completed ones, oldest first. *)
Record rx_state : Type := {
  ctx : wsk_context; waiting : gmap Z rx_request; socket : N; dev : rx_device;
  done : list (Z * completion * rx_request) }.

(** device::remove_request, by sequence number *)
Definition ret_command (s : rx_state) (h : header) : option rx_request * rx_state :=
  let q := Proto.seqnum h in
  if command h =? RET_SUBMIT then
    (waiting s !! q,
     {| ctx := set_hdr (ctx s) h; waiting := delete q (waiting s); socket := socket s; dev := dev s; done := done s |})
  else (None, {| ctx := set_hdr (ctx s) h; waiting := waiting s; socket := socket s; dev := dev s; done := done s |}).

(** One message after its header; [unplugged] is the flag when it is read.  The status
    is the one the loop's condition tests. *)
Definition recv_message (k : rx_kernel) (s : rx_state) (h : header) (unplugged : bool) : option (ntstatus * rx_state) :=
  let '(request, s) := ret_command s h in
  let sz := get_payload_size h in
  match request with
  | None =>
      let '(status, n) := if sz =? 0 then (STATUS_SUCCESS, socket s)
                          else if unplugged then (STATUS_CANCELLED, socket s)
                          else drain_payload k (socket s) sz in
      Some (status, {| ctx := ctx s; waiting := waiting s; socket := n; dev := dev s; done := done s |})
  | Some r =>
      '(status, n, c, r) ← (if sz =? 0 then Some (STATUS_SUCCESS, socket s, ctx s, r)
                            else if unplugged then Some (STATUS_CANCELLED, socket s, ctx s, r)
                            else recv_payload k (socket s) (ctx s) r sz);
      '(st, d, c, r) ← (if bool_decide (status = STATUS_SUCCESS) then ret_submit (dev s) c r else Some (status, dev s, c, r));
      let '(how, r) := complete r st in
      Some (status, {| ctx := c; waiting := waiting s; socket := n; dev := d; done := done s ++ [(Proto.seqnum h, how, r)] |})
  end.

(** The loop: [unplugged] and [k] give the flag and the kernel's answers, read by read and
    message by message.  The result is the state when the thread leaves the loop. *)
Fixpoint recv_loop (fuel : nat) (k : nat -> rx_kernel) (unplugged : nat -> bool) (i : nat) (status : ntstatus) (s : rx_state)
    : option rx_state :=
  match fuel with
  | O => None
  | S fuel =>
      if negb (bool_decide (status = STATUS_SUCCESS)) || unplugged (2 * i)%nat then Some s
      else
        let '(h, n) := recv_usbip_header (socket s) in
        let s := {| ctx := ctx s; waiting := waiting s; socket := n; dev := dev s; done := done s |} in
        match h with
        | Err _ => Some s
        | Ok h =>
            '(status, s) ← recv_message (k i) s h (unplugged (2 * i + 1)%nat);
            recv_loop fuel k unplugged (S i) status s
        end
  end.

(** KSTART_ROUTINE: the final state, and whether the thread detaches the device. *)
Definition recv_thread_function (fuel : nat) (k : nat -> rx_kernel) (unplugged : nat -> bool) (ctx_allocated unplugged_at_exit : bool)
    (s : rx_state) : option (rx_state * bool) :=
  s ← (if ctx_allocated then recv_loop fuel k unplugged 0 STATUS_SUCCESS s else Some s);
  Some (s, negb unplugged_at_exit).
End receive.

Arguments rx_state N : clear implicits.

(** ** Lemmas: lengths *)

(** WskReceive stores at most the bytes it was asked for. *)
Class NetLaws (N : Type) `{Net N} : Prop :=
  net_receive_length : forall (n : N) len st data n', 0 <= len -> net_receive n len = (st, data, n') -> Z.of_nat (length data) <= len.

#[global] Instance peer_net_laws : NetLaws peer.
Proof.
  intros n len st data n' Hl. cbn. destruct (decide _) as [Hd|]; intros [= <- <- <-]; [rewrite length_take; lia|cbn; lia].
Qed.

Lemma check_ok tbl al : check tbl al = STATUS_SUCCESS <-> 0 <= al <= tbl.
Proof. unfold check. destruct ((0 <=? al) && (al <=? tbl)) eqn:E; split; try done; bool_prop; lia. Qed.






Definition response_len (h : header) : Z := if direction h =? dir_out then 0 else rs_actual_length h.

Lemma payload_submit h : command h = RET_SUBMIT -> 0 <= rs_number_of_packets h <= max_iso_packets ->
  get_payload_size h = u64 (response_len h + 16 * rs_number_of_packets h).
Proof.
  intros Hc Hp. unfold get_payload_size, get_total_size, get_isoc_descr, response_len. rewrite Hc.
  change (RET_SUBMIT =? CMD_SUBMIT) with false. change (RET_SUBMIT =? RET_SUBMIT) with true. cbv iota zeta.
  set (len := if direction h =? dir_out then 0 else rs_actual_length h). clearbody len.
  unfold max_iso_packets in Hp. change (u64 number_of_packets_non_isoch) with (2 ^ 64 - 1).
  assert (u64 (rs_number_of_packets h) = rs_number_of_packets h) as -> by (apply Z.mod_small; lia).
  destruct (Z.eqb_spec (rs_number_of_packets h) (2 ^ 64 - 1)); [lia|].
  unfold u64, sizeof_iso_packet_descriptor. change (Z.of_nat sizeof_header) with 48.
  rewrite Zminus_mod_idemp_l.
  replace ((48 + len) `mod` 2 ^ 64 + rs_number_of_packets h * 16 - 48) with (rs_number_of_packets h * 16 - 48 + (48 + len) `mod` 2 ^ 64) by lia.
  rewrite Zplus_mod_idemp_r. f_equal. lia.
Qed.

Lemma payload_small h : command h = RET_SUBMIT -> 0 <= rs_number_of_packets h <= max_iso_packets -> 0 <= response_len h ->
  get_payload_size h = response_len h + 16 * rs_number_of_packets h.
Proof.
  intros Hc Hp Hl. rewrite payload_submit by done. unfold u64. apply Z.mod_small. unfold max_iso_packets in Hp.
  unfold response_len, rs_actual_length in *. pose proof (s32_range (w1 h)) as Hr. unfold is_s32 in Hr. destruct (direction h =? dir_out); lia.
Qed.

(** ** Memory of a waiting request *)

(** [b] is the memory of the transfer buffer of [u]. *)
Definition fits (u : urb) (b : list byte) : Prop :=
  match TransferBufferMDL u with
  | [] => TransferBuffer (ctl u) = NoBuffer \/
          TransferLength u <= Z.of_nat (length (buffer_bytes u)) /\ TransferLength u <= Z.of_nat (length b)
  | [head] => Z.min (Z.of_nat (length head)) (TransferLength u) <= Z.of_nat (length b)
  | _ => TransferLength u <= Z.of_nat (length b)
  end.

(** An answer of [h] to the URB [u] does not run past the head of a chain of MDLs: see [chained_mdl_written_past_head]. *)
Definition head_fits (h : header) (u : urb) : Prop :=
  match TransferBufferMDL u with
  | head :: _ :: _ => direction h = dir_in -> rs_actual_length h <= TransferLength u -> rs_actual_length h <= Z.of_nat (length head)
  | _ => True
  end.

(** The packets of an URB that [repack] accepted when it was submitted. *)
Definition isoch_fits (u : urb) (b : list byte) : Prop :=
  Z.of_nat (length b) = TransferLength u /\ urb_ok (isoch_part u) /\ exists ds, repack (isoch_part u) = Ok ds.


(** ** Packet descriptors *)

Definition ctx_ok (c : wsk_context) : Prop :=
  0 <= mdl_isoc c <= 16 * Z.of_nat (length (isoc c)) /\ Forall iso_ok (isoc c).





Definition rx_ok (r : rx_request) : Prop :=
  rx_buffer r <> Err STATUS_SUCCESS /\
  forall u b, rx_urb r = Some u -> rx_buffer r = Ok b ->
    0 <= TransferLength u < 2 ^ 31 /\ fits u b /\ (Submit.is_isoch u = true -> isoch_fits u b) /\
    (is_control u = true -> TransferLength u <= Z.of_nat (length b)).






Section payload.
Context {N : Type} `{NetLaws N}.

Lemma u64_nonneg z : 0 <= u64 z.
Proof. unfold u64. pose proof (Z.mod_pos_bound z (2 ^ 64)). lia. Qed.


End payload.

(** ** Lemmas: completing a response *)










Section messages.
Context {N : Type} `{NetLaws N} (parse : list byte -> Z -> nat -> Z -> option nat) `{!ParseInside parse}.





(** The three things a response can do to memory the driver does not own are excluded: see the lemmas
    [isoch_without_payload], [chained_mdl_written_past_head] and [payload_for_internal_request]. *)
Definition response_fits (h : header) (r : rx_request) : Prop :=
  match rx_urb r with
  | Some u => (Submit.is_isoch u = true -> rs_number_of_packets h = NumberOfPackets u -> 0 <= response_len h) /\ head_fits h u
  | None => get_payload_size h = 0
  end.

#[global] Instance head_fits_dec h u : Decision (head_fits h u).
Proof. unfold head_fits. destruct (TransferBufferMDL u) as [|? [|? ?]]; apply _. Defined.

#[global] Instance response_fits_dec h r : Decision (response_fits h r).
Proof. unfold response_fits. destruct (rx_urb r); apply _. Defined.




Definition state_ok (s : rx_state N) : Prop := ctx_ok (ctx s) /\ map_Forall (fun _ r => rx_ok r) (waiting s).






End messages.



Section peer_loop.
Context (parse : list byte -> Z -> nat -> Z -> option nat) `{!ParseInside parse} (k : nat -> rx_kernel) (unplugged : nat -> bool).







End peer_loop.

(** ** Specification: what a server's answers mean *)

Record response : Type := { r_seqnum : Z; r_status : Z; r_data : list byte }.

Definition response_header (r : response) : header :=
  {| command := RET_SUBMIT; Proto.seqnum := r_seqnum r; devid := 0; direction := 0; ep := 0;
     w0 := u32 (r_status r); w1 := Z.of_nat (length (r_data r)); w2 := 0; w3 := u32 number_of_packets_non_isoch; w4 := 0;
     setup := replicate 8 x00 |}.

Definition wire_response (r : response) : list byte := wire_header (response_header r) ++ r_data r.

(** The answer to a request with the URB [u] and the transfer buffer [b]. *)
Definition answer_to (u : urb) (b : list byte) (r : response) : completion * rx_request :=
  let st := if r_status r =? 0 then USBD_STATUS_SUCCESS else to_windows_status (r_status r) in
  (UrbComplete st,
   {| rx_urb := Some (UdecxUrbSetBytesCompleted (set_status u st) (Z.of_nat (length (r_data r))));
      rx_buffer := Ok (r_data r ++ drop (length (r_data r)) b) |}).

(** One answer: the waiting requests and the completed ones. *)
Definition deliver (s : gmap Z rx_request * list (Z * completion * rx_request)) (r : response) :=
  match fst s !! r_seqnum r with
  | Some {| rx_urb := Some u; rx_buffer := Ok b |} =>
      let '(how, req) := answer_to u b r in (delete (r_seqnum r) (fst s), snd s ++ [(r_seqnum r, how, req)])
  | _ => s
  end.

(** A bulk or interrupt request with a transfer buffer. *)
Definition bulk_request (r : rx_request) : Prop :=
  exists u data b, r = {| rx_urb := Some u; rx_buffer := Ok b |} /\ Submit.is_isoch u = false /\ is_control u = false /\
    TransferBufferMDL u = [] /\ TransferBuffer (ctl u) = Bytes data /\
    0 <= TransferLength u < 2 ^ 31 /\ TransferLength u <= Z.of_nat (length data) /\ TransferLength u <= Z.of_nat (length b).

(** An answer of a server that follows the protocol: to an IN request, of no more data
    than its buffer holds; answers to requests that are gone are allowed. *)
Definition proper (w : gmap Z rx_request) (r : response) : Prop :=
  is_u32 (r_seqnum r) /\ is_valid_seqnum (r_seqnum r) = true /\ extract_dir (r_seqnum r) = dir_in /\
  is_s32 (r_status r) /\ Z.of_nat (length (r_data r)) < 2 ^ 31 /\
  forall req u, w !! r_seqnum r = Some req -> rx_urb req = Some u -> Z.of_nat (length (r_data r)) <= TransferLength u.

Definition generous (k : rx_kernel) : Prop :=
  pool_allocated k = true /\ mdl_allocated (kern k) = true /\ pages_locked (kern k) = STATUS_SUCCESS.

Section deliver.
Context (parse : list byte -> Z -> nat -> Z -> option nat).

Definition validated (r : response) : header := set_direction (set_number_of_packets (response_header r) 0) dir_in.

Definition well_formed (r : response) : Prop :=
  is_u32 (r_seqnum r) /\ is_valid_seqnum (r_seqnum r) = true /\ extract_dir (r_seqnum r) = dir_in /\
  is_s32 (r_status r) /\ Z.of_nat (length (r_data r)) < 2 ^ 31.

Lemma response_header_ok r : well_formed r -> header_ok (response_header r).
Proof.
  intros (Hq & _ & _ & _ & Hl). split; [|done]. unfold response_header. cbn [command Proto.seqnum devid direction ep w0 w1 w2 w3 w4].
  rewrite !List.Forall_cons_iff. unfold is_u32 in *. pose proof (u32_range (r_status r)) as Hu. unfold is_u32 in Hu.
  split_and!; try done; try lia; unfold u32, number_of_packets_non_isoch; by cbv.
Qed.

Lemma validate_response r : well_formed r -> validate_header (header_of_bytes (wire_header (response_header r))) = Some (validated r).
Proof.
  intros Hw. pose proof (response_header_ok r Hw) as Hok. destruct Hw as (_ & Hv & Hd & _).
  rewrite <- byteswap_header_wire by done. rewrite header_bytes_roundtrip by (by apply byteswap_header_ok).
  unfold validate_header. rewrite net2host_host2net by done. cbn [command response_header]. change (RET_SUBMIT =? RET_SUBMIT) with true. cbv iota.
  assert (rs_number_of_packets (response_header r) = number_of_packets_non_isoch) as -> by (by cbv).
  rewrite Z.eqb_refl. cbn [mbind option_bind]. cbn [Proto.seqnum set_number_of_packets set_body response_header]. rewrite Hv, Hd. done.
Qed.

Lemma length_wire_header r : well_formed r -> length (wire_header (response_header r)) = 48%nat.
Proof.
  intros Hw. rewrite <- byteswap_header_wire by done. apply length_header_bytes. rewrite setup_byteswap. reflexivity.
Qed.

Lemma peer_receives (p : peer) data rest : incoming p = data ++ rest ->
  receive p (Z.of_nat (length data)) =
    (STATUS_SUCCESS, data, {| incoming := rest; sent := sent p; memory_left := memory_left p |}).
Proof.
  intros Hi. unfold receive. cbn. rewrite Nat2Z.id, Hi. rewrite decide_True by (rewrite length_app; lia).
  rewrite take_app_length, drop_app_length. cbn. by rewrite Z.eqb_refl.
Qed.

Definition advance (p : peer) (rest : list byte) : peer := {| incoming := rest; sent := sent p; memory_left := memory_left p |}.

Lemma recv_response_header r (p : peer) rest : well_formed r -> incoming p = wire_response r ++ rest ->
  recv_usbip_header p = (Ok (validated r), advance p (r_data r ++ rest)).
Proof.
  intros Hw Hi. unfold recv_usbip_header. unfold wire_response in Hi. rewrite <- app_assoc in Hi.
  pose proof (peer_receives p _ _ Hi) as Hr. rewrite length_wire_header in Hr by done. change (Z.of_nat sizeof_header) with (Z.of_nat 48). rewrite Hr.
  cbn [negb bool_decide]. rewrite bool_decide_eq_true_2 by done. cbn [negb]. by rewrite validate_response.
Qed.

Lemma validated_fields r : well_formed r ->
  command (validated r) = RET_SUBMIT /\ rs_number_of_packets (validated r) = 0 /\ direction (validated r) = dir_in /\
  rs_actual_length (validated r) = Z.of_nat (length (r_data r)) /\ w1 (validated r) = Z.of_nat (length (r_data r)) /\
  rs_status (validated r) = r_status r /\ get_payload_size (validated r) = Z.of_nat (length (r_data r)).
Proof.
  intros (_ & _ & _ & Hs & Hl).
  assert (rs_actual_length (validated r) = Z.of_nat (length (r_data r))) as Hal.
  { unfold rs_actual_length. cbn [w1 validated set_direction set_number_of_packets set_body response_header]. apply s32_small. lia. }
  split; [done|]. split; [done|]. split; [done|]. split; [done|]. split; [done|]. split.
  { unfold rs_status. cbn [w0 validated set_direction set_number_of_packets set_body response_header]. by apply s32_u32. }
  rewrite payload_small; [|done|done|]; unfold response_len; change (direction (validated r) =? dir_out) with false; cbv iota; rewrite Hal; [|lia].
  change (rs_number_of_packets (validated r)) with 0. lia.
Qed.

Definition no_isoc (c : wsk_context) : wsk_context :=
  {| hdr := hdr c; isoc := isoc c; mdl_isoc := mdl_isoc c; is_isoc := false; buf_tail := buf_tail c; mdl_buf_tail := mdl_buf_tail c |}.

Lemma bulk_chain k c u data al : generous k -> is_isoc c = false -> TransferBufferMDL u = [] -> TransferBuffer (ctl u) = Bytes data ->
  0 < al < 2 ^ 31 -> TransferLength u = al ->
  make_receive_chain k c u al = Some (Ok {| to_buffer := Locked al; to_tail := 0; to_isoc := false |}, c).
Proof.
  intros (_ & Hma & Hpl) Hi Hm Hb Hal Ht. unfold make_receive_chain, make_transfer_buffer_mdl.
  assert ((al =? URB_BUF_LEN) = false) as -> by (unfold URB_BUF_LEN; lia). cbn [negb andb].
  destruct (Z.ltb_spec (TransferLength u) al); [lia|]. destruct (Z.eqb_spec al 0); [lia|]. rewrite Hm, Hb, Hma, Hpl.
  cbn [of_status mbind res_bind mdl_length]. destruct (Z.ltb_spec al al); [lia|]. unfold make_mdl_chain. by rewrite Hi.
Qed.

Lemma recv_payload_bulk k (p : peer) c u b data r rest : generous k -> well_formed r -> hdr c = validated r ->
  TransferBufferMDL u = [] -> TransferBuffer (ctl u) = Bytes data -> r_data r <> [] ->
  TransferLength u < 2 ^ 31 -> TransferLength u <= Z.of_nat (length data) -> TransferLength u <= Z.of_nat (length b) ->
  Z.of_nat (length (r_data r)) <= TransferLength u -> incoming p = r_data r ++ rest ->
  recv_payload k p c {| rx_urb := Some u; rx_buffer := Ok b |} (get_payload_size (validated r)) =
    Some (STATUS_SUCCESS, advance p rest, no_isoc c,
          {| rx_urb := Some (UdecxUrbSetBytesCompleted u (Z.of_nat (length (r_data r)))); rx_buffer := Ok (r_data r ++ drop (length (r_data r)) b) |}).
Proof.
  intros Hk Hw Hh Hm Hb Hne Ht Hld Hlb Hle Hi. destruct (validated_fields r Hw) as (Hc & Hp & Hd & Hal & _ & _ & Hsz).
  assert (0 < length (r_data r))%nat as Hpos by (destruct (r_data r); [done|cbn; lia]).
  set (n := Z.of_nat (length (r_data r))) in *. unfold recv_payload, prepare_wsk_mdl. rewrite Hh, Hp.
  cbn [prepare_isoc Z.eqb negb]. unfold prepare_isoc. cbn [Z.eqb negb]. change (bool_decide (STATUS_SUCCESS = STATUS_SUCCESS)) with true.
  cbn [negb rx_urb rx_buffer mbind option_bind is_isoc hdr]. rewrite Hh, Hd, Hal. change (dir_in =? dir_out) with false.
  unfold assign. assert (check (TransferLength u) n = STATUS_SUCCESS) as -> by (apply check_ok; lia).
  change (bool_decide (STATUS_SUCCESS = STATUS_SUCCESS)) with true. cbn [negb orb]. destruct (Z.eqb_spec n 0); [lia|]. cbn [orb].
  set (u1 := UdecxUrbSetBytesCompleted u n).
  rewrite (bulk_chain k _ u1 data n Hk) by (try done; lia). cbn [mbind option_bind].
  rewrite Hsz. fold n. unfold chain_length. cbn [to_buffer mdl_length to_tail to_isoc]. destruct (Z.ltb_spec (n + 0 + 0) n); [lia|].
  unfold n. rewrite (peer_receives p _ _ Hi). fold n. unfold scatter. cbn [rx_urb set_rx_urb rx_buffer mbind option_bind to_buffer mdl_length to_isoc].
  unfold write_mdl. cbn [mdl_bytes]. change (buffer_bytes u1) with (buffer_bytes u). unfold buffer_bytes. rewrite Hb.
  assert (bytes_at 0 (Z.to_nat n) data = Some (take (Z.to_nat n) data)) as -> by (apply bytes_at_0_Some; split; [done|lia]).
  cbn [mbind option_bind]. rewrite take_ge by lia. rewrite store_Some by lia. cbn [mbind option_bind]. rewrite take_0. cbn [app Nat.add].
  unfold no_isoc. rewrite Hh. done.
Qed.

Lemma complete_success r u : rx_urb r = Some u -> complete r STATUS_SUCCESS = (UrbComplete (UrbStatus (ctl u)), r).
Proof. intros Hu. unfold complete. rewrite Hu. cbn. destruct r as [ru rb]. cbn in *. by rewrite Hu. Qed.

(** ret_submit for the answer to a bulk request, whose data is already in [b]. *)
Lemma ret_submit_bulk d c r u b : well_formed r -> hdr c = validated r -> Submit.is_isoch u = false -> is_control u = false ->
  0 <= Z.of_nat (length (r_data r)) <= TransferLength u ->
  let n := Z.of_nat (length (r_data r)) in
  let st := if r_status r =? 0 then USBD_STATUS_SUCCESS else to_windows_status (r_status r) in
  ret_submit parse d c {| rx_urb := Some u; rx_buffer := Ok b |} =
    Some (STATUS_SUCCESS, d, c, {| rx_urb := Some (UdecxUrbSetBytesCompleted (set_status u st) n); rx_buffer := Ok b |}).
Proof.
  intros Hw Hh Hi Hc Hle n st. destruct (validated_fields r Hw) as (_ & _ & _ & Hal & Hw1 & Hst & _).
  unfold ret_submit. cbn [rx_urb]. rewrite Hh. unfold ret_submit_urb. rewrite Hst, Hw1, Hal. fold n.
  assert ((if negb (r_status r =? 0) then to_windows_status (r_status r) else USBD_STATUS_SUCCESS) = st) as ->
    by (unfold st; by destruct (r_status r =? 0)).
  change (Submit.is_isoch (set_status u st)) with (Submit.is_isoch u). rewrite Hi. cbn [rx_buffer].
  change (TransferLength (set_status u st)) with (TransferLength u).
  assert ((if negb (TransferLength u =? n) then assign (TransferLength u) n else (STATUS_SUCCESS, TransferLength u)) = (STATUS_SUCCESS, n)) as ->.
  { destruct (Z.eqb_spec (TransferLength u) n) as [->|]; [done|]. cbn [negb]. unfold assign.
    assert (check (TransferLength u) n = STATUS_SUCCESS) as -> by (apply check_ok; lia). done. }
  unfold post_process_transfer_buffer. change (is_control (UdecxUrbSetBytesCompleted (set_status u st) n)) with (is_control u). rewrite Hc.
  destruct (_ && _); cbn [mbind option_bind]; done.
Qed.

(** One answer of the stream is one [deliver]. *)
Lemma recv_message_deliver k (s : rx_state peer) r rest : generous k -> well_formed r -> proper (waiting s) r ->
  (forall req, waiting s !! r_seqnum r = Some req -> bulk_request req) -> incoming (socket s) = r_data r ++ rest ->
  exists s', recv_message parse k s (validated r) false = Some (STATUS_SUCCESS, s') /\
    socket s' = advance (socket s) rest /\ (waiting s', done s') = deliver (waiting s, done s) r.
Proof.
  intros Hk Hw (_ & _ & _ & _ & _ & Hp) Hbulk Hi. destruct (validated_fields r Hw) as (Hc & Hnp & Hd & Hal & _ & _ & Hsz).
  unfold recv_message, ret_command. rewrite Hc. change (RET_SUBMIT =? RET_SUBMIT) with true. cbv iota.
  change (Proto.seqnum (validated r)) with (r_seqnum r). rewrite Hsz. unfold deliver. cbn [fst snd].
  destruct (waiting s !! r_seqnum r) as [req|] eqn:Hq; cbn [socket waiting dev done ctx].
  - destruct (Hbulk req eq_refl) as (u & data & b & -> & Hiso & Hctl & Hm & Hb & Ht & Hld & Hlb).
    specialize (Hp _ u eq_refl eq_refl). set (n := Z.of_nat (length (r_data r))) in *.
    set (c0 := set_hdr (ctx s) (validated r)).
    assert (exists c1 u1, hdr c1 = validated r /\ (u1 = u \/ u1 = UdecxUrbSetBytesCompleted u n) /\
      (if n =? 0 then Some (STATUS_SUCCESS, socket s, c0, {| rx_urb := Some u; rx_buffer := Ok b |})
       else if false then Some (STATUS_CANCELLED, socket s, c0, {| rx_urb := Some u; rx_buffer := Ok b |})
       else recv_payload k (socket s) c0 {| rx_urb := Some u; rx_buffer := Ok b |} n) =
      Some (STATUS_SUCCESS, advance (socket s) rest, c1, {| rx_urb := Some u1; rx_buffer := Ok (r_data r ++ drop (length (r_data r)) b) |}))
      as (c1 & u1 & Hh1 & Hu1 & ->).
    { destruct (Z.eqb_spec n 0) as [Hz|Hz].
      - exists c0, u. split; [done|]. split; [by left|]. assert (r_data r = []) as Hnil by (apply nil_length_inv; lia).
        rewrite Hnil in *. cbn [app length drop] in *. unfold advance. rewrite <- Hi. by destruct (socket s).
      - exists (no_isoc c0), (UdecxUrbSetBytesCompleted u n). split; [done|]. split; [by right|]. rewrite <- Hsz at 1.
        apply (recv_payload_bulk k (socket s) c0 u b data r rest); try done; [|lia]. intros Hnil. apply Hz. unfold n. by rewrite Hnil. }
    cbn [mbind option_bind]. change (bool_decide (STATUS_SUCCESS = STATUS_SUCCESS)) with true. cbv iota.
    assert (Submit.is_isoch u1 = false /\ is_control u1 = false /\ n <= TransferLength u1) as (Hi1 & Hc1 & Ht1)
      by (destruct Hu1 as [-> | ->]; [by repeat split|split; [done|split; [done|]]; cbn; unfold TransferLength; cbn; lia]).
    rewrite (ret_submit_bulk (dev s) c1 r u1) by (try done; lia). cbn [mbind option_bind]. fold n.
    rewrite (complete_success _ (UdecxUrbSetBytesCompleted (set_status u1 (if r_status r =? 0 then USBD_STATUS_SUCCESS else to_windows_status (r_status r))) n)) by done.
    eexists. split; [done|]. split; [done|]. cbn [waiting done]. unfold answer_to. fold n. cbn [UrbStatus ctl UdecxUrbSetBytesCompleted set_ctl set_length set_status].
    f_equal. f_equal. f_equal. f_equal. f_equal. f_equal. by destruct Hu1 as [-> | ->].
  - eexists. assert (exists n, (if Z.of_nat (length (r_data r)) =? 0 then (STATUS_SUCCESS, socket s)
       else drain_payload k (socket s) (Z.of_nat (length (r_data r)))) = (STATUS_SUCCESS, n) /\ n = advance (socket s) rest) as (n & -> & ->).
    { destruct (Z.eqb_spec (Z.of_nat (length (r_data r))) 0) as [Hz|Hz].
      - eexists. split; [done|]. assert (r_data r = []) as Hnil by (apply nil_length_inv; lia). rewrite Hnil in *. cbn [app] in Hi.
        unfold advance. rewrite <- Hi. by destruct (socket s).
      - unfold drain_payload. destruct Hk as (Hpo & Hma & _). destruct Hw as (_ & _ & _ & _ & Hl).
        rewrite u32_id by (unfold is_u32; lia). rewrite Z.eqb_refl, Hpo, Hma. cbn [negb orb].
        rewrite (peer_receives _ _ _ Hi). by eexists. }
    split; [done|]. split; [done|]. cbn [waiting done]. by rewrite delete_id.
Qed.
End deliver.

Lemma deliver_waiting w d r : (deliver (w, d) r).1 = w \/ (deliver (w, d) r).1 = delete (r_seqnum r) w.
Proof. unfold deliver. cbn [fst snd]. destruct (w !! r_seqnum r) as [[[u|] [b|]]|]; auto. Qed.

Lemma deliver_waiting_sub w d r q req : (deliver (w, d) r).1 !! q = Some req -> w !! q = Some req.
Proof. destruct (deliver_waiting w d r) as [-> | ->]; [done|]. by intros [_ ?]%lookup_delete_Some. Qed.

Definition bulk_requests (w : gmap Z rx_request) : Prop := map_Forall (fun _ r => bulk_request r) w.

Lemma recv_loop_delivers parse k fuel i (s : rx_state peer) rs : (forall i, generous (k i)) -> bulk_requests (waiting s) ->
  Forall (fun r => well_formed r /\ proper (waiting s) r) rs -> incoming (socket s) = concat (map wire_response rs) ->
  (length rs < fuel)%nat ->
  exists s', recv_loop parse fuel k (fun _ => false) i STATUS_SUCCESS s = Some s' /\
    (waiting s', done s') = foldl deliver (waiting s, done s) rs /\ incoming (socket s') = [].
Proof.
  intros Hk. revert fuel i s. induction rs as [|r rs IH]; intros fuel i s Hb Hrs Hi Hf; (destruct fuel as [|fuel]; [lia|]); cbn [recv_loop];
    change (bool_decide (STATUS_SUCCESS = STATUS_SUCCESS)) with true; cbn [negb orb].
  - assert (recv_usbip_header (socket s) = (Err STATUS_CONNECTION_DISCONNECTED, socket s)) as ->.
    { unfold recv_usbip_header, receive. cbn [net_receive peer_net]. change (concat (map wire_response [])) with (@nil byte) in Hi. rewrite Hi.
      rewrite decide_False by (change (Z.to_nat (Z.of_nat sizeof_header)) with 48%nat; cbn [length]; lia). reflexivity. }
    eexists. split; [done|]. by split.
  - apply List.Forall_cons_iff in Hrs as [[Hw Hp] Hrs]. cbn [map concat] in Hi.
    rewrite (recv_response_header r _ _ Hw Hi). set (s1 := {| ctx := ctx s; waiting := waiting s; socket := _; dev := dev s; done := done s |}).
    destruct (recv_message_deliver parse (k i) s1 r (concat (map wire_response rs)) (Hk i) Hw Hp) as (s2 & -> & Hs2 & Hd); [|done|].
    { intros req Hq. by apply (Hb (r_seqnum r)). }
    cbn [mbind option_bind]. change (waiting s1, done s1) with (waiting s, done s) in Hd.
    assert (forall q req, waiting s2 !! q = Some req -> waiting s !! q = Some req) as Hsub.
    { intros q req Hq. apply (deliver_waiting_sub (waiting s) (done s) r). by rewrite <- Hd. }
    destruct (IH fuel (S i) s2) as (s' & -> & Hd' & Hi'); [| |by rewrite Hs2|cbn in Hf; lia|].
    + intros q req Hq. apply (Hb q). by apply Hsub.
    + revert Hrs. apply List.Forall_impl. intros r0 (? & Hp0). split; [done|].
      destruct Hp0 as (? & ? & ? & ? & ? & Hp0). do 5 (split; [done|]). intros req u Hq. apply Hp0. by apply Hsub.
    + exists s'. split; [done|]. cbn [foldl]. by rewrite <- Hd.
Qed.

Lemma foldl_deliver_done rs w d : exists new, snd (foldl deliver (w, d) rs) = d ++ new.
Proof.
  revert w d. induction rs as [|r rs IH]; intros w d; cbn [foldl]; [exists []; by rewrite app_nil_r|].
  destruct (deliver (w, d) r) as [w1 d1] eqn:Hd. destruct (IH w1 d1) as [new ->].
  assert (exists n1, d1 = d ++ n1) as [n1 ->]; [|exists (n1 ++ new); by rewrite app_assoc].
  unfold deliver in Hd. cbn [fst snd] in Hd. destruct (w !! r_seqnum r) as [[[u|] [b|]]|]; injection Hd as _ <-;
    first [by eexists|exists []; by rewrite app_nil_r].
Qed.

Lemma foldl_deliver_keeps rs w d q : ~ q ∈ r_seqnum <$> rs -> fst (foldl deliver (w, d) rs) !! q = w !! q.
Proof.
  revert w d. induction rs as [|r rs IH]; intros w d Hq; cbn [foldl]; [done|]. cbn [fmap list_fmap] in Hq.
  destruct (deliver (w, d) r) as [w1 d1] eqn:Hd. rewrite IH by set_solver.
  destruct (deliver_waiting w d r) as [Hw|Hw]; rewrite Hd in Hw; cbn in Hw; subst; [done|]. apply lookup_delete_ne. set_solver.
Qed.

(** ** Properties *)




(** A request that the server answers is completed with the status, length and data
    of the first answer with its sequence number. *)
Theorem answered_request_completes parse k (s : rx_state peer) rs1 r rs2 fuel u b : (forall i, generous (k i)) -> bulk_requests (waiting s) ->
  Forall (fun r => well_formed r /\ proper (waiting s) r) (rs1 ++ r :: rs2) ->
  incoming (socket s) = concat (map wire_response (rs1 ++ r :: rs2)) -> (length (rs1 ++ r :: rs2) < fuel)%nat ->
  waiting s !! r_seqnum r = Some {| rx_urb := Some u; rx_buffer := Ok b |} -> ~ r_seqnum r ∈ r_seqnum <$> rs1 ->
  exists s', recv_loop parse fuel k (fun _ => false) 0 STATUS_SUCCESS s = Some s' /\
    (r_seqnum r, (answer_to u b r).1, (answer_to u b r).2) ∈ done s'.
Proof.
  intros Hk Hb Hrs Hi Hf Hq Hn. destruct (recv_loop_delivers parse k fuel 0 s _ Hk Hb Hrs Hi Hf) as (s' & Hs' & Hd & _).
  exists s'. split; [done|]. rewrite foldl_app in Hd. cbn [foldl] in Hd.
  destruct (foldl deliver (waiting s, done s) rs1) as [w1 d1] eqn:H1.
  assert (w1 !! r_seqnum r = Some {| rx_urb := Some u; rx_buffer := Ok b |}) as Hw1.
  { rewrite <- Hq, <- (foldl_deliver_keeps rs1 (waiting s) (done s) (r_seqnum r) Hn), H1. done. }
  unfold deliver at 2 in Hd. cbn [fst snd] in Hd. rewrite Hw1 in Hd. destruct (answer_to u b r) as [how req]. cbn [fst snd].
  destruct (foldl_deliver_done rs2 (delete (r_seqnum r) w1) (d1 ++ [(r_seqnum r, how, req)])) as [new Hnew].
  rewrite <- Hd in Hnew. cbn [snd] in Hnew. rewrite Hnew. apply elem_of_app. left. apply elem_of_app. right. by apply list_elem_of_singleton.
Qed.

(** ** Witnesses *)

Definition fresh_context : wsk_context :=
  {| hdr := zero_header; isoc := []; mdl_isoc := 0; is_isoc := false; buf_tail := false; mdl_buf_tail := 0 |}.

Definition able : rx_kernel := {| kern := quiet_kernel; pool_allocated := true |}.

(** A bulk IN request for eight bytes. *)
Definition read_request : rx_request :=
  {| rx_urb := Some {| ctl := {| Function := URB_FUNCTION_BULK_OR_INTERRUPT_TRANSFER; UrbStatus := USBD_STATUS_PENDING;
                                 FilterReq.PipeHandle := 1001; TransferFlags := 3; FilterReq.TransferBufferLength := 8;
                                 TransferBuffer := Bytes (replicate 8 x00); Timeout := 0; SetupPacket := make_set_configuration 0 |};
                       TransferBufferMDL := []; packed_image := []; StartFrame := 0; ErrorCount := 0; iso_packets := [] |};
     rx_buffer := Ok (replicate 8 x00) |}.

(** An isochronous IN request of the packets of [two_packets]. *)
Definition camera_request : rx_request :=
  {| rx_urb := Some {| ctl := {| Function := URB_FUNCTION_ISOCH_TRANSFER; UrbStatus := USBD_STATUS_PENDING;
                                 FilterReq.PipeHandle := 1003; TransferFlags := 1; FilterReq.TransferBufferLength := 16;
                                 TransferBuffer := Bytes (replicate 16 x00); Timeout := 0; SetupPacket := make_set_configuration 0 |};
                       TransferBufferMDL := []; packed_image := []; StartFrame := 0; ErrorCount := 0; iso_packets := IsoPacket two_packets |};
     rx_buffer := Ok (replicate 16 x00) |}.

(** A request of SET_CONFIGURATION, which has no URB. *)
Definition internal_request : rx_request := {| rx_urb := None; rx_buffer := Err STATUS_INVALID_PARAMETER |}.

Definition waiting_for (w : gmap Z rx_request) (bytes : list byte) : rx_state peer :=
  {| ctx := fresh_context; waiting := w; socket := peer_of bytes; dev := {| has_serial := false; iserial := 0; speed := 3 |}; done := [] |}.

Definition an_answer (q : Z) (data : list byte) : response := {| r_seqnum := q; r_status := 0; r_data := data |}.

(** Two answers: the first is for a request that has been cancelled. *)
Definition two_answers : list response := [an_answer 5 [x01; x02]; an_answer 3 [xaa; xbb; xcc]].

Definition reading : rx_state peer := waiting_for {[3 := read_request]} (concat (map wire_response two_answers)).

Lemma one_waiting (P : rx_request -> Prop) q0 r0 q r : P r0 -> ({[q0 := r0]} : gmap Z rx_request) !! q = Some r -> P r.
Proof. by intros ? [_ <-]%lookup_singleton_Some. Qed.

Lemma reading_bulk : bulk_requests (waiting reading).
Proof.
  intros q r. apply one_waiting. unfold bulk_request, read_request.
  eexists _, _, _. split; [reflexivity|]. repeat (split; [reflexivity|]). split; [by cbv|]. by cbv.
Qed.

Lemma two_answers_proper : Forall (fun r => well_formed r /\ proper (waiting reading) r) two_answers.
Proof.
  assert (forall q (data : list byte), (length data <= 8)%nat -> forall req u, waiting reading !! q = Some req -> rx_urb req = Some u ->
    Z.of_nat (length data) <= TransferLength u) as Hfit.
  { intros q data Hl req u Hq. revert u.
    refine (one_waiting (fun req => forall u, rx_urb req = Some u -> Z.of_nat (length data) <= TransferLength u) 3 read_request q req _ Hq).
    intros u [= <-]. change (TransferLength _) with 8. lia. }
  repeat constructor; try (by cbv); apply Hfit; by repeat constructor.
Qed.




Lemma answered_request_completes_witness : exists s' r',
  recv_loop parse_with_find_next 3 (fun _ => able) (fun _ => false) 0 STATUS_SUCCESS reading = Some s' /\
  (3, UrbComplete USBD_STATUS_SUCCESS, r') ∈ done s' /\ rx_buffer r' = Ok [xaa; xbb; xcc; x00; x00; x00; x00; x00].
Proof.
  destruct (answered_request_completes parse_with_find_next (fun _ => able) reading [an_answer 5 [x01; x02]] (an_answer 3 [xaa; xbb; xcc]) [] 3
    _ _ (fun _ => conj eq_refl (conj eq_refl eq_refl)) reading_bulk two_answers_proper eq_refl ltac:(cbn; lia) eq_refl)
    as (s' & Hs & Hd); [refine (bool_decide_unpack (~ _) _); vm_compute; exact I|].
  eexists s', _. split; [exact Hs|]. split; [exact Hd|]. vm_compute. reflexivity.
Defined.


(** A response with two packets of eight and no bytes for the camera. *)
Definition camera_response (actual_length : Z) (data : list byte) : header :=
  {| command := RET_SUBMIT; Proto.seqnum := 3; devid := 0; direction := 0; ep := 0; w0 := 0; w1 := u32 actual_length; w2 := 0; w3 := 2; w4 := 0;
     setup := replicate 8 x00 |}.

Definition camera (bytes : list byte) : rx_state peer := waiting_for {[3 := camera_request]} bytes.




(** ** What the server must not do *)

(** With actual_length = -16 * number_of_packets the payload size is zero, prepare_wsk_mdl
    does not run, and the descriptors of a thread that has allocated none are swapped. *)
Lemma isoch_without_payload :
  validate_header (header_of_bytes (wire_header (camera_response (-32) []))) = Some (set_direction (camera_response (-32) []) 1) /\
  get_payload_size (set_direction (camera_response (-32) []) 1) = 0 /\
  recv_message parse_with_find_next able (camera []) (set_direction (camera_response (-32) []) 1) false = None.
Proof. split; [|split]; vm_compute; reflexivity. Qed.

(** A response with packets to a request that has no URB is received as if it had one. *)
Definition internal_response : header :=
  {| command := RET_SUBMIT; Proto.seqnum := 2; devid := 0; direction := 0; ep := 0; w0 := 0; w1 := 0; w2 := 0; w3 := 1; w4 := 0;
     setup := replicate 8 x00 |}.

Lemma payload_for_internal_request :
  recv_message parse_with_find_next able (waiting_for {[2 := internal_request]} (replicate 16 x00)) internal_response false = None.
Proof. vm_compute. reflexivity. Qed.

(** A bulk IN request whose buffer is a chain of MDLs of four and eight bytes. *)
Definition chained_request : rx_request :=
  {| rx_urb := Some {| ctl := {| Function := URB_FUNCTION_BULK_OR_INTERRUPT_TRANSFER; UrbStatus := USBD_STATUS_PENDING;
                                 FilterReq.PipeHandle := 1001; TransferFlags := 3; FilterReq.TransferBufferLength := 12;
                                 TransferBuffer := NoBuffer; Timeout := 0; SetupPacket := make_set_configuration 0 |};
                       TransferBufferMDL := [replicate 4 x00; replicate 8 x00]; packed_image := []; StartFrame := 0; ErrorCount := 0; iso_packets := [] |};
     rx_buffer := Ok (replicate 12 x00) |}.

(** The data of an answer is written behind the mapping of the head of a chain, whose other MDLs are not used. *)
Lemma chained_mdl_written_past_head : let s := waiting_for {[3 := chained_request]} (replicate 12 x01) in
  state_ok s /\ recv_message parse_with_find_next able s (validated (an_answer 3 (replicate 12 x01))) false = None.
Proof.
  split; [|vm_compute; reflexivity]. split; [split; [by cbv|exact (List.Forall_nil _)]|]. intros q r.
  apply (one_waiting rx_ok 3 chained_request q r). split; [done|]. intros u b [= <-] [= <-].
  split; [by cbv|]. split; [by cbv|]. split; [done|]. intros _. by cbv.
Qed.
