(* ===== verification/Vhci.v ===== *)
(** * The virtual host controller: its context and its root-hub ports

    drivers/ude/context.h (vhci_ctx, device_ctx, fileobject_ctx, the attributes of a
    device), include/usbip/vhci.h (the structures of the public interface) and the
    port half of drivers/ude/vhci.cpp: how many ports the hub has, which port a
    device gets, who sits on a port.

    Framework objects are handles ([positive]); their contexts are maps in [world].
    The array vhci_ctx::devices is a list of optional handles, and an access outside
    of it, or to a context that does not exist, is [None].  Functions that run under
    devices_lock or events_lock are one atomic step. *)

From Stdlib Require Import Strings.String.
From S2P Require Import Filter Prelude.

(** ** Structures *)

Definition device : Type := positive.
Definition fileobj : Type := positive.
Definition request : Type := positive.

(** usb_device_speed: the server sends the number, nothing checks it. *)
Definition USB_SPEED_UNKNOWN : Z := 0.
Definition USB_SPEED_LOW : Z := 1.
Definition USB_SPEED_FULL : Z := 2.
Definition USB_SPEED_HIGH : Z := 3.
Definition USB_SPEED_WIRELESS : Z := 4.
Definition USB_SPEED_SUPER : Z := 5.
Definition USB_SPEED_SUPER_PLUS : Z := 6.

Record imported_device_properties : Type := {
  devid : Z; speed : Z; vendor : Z; product : Z; serial : list byte; iserial : Z }.

(** imported_device_location: three NUL-terminated buffers. *)
Record imported_device_location : Type := {
  loc_port : Z; loc_busid : list byte; loc_service : list byte; loc_host : list byte }.

(** The names are UNICODE_STRINGs: lists of UTF-16 units. *)
Record device_attributes : Type := {
  node_name : list Z; service_name : list Z; busid : list Z;
  location_hash : Z; properties : imported_device_properties }.

(** vhci::state *)
Inductive state : Type := unplugged_state | connecting | connected | plugged | disconnected | unplugging.

#[global] Instance state_eq_dec : EqDecision state.
Proof. solve_decision. Defined.

(** device_state: base, imported_device, the state and its source. *)
Record device_state : Type := {
  ds_size : Z; ds_location : imported_device_location; ds_properties : imported_device_properties;
  ds_state : state; ds_source_id : Z }.

(** device_ctx with the parts of device_ctx_ext the controller uses; [recv_thread]
    tells whether the thread was created and not joined yet. *)
Record device_ctx : Type := {
  attr : device_attributes; sock_open : bool; recv_thread : bool;
  port : Z; unplugged : bool; ep0_added : bool }.

Record fileobject_ctx : Type := { events : list device_state; process_events : bool }.

(** ioctl::plugin_hardware *)
Record plugin_hardware : Type := {
  ph_size : Z; ph_location : imported_device_location; ph_serial : list byte }.

(** attach_ctx, with what is under way for the request: nothing yet, its timer runs,
    or it was sent; [a_cancelled] is the mark of WdfRequestCancelSentRequest. *)
Inductive attach_state : Type := Created | TimerStarted (secs : Z) | Sent.

Record attach_ctx : Type := {
  a_location_hash : Z; retry_cnt : Z; delay : Z; inbuf : plugin_hardware;
  a_state : attach_state; a_cancelled : bool }.

Record vhci_ctx : Type := {
  usb2_ports : Z; devices_cnt : Z; devices : list (option device);
  fileobjects : list fileobj; reads : list request; events_subscribers : Z;
  reattach_max_attempts : Z; reattach_first_delay : Z; reattach_max_delay : Z;
  reattach_req : list request; removing : bool }.

(** ** The world: the contexts, and what was asked of the framework

    [refs] counts the references the port table holds, [completed] lists completed
    requests (request, status, information, the state copied to its buffer). *)
Inductive action : Type :=
| DeviceCreate (d : device) (descriptors : list udecx_descriptor)   (* the descriptors added before *)
| PlugIn (d : device) (usb20 : bool) (portnum : Z)
| PlugOutAndDelete (d : device)
| ObjectDelete (d : device)
| CloseSocket (d : device)
| StateChanged (a : device_attributes) (portnum : Z) (st : state)
| ReattachStarted (r : request) (a : device_attributes) (delayed : bool).

Record world {W : Type} : Type := {
  vhci : vhci_ctx;
  dev_ctx : gmap device device_ctx;
  fobj_ctx : gmap fileobj fileobject_ctx;
  refs : gmap device Z;
  completed : list (request * ntstatus * Z * option device_state);
  trace : list action;
  attach : gmap request attach_ctx;
  wdf : W }.
Arguments world W : clear implicits.

(** ** Field updates *)

Definition with_devices (v : vhci_ctx) (l : list (option device)) : vhci_ctx :=
  {| usb2_ports := usb2_ports v; devices_cnt := devices_cnt v; devices := l;
     fileobjects := fileobjects v; reads := reads v; events_subscribers := events_subscribers v;
     reattach_max_attempts := reattach_max_attempts v; reattach_first_delay := reattach_first_delay v;
     reattach_max_delay := reattach_max_delay v; reattach_req := reattach_req v; removing := removing v |}.

Definition with_hub (v : vhci_ctx) (usb2 cnt : Z) (l : list (option device)) : vhci_ctx :=
  {| usb2_ports := usb2; devices_cnt := cnt; devices := l;
     fileobjects := fileobjects v; reads := reads v; events_subscribers := events_subscribers v;
     reattach_max_attempts := reattach_max_attempts v; reattach_first_delay := reattach_first_delay v;
     reattach_max_delay := reattach_max_delay v; reattach_req := reattach_req v; removing := removing v |}.

Definition with_events (v : vhci_ctx) (fs : list fileobj) (rs : list request) (n : Z) : vhci_ctx :=
  {| usb2_ports := usb2_ports v; devices_cnt := devices_cnt v; devices := devices v;
     fileobjects := fs; reads := rs; events_subscribers := n;
     reattach_max_attempts := reattach_max_attempts v; reattach_first_delay := reattach_first_delay v;
     reattach_max_delay := reattach_max_delay v; reattach_req := reattach_req v; removing := removing v |}.

Definition with_reattach (v : vhci_ctx) (l : list request) : vhci_ctx :=
  {| usb2_ports := usb2_ports v; devices_cnt := devices_cnt v; devices := devices v;
     fileobjects := fileobjects v; reads := reads v; events_subscribers := events_subscribers v;
     reattach_max_attempts := reattach_max_attempts v; reattach_first_delay := reattach_first_delay v;
     reattach_max_delay := reattach_max_delay v; reattach_req := l; removing := removing v |}.

Definition with_removing (v : vhci_ctx) (b : bool) : vhci_ctx :=
  {| usb2_ports := usb2_ports v; devices_cnt := devices_cnt v; devices := devices v;
     fileobjects := fileobjects v; reads := reads v; events_subscribers := events_subscribers v;
     reattach_max_attempts := reattach_max_attempts v; reattach_first_delay := reattach_first_delay v;
     reattach_max_delay := reattach_max_delay v; reattach_req := reattach_req v; removing := b |}.

Definition with_port (c : device_ctx) (p : Z) : device_ctx :=
  {| attr := attr c; sock_open := sock_open c; recv_thread := recv_thread c;
     port := p; unplugged := unplugged c; ep0_added := ep0_added c |}.

Section updates.
Context {W : Type}.

Definition set_vhci (w : world W) (v : vhci_ctx) : world W :=
  {| vhci := v; dev_ctx := dev_ctx w; fobj_ctx := fobj_ctx w; refs := refs w;
     completed := completed w; trace := trace w; attach := attach w; wdf := wdf w |}.

Definition set_dev (w : world W) (d : device) (c : device_ctx) : world W :=
  {| vhci := vhci w; dev_ctx := <[d := c]> (dev_ctx w); fobj_ctx := fobj_ctx w; refs := refs w;
     completed := completed w; trace := trace w; attach := attach w; wdf := wdf w |}.

Definition set_fobj (w : world W) (f : fileobj) (c : fileobject_ctx) : world W :=
  {| vhci := vhci w; dev_ctx := dev_ctx w; fobj_ctx := <[f := c]> (fobj_ctx w); refs := refs w;
     completed := completed w; trace := trace w; attach := attach w; wdf := wdf w |}.

Definition add_ref (w : world W) (d : device) (n : Z) : world W :=
  {| vhci := vhci w; dev_ctx := dev_ctx w; fobj_ctx := fobj_ctx w;
     refs := <[d := default 0 (refs w !! d) + n]> (refs w);
     completed := completed w; trace := trace w; attach := attach w; wdf := wdf w |}.

Definition set_wdf (w : world W) (x : W) : world W :=
  {| vhci := vhci w; dev_ctx := dev_ctx w; fobj_ctx := fobj_ctx w; refs := refs w;
     completed := completed w; trace := trace w; attach := attach w; wdf := x |}.

Definition add_action (w : world W) (a : action) : world W :=
  {| vhci := vhci w; dev_ctx := dev_ctx w; fobj_ctx := fobj_ctx w; refs := refs w;
     completed := completed w; trace := trace w ++ [a]; attach := attach w; wdf := wdf w |}.

Definition set_attach (w : world W) (m : gmap request attach_ctx) : world W :=
  {| vhci := vhci w; dev_ctx := dev_ctx w; fobj_ctx := fobj_ctx w; refs := refs w;
     completed := completed w; trace := trace w; attach := m; wdf := wdf w |}.

(** WdfRequestCompleteWithInformation *)
Definition complete_request (w : world W) (r : request) (st : ntstatus) (info : Z) (data : option device_state)
  : world W :=
  {| vhci := vhci w; dev_ctx := dev_ctx w; fobj_ctx := fobj_ctx w; refs := refs w;
     completed := completed w ++ [(r, st, info, data)]; trace := trace w; attach := attach w; wdf := wdf w |}.
End updates.

(** ** Number of ports *)

(** The driver's Parameters key, when it opens: a DWORD value, when it is there. *)
Definition parameters : Type := option (string -> option Z).

(** WdfRegistryQueryULong: a failed query leaves the variable as it was. *)
Definition query_ulong (key : string -> option Z) (name : string) (old : Z) : Z :=
  match key name with Some v => v | None => old end.

Definition MIN_PORTS : Z := 1.
Definition DEF_PORTS : Z := 30.
Definition MAX_PORTS : Z := 254.
Definition MAX_TOTAL_PORTS : Z := 255.

(** v.cnt[usb3], v.cnt[usb2]; the ULONG is stored in an int. *)
Definition query_usb_ports_cnt (key : parameters) (def_cnt : Z) : list Z :=
  match key with
  | None => [def_cnt; def_cnt]
  | Some key =>
      [s32 (query_ulong key "NumberOfUsb30Ports" def_cnt);
       s32 (query_ulong key "NumberOfUsb20Ports" def_cnt)]
  end.

Fixpoint limit_ports (total : Z) (cnt : list Z) : list Z :=
  match cnt with
  | [] => []
  | n :: cnt =>
      let n := Z.min MAX_PORTS (Z.max MIN_PORTS n) in
      let n := if MAX_TOTAL_PORTS <? total + n then MAX_TOTAL_PORTS - total else n in
      n :: limit_ports (total + n) cnt
  end.

(** The counts of USB 2 and USB 3 ports. *)
Definition set_usb_ports_cnt (key : parameters) : Z * Z :=
  match limit_ports 0 (query_usb_ports_cnt key DEF_PORTS) with
  | [usb3; usb2] => (usb2, usb3)
  | _ => (0, 0)
  end.

(** [pool]: whether the array could be allocated; it is zeroed. *)
Definition alloc_devices (key : parameters) (pool : bool) (v : vhci_ctx) : ntstatus * vhci_ctx :=
  let '(usb2, usb3) := set_usb_ports_cnt key in
  let n := usb2 + usb3 in
  if pool then (STATUS_SUCCESS, with_hub v usb2 n (replicate (Z.to_nat n) None))
  else (STATUS_INSUFFICIENT_RESOURCES, v).

(** vhci_cleanup *)
Definition vhci_cleanup (v : vhci_ctx) : vhci_ctx := with_hub (with_removing v true) 0 0 [].

(** ** Ports *)

(** UDECX_USB_DEVICE_SPEED *)
Inductive udex_speed : Type := UdecxUsbLowSpeed | UdecxUsbFullSpeed | UdecxUsbHighSpeed | UdecxUsbSuperSpeed.

Definition to_udex_speed (s : Z) : udex_speed :=
  if (s =? USB_SPEED_SUPER_PLUS) || (s =? USB_SPEED_SUPER) then UdecxUsbSuperSpeed
  else if (s =? USB_SPEED_WIRELESS) || (s =? USB_SPEED_HIGH) then UdecxUsbHighSpeed
  else if s =? USB_SPEED_FULL then UdecxUsbFullSpeed
  else if s =? USB_SPEED_LOW then UdecxUsbLowSpeed
  else UdecxUsbHighSpeed.

Definition is_valid_port (v : vhci_ctx) (p : Z) : bool := (0 <? p) && (p <=? devices_cnt v).

Definition get_port_range (v : vhci_ctx) (s : Z) : Z * Z :=
  if s <? USB_SPEED_SUPER then (0, usb2_ports v) else (usb2_ports v, devices_cnt v).

(** The first free slot among [n] slots from [i]. *)
Fixpoint find_free (n : nat) (i : Z) (devs : list (option device)) : option (option Z) :=
  match n with
  | O => Some None
  | S n =>
      handle ← devs !! Z.to_nat i;
      match handle with None => Some (Some i) | Some _ => find_free n (i + 1) devs end
  end.

Section ports.
Context {W : Type}.

Definition dev_speed (c : device_ctx) : Z := speed (properties (attr c)).

Definition claim_roothub_port (w : world W) (d : device) : option (Z * world W) :=
  c ← dev_ctx w !! d;
  let '(first, last) := get_port_range (vhci w) (dev_speed c) in
  slot ← find_free (Z.to_nat (last - first)) first (devices (vhci w));
  match slot with
  | None => Some (0, w)
  | Some i =>
      let w := set_vhci w (with_devices (vhci w) (<[Z.to_nat i := Some d]> (devices (vhci w)))) in
      Some (i + 1, set_dev (add_ref w d 1) d (with_port c (i + 1)))
  end.

Definition reclaim_roothub_port (w : world W) (d : device) : option (Z * world W) :=
  c ← dev_ctx w !! d;
  if port c =? 0 then Some (0, w)
  else
    _ ← devices (vhci w) !! Z.to_nat (port c - 1);
    let w := set_vhci w (with_devices (vhci w) (<[Z.to_nat (port c - 1) := None]> (devices (vhci w)))) in
    Some (port c, add_ref (set_dev w d (with_port c 0)) d (-1)).

(** The device on a port, as vhci::get_device; its extra reference is dropped by the caller. *)
Definition get_device (w : world W) (p : Z) : option (option device) :=
  if is_valid_port (vhci w) p then devices (vhci w) !! Z.to_nat (p - 1) else Some None.

Fixpoint has_device_loop (n : nat) (i : Z) (w : world W) (hash : Z) : option bool :=
  match n with
  | O => Some false
  | S n =>
      hdev ← devices (vhci w) !! Z.to_nat i;
      match hdev with
      | None => has_device_loop n (i + 1) w hash
      | Some hdev =>
          dev ← dev_ctx w !! hdev;
          if location_hash (attr dev) =? hash then Some true else has_device_loop n (i + 1) w hash
      end
  end.

Definition has_device (w : world W) (hash : Z) : option bool :=
  has_device_loop (Z.to_nat (devices_cnt (vhci w))) 0 w hash.
End ports.

(** ** The port table is consistent *)

Definition in_range (v : vhci_ctx) (s : Z) (i : Z) : Prop :=
  fst (get_port_range v s) <= i < snd (get_port_range v s).

Record hub_ok (v : vhci_ctx) : Prop := {
  hub_usb2 : 1 <= usb2_ports v <= 254;
  hub_usb3 : 1 <= devices_cnt v - usb2_ports v <= 254;
  hub_total : devices_cnt v <= 255;
  hub_array : Z.of_nat (length (devices v)) = devices_cnt v }.

(** A device is in slot [i] exactly when its port is [i + 1], in the range of its
    speed, and the table then holds one reference to it. *)
Record ports_ok {W} (w : world W) : Prop := {
  ports_hub : hub_ok (vhci w);
  ports_slot : forall i d, devices (vhci w) !! i = Some (Some d) ->
      exists c, dev_ctx w !! d = Some c /\ port c = Z.of_nat i + 1 /\ in_range (vhci w) (dev_speed c) (Z.of_nat i);
  ports_dev : forall d c, dev_ctx w !! d = Some c ->
      port c = 0 \/ (1 <= port c /\ devices (vhci w) !! Z.to_nat (port c - 1) = Some (Some d));
  ports_refs : forall d c, dev_ctx w !! d = Some c ->
      default 0 (refs w !! d) = if port c =? 0 then 0 else 1 }.

Definition occupied (l : list (option device)) (i : Z) : Prop :=
  exists d, l !! Z.to_nat i = Some (Some d).

Definition free_slot (l : list (option device)) (i : Z) : Prop := l !! Z.to_nat i = Some None.

(** ** Lemmas *)

Lemma limit_ports_spec a b :
  exists m n, limit_ports 0 [a; b] = [m; n] /\ 1 <= m <= 254 /\ 1 <= n <= 254 /\ m + n <= 255 /\
              m = Z.min 254 (Z.max 1 a) /\ n = Z.min (255 - m) (Z.min 254 (Z.max 1 b)).
Proof.
  unfold limit_ports. change MAX_PORTS with 254. change MIN_PORTS with 1. change MAX_TOTAL_PORTS with 255.
  cbv zeta. do 2 eexists. split; [reflexivity|].
  repeat match goal with |- context [?x <? ?y] => destruct (Z.ltb_spec x y) end; lia.
Qed.

Lemma set_usb_ports_cnt_bounds key :
  1 <= fst (set_usb_ports_cnt key) <= 254 /\ 1 <= snd (set_usb_ports_cnt key) <= 254 /\
  fst (set_usb_ports_cnt key) + snd (set_usb_ports_cnt key) <= 255.
Proof.
  unfold set_usb_ports_cnt, query_usb_ports_cnt. destruct key as [key|].
  - destruct (limit_ports_spec (s32 (query_ulong key "NumberOfUsb30Ports" DEF_PORTS))
                (s32 (query_ulong key "NumberOfUsb20Ports" DEF_PORTS))) as (m & n & -> & ?). simpl. lia.
  - destruct (limit_ports_spec DEF_PORTS DEF_PORTS) as (m & n & -> & ?). simpl. lia.
Qed.

Lemma find_free_spec n i devs :
  0 <= i -> i + Z.of_nat n <= Z.of_nat (length devs) ->
  exists slot, find_free n i devs = Some slot /\
    match slot with
    | None => forall j, i <= j < i + Z.of_nat n -> occupied devs j
    | Some k => i <= k < i + Z.of_nat n /\ free_slot devs k /\ forall j, i <= j < k -> occupied devs j
    end.
Proof.
  revert i. induction n as [|n IH]; intros i Hi Hlen; simpl find_free.
  - exists None. split; [done|]. lia.
  - destruct (lookup_lt_is_Some_2 devs (Z.to_nat i)) as [[d|] Hd]; [lia| |]; rewrite Hd; simpl.
    + destruct (IH (i + 1)) as (slot & -> & Hs); [lia|lia|]. exists slot. split; [done|].
      destruct slot as [k|].
      * destruct Hs as (? & ? & Ho). split_and!; [lia|lia|done|]. intros j Hj.
        destruct (decide (j = i)) as [->|]; [by exists d | apply Ho; lia].
      * intros j Hj. destruct (decide (j = i)) as [->|]; [by exists d | apply Hs; lia].
    + exists (Some i). split_and!; [done|lia|lia|done|lia].
Qed.

Lemma port_range_bounds v s :
  hub_ok v -> 0 <= fst (get_port_range v s) /\ fst (get_port_range v s) < snd (get_port_range v s) /\
              snd (get_port_range v s) <= devices_cnt v.
Proof. intros []. unfold get_port_range. destruct (s <? USB_SPEED_SUPER); simpl; lia. Qed.

Lemma get_port_range_with v l s : get_port_range (with_devices v l) s = get_port_range v s.
Proof. done. Qed.

Lemma hub_ok_insert v i o : hub_ok v -> hub_ok (with_devices v (<[i := o]> (devices v))).
Proof. intros []. constructor; simpl; rewrite ?length_insert; auto. Qed.

Lemma port_valid {W} (w : world W) d c :
  ports_ok w -> dev_ctx w !! d = Some c -> port c <> 0 ->
  is_valid_port (vhci w) (port c) = true /\ devices (vhci w) !! Z.to_nat (port c - 1) = Some (Some d).
Proof.
  intros Hw Hd Hp. destruct (ports_dev w Hw d c Hd) as [|[? Hl]]; [done|]. split; [|done].
  pose proof (lookup_lt_Some _ _ _ Hl). pose proof (hub_array _ (ports_hub w Hw)).
  unfold is_valid_port. lia.
Qed.

(** Changing the port of a device and the slot it refers to, together. *)
Lemma ports_ok_claim {W} (w : world W) d c i :
  ports_ok w -> dev_ctx w !! d = Some c -> port c = 0 -> 0 <= i -> free_slot (devices (vhci w)) i ->
  in_range (vhci w) (dev_speed c) i ->
  ports_ok (set_dev (add_ref (set_vhci w (with_devices (vhci w) (<[Z.to_nat i := Some d]> (devices (vhci w))))) d 1)
              d (with_port c (i + 1))).
Proof.
  intros Hw Hd Hp Hi Hfree Hr. unfold free_slot in Hfree. pose proof (lookup_lt_Some _ _ _ Hfree) as Hlt.
  constructor; simpl.
  - apply hub_ok_insert, Hw.
  - intros j e. destruct (decide (Z.to_nat i = j)) as [<-|Hne].
    + rewrite list_lookup_insert_eq by done. intros [= <-]. eexists. rewrite lookup_insert_eq.
      split; [done|]. rewrite Z2Nat.id by lia. done.
    + rewrite list_lookup_insert_ne by done. intros He. destruct (ports_slot w Hw j e He) as (ce & Hce & Hpe & Hre).
      assert (e <> d) as Hed by (intros ->; rewrite Hd in Hce; simplify_eq; lia).
      exists ce. rewrite lookup_insert_ne by done. auto.
  - intros e ce. destruct (decide (d = e)) as [<-|Hed].
    + rewrite lookup_insert_eq. intros [= <-]. right. simpl. split; [lia|].
      rewrite Z.add_simpl_r, list_lookup_insert_eq by done. done.
    + rewrite lookup_insert_ne by done. intros Hce. destruct (ports_dev w Hw e ce Hce) as [?|[? Hl]]; [auto|].
      right. split; [done|]. rewrite list_lookup_insert_ne; [done|]. intros Heq. rewrite <- Heq in Hl. congruence.
  - intros e ce. destruct (decide (d = e)) as [<-|Hed].
    + rewrite !lookup_insert_eq. intros [= <-]. simpl. rewrite (ports_refs w Hw d c Hd), Hp.
      destruct (Z.eqb_spec (i + 1) 0); simpl; lia.
    + rewrite !lookup_insert_ne by done. apply (ports_refs w Hw).
Qed.

Lemma ports_ok_release {W} (w : world W) d c :
  ports_ok w -> dev_ctx w !! d = Some c -> port c <> 0 ->
  ports_ok (add_ref (set_dev (set_vhci w (with_devices (vhci w) (<[Z.to_nat (port c - 1) := None]> (devices (vhci w)))))
              d (with_port c 0)) d (-1)).
Proof.
  intros Hw Hd Hp. destruct (port_valid w d c Hw Hd Hp) as [Hv Hslot]. unfold is_valid_port in Hv.
  pose proof (lookup_lt_Some _ _ _ Hslot) as Hlt. constructor; simpl.
  - apply hub_ok_insert, Hw.
  - intros j e. destruct (decide (Z.to_nat (port c - 1) = j)) as [<-|Hne].
    + rewrite list_lookup_insert_eq by done. done.
    + rewrite list_lookup_insert_ne by done. intros He. destruct (ports_slot w Hw j e He) as (ce & Hce & Hpe & Hre).
      assert (e <> d) as Hed by (intros ->; rewrite Hd in Hce; simplify_eq; lia).
      exists ce. rewrite lookup_insert_ne by done. auto.
  - intros e ce. destruct (decide (d = e)) as [<-|Hed].
    + rewrite lookup_insert_eq. intros [= <-]. auto.
    + rewrite lookup_insert_ne by done. intros Hce. destruct (ports_dev w Hw e ce Hce) as [?|[? Hl]]; [auto|].
      right. split; [done|]. rewrite list_lookup_insert_ne; [done|]. intros Heq. rewrite <- Heq in Hl. congruence.
  - intros e ce. destruct (decide (d = e)) as [<-|Hed].
    + rewrite !lookup_insert_eq. intros [= <-]. simpl. rewrite (ports_refs w Hw d c Hd).
      destruct (Z.eqb_spec (port c) 0); simpl; lia.
    + rewrite !lookup_insert_ne by done. apply (ports_refs w Hw).
Qed.

Lemma ports_ok_array {W} (w : world W) : ports_ok w -> Z.of_nat (length (devices (vhci w))) = devices_cnt (vhci w).
Proof. intros Hw. apply hub_array, Hw. Qed.

(** Claiming terminates with a port or with 0, and keeps the table consistent. *)
Lemma claim_ok {W} (w : world W) d c :
  ports_ok w -> dev_ctx w !! d = Some c -> port c = 0 ->
  exists p w', claim_roothub_port w d = Some (p, w') /\ ports_ok w' /\
    ((p = 0 /\ w' = w /\ forall i, in_range (vhci w) (dev_speed c) i -> occupied (devices (vhci w)) i) \/
     (1 <= p /\ in_range (vhci w) (dev_speed c) (p - 1) /\ free_slot (devices (vhci w)) (p - 1) /\
      (forall i, fst (get_port_range (vhci w) (dev_speed c)) <= i < p - 1 -> occupied (devices (vhci w)) i) /\
      w' = set_dev (add_ref (set_vhci w (with_devices (vhci w)
             (<[Z.to_nat (p - 1) := Some d]> (devices (vhci w))))) d 1) d (with_port c p))).
Proof.
  intros Hw Hd Hp. unfold claim_roothub_port. rewrite Hd. simpl.
  pose proof (port_range_bounds (vhci w) (dev_speed c) (ports_hub w Hw)) as Hb.
  pose proof (ports_ok_array w Hw) as Hlen. unfold in_range.
  destruct (get_port_range (vhci w) (dev_speed c)) as [first last] eqn:Er. simpl in Hb |- *.
  destruct (find_free_spec (Z.to_nat (last - first)) first (devices (vhci w))) as (slot & -> & Hs); [lia|lia|].
  simpl. destruct slot as [i|].
  - destruct Hs as (Hi & Hfree & Ho). eexists _, _. split; [done|]. split.
    + apply ports_ok_claim; auto; [lia|]. unfold in_range. rewrite Er. simpl. lia.
    + right. rewrite Z.add_simpl_r. split_and!; auto; lia.
  - exists 0, w. split_and!; auto. left. split_and!; auto. intros i Hi. apply Hs. lia.
Qed.

Lemma reclaim_ok {W} (w : world W) d c :
  ports_ok w -> dev_ctx w !! d = Some c ->
  exists w', reclaim_roothub_port w d = Some (port c, w') /\ ports_ok w' /\
    dev_ctx w' = <[d := with_port c 0]> (dev_ctx w) /\
    (forall i, devices (vhci w') !! i =
               if decide (devices (vhci w) !! i = Some (Some d)) then Some None else devices (vhci w) !! i) /\
    fobj_ctx w' = fobj_ctx w /\ completed w' = completed w /\ trace w' = trace w /\ wdf w' = wdf w /\
    attach w' = attach w /\ vhci w' = with_devices (vhci w) (devices (vhci w')).
Proof.
  intros Hw Hd. unfold reclaim_roothub_port. rewrite Hd. simpl.
  assert (forall i, devices (vhci w) !! i = Some (Some d) -> port c = Z.of_nat i + 1) as Hat.
  { intros i Hi. destruct (ports_slot w Hw i d Hi) as (c' & Hc' & Hp & _). congruence. }
  destruct (Z.eqb_spec (port c) 0) as [Hz|Hz].
  - exists w. split_and!; auto.
    + by rewrite Hz.
    + assert (with_port c 0 = c) as -> by (destruct c; simpl in Hz; by rewrite Hz). by rewrite insert_id.
    + intros i. case_decide as Hi; [|done]. specialize (Hat i Hi). lia.
    + by destruct (vhci w).
  - destruct (port_valid w d c Hw Hd Hz) as [Hv Hslot]. rewrite Hslot. simpl.
    eexists. split; [done|]. split; [by apply ports_ok_release|]. split_and!; auto.
    intros i. simpl. case_decide as Hi.
    + pose proof (Hat i Hi). replace (Z.to_nat (port c - 1)) with i by lia.
      apply list_lookup_insert_eq, (lookup_lt_Some _ _ _ Hi).
    + apply list_lookup_insert_ne. intros Heq. rewrite Heq in Hslot. done.
Qed.

Lemma reclaim_dev_lookup {W} (w : world W) d c p w' e ce :
  dev_ctx w !! d = Some c -> reclaim_roothub_port w d = Some (p, w') -> e <> d ->
  dev_ctx w !! e = Some ce -> dev_ctx w' !! e = Some ce.
Proof.
  unfold reclaim_roothub_port. intros -> H He Hce. simpl in H.
  destruct (port c =? 0); simplify_eq; [done|].
  destruct (devices (vhci w) !! Z.to_nat (port c - 1)); simplify_eq/=. by rewrite lookup_insert_ne.
Qed.

Lemma has_device_loop_spec {W} (w : world W) hash n i :
  ports_ok w -> 0 <= i -> i + Z.of_nat n <= devices_cnt (vhci w) ->
  exists b, has_device_loop n i w hash = Some b /\
    (b = true <-> exists j d c, i <= Z.of_nat j < i + Z.of_nat n /\ devices (vhci w) !! j = Some (Some d) /\
                                dev_ctx w !! d = Some c /\ location_hash (attr c) = hash).
Proof.
  intros Hw. revert i. induction n as [|n IH]; intros i Hi Hn; simpl has_device_loop.
  - exists false. split; [done|]. split; [done|]. intros; deex. lia.
  - pose proof (ports_ok_array w Hw).
    destruct (IH (i + 1)) as (b & Hb & Hspec); [lia|lia|].
    destruct (lookup_lt_is_Some_2 (devices (vhci w)) (Z.to_nat i)) as [[d|] Hd]; [lia| |]; rewrite Hd; simpl.
    + destruct (ports_slot w Hw _ _ Hd) as (c & Hc & _ & _). rewrite Hc. simpl.
      destruct (Z.eqb_spec (location_hash (attr c)) hash) as [He|He].
      * exists true. split; [done|]. split; [|done]. intros _. exists (Z.to_nat i), d, c. split_and!; auto; lia.
      * exists b. split; [done|]. rewrite Hspec. split.
        -- intros (j & d' & c' & Hj & ?). exists j, d', c'. split; [lia|done].
        -- intros (j & d' & c' & Hj & Hd' & Hc' & Hh).
           assert (j <> Z.to_nat i) by (intros ->; rewrite Hd in Hd'; simplify_eq; congruence).
           exists j, d', c'. split_and!; auto; lia.
    + exists b. split; [done|]. rewrite Hspec. split.
      * intros (j & d' & c' & Hj & ?). exists j, d', c'. split; [lia|done].
      * intros (j & d' & c' & Hj & Hd' & ?).
        assert (j <> Z.to_nat i) by (intros ->; rewrite Hd in Hd'; done).
        exists j, d', c'. split_and!; auto; try tauto; lia.
Qed.

(** A device is found by its location exactly when it sits on some port. *)
Lemma has_device_spec {W} (w : world W) hash :
  ports_ok w ->
  exists b, has_device w hash = Some b /\
    (b = true <-> exists d c, dev_ctx w !! d = Some c /\ port c <> 0 /\ location_hash (attr c) = hash).
Proof.
  intros Hw. pose proof (hub_usb2 _ (ports_hub w Hw)). pose proof (hub_usb3 _ (ports_hub w Hw)).
  destruct (has_device_loop_spec w hash (Z.to_nat (devices_cnt (vhci w))) 0 Hw) as (b & Hb & Hs); [lia|lia|].
  exists b. split; [done|]. rewrite Hs. split.
  - intros (j & d & c & Hj & Hd & Hc & Hh). exists d, c. destruct (ports_slot w Hw _ _ Hd) as (c' & Hc' & Hp & _).
    split_and!; auto. rewrite Hc in Hc'. simplify_eq. lia.
  - intros (d & c & Hc & Hp & Hh). destruct (ports_dev w Hw d c Hc) as [|[? Hl]]; [done|].
    pose proof (lookup_lt_Some _ _ _ Hl). pose proof (ports_ok_array w Hw).
    exists (Z.to_nat (port c - 1)), d, c. split; [lia | auto].
Qed.

Lemma get_device_spec {W} (w : world W) p :
  ports_ok w ->
  exists o, get_device w p = Some o /\
    match o with
    | Some d => exists c, dev_ctx w !! d = Some c /\ port c = p /\ p <> 0
    | None => forall d c, dev_ctx w !! d = Some c -> port c = p -> p = 0
    end.
Proof.
  intros Hw. pose proof (ports_ok_array w Hw). unfold get_device. destruct (is_valid_port (vhci w) p) eqn:Ev.
  - unfold is_valid_port in Ev.
    destruct (lookup_lt_is_Some_2 (devices (vhci w)) (Z.to_nat (p - 1))) as [[d|] Hd]; [lia| |]; rewrite Hd.
    + eexists. split; [done|]. destruct (ports_slot w Hw _ _ Hd) as (c & Hc & Hp & _). exists c. split_and!; auto; lia.
    + eexists. split; [done|]. intros d c Hc Hp. destruct (ports_dev w Hw d c Hc) as [|[_ Hl]]; [lia|].
      subst p. rewrite Hd in Hl. done.
  - eexists. split; [done|]. intros d c Hc Hp. destruct (decide (p = 0)) as [|Hp0]; [done|].
    destruct (port_valid w d c Hw Hc) as [Hv _]; [lia|]. subst p. congruence.
Qed.

(** A speed the enumeration does not have gets a USB 3 port although the device is
    created as a high-speed one. *)
Lemma unknown_speed_on_usb3_port v s :
  USB_SPEED_SUPER_PLUS < s ->
  to_udex_speed s = UdecxUsbHighSpeed /\ get_port_range v s = (usb2_ports v, devices_cnt v).
Proof.
  unfold to_udex_speed, get_port_range, USB_SPEED_SUPER_PLUS, USB_SPEED_SUPER, USB_SPEED_WIRELESS,
    USB_SPEED_HIGH, USB_SPEED_FULL, USB_SPEED_LOW. intros Hs.
  repeat match goal with |- context [?x =? ?y] => destruct (Z.eqb_spec x y); [lia|] end.
  destruct (Z.ltb_spec s 5); [lia|]. done.
Qed.

(** For the speeds the enumeration has, SuperSpeed devices and no others get USB 3 ports. *)
Lemma known_speed_port_matches s :
  s <= USB_SPEED_SUPER_PLUS -> to_udex_speed s = UdecxUsbSuperSpeed <-> (s <? USB_SPEED_SUPER) = false.
Proof.
  unfold to_udex_speed, USB_SPEED_SUPER_PLUS, USB_SPEED_SUPER, USB_SPEED_WIRELESS,
    USB_SPEED_HIGH, USB_SPEED_FULL, USB_SPEED_LOW. intros Hs.
  destruct (Z.ltb_spec s 5);
    repeat match goal with |- context [?x =? ?y] => destruct (Z.eqb_spec x y); simpl end; split; done || lia.
Qed.

(** Before any device is plugged in. *)
Lemma ports_ok_fresh {W} (w : world W) :
  hub_ok (vhci w) -> Forall (fun slot => slot = None) (devices (vhci w)) ->
  (forall d c, dev_ctx w !! d = Some c -> port c = 0 /\ default 0 (refs w !! d) = 0) -> ports_ok w.
Proof.
  intros Hh Hs Hd. constructor; auto.
  - intros i d Hi. rewrite Forall_lookup in Hs. by specialize (Hs _ _ Hi).
  - intros d c Hc. left. by apply (Hd d).
  - intros d c Hc. destruct (Hd d c Hc) as [-> ->]. done.
Qed.

(** ** Theorems *)

(** The hub the controller allocates has between 1 and 254 ports of each kind,
    255 at most together, all free; the registry's numbers are taken as they are when
    they are within these limits, and without them there are 30 ports of each kind. *)
Theorem hub_ports_bounds (key : parameters) (v v' : vhci_ctx) :
  alloc_devices key true v = (STATUS_SUCCESS, v') ->
  hub_ok v' /\
  Forall (fun slot => slot = None) (devices v') /\
  (key = None -> usb2_ports v' = 30 /\ devices_cnt v' = 60) /\
  (forall k m n, key = Some k -> k "NumberOfUsb20Ports"%string = Some m -> k "NumberOfUsb30Ports"%string = Some n ->
     1 <= m <= 254 -> 1 <= n <= 254 -> m + n <= 255 -> usb2_ports v' = m /\ devices_cnt v' = m + n).
Proof.
  unfold alloc_devices. pose proof (set_usb_ports_cnt_bounds key) as Hb.
  destruct (set_usb_ports_cnt key) as [usb2 usb3] eqn:E. simpl in Hb. intros [= <-]. split_and!.
  - constructor; simpl; rewrite ?length_replicate; lia.
  - simpl. by apply Forall_replicate.
  - intros ->. unfold set_usb_ports_cnt in E. vm_compute in E. by injection E as <- <-.
  - intros k m n -> Hm Hn ???. unfold set_usb_ports_cnt, query_usb_ports_cnt, query_ulong in E.
    rewrite Hm, Hn, !s32_id in E by (unfold is_s32; lia).
    destruct (limit_ports_spec n m) as (a & b & Hl & ? & ? & ? & Ha & Hb'). rewrite Hl in E. simplify_eq/=. lia.
Qed.

(** C16: claiming a port for a device that has none always ends.  It takes the lowest
    free slot of the range that belongs to the device's speed, writes the device there,
    the port in the device and takes one reference; it reports 0, and changes nothing,
    exactly when every slot of that range is occupied.  The table stays consistent. *)
Theorem claim_roothub_port_correct {W} (w : world W) (d : device) (c : device_ctx) :
  ports_ok w -> dev_ctx w !! d = Some c -> port c = 0 ->
  exists p w', claim_roothub_port w d = Some (p, w') /\ ports_ok w' /\
    (p = 0 <-> forall i, in_range (vhci w) (dev_speed c) i -> occupied (devices (vhci w)) i) /\
    (p = 0 -> w' = w) /\
    (p <> 0 ->
       in_range (vhci w) (dev_speed c) (p - 1) /\ free_slot (devices (vhci w)) (p - 1) /\
       (forall i, in_range (vhci w) (dev_speed c) i -> i < p - 1 -> occupied (devices (vhci w)) i) /\
       devices (vhci w') = <[Z.to_nat (p - 1) := Some d]> (devices (vhci w)) /\
       dev_ctx w' = <[d := with_port c p]> (dev_ctx w) /\
       default 0 (refs w' !! d) = default 0 (refs w !! d) + 1).
Proof.
  intros Hw Hd Hp. destruct (claim_ok w d c Hw Hd Hp) as (p & w' & Hc & Hw' & Hcase).
  exists p, w'. split; [done|]. split; [done|].
  destruct Hcase as [(-> & -> & Ho)|(Hp1 & Hr & Hf & Ho & ->)].
  - split; [done|]. split; [done|]. done.
  - split.
    + split; [lia|]. intros Hall. destruct (Hall (p - 1) Hr) as [e He]. unfold free_slot in Hf. congruence.
    + split; [lia|]. intros _. split_and!; auto.
      * intros i [] ?. apply Ho. lia.
      * simpl. by rewrite lookup_insert_eq.
Qed.

(** A port given to a device is free again after it is given back: the table, the
    device and its references are what they were, the released number is the claimed
    one, and giving back once more does nothing. *)
Theorem claim_reclaim_roundtrip {W} (w w' : world W) (d : device) (c : device_ctx) (p : Z) :
  ports_ok w -> dev_ctx w !! d = Some c -> port c = 0 ->
  claim_roothub_port w d = Some (p, w') ->
  exists w'', reclaim_roothub_port w' d = Some (p, w'') /\ ports_ok w'' /\
    vhci w'' = vhci w /\ dev_ctx w'' = dev_ctx w /\
    default 0 (refs w'' !! d) = default 0 (refs w !! d) /\
    reclaim_roothub_port w'' d = Some (0, w'').
Proof.
  intros Hw Hd Hp Hc. destruct (claim_ok w d c Hw Hd Hp) as (q & wq & Hq & Hwq & Hcase).
  rewrite Hc in Hq. injection Hq as <- <-.
  assert (with_port c 0 = c) as Hc0 by (destruct c; simpl in Hp; by rewrite Hp).
  destruct Hcase as [(-> & -> & _)|(Hp1 & Hr & Hf & _ & ->)].
  - assert (reclaim_roothub_port w d = Some (0, w)) as H0
      by (unfold reclaim_roothub_port; rewrite Hd; simpl; by rewrite Hp).
    exists w. split_and!; auto.
  - set (wc := set_dev _ d (with_port c p)) in *.
    assert (dev_ctx wc !! d = Some (with_port c p)) as Hd' by (simpl; apply lookup_insert_eq).
    destruct (reclaim_ok wc d _ Hwq Hd') as (w'' & Hrec & Hw'' & Hdev & Hslots & _ & _ & _ & _ & _ & Hv).
    exists w''. split; [exact Hrec|]. split; [done|].
    assert (dev_ctx w'' = dev_ctx w) as Hdev'.
    { rewrite Hdev. simpl. rewrite insert_insert_eq. change (with_port (with_port c p) 0) with (with_port c 0).
      rewrite Hc0. by apply insert_id. }
    split_and!; auto.
    + rewrite Hv. assert (devices (vhci w'') = devices (vhci w)) as ->; [|by destruct (vhci w)].
      apply list_eq. intros i. rewrite Hslots. simpl. destruct (decide (Z.to_nat (p - 1) = i)) as [<-|Hne].
      * rewrite list_lookup_insert_eq by apply (lookup_lt_Some _ _ _ Hf). by rewrite decide_True.
      * rewrite list_lookup_insert_ne by done. case_decide as Hi; [|done].
        destruct (ports_slot w Hw _ _ Hi) as (c' & Hc' & Hp' & _). rewrite Hd in Hc'. simplify_eq. lia.
    + rewrite (ports_refs w'' Hw'' d c), (ports_refs w Hw d c) by congruence. done.
    + unfold reclaim_roothub_port. rewrite Hdev', Hd. simpl. by rewrite Hp.
Qed.

(** ** Examples: a hub with two USB 2 ports and one USB 3 port *)
Module Demo.

Definition no_ctx : vhci_ctx :=
  {| usb2_ports := 0; devices_cnt := 0; devices := []; fileobjects := []; reads := []; events_subscribers := 0;
     reattach_max_attempts := 0; reattach_first_delay := 0; reattach_max_delay := 0; reattach_req := [];
     removing := false |}.

Definition three_ports : parameters :=
  Some (fun name => if String.eqb name "NumberOfUsb20Ports" then Some 2
                    else if String.eqb name "NumberOfUsb30Ports" then Some 1 else None).

Definition hub : vhci_ctx := snd (alloc_devices three_ports true no_ctx).

Definition stick (s : Z) : device_ctx :=
  {| attr := {| node_name := [112]; service_name := [51]; busid := [49; 45; 49]; location_hash := 7;
                properties := {| devid := 65538; speed := s; vendor := 1; product := 2;
                                 serial := replicate 16 x00; iserial := 0 |} |};
     sock_open := true; recv_thread := false; port := 0; unplugged := false; ep0_added := false |}.

Definition start : world unit :=
  {| vhci := hub; dev_ctx := {[1%positive := stick USB_SPEED_HIGH; 2%positive := stick USB_SPEED_SUPER]};
     fobj_ctx := ∅; refs := ∅; completed := []; trace := []; attach := ∅; wdf := tt |}.

Lemma start_ok : ports_ok start.
Proof.
  apply ports_ok_fresh.
  - constructor; simpl; vm_compute; repeat split; discriminate.
  - simpl. vm_compute. repeat constructor.
  - simpl. intros d c Hd. rewrite lookup_empty. split; [|done].
    apply lookup_insert_Some in Hd as [[_ <-]|[_ Hd]]; [done|].
    apply lookup_singleton_Some in Hd as [_ <-]. done.
Qed.

End Demo.

Lemma hub_ports_bounds_witness :
  hub_ok Demo.hub /\ usb2_ports Demo.hub = 2 /\ devices_cnt Demo.hub = 3.
Proof.
  destruct (hub_ports_bounds Demo.three_ports Demo.no_ctx Demo.hub ltac:(vm_compute; reflexivity)) as (H & _ & _ & Hr).
  destruct (Hr _ 2 1 eq_refl eq_refl eq_refl) as [-> ->]; [lia..|]. auto.
Defined.

Lemma claim_roothub_port_correct_witness :
  exists p w', claim_roothub_port Demo.start 2%positive = Some (p, w') /\ ports_ok w'.
Proof.
  destruct (claim_roothub_port_correct Demo.start 2%positive (Demo.stick USB_SPEED_SUPER) Demo.start_ok eq_refl eq_refl)
    as (p & w' & H & Hok & _). exists p, w'. auto.
Defined.

Lemma claim_reclaim_roundtrip_witness :
  exists w' w'', claim_roothub_port Demo.start 2%positive = Some (3, w') /\
    reclaim_roothub_port w' 2%positive = Some (3, w'') /\ vhci w'' = Demo.hub.
Proof.
  destruct (claim_roothub_port Demo.start 2%positive) as [[p w']|] eqn:E; [|vm_compute in E; discriminate].
  assert (p = 3) as -> by (vm_compute in E; congruence). exists w'.
  destruct (claim_reclaim_roundtrip Demo.start w' 2%positive (Demo.stick USB_SPEED_SUPER) 3 Demo.start_ok
              eq_refl eq_refl E) as (w'' & H & _ & Hv & _). exists w''. auto.
Defined.
