(* ===== verification/Events.v ===== *)
(** * Notification of applications about device states

    The event half of drivers/ude/vhci.cpp and device_read of
    drivers/ude/vhci_ioctl.cpp.  Each open file object has a bounded collection of
    states that wait for a read; a read that finds none waits in the queue
    vhci_ctx::reads.  All of it runs under vhci_ctx::events_lock, so an operation is one
    atomic step; the framework cancels queued reads at any time.  Events are memory
    objects shared between file objects; nothing writes to them after their creation,
    so they are values here. *)

From S2P Require Import Prelude Vhci.

(** ** The framework

    Every call may fail in ways the driver does not control; [W] is the state its
    answers depend on.  retrieve_by_fileobj is WdfIoQueueRetrieveRequestByFileObject on
    the queue of waiting reads, file_of is WdfRequestGetFileObject. *)
Class Wdf (W : Type) : Type := {
  collection_create : W -> ntstatus * W;
  collection_add : W -> ntstatus * W;
  memory_create : W -> ntstatus * W;
  retrieve_output : W -> request -> ntstatus * W;
  forward_to_reads : W -> request -> ntstatus * W;
  retrieve_by_fileobj : W -> list request -> fileobj -> ntstatus * option request * W;
  file_of : request -> fileobj }.

(** STATUS_SUCCESS comes with a waiting request of the file object, STATUS_NO_MORE_ENTRIES
    says that there is none. *)
Class WdfLaws (W : Type) `{Wdf W} : Prop := {
  retrieve_found : forall x rs f o x', retrieve_by_fileobj x rs f = (STATUS_SUCCESS, o, x') ->
      exists r, o = Some r /\ r ∈ rs /\ file_of r = f;
  retrieve_none : forall x rs f o x', retrieve_by_fileobj x rs f = (STATUS_NO_MORE_ENTRIES, o, x') ->
      forall r, r ∈ rs -> file_of r <> f }.

(** sizeof(vhci::device_state) *)
Definition sizeof_device_state : Z := 1140.

Section events.
Context {W : Type} `{Wdf W}.

(** libdrv::unicode_to_utf8 on a buffer of the given size: status, characters written. *)
Context (unicode_to_utf8 : nat -> list Z -> ntstatus * list byte).

(** ** Filling the structures *)

(** unicode_to_utf8 over the bytes a buffer has: a terminator only when there is room. *)
Definition utf8_into (old : list byte) (src : list Z) : ntstatus * list byte :=
  let '(st, chars) := unicode_to_utf8 (length old) src in
  (st, take (length old) (chars ++ (if (length chars <? length old)%nat then [x00] else []) ++
                          drop (length chars + 1) old)).

(** usbip::fill_location *)
Definition fill_location (r : imported_device_location) (a : device_attributes)
  : ntstatus * imported_device_location :=
  let '(st, host) := utf8_into (loc_host r) (node_name a) in
  let r := {| loc_port := loc_port r; loc_busid := loc_busid r; loc_service := loc_service r; loc_host := host |} in
  match st with
  | STATUS_SUCCESS =>
      let '(st, service) := utf8_into (loc_service r) (service_name a) in
      let r := {| loc_port := loc_port r; loc_busid := loc_busid r; loc_service := service; loc_host := loc_host r |} in
      match st with
      | STATUS_SUCCESS =>
          let '(st, bus) := utf8_into (loc_busid r) (busid a) in
          (st, {| loc_port := loc_port r; loc_busid := bus; loc_service := loc_service r; loc_host := loc_host r |})
      | st => (st, r)
      end
  | st => (st, r)
  end.

(** vhci::fill *)
Definition fill (r : imported_device_location) (p : imported_device_properties) (a : device_attributes) (portnum : Z)
  : ntstatus * imported_device_location * imported_device_properties :=
  let r := {| loc_port := portnum; loc_busid := loc_busid r; loc_service := loc_service r; loc_host := loc_host r |} in
  let '(st, r) := fill_location r a in
  match st with STATUS_SUCCESS => (st, r, properties a) | st => (st, r, p) end.

Definition zero_location : imported_device_location :=
  {| loc_port := 0; loc_busid := replicate 32 x00; loc_service := replicate 32 x00; loc_host := replicate 1025 x00 |}.

Definition zero_properties : imported_device_properties :=
  {| devid := 0; speed := 0; vendor := 0; product := 0; serial := replicate 16 x00; iserial := 0 |}.

(** make_device_state; [source_id] is the hash of the address of the attributes. *)
Definition make_device_state (x : W) (a : device_attributes) (portnum : Z) (st : state) (source_id : Z)
  : option device_state * W :=
  let '(err, x) := memory_create x in
  match err with
  | STATUS_SUCCESS =>
      let '(err, loc, props) := fill zero_location zero_properties a portnum in
      match err with
      | STATUS_SUCCESS =>
          (Some {| ds_size := sizeof_device_state; ds_location := loc; ds_properties := props;
                   ds_state := st; ds_source_id := source_id |}, x)
      | _ => (None, x)
      end
  | _ => (None, x)
  end.

(** ** Delivering one event *)

(** vhci::complete_read *)
Definition complete_read (w : world W) (r : request) (evt : device_state) : world W :=
  let '(st, x) := retrieve_output (wdf w) r in
  let w := set_wdf w x in
  if NT_SUCCESS st then complete_request w r st sizeof_device_state (Some evt)
  else complete_request w r st 0 None.

Definition set_reads (w : world W) (rs : list request) : world W :=
  set_vhci w (with_events (vhci w) (fileobjects (vhci w)) rs (events_subscribers (vhci w))).

Definition set_events (c : fileobject_ctx) (l : list device_state) : fileobject_ctx :=
  {| events := l; process_events := process_events c |}.

(** process_event for one subscribed file object. *)
Definition process_event_fobj (w : world W) (f : fileobj) (c : fileobject_ctx) (evt : device_state) (max_events : Z)
  : option (world W) :=
  let '(st, o, x) := retrieve_by_fileobj (wdf w) (reads (vhci w)) f in
  let w := set_wdf w x in
  match st with
  | STATUS_SUCCESS =>
      r ← o;
      Some (complete_read (set_reads w (filter (.≠ r) (reads (vhci w)))) r evt)
  | STATUS_NO_MORE_ENTRIES =>
      let '(err, x) := collection_add (wdf w) in
      let w := set_wdf w x in
      match err with
      | STATUS_SUCCESS =>
          let l := events c ++ [evt] in
          let l := if max_events <? Z.of_nat (length l) then tail l else l in
          Some (set_fobj w f (set_events c l))
      | _ => Some w
      end
  | _ => Some w
  end.

Fixpoint process_event_loop (fs : list fileobj) (w : world W) (evt : device_state) (cnt : Z) : option (Z * world W) :=
  match fs with
  | [] => Some (cnt, w)
  | f :: fs =>
      c ← fobj_ctx w !! f;
      if process_events c then
        w ← process_event_fobj w f c evt (4 * devices_cnt (vhci w));
        process_event_loop fs w evt (cnt + 1)
      else process_event_loop fs w evt cnt
  end.

(** process_event for every file object: how many took part, and the new state. *)
Definition process_event (w : world W) (evt : device_state) : option (Z * world W) :=
  process_event_loop (fileobjects (vhci w)) w evt 0.

(** ** The operations *)

(** vhci::device_state_changed: no event is made when nobody listens. *)
Definition device_state_changed (w : world W) (a : device_attributes) (portnum : Z) (st : state) (source_id : Z)
  : option (world W) :=
  let w := add_action w (StateChanged a portnum st) in
  if events_subscribers (vhci w) =? 0 then Some w
  else
    let '(evt, x) := make_device_state (wdf w) a portnum st source_id in
    let w := set_wdf w x in
    match evt with
    | Some evt => r ← process_event w evt; Some (snd r)
    | None => Some w
    end.

(** device_file_create; [r] is the create request. *)
Definition device_file_create (w : world W) (f : fileobj) (r : request) : world W :=
  let '(st, x) := collection_create (wdf w) in
  let w := set_fobj (set_wdf w x) f {| events := []; process_events := false |} in
  let w := if NT_ERROR st then w
           else set_vhci w (with_events (vhci w) (fileobjects (vhci w) ++ [f]) (reads (vhci w))
                              (events_subscribers (vhci w))) in
  complete_request w r st 0 None.

(** file_cleanup *)
Definition file_cleanup (w : world W) (f : fileobj) : option (world W) :=
  c ← fobj_ctx w !! f;
  let v := vhci w in
  let n := if process_events c then events_subscribers v - 1 else events_subscribers v in
  Some (set_vhci w (with_events v (filter (.≠ f) (fileobjects v)) (reads v) n)).

(** device_read *)
Definition device_read (w : world W) (r : request) (length : Z) : option (world W) :=
  let f := file_of r in
  if negb (length =? sizeof_device_state) then Some (complete_request w r STATUS_INVALID_BUFFER_SIZE 0 None)
  else
    c ← fobj_ctx w !! f;
    let w := if process_events c then w
             else set_fobj (set_vhci w (with_events (vhci w) (fileobjects (vhci w)) (reads (vhci w))
                                          (events_subscribers (vhci w) + 1)))
                    f {| events := events c; process_events := true |} in
    match events c with
    | evt :: evts => Some (set_fobj (complete_read w r evt) f {| events := evts; process_events := true |})
    | [] =>
        let '(err, x) := forward_to_reads (wdf w) r in
        let w := set_wdf w x in
        match err with
        | STATUS_SUCCESS => Some (set_reads w (reads (vhci w) ++ [r]))
        | err =>
            let err := if bool_decide (err = STATUS_WDF_BUSY) then STATUS_END_OF_FILE else err in
            Some (complete_request w r err 0 None)
        end
    end.

(** canceled_on_queue: the framework took the read off the queue. *)
Definition canceled_on_queue (w : world W) (r : request) : world W :=
  complete_request (set_reads w (filter (.≠ r) (reads (vhci w)))) r STATUS_CANCELLED 0 None.

(** purge_read_queue: the framework calls canceled_on_queue for every waiting read. *)
Definition purge_read_queue (w : world W) : world W := fold_left canceled_on_queue (reads (vhci w)) w.

(** ** Sequences of operations *)
Inductive event_op : Type :=
| FileCreate (f : fileobj) (r : request)
| FileCleanup (f : fileobj)
| Read (r : request) (length : Z)
| Cancel (r : request)
| Purge
| Changed (a : device_attributes) (portnum : Z) (st : state) (source_id : Z).

Definition exec (w : world W) (op : event_op) : option (world W) :=
  match op with
  | FileCreate f r => Some (device_file_create w f r)
  | FileCleanup f => file_cleanup w f
  | Read r length => device_read w r length
  | Cancel r => Some (canceled_on_queue w r)
  | Purge => Some (purge_read_queue w)
  | Changed a p st src => device_state_changed w a p st src
  end.

Fixpoint exec_all (w : world W) (ops : list event_op) : option (world W) :=
  match ops with [] => Some w | op :: ops => w ← exec w op; exec_all w ops end.
End events.

(** ** The invariant of the subscriptions *)

Definition completed_requests {W} (w : world W) : list request := map (fun x => fst (fst (fst x))) (completed w).

Definition subscribed {W} (w : world W) (f : fileobj) : bool :=
  match fobj_ctx w !! f with Some c => process_events c | None => false end.

Section invariant.
Context {W : Type} `{WdfLaws W}.
Context (unicode_to_utf8 : nat -> list Z -> ntstatus * list byte).

Record events_ok (w : world W) : Prop := {
  eo_files : NoDup (fileobjects (vhci w)) /\ forall f, f ∈ fileobjects (vhci w) -> is_Some (fobj_ctx w !! f);
  eo_count : events_subscribers (vhci w) =
             Z.of_nat (length (filter (fun f => subscribed w f = true) (fileobjects (vhci w))));
  eo_bound : 0 <= devices_cnt (vhci w) /\
             forall f c, fobj_ctx w !! f = Some c -> Z.of_nat (length (events c)) <= 4 * devices_cnt (vhci w);
  eo_waiting : forall r, r ∈ reads (vhci w) ->
      exists c, fobj_ctx w !! file_of r = Some c /\ events c = [] /\ process_events c = true;
  eo_once : NoDup (reads (vhci w) ++ completed_requests w) }.

Definition fresh (w : world W) (r : request) : Prop := r ∉ reads (vhci w) ++ completed_requests w.

(** What applications and the framework can do in a state. *)
Definition enabled (w : world W) (op : event_op) : Prop :=
  match op with
  | FileCreate f r => fobj_ctx w !! f = None /\ fresh w r
  | FileCleanup f => f ∈ fileobjects (vhci w)
  | Read r _ => file_of r ∈ fileobjects (vhci w) /\ fresh w r
  | Cancel r => r ∈ reads (vhci w)
  | Purge | Changed _ _ _ _ => True
  end.

(** *** Parts of a step *)

Lemma filter_all {A} (P : A -> Prop) `{!forall x, Decision (P x)} (l : list A) : Forall P l -> filter P l = l.
Proof. induction 1; [done|]. rewrite filter_cons_True by done. by f_equal. Qed.

Lemma list_filter_iff_elem {A} (P Q : A -> Prop) `{!forall x, Decision (P x)} `{!forall x, Decision (Q x)} (l : list A) :
  (forall x, x ∈ l -> P x <-> Q x) -> filter P l = filter Q l.
Proof.
  induction l as [|a l IH]; [done|]. intros Hl. rewrite !filter_cons, IH by (intros; apply Hl, elem_of_cons; auto).
  specialize (Hl a ltac:(apply elem_of_cons; auto)). repeat case_decide; tauto.
Qed.

Lemma filter_ne_perm {A} `{EqDecision A} (r : A) (l : list A) :
  NoDup l -> r ∈ l -> l ≡ₚ r :: filter (.≠ r) l.
Proof.
  induction l as [|a l IH]; [intros _ ?%elem_of_nil; done|].
  intros [Ha Hl]%list.NoDup_cons Hr. destruct (decide (a = r)) as [->|Hne].
  - rewrite filter_cons_False by (intros Hn; by apply Hn). rewrite filter_all; [done|].
    apply list.Forall_forall. intros x Hx ->. by apply Ha.
  - apply elem_of_cons in Hr as [?|Hr]; [congruence|]. rewrite filter_cons_True by done.
    rewrite (IH Hl Hr) at 1. apply Permutation_swap.
Qed.

Lemma count_split {A} `{EqDecision A} (P : A -> Prop) `{!forall x, Decision (P x)} (a : A) (l : list A) :
  NoDup l -> a ∈ l ->
  length (filter P l) = ((if decide (P a) then 1 else 0) + length (filter P (filter (.≠ a) l)))%nat.
Proof.
  intros Hn Ha. rewrite (Permutation_length (filter_Permutation P _ _ (filter_ne_perm a l Hn Ha))), filter_cons.
  by case_decide.
Qed.

Lemma completed_requests_complete (w : world W) r st info o :
  completed_requests (complete_request w r st info o) = completed_requests w ++ [r].
Proof. unfold completed_requests. simpl. by rewrite map_app. Qed.

Lemma events_ok_wdf w x : events_ok w -> events_ok (set_wdf w x).
Proof. intros []. constructor; auto. Qed.

Lemma events_ok_action w a : events_ok w -> events_ok (add_action w a).
Proof. intros []. constructor; auto. Qed.

Lemma events_ok_complete w r st info o : events_ok w -> fresh w r -> events_ok (complete_request w r st info o).
Proof.
  intros [] Hf. constructor; auto. simpl reads. rewrite completed_requests_complete, app_assoc.
  apply list.NoDup_app. split; [done|]. split; [|apply NoDup_singleton].
  intros x Hx ->%list_elem_of_singleton. done.
Qed.

Lemma events_ok_take w r st info o :
  events_ok w -> r ∈ reads (vhci w) ->
  events_ok (complete_request (set_reads w (filter (.≠ r) (reads (vhci w)))) r st info o).
Proof.
  intros [Hfl Hc Hb Hw Ho] Hr. constructor; auto.
  - simpl. intros x [_ Hx]%list_elem_of_filter. auto.
  - rewrite completed_requests_complete. simpl reads. change (completed_requests (set_reads _ _)) with (completed_requests w).
    pose proof Ho as Ho'. apply list.NoDup_app in Ho' as [Hn _].
    rewrite (filter_ne_perm r (reads (vhci w)) Hn Hr) in Ho. simpl in Ho.
    rewrite app_assoc. by rewrite <- Permutation_cons_append.
Qed.

Lemma complete_read_shape w r evt :
  exists x st info o, complete_read w r evt = complete_request (set_wdf w x) r st info o /\
                      (st = STATUS_SUCCESS -> o = Some evt) /\ (o = None \/ o = Some evt).
Proof.
  unfold complete_read. destruct (retrieve_output (wdf w) r) as [st x].
  destruct (NT_SUCCESS st) eqn:E; do 4 eexists; (split; [done|]); split; auto. intros ->. done.
Qed.

Lemma subscribed_insert (w : world W) f c c' g :
  fobj_ctx w !! f = Some c -> process_events c' = process_events c -> subscribed (set_fobj w f c') g = subscribed w g.
Proof.
  intros Hf Hp. unfold subscribed. simpl. destruct (decide (f = g)) as [<-|Hne].
  - by rewrite lookup_insert_eq, Hf.
  - by rewrite lookup_insert_ne.
Qed.

(** Another collection for a file object whose subscription does not change. *)
Lemma events_ok_set_events w f c l :
  events_ok w -> fobj_ctx w !! f = Some c -> Z.of_nat (length l) <= 4 * devices_cnt (vhci w) ->
  (l = [] \/ forall r, r ∈ reads (vhci w) -> file_of r <> f) -> events_ok (set_fobj w f (set_events c l)).
Proof.
  intros [Hfl Hc Hb Hw Ho] Hf Hl Hr. constructor; auto.
  - simpl. destruct Hfl as [? Hs]. split; [done|]. intros g Hg. specialize (Hs g Hg).
    destruct (decide (f = g)) as [<-|?]; [rewrite lookup_insert_eq; eauto | by rewrite lookup_insert_ne].
  - simpl vhci. rewrite Hc. do 2 f_equal. apply list_filter_iff. intros g.
    by rewrite (subscribed_insert w f c (set_events c l) g Hf eq_refl).
  - simpl. destruct Hb as [? Hb]. split; [done|]. intros g d. destruct (decide (f = g)) as [<-|?].
    + rewrite lookup_insert_eq. intros [= <-]. done.
    + rewrite lookup_insert_ne by done. apply Hb.
  - simpl. intros r Hrr. destruct (Hw r Hrr) as (d & Hd & He & Hp). destruct (decide (f = file_of r)) as [->|?].
    + rewrite lookup_insert_eq. eexists. split; [done|]. simpl. rewrite Hf in Hd. simplify_eq.
      destruct Hr as [->|Hr]; [done|]. by destruct (Hr r Hrr).
    + rewrite lookup_insert_ne by done. eauto.
Qed.

(** What delivering events leaves alone. *)
Record same_files (w w' : world W) : Prop := {
  sf_files : fileobjects (vhci w') = fileobjects (vhci w);
  sf_count : events_subscribers (vhci w') = events_subscribers (vhci w);
  sf_flags : forall f, process_events <$> fobj_ctx w' !! f = process_events <$> fobj_ctx w !! f }.

Record same_hub (w w' : world W) : Prop := {
  sh_vhci : exists fs rs n, vhci w' = with_events (vhci w) fs rs n;
  sh_devs : dev_ctx w' = dev_ctx w;
  sh_refs : refs w' = refs w;
  sh_attach : attach w' = attach w }.

Lemma same_hub_refl w : same_hub w w.
Proof. constructor; auto. exists (fileobjects (vhci w)), (reads (vhci w)), (events_subscribers (vhci w)). by destruct (vhci w). Qed.

Lemma same_hub_trans w1 w2 w3 : same_hub w1 w2 -> same_hub w2 w3 -> same_hub w1 w3.
Proof.
  intros [(a & b & c & Ha) Hb Hc Hq] [(d & e & f & Hd) He Hf Hr]. constructor; [|congruence..].
  exists d, e, f. by rewrite Hd, Ha.
Qed.

Lemma same_hub_cnt w w' : same_hub w w' -> devices_cnt (vhci w') = devices_cnt (vhci w).
Proof. intros [(a & b & c & ->)]. done. Qed.

Lemma same_files_trans w1 w2 w3 : same_files w1 w2 -> same_files w2 w3 -> same_files w1 w3.
Proof. intros [] []. constructor; [congruence..|]. intros f. by rewrite sf_flags1. Qed.

Lemma same_hub_set (w : world W) fs rs n x : same_hub w (set_wdf (set_vhci w (with_events (vhci w) fs rs n)) x).
Proof. constructor; auto. simpl. eauto. Qed.

Lemma same_hub_eq w w' : vhci w' = vhci w -> dev_ctx w' = dev_ctx w -> refs w' = refs w -> attach w' = attach w ->
  same_hub w w'.
Proof. intros Hv ???. constructor; auto. rewrite Hv. apply same_hub_refl. Qed.

Lemma process_event_fobj_ok w f c evt :
  events_ok w -> fobj_ctx w !! f = Some c ->
  exists w', process_event_fobj w f c evt (4 * devices_cnt (vhci w)) = Some w' /\
             events_ok w' /\ same_files w w' /\ same_hub w w'.
Proof.
  intros Hw Hf. unfold process_event_fobj.
  destruct (retrieve_by_fileobj (wdf w) (reads (vhci w)) f) as [[st o] x] eqn:E.
  destruct (decide (st = STATUS_SUCCESS)) as [->|Hns].
  { destruct (retrieve_found _ _ _ _ _ E) as (r & -> & Hr & _). simpl. eexists. split; [done|].
    destruct (complete_read_shape (set_reads (set_wdf w x) (filter (.≠ r) (reads (vhci w)))) r evt)
      as (x' & st & info & o & -> & _). split; [|split].
    - apply events_ok_wdf with (x := x') in Hw. apply (events_ok_take _ r st info o Hw Hr).
    - constructor; auto.
    - constructor; auto. simpl. eauto. }
  destruct (decide (st = STATUS_NO_MORE_ENTRIES)) as [->|Hnm].
  { pose proof (retrieve_none _ _ _ _ _ E) as Hnone. simpl.
    destruct (collection_add x) as [err y]. destruct (decide (err = STATUS_SUCCESS)) as [->|He].
    - eexists. split; [done|]. pose proof (eo_bound w Hw) as [Hcnt Hb]. specialize (Hb f c Hf).
      split; [|split].
      + apply (events_ok_set_events (set_wdf (set_wdf w x) y)); auto using events_ok_wdf. simpl.
        destruct (Z.ltb_spec (4 * devices_cnt (vhci w)) (Z.of_nat (length (events c ++ [evt])))) as [Hlt|Hge]; [|done].
        rewrite length_app in Hlt. simpl in Hlt.
        destruct (events c); simpl in *; rewrite ?length_app; simpl; lia.
      + constructor; auto. simpl. intros g. destruct (decide (f = g)) as [<-|]; [by rewrite lookup_insert_eq, Hf|].
        by rewrite lookup_insert_ne.
      + by apply same_hub_eq.
    - exists (set_wdf (set_wdf w x) y). split; [destruct err; done|].
      split; [by do 2 apply events_ok_wdf|]. split; [by constructor | by apply same_hub_eq]. }
  exists (set_wdf w x). split; [destruct st; done|]. split; [by apply events_ok_wdf|].
  split; [by constructor | by apply same_hub_eq].
Qed.

Lemma process_event_loop_ok fs w evt cnt :
  events_ok w -> (forall f, f ∈ fs -> is_Some (fobj_ctx w !! f)) ->
  exists w', process_event_loop fs w evt cnt =
               Some (cnt + Z.of_nat (length (filter (fun f => subscribed w f = true) fs)), w') /\
             events_ok w' /\ same_files w w' /\ same_hub w w'.
Proof.
  revert w cnt. induction fs as [|f fs IH]; intros w cnt Hw Hfs; simpl process_event_loop.
  - exists w. simpl. rewrite Z.add_0_r. split_and!; auto; [constructor; auto|apply same_hub_refl].
  - destruct (Hfs f) as [c Hc]; [apply elem_of_cons; auto|]. rewrite Hc. simpl.
    assert (forall w', same_files w w' -> forall g, subscribed w' g = subscribed w g) as Hsub.
    { intros w' [_ _ Hfl] g. specialize (Hfl g). unfold subscribed.
      destruct (fobj_ctx w' !! g), (fobj_ctx w !! g); simpl in Hfl; congruence. }
    destruct (process_events c) eqn:Ep.
    + destruct (process_event_fobj_ok w f c evt Hw Hc) as (w1 & -> & Hw1 & Hs1 & Hh1). simpl.
      destruct (IH w1 (cnt + 1) Hw1) as (w' & -> & Hw' & Hs' & Hh').
      { intros g Hg. destruct (Hfs g) as [d Hd]; [apply elem_of_cons; auto|].
        pose proof (sf_flags _ _ Hs1 g) as Hfl. rewrite Hd in Hfl. destruct (fobj_ctx w1 !! g); [eauto|done]. }
      exists w'. split; [|split_and!; eauto using same_files_trans, same_hub_trans].
      rewrite filter_cons_True by (unfold subscribed; by rewrite Hc).
      rewrite (list_filter_iff _ (fun f => subscribed w f = true)) by (intros g; by rewrite Hsub).
      simpl. f_equal. f_equal. lia.
    + rewrite filter_cons_False by (unfold subscribed; rewrite Hc; congruence).
      destruct (IH w cnt Hw) as (w' & -> & ?); [|eauto]. intros g Hg. apply Hfs, elem_of_cons. auto.
Qed.

(** The number of file objects that took part is events_subscribers, as is asserted. *)
Lemma process_event_ok w evt :
  events_ok w -> exists w', process_event w evt = Some (events_subscribers (vhci w), w') /\
                            events_ok w' /\ same_files w w' /\ same_hub w w'.
Proof.
  intros Hw. unfold process_event.
  destruct (process_event_loop_ok (fileobjects (vhci w)) w evt 0 Hw) as (w' & -> & ?); [apply eo_files; done|].
  exists w'. rewrite (eo_count w Hw). done.
Qed.

(** *** The operations keep the invariant *)

Lemma device_state_changed_ok w a p st src :
  events_ok w -> exists w', device_state_changed unicode_to_utf8 w a p st src = Some w' /\
                            events_ok w' /\ same_files w w' /\ same_hub w w'.
Proof.
  intros Hw. unfold device_state_changed. simpl.
  destruct (Z.eqb_spec (events_subscribers (vhci w)) 0) as [Hz|Hz].
  { eexists. split; [done|]. split; [by apply events_ok_action|]. split; [by constructor | by apply same_hub_eq]. }
  destruct (make_device_state unicode_to_utf8 (wdf w) a p st src) as [[evt|] x].
  - destruct (process_event_ok (set_wdf (add_action w (StateChanged a p st)) x) evt) as (w' & -> & Hw' & Hs & Hh).
    { by apply events_ok_wdf, events_ok_action. }
    exists w'. split; [done|]. split; [done|]. split; [by constructor; apply Hs|].
    eapply same_hub_trans, Hh. by apply same_hub_eq.
  - eexists. split; [done|]. split; [by apply events_ok_wdf, events_ok_action|].
    split; [by constructor | by apply same_hub_eq].
Qed.

(** A file object that is listed from now on, or not listed any more. *)
Lemma file_create_ok w f r :
  events_ok w -> fobj_ctx w !! f = None -> fresh w r -> events_ok (device_file_create w f r).
Proof.
  intros Hw Hf Hr. unfold device_file_create. destruct (collection_create (wdf w)) as [st x].
  apply events_ok_complete; [|by destruct (NT_ERROR st)].
  assert (f ∉ fileobjects (vhci w)) as Hnf.
  { intros Hin. destruct (eo_files w Hw) as [_ Hs]. destruct (Hs f Hin). congruence. }
  assert (forall g, g ∈ fileobjects (vhci w) ->
            subscribed (set_fobj (set_wdf w x) f {| events := []; process_events := false |}) g = subscribed w g) as Hsub.
  { intros g Hg. unfold subscribed. simpl. rewrite lookup_insert_ne; [done|]. by intros ->. }
  destruct Hw as [[Hn Hs] Hc [Hcnt Hb] Hw Ho].
  assert (events_ok (set_fobj (set_wdf w x) f {| events := []; process_events := false |})) as Hw1.
  { constructor; simpl; auto.
    - split; [done|]. intros g Hg. destruct (decide (f = g)) as [<-|]; [rewrite lookup_insert_eq; eauto|].
      rewrite lookup_insert_ne by done. auto.
    - rewrite Hc. do 2 f_equal. apply list_filter_iff_elem. intros g Hg. by rewrite Hsub.
    - split; [done|]. intros g c. destruct (decide (f = g)) as [<-|].
      + rewrite lookup_insert_eq. intros [= <-]. simpl. lia.
      + rewrite lookup_insert_ne by done. apply Hb.
    - intros q Hq. destruct (Hw q Hq) as (c & Hqc & ?). exists c. rewrite lookup_insert_ne; [done|]. intros ->. congruence. }
  destruct (NT_ERROR st); [done|]. destruct Hw1 as [[_ Hs1] Hc1 Hb1 Hw1 Ho1]. constructor; auto.
  - simpl. split.
    + apply list.NoDup_app. split; [done|]. split; [|apply NoDup_singleton]. intros g Hg ->%list_elem_of_singleton. done.
    + intros g [Hg| ->%list_elem_of_singleton]%elem_of_app; [by apply Hs1|]. rewrite lookup_insert_eq. eauto.
  - simpl in Hc1 |- *. rewrite list.filter_app, length_app. change (subscribed (set_vhci ?w' _)) with (subscribed w').
    rewrite filter_cons_False; [simpl; lia|]. unfold subscribed. simpl. by rewrite lookup_insert_eq.
Qed.

Lemma file_cleanup_ok w f :
  events_ok w -> f ∈ fileobjects (vhci w) -> exists w', file_cleanup w f = Some w' /\ events_ok w'.
Proof.
  intros Hw Hf. destruct (eo_files w Hw) as [Hn Hs]. destruct (Hs f Hf) as [c Hc].
  unfold file_cleanup. rewrite Hc. simpl. eexists. split; [done|]. destruct Hw as [_ Hcount Hb Hw Ho].
  constructor; auto.
  - simpl. split; [by apply list.NoDup_filter|]. intros g [_ Hg]%list_elem_of_filter. auto.
  - simpl. change (subscribed (set_vhci ?w' _)) with (subscribed w').
    rewrite (count_split _ f _ Hn Hf) in Hcount.
    assert (subscribed w f = process_events c) as Hsub by (unfold subscribed; by rewrite Hc).
    destruct (process_events c); case_decide; try congruence; lia.
Qed.

(** A file object whose first read arrives. *)
Lemma events_ok_subscribe w f c :
  events_ok w -> f ∈ fileobjects (vhci w) -> fobj_ctx w !! f = Some c -> process_events c = false ->
  events_ok (set_fobj (set_vhci w (with_events (vhci w) (fileobjects (vhci w)) (reads (vhci w))
                                     (events_subscribers (vhci w) + 1)))
               f {| events := events c; process_events := true |}).
Proof.
  intros Hw Hf Hc Hp. destruct Hw as [[Hn Hs] Hcount [Hcnt Hb] Hw Ho]. constructor; auto; simpl.
  - split; [done|]. intros g Hg. destruct (decide (f = g)) as [<-|]; [rewrite lookup_insert_eq; eauto|].
    rewrite lookup_insert_ne by done. auto.
  - rewrite Hcount, (count_split _ f _ Hn Hf), (count_split (fun g => subscribed _ g = true) f _ Hn Hf).
    rewrite decide_False by (unfold subscribed; rewrite Hc; congruence).
    rewrite decide_True by (unfold subscribed; simpl; by rewrite lookup_insert_eq).
    assert (forall m n : nat, m = n -> Z.of_nat (0 + m) + 1 = Z.of_nat (1 + n)) as Hmn by lia.
    apply Hmn, f_equal, list_filter_iff_elem.
    intros g [Hg _]%list_elem_of_filter. unfold subscribed. simpl. by rewrite lookup_insert_ne.
  - split; [done|]. intros g d. destruct (decide (f = g)) as [<-|].
    + rewrite lookup_insert_eq. intros [= <-]. simpl. by apply (Hb f c).
    + rewrite lookup_insert_ne by done. apply Hb.
  - intros r Hr. destruct (Hw r Hr) as (d & Hd & He & Hdp). destruct (decide (f = file_of r)) as [->|].
    + congruence.
    + exists d. by rewrite lookup_insert_ne.
Qed.

Lemma set_fobj_set_fobj (w : world W) f c c' : set_fobj (set_fobj w f c) f c' = set_fobj w f c'.
Proof. unfold set_fobj. simpl. by rewrite insert_insert_eq. Qed.

Lemma device_read_ok w r len :
  events_ok w -> file_of r ∈ fileobjects (vhci w) -> fresh w r ->
  exists w', device_read w r len = Some w' /\ events_ok w'.
Proof.
  intros Hw Hf Hr. unfold device_read. destruct (negb (len =? sizeof_device_state)).
  { eexists. split; [done|]. by apply events_ok_complete. }
  destruct (proj2 (eo_files w Hw) _ Hf) as [c Hc]. rewrite Hc. simpl.
  set (w1 := if process_events c then w else _).
  assert (events_ok w1 /\ fobj_ctx w1 !! file_of r = Some {| events := events c; process_events := true |} /\
          fresh w1 r /\ reads (vhci w1) = reads (vhci w)) as (Hw1 & Hc1 & Hr1 & Hrd).
  { unfold w1. destruct (process_events c) eqn:Ep.
    - split_and!; auto. destruct c; simpl in Ep. by rewrite Ep in Hc.
    - split; [by apply events_ok_subscribe|]. split_and!; auto. simpl. by rewrite lookup_insert_eq. }
  clearbody w1. destruct (events c) as [|evt evts].
  - destruct (forward_to_reads (wdf w1) r) as [err x]. destruct (decide (err = STATUS_SUCCESS)) as [->|He].
    + eexists. split; [done|]. destruct Hw1 as [Hfl Hcount Hb Hwait Ho]. constructor; auto; simpl.
      * intros q [Hq| ->%list_elem_of_singleton]%elem_of_app; [by apply Hwait|]. eexists. split; [done|]. done.
      * change (completed_requests (set_reads _ _)) with (completed_requests w1).
        rewrite <- app_assoc. simpl. rewrite <- Permutation_middle. by apply list.NoDup_cons.
    + exists (complete_request (set_wdf w1 x) r (if bool_decide (err = STATUS_WDF_BUSY) then STATUS_END_OF_FILE else err) 0 None).
      split; [destruct err; done|]. by apply events_ok_complete; [apply events_ok_wdf|].
  - eexists. split; [done|]. destruct (complete_read_shape w1 r evt) as (x & st & info & o & -> & _).
    apply (events_ok_set_events (complete_request (set_wdf w1 x) r st info o) _ {| events := evt :: evts; process_events := true |}); auto.
    + by apply events_ok_complete; [apply events_ok_wdf|].
    + pose proof (proj2 (eo_bound w1 Hw1) _ _ Hc1) as Hb. simpl in Hb |- *. lia.
    + right. simpl. intros q Hq Heq. destruct (eo_waiting w1 Hw1 q Hq) as (d & Hd & He & _). rewrite Heq, Hc1 in Hd.
      by simplify_eq.
Qed.

Lemma purge_ok rs w :
  events_ok w -> rs ⊆ reads (vhci w) -> NoDup rs -> events_ok (fold_left canceled_on_queue rs w).
Proof.
  revert w. induction rs as [|r rs IH]; intros w Hw Hrs Hn; [done|]. apply list.NoDup_cons in Hn as [Hr Hn]. simpl.
  apply IH; auto.
  - unfold canceled_on_queue. apply events_ok_take; [done|]. apply Hrs, elem_of_cons. auto.
  - intros q Hq. simpl. apply list_elem_of_filter. split; [intros ->; done|]. apply Hrs, elem_of_cons. auto.
Qed.

Lemma exec_ok w op :
  events_ok w -> enabled w op -> exists w', exec unicode_to_utf8 w op = Some w' /\ events_ok w'.
Proof.
  intros Hw. destruct op as [f r|f|r len|r| |a p st src]; simpl; intros He.
  - eexists. split; [done|]. apply file_create_ok; tauto.
  - by apply file_cleanup_ok.
  - apply device_read_ok; tauto.
  - eexists. split; [done|]. by apply events_ok_take.
  - eexists. split; [done|]. apply purge_ok; auto. by pose proof (eo_once w Hw) as [? _]%list.NoDup_app.
  - destruct (device_state_changed_ok w a p st src Hw) as (w' & ? & ? & _). eauto.
Qed.

Lemma exec_same_hub w op w' : events_ok w -> exec unicode_to_utf8 w op = Some w' -> same_hub w w'.
Proof.
  intros Hw. destruct op as [f r|f|r len|r| |a p st src]; simpl.
  - intros [= <-]. unfold device_file_create. destruct (collection_create (wdf w)) as [st x].
    destruct (NT_ERROR st); constructor; simpl; eauto. exists (fileobjects (vhci w)), (reads (vhci w)), (events_subscribers (vhci w)).
    by destruct (vhci w).
  - unfold file_cleanup. destruct (fobj_ctx w !! f); [|done]. simpl. intros [= <-]. constructor; simpl; eauto.
  - unfold device_read. destruct (negb (len =? sizeof_device_state)); [intros [= <-]; by apply same_hub_eq|].
    destruct (fobj_ctx w !! file_of r) as [c|]; [|done]. simpl. set (w1 := if process_events c then w else _).
    assert (same_hub w w1) as H1 by (unfold w1; destruct (process_events c); [apply same_hub_refl|constructor; simpl; eauto]).
    clearbody w1. destruct (events c) as [|evt evts].
    + destruct (forward_to_reads (wdf w1) r) as [err x]. intros Hx. eapply same_hub_trans; [exact H1|].
      destruct err; simpl in Hx; injection Hx as <-; try (by apply same_hub_eq). constructor; simpl; eauto.
    + intros [= <-]. eapply same_hub_trans; [exact H1|].
      destruct (complete_read_shape w1 r evt) as (x & st & info & o & -> & _). by apply same_hub_eq.
  - intros [= <-]. constructor; simpl; eauto.
  - intros [= <-]. unfold purge_read_queue. generalize (reads (vhci w)) as rs. intros rs. clear Hw. revert w.
    induction rs as [|r rs IH]; intros w; simpl; [apply same_hub_refl|]. eapply same_hub_trans; [|apply IH].
    constructor; simpl; eauto.
  - intros Hx. destruct (device_state_changed_ok w a p st src Hw) as (w1 & Hw1 & _ & _ & Hh). congruence.
Qed.

(** ** What a file object sees *)

(** The states its reads returned so far, in order, and those that wait for a read. *)
Definition delivered (w : world W) (f : fileobj) : list device_state :=
  omap (fun x => if decide (file_of (fst (fst (fst x))) = f) then snd x else None) (completed w).

Definition pending (w : world W) (f : fileobj) : list device_state :=
  match fobj_ctx w !! f with Some c => events c | None => [] end.

Definition stream (w : world W) (f : fileobj) : list device_state := delivered w f ++ pending w f.

(** The event an operation makes, when it makes one. *)
Definition emitted (w : world W) (op : event_op) : list device_state :=
  match op with
  | Changed a p st src =>
      if events_subscribers (vhci w) =? 0 then []
      else option_list (fst (make_device_state unicode_to_utf8 (wdf w) a p st src))
  | _ => []
  end.

Fixpoint emitted_all (w : world W) (ops : list event_op) : list device_state :=
  match ops with
  | [] => []
  | op :: ops => emitted w op ++ match exec unicode_to_utf8 w op with Some w => emitted_all w ops | None => [] end
  end.

(** The framework has memory and the buffers of the reads can be reached. *)
Definition reliable : Prop :=
  (forall x, fst (collection_add x) = STATUS_SUCCESS) /\
  (forall x r, fst (retrieve_output x r) = STATUS_SUCCESS) /\
  (forall x rs f, fst (fst (retrieve_by_fileobj x rs f)) ∈ [STATUS_SUCCESS; STATUS_NO_MORE_ENTRIES]).

Record advanced (w w' : world W) (f : fileobj) (new : list device_state) : Prop := {
  adv_sublist : stream w' f `sublist_of` stream w f ++ new;
  adv_suffix : reliable -> pending w' f `suffix_of` pending w f ++ new;
  adv_exact : reliable -> Z.of_nat (length (pending w f) + length new) <= 4 * devices_cnt (vhci w) ->
              stream w' f = stream w f ++ new }.

Lemma advanced_same w w' f : delivered w' f = delivered w f -> pending w' f = pending w f -> advanced w w' f [].
Proof. intros Hd Hp. constructor; unfold stream; rewrite ?app_nil_r, ?Hd, ?Hp; auto. Qed.

Lemma advanced_trans w1 w2 w3 f a b :
  devices_cnt (vhci w2) = devices_cnt (vhci w1) -> advanced w1 w2 f a -> advanced w2 w3 f b -> advanced w1 w3 f (a ++ b).
Proof.
  intros Hcnt [Hs1 Hx1 He1] [Hs2 Hx2 He2]. constructor.
  - etrans; [done|]. rewrite app_assoc. by apply sublist_app.
  - intros Hr. etrans; [by apply Hx2|]. rewrite app_assoc. by apply suffix_app, Hx1.
  - intros Hr Hb. rewrite length_app in Hb. specialize (Hx1 Hr). apply suffix_length in Hx1. rewrite length_app in Hx1.
    rewrite He2, He1, app_assoc by (auto; lia). done.
Qed.

Lemma delivered_complete w r st info o f :
  delivered (complete_request w r st info o) f =
  delivered w f ++ (if decide (file_of r = f) then option_list o else []).
Proof.
  unfold delivered. simpl. rewrite omap_app. f_equal. simpl. case_decide; destruct o; done.
Qed.

Lemma complete_read_delivered w r evt f :
  fobj_ctx (complete_read w r evt) = fobj_ctx w /\ vhci (complete_read w r evt) = vhci w /\
  exists o, delivered (complete_read w r evt) f = delivered w f ++ (if decide (file_of r = f) then option_list o else []) /\
            (o = None \/ o = Some evt) /\ (reliable -> o = Some evt).
Proof.
  unfold complete_read. pose proof (fun Hr : reliable => proj1 (proj2 Hr) (wdf w) r) as Hrel.
  destruct (retrieve_output (wdf w) r) as [st x]. simpl in Hrel.
  destruct (NT_SUCCESS st) eqn:Es; split_and!; try done.
  - exists (Some evt). rewrite delivered_complete. auto.
  - exists None. rewrite delivered_complete. split_and!; auto. intros Hr. rewrite (Hrel Hr) in Es. done.
Qed.

Lemma sublist_skip (l : list device_state) x : l `sublist_of` l ++ [x].
Proof. rewrite <- (app_nil_r l) at 1. apply sublist_app; [done|]. apply sublist_nil_l. Qed.

(** One event for the file object itself. *)
Lemma process_event_fobj_advanced w f c evt w' :
  events_ok w -> fobj_ctx w !! f = Some c ->
  process_event_fobj w f c evt (4 * devices_cnt (vhci w)) = Some w' -> advanced w w' f [evt].
Proof.
  intros Hw Hf. unfold process_event_fobj. pose proof (fun Hr : reliable => proj2 (proj2 Hr) (wdf w) (reads (vhci w)) f) as Hrel.
  destruct (retrieve_by_fileobj (wdf w) (reads (vhci w)) f) as [[st o] x] eqn:E. simpl in Hrel.
  assert (pending w f = events c) as Hp by (unfold pending; by rewrite Hf).
  destruct (decide (st = STATUS_SUCCESS)) as [->|Hns].
  { destruct (retrieve_found _ _ _ _ _ E) as (r & -> & Hr & Hrf). simpl. intros [= <-].
    destruct (eo_waiting w Hw r Hr) as (c' & Hc' & He & _). rewrite Hrf, Hf in Hc'. simplify_eq. rewrite He in Hp.
    destruct (complete_read_delivered (set_reads (set_wdf w x) (filter (.≠ r) (reads (vhci w)))) r evt (file_of r))
      as (Hfo & _ & o & Hd & Ho & Hor).
    assert (pending (complete_read (set_reads (set_wdf w x) (filter (.≠ r) (reads (vhci w)))) r evt) (file_of r) = []) as Hp'
      by (unfold pending; rewrite Hfo; simpl; by rewrite Hf).
    rewrite decide_True in Hd by done. constructor; unfold stream; rewrite ?Hp, ?Hp', ?Hd, ?app_nil_r.
    - destruct Ho as [->| ->]; simpl; [rewrite app_nil_r; apply sublist_skip | done].
    - intros _. apply suffix_nil.
    - intros Hr' _. by rewrite (Hor Hr'). }
  destruct (decide (st = STATUS_NO_MORE_ENTRIES)) as [->|Hnm].
  { simpl. pose proof (fun Hr : reliable => proj1 Hr x) as Hadd. destruct (collection_add x) as [err y]. simpl in Hadd.
    destruct (decide (err = STATUS_SUCCESS)) as [->|He].
    - intros [= <-]. set (l := if _ <? _ then _ else _).
      assert (forall x' y' l', delivered (set_fobj (set_wdf (set_wdf w x') y') f (set_events c l')) f = delivered w f) as Hd by done.
      assert (pending (set_fobj (set_wdf (set_wdf w x) y) f (set_events c l)) f = l) as Hp'
        by (unfold pending; simpl; by rewrite lookup_insert_eq).
      constructor; unfold stream; rewrite ?Hd, ?Hp, ?Hp'.
      + rewrite <- app_assoc. apply sublist_app; [done|]. unfold l. case_match; [|done]. destruct (events c ++ [evt]); [done|]. by apply sublist_cons.
      + intros _. unfold l. case_match; [|done]. destruct (events c ++ [evt]); [done|]. simpl. by apply suffix_cons_r.
      + intros _ Hb. unfold l. destruct (Z.ltb_spec (4 * devices_cnt (vhci w)) (Z.of_nat (length (events c ++ [evt]))));
          [|by rewrite app_assoc]. rewrite length_app in *. lia.
    - intros Hw'. assert (w' = set_wdf (set_wdf w x) y) as -> by (destruct err; simpl in Hw'; congruence).
      constructor; unfold stream; try (intros Hr; by specialize (Hadd Hr)). apply sublist_skip. }
  intros Hw'. assert (w' = set_wdf w x) as -> by (destruct st; simpl in Hw'; congruence).
  assert (~ reliable) as Hnr by (intros Hr; specialize (Hrel Hr); set_solver).
  constructor; unfold stream; try done. apply sublist_skip.
Qed.

(** An event for another one. *)
Lemma process_event_fobj_other w f g c evt w' :
  f <> g -> process_event_fobj w g c evt (4 * devices_cnt (vhci w)) = Some w' ->
  delivered w' f = delivered w f /\ pending w' f = pending w f.
Proof.
  intros Hne. unfold process_event_fobj. destruct (retrieve_by_fileobj (wdf w) (reads (vhci w)) g) as [[st o] x] eqn:E.
  destruct (decide (st = STATUS_SUCCESS)) as [->|Hns].
  { destruct (retrieve_found _ _ _ _ _ E) as (r & -> & _ & Hr). simpl. intros [= <-].
    destruct (complete_read_delivered (set_reads (set_wdf w x) (filter (.≠ r) (reads (vhci w)))) r evt f) as (Hf & _ & o & Hd & _).
    rewrite decide_False in Hd by congruence. rewrite app_nil_r in Hd. split; [done|]. unfold pending. by rewrite Hf. }
  destruct (decide (st = STATUS_NO_MORE_ENTRIES)) as [->|Hnm].
  { simpl. destruct (collection_add x) as [err y]. intros Hw'.
    assert (delivered w' f = delivered w f /\ fobj_ctx w' !! f = fobj_ctx w !! f) as [? Hp]; [|unfold pending; by rewrite Hp].
    destruct err; simplify_eq/=; split; try done. by rewrite lookup_insert_ne. }
  intros Hw'. assert (w' = set_wdf w x) as -> by (destruct st; simpl in Hw'; congruence). done.
Qed.

Lemma process_event_loop_stream fs w evt cnt n w' f :
  events_ok w -> (forall g, g ∈ fs -> is_Some (fobj_ctx w !! g)) -> NoDup fs ->
  process_event_loop fs w evt cnt = Some (n, w') ->
  if decide (f ∈ fs /\ subscribed w f = true) then advanced w w' f [evt]
  else delivered w' f = delivered w f /\ pending w' f = pending w f.
Proof.
  revert w cnt. induction fs as [|g fs IH]; intros w cnt Hw Hfs Hn; simpl process_event_loop.
  { intros [= <- <-]. rewrite decide_False; [done|]. intros [?%elem_of_nil _]. done. }
  apply list.NoDup_cons in Hn as [Hg Hn]. destruct (Hfs g) as [c Hc]; [apply elem_of_cons; auto|]. rewrite Hc. simpl.
  assert (subscribed w g = process_events c) as Hsg by (unfold subscribed; by rewrite Hc).
  destruct (process_events c) eqn:Ep.
  - destruct (process_event_fobj_ok w g c evt Hw Hc) as (w1 & Hw1e & Hw1 & Hs1 & Hh1). rewrite Hw1e. simpl. intros Hl.
    assert (forall h, h ∈ fs -> is_Some (fobj_ctx w1 !! h)) as Hfs1.
    { intros h Hh. destruct (Hfs h) as [d Hd]; [apply elem_of_cons; auto|].
      pose proof (sf_flags _ _ Hs1 h) as Hfl. rewrite Hd in Hfl. destruct (fobj_ctx w1 !! h); [eauto|done]. }
    specialize (IH w1 _ Hw1 Hfs1 Hn Hl).
    assert (subscribed w1 f = subscribed w f) as Hsf.
    { pose proof (sf_flags _ _ Hs1 f) as Hfl. unfold subscribed. destruct (fobj_ctx w1 !! f), (fobj_ctx w !! f); simpl in Hfl; congruence. }
    rewrite Hsf in IH. destruct (decide (f = g)) as [->|Hne].
    + rewrite decide_False in IH by tauto. rewrite decide_True by (split; [apply elem_of_cons; auto|done]).
      destruct IH as [Hd Hp]. rewrite <- (app_nil_r [evt]).
      eapply advanced_trans; [apply (same_hub_cnt _ _ Hh1)| |by apply advanced_same].
      by eapply process_event_fobj_advanced.
    + destruct (process_event_fobj_other w f g c evt w1 Hne Hw1e) as [Hd Hp].
      destruct (decide (f ∈ fs /\ subscribed w f = true)) as [[? ?]|Hno].
      * rewrite decide_True by (split; [apply elem_of_cons; auto|done]). change [evt] with ([] ++ [evt]).
        eapply advanced_trans; [apply (same_hub_cnt _ _ Hh1)| by apply advanced_same | done].
      * rewrite decide_False; [intuition congruence|]. intros [[?|?]%elem_of_cons ?]; tauto.
  - intros Hl. specialize (IH w cnt Hw (fun h Hh => Hfs h ltac:(apply elem_of_cons; auto)) Hn Hl).
    destruct (decide (f ∈ fs /\ subscribed w f = true)) as [[? ?]|Hno].
    + rewrite decide_True by (split; [apply elem_of_cons; auto|done]). done.
    + rewrite decide_False; [done|]. intros [[->|?]%elem_of_cons ?]; [congruence|tauto].
Qed.

Lemma device_state_changed_advanced w a p st src w' f :
  events_ok w -> f ∈ fileobjects (vhci w) -> subscribed w f = true ->
  device_state_changed unicode_to_utf8 w a p st src = Some w' ->
  advanced w w' f (emitted w (Changed a p st src)).
Proof.
  intros Hw Hf Hs. unfold device_state_changed, emitted. simpl.
  destruct (events_subscribers (vhci w) =? 0); [intros [= <-]; by apply advanced_same|].
  destruct (make_device_state unicode_to_utf8 (wdf w) a p st src) as [[evt|] x]; simpl.
  - set (w1 := set_wdf (add_action w (StateChanged a p st)) x).
    assert (events_ok w1) as Hw1 by (by apply events_ok_wdf, events_ok_action).
    unfold process_event. destruct (process_event_loop (fileobjects (vhci w1)) w1 evt 0) as [[n w2]|] eqn:El; [|done].
    simpl. intros [= <-]. pose proof (process_event_loop_stream _ w1 evt 0 n w2 f Hw1 (proj2 (eo_files w1 Hw1))
                         (proj1 (eo_files w1 Hw1)) El) as Hl.
    rewrite decide_True in Hl by done. destruct Hl as [? ? ?]. by constructor.
  - intros [= <-]. by apply advanced_same.
Qed.

Lemma device_read_advanced w r len w' f :
  device_read w r len = Some w' -> advanced w w' f [].
Proof.
  unfold device_read. destruct (negb (len =? sizeof_device_state)).
  { intros [= <-]. apply advanced_same; [|done]. rewrite delivered_complete. case_decide; apply app_nil_r. }
  destruct (fobj_ctx w !! file_of r) as [c|] eqn:Hc; [|done]. simpl. set (w1 := if process_events c then w else _).
  assert (delivered w1 f = delivered w f /\ pending w1 f = pending w f) as [Hd Hp].
  { unfold w1. destruct (process_events c); [done|]. split; [done|]. unfold pending. simpl.
    destruct (decide (file_of r = f)) as [<-|]; [by rewrite lookup_insert_eq, Hc | by rewrite lookup_insert_ne]. }
  clearbody w1. destruct (events c) as [|evt evts] eqn:Ee.
  - destruct (forward_to_reads (wdf w1) r) as [err x]. intros Hw'.
    apply advanced_same; destruct err; simpl in Hw'; injection Hw' as <-; try done;
      rewrite delivered_complete; simpl; (case_decide; simpl; rewrite ?app_nil_r; done).
  - destruct (complete_read_delivered w1 r evt f) as (Hfo & _ & o & Hdr & Ho & Hor). intros [= <-].
    assert (forall c', delivered (set_fobj (complete_read w1 r evt) (file_of r) c') f = delivered (complete_read w1 r evt) f)
      as Hdd by done.
    destruct (decide (file_of r = f)) as [<-|Hne].
    + assert (pending w (file_of r) = evt :: evts) as Hpw by (unfold pending; by rewrite Hc).
      assert (forall w0 c', pending (set_fobj w0 (file_of r) c') (file_of r) = events c') as Hpp
        by (intros; unfold pending; simpl; by rewrite lookup_insert_eq).
      constructor; unfold stream; rewrite ?Hdd, ?Hdr, ?Hd, ?Hpw, ?Hpp, ?app_nil_r; simpl events.
      * rewrite <- app_assoc. apply sublist_app; [done|]. destruct Ho as [->| ->]; simpl; [by apply sublist_cons|done].
      * intros _. by apply suffix_cons_r.
      * intros Hr _. rewrite (Hor Hr), <- app_assoc. done.
    + apply advanced_same; [by rewrite Hdd, Hdr, app_nil_r|]. rewrite <- Hp. unfold pending. simpl.
      by rewrite lookup_insert_ne, Hfo.
Qed.

Definition listens (w : world W) (f : fileobj) : Prop := f ∈ fileobjects (vhci w) /\ subscribed w f = true.

Definition no_cleanup (f : fileobj) (op : event_op) : Prop := op <> FileCleanup f.

Lemma canceled_keeps rs (w : world W) f :
  delivered (fold_left canceled_on_queue rs w) f = delivered w f /\
  fobj_ctx (fold_left canceled_on_queue rs w) = fobj_ctx w /\
  fileobjects (vhci (fold_left canceled_on_queue rs w)) = fileobjects (vhci w) /\
  devices_cnt (vhci (fold_left canceled_on_queue rs w)) = devices_cnt (vhci w).
Proof.
  revert w. induction rs as [|r rs IH]; intros w; [done|]. simpl. destruct (IH (canceled_on_queue w r)) as (-> & -> & -> & ->).
  split_and!; try done. unfold canceled_on_queue. rewrite delivered_complete. case_decide; apply app_nil_r.
Qed.

Lemma exec_advanced w op w' f :
  events_ok w -> enabled w op -> listens w f -> no_cleanup f op -> exec unicode_to_utf8 w op = Some w' ->
  advanced w w' f (emitted w op) /\ listens w' f /\ devices_cnt (vhci w') = devices_cnt (vhci w).
Proof.
  intros Hw He [Hf Hs] Hnc. unfold listens.
  destruct op as [g r|g|r len|r| |a p st src]; simpl exec; simpl enabled in He; simpl emitted.
  - intros [= <-]. destruct He as [Hg Hr]. assert (f <> g) by (intros ->; unfold subscribed in Hs; rewrite Hg in Hs; done).
    unfold device_file_create. destruct (collection_create (wdf w)) as [st x].
    split; [|split; [split|]].
    + apply advanced_same; [rewrite delivered_complete; destruct (NT_ERROR st); case_decide; apply app_nil_r|].
      unfold pending. destruct (NT_ERROR st); simpl; by rewrite lookup_insert_ne.
    + destruct (NT_ERROR st); simpl; [done|]. apply elem_of_app. auto.
    + unfold subscribed in *. destruct (NT_ERROR st); simpl; by rewrite lookup_insert_ne.
    + by destruct (NT_ERROR st).
  - unfold file_cleanup. destruct (fobj_ctx w !! g) as [c|]; [|done]. simpl. intros [= <-].
    split; [by apply advanced_same|]. split; [|done]. split; [|done]. simpl. apply list_elem_of_filter. split; [|done].
    intros ->. by apply Hnc.
  - intros Hr. split; [by eapply device_read_advanced|]. revert Hr. unfold device_read.
    destruct (negb (len =? sizeof_device_state)); [by intros [= <-]|].
    destruct (fobj_ctx w !! file_of r) as [c|] eqn:Hc; [|done]. simpl. set (w1 := if process_events c then w else _).
    assert (f ∈ fileobjects (vhci w1) /\ subscribed w1 f = true /\ devices_cnt (vhci w1) = devices_cnt (vhci w)) as (H1 & H2 & H3).
    { unfold w1. destruct (process_events c); [done|]. split_and!; try done. unfold subscribed in *. simpl.
      destruct (decide (file_of r = f)) as [<-|]; [by rewrite lookup_insert_eq | by rewrite lookup_insert_ne]. }
    clearbody w1. destruct (events c) as [|evt evts].
    + destruct (forward_to_reads (wdf w1) r) as [err x]. intros Hw'. destruct err; simpl in Hw'; injection Hw' as <-; done.
    + destruct (complete_read_delivered w1 r evt f) as (Hfo & Hv & _). intros [= <-]. simpl. rewrite Hv.
      split; [|done]. split; [done|]. unfold subscribed in *. simpl. rewrite Hfo.
      destruct (decide (file_of r = f)) as [<-|]; [by rewrite lookup_insert_eq | by rewrite lookup_insert_ne].
  - intros [= <-]. split; [|done]. apply advanced_same; [|done]. unfold canceled_on_queue. rewrite delivered_complete.
    case_decide; apply app_nil_r.
  - intros [= <-]. destruct (canceled_keeps (reads (vhci w)) w f) as (Hd & Hfo & Hfi & Hcn). unfold purge_read_queue.
    rewrite Hfi, Hcn. unfold subscribed. rewrite Hfo. split; [|done]. apply advanced_same; [done|]. unfold pending. by rewrite Hfo.
  - intros Hex. split; [by apply device_state_changed_advanced|].
    destruct (device_state_changed_ok w a p st src Hw) as (w1 & Hw1 & _ & Hsf & Hsh). rewrite Hex in Hw1. injection Hw1 as <-.
    rewrite (sf_files _ _ Hsf), (same_hub_cnt _ _ Hsh). split; [|done]. split; [done|].
    pose proof (sf_flags _ _ Hsf f) as Hfl. unfold subscribed in *. destruct (fobj_ctx w' !! f), (fobj_ctx w !! f); simpl in Hfl; congruence.
Qed.

(** The operations of a sequence are possible one after the other. *)
Fixpoint enabled_all (w : world W) (ops : list event_op) : Prop :=
  match ops with
  | [] => True
  | op :: ops => enabled w op /\ forall w', exec unicode_to_utf8 w op = Some w' -> enabled_all w' ops
  end.

Lemma exec_all_ok w ops1 ops2 :
  events_ok w -> enabled_all w (ops1 ++ ops2) ->
  exists w', exec_all unicode_to_utf8 w ops1 = Some w' /\ events_ok w' /\ enabled_all w' ops2.
Proof.
  revert w. induction ops1 as [|op ops IH]; intros w Hw He; simpl; [eauto|].
  destruct He as [He1 He2]. destruct (exec_ok w op Hw He1) as (w1 & Hx & Hw1). rewrite Hx. simpl. by apply IH, He2.
Qed.

(** ** Theorems *)

(** Whatever applications, devices and the framework do, the controller keeps its
    subscriptions consistent: every operation ends without touching a context that does
    not exist, events_subscribers is the number of listed file objects that read,
    nobody waits for a read while states are queued for him, no more than four states
    per port are queued, and no read is completed twice or lost. *)
Theorem event_subscriptions_consistent (w : world W) (ops : list event_op) :
  events_ok w -> enabled_all w ops ->
  exists w', exec_all unicode_to_utf8 w ops = Some w' /\ events_ok w' /\
    events_subscribers (vhci w') = Z.of_nat (length (filter (fun f => subscribed w' f = true) (fileobjects (vhci w')))) /\
    (forall f r, r ∈ reads (vhci w') -> file_of r = f -> pending w' f = []) /\
    (forall f, Z.of_nat (length (pending w' f)) <= 4 * devices_cnt (vhci w')) /\
    NoDup (reads (vhci w') ++ completed_requests w').
Proof.
  intros Hw He. destruct (exec_all_ok w ops [] Hw) as (w' & Hx & Hw' & _); [by rewrite app_nil_r|].
  exists w'. split; [done|]. split; [done|]. split; [apply Hw'|]. split_and!.
  - intros f r Hr <-. destruct (eo_waiting w' Hw' r Hr) as (c & Hc & Hce & _). unfold pending. by rewrite Hc.
  - intros f. unfold pending. destruct (eo_bound w' Hw') as [? Hb].
    destruct (fobj_ctx w' !! f) eqn:E; [by apply (Hb f)|simpl; lia].
  - apply Hw'.
Qed.

(** C10: a file object that listens gets the states of the devices in the order in which
    they were announced and never one that was not: what its reads returned followed by
    what waits for a read is a part of what it had before followed by the new states.
    The states that wait are always the newest ones; and when no more than four states
    per port are announced, each of them is delivered or waiting. *)
Theorem events_delivered_in_order (w w' : world W) (ops : list event_op) (f : fileobj) :
  events_ok w -> enabled_all w ops -> listens w f -> Forall (no_cleanup f) ops ->
  exec_all unicode_to_utf8 w ops = Some w' ->
  stream w' f `sublist_of` stream w f ++ emitted_all w ops /\
  (reliable -> pending w' f `suffix_of` pending w f ++ emitted_all w ops) /\
  (reliable -> Z.of_nat (length (pending w f) + length (emitted_all w ops)) <= 4 * devices_cnt (vhci w) ->
   stream w' f = stream w f ++ emitted_all w ops).
Proof.
  intros Hw He Hl Hn Hx. cut (advanced w w' f (emitted_all w ops)); [intros []; auto|].
  revert w Hw He Hl Hn Hx. induction ops as [|op ops IH]; intros w Hw He Hl Hn Hx; simpl in *.
  - injection Hx as <-. by apply advanced_same.
  - destruct He as [He1 He2]. apply List.Forall_cons_iff in Hn as [Hn1 Hn2].
    destruct (exec_ok w op Hw He1) as (w1 & Hx1 & Hw1). rewrite Hx1 in Hx |- *. simpl in Hx.
    destruct (exec_advanced w op w1 f Hw He1 Hl Hn1 Hx1) as (Ha & Hl1 & Hc).
    eapply advanced_trans; [exact Hc|exact Ha|]. by apply IH; auto.
Qed.
End invariant.

(** ** Examples: two file objects on the hub of the port examples *)
Module Demo.

#[local] Instance framework : Wdf unit := {
  collection_create x := (STATUS_SUCCESS, x);
  collection_add x := (STATUS_SUCCESS, x);
  memory_create x := (STATUS_SUCCESS, x);
  retrieve_output x _ := (STATUS_SUCCESS, x);
  forward_to_reads x _ := (STATUS_SUCCESS, x);
  file_of r := if decide (r < 100)%positive then 1%positive else 2%positive;
  retrieve_by_fileobj x rs f :=
    match filter (fun r => (if decide (r < 100)%positive then 1%positive else 2%positive) = f) rs with
    | r :: _ => (STATUS_SUCCESS, Some r, x)
    | [] => (STATUS_NO_MORE_ENTRIES, None, x)
    end }.

#[local] Instance framework_laws : WdfLaws unit.
Proof.
  split; simpl; intros x rs f o x'.
  - destruct (filter _ rs) as [|r l] eqn:E; [done|]. intros [= <- <-]. exists r. split; [done|].
    assert (r ∈ filter (fun r => (if decide (r < 100)%positive then 1%positive else 2%positive) = f) rs) as Hr
      by (rewrite E; apply elem_of_cons; auto).
    apply list_elem_of_filter in Hr. tauto.
  - destruct (filter _ rs) as [|r l] eqn:E; [|done]. intros _ r Hr Hf.
    assert (r ∈ filter (fun r => (if decide (r < 100)%positive then 1%positive else 2%positive) = f) rs) as Hin
      by (by apply list_elem_of_filter).
    rewrite E in Hin. by apply elem_of_nil in Hin.
Qed.

Definition utf8 (maxlen : nat) (s : list Z) : ntstatus * list byte := (STATUS_SUCCESS, map z2b s).

Definition stick : device_attributes := attr (Vhci.Demo.stick USB_SPEED_HIGH).

(** Application 1 opens the controller and reads; a device connects and is plugged in;
    application 1 reads again. *)
Definition script : list event_op :=
  [FileCreate 1%positive 1%positive; Read 2%positive sizeof_device_state; FileCreate 2%positive 100%positive;
   Changed stick 0 connected 5; Changed stick 1 plugged 5; Read 3%positive sizeof_device_state].

Definition opened : world unit :=
  default Vhci.Demo.start (exec_all utf8 Vhci.Demo.start (take 2 script)).

Definition final : world unit := default Vhci.Demo.start (exec_all utf8 Vhci.Demo.start script).

Lemma start_events_ok : events_ok Vhci.Demo.start.
Proof.
  constructor; simpl; try done.
  - split; [by apply list.NoDup_nil|]. intros f Hf. by apply elem_of_nil in Hf.
  - intros r Hr. by apply elem_of_nil in Hr.
  - by apply list.NoDup_nil.
Qed.

Lemma script_enabled : enabled_all utf8 Vhci.Demo.start script.
Proof.
  unfold script. repeat (split; [|intros ? Hx; vm_compute in Hx; injection Hx as <-]); try exact I;
    try (vm_compute; reflexivity); apply (bool_decide_unpack _); vm_compute; exact I.
Qed.

Lemma opened_ok : events_ok opened /\ enabled_all utf8 opened (drop 2 script).
Proof.
  destruct (exec_all_ok utf8 Vhci.Demo.start (take 2 script) (drop 2 script) start_events_ok) as (w' & Hx & Hw' & He).
  { rewrite take_drop. apply script_enabled. }
  unfold opened. rewrite Hx. auto.
Qed.

Lemma opened_listens : listens opened 1%positive.
Proof. split; [apply (bool_decide_unpack _); vm_compute; exact I | vm_compute; reflexivity]. Qed.

Lemma opened_final : exec_all utf8 opened (drop 2 script) = Some final.
Proof. vm_compute. reflexivity. Qed.

Lemma no_cleanups : Forall (no_cleanup 1%positive) (drop 2 script).
Proof. repeat constructor; discriminate. Qed.

Lemma framework_reliable : reliable.
Proof. split_and!; try done. intros x rs f. simpl. destruct (filter _ rs); set_solver. Qed.

Lemma two_events :
  Z.of_nat (length (pending opened 1%positive) + length (emitted_all utf8 opened (drop 2 script)))
    <= 4 * devices_cnt (vhci opened) /\
  map ds_state (stream opened 1%positive ++ emitted_all utf8 opened (drop 2 script)) = [connected; plugged].
Proof. split; vm_compute; [discriminate|reflexivity]. Qed.

End Demo.

Lemma event_subscriptions_consistent_witness :
  exists w', exec_all (H := Demo.framework) Demo.utf8 Vhci.Demo.start Demo.script = Some w' /\
             events_ok (H := Demo.framework) w' /\ events_subscribers (vhci w') = 1.
Proof.
  destruct (event_subscriptions_consistent (H0 := Demo.framework_laws) Demo.utf8 Vhci.Demo.start Demo.script
              Demo.start_events_ok Demo.script_enabled) as (w' & Hx & Hok & _).
  exists w'. split; [exact Hx|]. split; [exact Hok|].
  assert (Some w' = Some Demo.final) as Heq by (rewrite <- Hx; vm_compute; reflexivity).
  injection Heq as ->. vm_compute. reflexivity.
Defined.

Lemma events_delivered_in_order_witness :
  map ds_state (stream (H := Demo.framework) Demo.final 1%positive) = [connected; plugged].
Proof.
  destruct (events_delivered_in_order (H0 := Demo.framework_laws) Demo.utf8 Demo.opened Demo.final (drop 2 Demo.script)
              1%positive (proj1 Demo.opened_ok) (proj2 Demo.opened_ok) Demo.opened_listens Demo.no_cleanups
              Demo.opened_final) as (_ & _ & He).
  rewrite (He Demo.framework_reliable (proj1 Demo.two_events)). exact (proj2 Demo.two_events).
Defined.
