(* ===== verification/Attach.v ===== *)
(** * Attach attempts

    drivers/ude/persistent.cpp and persistent.h, and the part of drivers/ude/vhci.cpp
    that computes their constants: devices whose connection failed or was lost are
    attached again, by requests that the controller sends to itself after growing
    delays.  Also the parser of the strings that name persistent devices
    (libdrv/strconv.cpp, split and strchr; include/usbip/vhci.h, is_ascii_alnum). *)

From Stdlib Require Import Strings.String.
From S2P Require Import Prelude Vhci Events.

(** ** Delays and limits *)

(** get_next_delay; the product is an unsigned long long. *)
Definition get_next_delay (delay max_delay : Z) : Z :=
  if delay =? max_delay then delay
  else
    let next := u64 (3 * delay) / 2 in
    if next <? max_delay then u32 next else max_delay.

(** get_max_attach_attempts: the loop has no other exit than the total. *)
Fixpoint max_attempts_loop (fuel : nat) (delay total max_delay max_total_delay cnt : Z) : option Z :=
  match fuel with
  | O => None
  | S fuel =>
      let total := u32 (total + delay) in
      if total <=? max_total_delay
      then max_attempts_loop fuel (get_next_delay delay max_delay) total max_delay max_total_delay (u32 (cnt + 1))
      else Some cnt
  end.

Definition get_max_attach_attempts (first_delay max_delay max_total_delay : Z) : option Z :=
  max_attempts_loop (Z.to_nat (max_total_delay + 2)) first_delay 0 max_delay max_total_delay 0.

Definition HOUR : Z := 3600.
Definition DEF_FIRST_DELAY : Z := 30.
Definition DEF_MAX_DELAY : Z := 480.
Definition DEF_MAX_ATTEMPTS : Z := 20.
Definition MIN_DELAY : Z := 1.
Definition MAX_DELAY : Z := HOUR.
Definition MAX_TOTAL_DELAY : Z := 72 * HOUR.

(** init_constants; the three fields are zero before. *)
Definition init_constants (key : parameters) (max_attempts first_delay max_delay : Z) : option (Z * Z * Z) :=
  match key with
  | None => Some (DEF_MAX_ATTEMPTS, DEF_FIRST_DELAY, DEF_MAX_DELAY)
  | Some key =>
      let max_attempts := query_ulong key "ReattachMaxAttempts" max_attempts in
      let first_delay := query_ulong key "ReattachFirstDelay" first_delay in
      let max_delay := query_ulong key "ReattachMaxDelay" max_delay in
      let in_range val := Z.max MIN_DELAY (Z.min val MAX_DELAY) in
      let first_delay := if first_delay =? 0 then DEF_FIRST_DELAY else in_range first_delay in
      let max_delay := if max_delay =? 0 then DEF_MAX_DELAY else in_range max_delay in
      let '(first_delay, max_delay) := if max_delay <? first_delay then (max_delay, first_delay) else (first_delay, max_delay) in
      n ← get_max_attach_attempts first_delay max_delay MAX_TOTAL_DELAY;
      Some (if n <? max_attempts then n else max_attempts, first_delay, max_delay)
  end.

(** The [n]-th delay, and the time that passes before the attempt [n] has been made. *)
Fixpoint nth_delay (first_delay max_delay : Z) (n : nat) : Z :=
  match n with O => first_delay | S n => get_next_delay (nth_delay first_delay max_delay n) max_delay end.

Fixpoint total_delay (first_delay max_delay : Z) (n : nat) : Z :=
  match n with O => 0 | S n => total_delay first_delay max_delay n + nth_delay first_delay max_delay n end.

Definition delays_ok (first_delay max_delay : Z) : Prop := 1 <= first_delay <= max_delay /\ max_delay <= HOUR.

Lemma get_next_delay_spec d m : 1 <= d <= m -> m <= HOUR ->
  get_next_delay d m = Z.min m (if d =? m then d else 3 * d / 2) /\ d <= get_next_delay d m <= m.
Proof.
  unfold get_next_delay, HOUR, u64, u32. intros Hd Hm. destruct (Z.eqb_spec d m); [lia|].
  rewrite (Z.mod_small (3 * d)) by lia. rewrite Z.mod_small by zdm.
  assert (d <= 3 * d / 2) by zdm.
  destruct (Z.ltb_spec (3 * d / 2) m); lia.
Qed.

(** The delays grow by half until they reach the maximum, except that one second stays one second. *)
Lemma get_next_delay_grows d m : 2 <= d < m -> m <= HOUR -> d < get_next_delay d m.
Proof.
  intros Hd Hm. destruct (get_next_delay_spec d m) as [-> _]; [lia|done|].
  destruct (Z.eqb_spec d m); [lia|]. assert (d < 3 * d / 2) by zdm. lia.
Qed.

Lemma get_next_delay_one m : 1 < m -> m <= HOUR -> get_next_delay 1 m = 1.
Proof.
  intros Hm Hh. destruct (get_next_delay_spec 1 m) as [-> _]; [lia|done|].
  destruct (Z.eqb_spec 1 m); [lia|]. change (3 * 1 / 2) with 1. lia.
Qed.

Lemma nth_delay_range f m n : delays_ok f m -> 1 <= nth_delay f m n <= m.
Proof.
  intros [Hf Hm]. induction n as [|n IH]; simpl; [lia|].
  destruct (get_next_delay_spec (nth_delay f m n) m IH Hm) as [_ ?]. lia.
Qed.

Lemma total_delay_range f m n : delays_ok f m -> Z.of_nat n <= total_delay f m n <= Z.of_nat n * m.
Proof. intros H. induction n as [|n IH]; simpl total_delay; [lia|]. pose proof (nth_delay_range f m n H). lia. Qed.

Lemma total_delay_mono f m a b : delays_ok f m -> (a <= b)%nat -> total_delay f m a <= total_delay f m b.
Proof.
  intros H. induction 1 as [|b Hab IH]; [lia|]. simpl. pose proof (nth_delay_range f m b H). lia.
Qed.

Lemma max_attempts_loop_spec fuel f m T k :
  delays_ok f m -> 0 <= T <= 2 ^ 31 -> total_delay f m k <= T -> (Z.to_nat (T + 1) < fuel + k)%nat ->
  exists n, max_attempts_loop fuel (nth_delay f m k) (total_delay f m k) m T (Z.of_nat k) = Some (Z.of_nat n) /\
            total_delay f m n <= T < total_delay f m (S n).
Proof.
  intros H HT. revert k. induction fuel as [|fuel IH]; intros k Hk Hfuel.
  - pose proof (total_delay_range f m k H). lia.
  - cbn [max_attempts_loop]. pose proof (nth_delay_range f m k H). pose proof (total_delay_range f m k H).
    pose proof (proj2 H) as Hm. unfold HOUR in Hm. unfold u32. rewrite !Z.mod_small by lia.
    destruct (Z.leb_spec (total_delay f m k + nth_delay f m k) T) as [Hle|Hgt].
    + destruct (IH (S k)) as (n & Hn & Hb); [simpl; lia|lia|].
      exists n. split; [|done]. rewrite <- Hn. simpl. f_equal. lia.
    + exists k. split; [done|]. simpl. lia.
Qed.

Lemma get_max_attach_attempts_spec f m T :
  delays_ok f m -> 0 <= T <= 2 ^ 31 ->
  exists n, get_max_attach_attempts f m T = Some (Z.of_nat n) /\ total_delay f m n <= T < total_delay f m (S n).
Proof.
  intros H HT. unfold get_max_attach_attempts.
  apply (max_attempts_loop_spec (Z.to_nat (T + 2)) f m T 0 H HT); simpl; lia.
Qed.

(** The registry's values are ULONGs. *)
Definition ulong_values (key : parameters) : Prop :=
  match key with None => True | Some k => forall name v, k name = Some v -> is_u32 v end.

Lemma query_ulong_u32 k name old : ulong_values (Some k) -> is_u32 old -> is_u32 (query_ulong k name old).
Proof. intros H Ho. unfold query_ulong. destruct (k name) eqn:E; [by apply (H name) | done]. Qed.

(** The static_assert of init_constants. *)
Lemma def_max_attempts : get_max_attach_attempts DEF_FIRST_DELAY DEF_MAX_DELAY (2 * HOUR) = Some DEF_MAX_ATTEMPTS.
Proof. vm_compute. reflexivity. Qed.

(** Only the delays have defaults when their values are missing from an existing key. *)
Lemma missing_attempts_value_means_none k :
  ulong_values (Some k) -> k "ReattachMaxAttempts"%string = None ->
  exists f m, init_constants (Some k) 0 0 0 = Some (0, f, m).
Proof.
  intros Hk Ha. unfold init_constants.
  assert (query_ulong k "ReattachMaxAttempts" 0 = 0) as -> by (unfold query_ulong; by rewrite Ha).
  pose proof (query_ulong_u32 k "ReattachFirstDelay" 0 Hk ltac:(done)) as Hf.
  pose proof (query_ulong_u32 k "ReattachMaxDelay" 0 Hk ltac:(done)) as Hm. unfold is_u32 in *.
  set (f0 := query_ulong k "ReattachFirstDelay" 0) in *. set (m0 := query_ulong k "ReattachMaxDelay" 0) in *.
  set (f1 := if f0 =? 0 then DEF_FIRST_DELAY else _). set (m1 := if m0 =? 0 then DEF_MAX_DELAY else _). cbv zeta.
  assert (1 <= f1 <= HOUR /\ 1 <= m1 <= HOUR) as [Hf1 Hm1].
  { unfold f1, m1, DEF_FIRST_DELAY, DEF_MAX_DELAY, MIN_DELAY, MAX_DELAY, HOUR.
    destruct (f0 =? 0), (m0 =? 0); lia. }
  clearbody f1 m1. destruct (Z.ltb_spec m1 f1);
    [destruct (get_max_attach_attempts_spec m1 f1 MAX_TOTAL_DELAY) as (n & -> & _)
    |destruct (get_max_attach_attempts_spec f1 m1 MAX_TOTAL_DELAY) as (n & -> & _)];
    try (unfold delays_ok, MAX_TOTAL_DELAY, HOUR in *; lia); simpl;
    (destruct (Z.ltb_spec (Z.of_nat n) 0); [lia | eauto]).
Qed.

(** Computing the constants of the attach attempts ends for every content of the
    registry.  The first delay is at least a second, no longer than the longest one,
    which is an hour at most; the attempts are as many as configured, unless waiting
    for all of them would take more than 72 hours: then they are as many as fit.
    Without a key the constants are 20, 30 and 480. *)
Theorem attach_constants (key : parameters) :
  ulong_values key ->
  exists n f m, init_constants key 0 0 0 = Some (Z.of_nat n, f, m) /\ delays_ok f m /\
    total_delay f m n <= 72 * HOUR /\
    match key with
    | None => n = 20%nat /\ f = 30 /\ m = 480
    | Some k =>
        let configured := default 0 (k "ReattachMaxAttempts"%string) in
        Z.of_nat n <= configured /\ (Z.of_nat n < configured -> 72 * HOUR < total_delay f m (S n))
    end.
Proof.
  intros Hk. destruct key as [k|]; [|exists 20%nat, 30, 480; vm_compute; intuition discriminate].
  unfold init_constants.
  pose proof (query_ulong_u32 k "ReattachMaxAttempts" 0 Hk ltac:(done)) as Ha.
  pose proof (query_ulong_u32 k "ReattachFirstDelay" 0 Hk ltac:(done)) as Hf.
  pose proof (query_ulong_u32 k "ReattachMaxDelay" 0 Hk ltac:(done)) as Hm. unfold is_u32 in *.
  assert (default 0 (k "ReattachMaxAttempts"%string) = query_ulong k "ReattachMaxAttempts" 0) as ->
    by (unfold query_ulong; by destruct (k "ReattachMaxAttempts"%string)).
  set (a := query_ulong k "ReattachMaxAttempts" 0) in *.
  set (f0 := query_ulong k "ReattachFirstDelay" 0) in *. set (m0 := query_ulong k "ReattachMaxDelay" 0) in *.
  set (f1 := if f0 =? 0 then DEF_FIRST_DELAY else _). set (m1 := if m0 =? 0 then DEF_MAX_DELAY else _). cbv zeta.
  assert (1 <= f1 <= HOUR /\ 1 <= m1 <= HOUR) as [Hf1 Hm1].
  { unfold f1, m1, DEF_FIRST_DELAY, DEF_MAX_DELAY, MIN_DELAY, MAX_DELAY, HOUR.
    destruct (f0 =? 0), (m0 =? 0); lia. }
  set (p := if m1 <? f1 then (m1, f1) else (f1, m1)).
  assert (delays_ok (fst p) (snd p)) as Hp by (unfold p, delays_ok; destruct (Z.ltb_spec m1 f1); simpl; lia).
  clearbody f1 m1 p. destruct p as [f m]. simpl in Hp.
  destruct (get_max_attach_attempts_spec f m MAX_TOTAL_DELAY Hp) as (n & -> & Hn); [unfold MAX_TOTAL_DELAY, HOUR; lia|].
  cbn [mbind option_bind]. cbv zeta. fold MAX_TOTAL_DELAY. fold (total_delay f m (S n)) in *.
  destruct (Z.ltb_spec (Z.of_nat n) a) as [Hlt|Hge].
  - exists n, f, m. split; [done|]. split; [done|]. split; [apply Hn|]. split; [lia|]. intros _. apply Hn.
  - exists (Z.to_nat a), f, m. rewrite !Z2Nat.id by lia. split; [done|]. split; [done|]. split; [|lia].
    etrans; [apply (total_delay_mono f m (Z.to_nat a) n Hp); lia|lia].
Qed.

(** ** Device strings *)

(** A UNICODE_STRING is the list of its units; one of length zero has no buffer. *)
Fixpoint strchr_loop (i : Z) (s : list Z) (ch : Z) : Z :=
  match s with [] => -1 | c :: s => if c =? ch then i else strchr_loop (i + 1) s ch end.

Definition strchr (s : list Z) (ch : Z) : Z := strchr_loop 0 s ch.

Definition split (str : list Z) (sep : Z) : list Z * list Z :=
  let pos := strchr str sep in
  if pos <? 0 then (str, []) else (take (Z.to_nat pos) str, drop (Z.to_nat pos + 1) str).

(** is_ascii_alnum on a buffer of the length given to it. *)
Fixpoint is_ascii_alnum_loop (i : Z) (s : list byte) : Z :=
  match s with
  | [] => i
  | b :: s =>
      let c := b2z b in
      if c =? 0 then i
      else
        let alnum := ((c <=? 122) && (97 <=? c)) || ((c <=? 90) && (65 <=? c)) || ((c <=? 57) && (48 <=? c)) in
        if alnum then is_ascii_alnum_loop (i + 1) s else -1
  end.

Definition is_ascii_alnum (s : list byte) : Z := is_ascii_alnum_loop 0 s.

Definition SERIAL_BUFSZ : nat := 16.

Definition validate_serial_number (serial : list byte) : ntstatus :=
  let len := is_ascii_alnum serial in
  if (0 <=? len) && (len <? Z.of_nat SERIAL_BUFSZ) then STATUS_SUCCESS else USBIP_ERROR_SERIAL_NUMBER.

(** empty: no units, or the first one is zero. *)
Definition empty (s : list Z) : bool := match s with [] => true | c :: _ => c =? 0 end.

Definition comma : Z := 44.

(** STATUS_BUFFER_OVERFLOW, USBD_STATUS_INSUFFICIENT_RESOURCES *)
Definition STATUS_BUFFER_OVERFLOW : ntstatus := NT_OS 0x80000005.
Definition USBD_STATUS_INSUFFICIENT_RESOURCES : ntstatus := NT_OS 0xC0001000.

Section strings.
Context (unicode_to_utf8 : nat -> list Z -> ntstatus * list byte).

(** RtlHashUnicodeString, case insensitive; whether the pool has so many bytes. *)
Context (hash_string : list Z -> ntstatus * Z) (pool : Z -> bool).

(** hash_location: the formatted string must fit in [cb] bytes, a USHORT. *)
Definition hash_location (a : device_attributes) : res Z :=
  let bytes s := 2 * Z.of_nat (List.length s) in
  let cb := u16 (bytes (node_name a) + bytes (service_name a) + bytes (busid a) + 6) in
  if pool cb then
    let str := node_name a ++ [comma] ++ service_name a ++ [comma] ++ busid a in
    if bytes str <=? cb then
      let '(err, hash) := hash_string str in
      match err with STATUS_SUCCESS => Ok hash | err => Err err end
    else Err STATUS_BUFFER_OVERFLOW
  else Err USBD_STATUS_INSUFFICIENT_RESOURCES.

Definition with_names (a : device_attributes) (node service bus : list Z) (srl : list byte) : device_attributes :=
  {| node_name := node; service_name := service; busid := bus; location_hash := location_hash a;
     properties := {| devid := devid (properties a); speed := speed (properties a); vendor := vendor (properties a);
                      product := product (properties a); serial := srl; iserial := iserial (properties a) |} |}.

Definition with_hash (a : device_attributes) (h : Z) : device_attributes :=
  {| node_name := node_name a; service_name := service_name a; busid := busid a; location_hash := h;
     properties := properties a |}.

Definition zero_attributes : device_attributes :=
  {| node_name := []; service_name := []; busid := []; location_hash := 0; properties := zero_properties |}.

(** parse_device_str on zeroed attributes: host,port,busid[,serial] *)
Definition parse_device_str (device_str : list Z) : res device_attributes :=
  let '(node, service) := split device_str comma in
  let '(service, bus) := split service comma in
  let '(bus, tail) := split bus comma in
  let '(err, srl) := utf8_into unicode_to_utf8 (replicate SERIAL_BUFSZ x00) tail in
  match err with
  | STATUS_SUCCESS =>
      match validate_serial_number srl with
      | STATUS_SUCCESS =>
          let a := with_names zero_attributes node service bus srl in
          if empty node || empty service || empty bus then Err STATUS_INVALID_PARAMETER
          else h ← hash_location a; Ok (with_hash a h)
      | err => Err err
      end
  | err => Err err
  end.

(** *** The reference: the fields between the separators *)

Fixpoint fields (sep : Z) (s : list Z) : list (list Z) :=
  match s with
  | [] => [[]]
  | c :: s =>
      if c =? sep then [] :: fields sep s
      else match fields sep s with f :: fs => (c :: f) :: fs | [] => [[c]] end
  end.

Fixpoint join (sep : Z) (fs : list (list Z)) : list Z :=
  match fs with [] => [] | [f] => f | f :: fs => f ++ [sep] ++ join sep fs end.

Definition field (n : nat) (s : list Z) : list Z := nth n (fields comma s) [].

(** What a device string means: its first three fields are the location, the rest is
    the serial number. *)
Definition device_str_meaning (s : list Z) : res device_attributes :=
  let '(err, srl) := utf8_into unicode_to_utf8 (replicate SERIAL_BUFSZ x00) (join comma (drop 3 (fields comma s))) in
  match err with
  | STATUS_SUCCESS =>
      match validate_serial_number srl with
      | STATUS_SUCCESS =>
          if bool_decide (Exists (fun n => hd 0 (field n s) = 0) [0; 1; 2]%nat) then Err STATUS_INVALID_PARAMETER
          else
            let a := with_names zero_attributes (field 0 s) (field 1 s) (field 2 s) srl in
            h ← hash_location a; Ok (with_hash a h)
      | err => Err err
      end
  | err => Err err
  end.
End strings.

Definition no_sep (sep : Z) (f : list Z) : Prop := sep ∉ f.

Lemma fields_not_nil sep s : fields sep s <> [].
Proof. induction s as [|c s IH]; simpl; [done|]. destruct (c =? sep); [done|]. by destruct (fields sep s). Qed.

Lemma fields_no_sep sep s : Forall (no_sep sep) (fields sep s).
Proof.
  unfold no_sep. induction s as [|c s IH]; simpl; [repeat constructor; apply not_elem_of_nil|].
  destruct (Z.eqb_spec c sep) as [->|Hne]; [constructor; [apply not_elem_of_nil|done]|].
  destruct (fields sep s) as [|f fs]; [by repeat constructor; rewrite list_elem_of_singleton|].
  apply List.Forall_cons_iff in IH as [Hf Hfs]. constructor; [|done]. rewrite elem_of_cons. intros [?|?]; [congruence|done].
Qed.

Lemma join_cons sep f g fs : join sep (f :: g :: fs) = f ++ sep :: join sep (g :: fs).
Proof. done. Qed.

Lemma join_fields sep s : join sep (fields sep s) = s.
Proof.
  induction s as [|c s IH]; [done|]. cbn [fields]. pose proof (fields_not_nil sep s) as Hn.
  destruct (Z.eqb_spec c sep) as [->|Hne]; destruct (fields sep s) as [|f fs]; try done.
  - by rewrite join_cons, IH.
  - destruct fs as [|g fs]; [simpl in *; congruence|]. rewrite join_cons in *. by rewrite <- IH.
Qed.

Lemma fields_app sep f s : no_sep sep f -> fields sep (f ++ sep :: s) = f :: fields sep s.
Proof.
  unfold no_sep. induction f as [|c f IH]; simpl; intros Hf; [by rewrite Z.eqb_refl|].
  rewrite elem_of_cons in Hf. rewrite IH by tauto. destruct (Z.eqb_spec c sep); [subst; tauto|done].
Qed.

Lemma fields_single sep f : no_sep sep f -> fields sep f = [f].
Proof.
  unfold no_sep. induction f as [|c f IH]; simpl; intros Hf; [done|]. rewrite elem_of_cons in Hf.
  rewrite IH by tauto. destruct (Z.eqb_spec c sep); [subst; tauto|done].
Qed.

Lemma fields_join sep f fs : Forall (no_sep sep) (f :: fs) -> fields sep (join sep (f :: fs)) = f :: fs.
Proof.
  revert f. induction fs as [|g fs IH]; intros f [Hf Hfs]%List.Forall_cons_iff; [by apply fields_single|].
  rewrite join_cons, fields_app by done. by rewrite IH.
Qed.

(** [split] takes the first field off. *)
Lemma split_fields sep s :
  split s sep = (hd [] (fields sep s), join sep (tl (fields sep s))).
Proof.
  unfold split, strchr. assert (forall i, 0 <= i -> exists n,
    (strchr_loop i s sep = -1 /\ fields sep s = [s]) \/
    (strchr_loop i s sep = i + Z.of_nat n /\ fields sep s = take n s :: fields sep (drop (n + 1) s))) as Hloop.
  { induction s as [|c s IH]; intros i Hi; simpl; [exists 0%nat; auto|].
    destruct (Z.eqb_spec c sep) as [->|Hne]; [exists 0%nat; right; split; [lia|done]|].
    destruct (IH (i + 1)) as (n & [(-> & ->)|(-> & ->)]); [lia|exists 0%nat; auto|].
    exists (S n). right. split; [lia|done]. }
  destruct (Hloop 0) as (n & [(-> & ->)|(-> & ->)]); [lia|done|].
  rewrite Z.add_0_l. destruct (Z.ltb_spec (Z.of_nat n) 0); [lia|]. simpl. by rewrite Nat2Z.id, join_fields.
Qed.

Lemma split_join sep f fs : Forall (no_sep sep) (f :: fs) -> split (join sep (f :: fs)) sep = (f, join sep fs).
Proof. intros H. by rewrite split_fields, fields_join. Qed.

(** Splitting a string three times yields its first three fields and the rest. *)
Lemma split_split_split sep s :
  let '(node, service) := split s sep in
  let '(service, bus) := split service sep in
  let '(bus, tail) := split bus sep in
  node = nth 0 (fields sep s) [] /\ service = nth 1 (fields sep s) [] /\ bus = nth 2 (fields sep s) [] /\
  tail = join sep (drop 3 (fields sep s)).
Proof.
  rewrite (split_fields sep s). pose proof (fields_no_sep sep s) as Hn. pose proof (fields_not_nil sep s).
  destruct (fields sep s) as [|a [|b [|c fs]]]; simpl tl; simpl hd; [done| | |];
    repeat match goal with H : Forall _ (_ :: _) |- _ => apply List.Forall_cons_iff in H as [? H] end.
  - done.
  - rewrite (split_join sep b []) by auto. done.
  - rewrite (split_join sep b (c :: fs)) by auto. rewrite (split_join sep c fs) by auto. done.
Qed.

Lemma empty_hd s : empty s = bool_decide (hd 0 s = 0).
Proof. destruct s as [|c s]; [done|]. simpl. destruct (Z.eqb_spec c 0); [subst; done|]. by rewrite bool_decide_false. Qed.

Lemma any_empty s :
  empty (field 0 s) || empty (field 1 s) || empty (field 2 s) =
  bool_decide (Exists (fun n => hd 0 (field n s) = 0) [0; 1; 2]%nat).
Proof.
  rewrite !empty_hd. apply eq_true_iff_eq. rewrite !orb_true_iff, !bool_decide_eq_true.
  rewrite !Exists_cons, Exists_nil. tauto.
Qed.

(** C40: a device string is understood as its comma-separated fields say: the first three
    are host, port and bus id, none of them empty, and what follows the third comma is
    the serial number, up to 15 letters and digits.  In particular the string made of
    three such fields and a serial number gives exactly these fields back. *)
Theorem parse_device_str_equiv unicode_to_utf8 hash_string pool (s : list Z) :
  parse_device_str unicode_to_utf8 hash_string pool s = device_str_meaning unicode_to_utf8 hash_string pool s /\
  (forall a, parse_device_str unicode_to_utf8 hash_string pool s = Ok a ->
     s = join comma (node_name a :: service_name a :: busid a :: drop 3 (fields comma s)) /\
     Forall (fun f => no_sep comma f /\ hd 0 f <> 0) [node_name a; service_name a; busid a] /\
     hash_location hash_string pool a = Ok (location_hash a) /\
     validate_serial_number (serial (properties a)) = STATUS_SUCCESS) /\
  (forall host service bus rest, Forall (no_sep comma) (host :: service :: bus :: rest) ->
     s = join comma (host :: service :: bus :: rest) ->
     field 0 s = host /\ field 1 s = service /\ field 2 s = bus /\ drop 3 (fields comma s) = rest).
Proof.
  pose proof (split_split_split comma s) as Hs. pose proof (any_empty s) as He.
  assert (parse_device_str unicode_to_utf8 hash_string pool s =
          device_str_meaning unicode_to_utf8 hash_string pool s) as Heq.
  { unfold parse_device_str, device_str_meaning. destruct (split s comma) as [node r1].
    destruct (split r1 comma) as [service r2]. destruct (split r2 comma) as [bus tail].
    destruct Hs as (-> & -> & -> & ->). destruct (utf8_into _ _ _) as [err srl].
    destruct err; try done. destruct (validate_serial_number srl); try done.
    fold (field 0 s) (field 1 s) (field 2 s). by rewrite He. }
  split; [done|]. split.
  2: { intros host service bus rest Hr ->. unfold field. by rewrite fields_join. }
  rewrite Heq. clear Heq Hs. unfold device_str_meaning. intros a.
  destruct (utf8_into _ _ _) as [err srl]. destruct err; try done.
  destruct (validate_serial_number srl) eqn:Ev; try done.
  destruct (bool_decide _) eqn:Eb; [done|]. rewrite <- He in Eb. bool_prop. cbv zeta.
  intros (h & Hh & [= <-])%res_bind_Ok. simpl.
  assert (forall n, empty (field n s) = false -> no_sep comma (field n s) /\ hd 0 (field n s) <> 0) as Hf.
  { intros n Hn. split.
    - unfold field. pose proof (fields_no_sep comma s) as Hns. rewrite Forall_lookup in Hns.
      destruct (fields comma s !! n) as [f|] eqn:E; [|by rewrite nth_lookup, E in *; apply not_elem_of_nil].
      rewrite nth_lookup, E. by apply (Hns n).
    - rewrite empty_hd in Hn. by apply bool_decide_eq_false in Hn. }
  split_and!; auto.
  - unfold field in *. rewrite <- (join_fields comma s) at 1.
    destruct (fields comma s) as [|x [|y [|z fs]]]; done.
Qed.

(** ** The requests *)

(** Framework calls about requests the driver creates itself.  [request_create] gives a new
    handle when it succeeds; [send_request] tells whether the request was sent. *)
Class AttachWdf (W : Type) : Type := {
  request_create : W -> ntstatus * W;
  timer_create : W -> ntstatus * W;
  format_request : W -> ntstatus * W;
  send_request : W -> request -> bool * W;
  reuse_request : W -> request -> ntstatus * W }.

Section attempts.
Context {W : Type} `{Wdf W} `{AttachWdf W}.
Context (unicode_to_utf8 : nat -> list Z -> ntstatus * list byte).

Definition sizeof_plugin_hardware : Z := 1116.

(** RtlStringCbCopyNA into a zeroed buffer: the characters up to a terminator among the
    first [n], and a terminator. *)
Fixpoint c_string (s : list byte) : list byte :=
  match s with [] => [] | b :: s => if bool_decide (b = x00) then [] else b :: c_string s end.

Definition copy_string (size : nat) (src : list byte) : ntstatus * list byte :=
  let str := c_string src in
  if (length str <? size)%nat then (STATUS_SUCCESS, str ++ replicate (size - length str) x00)
  else (STATUS_BUFFER_OVERFLOW, take (size - 1) str ++ [x00]).

Definition reattach_req_count (w : world W) : Z := Z.of_nat (length (reattach_req (vhci w))).

Definition reattach_req_add (w : world W) (r : request) : bool * world W :=
  let '(err, x) := collection_add (wdf w) in
  let w := set_wdf w x in
  match err with
  | STATUS_SUCCESS => (true, set_vhci w (with_reattach (vhci w) (reattach_req (vhci w) ++ [r])))
  | _ => (false, w)
  end.

Fixpoint remove_first (r : request) (l : list request) : list request :=
  match l with [] => [] | x :: l => if bool_decide (x = r) then l else x :: remove_first r l end.

(** reattach_req_remove(vhci, request) *)
Definition reattach_req_remove_request (w : world W) (r : request) : world W :=
  set_vhci w (with_reattach (vhci w) (remove_first r (reattach_req (vhci w)))).

(** reattach_req_remove(vhci, location_hash): the first request, or the first one of the location. *)
Fixpoint find_location (m : gmap request attach_ctx) (hash : Z) (l : list request) : option (option request) :=
  match l with
  | [] => Some None
  | r :: l =>
      if hash =? 0 then Some (Some r)
      else
        c ← m !! r;
        if hash =? a_location_hash c then Some (Some r) else find_location m hash l
  end.

Definition reattach_req_remove (w : world W) (hash : Z) : option (option request * world W) :=
  found ← find_location (attach w) hash (reattach_req (vhci w));
  match found with
  | None => Some (None, w)
  | Some r => Some (Some r, reattach_req_remove_request w r)
  end.

(** Deleting a request runs cleanup_attach_request. *)
Definition delete_request (w : world W) (r : request) : world W :=
  let w := reattach_req_remove_request w r in set_attach w (delete r (attach w)).

Definition set_attach_ctx (w : world W) (r : request) (c : attach_ctx) : world W :=
  set_attach w (<[r := c]> (attach w)).

Definition with_state (c : attach_ctx) (cnt dly : Z) (st : attach_state) : attach_ctx :=
  {| a_location_hash := a_location_hash c; retry_cnt := cnt; delay := dly; inbuf := inbuf c;
     a_state := st; a_cancelled := a_cancelled c |}.

Definition with_cancelled (c : attach_ctx) : attach_ctx :=
  {| a_location_hash := a_location_hash c; retry_cnt := retry_cnt c; delay := delay c; inbuf := inbuf c;
     a_state := a_state c; a_cancelled := true |}.

(** init_attach_ctx *)
Definition init_attach_ctx (v : vhci_ctx) (a : device_attributes) : option attach_ctx :=
  let '(err, srl) := copy_string SERIAL_BUFSZ (serial (properties a)) in
  match err with
  | STATUS_SUCCESS =>
      let '(err, loc) := fill_location unicode_to_utf8 zero_location a in
      if NT_SUCCESS err then
        Some {| a_location_hash := location_hash a; retry_cnt := 0; delay := reattach_first_delay v;
                inbuf := {| ph_size := sizeof_plugin_hardware; ph_location := loc; ph_serial := srl |};
                a_state := Created; a_cancelled := false |}
      else None
  | _ => None
  end.

(** A framework call that must succeed for the next one to be made. *)
Definition try_call (call : W -> ntstatus * W) (w : world W) : bool * world W :=
  let '(err, x) := call (wdf w) in (bool_decide (err = STATUS_SUCCESS), set_wdf w x).

(** create_attach_request; [r] is the handle request_create gives.  Whatever fails, the
    request is deleted again. *)
Definition create_attach_request (w : world W) (r : request) (a : device_attributes) : bool * world W :=
  let '(ok, w) := try_call request_create w in
  if negb ok then (false, w)
  else
    let '(ok, w) := try_call memory_create w in
    if negb ok then (false, delete_request w r)
    else
      let '(ok, w) := try_call memory_create w in
      if negb ok then (false, delete_request w r)
      else
        let '(ok, w) := try_call timer_create w in
        if negb ok then (false, delete_request w r)
        else
          match init_attach_ctx (vhci w) a with
          | None => (false, delete_request w r)
          | Some c =>
              let '(ok, w) := reattach_req_add (set_attach_ctx w r c) r in
              if ok then (true, w) else (false, delete_request w r)
          end.

(** send_plugin_hardware: whether the target owns the request now. *)
Definition send_plugin_hardware (w : world W) (r : request) : option (bool * world W) :=
  let '(ok, w) := try_call format_request w in
  if negb ok then Some (false, w)
  else
    c ← attach w !! r;
    let '(sent, x) := send_request (wdf w) r in
    let w := set_wdf w x in
    Some (if sent then (true, set_attach_ctx w r (with_state c (retry_cnt c) (delay c) Sent)) else (false, w)).

(** A request that nobody took over is deleted by ObjectDelete. *)
Definition send_or_delete (w : world W) (r : request) : option (world W) :=
  res ← send_plugin_hardware w r;
  let '(sent, w) := res in
  Some (if (sent : bool) then w else delete_request w r).

Definition DELAY_AFTER_PLUGOUT : Z := 30.

(** usbip::start_attach_attempts *)
Definition start_attach_attempts (w : world W) (r : request) (a : device_attributes) (delayed : bool) : option (world W) :=
  if removing (vhci w) then Some w
  else if u32 (4 * devices_cnt (vhci w)) <=? reattach_req_count w then Some w
  else
    let '(ok, w) := create_attach_request w r a in
    if negb ok then Some w
    else
      let w := add_action w (ReattachStarted r a delayed) in
      if negb delayed then send_or_delete w r
      else
        c ← attach w !! r;
        Some (set_attach_ctx w r (with_state c (u32 (retry_cnt c + 1)) (delay c) (TimerStarted DELAY_AFTER_PLUGOUT))).

(** usbip::stop_attach_attempts: how many requests were cancelled. *)
Fixpoint stop_loop (fuel : nat) (w : world W) (hash : Z) (cnt : Z) : option (Z * world W) :=
  match fuel with
  | O => None
  | S fuel =>
      res ← reattach_req_remove w hash;
      let '(req, w) := res in
      match (req : option request) with
      | None => Some (cnt, w)
      | Some r =>
          let w := match attach w !! r with Some c => set_attach_ctx w r (with_cancelled c) | None => w end in
          stop_loop fuel w hash (cnt + 1)
      end
  end.

Definition stop_attach_attempts (w : world W) (hash : Z) : option (Z * world W) :=
  stop_loop (S (length (reattach_req (vhci w)))) w hash 0.

(** usbip::can_reattach *)
Definition can_reattach (w : world W) (hash : Z) (st : ntstatus) : option bool :=
  match st with
  | USBIP_ERROR_ABI | USBIP_ERROR_VERSION | USBIP_ERROR_PROTOCOL => Some false
  | USBIP_ERROR_ST_DEV_BUSY => b ← has_device w hash; Some (negb b)
  | st => Some (negb (bool_decide (st = STATUS_CANCELLED)))
  end.

(** on_plugin_hardware: the completion of the request with the status [st]. *)
Definition on_plugin_hardware (w : world W) (r : request) (st : ntstatus) : option (world W) :=
  c ← attach w !! r;
  let cnt := retry_cnt c in
  let c := with_state c (u32 (cnt + 1)) (delay c) (a_state c) in
  let w := set_attach_ctx w r c in
  let failed := NT_ERROR st in
  retry ← (if failed && (cnt <? reattach_max_attempts (vhci w)) then can_reattach w (a_location_hash c) st
           else Some false);
  if negb (retry && negb (removing (vhci w))) then Some (delete_request w r)
  else
    let '(err, x) := reuse_request (wdf w) r in
    let w := set_wdf w x in
    match err with
    | STATUS_SUCCESS =>
        let dly := delay c in
        Some (set_attach_ctx w r
                (with_state c (retry_cnt c) (get_next_delay dly (reattach_max_delay (vhci w))) (TimerStarted dly)))
    | _ => Some (delete_request w r)
    end.

(** on_attach_timer *)
Definition on_attach_timer (w : world W) (r : request) : option (world W) :=
  if removing (vhci w) then Some (delete_request w r) else send_or_delete w r.

(** plugin_persistent_devices: [col] are the strings of the registry value, when it can be
    read; [rs] are the handles of the requests it creates. *)
Fixpoint plugin_loop (strs : list (list Z)) (rs : list request) (hash_string : list Z -> ntstatus * Z)
    (pool : Z -> bool) (w : world W) : option (world W) :=
  match strs, rs with
  | s :: strs, r :: rs =>
      w ← match parse_device_str unicode_to_utf8 hash_string pool s with
          | Ok a => start_attach_attempts w r a false
          | Err _ => Some w
          end;
      plugin_loop strs rs hash_string pool w
  | _, _ => Some w
  end.

Definition plugin_persistent_devices (w : world W) (col : option (list (list Z))) (rs : list request)
    (hash_string : list Z -> ntstatus * Z) (pool : Z -> bool) : option (world W) :=
  let strs := default [] col in
  let cnt := Z.min (Z.of_nat (length strs)) (devices_cnt (vhci w)) in
  plugin_loop (take (Z.to_nat cnt) strs) rs hash_string pool w.
End attempts.

(** ** The invariant of the attempts *)

Lemma remove_first_filter r l : NoDup l -> remove_first r l = filter (.≠ r) l.
Proof.
  induction l as [|x l IH]; [done|]. intros [Hx Hl]%list.NoDup_cons. simpl. case_bool_decide as He.
  - subst. rewrite filter_cons_False by (intros Hn; by apply Hn). symmetry. apply filter_all.
    apply list.Forall_forall. intros y Hy ->. by apply Hx.
  - rewrite filter_cons_True by done. by rewrite IH.
Qed.

(** An attempt that is waiting or sent has not used up the attempts. *)
Definition attempt_ok (v : vhci_ctx) (c : attach_ctx) : Prop :=
  1 <= delay c <= reattach_max_delay v /\
  0 <= retry_cnt c <= Z.max 1 (reattach_max_attempts v) /\
  match a_state c with Created => False | TimerStarted secs => 1 <= secs <= HOUR | Sent => True end.

(** [skip] is the request that is being worked on. *)
Record attempts_ok {W} (skip : option request) (w : world W) : Prop := {
  ao_constants : delays_ok (reattach_first_delay (vhci w)) (reattach_max_delay (vhci w)) /\
                 0 <= reattach_max_attempts (vhci w) < 2 ^ 31;
  ao_limit : 0 <= devices_cnt (vhci w) <= 255 /\ reattach_req_count w <= 4 * devices_cnt (vhci w);
  ao_nodup : NoDup (reattach_req (vhci w));
  ao_listed : forall r, r ∈ reattach_req (vhci w) -> Some r <> skip -> is_Some (attach w !! r);
  ao_attempt : forall r c, Some r <> skip -> attach w !! r = Some c ->
      attempt_ok (vhci w) c /\ (r ∈ reattach_req (vhci w) <-> a_cancelled c = false) }.

Section invariant.
Context {W : Type} `{Wdf W} `{AttachWdf W}.
Context (unicode_to_utf8 : nat -> list Z -> ntstatus * list byte).

Lemma attempts_ok_skip r (w : world W) : attempts_ok None w -> attempts_ok (Some r) w.
Proof.
  intros [Hc Hl Hn Hi Ha]. constructor; auto; intros; (by apply Hi) || by apply Ha.
Qed.

Lemma attempts_ok_wdf o (w : world W) x : attempts_ok o w -> attempts_ok o (set_wdf w x).
Proof. intros []. constructor; auto. Qed.

Lemma attempts_ok_action o (w : world W) a : attempts_ok o w -> attempts_ok o (add_action w a).
Proof. intros []. constructor; auto. Qed.

Lemma attempts_ok_delete r (w : world W) : attempts_ok (Some r) w -> attempts_ok None (delete_request w r).
Proof.
  intros [Hc Hl Hn Hi Ha]. unfold delete_request, reattach_req_remove_request. constructor; simpl; auto.
  - unfold reattach_req_count in *. simpl. rewrite remove_first_filter by done.
    pose proof (length_filter (.≠ r) (reattach_req (vhci w))). lia.
  - rewrite remove_first_filter by done. by apply list.NoDup_filter.
  - intros q Hq _. rewrite remove_first_filter in Hq by done. apply list_elem_of_filter in Hq as [Hne Hq].
    rewrite lookup_delete_ne by congruence. apply Hi; congruence.
  - intros q c _ Hq. apply lookup_delete_Some in Hq as [Hne Hq]. rewrite remove_first_filter by done.
    destruct (Ha q c) as [Ha1 Ha2]; [congruence|done|]. split; [done|].
    rewrite list_elem_of_filter, <- Ha2. intuition congruence.
Qed.

Lemma attempts_ok_set r c (w : world W) :
  attempts_ok (Some r) w -> attempt_ok (vhci w) c -> (r ∈ reattach_req (vhci w) <-> a_cancelled c = false) ->
  attempts_ok None (set_attach_ctx w r c).
Proof.
  intros [Hc Hl Hn Hi Ha] Hok Hr. constructor; simpl; auto.
  - intros q Hq _. destruct (decide (r = q)) as [<-|Hne]; [rewrite lookup_insert_eq; eauto|].
    rewrite lookup_insert_ne by done. apply Hi; congruence.
  - intros q d _. destruct (decide (r = q)) as [<-|Hne].
    + rewrite lookup_insert_eq. by intros [= <-].
    + rewrite lookup_insert_ne by done. apply Ha. congruence.
Qed.

Lemma attempts_ok_set_skip r c (w : world W) :
  attempts_ok (Some r) w -> attempts_ok (Some r) (set_attach_ctx w r c).
Proof.
  intros [Hc Hl Hn Hi Ha]. constructor; simpl; auto.
  - intros q Hq Hne. rewrite lookup_insert_ne by congruence. auto.
  - intros q d Hne. rewrite lookup_insert_ne by congruence. auto.
Qed.

Lemma attempts_ok_add r (w : world W) :
  attempts_ok (Some r) w -> r ∉ reattach_req (vhci w) -> reattach_req_count w < 4 * devices_cnt (vhci w) ->
  attempts_ok (Some r) (set_vhci w (with_reattach (vhci w) (reattach_req (vhci w) ++ [r]))).
Proof.
  intros [Hc Hl Hn Hi Ha] Hr Hlt. constructor; simpl; auto.
  - unfold reattach_req_count in *. simpl. rewrite length_app. simpl. lia.
  - apply list.NoDup_app. split; [done|]. split; [|apply NoDup_singleton]. intros q Hq ->%list_elem_of_singleton. done.
  - intros q [Hq| ->%list_elem_of_singleton]%elem_of_app Hne; [by apply Hi|congruence].
  - intros q d Hne Hq. destruct (Ha q d Hne Hq) as [Ha1 Ha2]. split; [done|].
    rewrite elem_of_app, list_elem_of_singleton, Ha2. intuition congruence.
Qed.

(** What these operations never touch. *)
Record same_ports (w w' : world W) : Prop := {
  sp_vhci : exists l, vhci w' = with_reattach (vhci w) l;
  sp_dev : dev_ctx w' = dev_ctx w;
  sp_refs : refs w' = refs w;
  sp_fobj : fobj_ctx w' = fobj_ctx w;
  sp_completed : completed w' = completed w }.

Lemma same_ports_refl w : same_ports w w.
Proof. constructor; auto. exists (reattach_req (vhci w)). by destruct (vhci w). Qed.

Lemma same_ports_trans w1 w2 w3 : same_ports w1 w2 -> same_ports w2 w3 -> same_ports w1 w3.
Proof.
  intros [(l1 & Hv1) ????] [(l2 & Hv2) ????]. constructor; try congruence. exists l2. by rewrite Hv2, Hv1.
Qed.

Lemma same_ports_eq (w w' : world W) :
  vhci w' = vhci w -> dev_ctx w' = dev_ctx w -> refs w' = refs w -> fobj_ctx w' = fobj_ctx w ->
  completed w' = completed w -> same_ports w w'.
Proof. intros Hv ????. constructor; auto. rewrite Hv. apply same_ports_refl. Qed.

Lemma same_ports_delete (w : world W) r : same_ports w (delete_request w r).
Proof. constructor; simpl; eauto. Qed.
Lemma try_call_eq call (w : world W) : exists b x, try_call call w = (b, set_wdf w x).
Proof. unfold try_call. destruct (call (wdf w)) as [err x]. eauto. Qed.

(** A context that may be written back with another state. *)
Definition live (w : world W) (r : request) (c : attach_ctx) : Prop :=
  attach w !! r = Some c /\ 1 <= delay c <= reattach_max_delay (vhci w) /\
  0 <= retry_cnt c <= Z.max 1 (reattach_max_attempts (vhci w)) /\
  (r ∈ reattach_req (vhci w) <-> a_cancelled c = false).

Lemma create_attach_request_ok w r a :
  attempts_ok None w -> attach w !! r = None -> r ∉ reattach_req (vhci w) ->
  reattach_req_count w < 4 * devices_cnt (vhci w) ->
  let '(ok, w') := create_attach_request unicode_to_utf8 w r a in
  same_ports w w' /\
  if ok then attempts_ok (Some r) w' /\ exists c, live w' r c /\ retry_cnt c = 0 else attempts_ok None w'.
Proof.
  intros Hw Hr Hnr Hlt. unfold create_attach_request.
  assert (forall x, same_ports w (delete_request (set_wdf w x) r) /\ attempts_ok None (delete_request (set_wdf w x) r)) as Hdel.
  { intros x. split; [eapply same_ports_trans; [|apply same_ports_delete]; by apply same_ports_eq|]. by apply attempts_ok_delete, attempts_ok_skip, attempts_ok_wdf. }
  assert (forall x y, set_wdf (set_wdf w x) y = set_wdf w y) as Hss by done.
  destruct (try_call_eq request_create w) as ([] & x1 & ->); simpl; [|split; [by apply same_ports_eq | by apply attempts_ok_wdf]].
  destruct (try_call_eq memory_create (set_wdf w x1)) as ([] & x2 & ->); rewrite Hss; simpl; [|apply Hdel].
  destruct (try_call_eq memory_create (set_wdf w x2)) as ([] & x3 & ->); rewrite Hss; simpl; [|apply Hdel].
  destruct (try_call_eq timer_create (set_wdf w x3)) as ([] & x4 & ->); rewrite Hss; simpl; [|apply Hdel].
  unfold init_attach_ctx. destruct (copy_string SERIAL_BUFSZ _) as [err srl].
  destruct (decide (err = STATUS_SUCCESS)) as [->|He]; [|destruct err; try done; apply Hdel].
  destruct (fill_location _ _ _) as [err loc]. destruct (NT_SUCCESS err); [|apply Hdel].
  set (c := {| a_location_hash := _ |}). unfold reattach_req_add. simpl.
  destruct (collection_add x4) as [err' x5]. destruct (decide (err' = STATUS_SUCCESS)) as [->|He'].
  - split; [constructor; simpl; eauto|]. split.
    + apply (attempts_ok_add r (set_wdf (set_attach_ctx (set_wdf w x4) r c) x5)); auto.
      by apply attempts_ok_wdf, attempts_ok_set_skip, attempts_ok_skip, attempts_ok_wdf.
    + exists c. split; [|done]. pose proof (proj1 (proj1 (ao_constants _ w Hw))). unfold live. simpl.
      pose proof (proj2 (ao_constants _ w Hw)). split_and!; try lia; [apply lookup_insert_eq|].
      split; [done|]. intros _. apply elem_of_app. right. by apply list_elem_of_singleton.
  - assert (forall v, (let '(ok, w0) := match err' with STATUS_SUCCESS => (true, v) | _ => (false, set_wdf (set_attach_ctx (set_wdf w x4) r c) x5) end in
              if ok : bool then (true, w0) else (false, delete_request w0 r)) =
              (false, delete_request (set_wdf (set_attach_ctx (set_wdf w x4) r c) x5) r)) as Hm by (intros; by destruct err').
    rewrite Hm. split.
    + eapply same_ports_trans; [|apply same_ports_delete]. by apply same_ports_eq.
    + by apply attempts_ok_delete, attempts_ok_wdf, attempts_ok_set_skip, attempts_ok_skip, attempts_ok_wdf.
Qed.

Lemma attempts_ok_state w r c cnt dly st :
  attempts_ok (Some r) w -> live w r c -> attempt_ok (vhci w) (with_state c cnt dly st) ->
  attempts_ok None (set_attach_ctx w r (with_state c cnt dly st)).
Proof. intros Hw (_ & _ & _ & Hl) Hok. by apply attempts_ok_set. Qed.

Lemma send_or_delete_ok w r c :
  attempts_ok (Some r) w -> live w r c ->
  exists w', send_or_delete w r = Some w' /\ attempts_ok None w' /\ same_ports w w'.
Proof.
  intros Hw Hl. unfold send_or_delete, send_plugin_hardware.
  destruct (try_call_eq format_request w) as ([] & x & ->); simpl.
  - rewrite (proj1 Hl). simpl. destruct (send_request x r) as [[] y]; (eexists; split; [reflexivity|]).
    + split; [|by apply same_ports_eq].
      apply (attempts_ok_state (set_wdf (set_wdf w x) y) r c); [by do 2 apply attempts_ok_wdf|done|].
      destruct Hl as (_ & ? & ? & _). done.
    + split; [by apply attempts_ok_delete, attempts_ok_wdf, attempts_ok_wdf|].
      eapply same_ports_trans; [|apply same_ports_delete]. by apply same_ports_eq.
  - eexists. split; [done|]. split; [by apply attempts_ok_delete, attempts_ok_wdf|].
    eapply same_ports_trans; [|apply same_ports_delete]. by apply same_ports_eq.
Qed.

Lemma start_attach_attempts_ok w r a delayed :
  attempts_ok None w -> attach w !! r = None -> r ∉ reattach_req (vhci w) ->
  exists w', start_attach_attempts unicode_to_utf8 w r a delayed = Some w' /\ attempts_ok None w' /\ same_ports w w'.
Proof.
  intros Hw Hr Hnr. unfold start_attach_attempts. destruct (removing (vhci w)); [eauto using same_ports_refl|].
  pose proof (proj1 (ao_limit _ w Hw)). unfold u32. rewrite Z.mod_small by lia.
  destruct (Z.leb_spec (4 * devices_cnt (vhci w)) (reattach_req_count w)) as [|Hlt]; [eauto using same_ports_refl|].
  pose proof (create_attach_request_ok w r a Hw Hr Hnr Hlt) as Hc.
  destruct (create_attach_request unicode_to_utf8 w r a) as [[] w1]; simpl; destruct Hc as [Hp Hc]; [|eauto].
  destruct Hc as (Hw1 & c & Hl & Hcnt). destruct delayed; simpl.
  - rewrite (proj1 Hl). simpl. eexists. split; [done|]. split; [|eapply same_ports_trans; [done|by apply same_ports_eq]].
    apply (attempts_ok_state (add_action w1 (ReattachStarted r a true)) r c); try done; [by apply attempts_ok_action|].
    destruct Hl as (_ & ? & ? & _). unfold attempt_ok, DELAY_AFTER_PLUGOUT, HOUR. simpl. rewrite Hcnt.
    rewrite Z.mod_small by lia. lia.
  - destruct (send_or_delete_ok (add_action w1 (ReattachStarted r a false)) r c) as (w' & -> & Hw' & Hp'); [by apply attempts_ok_action|done|].
    exists w'. split; [done|]. split; [done|]. eapply same_ports_trans; [done|]. eapply same_ports_trans; [|done]. by apply same_ports_eq.
Qed.
(** *** Completion and timer *)

(** The failures after which another attempt is made. *)
Definition recoverable (w : world W) (hash : Z) (st : ntstatus) : Prop :=
  NT_ERROR st = true /\
  ~ (st ∈ [USBIP_ERROR_ABI; USBIP_ERROR_VERSION; USBIP_ERROR_PROTOCOL; STATUS_CANCELLED]) /\
  (st = USBIP_ERROR_ST_DEV_BUSY ->
   forall d c, dev_ctx w !! d = Some c -> port c <> 0 -> location_hash (attr c) <> hash).

Lemma can_reattach_ok w hash st :
  ports_ok w -> exists b, can_reattach w hash st = Some b /\ (NT_ERROR st = true -> (b = true <-> recoverable w hash st)).
Proof.
  intros Hw. unfold can_reattach, recoverable. destruct (decide (st = USBIP_ERROR_ST_DEV_BUSY)) as [->|Hb].
  - destruct (has_device_spec w hash Hw) as (b & -> & Hs). simpl. exists (negb b). split; [done|]. intros _.
    rewrite negb_true_iff. split.
    + intros ->. split; [done|]. split; [set_solver|]. intros _ d c Hd Hp Hh.
      assert (false = true) by (apply Hs; eauto). done.
    + intros (_ & _ & Hn). destruct b; [|done]. destruct (proj1 Hs eq_refl) as (d & c & Hd & Hp & Hh). by destruct (Hn eq_refl d c Hd Hp).
  - destruct (decide (st ∈ [USBIP_ERROR_ABI; USBIP_ERROR_VERSION; USBIP_ERROR_PROTOCOL])) as [Hin|Hn].
    + exists false. split; [set_solver|]. intros _. split; [done|]. intros (_ & Hni & _). set_solver.
    + exists (negb (bool_decide (st = STATUS_CANCELLED))). split; [destruct st; try done; set_solver|].
      intros He. rewrite negb_true_iff, bool_decide_eq_false. split; [|set_solver].
      intros Hc. split; [done|]. split; [set_solver|done].
Qed.

(** After its completion a request is gone, or waits for the next attempt. *)
Lemma on_plugin_hardware_ok w r c st :
  attempts_ok None w -> ports_ok w -> attach w !! r = Some c -> a_state c = Sent ->
  exists w', on_plugin_hardware w r st = Some w' /\ attempts_ok None w' /\ same_ports w w' /\
    ((attach w' !! r = None /\ r ∉ reattach_req (vhci w')) \/
     (attach w' !! r = Some (with_state c (retry_cnt c + 1) (get_next_delay (delay c) (reattach_max_delay (vhci w)))
                               (TimerStarted (delay c))) /\
      retry_cnt c < reattach_max_attempts (vhci w) /\ removing (vhci w) = false /\
      recoverable w (a_location_hash c) st)).
Proof.
  intros Hw Hp Hc Hs. unfold on_plugin_hardware. rewrite Hc. simpl.
  destruct (ao_attempt _ w Hw r c) as [(Hd & Hr & _) Hl]; [done..|].
  destruct (ao_constants _ w Hw) as [[Hf Hm] Hma].
  assert (u32 (retry_cnt c + 1) = retry_cnt c + 1) as -> by (apply u32_id; unfold is_u32; lia).
  set (c1 := with_state c (retry_cnt c + 1) (delay c) (a_state c)). set (w1 := set_attach_ctx w r c1).
  assert (attempts_ok (Some r) w1) as Hw1 by (by apply attempts_ok_set_skip, attempts_ok_skip).
  assert (forall x, attempts_ok None (delete_request (set_wdf w1 x) r) /\ same_ports w (delete_request (set_wdf w1 x) r) /\
             attach (delete_request (set_wdf w1 x) r) !! r = None /\
             r ∉ reattach_req (vhci (delete_request (set_wdf w1 x) r))) as Hdel.
  { intros x. split_and!.
    - by apply attempts_ok_delete, attempts_ok_wdf.
    - eapply same_ports_trans; [|apply same_ports_delete]. by apply same_ports_eq.
    - simpl. apply lookup_delete_eq.
    - simpl. rewrite remove_first_filter by apply (ao_nodup _ w Hw). intros [? _]%list_elem_of_filter. done. }
  destruct (can_reattach_ok w1 (a_location_hash c) st) as (b & Hcan & Hrec); [by destruct Hp; constructor|].
  destruct (NT_ERROR st && (retry_cnt c <? reattach_max_attempts (vhci w))) eqn:E; simpl; rewrite ?Hcan; simpl;
    [|destruct (Hdel (wdf w1)) as (?&?&?&?); eexists; split; [reflexivity|]; auto 6].
  destruct (b && negb (removing (vhci w))) eqn:Eb; simpl;
    [|destruct (Hdel (wdf w1)) as (?&?&?&?); eexists; split; [reflexivity|]; auto 6].
  destruct (reuse_request (wdf w) r) as [err x].
  destruct (decide (err = STATUS_SUCCESS)) as [->|He].
  - eexists. split; [done|]. pose proof (get_next_delay_spec (delay c) (reattach_max_delay (vhci w)) Hd Hm) as [_ Hn].
    split; [|split; [by apply same_ports_eq|]].
    + apply attempts_ok_set; [by apply attempts_ok_wdf| |done].
      split_and!; simpl; lia.
    + right. split; [simpl; by rewrite lookup_insert_eq|]. bool_prop. split; [lia|].
      destruct (removing (vhci w)); [done|]. split; [done|]. subst b. by apply (Hrec ltac:(done)).
  - exists (delete_request (set_wdf w1 x) r). split; [by destruct err|]. destruct (Hdel x) as (?&?&?&?). auto 6.
Qed.

Lemma on_attach_timer_ok w r c secs :
  attempts_ok None w -> attach w !! r = Some c -> a_state c = TimerStarted secs ->
  exists w', on_attach_timer w r = Some w' /\ attempts_ok None w' /\ same_ports w w'.
Proof.
  intros Hw Hc Hs. unfold on_attach_timer. destruct (removing (vhci w)).
  - eexists. split; [done|]. split; [by apply attempts_ok_delete, attempts_ok_skip|apply same_ports_delete].
  - apply (send_or_delete_ok w r c); [by apply attempts_ok_skip|].
    destruct (ao_attempt _ w Hw r c) as [(Hd & Hr & _) Hl]; [done..|]. unfold live. auto.
Qed.
(** *** Stopping *)

(** A request of the location; of any location when the hash is zero. *)
Definition at_location (m : gmap request attach_ctx) (hash : Z) (r : request) : Prop :=
  hash = 0 \/ exists c, m !! r = Some c /\ a_location_hash c = hash.

Lemma find_location_spec (m : gmap request attach_ctx) hash l :
  (forall r, r ∈ l -> is_Some (m !! r)) ->
  exists o, find_location m hash l = Some o /\
    match o with
    | Some r => r ∈ l /\ at_location m hash r
    | None => forall r, r ∈ l -> ~ at_location m hash r
    end.
Proof.
  induction l as [|r l IH]; simpl; intros Hl; [exists None; split; [done|]; set_solver|].
  destruct (Z.eqb_spec hash 0) as [->|Hz]; [exists (Some r); split; [done|]; split; [set_solver|by left]|].
  destruct (Hl r) as [c Hc]; [set_solver|]. rewrite Hc. simpl.
  destruct (Z.eqb_spec hash (a_location_hash c)) as [->|Hne].
  { exists (Some r). split; [done|]. split; [set_solver|]. right. eauto. }
  destruct IH as (o & -> & Ho); [set_solver|]. exists o. split; [done|]. destruct o as [q|]; [set_solver|].
  intros q [->|Hq]%elem_of_cons; [|by apply Ho]. intros [?|(c' & Hc' & ?)]; [done|]. rewrite Hc in Hc'. by simplify_eq.
Qed.

Lemma stop_loop_ok fuel w hash cnt :
  attempts_ok None w -> (length (reattach_req (vhci w)) < fuel)%nat ->
  exists n w', stop_loop fuel w hash cnt = Some (cnt + n, w') /\ attempts_ok None w' /\ same_ports w w' /\
    n = reattach_req_count w - reattach_req_count w' /\
    (forall r, r ∈ reattach_req (vhci w') <-> r ∈ reattach_req (vhci w) /\ ~ at_location (attach w) hash r).
Proof.
  revert w cnt. induction fuel as [|fuel IH]; intros w cnt Hw Hf; [lia|]. simpl. unfold reattach_req_remove.
  pose proof (ao_listed _ w Hw) as Hin.
  destruct (find_location_spec (attach w) hash (reattach_req (vhci w))) as (o & -> & Ho); [intros; by apply Hin|].
  simpl. destruct o as [r|].
  - destruct Ho as [Hr Hloc]. destruct (Hin r Hr) as [c Hc]; [done|]. simpl. rewrite Hc.
    set (w1 := set_attach_ctx (reattach_req_remove_request w r) r (with_cancelled c)).
    pose proof (ao_nodup _ w Hw) as Hn.
    assert (forall q, q ∈ reattach_req (vhci w1) <-> q ∈ reattach_req (vhci w) /\ q <> r) as Hmem.
    { intros q. simpl. rewrite remove_first_filter by done. rewrite list_elem_of_filter. tauto. }
    assert (S (length (reattach_req (vhci w1))) = length (reattach_req (vhci w))) as Hlen.
    { simpl. rewrite remove_first_filter by done. by rewrite (Permutation_length (filter_ne_perm r _ Hn Hr)). }
    assert (attempts_ok None w1) as Hw1.
    { destruct Hw as [Hc0 Hl Hn' Hi Ha]. apply attempts_ok_set.
      - constructor; simpl; auto.
        + unfold reattach_req_count in *. simpl in *. lia.
        + rewrite remove_first_filter by done. by apply list.NoDup_filter.
        + intros q Hq _. apply Hi; [by apply Hmem|done].
        + intros q d Hne Hq. destruct (Ha q d) as [Ha1 Ha2]; [done..|]. split; [done|].
          rewrite <- Ha2. etrans; [apply Hmem|]. intuition congruence.
      - destruct (Ha r c) as [Ha1 _]; done.
      - etrans; [apply Hmem|]. simpl. intuition congruence. }
    assert (forall q, at_location (attach w1) hash q <-> at_location (attach w) hash q) as Hat.
    { intros q. unfold at_location. simpl. destruct (decide (r = q)) as [<-|Hne].
      - rewrite lookup_insert_eq, Hc. split; (intros [?|(d & [= <-] & ?)]; [by left|right; eauto]).
      - by rewrite lookup_insert_ne. }
    destruct (IH w1 (cnt + 1) Hw1) as (n & w' & -> & Hw' & Hp & Hcnt & Hspec); [lia|].
    exists (n + 1), w'. split; [f_equal; f_equal; lia|]. split; [done|]. split; [|split].
    + eapply same_ports_trans, Hp. constructor; simpl; eauto.
    + unfold reattach_req_count in *. lia.
    + intros q. rewrite Hspec, Hmem, Hat. split; [tauto|]. intros [? Hnl]. split_and!; auto. intros ->. done.
  - exists 0, w. rewrite Z.add_0_r. split_and!; auto using same_ports_refl; [lia|]. intros r. split; [|tauto]. auto.
Qed.

(** ** Sequences of operations *)

Inductive attach_op : Type :=
| Start (r : request) (a : device_attributes) (delayed : bool)
| Completed (r : request) (st : ntstatus)
| TimerFired (r : request)
| Stop (hash : Z).

Definition exec_attach (w : world W) (op : attach_op) : option (world W) :=
  match op with
  | Start r a delayed => start_attach_attempts unicode_to_utf8 w r a delayed
  | Completed r st => on_plugin_hardware w r st
  | TimerFired r => on_attach_timer w r
  | Stop hash => res ← stop_attach_attempts w hash; Some (snd res)
  end.

Definition attach_enabled (w : world W) (op : attach_op) : Prop :=
  match op with
  | Start r _ _ => attach w !! r = None /\ r ∉ reattach_req (vhci w)
  | Completed r _ => exists c, attach w !! r = Some c /\ a_state c = Sent
  | TimerFired r => exists c secs, attach w !! r = Some c /\ a_state c = TimerStarted secs
  | Stop _ => True
  end.

Fixpoint exec_attach_all (w : world W) (ops : list attach_op) : option (world W) :=
  match ops with [] => Some w | op :: ops => w ← exec_attach w op; exec_attach_all w ops end.

Fixpoint attach_enabled_all (w : world W) (ops : list attach_op) : Prop :=
  match ops with
  | [] => True
  | op :: ops => attach_enabled w op /\ forall w', exec_attach w op = Some w' -> attach_enabled_all w' ops
  end.

Lemma ports_ok_same w w' : ports_ok w -> same_ports w w' -> ports_ok w'.
Proof.
  intros [Hh Hs Hd Hr] [(l & Hv) Hdev Href _ _]. constructor; rewrite ?Hdev, ?Href, ?Hv; auto. by destruct Hh; constructor.
Qed.

Lemma exec_attach_ok w op :
  attempts_ok None w -> ports_ok w -> attach_enabled w op ->
  exists w', exec_attach w op = Some w' /\ attempts_ok None w' /\ same_ports w w'.
Proof.
  intros Hw Hp He. destruct op as [r a d|r st|r|hash]; simpl in *.
  - apply start_attach_attempts_ok; tauto.
  - destruct He as (c & Hc & Hs). destruct (on_plugin_hardware_ok w r c st Hw Hp Hc Hs) as (w' & ? & ? & ? & _). eauto.
  - destruct He as (c & secs & Hc & Hs). by eapply on_attach_timer_ok.
  - destruct (stop_loop_ok (S (length (reattach_req (vhci w)))) w hash 0 Hw) as (n & w' & Hs & Hw' & Hp' & _); [lia|].
    unfold stop_attach_attempts. rewrite Hs. simpl. eauto.
Qed.

Lemma exec_attach_all_ok w ops :
  attempts_ok None w -> ports_ok w -> attach_enabled_all w ops ->
  exists w', exec_attach_all w ops = Some w' /\ attempts_ok None w' /\ same_ports w w'.
Proof.
  revert w. induction ops as [|op ops IH]; intros w Hw Hp He; simpl; [eauto using same_ports_refl|].
  destruct He as [He1 He2]. destruct (exec_attach_ok w op Hw Hp He1) as (w1 & Hx & Hw1 & Hp1). rewrite Hx. simpl.
  destruct (IH w1 Hw1 (ports_ok_same _ _ Hp Hp1) (He2 w1 Hx)) as (w' & -> & ? & ?). eauto using same_ports_trans.
Qed.

(** A location whose hash is zero stands for all of them. *)
Lemma zero_hash_stops_all (w : world W) :
  attempts_ok None w -> exists w' : world W, stop_attach_attempts w 0 = Some (reattach_req_count w, w') /\ reattach_req (vhci w') = [].
Proof.
  intros Hw. destruct (stop_loop_ok (S (length (reattach_req (vhci w)))) w 0 0 Hw) as (n & w' & Hs & _ & _ & Hn & Hl); [lia|].
  assert (reattach_req (vhci w') = []) as Hnil.
  { destruct (reattach_req (vhci w')) as [|r l] eqn:E; [done|]. destruct (proj1 (Hl r)) as [_ []]; [set_solver|by left]. }
  exists w'. split; [|done]. unfold stop_attach_attempts. rewrite Hs. f_equal. f_equal.
  unfold reattach_req_count in Hn at 2. rewrite Hnil in Hn. simpl in Hn. lia.
Qed.

(** C11: the controller's own attach requests are bounded and end.  After any sequence of
    starts, completions, timers and stops the collection of those that go on has at most four requests per port - a request
    that a stop took out of it lives on until its cancellation has been completed, and is not counted: any number of such requests can be pending -, none in it
    has been tried more often than configured, and none waits longer than an hour.  The
    completion of a request either ends it, or it is tried again after its delay with a
    count one higher: only after an error that is not permanent, while attempts are left
    and the controller is not being removed, and not when the device is already attached.
    Stopping a location removes exactly its requests and reports how many. *)
Theorem attach_attempts_bounded (w : world W) (ops : list attach_op) :
  attempts_ok None w -> ports_ok w -> attach_enabled_all w ops ->
  exists w', exec_attach_all w ops = Some w' /\ attempts_ok None w' /\
    reattach_req_count w' <= 4 * devices_cnt (vhci w') /\
    (forall r c, attach w' !! r = Some c ->
       retry_cnt c <= Z.max 1 (reattach_max_attempts (vhci w')) /\
       forall secs, a_state c = TimerStarted secs -> 1 <= secs <= HOUR) /\
    (forall r c st, attach w' !! r = Some c -> a_state c = Sent ->
       exists w'', on_plugin_hardware w' r st = Some w'' /\
         (attach w'' !! r = None \/
          (exists c', attach w'' !! r = Some c' /\ retry_cnt c' = retry_cnt c + 1 /\ a_state c' = TimerStarted (delay c) /\
           retry_cnt c < reattach_max_attempts (vhci w') /\ removing (vhci w') = false /\
           recoverable w' (a_location_hash c) st))) /\
    (forall hash, exists n w'', stop_attach_attempts w' hash = Some (n, w'') /\
       n = reattach_req_count w' - reattach_req_count w'' /\
       forall r, r ∈ reattach_req (vhci w'') <-> r ∈ reattach_req (vhci w') /\ ~ at_location (attach w') hash r).
Proof.
  intros Hw Hp He. destruct (exec_attach_all_ok w ops Hw Hp He) as (w' & Hx & Hw' & Hsp).
  pose proof (ports_ok_same _ _ Hp Hsp) as Hp'.
  exists w'. split; [done|]. split; [done|]. split; [apply (ao_limit _ w' Hw')|]. split_and!.
  - intros r c Hc. destruct (ao_attempt _ w' Hw' r c) as [(_ & ? & Hs) _]; [done..|]. split; [lia|].
    intros secs Hst. by rewrite Hst in Hs.
  - intros r c st Hc Hs. destruct (on_plugin_hardware_ok w' r c st Hw' Hp' Hc Hs) as (w'' & Hd & _ & _ & Hcase).
    exists w''. split; [done|]. destruct Hcase as [[? _]|(Hc'' & ?)]; [auto|]. right. eexists. split; [exact Hc''|]. auto.
  - intros hash. destruct (stop_loop_ok (S (length (reattach_req (vhci w')))) w' hash 0 Hw') as (n & w'' & Hs & _ & _ & Hn & Hl); [lia|].
    exists n, w''. unfold stop_attach_attempts. rewrite Hs. auto.
Qed.
End invariant.

(** ** Examples: a persistent device that is busy at first *)
Module Demo.

#[local] Instance requests : AttachWdf unit := {
  request_create x := (STATUS_SUCCESS, x);
  timer_create x := (STATUS_SUCCESS, x);
  format_request x := (STATUS_SUCCESS, x);
  send_request x _ := (true, x);
  reuse_request x _ := (STATUS_SUCCESS, x) }.

(** pc,3240,1-1,SN42 *)
Definition device_string : list Z :=
  [112; 99; 44; 51; 50; 52; 48; 44; 49; 45; 49; 44; 83; 78; 52; 50].

Definition hash_string (s : list Z) : ntstatus * Z := (STATUS_SUCCESS, 1 + Z.of_nat (List.length s)).

Definition parsed : device_attributes :=
  match parse_device_str Events.Demo.utf8 hash_string (fun _ => true) device_string with
  | Ok a => a | Err _ => zero_attributes end.

(** The hub of the port examples, with the default constants. *)
Definition hub : vhci_ctx :=
  let v := Vhci.Demo.hub in
  {| usb2_ports := usb2_ports v; devices_cnt := devices_cnt v; devices := devices v; fileobjects := []; reads := [];
     events_subscribers := 0; reattach_max_attempts := 20; reattach_first_delay := 30; reattach_max_delay := 480;
     reattach_req := []; removing := false |}.

Definition start : world unit := set_vhci Vhci.Demo.start hub.

Lemma start_attempts_ok : attempts_ok None start.
Proof.
  constructor; simpl.
  - vm_compute. intuition discriminate.
  - vm_compute. intuition discriminate.
  - by apply list.NoDup_nil.
  - intros r Hr. by apply elem_of_nil in Hr.
  - intros r c _. by rewrite lookup_empty.
Qed.

Lemma start_ports_ok : ports_ok start.
Proof. destruct Vhci.Demo.start_ok as [Hh Hs Hd Hr]. constructor; auto. by destruct Hh; constructor. Qed.

Definition script : list attach_op :=
  [Start 1%positive parsed false; Completed 1%positive USBIP_ERROR_ST_NODEV; TimerFired 1%positive].

Definition final : world unit :=
  default start (exec_attach_all (H := Events.Demo.framework) Events.Demo.utf8 start script).

Lemma attempts_enabled : attach_enabled_all (H := Events.Demo.framework) Events.Demo.utf8 start script.
Proof.
  unfold script. split; [split; [done|apply not_elem_of_nil]|]. intros w Hw. vm_compute in Hw. injection Hw as <-.
  split; [eexists; split; vm_compute; reflexivity|]. intros w Hw. vm_compute in Hw. injection Hw as <-.
  split; [do 2 eexists; split; vm_compute; reflexivity|]. done.
Qed.

End Demo.

Lemma attach_constants_witness :
  exists n f m, init_constants (Some (fun name => if String.eqb name "ReattachMaxAttempts" then Some 4294967295 else None))
                  0 0 0 = Some (Z.of_nat n, f, m) /\ total_delay f m n <= 72 * HOUR.
Proof.
  destruct (attach_constants (Some (fun name => if String.eqb name "ReattachMaxAttempts" then Some 4294967295 else None)))
    as (n & f & m & He & _ & Ht & _).
  - intros name v Hv. destruct (String.eqb name "ReattachMaxAttempts"); [|done]. injection Hv as <-. split; [discriminate|reflexivity].
  - exists n, f, m. auto.
Defined.

Lemma parse_device_str_equiv_witness :
  device_str_meaning Events.Demo.utf8 Demo.hash_string (fun _ => true) Demo.device_string = Ok Demo.parsed /\
  busid Demo.parsed = [49; 45; 49] /\ validate_serial_number (serial (properties Demo.parsed)) = STATUS_SUCCESS.
Proof.
  destruct (parse_device_str_equiv Events.Demo.utf8 Demo.hash_string (fun _ => true) Demo.device_string) as (He & Hok & _).
  destruct (Hok Demo.parsed ltac:(vm_compute; reflexivity)) as (_ & _ & _ & Hv).
  split; [rewrite <- He; vm_compute; reflexivity|]. split; [vm_compute; reflexivity|exact Hv].
Defined.

Lemma attach_attempts_bounded_witness :
  exists w', exec_attach_all (H := Events.Demo.framework) (H0 := Demo.requests) Events.Demo.utf8 Demo.start Demo.script = Some w' /\
             reattach_req_count w' <= 12.
Proof.
  destruct (attach_attempts_bounded (H := Events.Demo.framework) (H0 := Demo.requests) Events.Demo.utf8 Demo.start Demo.script
              Demo.start_attempts_ok Demo.start_ports_ok Demo.attempts_enabled) as (w' & Hx & _ & Hc & _).
  exists w'. split; [exact Hx|]. assert (Some w' = Some Demo.final) as Heq by (rewrite <- Hx; vm_compute; reflexivity).
  injection Heq as ->. exact Hc.
Defined.
