(* ===== verification/Device.v ===== *)
(** * Emulated devices: creation, plugging in, detaching

    drivers/ude/device.cpp (create, detach, plugout_and_delete, recv_thread_start and
    recv_thread_join) and the functions of drivers/ude/vhci.cpp and vhci_ioctl.cpp that
    use them: plugin and detach_all_devices.  It is where the root-hub ports, the notifications and the attach
    attempts meet; the controller's default queue runs one of these at a time. *)

From S2P Require Import Prelude Parser DescPatch Policy Session Filter Vhci Events Attach.

(** ** UdeCx and the kernel

    Answers to the calls about devices; [d] is the handle UdecxUsbDeviceCreate gives. *)
Class Udecx (W : Type) : Type := {
  init_allocate : W -> bool * W;
  add_descriptor : W -> udecx_descriptor -> ntstatus;
  usb_device_create : W -> ntstatus * W;
  spin_lock_create : W -> ntstatus * W;
  usb_device_plug_in : W -> ntstatus * W;
  usb_device_plug_out_and_delete : W -> ntstatus * W;
  create_system_thread : W -> ntstatus * W;
  socket_close : W -> ntstatus * W }.

Section device.
Context {W : Type} `{Wdf W} `{AttachWdf W} `{Udecx W}.
Context (unicode_to_utf8 : nat -> list Z -> ntstatus * list byte).

(** make_source_id of the address of a device's attributes. *)
Context (source_of : device -> Z).

Definition set_dev_flags (c : device_ctx) (sock thread unplug ep0 : bool) : device_ctx :=
  {| attr := attr c; sock_open := sock; recv_thread := thread; port := port c; unplugged := unplug; ep0_added := ep0 |}.

(** device_state_changed(const device_ctx&, state) *)
Definition dev_state_changed (w : world W) (d : device) (st : state) : option (world W) :=
  c ← dev_ctx w !! d;
  device_state_changed unicode_to_utf8 w (attr c) (port c) st (source_of d).

(** WdfObjectDelete: the context goes away after device_cleanup, which finds the device
    unplugged already. *)
Definition object_delete (w : world W) (d : device) : world W :=
  let w := add_action w (ObjectDelete d) in
  {| vhci := vhci w; dev_ctx := delete d (dev_ctx w); fobj_ctx := fobj_ctx w; refs := refs w;
     completed := completed w; trace := trace w; attach := attach w; wdf := wdf w |}.

(** close_socket, whose disconnect may fail without consequences ([socket_close] is the
    answer of the close), and the report that the connection is closed. *)
Definition detach_socket (w : world W) (d : device) : option (world W) :=
  c ← dev_ctx w !! d;
  if sock_open c then
    let '(err, x) := socket_close (wdf w) in
    let w := set_wdf w x in
    let w := set_dev w d (set_dev_flags c false (recv_thread c) (unplugged c) (ep0_added c)) in
    match err with
    | STATUS_SUCCESS => dev_state_changed (add_action w (CloseSocket d)) d disconnected
    | _ => Some w
    end
  else Some w.

(** recv_thread_join by another thread: the thread object is waited for and dropped. *)
Definition recv_thread_join (w : world W) (d : device) : option (world W) :=
  c ← dev_ctx w !! d;
  Some (set_dev w d (set_dev_flags c (sock_open c) false (unplugged c) (ep0_added c))).

(** plugout_and_delete *)
Definition plugout_and_delete (w : world W) (d : device) (a : device_attributes) (portnum : Z) (force : bool)
  : option (world W) :=
  w ← device_state_changed unicode_to_utf8 w a portnum unplugging (source_of d);
  let '(err, x) := usb_device_plug_out_and_delete (wdf w) in
  let w := set_wdf w x in
  match err with
  | STATUS_SUCCESS =>
      w ← device_state_changed unicode_to_utf8 (add_action w (PlugOutAndDelete d)) a portnum unplugged_state (source_of d);
      Some (if force then object_delete w d else w)
  | _ => Some w
  end.

(** device::detach; [r] is the handle of the attach request it may start. *)
Definition detach (w : world W) (d : device) (plugout reattach : bool) (r : request) : option (world W) :=
  c ← dev_ctx w !! d;
  if unplugged c then Some w
  else
    let w := set_dev w d (set_dev_flags c (sock_open c) (recv_thread c) true (ep0_added c)) in
    w ← detach_socket w d;
    w ← recv_thread_join w d;
    res ← reclaim_roothub_port w d;
    let '(portnum, w) := res in
    c ← dev_ctx w !! d;
    w ← (if plugout then plugout_and_delete w d (attr c) portnum (negb (ep0_added c)) else Some w);
    if reattach then start_attach_attempts unicode_to_utf8 w r (attr c) plugout else Some w.

(** vhci::detach_all_devices: every port from 1. *)
Fixpoint detach_ports (n : nat) (p : Z) (w : world W) (plugout : bool) : option (world W) :=
  match n with
  | O => Some w
  | S n =>
      o ← get_device w p;
      w ← match (o : option device) with Some d => detach w d plugout false 1%positive | None => Some w end;
      detach_ports n (p + 1) w plugout
  end.

Definition detach_all_devices (w : world W) (plugout : bool) : option (world W) :=
  detach_ports (Z.to_nat (devices_cnt (vhci w))) 1 w plugout.

(** init_device: one spin lock after the other. *)
Fixpoint init_device (n : nat) (w : world W) : ntstatus * world W :=
  match n with
  | O => (STATUS_SUCCESS, w)
  | S n =>
      let '(err, x) := spin_lock_create (wdf w) in
      let w := set_wdf w x in
      match err with STATUS_SUCCESS => init_device n w | err => (err, w) end
  end.

(** device::create *)
Definition create (w : world W) (d : device) (a : device_attributes) (snapshot : descriptor_snapshot)
  : option (ntstatus * world W) :=
  let '(init, x) := init_allocate (wdf w) in
  let w := set_wdf w x in
  if negb init then Some (STATUS_INSUFFICIENT_RESOURCES, w)
  else
    added ← add_snapshot_descriptors (add_descriptor (wdf w)) snapshot;
    match fst added with
    | STATUS_SUCCESS =>
        let '(err, x) := usb_device_create (wdf w) in
        let w := set_wdf w x in
        match err with
        | STATUS_SUCCESS =>
            let w := add_action w (DeviceCreate d (snd added)) in
            let w := set_dev w d {| attr := a; sock_open := true; recv_thread := false; port := 0;
                                    unplugged := false; ep0_added := false |} in
            Some (init_device 3 w)
        | err => Some (err, w)
        end
    | err => Some (err, w)
    end.

(** device::recv_thread_start *)
Definition recv_thread_start (w : world W) (d : device) : option (ntstatus * world W) :=
  let '(err, x) := create_system_thread (wdf w) in
  let w := set_wdf w x in
  match err with
  | STATUS_SUCCESS =>
      c ← dev_ctx w !! d;
      Some (STATUS_SUCCESS, set_dev w d (set_dev_flags c (sock_open c) true (unplugged c) (ep0_added c)))
  | err => Some (err, w)
  end.

(** plugin of vhci_ioctl.cpp: the status, the port, whether the device was plugged in. *)
Definition plugin (w : world W) (d : device) : option (ntstatus * Z * bool * world W) :=
  res ← claim_roothub_port w d;
  let '(portnum, w) := res in
  if (portnum : Z) =? 0 then Some (USBIP_ERROR_PORTFULL, 0, false, w)
  else
    c ← dev_ctx w !! d;
    let '(err, x) := usb_device_plug_in (wdf w) in
    let w := set_wdf w x in
    match err with
    | STATUS_SUCCESS =>
        let w := add_action w (PlugIn d (dev_speed c <? USB_SPEED_SUPER) portnum) in
        res ← recv_thread_start w d;
        let '(st, w) := res in
        Some (st, portnum, true, w)
    | err => Some (err, portnum, false, w)
    end.
End device.

(** ** The controller is consistent *)

Record hub_core {W} `{Wdf W} (w : world W) : Prop := {
  wf_ports : ports_ok w;
  wf_events : events_ok w;
  wf_attempts : attempts_ok None w }.

(** Between two operations an unplugged device has given its port back. *)
Record hub_wf {W} `{Wdf W} (w : world W) : Prop := {
  wf_core : hub_core w;
  wf_unplugged : forall d c, dev_ctx w !! d = Some c -> unplugged c = true -> port c = 0 }.

(** The devices that were plugged in, in this order. *)
Definition plug_in_of (a : action) : option (device * bool * Z) :=
  match a with PlugIn d usb20 p => Some (d, usb20, p) | _ => None end.

Definition plug_ins {W} (w : world W) : list (device * bool * Z) := omap plug_in_of (trace w).

(** The actions that show a device to Windows. *)
Definition presenting (a : action) : Prop :=
  match a with DeviceCreate _ _ | PlugIn _ _ _ => True | _ => False end.

(** Other actions may have followed. *)
Definition unpresented {W} (w w' : world W) : Prop :=
  exists l, trace w' = trace w ++ l /\ Forall (fun a => ~ presenting a) l.

(** Nothing was plugged in, and only waiting reads were completed. *)
Definition silent {W} (w w' : world W) : Prop :=
  plug_ins w' = plug_ins w /\ forall r, fresh w' r <-> fresh w r.

Section invariant.
Context {W : Type} `{WdfLaws W} `{AttachWdf W} `{Udecx W}.
Context (unicode_to_utf8 : nat -> list Z -> ntstatus * list byte) (source_of : device -> Z).

(** Equal in all that the invariant reads. *)
Record like (w w' : world W) : Prop := {
  lk_vhci : vhci w' = vhci w; lk_dev : dev_ctx w' = dev_ctx w; lk_refs : refs w' = refs w;
  lk_fobj : fobj_ctx w' = fobj_ctx w; lk_completed : completed w' = completed w; lk_attach : attach w' = attach w }.

Lemma ports_ok_hub (w w' : world W) : ports_ok w -> same_hub w w' -> ports_ok w'.
Proof.
  intros [Hh Hs Hd Hr] [(fs & rs & n & Hv) Hdev Href _]. constructor; rewrite ?Hdev, ?Href, ?Hv; auto.
  by destruct Hh; constructor.
Qed.

Lemma attempts_ok_hub o (w w' : world W) : attempts_ok o w -> same_hub w w' -> attempts_ok o w'.
Proof.
  intros [Hc Hl Hn Hi Ha] [(fs & rs & n & Hv) Hdev Href Hat].
  constructor; unfold reattach_req_count in *; rewrite ?Hat, ?Hv; auto.
Qed.

Lemma events_ok_ports (w w' : world W) : events_ok w -> same_ports w w' -> events_ok w'.
Proof.
  intros [Hf Hc Hb Hw Ho] [(l & Hv) Hdev Href Hfo Hco].
  constructor; unfold completed_requests, subscribed in *; rewrite ?Hfo, ?Hco, ?Hv; auto.
Qed.

Lemma core_hub (w w' : world W) : hub_core w -> events_ok w' -> same_hub w w' -> hub_core w'.
Proof. intros [Hp He Ha] He' Hs. constructor; auto; [by eapply ports_ok_hub | by eapply attempts_ok_hub]. Qed.

Lemma core_ports (w w' : world W) : hub_core w -> attempts_ok None w' -> same_ports w w' -> hub_core w'.
Proof. intros [Hp He Ha] Ha' Hs. constructor; auto; [by eapply ports_ok_same | by eapply events_ok_ports]. Qed.

Lemma core_like (w w' : world W) : hub_core w -> like w w' -> hub_core w'.
Proof.
  intros Hw [Hv Hd Hr Hf Hc Ha]. apply (core_hub w); [done| |by apply same_hub_eq].
  eapply events_ok_ports; [apply Hw|by apply same_ports_eq].
Qed.

Lemma core_wdf (w : world W) x : hub_core w -> hub_core (set_wdf w x).
Proof. intros Hw. apply (core_like w); [done|by constructor]. Qed.

Lemma core_action (w : world W) a : hub_core w -> hub_core (add_action w a).
Proof. intros Hw. apply (core_like w); [done|by constructor]. Qed.

(** Changing a device's context without its attributes and port. *)
Lemma core_flags (w : world W) d c c' :
  hub_core w -> dev_ctx w !! d = Some c -> attr c' = attr c -> port c' = port c -> hub_core (set_dev w d c').
Proof.
  intros [[Hh Hs Hd Hr] He Ha] Hc Hat Hp. constructor; [|by destruct He; constructor|by destruct Ha; constructor].
  constructor; simpl; auto.
  - intros i e Hi. destruct (Hs i e Hi) as (ce & Hce & Hpe & Hre). destruct (decide (d = e)) as [<-|Hne].
    + rewrite lookup_insert_eq. exists c'. rewrite Hc in Hce. simplify_eq. unfold dev_speed in *. rewrite Hp, Hat. auto.
    + rewrite lookup_insert_ne by done. eauto.
  - intros e ce. destruct (decide (d = e)) as [<-|Hne].
    + rewrite lookup_insert_eq. intros [= <-]. rewrite Hp. by apply Hd.
    + rewrite lookup_insert_ne by done. apply Hd.
  - intros e ce. destruct (decide (d = e)) as [<-|Hne].
    + rewrite lookup_insert_eq. intros [= <-]. rewrite Hp. by apply Hr.
    + rewrite lookup_insert_ne by done. apply Hr.
Qed.

Lemma core_delete (w : world W) d c :
  hub_core w -> dev_ctx w !! d = Some c -> port c = 0 -> hub_core (object_delete w d).
Proof.
  intros [[Hh Hs Hd Hr] He Ha] Hc Hp. constructor; [|by destruct He; constructor|by destruct Ha; constructor].
  constructor; simpl; auto.
  - intros i e Hi. destruct (Hs i e Hi) as (ce & Hce & Hpe & Hre). exists ce.
    rewrite lookup_delete_ne; [auto|]. intros ->. rewrite Hc in Hce. simplify_eq. lia.
  - intros e ce [_ Hce]%lookup_delete_Some. by apply Hd.
  - intros e ce [_ Hce]%lookup_delete_Some. by apply Hr.
Qed.

(** *** What is presented to Windows, and which requests were completed *)

Lemma silent_refl (w : world W) : silent w w.
Proof. done. Qed.

Lemma silent_trans (w1 w2 w3 : world W) : silent w1 w2 -> silent w2 w3 -> silent w1 w3.
Proof. intros [Hp1 Hf1] [Hp2 Hf2]. split; [congruence|]. intros r. by rewrite Hf2. Qed.

Lemma silent_eq (w w' : world W) :
  trace w' = trace w -> reads (vhci w') = reads (vhci w) -> completed w' = completed w -> silent w w'.
Proof. intros Ht Hr Hc. unfold silent, plug_ins, fresh, completed_requests. by rewrite Ht, Hr, Hc. Qed.

Lemma silent_action (w w' : world W) a :
  plug_in_of a = None -> trace w' = trace w ++ [a] -> reads (vhci w') = reads (vhci w) -> completed w' = completed w ->
  silent w w'.
Proof.
  intros Ha Ht Hr Hc. split; [|unfold fresh, completed_requests; by rewrite Hr, Hc].
  unfold plug_ins. rewrite Ht, omap_app. simpl. by rewrite Ha, app_nil_r.
Qed.

Lemma process_event_fobj_silent (w w' : world W) f c evt n : process_event_fobj w f c evt n = Some w' -> silent w w'.
Proof.
  unfold process_event_fobj. destruct (retrieve_by_fileobj (wdf w) (reads (vhci w)) f) as [[st o] x] eqn:E.
  destruct (decide (st = STATUS_SUCCESS)) as [->|Hns].
  { destruct (retrieve_found _ _ _ _ _ E) as (r & -> & Hr & _). simpl. intros [= <-].
    destruct (complete_read_shape (set_reads (set_wdf w x) (filter (.≠ r) (reads (vhci w)))) r evt)
      as (x' & st & info & o & -> & _). split; [done|]. intros q. unfold fresh. rewrite completed_requests_complete.
    change (completed_requests (set_wdf _ x')) with (completed_requests w).
    cbn [complete_request reads vhci set_wdf set_reads set_vhci with_events].
    rewrite !not_elem_of_app, list_elem_of_filter, list_elem_of_singleton. destruct (decide (q = r)) as [->|]; tauto. }
  destruct (decide (st = STATUS_NO_MORE_ENTRIES)) as [->|Hnm].
  { simpl. destruct (collection_add x) as [err y]. destruct (decide (err = STATUS_SUCCESS)) as [->|He]; [by intros [= <-]|].
    destruct err; try done; by intros [= <-]. }
  destruct st; try done; by intros [= <-].
Qed.

Lemma process_event_loop_silent fs (w w' : world W) evt n m :
  process_event_loop fs w evt n = Some (m, w') -> silent w w'.
Proof.
  revert w n. induction fs as [|f fs IH]; intros w n; simpl; [by intros [= _ <-]|].
  destruct (fobj_ctx w !! f) as [c|]; [|done]. simpl. destruct (process_events c); [|apply IH].
  destruct (process_event_fobj w f c evt _) as [w1|] eqn:E; [|done]. simpl. intros Hx.
  eapply silent_trans; [by eapply process_event_fobj_silent|by eapply IH].
Qed.

Lemma device_state_changed_silent (w w' : world W) a p st src :
  device_state_changed unicode_to_utf8 w a p st src = Some w' -> silent w w'.
Proof.
  unfold device_state_changed. pose proof (silent_action w (add_action w (StateChanged a p st)) (StateChanged a p st) eq_refl eq_refl eq_refl eq_refl) as Ha. simpl.
  destruct (events_subscribers (vhci w) =? 0); [by intros [= <-]|].
  destruct (make_device_state unicode_to_utf8 (wdf w) a p st src) as [[evt|] x]; [|by intros [= <-]].
  unfold process_event. destruct (process_event_loop _ _ evt 0) as [[n w1]|] eqn:E; [|done]. intros [= <-].
  eapply silent_trans; [exact Ha|]. by eapply process_event_loop_silent in E.
Qed.

Lemma process_event_fobj_trace (w w' : world W) f c evt n : process_event_fobj w f c evt n = Some w' -> trace w' = trace w.
Proof.
  unfold process_event_fobj. destruct (retrieve_by_fileobj (wdf w) (reads (vhci w)) f) as [[st o] x] eqn:E.
  destruct (decide (st = STATUS_SUCCESS)) as [->|Hns].
  { destruct (retrieve_found _ _ _ _ _ E) as (r & -> & _ & _). simpl. intros [= <-].
    by destruct (complete_read_shape (set_reads (set_wdf w x) (filter (.≠ r) (reads (vhci w)))) r evt) as (x' & st & info & o & -> & _). }
  destruct (decide (st = STATUS_NO_MORE_ENTRIES)) as [->|Hnm].
  { simpl. destruct (collection_add x) as [err y]. destruct err; by intros [= <-]. }
  destruct st; try done; by intros [= <-].
Qed.

Lemma process_event_loop_trace fs (w w' : world W) evt n m :
  process_event_loop fs w evt n = Some (m, w') -> trace w' = trace w.
Proof.
  revert w n. induction fs as [|f fs IH]; intros w n; simpl; [by intros [= _ <-]|].
  destruct (fobj_ctx w !! f) as [c|]; [|done]. simpl. destruct (process_events c); [|apply IH].
  destruct (process_event_fobj w f c evt _) as [w1|] eqn:E; [|done]. simpl. intros Hx.
  apply IH in Hx. by rewrite Hx, (process_event_fobj_trace _ _ _ _ _ _ E).
Qed.

Lemma device_state_changed_trace (w w' : world W) a p st src :
  device_state_changed unicode_to_utf8 w a p st src = Some w' -> trace w' = trace w ++ [StateChanged a p st].
Proof.
  unfold device_state_changed. cbv zeta. destruct (events_subscribers _ =? 0); [by intros [= <-]|].
  destruct (make_device_state unicode_to_utf8 (wdf (add_action w (StateChanged a p st))) a p st src) as [[evt|] x]; [|by intros [= <-]].
  unfold process_event. destruct (process_event_loop _ _ evt 0) as [[n w1]|] eqn:E; [|done]. intros [= <-].
  by apply process_event_loop_trace in E.
Qed.

Lemma same_ports_fresh (w w' : world W) r : same_ports w w' -> fresh w' r <-> fresh w r.
Proof. intros [(l & Hv) _ _ _ Hc]. unfold fresh, completed_requests. by rewrite Hv, Hc. Qed.

Lemma create_attach_request_trace (w : world W) r a : trace (snd (create_attach_request unicode_to_utf8 w r a)) = trace w.
Proof.
  unfold create_attach_request.
  destruct (try_call_eq request_create w) as ([] & x1 & ->); simpl; [|done].
  destruct (try_call_eq memory_create (set_wdf w x1)) as ([] & x2 & ->); simpl; [|done].
  destruct (try_call_eq memory_create (set_wdf (set_wdf w x1) x2)) as ([] & x3 & ->); simpl; [|done].
  match goal with |- context [try_call timer_create ?v] => destruct (try_call_eq timer_create v) as ([] & x4 & ->) end; simpl; [|done].
  destruct (init_attach_ctx _ _ _); [|done]. unfold reattach_req_add. simpl. destruct (collection_add x4) as [err y].
  by destruct err.
Qed.

Lemma send_or_delete_trace (w w' : world W) r : send_or_delete w r = Some w' -> trace w' = trace w.
Proof.
  unfold send_or_delete, send_plugin_hardware, try_call. destruct (format_request (wdf w)) as [err x].
  case_bool_decide; simpl; [|by intros [= <-]]. destruct (attach w !! r); [|done]. simpl.
  destruct (send_request x r) as [[] y]; by intros [= <-].
Qed.

Lemma start_attach_attempts_plugs (w w' : world W) r a delayed :
  start_attach_attempts unicode_to_utf8 w r a delayed = Some w' -> plug_ins w' = plug_ins w.
Proof.
  unfold start_attach_attempts. destruct (removing (vhci w)); [by intros [= <-]|].
  destruct (u32 _ <=? _); [by intros [= <-]|]. pose proof (create_attach_request_trace w r a) as Ht.
  destruct (create_attach_request unicode_to_utf8 w r a) as [[] w1]; simpl in Ht; [|intros [= <-]; unfold plug_ins; by rewrite Ht].
  cbn [negb]. set (w2 := add_action w1 _). assert (plug_ins w2 = plug_ins w) as Hp
    by (transitivity (plug_ins w1); [by apply (silent_action w1 w2 (ReattachStarted r a delayed))|unfold plug_ins; by rewrite Ht]).
  destruct delayed; cbn [negb].
  - destruct (attach w2 !! r); [|done]. by intros [= <-].
  - intros Hx%send_or_delete_trace. unfold plug_ins in *. by rewrite Hx.
Qed.

(** *** No other device is shown *)

Lemma unpresented_eq (w w' : world W) : trace w' = trace w -> unpresented w w'.
Proof. intros Ht. exists []. by rewrite app_nil_r. Qed.

Lemma unpresented_action (w w' : world W) a : ~ presenting a -> trace w' = trace w ++ [a] -> unpresented w w'.
Proof. intros Ha Ht. exists [a]. by rewrite list.Forall_singleton. Qed.

Lemma unpresented_trans (w1 w2 w3 : world W) : unpresented w1 w2 -> unpresented w2 w3 -> unpresented w1 w3.
Proof.
  intros (l1 & Ht1 & Hl1) (l2 & Ht2 & Hl2). exists (l1 ++ l2). split; [by rewrite Ht2, Ht1, app_assoc|]. by apply list.Forall_app.
Qed.

Lemma device_state_changed_unpresented (w w' : world W) a p st src :
  device_state_changed unicode_to_utf8 w a p st src = Some w' -> unpresented w w'.
Proof. intros Hx%device_state_changed_trace. by apply (unpresented_action w w' (StateChanged a p st)); [intros []|]. Qed.

Lemma detach_socket_unpresented (w w' : world W) d : detach_socket unicode_to_utf8 source_of w d = Some w' -> unpresented w w'.
Proof.
  unfold detach_socket. destruct (dev_ctx w !! d) as [c|]; [|done]. simpl. destruct (sock_open c); [|intros [= <-]; by apply unpresented_eq].
  destruct (socket_close (wdf w)) as [err x]. destruct (decide (err = STATUS_SUCCESS)) as [->|He].
  - unfold dev_state_changed. simpl. rewrite lookup_insert_eq. simpl. intros Hx.
    eapply unpresented_trans; [|by eapply device_state_changed_unpresented]. by apply (unpresented_action _ _ (CloseSocket d)); [intros []|].
  - destruct err; try done; intros [= <-]; by apply unpresented_eq.
Qed.

Lemma plugout_and_delete_unpresented (w w' : world W) d a p force :
  plugout_and_delete unicode_to_utf8 source_of w d a p force = Some w' -> unpresented w w'.
Proof.
  unfold plugout_and_delete. destruct (device_state_changed _ w a p unplugging _) as [w1|] eqn:E1; [|done]. simpl.
  apply device_state_changed_unpresented in E1. destruct (usb_device_plug_out_and_delete (wdf w1)) as [err x].
  destruct (decide (err = STATUS_SUCCESS)) as [->|He].
  - destruct (device_state_changed _ _ a p unplugged_state _) as [w2|] eqn:E2; [|done]. simpl.
    apply device_state_changed_unpresented in E2. intros [= <-].
    eapply unpresented_trans; [exact E1|]. assert (unpresented w1 w2) as E12
      by (eapply unpresented_trans; [|exact E2]; by apply (unpresented_action _ _ (PlugOutAndDelete d)); [intros []|]).
    eapply unpresented_trans; [exact E12|]. destruct force; [by apply (unpresented_action _ _ (ObjectDelete d)); [intros []|]|by apply unpresented_eq].
  - intros Hx. assert (w' = set_wdf w1 x) as -> by (destruct err; congruence). eapply unpresented_trans; [exact E1|by apply unpresented_eq].
Qed.

Lemma reclaim_trace (w w' : world W) d p : reclaim_roothub_port w d = Some (p, w') -> trace w' = trace w.
Proof.
  unfold reclaim_roothub_port. destruct (dev_ctx w !! d) as [c|]; [|done]. simpl. destruct (port c =? 0); [by intros [= _ <-]|].
  destruct (devices (vhci w) !! Z.to_nat (port c - 1)); [|done]. by intros [= _ <-].
Qed.

Lemma detach_unpresented (w w' : world W) d plugout r :
  detach unicode_to_utf8 source_of w d plugout false r = Some w' -> unpresented w w'.
Proof.
  unfold detach. destruct (dev_ctx w !! d) as [c|]; [|done]. simpl. destruct (unplugged c); [intros [= <-]; by apply unpresented_eq|].
  destruct (detach_socket _ _ _ d) as [w1|] eqn:E1; [|done]. simpl. apply detach_socket_unpresented in E1.
  unfold recv_thread_join. destruct (dev_ctx w1 !! d) as [c1|]; [|done]. simpl.
  destruct (reclaim_roothub_port _ d) as [[p w2]|] eqn:E2; [|done]. simpl. apply reclaim_trace in E2.
  destruct (dev_ctx w2 !! d) as [c2|]; [|done]. simpl. intros Hx.
  eapply unpresented_trans; [exact E1|]. eapply unpresented_trans; [by apply unpresented_eq|].
  destruct plugout; [|by injection Hx as <-; apply unpresented_eq]. simpl in Hx.
  destruct (plugout_and_delete _ _ w2 d _ _ _) as [w3|] eqn:E3; [|done]. injection Hx as <-. by eapply plugout_and_delete_unpresented.
Qed.

(** *** Notifications and attempts *)

Lemma device_state_changed_core w a p st src :
  hub_core w -> exists w', device_state_changed unicode_to_utf8 w a p st src = Some w' /\ hub_core w' /\
                           same_hub w w' /\ silent w w'.
Proof.
  intros Hw. destruct (device_state_changed_ok unicode_to_utf8 w a p st src (wf_events w Hw)) as (w' & Hx & He & _ & Hs).
  exists w'. split; [done|]. split; [by eapply core_hub|]. split; [done|]. by eapply device_state_changed_silent.
Qed.

Lemma start_attach_attempts_core w r a delayed :
  hub_core w -> attach w !! r = None -> r ∉ reattach_req (vhci w) ->
  exists w', start_attach_attempts unicode_to_utf8 w r a delayed = Some w' /\ hub_core w' /\ same_ports w w' /\ silent w w'.
Proof.
  intros Hw Hr Hn. destruct (start_attach_attempts_ok unicode_to_utf8 w r a delayed (wf_attempts w Hw) Hr Hn) as (w' & Hx & Ha & Hs).
  exists w'. split; [done|]. split; [by eapply core_ports|]. split; [done|]. split; [by eapply start_attach_attempts_plugs|].
  intros q. by apply same_ports_fresh.
Qed.

(** *** Detaching *)

(** The device table and the attempts, without the events. *)
Record frame (w w' : world W) : Prop := {
  fr_slots : devices (vhci w') = devices (vhci w);
  fr_cnt : devices_cnt (vhci w') = devices_cnt (vhci w) /\ usb2_ports (vhci w') = usb2_ports (vhci w);
  fr_removing : removing (vhci w') = removing (vhci w);
  fr_attach : attach w' = attach w /\ reattach_req (vhci w') = reattach_req (vhci w);
  fr_silent : silent w w' }.

Lemma frame_hub w w' : same_hub w w' -> silent w w' -> frame w w'.
Proof. intros [(a & b & c & Hv) ? ? ?] ?. constructor; rewrite ?Hv; auto. Qed.

Lemma frame_trans w1 w2 w3 : frame w1 w2 -> frame w2 w3 -> frame w1 w3.
Proof.
  intros [? [] ? [] ?] [? [] ? [] ?]. constructor; try (by eapply silent_trans); try split; congruence.
Qed.

Lemma detach_socket_core w d c :
  hub_core w -> dev_ctx w !! d = Some c ->
  exists w' c', detach_socket unicode_to_utf8 source_of w d = Some w' /\ hub_core w' /\ frame w w' /\
    dev_ctx w' = <[d := c']> (dev_ctx w) /\
    c' = set_dev_flags c false (recv_thread c) (unplugged c) (ep0_added c).
Proof.
  intros Hw Hc. unfold detach_socket. rewrite Hc. simpl. destruct (sock_open c) eqn:Es.
  - destruct (socket_close (wdf w)) as [err x]. set (c' := set_dev_flags c false _ _ _).
    assert (hub_core (set_dev (set_wdf w x) d c')) as Hw1 by (by apply (core_flags _ d c); [apply core_wdf|..]).
    destruct (decide (err = STATUS_SUCCESS)) as [->|He].
    + unfold dev_state_changed. simpl. rewrite lookup_insert_eq. simpl.
      destruct (device_state_changed_core (add_action (set_dev (set_wdf w x) d c') (CloseSocket d)) (attr c) (port c)
                  disconnected (source_of d)) as (w' & Hx & Hw' & Hs & Hq); [by apply core_action|].
      exists w', c'. split; [exact Hx|]. split; [done|]. split; [|split; [|done]].
      * eapply frame_trans; [|by apply (frame_hub _ _ Hs)]. constructor; try done. by apply (silent_action _ _ (CloseSocket d)).
      * by rewrite (sh_devs _ _ Hs).
    + exists (set_dev (set_wdf w x) d c'), c'. split; [by destruct err|]. split; [done|]. split; [by constructor|done].
  - exists w, c. split_and!; try done; [symmetry; by apply insert_id|]. destruct c; simpl in *. by rewrite Es.
Qed.

(** What detaching leaves of a device. *)
Definition gone (w : world W) (d : device) : Prop :=
  match dev_ctx w !! d with
  | None => True
  | Some c => unplugged c = true /\ port c = 0 /\ sock_open c = false /\ recv_thread c = false
  end.

Record released (w w' : world W) (d : device) (reattach : bool) : Prop := {
  rl_others : forall e, e <> d -> dev_ctx w' !! e = dev_ctx w !! e;
  rl_gone : gone w' d;
  rl_slots : forall i, devices (vhci w') !! i = 
                         if decide (devices (vhci w) !! i = Some (Some d)) then Some None else devices (vhci w) !! i;
  rl_cnt : devices_cnt (vhci w') = devices_cnt (vhci w) /\ usb2_ports (vhci w') = usb2_ports (vhci w);
  rl_removing : removing (vhci w') = removing (vhci w);
  rl_attach : reattach = false \/ removing (vhci w) = true -> attach w' = attach w /\ reattach_req (vhci w') = reattach_req (vhci w);
  rl_silent : silent w w' }.

Lemma plugout_and_delete_core w d c a p force :
  hub_core w -> dev_ctx w !! d = Some c -> port c = 0 ->
  exists w', plugout_and_delete unicode_to_utf8 source_of w d a p force = Some w' /\ hub_core w' /\ frame w w' /\
    (forall e, e <> d -> dev_ctx w' !! e = dev_ctx w !! e) /\
    (dev_ctx w' !! d = None \/ dev_ctx w' !! d = Some c).
Proof.
  intros Hw Hc Hp. unfold plugout_and_delete.
  destruct (device_state_changed_core w a p unplugging (source_of d) Hw) as (w1 & -> & Hw1 & Hs1 & Hq1). simpl.
  destruct (usb_device_plug_out_and_delete (wdf w1)) as [err x].
  assert (dev_ctx w1 = dev_ctx w) as Hd1 by apply Hs1.
  destruct (decide (err = STATUS_SUCCESS)) as [->|He].
  - destruct (device_state_changed_core (add_action (set_wdf w1 x) (PlugOutAndDelete d)) a p unplugged_state (source_of d))
      as (w2 & -> & Hw2 & Hs2 & Hq2); [by apply core_action, core_wdf|]. simpl.
    assert (dev_ctx w2 = dev_ctx w) as Hd2 by (rewrite (sh_devs _ _ Hs2); done).
    assert (frame w w2) as Hf.
    { eapply frame_trans; [by apply frame_hub|]. eapply frame_trans; [|by apply (frame_hub _ _ Hs2)].
      constructor; try done. by apply (silent_action _ _ (PlugOutAndDelete d)). }
    destruct force; eexists; (split; [reflexivity|]).
    + split; [apply (core_delete w2 d c); [done|by rewrite Hd2|done]|]. split; [eapply frame_trans; [exact Hf|]; constructor; try done; by apply (silent_action _ _ (ObjectDelete d))|].
      simpl. rewrite Hd2. split; [intros e He; by rewrite lookup_delete_ne|]. left. apply lookup_delete_eq.
    + split; [done|]. split; [done|]. rewrite Hd2. auto.
  - exists (set_wdf w1 x). split; [by destruct err|]. split; [by apply core_wdf|]. simpl. rewrite Hd1.
    split; [|auto]. eapply frame_trans; [by apply frame_hub|]. by constructor.
Qed.

Lemma detach_core w d c plugout reattach r :
  hub_core w -> dev_ctx w !! d = Some c -> unplugged c = false ->
  (reattach = true -> attach w !! r = None /\ r ∉ reattach_req (vhci w)) ->
  exists w', detach unicode_to_utf8 source_of w d plugout reattach r = Some w' /\ hub_core w' /\ released w w' d reattach.
Proof.
  intros Hw Hc Hu Hr. unfold detach. rewrite Hc. simpl. rewrite Hu.
  set (c1 := set_dev_flags c (sock_open c) (recv_thread c) true (ep0_added c)). set (w1 := set_dev w d c1).
  assert (hub_core w1) as Hw1 by (by apply (core_flags w d c)).
  assert (dev_ctx w1 !! d = Some c1) as Hc1 by (simpl; apply lookup_insert_eq).
  destruct (detach_socket_core w1 d c1 Hw1 Hc1) as (w2 & c2 & -> & Hw2 & Hf2 & Hd2 & Hc2). simpl.
  assert (dev_ctx w2 !! d = Some c2) as Hl2 by (rewrite Hd2; apply lookup_insert_eq).
  unfold recv_thread_join. rewrite Hl2. simpl. set (c3 := set_dev_flags c2 _ _ _ _). set (w3 := set_dev w2 d c3).
  assert (hub_core w3) as Hw3 by (by apply (core_flags w2 d c2)).
  assert (dev_ctx w3 !! d = Some c3) as Hl3 by (simpl; apply lookup_insert_eq).
  destruct (reclaim_ok w3 d c3 (wf_ports w3 Hw3) Hl3) as (w4 & -> & Hp4 & Hd4 & Hs4 & Hfo & Hco & Htr & _ & Hat4 & Hv4). simpl.
  assert (frame w w3) as Hf3.
  { eapply frame_trans; [|eapply frame_trans; [exact Hf2|]]; by constructor. }
  assert (dev_ctx w4 !! d = Some (with_port c3 0)) as Hl4 by (rewrite Hd4; apply lookup_insert_eq).
  rewrite Hl4. simpl.
  assert (hub_core w4) as Hw4.
  { destruct Hw3 as [_ [] []]. constructor; [done| |].
    - constructor; unfold completed_requests, subscribed in *; rewrite ?Hfo, ?Hco, Hv4; auto.
    - constructor; unfold reattach_req_count in *; rewrite ?Hat4, Hv4; auto. }
  assert (forall e, e <> d -> dev_ctx w4 !! e = dev_ctx w !! e) as Ho4.
  { intros e He. rewrite Hd4, lookup_insert_ne by done. simpl. rewrite lookup_insert_ne, Hd2, lookup_insert_ne by done.
    simpl. by rewrite lookup_insert_ne. }
  assert (frame w w3 /\ silent w w4) as [_ Hq4].
  { split; [done|]. eapply silent_trans; [exact (fr_silent _ _ Hf3)|]. apply silent_eq; auto. by rewrite Hv4. }
  assert (released w w4 d false) as Hrel4.
  { constructor; auto.
    - unfold gone. rewrite Hl4. subst c2. done.
    - intros i. rewrite Hs4, (fr_slots _ _ Hf3). done.
    - rewrite Hv4. simpl. apply (fr_cnt _ _ Hf3).
    - rewrite Hv4. simpl. apply (fr_removing _ _ Hf3).
    - intros _. rewrite Hat4, Hv4. apply (fr_attach _ _ Hf3). }
  assert (exists w5, (if plugout then plugout_and_delete unicode_to_utf8 source_of w4 d (attr c2) (port c2)
                      (negb (ep0_added c2))
                      else Some w4) = Some w5 /\ hub_core w5 /\ released w w5 d false) as (w5 & -> & Hw5 & Hrel5).
  { destruct plugout; [|eauto].
    destruct (plugout_and_delete_core w4 d _ (attr c2) (port c2) (negb (ep0_added c2)) Hw4 Hl4 eq_refl)
      as (w5 & Hx & Hw5 & [Hsl [Hc5 Hu5] Hrm Hat5 Hq5] & Ho5 & Hcase). exists w5. split; [done|]. split; [done|].
    destruct Hrel4 as [_ Hg Hs [Hc1' Hc2'] Hrm4 Ha4 _]. constructor.
    - intros e He. by rewrite Ho5, Ho4.
    - unfold gone in *. destruct Hcase as [->| ->]; [done|]. by rewrite Hl4 in Hg.
    - by rewrite Hsl.
    - split; congruence.
    - congruence.
    - intros Hra. destruct (Ha4 Hra), Hat5. split; congruence.
    - by eapply silent_trans. }
  simpl. destruct reattach; [|eauto].
  destruct (Hr eq_refl) as [Hr1 Hr2]. destruct Hrel5 as [Ho Hg Hs Hcn Hrm Hat Hq]. destruct (Hat (or_introl eq_refl)) as [Hat5 Hrq5].
  destruct (start_attach_attempts_core w5 r (attr c2) plugout Hw5)
    as (w6 & Hx6 & Hw6 & [(l & Hv6) Hd6 _ _ _] & Hq6); [congruence|by rewrite Hrq5|].
  exists w6. split; [done|]. split; [done|].
  constructor; unfold gone in *; rewrite ?Hd6, ?Hv6; auto; [|by eapply silent_trans].
  intros [?|Hrm1]; [done|]. unfold start_attach_attempts in Hx6. rewrite Hrm, Hrm1 in Hx6. injection Hx6 as <-.
  split; [done|]. by rewrite <- Hrq5, Hv6.
Qed.

Lemma detach_wf w d c plugout reattach r :
  hub_wf w -> dev_ctx w !! d = Some c ->
  (reattach = true -> attach w !! r = None /\ r ∉ reattach_req (vhci w)) ->
  exists w', detach unicode_to_utf8 source_of w d plugout reattach r = Some w' /\ hub_wf w' /\
    (unplugged c = true -> w' = w) /\
    (forall i, devices (vhci w') !! i = if decide (devices (vhci w) !! i = Some (Some d)) then Some None else devices (vhci w) !! i) /\
    (forall e, e <> d -> dev_ctx w' !! e = dev_ctx w !! e) /\
    (devices_cnt (vhci w') = devices_cnt (vhci w) /\ usb2_ports (vhci w') = usb2_ports (vhci w)) /\
    (unplugged c = false -> gone w' d) /\
    removing (vhci w') = removing (vhci w) /\
    (reattach = false \/ removing (vhci w) = true ->
       attach w' = attach w /\ reattach_req (vhci w') = reattach_req (vhci w)) /\ silent w w'.
Proof.
  intros Hw Hc Hr. destruct (unplugged c) eqn:Eu.
  - exists w. assert (detach unicode_to_utf8 source_of w d plugout reattach r = Some w) as ->
      by (unfold detach; rewrite Hc; simpl; by rewrite Eu).
    split_and!; auto using silent_refl; [|done]. intros i. case_decide as Hi; [|done].
    destruct (ports_slot w (wf_ports w (wf_core w Hw)) i d Hi) as (c' & Hc' & Hp & _).
    pose proof (wf_unplugged w Hw d c Hc Eu). rewrite Hc in Hc'. simplify_eq. lia.
  - destruct (detach_core w d c plugout reattach r (wf_core w Hw) Hc Eu Hr) as (w' & -> & Hw' & [Ho Hg Hs Hcn Hrm Hat Hq]).
    exists w'. split; [done|]. split; [|done]. constructor; [done|]. intros e ce He Hue.
    destruct (decide (e = d)) as [->|Hne]; [unfold gone in Hg; rewrite He in Hg; tauto|].
    rewrite Ho in He by done. by apply (wf_unplugged w Hw e).
Qed.

(** *** All ports *)

Lemma detach_ports_wf n p w plugout :
  hub_wf w -> 1 <= p -> p - 1 + Z.of_nat n <= devices_cnt (vhci w) ->
  exists w', detach_ports unicode_to_utf8 source_of n p w plugout = Some w' /\ hub_wf w' /\
    (devices_cnt (vhci w') = devices_cnt (vhci w) /\ usb2_ports (vhci w') = usb2_ports (vhci w)) /\
    (forall i, devices (vhci w') !! i = devices (vhci w) !! i \/ devices (vhci w') !! i = Some None) /\
    (forall i, p - 1 <= Z.of_nat i < p - 1 + Z.of_nat n -> devices (vhci w') !! i = Some None) /\
    removing (vhci w') = removing (vhci w) /\ attach w' = attach w /\ reattach_req (vhci w') = reattach_req (vhci w) /\
    silent w w'.
Proof.
  revert p w. induction n as [|n IH]; intros p w Hw Hp Hn; simpl.
  - exists w. split_and!; auto using silent_refl. lia.
  - pose proof (wf_ports w (wf_core w Hw)) as Hpo. pose proof (ports_ok_array w Hpo) as Hlen.
    destruct (get_device_spec w p Hpo) as (o & Ho & Hspec). rewrite Ho. simpl.
    assert (exists w1, match o with Some d => detach unicode_to_utf8 source_of w d plugout false 1%positive | None => Some w end
              = Some w1 /\ hub_wf w1 /\ (devices_cnt (vhci w1) = devices_cnt (vhci w) /\ usb2_ports (vhci w1) = usb2_ports (vhci w)) /\
              (forall i, devices (vhci w1) !! i = devices (vhci w) !! i \/ devices (vhci w1) !! i = Some None) /\
              devices (vhci w1) !! Z.to_nat (p - 1) = Some None /\
              removing (vhci w1) = removing (vhci w) /\ attach w1 = attach w /\
              reattach_req (vhci w1) = reattach_req (vhci w) /\ silent w w1)
      as (w1 & Hx & Hw1 & [Hc1 Hu1] & Hs1 & Hz1 & Hrm1 & Ha1 & Hq1 & Hsl1).
    { unfold get_device, is_valid_port in Ho. replace ((0 <? p) && (p <=? devices_cnt (vhci w))) with true in Ho by lia.
      destruct o as [d|].
      - destruct Hspec as (c & Hc & Hpc & _). destruct (detach_wf w d c plugout false 1%positive Hw Hc)
          as (w1 & Hx & Hw1 & _ & Hs & _ & [Hcn Hu] & _ & Hrm & Hat & Hq); [done|].
        destruct (Hat (or_introl eq_refl)). exists w1. split_and!; auto; try apply Hq.
        + intros i. rewrite Hs. case_decide; auto.
        + by rewrite Hs, decide_True.
      - exists w. split_and!; auto using silent_refl. }
    rewrite Hx. simpl. destruct (IH (p + 1) w1 Hw1) as (w' & Hx' & Hw' & [Hc' Hu'] & Hs' & Hz' & Hrm' & Ha' & Hq' & Hsl');
      [lia|lia|].
    exists w'. split; [exact Hx'|]. split; [done|]. split; [split; congruence|]. split; [|split; [|split_and!; try congruence]].
    + intros i. destruct (Hs' i) as [->|]; auto.
    + intros i Hi. destruct (decide (i = Z.to_nat (p - 1))) as [->|Hne].
      * destruct (Hs' (Z.to_nat (p - 1))) as [->|]; auto.
      * apply Hz'. lia.
    + by eapply silent_trans.
Qed.

(** *** Plugging in *)

Lemma recv_thread_start_core w d c :
  hub_core w -> dev_ctx w !! d = Some c ->
  exists st w', recv_thread_start w d = Some (st, w') /\ hub_core w' /\ frame w w' /\ trace w' = trace w /\
    (if bool_decide (st = STATUS_SUCCESS)
     then dev_ctx w' = <[d := set_dev_flags c (sock_open c) true (unplugged c) (ep0_added c)]> (dev_ctx w)
     else dev_ctx w' = dev_ctx w).
Proof.
  intros Hw Hc. unfold recv_thread_start. destruct (create_system_thread (wdf w)) as [err x].
  destruct (decide (err = STATUS_SUCCESS)) as [->|He].
  - simpl. rewrite Hc. simpl. eexists _, _. split; [done|]. split.
    + by apply (core_flags _ d c); [apply core_wdf|..].
    + split; [by constructor|done].
  - exists err, (set_wdf w x). split; [by destruct err|]. split; [by apply core_wdf|].
    split; [by constructor|]. split; [done|]. by rewrite bool_decide_false.
Qed.

Record plugged_in (w w' : world W) (d : device) (c : device_ctx) (st : ntstatus) (p : Z) (b : bool) : Prop := {
  pi_dev : exists c', dev_ctx w' = <[d := c']> (dev_ctx w) /\ attr c' = attr c /\ port c' = p /\
      unplugged c' = unplugged c /\ sock_open c' = sock_open c /\ ep0_added c' = ep0_added c /\
      (st = STATUS_SUCCESS -> recv_thread c' = true);
  pi_slots : forall i, devices (vhci w') !! i = if decide (Z.of_nat i + 1 = p) then Some (Some d) else devices (vhci w) !! i;
  pi_port : (p = 0 <-> forall i, in_range (vhci w) (dev_speed c) i -> occupied (devices (vhci w)) i) /\
      (p = 0 -> st = USBIP_ERROR_PORTFULL) /\ (p <> 0 -> in_range (vhci w) (dev_speed c) (p - 1));
  pi_success : st = STATUS_SUCCESS -> p <> 0 /\ b = true;
  pi_trace : trace w' = trace w ++ (if b then [PlugIn d (dev_speed c <? USB_SPEED_SUPER) p] else []);
  pi_cnt : devices_cnt (vhci w') = devices_cnt (vhci w) /\ usb2_ports (vhci w') = usb2_ports (vhci w);
  pi_free : p <> 0 -> devices (vhci w) !! Z.to_nat (p - 1) = Some None;
  pi_removing : removing (vhci w') = removing (vhci w);
  pi_fresh : forall r, fresh w' r <-> fresh w r;
  pi_attach : attach w' = attach w /\ reattach_req (vhci w') = reattach_req (vhci w) }.

Lemma plugin_core w d c :
  hub_core w -> dev_ctx w !! d = Some c -> port c = 0 ->
  exists st p b w', plugin w d = Some (st, p, b, w') /\ hub_core w' /\ plugged_in w w' d c st p b.
Proof.
  intros Hw Hc Hp. unfold plugin.
  destruct (claim_ok w d c (wf_ports w Hw) Hc Hp) as (p & w1 & -> & Hp1 & Hcase). simpl.
  destruct Hcase as [(-> & -> & Ho)|(Hpos & Hr & Hf & Ho & ->)].
  - simpl. eexists _, _, _, _. split; [reflexivity|]. split; [done|]. constructor; try done.
    + exists c. split; [symmetry; by apply insert_id|]. split_and!; done.
    + intros i. by rewrite decide_False by lia.
    + by rewrite app_nil_r.
  - destruct (Z.eqb_spec p 0); [lia|]. set (w1 := set_dev _ d (with_port c p)) in *.
    assert (dev_ctx w1 !! d = Some (with_port c p)) as Hc1 by (simpl; apply lookup_insert_eq). rewrite Hc1. simpl.
    assert (hub_core w1) as Hw1.
    { destruct Hw as [_ He Ha]. constructor; [done| |]; [by destruct He; constructor|by destruct Ha; constructor]. }
    assert (forall i, devices (vhci w1) !! i = if decide (Z.of_nat i + 1 = p) then Some (Some d) else devices (vhci w) !! i) as Hsl.
    { intros i. simpl. unfold free_slot in Hf. case_decide as Hi.
      - replace (Z.to_nat (p - 1)) with i in * by lia. apply list_lookup_insert_eq, (lookup_lt_Some _ _ _ Hf).
      - apply list_lookup_insert_ne. lia. }
    assert ((p = 0 <-> forall i, in_range (vhci w) (dev_speed c) i -> occupied (devices (vhci w)) i) /\
            (p <> 0 -> in_range (vhci w) (dev_speed c) (p - 1))) as [Hiff Hin].
    { split; [|done]. split; [lia|]. intros Hall. destruct (Hall _ Hr) as [e He]. unfold free_slot in Hf. congruence. }
    destruct (usb_device_plug_in (wdf w)) as [err x]. destruct (decide (err = STATUS_SUCCESS)) as [->|He].
    + match goal with |- context [recv_thread_start ?w' d] => set (w2 := w') end.
      destruct (recv_thread_start_core w2 d (with_port c p)) as (st & w3 & Hx & Hw3 & Hf3 & Ht3 & Hd3);
        [by apply core_action, core_wdf|done|].
      rewrite Hx. simpl. eexists _, _, _, _. split; [reflexivity|]. split; [done|].
      assert (exists c', dev_ctx w3 = <[d := c']> (dev_ctx w) /\ attr c' = attr c /\ port c' = p /\
        unplugged c' = unplugged c /\ sock_open c' = sock_open c /\ ep0_added c' = ep0_added c /\
        (st = STATUS_SUCCESS -> recv_thread c' = true)) as Hdev.
      { case_bool_decide; rewrite Hd3; simpl; rewrite ?insert_insert_eq; eexists; (split; [reflexivity|]); split_and!; done. }
      constructor.
      * exact Hdev.
      * intros i. by rewrite (fr_slots _ _ Hf3).
      * split; [exact Hiff|]. split; [lia|done].
      * done.
      * by rewrite Ht3.
      * apply (fr_cnt _ _ Hf3).
      * by intros _.
      * apply (fr_removing _ _ Hf3).
      * apply (fr_silent _ _ Hf3).
      * apply (fr_attach _ _ Hf3).
    + exists err, p, false, (set_wdf w1 x). split; [by destruct err|]. split; [by apply core_wdf|].
      constructor; [|exact Hsl| |done| |done..].
      * exists (with_port c p). split; [done|]. split_and!; done.
      * split; [exact Hiff|]. split; [lia|done].
      * by rewrite app_nil_r.
Qed.
End invariant.
