(* ===== verification/Ioctl.v ===== *)
(** * The controller's requests

    drivers/ude/vhci_ioctl.cpp and the parts of drivers/ude/context.cpp it uses: the
    IOCTLs that plug devices in and out, list them, stop attach attempts and keep the
    list of persistent devices; and the work item that connects to a server, imports a
    device and plugs it in.  A request's buffer is the system buffer of METHOD_BUFFERED
    requests: input and output share it, and what the caller did not supply is whatever
    the memory held before. *)

From S2P Require Import Prelude Parser DescPatch Policy Session Filter Vhci Events Attach Device.

(** ** Structures of the public interface *)

Definition sizeof_location : Z := 1096.
Definition sizeof_imported_device : Z := 1128.
Definition imported_devices_offset : Z := 4.
Definition sizeof_get_imported_devices : Z := 1132.
Definition sizeof_plugout_hardware : Z := 8.
Definition sizeof_stop_attach_attempts : Z := 1104.

(** base::size, then the port, busid, service and host of imported_device_location. *)
Definition location_of_bytes (buf : list byte) : imported_device_location :=
  {| loc_port := s32 (Policy.field 4 4 buf); loc_busid := take 32 (drop 8 buf);
     loc_service := take 32 (drop 40 buf); loc_host := take 1025 (drop 72 buf) |}.

Definition plugin_of_bytes (buf : list byte) : plugin_hardware :=
  {| ph_size := Policy.field 0 4 buf; ph_location := location_of_bytes buf; ph_serial := take 16 (drop 1100 buf) |}.

(** vhci::ioctl::function *)
Inductive code : Type :=
| PLUGIN_HARDWARE | PLUGOUT_HARDWARE | GET_IMPORTED_DEVICES | SET_PERSISTENT | GET_PERSISTENT
| STOP_ATTACH_ATTEMPTS | PLUGIN_HARDWARE_ONCE | PLUGOUT_HARDWARE_AND_REATTACH
| SET_DEVICE_FILTER | GET_DEVICE_FILTER | OtherCode.

Definition PORT_ALL_CLOSEONLY : Z := -2.
Definition PORT_ALL : Z := -1.

(** ** Device attributes of a location (context.cpp) *)

Section attributes.
(** RtlUTF8ToUnicodeN on the characters; hashing; the pool. *)
Context (utf8_to_unicode_n : list byte -> ntstatus * list Z).
Context (hash_string : list Z -> ntstatus * Z) (pool : Z -> bool).

(** libdrv::utf8_to_unicode into an empty string: what it holds afterwards. *)
Definition utf8_to_unicode (src : list byte) : ntstatus * list Z :=
  if negb (bool_decide (x00 ∈ src)) then (STATUS_INVALID_PARAMETER, [])
  else
    let '(st, s) := utf8_to_unicode_n (c_string src) in
    if NT_ERROR st then (st, [])
    else if pool (2 * Z.of_nat (length s)) then (st, s) else (STATUS_INSUFFICIENT_RESOURCES, []).

(** save_device_location: an empty source leaves the string as it is. *)
Definition save_one (old : list Z) (src : list byte) : ntstatus * list Z :=
  if bool_decide (hd x00 src = x00) then (STATUS_SUCCESS, old) else utf8_to_unicode src.

Definition with_location (a : device_attributes) (host service bus : list Z) : device_attributes :=
  {| node_name := host; service_name := service; busid := bus; location_hash := location_hash a; properties := properties a |}.

Definition save_device_location (a : device_attributes) (r : imported_device_location) : ntstatus * device_attributes :=
  let '(st, host) := save_one (node_name a) (loc_host r) in
  let a := with_location a host (service_name a) (busid a) in
  match st with
  | STATUS_SUCCESS =>
      let '(st, service) := save_one (service_name a) (loc_service r) in
      let a := with_location a (node_name a) service (busid a) in
      match st with
      | STATUS_SUCCESS =>
          let '(st, bus) := save_one (busid a) (loc_busid r) in
          (st, with_location a (node_name a) (service_name a) bus)
      | st => (st, a)
      end
  | st => (st, a)
  end.

(** init_device_attributes; whatever the status, the strings made so far are in the result. *)
Definition init_device_attributes (a : device_attributes) (r : imported_device_location) : ntstatus * device_attributes :=
  let '(st, a) := save_device_location a r in
  match st with
  | STATUS_SUCCESS =>
      match hash_location hash_string pool a with
      | Ok h => (STATUS_SUCCESS, with_hash a h)
      | Err err => (err, with_hash a 0)
      end
  | st => (st, a)
  end.

(** create_device_ctx_ext after its memory has been allocated. *)
Definition create_device_ctx_ext (r : plugin_hardware) : ntstatus * device_attributes :=
  let '(st, a) := init_device_attributes zero_attributes (ph_location r) in
  match st with
  | STATUS_SUCCESS =>
      let '(st, srl) := copy_string SERIAL_BUFSZ (ph_serial r) in
      (st, with_names a (node_name a) (service_name a) (busid a) srl)
  | st => (st, a)
  end.
End attributes.

(** ** Connecting, importing and plugging in *)

(** What is left to do for a plug-in request: [wi_ext] are the attributes the work item
    owns, [wi_addrs] the addresses to try (None until getaddrinfo answered), the first one
    being tried. *)
Record workitem : Type := {
  wi_request : request; wi_ext : option device_attributes; wi_sock : bool;
  wi_addrs : option (list Z); one_attempt : bool; wi_port : Z }.

Section plug.
Context {W : Type} `{Wdf W} `{AttachWdf W} `{Udecx W}.
Context {N : Type} `{Net N} {R : Type} `{Policy.Registry R}.
Context (unicode_to_utf8 : nat -> list Z -> ntstatus * list byte).
Context (USBD_ParseDescriptors : list byte -> Z -> nat -> Z -> option nat).
Context (source_of : device -> Z) (reg : R) (stack : list byte).

Definition no_snapshot : descriptor_snapshot :=
  {| snap_device := []; configurations := None; configuration_count := 0; ready := false |}.

(** The device_ctx_ext of the import, and the attributes after it. *)
Definition import_ext (a : device_attributes) : device_ctx_ext :=
  {| ext_busid := busid a; ext_devid := devid (properties a); ext_speed := speed (properties a);
     ext_vendor := vendor (properties a); ext_product := product (properties a);
     ext_serial := serial (properties a); ext_iserial := iserial (properties a); descriptors := no_snapshot |}.

Definition with_import (a : device_attributes) (e : device_ctx_ext) : device_attributes :=
  {| node_name := node_name a; service_name := service_name a; busid := busid a; location_hash := location_hash a;
     properties := {| devid := ext_devid e; speed := ext_speed e; vendor := ext_vendor e; product := ext_product e;
                      serial := ext_serial e; iserial := ext_iserial e |} |}.

(** connected: the status, the port, the network, and who owns the attributes: the work
    item ([Some]) or the device. *)
Definition connected (w : world W) (n : N) (a : device_attributes) (d : device)
  : option (ntstatus * Z * N * option device_attributes * world W) :=
  w ← device_state_changed unicode_to_utf8 w a 0 connected (source_of d);
  imp ← import_remote_device USBD_ParseDescriptors unicode_to_utf8 reg stack (mk_state n (import_ext a) 0 []);
  let '(r, fs) := imp in
  let n := net fs in
  let a := with_import a (ext fs) in
  match (r : res unit) with
  | Err err => Some (err, 0, n, Some a, w)
  | Ok _ =>
      res ← create w d a (descriptors (ext fs));
      let '(err, w) := res in
      match err with
      | STATUS_SUCCESS =>
          res ← plugin w d;
          let '(err, portnum, plugged_in, w) := res in
          match err with
          | STATUS_SUCCESS =>
              w ← dev_state_changed unicode_to_utf8 source_of w d plugged;
              Some (STATUS_SUCCESS, portnum, n, None, w)
          | err =>
              w ← detach unicode_to_utf8 source_of w d plugged_in false 1%positive;
              Some (err, portnum, n, None, if (plugged_in : bool) then w else object_delete w d)
          end
      | err => Some (err, 0, n, Some a, w)
      end
  end.

(** The attributes [complete] still refers to after [connected]: those of the work item, or
    those of the device, which are gone when the device is. *)
Definition ext_after (w : world W) (d : device) (own : option device_attributes) : option device_attributes :=
  match own with Some a => Some a | None => attr <$> dev_ctx w !! d end.

(** create_socket and connect: the socket exists only when everything succeeded or a later
    step failed; [sock] are the answers of socket, set_options and bind, in this order. *)
Definition create_socket (sock : ntstatus * ntstatus * ntstatus) : ntstatus * bool :=
  let '(s, o, b) := sock in
  match s with
  | STATUS_SUCCESS =>
      match o with
      | STATUS_SUCCESS => match b with STATUS_SUCCESS => (STATUS_SUCCESS, true) | err => (err, true) end
      | err => (err, true)
      end
  | err => (err, false)
  end.

Definition connect (wi : workitem) (addrs : list Z) (sock : ntstatus * ntstatus * ntstatus) : ntstatus * workitem :=
  let '(err, has_sock) := create_socket sock in
  match err with
  | STATUS_SUCCESS =>
      (STATUS_PENDING, {| wi_request := wi_request wi; wi_ext := wi_ext wi; wi_sock := true;
                          wi_addrs := Some addrs; one_attempt := one_attempt wi; wi_port := wi_port wi |})
  | err =>
      (err, {| wi_request := wi_request wi; wi_ext := wi_ext wi; wi_sock := has_sock;
               wi_addrs := wi_addrs wi; one_attempt := one_attempt wi; wi_port := wi_port wi |})
  end.

(** The request is still pending, or it was completed with a status and the port in its buffer. *)
Inductive outcome : Type :=
| Pending (wi : workitem)
| Finished (st : ntstatus) (portnum : Z).

Definition set_owner (wi : workitem) (own : option device_attributes) (sock : bool) (p : Z) : workitem :=
  {| wi_request := wi_request wi; wi_ext := own; wi_sock := sock; wi_addrs := wi_addrs wi;
     one_attempt := one_attempt wi; wi_port := p |}.

(** on_connect with the status [st] of the connection: the status, the new work item, and
    the attributes that are still there. *)
Definition on_connect (w : world W) (n : N) (wi : workitem) (a : device_attributes) (rest : list Z) (d : device)
    (st : ntstatus) (sock : ntstatus * ntstatus * ntstatus)
  : option (ntstatus * workitem * option device_attributes * N * world W) :=
  if NT_SUCCESS st then
    res ← connected w n a d;
    let '(st, p, n, own, w) := res in
    Some (st, set_owner wi own (bool_decide (is_Some own)) p, ext_after w d own, n, w)
  else
    let wi := set_owner wi (wi_ext wi) false (wi_port wi) in
    match rest with
    | next :: _ =>
        if bool_decide (st = STATUS_CANCELLED) then Some (st, wi, Some a, n, w)
        else let '(st, wi) := connect wi rest sock in Some (st, wi, Some a, n, w)
    | [] => Some (st, wi, Some a, n, w)
    end.

(** workitem_cleanup: the device may own the attributes by now. *)
Definition workitem_cleanup (w : world W) (wi : workitem) (d : device) : option (world W) :=
  match wi_ext wi with
  | Some a => device_state_changed unicode_to_utf8 w a 0 disconnected (source_of d)
  | None => Some w
  end.

(** offsetof(plugin_hardware, port) + sizeof(port) *)
Definition plugin_written : Z := 8.

(** The first half of complete: the next step of the connection.  [addrs] is the answer of
    getaddrinfo, [d] the handle of the device that may be created.  What complete does first is to
    read the flag [removing] of the controller; [seen] is what it read.  The rest may take long: the
    import waits for the server, while other requests change the controller. *)
Definition complete_step (w : world W) (seen : bool) (n : N) (wi : workitem) (a : device_attributes) (addrs : list Z) (d : device)
    (st : ntstatus) (sock : ntstatus * ntstatus * ntstatus)
  : option (ntstatus * workitem * option device_attributes * N * world W) :=
  if seen then Some (STATUS_CANCELLED, wi, Some a, n, w)
  else
    match wi_addrs wi with
    | Some (_ :: rest) => on_connect w n wi a rest d st sock
    | Some [] => None
    | None =>
        if NT_SUCCESS st then let '(st, wi) := connect wi addrs sock in Some (st, wi, Some a, n, w)
        else Some (st, wi, Some a, n, w)
    end.

(** complete: the request of the work item came back with the status [st]; [r] is the
    handle of the attach request it may create. *)
Definition complete (w : world W) (seen : bool) (n : N) (wi : workitem) (addrs : list Z) (d : device) (r : request) (st : ntstatus)
    (sock : ntstatus * ntstatus * ntstatus) : option (outcome * N * world W) :=
  a ← wi_ext wi;
  step ← complete_step w seen n wi a addrs d st sock;
  let '(st, wi, ext, n, w) := step in
  if bool_decide (st = STATUS_PENDING) then Some (Pending wi, n, w)
  else
    let w := complete_request w (wi_request wi) st plugin_written None in
    w ← (if one_attempt wi then Some w
         else
           a ← ext;
           if NT_SUCCESS st then
             res ← stop_attach_attempts w (location_hash a); Some (snd res)
           else if NT_ERROR st then
             retry ← can_reattach w (location_hash a) st;
             if retry : bool then
               res ← stop_attach_attempts w (location_hash a);
               start_attach_attempts unicode_to_utf8 (snd res) r a true
             else Some w
           else Some w);
    w ← workitem_cleanup w wi d;
    Some (Finished st (wi_port wi), n, w).
End plug.

(** ** The handlers *)

Record ioctl : Type := {
  io_request : request; io_code : code;
  io_buf : list byte;     (* the system buffer, shared by input and output *)
  io_in : nat; io_out : nat }.

(** The status, the Information field, the system buffer afterwards. *)
Record reply : Type := { rp_status : ntstatus; rp_info : Z; rp_buf : list byte }.

(** WdfWorkItemCreate; UdecxWdfDeviceTryHandleUserIoctl; WdfRequestForwardToIoQueue;
    WdfRequestRetrieve{Input,Output}Buffer of an empty buffer without a minimum length. *)
Class Controller (W : Type) : Type := {
  workitem_create : W -> ntstatus * W;
  try_handle_user_ioctl : W -> request -> bool * W;
  forward_to_default : W -> request -> ntstatus * W;
  retrieve_empty : res unit }.

(** The value of the persistent devices in the driver's key: opening the key, opening it
    for KEY_SET_VALUE; querying (status, what was written to the buffer, the size of the
    value, its type); assigning. *)
Class PersistentKey (K : Type) : Type := {
  key_open : K -> ntstatus;
  key_open_for_set : K -> ntstatus;
  key_query : K -> Z -> ntstatus * list byte * Z * Z;
  key_assign : K -> Z -> list byte -> ntstatus * K }.

Definition REG_MULTI_SZ : Z := 7.

Definition write_at (off : nat) (bs buf : list byte) : list byte :=
  take off buf ++ bs ++ drop (off + length bs) buf.

Section handlers.
Context {W : Type} `{Wdf W} `{AttachWdf W} `{Udecx W} `{Controller W}.
Context {R : Type} `{Policy.Registry R} {K : Type} `{PersistentKey K}.
Context (unicode_to_utf8 : nat -> list Z -> ntstatus * list byte).
Context (utf8_to_unicode_n : list byte -> ntstatus * list Z).
Context (hash_string : list Z -> ntstatus * Z) (pool : Z -> bool).
Context (source_of : device -> Z) (wi_source : request -> Z).

Definition retrieve (len min_len : nat) : res unit :=
  if bool_decide (len = 0%nat) && bool_decide (min_len = 0%nat) then retrieve_empty
  else guard_err (min_len <=? len)%nat STATUS_BUFFER_TOO_SMALL.

Definition failed (st : ntstatus) (q : ioctl) : reply := {| rp_status := st; rp_info := 0; rp_buf := io_buf q |}.

(** *** PLUGIN_HARDWARE *)

(** plugin_hardware(request, r, once); deleting the work item runs workitem_cleanup, which
    announces the end of a connection when there are attributes already. *)
Definition plugin_hardware_start (w : world W) (r : request) (ph : plugin_hardware) (once : bool)
  : option (ntstatus * option workitem * world W) :=
  let '(err, x) := workitem_create (wdf w) in
  let w := set_wdf w x in
  match err with
  | STATUS_SUCCESS =>
      let '(err, x) := memory_create (wdf w) in
      let w := set_wdf w x in
      match err with
      | STATUS_SUCCESS =>
          let '(err, a) := create_device_ctx_ext utf8_to_unicode_n hash_string pool ph in
          match err with
          | STATUS_SUCCESS =>
              w ← device_state_changed unicode_to_utf8 w a 0 connecting (wi_source r);
              Some (STATUS_PENDING,
                    Some {| wi_request := r; wi_ext := Some a; wi_sock := false; wi_addrs := None;
                            one_attempt := once; wi_port := 0 |}, w)
          | err =>
              w ← device_state_changed unicode_to_utf8 w a 0 disconnected (wi_source r);
              Some (err, None, w)
          end
      | err => Some (err, None, w)
      end
  | err => Some (err, None, w)
  end.

Definition plugin_hardware_ioctl (w : world W) (q : ioctl) (once : bool)
  : option (reply * option workitem * world W) :=
  match retrieve (io_in q) (Z.to_nat sizeof_plugin_hardware) with
  | Err e => Some (failed e q, None, w)
  | Ok _ =>
      let ph := plugin_of_bytes (io_buf q) in
      if negb (Z.of_nat (io_in q) =? sizeof_plugin_hardware) then Some (failed STATUS_INVALID_BUFFER_SIZE q, None, w)
      else if negb (ph_size ph =? Z.of_nat (io_in q)) then Some (failed USBIP_ERROR_ABI q, None, w)
      else
        match validate_serial_number (ph_serial ph) with
        | STATUS_SUCCESS =>
            let buf := write_at 4 (le_bytes 4 0) (io_buf q) in
            res ← plugin_hardware_start w (io_request q) (plugin_of_bytes buf) once;
            let '(st, wi, w) := res in
            Some ({| rp_status := st; rp_info := plugin_written; rp_buf := buf |}, wi, w)
        | err => Some (failed err q, None, w)
        end
  end.

(** *** STOP_ATTACH_ATTEMPTS *)

(** The first byte of a string member is not its terminator. *)
Definition given (s : list byte) : bool := negb (bool_decide (hd x00 s = x00)).

Definition stop_attach_attempts_ioctl (w : world W) (q : ioctl) : option (reply * world W) :=
  match retrieve (io_in q) (Z.to_nat sizeof_stop_attach_attempts) with
  | Err e => Some (failed e q, w)
  | Ok _ =>
      let l := location_of_bytes (io_buf q) in
      if negb (Z.of_nat (io_in q) =? sizeof_stop_attach_attempts) then Some (failed STATUS_INVALID_BUFFER_SIZE q, w)
      else if negb (Policy.field 0 4 (io_buf q) =? sizeof_stop_attach_attempts) then Some (failed USBIP_ERROR_ABI q, w)
      else
        let cnt := Z.b2z (given (loc_host l)) + Z.b2z (given (loc_service l)) + Z.b2z (given (loc_busid l)) in
        let '(st, hash) :=
          if cnt =? 0 then (STATUS_SUCCESS, 0)
          else if negb (cnt =? 3) then (STATUS_INVALID_PARAMETER, 0)
          else
            let '(st, a) := init_device_attributes utf8_to_unicode_n hash_string pool zero_attributes l in
            (st, if NT_SUCCESS st then location_hash a else 0) in
        if NT_SUCCESS st then
          res ← stop_attach_attempts w hash;
          let '(n, w) := res in
          Some ({| rp_status := st; rp_info := sizeof_stop_attach_attempts;
                   rp_buf := write_at 1100 (le_bytes 4 n) (io_buf q) |}, w)
        else Some (failed st q, w)
  end.

(** *** PLUGOUT_HARDWARE *)

Definition plugout_hardware (w : world W) (q : ioctl) (reattach : bool) (r : request) : option (reply * world W) :=
  match retrieve (io_in q) (Z.to_nat sizeof_plugout_hardware) with
  | Err e => Some (failed e q, w)
  | Ok _ =>
      let p := s32 (Policy.field 4 4 (io_buf q)) in
      if negb (Z.of_nat (io_in q) =? sizeof_plugout_hardware) then Some (failed STATUS_INVALID_BUFFER_SIZE q, w)
      else if negb (Policy.field 0 4 (io_buf q) =? Z.of_nat (io_in q)) then Some (failed USBIP_ERROR_ABI q, w)
      else if p <=? 0 then
        w ← detach_all_devices unicode_to_utf8 source_of w (negb (p =? PORT_ALL_CLOSEONLY));
        Some (failed STATUS_SUCCESS q, w)
      else if negb (is_valid_port (vhci w) p) then Some (failed STATUS_INVALID_PARAMETER q, w)
      else
        o ← get_device w p;
        match (o : option device) with
        | Some d => w ← detach unicode_to_utf8 source_of w d true reattach r; Some (failed STATUS_SUCCESS q, w)
        | None => Some (failed STATUS_DEVICE_NOT_CONNECTED q, w)
        end
  end.

(** *** GET_IMPORTED_DEVICES *)

(** imported_device at an offset: its location (busid, service and host at 4, 36 and 68) and
    its properties at 1096. *)
Definition location_at (off : nat) (buf : list byte) : imported_device_location :=
  location_of_bytes (drop (off - 4) buf).

Definition location_bytes (l : imported_device_location) : list byte :=
  le_bytes 4 (loc_port l) ++ loc_busid l ++ loc_service l ++ loc_host l.

Definition properties_bytes (p : imported_device_properties) : list byte :=
  le_bytes 4 (devid p) ++ le_bytes 4 (speed p) ++ le_bytes 2 (vendor p) ++ le_bytes 2 (product p) ++
  serial p ++ le_bytes 1 (iserial p).

(** fill(r->devices[i], dc): the padding of the structures stays as it is. *)
Definition fill_entry (buf : list byte) (off : nat) (a : device_attributes) (p : Z) : ntstatus * list byte :=
  let '(st, l, props) := fill unicode_to_utf8 (location_at off buf) zero_properties a p in
  let buf := write_at off (location_bytes l) buf in
  match st with
  | STATUS_SUCCESS => (st, write_at (off + 1096) (properties_bytes props) buf)
  | st => (st, buf)
  end.

Definition entry_offset (i : nat) : nat := Z.to_nat imported_devices_offset + i * Z.to_nat sizeof_imported_device.

(** The loop over the ports, from [p], with [cnt] entries filled. *)
Fixpoint report_loop (n : nat) (p : Z) (w : world W) (max_cnt cnt : nat) (buf : list byte)
  : option (ntstatus * nat * list byte) :=
  match n with
  | O => Some (STATUS_SUCCESS, cnt, buf)
  | S n =>
      o ← get_device w p;
      match (o : option device) with
      | None => report_loop n (p + 1) w max_cnt cnt buf
      | Some d =>
          if bool_decide (cnt = max_cnt) then Some (STATUS_BUFFER_TOO_SMALL, cnt, buf)
          else
            c ← dev_ctx w !! d;
            let '(err, buf) := fill_entry buf (entry_offset cnt) (attr c) (port c) in
            match err with
            | STATUS_SUCCESS => report_loop n (p + 1) w max_cnt (S cnt) buf
            | err => Some (err, S cnt, buf)
            end
      end
  end.

Definition get_imported_devices (w : world W) (q : ioctl) : option reply :=
  match retrieve (io_out q) (Z.to_nat sizeof_get_imported_devices) with
  | Err e => Some (failed e q)
  | Ok _ =>
      if negb (Policy.field 0 4 (io_buf q) =? sizeof_get_imported_devices) then Some (failed USBIP_ERROR_ABI q)
      else
        let max_cnt := Z.to_nat ((Z.of_nat (io_out q) - imported_devices_offset) / sizeof_imported_device) in
        res ← report_loop (Z.to_nat (devices_cnt (vhci w))) 1 w max_cnt 0 (io_buf q);
        let '(st, cnt, buf) := res in
        Some {| rp_status := st; rp_info := if bool_decide (st = STATUS_SUCCESS) then Z.of_nat (entry_offset cnt) else 0;
                rp_buf := buf |}
  end.

(** *** SET_PERSISTENT, GET_PERSISTENT *)

Definition set_persistent (k : K) (q : ioctl) : reply * K :=
  match retrieve (io_in q) 0 with
  | Err e => (failed e q, k)
  | Ok _ =>
      match key_open_for_set k with
      | STATUS_SUCCESS => let '(st, k) := key_assign k REG_MULTI_SZ (take (io_in q) (io_buf q)) in (failed st q, k)
      | err => (failed err q, k)
      end
  end.

(** The Information is the size of the value, even when the query reports that it did not fit. *)
Definition get_persistent (k : K) (q : ioctl) : reply :=
  match retrieve (io_out q) 0 with
  | Err e => failed e q
  | Ok _ =>
      match key_open k with
      | STATUS_SUCCESS =>
          let '(st, data, actual, type) := key_query k (Z.of_nat (io_out q)) in
          let buf := write_at 0 data (io_buf q) in
          match st with
          | STATUS_SUCCESS =>
              if negb (type =? REG_MULTI_SZ) then {| rp_status := STATUS_INVALID_CONFIG_VALUE; rp_info := 0; rp_buf := buf |}
              else {| rp_status := STATUS_SUCCESS; rp_info := actual; rp_buf := buf |}
          | st => {| rp_status := st; rp_info := actual; rp_buf := buf |}
          end
      | err => failed err q
      end
  end.

(** *** Dispatching *)

Inductive handled : Type :=
| Replied (rp : reply)          (* WdfRequestComplete *)
| Working (wi : workitem)       (* getaddrinfo was called for it *)
| Forwarded.                    (* UdeCx or the default queue has it *)

(** WdfRequestComplete after WdfRequestSetInformation *)
Definition reply_to (w : world W) (q : ioctl) (rp : reply) : world W :=
  complete_request w (io_request q) (rp_status rp) (rp_info rp) None.

(** device_control, of the default queue, which is sequential; [r] is the handle of a
    request it may create. *)
Definition device_control (w : world W) (q : ioctl) (r : request) : option (handled * world W) :=
  match io_code q with
  | PLUGIN_HARDWARE_ONCE | PLUGIN_HARDWARE =>
      res ← plugin_hardware_ioctl w q (match io_code q with PLUGIN_HARDWARE_ONCE => true | _ => false end);
      let '(rp, wi, w) := res in
      match (wi : option workitem) with
      | Some wi => Some (Working wi, w)
      | None => Some (Replied rp, reply_to w q rp)
      end
  | PLUGOUT_HARDWARE_AND_REATTACH | PLUGOUT_HARDWARE =>
      res ← plugout_hardware w q (match io_code q with PLUGOUT_HARDWARE_AND_REATTACH => true | _ => false end) r;
      let '(rp, w) := res in Some (Replied rp, reply_to w q rp)
  | _ =>
      let '(handled, x) := try_handle_user_ioctl (wdf w) (io_request q) in
      let w := set_wdf w x in
      if handled : bool then Some (Forwarded, w)
      else let rp := failed STATUS_INVALID_DEVICE_REQUEST q in Some (Replied rp, reply_to w q rp)
  end.

(** get_parallel_handler: the handlers that need neither the default queue nor its order;
    [stack] is the indeterminate memory of the local policy of get_device_filter, [pad]
    the padding of the one that is stored. *)
Definition get_parallel_handler (c : code)
  : option (world W -> R -> K -> list byte -> list byte -> ioctl -> option (reply * world W * R * K)) :=
  match c with
  | GET_IMPORTED_DEVICES => Some (fun w r k _ _ q => rp ← get_imported_devices w q; Some (rp, w, r, k))
  | SET_PERSISTENT => Some (fun w r k _ _ q => let '(rp, k) := set_persistent k q in Some (rp, w, r, k))
  | GET_PERSISTENT => Some (fun w r k _ _ q => Some (get_persistent k q, w, r, k))
  | STOP_ATTACH_ATTEMPTS => Some (fun w r k _ _ q => res ← stop_attach_attempts_ioctl w q; Some (fst res, snd res, r, k))
  | SET_DEVICE_FILTER =>
      Some (fun w r k _ pad q =>
        let '(st, r) := Policy.set_device_filter r pad (take (io_in q) (io_buf q)) in Some (failed st q, w, r, k))
  | GET_DEVICE_FILTER =>
      Some (fun w r k stack _ q =>
        let '(st, info, out) := Policy.get_device_filter r stack (take (io_out q) (io_buf q)) in
        Some ({| rp_status := st; rp_info := info; rp_buf := write_at 0 out (io_buf q) |}, w, r, k))
  | _ => None
  end.

(** device_control_parallel; the status of a request it could not forward is its own. *)
Definition device_control_parallel (w : world W) (reg : R) (k : K) (stack pad : list byte) (q : ioctl)
  : option (handled * world W * R * K) :=
  match get_parallel_handler (io_code q) with
  | Some handler =>
      res ← handler w reg k stack pad q;
      let '(rp, w, reg, k) := res in
      Some (Replied rp, reply_to w q rp, reg, k)
  | None =>
      let '(st, x) := forward_to_default (wdf w) (io_request q) in
      let w := set_wdf w x in
      if NT_SUCCESS st then Some (Forwarded, w, reg, k)
      else let rp := failed st q in Some (Replied rp, reply_to w q rp, reg, k)
  end.

(** *** Detaching from elsewhere: a request to the controller itself *)

(** async_detach_and_delete of a port: the request, when it was sent. *)
Definition create_detach_request_inbuf (p : Z) : list byte :=
  le_bytes 4 sizeof_plugout_hardware ++ le_bytes 4 p.

Definition async_detach_port (w : world W) (r : request) (p : Z) (reattach : bool) : option ioctl * world W :=
  let '(good, w) := try_call request_create w in
  if negb good then (None, w)
  else
    let '(good, w) := try_call memory_create w in
    if negb good then (None, w)
    else
      let '(good, w) := try_call format_request w in
      if negb good then (None, w)
      else
        let '(sent, x) := send_request (wdf w) r in
        let w := set_wdf w x in
        if negb sent then (None, w)
        else
          (Some {| io_request := r; io_code := if reattach then PLUGOUT_HARDWARE_AND_REATTACH else PLUGOUT_HARDWARE;
                   io_buf := create_detach_request_inbuf p; io_in := 8; io_out := 0 |}, w).

(** device::async_detach_and_delete *)
Definition async_detach_and_delete (w : world W) (r : request) (d : device) (reattach : bool)
  : option (option ioctl * world W) :=
  c ← dev_ctx w !! d; Some (async_detach_port w r (port c) reattach).

Definition async_detach_and_delete_all (w : world W) (r : request) : option ioctl * world W :=
  async_detach_port w r PORT_ALL false.

(** vhci_query_remove; its status is STATUS_SUCCESS. *)
Definition vhci_query_remove (w : world W) (r : request) : option (option ioctl * world W) :=
  let w := set_vhci w (with_removing (vhci w) true) in
  res ← stop_attach_attempts w 0;
  let '(_, w) := res in
  let '(q, w) := async_detach_and_delete_all w r in
  Some (q, purge_read_queue w).
End handlers.

(** ** Specifications *)

Definition slice (off len : nat) (buf : list byte) : list byte := take len (drop off buf).

Definition properties_at (off : nat) (buf : list byte) : imported_device_properties :=
  {| devid := le_val (slice off 4 buf); speed := s32 (le_val (slice (off + 4) 4 buf));
     vendor := le_val (slice (off + 8) 2 buf); product := le_val (slice (off + 10) 2 buf);
     serial := slice (off + 12) 16 buf; iserial := le_val (slice (off + 28) 1 buf) |}.

Record properties_ok (p : imported_device_properties) : Prop := {
  devid_ok : is_u32 (devid p); speed_ok : is_s32 (speed p); vendor_ok : is_u16 (vendor p);
  product_ok : is_u16 (product p); serial_ok : length (serial p) = SERIAL_BUFSZ; iserial_ok : is_u8 (iserial p) }.

(** The devices in the order of their ports. *)
Definition attached_in {W} (w : world W) (slots : list (option device)) : list device_ctx :=
  omap (fun o => d ← o; dev_ctx w !! d) slots.

Definition attached {W} (w : world W) : list device_ctx := attached_in w (devices (vhci w)).

Section reporting.
Context {W : Type}.
Context (unicode_to_utf8 : nat -> list Z -> ntstatus * list byte).

(** The string converts to UTF-8 and fits in the buffer. *)
Definition convertible (size : nat) (s : list Z) : Prop :=
  exists chars, unicode_to_utf8 size s = (STATUS_SUCCESS, chars) /\ (length chars <= size)%nat /\ x00 ∉ chars.

Record reportable (c : device_ctx) : Prop := {
  rp_host : convertible 1025 (node_name (attr c));
  rp_service : convertible 32 (service_name (attr c));
  rp_busid : convertible 32 (busid (attr c)) }.

(** Entry [i] of the array describes the device. *)
Record reports (buf : list byte) (i : nat) (c : device_ctx) : Prop := {
  rs_port : loc_port (location_at (entry_offset i) buf) = port c;
  rs_host : unicode_to_utf8 1025 (node_name (attr c)) = (STATUS_SUCCESS, c_string (loc_host (location_at (entry_offset i) buf)));
  rs_service : unicode_to_utf8 32 (service_name (attr c)) =
                 (STATUS_SUCCESS, c_string (loc_service (location_at (entry_offset i) buf)));
  rs_busid : unicode_to_utf8 32 (busid (attr c)) = (STATUS_SUCCESS, c_string (loc_busid (location_at (entry_offset i) buf)));
  rs_properties : properties_at (entry_offset i + 1096) buf = properties (attr c) }.

(** ** Lemmas: buffers *)

Lemma length_write_at off bs buf : (off + length bs <= length buf)%nat -> length (write_at off bs buf) = length buf.
Proof. intros Hl. unfold write_at. rewrite !length_app, length_take, length_drop. lia. Qed.

Lemma slice_write_same off bs buf : (off + length bs <= length buf)%nat -> slice off (length bs) (write_at off bs buf) = bs.
Proof.
  intros Hl. unfold slice, write_at. rewrite drop_app_length' by (rewrite length_take; lia). apply take_app_length.
Qed.

Lemma slice_write_other off bs buf a n :
  (off + length bs <= length buf)%nat -> (a + n <= off \/ off + length bs <= a)%nat ->
  slice a n (write_at off bs buf) = slice a n buf.
Proof.
  intros Hl Hd. apply list_eq. intros i. unfold slice, write_at. destruct (decide (i < n)%nat) as [Hi|Hi].
  - rewrite !lookup_take_lt, !lookup_drop by done. destruct Hd as [Hd|Hd].
    + rewrite lookup_app_l by (rewrite length_take; lia). by rewrite lookup_take_lt by lia.
    + rewrite !lookup_app_r by (rewrite ?length_take; lia). rewrite lookup_drop. f_equal. rewrite length_take. lia.
  - by rewrite !lookup_take_ge by lia.
Qed.

Lemma slice_slice off len a n buf : (a + n <= len)%nat -> slice a n (slice off len buf) = slice (off + a) n buf.
Proof. intros Hl. unfold slice. rewrite skipn_firstn_comm, take_take, drop_drop. f_equal. lia. Qed.

Lemma slice_app (x y : list byte) a n : a = length x -> n = length y -> forall z, slice a n (x ++ y ++ z) = y.
Proof. intros -> -> z. unfold slice. rewrite drop_app_length. apply take_app_length. Qed.

Lemma slice_head (y : list byte) n : n = length y -> forall z, slice 0 n (y ++ z) = y.
Proof. intros -> z. apply take_app_length. Qed.

Lemma slice_last (x y : list byte) a n : a = length x -> n = length y -> slice a n (x ++ y) = y.
Proof. intros -> ->. unfold slice. rewrite drop_app_length. apply take_ge. done. Qed.

Lemma c_string_nul_free s t : x00 ∉ s -> c_string (s ++ x00 :: t) = s.
Proof.
  induction s as [|b s IH]; intros Hn; simpl; [done|]. apply not_elem_of_cons in Hn as [Hb Hs].
  rewrite bool_decide_false by congruence. f_equal. auto.
Qed.

Lemma c_string_full s : x00 ∉ s -> c_string s = s.
Proof.
  induction s as [|b s IH]; intros Hn; simpl; [done|]. apply not_elem_of_cons in Hn as [Hb Hs].
  rewrite bool_decide_false by congruence. f_equal. auto.
Qed.

Lemma location_at_fields off buf : (4 <= off)%nat ->
  location_at off buf = {| loc_port := s32 (le_val (slice off 4 buf)); loc_busid := slice (off + 4) 32 buf;
                           loc_service := slice (off + 36) 32 buf; loc_host := slice (off + 68) 1025 buf |}.
Proof.
  intros Ho. unfold location_at, location_of_bytes, Policy.field, slice. rewrite !drop_drop.
  replace (off - 4 + 4)%nat with off by lia. replace (off - 4 + 8)%nat with (off + 4)%nat by lia.
  replace (off - 4 + 40)%nat with (off + 36)%nat by lia. by replace (off - 4 + 72)%nat with (off + 68)%nat by lia.
Qed.

Definition location_sized (l : imported_device_location) : Prop :=
  length (loc_busid l) = 32%nat /\ length (loc_service l) = 32%nat /\ length (loc_host l) = 1025%nat.

Lemma length_location_bytes l : location_sized l -> length (location_bytes l) = 1093%nat.
Proof. intros (Hb & Hs & Hh). unfold location_bytes. rewrite !length_app, length_le_bytes. lia. Qed.

Lemma location_at_written off buf l :
  (4 <= off)%nat -> location_sized l -> is_s32 (loc_port l) -> slice off 1093 buf = location_bytes l -> location_at off buf = l.
Proof.
  intros Ho Hl Hp Hs. rewrite location_at_fields by done.
  rewrite <- (Nat.add_0_r off) at 1. rewrite <- !(slice_slice off 1093) by lia. rewrite Hs.
  destruct l as [p b s h], Hl as (Hb & Hsv & Hh). unfold location_bytes. cbn [loc_port loc_busid loc_service loc_host] in *. f_equal.
  - rewrite (slice_head (le_bytes 4 p)) by done. rewrite le_val_le_bytes. change (256 ^ _) with (2 ^ 32).
    by apply s32_u32.
  - by apply (slice_app (le_bytes 4 p)).
  - rewrite (app_assoc (le_bytes 4 p)). apply slice_app; [|done]. rewrite length_app, length_le_bytes. lia.
  - rewrite (app_assoc (le_bytes 4 p)), (app_assoc (_ ++ b)). apply slice_last; [|done]. rewrite !length_app, length_le_bytes. lia.
Qed.

Lemma length_properties_bytes p : length (serial p) = SERIAL_BUFSZ -> length (properties_bytes p) = 29%nat.
Proof. intros Hs. unfold properties_bytes. rewrite !length_app, !length_le_bytes, Hs. done. Qed.

Lemma properties_at_written off buf p :
  properties_ok p -> slice off 29 buf = properties_bytes p -> properties_at off buf = p.
Proof.
  intros [Hd Hsp Hv Hpr Hl Hi] Hs. unfold properties_at. rewrite <- (Nat.add_0_r off) at 1.
  rewrite <- !(slice_slice off 29) by lia. rewrite Hs.
  destruct p as [d sp v pr srl i]. unfold properties_bytes, SERIAL_BUFSZ in *. simpl in Hd, Hsp, Hv, Hpr, Hl, Hi.
  cbn [devid speed vendor product serial iserial].
  assert (forall n z, z mod 256 ^ Z.of_nat n = z -> le_val (le_bytes n z) = z) as Hle by (intros; by rewrite le_val_le_bytes).
  f_equal.
  - rewrite (slice_head (le_bytes 4 d)) by done. apply Hle, Z.mod_small, Hd.
  - rewrite (slice_app (le_bytes 4 d) (le_bytes 4 sp)), le_val_le_bytes by done. by apply s32_u32.
  - rewrite (app_assoc (le_bytes 4 d)), (slice_app _ (le_bytes 2 v)) by done. apply Hle, Z.mod_small, Hv.
  - rewrite (app_assoc (le_bytes 4 d)), (app_assoc (_ ++ le_bytes 4 sp)), (slice_app _ (le_bytes 2 pr)) by done.
    apply Hle, Z.mod_small, Hpr.
  - rewrite (app_assoc (le_bytes 4 d)), (app_assoc (_ ++ le_bytes 4 sp)), (app_assoc (_ ++ le_bytes 2 v)).
    apply slice_app; [done|]. by rewrite Hl.
  - rewrite (app_assoc (le_bytes 4 d)), (app_assoc (_ ++ le_bytes 4 sp)), (app_assoc (_ ++ le_bytes 2 v)),
      (app_assoc (_ ++ le_bytes 2 pr)).
    rewrite slice_last; [apply Hle, Z.mod_small, Hi| |done]. rewrite length_app, Hl. done.
Qed.

(** ** Lemmas: one entry *)

Lemma length_utf8_into old s : length (snd (utf8_into unicode_to_utf8 old s)) = length old.
Proof.
  unfold utf8_into. destruct (unicode_to_utf8 (length old) s) as [st chars]. simpl.
  rewrite length_take, !length_app, length_drop. destruct (length chars <? length old)%nat eqn:E; simpl; lia.
Qed.

Lemma utf8_into_convertible old s :
  convertible (length old) s ->
  exists chars, unicode_to_utf8 (length old) s = (STATUS_SUCCESS, chars) /\
    fst (utf8_into unicode_to_utf8 old s) = STATUS_SUCCESS /\ c_string (snd (utf8_into unicode_to_utf8 old s)) = chars.
Proof.
  intros (chars & Hc & Hl & Hn). exists chars. unfold utf8_into. rewrite Hc. simpl. split_and!; auto.
  destruct (length chars <? length old)%nat eqn:E.
  - rewrite take_ge by (rewrite !length_app, length_drop; simpl; lia). by apply c_string_nul_free.
  - rewrite take_app_length'; [by apply c_string_full|lia].
Qed.

Lemma fill_spec l p0 a p :
  location_sized l ->
  exists st l' props, fill unicode_to_utf8 l p0 a p = (st, l', props) /\ location_sized l' /\ loc_port l' = p /\
    (st = STATUS_SUCCESS -> props = properties a) /\
    (convertible 1025 (node_name a) -> convertible 32 (service_name a) -> convertible 32 (busid a) ->
     st = STATUS_SUCCESS /\ unicode_to_utf8 1025 (node_name a) = (STATUS_SUCCESS, c_string (loc_host l')) /\
     unicode_to_utf8 32 (service_name a) = (STATUS_SUCCESS, c_string (loc_service l')) /\
     unicode_to_utf8 32 (busid a) = (STATUS_SUCCESS, c_string (loc_busid l'))).
Proof.
  intros (Hb & Hs & Hh). unfold fill, fill_location.
  pose proof (length_utf8_into (loc_host l) (node_name a)) as Lh.
  pose proof (length_utf8_into (loc_service l) (service_name a)) as Ls.
  pose proof (length_utf8_into (loc_busid l) (busid a)) as Lb.
  pose proof (utf8_into_convertible (loc_host l) (node_name a)) as Ch.
  pose proof (utf8_into_convertible (loc_service l) (service_name a)) as Cs.
  pose proof (utf8_into_convertible (loc_busid l) (busid a)) as Cb.
  rewrite Hh in Ch, Lh. rewrite Hs in Cs, Ls. rewrite Hb in Cb, Lb. cbn [loc_port loc_busid loc_service loc_host].
  destruct (utf8_into _ (loc_host l) _) as [sh h]. destruct (utf8_into _ (loc_service l) _) as [ss sv].
  destruct (utf8_into _ (loc_busid l) _) as [sb bs]. simpl in Ch, Cs, Cb, Lh, Ls, Lb.
  destruct (decide (sh = STATUS_SUCCESS)) as [->|Nh].
  2:{ exists sh, {| loc_port := p; loc_busid := loc_busid l; loc_service := loc_service l; loc_host := h |}, p0.
      split; [by destruct sh|]. split_and!; try done. intros (? & ? & ? & ?)%Ch. tauto. }
  destruct (decide (ss = STATUS_SUCCESS)) as [->|Ns].
  2:{ exists ss, {| loc_port := p; loc_busid := loc_busid l; loc_service := sv; loc_host := h |}, p0.
      split; [by destruct ss|]. split_and!; try done. intros _ (? & ? & ? & ?)%Cs. tauto. }
  destruct (decide (sb = STATUS_SUCCESS)) as [->|Nb].
  2:{ exists sb, {| loc_port := p; loc_busid := bs; loc_service := sv; loc_host := h |}, p0.
      split; [by destruct sb|]. split_and!; try done. intros _ _ (? & ? & ? & ?)%Cb. tauto. }
  do 3 eexists. split; [reflexivity|]. split_and!; try done. simpl.
  intros (? & Eh & _ & <-)%Ch (? & Es & _ & <-)%Cs (? & Eb & _ & <-)%Cb. auto.
Qed.

Lemma entry_offset_Z i : Z.of_nat (entry_offset i) = 4 + 1128 * Z.of_nat i.
Proof.
  unfold entry_offset. change (Z.to_nat imported_devices_offset) with 4%nat.
  change (Z.to_nat sizeof_imported_device) with (Z.to_nat 1128). lia.
Qed.

Lemma entry_offset_S i : entry_offset (S i) = (entry_offset i + 1128)%nat.
Proof. unfold entry_offset. change (Z.to_nat sizeof_imported_device) with 1128%nat. lia. Qed.

Lemma entry_offset_ge i : (4 <= entry_offset i)%nat.
Proof. unfold entry_offset. change (Z.to_nat imported_devices_offset) with 4%nat. lia. Qed.

Lemma entry_offset_le i j : (i <= j)%nat -> (entry_offset i <= entry_offset j)%nat.
Proof. unfold entry_offset. change (Z.to_nat sizeof_imported_device) with 1128%nat. lia. Qed.

Lemma location_at_sized off buf : (4 <= off)%nat -> (off + 1093 <= length buf)%nat -> location_sized (location_at off buf).
Proof.
  intros Ho Hl. rewrite location_at_fields by done. unfold location_sized, slice. cbn [loc_busid loc_service loc_host].
  rewrite !length_take, !length_drop. lia.
Qed.

Lemma properties_at_slice off buf buf' : slice off 29 buf' = slice off 29 buf -> properties_at off buf' = properties_at off buf.
Proof.
  intros Hs. unfold properties_at. rewrite <- (Nat.add_0_r off) at 1 7. rewrite <- !(slice_slice off 29) by lia.
  by rewrite Hs.
Qed.

Lemma location_at_slice off buf buf' :
  (4 <= off)%nat -> slice off 1093 buf' = slice off 1093 buf -> location_at off buf' = location_at off buf.
Proof.
  intros Ho Hs. rewrite !location_at_fields by done. rewrite <- (Nat.add_0_r off) at 1 5.
  rewrite <- !(slice_slice off 1093) by lia. by rewrite Hs.
Qed.

(** What a report says depends only on the bytes of its entry. *)
Lemma reports_slice buf buf' i c :
  (forall a n, (entry_offset i <= a)%nat -> (a + n <= entry_offset (S i))%nat -> slice a n buf' = slice a n buf) ->
  reports buf i c -> reports buf' i c.
Proof.
  intros Hs [Hp Hh Hsv Hb Hpr]. rewrite entry_offset_S in Hs. pose proof (entry_offset_ge i).
  constructor; rewrite ?(location_at_slice _ buf buf'), ?(properties_at_slice _ buf buf'); auto; apply Hs; lia.
Qed.

Lemma fill_entry_spec buf i c :
  (entry_offset (S i) <= length buf)%nat -> properties_ok (properties (attr c)) -> is_s32 (port c) ->
  exists st buf', fill_entry unicode_to_utf8 buf (entry_offset i) (attr c) (port c) = (st, buf') /\
    length buf' = length buf /\
    (forall a n, (a + n <= entry_offset i)%nat -> slice a n buf' = slice a n buf) /\
    (reportable c -> st = STATUS_SUCCESS /\ reports buf' i c).
Proof.
  intros Hl Hp Hport. rewrite entry_offset_S in Hl. pose proof (entry_offset_ge i) as Hge. unfold fill_entry.
  destruct (fill_spec (location_at (entry_offset i) buf) zero_properties (attr c) (port c))
    as (st & l & props & -> & Hls & Hlp & Hprops & Hok); [apply location_at_sized; lia|].
  set (off := entry_offset i) in *. pose proof (length_location_bytes l Hls) as Hlb.
  pose proof (length_properties_bytes _ (serial_ok _ Hp)) as Hpb.
  set (buf1 := write_at off (location_bytes l) buf).
  assert (length buf1 = length buf) as Hl1 by (apply length_write_at; lia).
  assert (forall a n, (a + n <= off)%nat -> slice a n buf1 = slice a n buf) as Hs1
    by (intros; apply slice_write_other; lia).
  destruct (decide (st = STATUS_SUCCESS)) as [->|Hne].
  - rewrite (Hprops eq_refl). set (buf2 := write_at (off + 1096) _ buf1). exists STATUS_SUCCESS, buf2. split_and!; auto.
    + unfold buf2. rewrite length_write_at by lia. done.
    + intros a n Ha. unfold buf2. rewrite slice_write_other by lia. auto.
    + intros [Rh Rs Rb]. destruct (Hok Rh Rs Rb) as (_ & Eh & Es & Eb). split; [done|].
      assert (location_at off buf2 = l) as Hloc.
      { apply location_at_written; auto; [by rewrite Hlp|]. unfold buf2. rewrite slice_write_other by lia.
        rewrite <- Hlb. apply slice_write_same. lia. }
      constructor; fold off; rewrite ?Hloc; auto. apply properties_at_written; [done|]. unfold buf2. rewrite <- Hpb.
      apply slice_write_same. lia.
  - exists st, buf1. split; [by destruct st|]. split_and!; auto. intros [Rh Rs Rb]. destruct (Hok Rh Rs Rb). tauto.
Qed.

(** ** Lemmas: the loop *)

Record reported (w : world W) (slots : list (option device)) (max_cnt cnt : nat) (buf : list byte)
    (st : ntstatus) (cnt' : nat) (buf' : list byte) : Prop := {
  rd_length : length buf' = length buf;
  rd_prefix : forall a n, (a + n <= entry_offset cnt)%nat -> slice a n buf' = slice a n buf;
  rd_bound : (cnt <= cnt' <= max_cnt)%nat;
  rd_success : st = STATUS_SUCCESS -> cnt' = (cnt + length (attached_in w slots))%nat /\
      forall i c, attached_in w slots !! i = Some c -> reportable c -> reports buf' (cnt + i) c;
  rd_complete : Forall reportable (attached_in w slots) ->
      st = if decide (cnt + length (attached_in w slots) <= max_cnt)%nat then STATUS_SUCCESS else STATUS_BUFFER_TOO_SMALL }.

Lemma attached_lookup (w : world W) i d c : devices (vhci w) !! i = Some (Some d) -> dev_ctx w !! d = Some c -> c ∈ attached w.
Proof.
  intros Hi Hc. unfold attached, attached_in. apply list_elem_of_omap. exists (Some d).
  split; [by eapply list_elem_of_lookup_2|done].
Qed.

Lemma report_loop_spec (w : world W) n p max_cnt cnt buf :
  ports_ok w -> (forall c, c ∈ attached w -> properties_ok (properties (attr c))) ->
  1 <= p -> p - 1 + Z.of_nat n = devices_cnt (vhci w) ->
  (entry_offset max_cnt <= length buf)%nat -> (cnt <= max_cnt)%nat ->
  exists st cnt' buf', report_loop unicode_to_utf8 n p w max_cnt cnt buf = Some (st, cnt', buf') /\
    reported w (drop (Z.to_nat (p - 1)) (devices (vhci w))) max_cnt cnt buf st cnt' buf'.
Proof.
  intros Hw Hpr. pose proof (ports_ok_array w Hw) as Hlen. revert p cnt buf.
  induction n as [|n IH]; intros p cnt buf Hp Hn Hmax Hcnt; simpl.
  - exists STATUS_SUCCESS, cnt, buf. split; [done|]. rewrite drop_ge by lia. constructor; auto; simpl; try lia.
    + intros _. split; [lia|done].
    + intros _. by rewrite decide_True by lia.
  - destruct (lookup_lt_is_Some_2 (devices (vhci w)) (Z.to_nat (p - 1))) as [o Ho]; [lia|].
    assert (get_device w p = Some o) as ->.
    { unfold get_device, is_valid_port. by replace ((0 <? p) && (p <=? devices_cnt (vhci w))) with true by lia. }
    rewrite (drop_S _ _ _ Ho). replace (S (Z.to_nat (p - 1))) with (Z.to_nat (p + 1 - 1)) by lia. simpl.
    destruct o as [d|].
    2:{ destruct (IH (p + 1) cnt buf) as (st & cnt' & buf' & Hx & []); [lia|lia|done|done|].
        exists st, cnt', buf'. split; [exact Hx|]. by constructor. }
    destruct (ports_slot w Hw _ _ Ho) as (c & Hc & Hport & _). rewrite Hc. simpl.
    set (rest := attached_in w (drop (Z.to_nat (p + 1 - 1)) (devices (vhci w)))).
    destruct (decide (cnt = max_cnt)) as [->|Hne].
    { rewrite bool_decide_true by done. do 3 eexists. split; [reflexivity|]. constructor; [done|done|lia|done|].
      intros _. unfold attached_in. simpl. rewrite Hc. simpl. rewrite decide_False; [done|lia]. }
    rewrite bool_decide_false by done.
    pose proof (hub_total _ (ports_hub w Hw)). pose proof (ports_ok_array w Hw).
    pose proof (lookup_lt_Some _ _ _ Ho).
    destruct (fill_entry_spec buf cnt c) as (err & buf1 & -> & Hl1 & Hs1 & Hr1).
    { pose proof (entry_offset_le (S cnt) max_cnt ltac:(lia)). lia. }
    { apply Hpr. by eapply attached_lookup. }
    { unfold is_s32. lia. }
    destruct (decide (err = STATUS_SUCCESS)) as [->|Herr].
    + destruct (IH (p + 1) (S cnt) buf1) as (st & cnt' & buf' & -> & [Rl Rp Rb Rs Rc]); [lia..|].
      do 3 eexists. split; [reflexivity|]. fold rest in Rs, Rc.
      assert (attached_in w (Some d :: drop (Z.to_nat (p + 1 - 1)) (devices (vhci w))) = c :: rest) as Hat
        by (unfold attached_in; simpl; by rewrite Hc).
      constructor; rewrite ?Hat.
      * congruence.
      * intros a k Ha. rewrite Rp, Hs1; [done|lia|]. rewrite entry_offset_S. lia.
      * lia.
      * intros Hst. destruct (Rs Hst) as [-> Hall]. split; [simpl; lia|]. intros [|i] ci Hi Hrep.
        -- simpl in Hi. injection Hi as <-. destruct (Hr1 Hrep) as [_ Hr]. rewrite Nat.add_0_r.
           eapply reports_slice, Hr. intros. by apply Rp.
        -- simpl in Hi. rewrite Nat.add_succ_r. apply (Hall i); auto.
      * intros [Hrc Hrest]%list.Forall_cons. rewrite (Rc Hrest). simpl. repeat case_decide; try done; lia.
    + exists err, (S cnt), buf1. split; [by destruct err|]. constructor; auto; try lia; [done|].
      unfold attached_in. simpl. rewrite Hc. simpl. intros [Hrc _]%list.Forall_cons. destruct (Hr1 Hrc). done.
Qed.

(** The handler on a buffer with room for one entry and the right size field. *)
Lemma get_imported_devices_ok `{Controller W} (w : world W) (q : ioctl) :
  ports_ok w -> (forall c, c ∈ attached w -> properties_ok (properties (attr c))) ->
  (1132 <= io_out q <= length (io_buf q))%nat -> Policy.field 0 4 (io_buf q) = 1132 ->
  exists rp, get_imported_devices unicode_to_utf8 w q = Some rp /\
    length (rp_buf rp) = length (io_buf q) /\ 0 <= rp_info rp <= Z.of_nat (io_out q) /\
    (rp_status rp <> STATUS_SUCCESS -> rp_info rp = 0) /\
    (rp_status rp = STATUS_SUCCESS ->
       rp_info rp = 4 + 1128 * Z.of_nat (length (attached w)) /\
       forall i c, attached w !! i = Some c -> reportable c -> reports (rp_buf rp) i c) /\
    (Forall reportable (attached w) ->
       rp_status rp = if Z.of_nat (io_out q) <? 4 + 1128 * Z.of_nat (length (attached w)) then STATUS_BUFFER_TOO_SMALL
                      else STATUS_SUCCESS).
Proof.
  intros Hw Hpr [Hlo Hio] Hsize. unfold get_imported_devices, retrieve. change (Z.to_nat sizeof_get_imported_devices) with 1132%nat.
  rewrite (bool_decide_false (1132 = 0)%nat), andb_false_r by done. unfold guard_err.
  replace (1132 <=? io_out q)%nat with true by lia. rewrite Hsize. cbn [negb Z.eqb].
  change (negb (1132 =? sizeof_get_imported_devices)) with false. cbn match.
  set (max_cnt := Z.to_nat ((Z.of_nat (io_out q) - imported_devices_offset) / sizeof_imported_device)).
  assert (Z.of_nat (entry_offset max_cnt) <= Z.of_nat (io_out q) < Z.of_nat (entry_offset (S max_cnt))) as Hmax.
  { rewrite !entry_offset_Z. unfold max_cnt, imported_devices_offset, sizeof_imported_device.
    pose proof (Z.mod_pos_bound (Z.of_nat (io_out q) - 4) 1128 ltac:(lia)).
    pose proof (Z.div_mod (Z.of_nat (io_out q) - 4) 1128 ltac:(lia)).
    pose proof (Z.div_pos (Z.of_nat (io_out q) - 4) 1128 ltac:(lia) ltac:(lia)). lia. }
  pose proof (ports_ok_array w Hw). pose proof (hub_usb2 _ (ports_hub w Hw)). pose proof (hub_usb3 _ (ports_hub w Hw)).
  destruct (report_loop_spec w (Z.to_nat (devices_cnt (vhci w))) 1 max_cnt 0 (io_buf q) Hw Hpr)
    as (st & cnt & buf & -> & [Rl _ Rb Rs Rc]); [lia..|]. simpl. eexists. split; [reflexivity|]. simpl.
  change (drop (Z.to_nat (1 - 1)) (devices (vhci w))) with (devices (vhci w)) in *. fold (attached w) in *.
  pose proof (entry_offset_le cnt max_cnt ltac:(lia)). split; [done|]. split; [case_bool_decide; lia|].
  split; [intros ?; by rewrite bool_decide_false|]. split.
  - intros Hst. rewrite bool_decide_true by done. destruct (Rs Hst) as [-> Hall]. split; [|exact Hall].
    rewrite entry_offset_Z. lia.
  - intros Hall. rewrite (Rc Hall).
    rewrite !entry_offset_Z in Hmax. case_decide; destruct (Z.ltb_spec (Z.of_nat (io_out q)) (4 + 1128 * Z.of_nat (length (attached w))));
      try done; lia.
Qed.

(** GET_IMPORTED_DEVICES never writes outside of the request's buffer nor announces more bytes than
    the caller's buffer has.  When it succeeds it reports every attached device, once, in the order of the
    ports: port, properties and the UTF-8 strings of its location.  When all strings convert, it succeeds
    exactly when the buffer has room for all devices; otherwise the status says what is wrong and no
    byte is announced. *)
Theorem imported_devices_reported `{Controller W} (w : world W) (q : ioctl) :
  ports_ok w -> (forall c, c ∈ attached w -> properties_ok (properties (attr c))) ->
  (io_out q <= length (io_buf q))%nat ->
  exists rp, get_imported_devices unicode_to_utf8 w q = Some rp /\
    length (rp_buf rp) = length (io_buf q) /\ 0 <= rp_info rp <= Z.of_nat (io_out q) /\
    (rp_status rp <> STATUS_SUCCESS -> rp_info rp = 0) /\
    (rp_status rp = STATUS_SUCCESS ->
       rp_info rp = 4 + 1128 * Z.of_nat (length (attached w)) /\
       forall i c, attached w !! i = Some c -> reportable c -> reports (rp_buf rp) i c) /\
    (Forall reportable (attached w) ->
       rp_status rp =
         if Z.of_nat (io_out q) <? 1132 then STATUS_BUFFER_TOO_SMALL
         else if negb (Policy.field 0 4 (io_buf q) =? 1132) then USBIP_ERROR_ABI
         else if Z.of_nat (io_out q) <? 4 + 1128 * Z.of_nat (length (attached w)) then STATUS_BUFFER_TOO_SMALL
         else STATUS_SUCCESS).
Proof.
  intros Hw Hpr Hio. pose proof (get_imported_devices_ok w q Hw Hpr) as Hok.
  unfold get_imported_devices, retrieve in *. change (Z.to_nat sizeof_get_imported_devices) with 1132%nat in *.
  rewrite (bool_decide_false (1132 = 0)%nat), andb_false_r in * by done. unfold guard_err in *.
  destruct (Z.ltb_spec (Z.of_nat (io_out q)) 1132).
  { replace (1132 <=? io_out q)%nat with false by lia. eexists. split; [reflexivity|]. by split_and!; simpl; try lia. }
  replace (1132 <=? io_out q)%nat with true in * by lia. change sizeof_get_imported_devices with 1132 in *.
  destruct (Z.eqb_spec (Policy.field 0 4 (io_buf q)) 1132) as [He|]; cbn [negb] in *; [apply Hok; lia|].
  eexists. split; [reflexivity|]. by split_and!; simpl; try lia.
Qed.

(** Bytes after a terminator are those the system buffer had before: nothing clears it, so the
    caller gets memory it did not supply. *)
Lemma stale_bytes_reported old s chars k :
  unicode_to_utf8 (length old) s = (STATUS_SUCCESS, chars) -> (length chars < k)%nat ->
  snd (utf8_into unicode_to_utf8 old s) !! k = old !! k.
Proof.
  intros Hc Hk. unfold utf8_into. rewrite Hc. simpl. destruct (decide (k < length old)%nat).
  - replace (length chars <? length old)%nat with true by lia.
    rewrite lookup_take_lt, lookup_app_r, lookup_app_r, lookup_drop by (simpl; lia). f_equal. simpl. lia.
  - rewrite lookup_take_ge by lia. symmetry. apply lookup_ge_None. lia.
Qed.
End reporting.

(** ** Examples: one attached device is reported *)
Module Demo.

#[local] Instance framework : Controller unit := {
  workitem_create x := (STATUS_SUCCESS, x);
  try_handle_user_ioctl x _ := (false, x);
  forward_to_default x _ := (STATUS_SUCCESS, x);
  retrieve_empty := Err STATUS_BUFFER_TOO_SMALL }.

(** The value of the persistent devices; a query that does not fit is a warning and tells its size. *)
#[local] Instance persistent_key : PersistentKey (list byte) := {
  key_open _ := STATUS_SUCCESS;
  key_open_for_set _ := STATUS_SUCCESS;
  key_query k len := if Z.of_nat (length k) <=? len then (STATUS_SUCCESS, k, Z.of_nat (length k), REG_MULTI_SZ)
                     else (STATUS_BUFFER_OVERFLOW, [], Z.of_nat (length k), REG_MULTI_SZ);
  key_assign _ _ data := (STATUS_SUCCESS, data) }.

Definition claimed : world unit :=
  match claim_roothub_port Vhci.Demo.start 2%positive with Some (_, w) => w | None => Vhci.Demo.start end.

Lemma claimed_ok : ports_ok claimed.
Proof.
  unfold claimed. destruct (claim_ok Vhci.Demo.start 2%positive (Vhci.Demo.stick USB_SPEED_SUPER) Vhci.Demo.start_ok eq_refl eq_refl)
    as (p & w' & -> & Hok & _). exact Hok.
Qed.

Lemma attached_claimed : attached claimed = [with_port (Vhci.Demo.stick USB_SPEED_SUPER) 3].
Proof. vm_compute. reflexivity. Qed.

Lemma claimed_properties c : c ∈ attached claimed -> properties_ok (properties (attr c)).
Proof. rewrite attached_claimed, list_elem_of_singleton. intros ->. by constructor. Qed.

(** A request with room for one device; the caller filled the buffer. *)
Definition report : ioctl :=
  {| io_request := 50%positive; io_code := GET_IMPORTED_DEVICES;
     io_buf := le_bytes 4 1132 ++ replicate 1128 x55; io_in := 4; io_out := 1132 |}.

Lemma claimed_reportable : Forall (reportable Events.Demo.utf8) (attached claimed).
Proof.
  rewrite attached_claimed. repeat constructor; (eexists; split; [reflexivity|]; split; [simpl; lia|];
    apply (bool_decide_unpack _); vm_compute; exact I).
Qed.

(** A persistent value that does not fit: the status is a warning, with which the announced bytes
    are copied to the caller, and there are more of them than the buffer has. *)
Lemma persistent_value_overruns :
  let rp := get_persistent (replicate 20 x41)
              {| io_request := 51%positive; io_code := GET_PERSISTENT; io_buf := [x00; x00; x00; x00]; io_in := 0; io_out := 4 |} in
  rp_status rp = STATUS_BUFFER_OVERFLOW /\ NT_ERROR (rp_status rp) = false /\ rp_info rp = 20 /\ length (rp_buf rp) = 4%nat.
Proof. vm_compute. auto. Qed.
End Demo.

Lemma imported_devices_reported_witness :
  exists rp, get_imported_devices (H2 := Demo.framework) Events.Demo.utf8 Demo.claimed Demo.report = Some rp /\
    rp_status rp = STATUS_SUCCESS /\ rp_info rp = 1132 /\
    loc_port (location_at 4 (rp_buf rp)) = 3 /\ devid (properties_at 1100 (rp_buf rp)) = 65538.
Proof.
  destruct (imported_devices_reported (H := Demo.framework) Events.Demo.utf8 Demo.claimed Demo.report Demo.claimed_ok Demo.claimed_properties
    ltac:(vm_compute; lia)) as (rp & Hx & _ & _ & _ & Hs & Hst).
  exists rp. split; [exact Hx|]. specialize (Hst Demo.claimed_reportable). rewrite Demo.attached_claimed in Hst, Hs.
  assert (rp_status rp = STATUS_SUCCESS) as Hok by (rewrite Hst; vm_compute; reflexivity).
  destruct (Hs Hok) as [Hi Hr]. split; [exact Hok|]. split; [exact Hi|].
  destruct (Hr 0%nat _ eq_refl) as [Hp _ _ _ Hpr].
  { pose proof Demo.claimed_reportable as Hc. rewrite Demo.attached_claimed in Hc. by apply list.Forall_cons in Hc as [? _]. }
  split; [exact Hp|]. exact (f_equal devid Hpr).
Defined.
