(* ===== verification/FilterIrp.v ===== *)
(** * Requests the filter driver makes

    drivers/ude_filter/int_dev_ctrl.cpp with libdrv/select.cpp, urb_ptr.h, unique_ptr.h and irp.h: the filter driver
    repeats some of the URBs that have passed it, in IRPs, URBs and buffers of its own (FilterReq packs them).
    [None] is memory that is not there: a stack location out of an IRP, or what was freed. *)

From S2P Require Import Prelude Usbd FilterReq.
From S2P Require Policy Ioctl.

Definition in_memory (b : bool) : option unit := if b then Some tt else None.

(** ** The copy of a SELECT_CONFIGURATION request (select.cpp) *)

(** Offsets of _URB_SELECT_CONFIGURATION: Hdr.Length, ConfigurationDescriptor. *)
Definition hdr_length (src : list byte) : Z := Policy.field 0 2 src.
Definition CONFIGURATION_DESCRIPTOR_OFFSET : nat := 24.
Definition sizeof_pointer : nat := 8.

(** USB_CONFIGURATION_DESCRIPTOR.wTotalLength *)
Definition wTotalLength (cd : list byte) : option Z := if (4 <=? length cd)%nat then Some (Policy.field 2 2 cd) else None.

(** The URB and the descriptor it points to as bytes; the memory at [dst], if it is allocated, holds [junk]. *)
Definition clone (allocated : bool) (dst : Z) (junk : list byte) (src : list byte) (cd : option (list byte)) : option (Z * option (list byte)) :=
  cd_len ← match cd with Some d => wTotalLength d | None => Some 0 end;
  let size := u32 (hdr_length src + cd_len) in
  if negb allocated then Some (size, None)
  else
    let len := Z.to_nat (hdr_length src) in
    _ ← in_memory ((len <=? length src)%nat && (Z.of_nat (length junk) =? size));
    let mem := Ioctl.write_at 0 (take len src) junk in
    match cd with
    | Some d =>
        if cd_len =? 0 then Some (size, Some mem)
        else
          _ ← in_memory ((CONFIGURATION_DESCRIPTOR_OFFSET + sizeof_pointer <=? length mem)%nat && (Z.to_nat cd_len <=? length d)%nat);
          let mem := Ioctl.write_at CONFIGURATION_DESCRIPTOR_OFFSET (le_bytes sizeof_pointer (dst + Z.of_nat len)) mem in
          Some (size, Some (Ioctl.write_at len (take (Z.to_nat cd_len) d) mem))
    | None => Some (size, Some mem)
    end.

(** ** The I/O manager *)

Definition IRP_MJ_INTERNAL_DEVICE_CONTROL : Z := 0xF.
Definition IOCTL_INTERNAL_USB_SUBMIT_URB : Z := 0x220003.

(** IO_STACK_LOCATION: [Argument1] of Parameters.Others is a URB. *)
Record location : Type := { MajorFunction : Z; IoControlCode : Z; Argument1 : option positive; CompletionRoutine : bool }.

Definition empty_location : location := {| MajorFunction := 0; IoControlCode := 0; Argument1 := None; CompletionRoutine := false |}.

(** An IRP: its stack locations with the room there is behind them, and which is the current one, counted from one. *)
Record irp : Type := { locations : list location; CurrentLocation : nat }.

(** Objects by their addresses, a URB with the address of its buffer; [sent]: IRPs the driver below has; [submitted]: the URBs it was given,
    in order; [answers]: which allocations succeed, the last for good. *)
Record world : Type := {
  irps : gmap positive irp; urbs : gmap positive (urb_control * positive); bufs : gmap positive transfer_buffer;
  sent : list positive; submitted : list urb_control; answers : list bool }.

Definition set_irps (w : world) (m : gmap positive irp) : world :=
  {| irps := m; urbs := urbs w; bufs := bufs w; sent := sent w; submitted := submitted w; answers := answers w |}.
Definition set_urbs (w : world) (m : gmap positive (urb_control * positive)) : world :=
  {| irps := irps w; urbs := m; bufs := bufs w; sent := sent w; submitted := submitted w; answers := answers w |}.
Definition set_bufs (w : world) (m : gmap positive transfer_buffer) : world :=
  {| irps := irps w; urbs := urbs w; bufs := m; sent := sent w; submitted := submitted w; answers := answers w |}.
Definition set_sent (w : world) (l : list positive) (urbs' : list urb_control) : world :=
  {| irps := irps w; urbs := urbs w; bufs := bufs w; sent := l; submitted := urbs'; answers := answers w |}.

(** Whether the next allocation succeeds. *)
Definition answer (w : world) : bool * world :=
  match answers w with
  | [] => (true, w)
  | b :: l => (b, {| irps := irps w; urbs := urbs w; bufs := bufs w; sent := sent w; submitted := submitted w; answers := l |})
  end.

(** The indices of the current and the next stack location: the first of a new IRP is behind the last. *)
Definition IoGetCurrentIrpStackLocation (i : irp) : nat := CurrentLocation i - 1.
Definition IoGetNextIrpStackLocation (i : irp) : nat := CurrentLocation i - 2.

Definition write_location (i : irp) (n : nat) (f : location -> location) : option irp :=
  l ← locations i !! n; Some {| locations := <[n := f l]> (locations i); CurrentLocation := CurrentLocation i |}.

Definition set_request (l : location) : location :=
  {| MajorFunction := IRP_MJ_INTERNAL_DEVICE_CONTROL; IoControlCode := IOCTL_INTERNAL_USB_SUBMIT_URB; Argument1 := Argument1 l; CompletionRoutine := CompletionRoutine l |}.
Definition set_argument (u : positive) (l : location) : location :=
  {| MajorFunction := MajorFunction l; IoControlCode := IoControlCode l; Argument1 := Some u; CompletionRoutine := CompletionRoutine l |}.
Definition set_completion (l : location) : location :=
  {| MajorFunction := MajorFunction l; IoControlCode := IoControlCode l; Argument1 := Argument1 l; CompletionRoutine := true |}.

(** Freeing what is there. *)
Definition IoFreeIrp (w : world) (i : positive) : option world := _ ← irps w !! i; Some (set_irps w (delete i (irps w))).
Definition USBD_UrbFree (w : world) (u : positive) : option world :=
  _ ← urbs w !! u; Some (set_urbs w (delete u (urbs w))).
Definition free_buffer (w : world) (b : positive) : option world := _ ← bufs w !! b; Some (set_bufs w (delete b (bufs w))).

Section filter.
(** DEVICE_OBJECT.StackSize of the target; a URB as USBD_UrbAllocate returns it.  IoAllocateIrp promises the StackSize locations it is asked for and
    no more: [room] is how many more happen to lie in the memory it took, which the driver cannot know; it is zero when there are none.
    Nothing is assumed of it, see [filter_requests_own_memory]. *)
Context (StackSize room : nat) (new_urb : urb_control).

Definition IoAllocateIrp (w : world) : option positive * world :=
  let '(b, w) := answer w in
  if b then
    let i := fresh (dom (irps w)) in
    (Some i, set_irps w (<[i := {| locations := replicate (StackSize + room) empty_location; CurrentLocation := StackSize + 1 |}]> (irps w)))
  else (None, w).

Definition USBD_UrbAllocate (w : world) (b : positive) : option positive * world :=
  let '(r, w) := answer w in
  if r then let u := fresh (dom (urbs w)) in (Some u, set_urbs w (<[u := (new_urb, b)]> (urbs w))) else (None, w).

(** ** int_dev_ctrl.cpp *)

(** send_request of the buffer [b]: the status, whether the buffer was handed over; [st] is what IoCallDriver returns. *)
Definition send_request (w : world) (b : positive) (function : Z) (st : ntstatus) : option (ntstatus * bool * world) :=
  let '(i, w) := IoAllocateIrp w in
  match i with
  | None => Some (STATUS_INSUFFICIENT_RESOURCES, false, w)
  | Some i =>
      r ← irps w !! i;
      let n := IoGetNextIrpStackLocation r in
      r ← write_location r n set_request;
      let '(u, w) := USBD_UrbAllocate w b in
      match u with
      | None => w ← IoFreeIrp w i; Some (STATUS_INSUFFICIENT_RESOURCES, false, w)
      | Some u =>
          r ← write_location r n (set_argument u);
          content ← bufs w !! b;
          let urb := pack_request new_urb content function in
          let w := set_urbs w (<[u := (urb, b)]> (urbs w)) in
          r ← write_location r (IoGetCurrentIrpStackLocation r) (set_argument u);
          r ← write_location r n set_completion;
          (* IoCallDriver *)
          let r := {| locations := locations r; CurrentLocation := CurrentLocation r - 1 |} in
          let w := set_irps w (<[i := r]> (irps w)) in
          Some (st, true, set_sent w (sent w ++ [i]) (submitted w ++ [urb]))
      end
  end.

(** request_complete, called with the IRP at the location it had before it was sent. *)
Definition request_complete (w : world) (i : positive) : option world :=
  r ← irps w !! i;
  l ← locations r !! IoGetCurrentIrpStackLocation r;
  u ← Argument1 l;
  '(_, b) ← urbs w !! u;
  w ← free_buffer w b;
  w ← USBD_UrbFree w u;
  IoFreeIrp w i.

(** send_urb of a copy; its buffer is freed unless it was handed over. *)
Definition send_urb (w : world) (copy : transfer_buffer) (function : Z) (st : ntstatus) : option world :=
  let '(a, w) := answer w in
  if a then
    let b := fresh (dom (bufs w)) in
    let w := set_bufs w (<[b := copy]> (bufs w)) in
    '(_, released, w) ← send_request w b function st;
    if released : bool then Some w else free_buffer w b
  else Some w.

(** post_process_urb: the URB with its function and what is copied of it. *)
Definition repeat_urb (w : world) (function : Z) (copy : transfer_buffer) (st : ntstatus) : option world :=
  if is_request_function function then send_urb w copy function st else Some w.

Definition post_process_irp (w : world) (urb : option urb_control) (status : ntstatus) (copy : transfer_buffer) (st : ntstatus) : option world :=
  match urb with
  | None => Some w
  | Some r => if NT_ERROR status || USBD_ERROR (UrbStatus r) then Some w else repeat_urb w (Function r) copy st
  end.

(** A request from above: its URB, if it is of such a kind; the driver below completes it with [status] and the URB [back] (of the function it was given). *)
Record request : Type := {
  rq_hub : bool; rq_urb : option urb_control; rq_status : ntstatus; rq_back : urb_control -> urb_control; rq_copy : transfer_buffer; rq_call : ntstatus }.

(** int_dev_ctrl and irp_complete: the URB given to the driver below, the one the driver above gets back. *)
Definition int_dev_ctrl (w : world) (q : request) : option (option urb_control * option urb_control * world) :=
  if rq_hub q then Some (rq_urb q, rq_back q <$> rq_urb q, w)
  else
    match rq_urb q with
    | None => w ← post_process_irp w None (rq_status q) (rq_copy q) (rq_call q); Some (None, None, w)
    | Some r =>
        let '(context, r) := try_legacy_ctrl r in
        let back := rq_back q r in
        w ← (if negb (u16 context =? 0) then Some w else post_process_irp w (Some back) (rq_status q) (rq_copy q) (rq_call q));
        Some (Some r, Some (irp_complete context back), w)
    end.

(** What happens: a request from above passes, or the driver below completes the [n]-th IRP that it has. *)
Inductive op : Type := Pass (q : request) | Complete (n : nat).

(** The I/O manager completes an IRP whose completion routine was set. *)
Definition complete (w : world) (n : nat) : option world :=
  match sent w !! n with
  | None => Some w
  | Some i =>
      r ← irps w !! i;
      l ← locations r !! IoGetCurrentIrpStackLocation r;
      _ ← in_memory (CompletionRoutine l);
      let r := {| locations := locations r; CurrentLocation := CurrentLocation r + 1 |} in
      request_complete (set_sent (set_irps w (<[i := r]> (irps w))) (delete n (sent w)) (submitted w)) i
  end.

Definition step (w : world) (o : op) : option world :=
  match o with
  | Pass q => '(_, _, w) ← int_dev_ctrl w q; Some w
  | Complete n => complete w n
  end.

Fixpoint run (w : world) (os : list op) : option world :=
  match os with [] => Some w | o :: os => w ← step w o; run w os end.
End filter.

(** ** The copy *)

Lemma write_at_head (bs a b : list byte) : length bs = length a -> Ioctl.write_at 0 bs (a ++ b) = bs ++ b.
Proof. intros H. unfold Ioctl.write_at. cbn [take app Nat.add]. rewrite H, drop_app_length. done. Qed.

Lemma write_at_tail (bs a b : list byte) : length bs = length b -> Ioctl.write_at (length a) bs (a ++ b) = a ++ bs.
Proof. intros H. unfold Ioctl.write_at. rewrite take_app_length, drop_ge by (rewrite length_app; lia). by rewrite app_nil_r. Qed.

Lemma field_u16 off bs : 0 <= Policy.field off 2 bs < 2 ^ 16.
Proof.
  unfold Policy.field. pose proof (le_val_range (take 2 (drop off bs))) as H. rewrite length_take in H.
  destruct H as [H1 H2]. split; [done|]. change (2 ^ 16) with (256 ^ 2). eapply Z.lt_le_trans; [exact H2|]. apply Z.pow_le_mono_r; lia.
Qed.

(** A copy with a descriptor is one block of memory: the URB, but for the pointer, which leads to the descriptor behind it. *)
Lemma clone_self_contained dst junk src d n : let len := Z.to_nat (hdr_length src) in
  wTotalLength d = Some n -> 0 < n -> (Z.to_nat n <= length d)%nat -> (32 <= len <= length src)%nat -> Z.of_nat (length junk) = hdr_length src + n ->
  clone true dst junk src (Some d) =
    Some (hdr_length src + n, Some (take 24 src ++ le_bytes 8 (dst + hdr_length src) ++ drop 32 (take len src) ++ take (Z.to_nat n) d)).
Proof.
  intros len Hn Hpos Hd Hlen Hj. unfold clone. rewrite Hn. cbn [mbind option_bind negb].
  assert (0 <= hdr_length src < 2 ^ 16) as Hh by apply field_u16.
  assert (n < 2 ^ 16) as Hn2 by (unfold wTotalLength in Hn; destruct (_ <=? _)%nat; [injection Hn as <-; apply field_u16|done]).
  assert (u32 (hdr_length src + n) = hdr_length src + n) as -> by (unfold u32; apply Z.mod_small; lia).
  fold len. rewrite (proj2 (Nat.leb_le len (length src))), (proj2 (Z.eqb_eq (Z.of_nat (length junk)) _)) by lia. cbn [andb in_memory mbind option_bind].
  rewrite (proj2 (Z.eqb_neq n 0)) by lia.
  assert (exists j1 j2, junk = j1 ++ j2 /\ length j1 = len /\ length j2 = Z.to_nat n) as (j1 & j2 & -> & Hj1 & Hj2).
  { exists (take len junk), (drop len junk). rewrite take_drop, length_take, length_drop. split; [done|]. lia. }
  rewrite write_at_head by (rewrite length_take; lia).
  set (a := take len src). assert (length a = len) as Ha by (unfold a; rewrite length_take; lia).
  rewrite (proj2 (Nat.leb_le (CONFIGURATION_DESCRIPTOR_OFFSET + sizeof_pointer) _)), (proj2 (Nat.leb_le (Z.to_nat n) (length d))) by (rewrite ?length_app; unfold CONFIGURATION_DESCRIPTOR_OFFSET, sizeof_pointer; lia).
  cbn [andb in_memory mbind option_bind]. f_equal. f_equal. f_equal.
  replace (Z.of_nat len) with (hdr_length src) by lia. set (p := le_bytes sizeof_pointer _).
  assert (length p = 8%nat) as Hp by (unfold p; apply length_le_bytes).
  assert (Ioctl.write_at CONFIGURATION_DESCRIPTOR_OFFSET p (a ++ j2) = (take 24 a ++ p ++ drop 32 a) ++ j2) as ->.
  { unfold Ioctl.write_at, CONFIGURATION_DESCRIPTOR_OFFSET. rewrite Hp. rewrite take_app_le, drop_app_le by lia. by rewrite <- !app_assoc. }
  assert (length (take 24 a ++ p ++ drop 32 a) = len) as Hl by (rewrite !length_app, length_take, length_drop; lia).
  rewrite <- Hl at 1. rewrite write_at_tail by (rewrite length_take; lia).
  rewrite <- !app_assoc. f_equal. unfold a. rewrite take_take. f_equal. lia.
Qed.

(** ** Ownership *)


(** An IRP that was sent, with its URB and buffer. *)
Record in_flight : Type := { fl_irp : positive; fl_urb : positive; fl_buf : positive }.

(** The objects of [m] are exactly those that [g] names, each once. *)
Definition owned {A} (g : in_flight -> positive) (m : gmap positive A) (fs : list in_flight) : Prop :=
  NoDup (map g fs) /\ dom m = list_to_set (map g fs).

Lemma owned_insert {A} g (m : gmap positive A) fs f x : owned g m fs -> m !! g f = None -> owned g (<[g f := x]> m) (fs ++ [f]).
Proof.
  intros [Hn Hd] Hf. assert (g f ∉ map g fs) by (apply not_elem_of_dom in Hf; rewrite Hd in Hf; set_solver).
  split; rewrite map_app; [|rewrite dom_insert_L, Hd, list_to_set_app_L; set_solver].
  apply list.NoDup_app; repeat split; [done| |apply list.NoDup_singleton]. intros y Hy E. apply list_elem_of_singleton in E. by subst.
Qed.

Lemma owned_delete {A} g (m : gmap positive A) fs n f : owned g m fs -> fs !! n = Some f -> owned g (delete (g f) m) (delete n fs).
Proof.
  intros [Hn Hd] Hf. rewrite list_delete_middle_take with (x := f) || idtac.
  rewrite <- (take_drop_middle fs n f Hf), map_app in Hn, Hd. cbn [map] in Hn, Hd.
  rewrite delete_take_drop. apply list.NoDup_app in Hn as (H1 & H2 & H3). apply list.NoDup_cons in H3 as [H3 H4].
  split; rewrite map_app.
  - apply list.NoDup_app. repeat split; [done| |done]. intros x Hx Hx2. apply (H2 x Hx). by right.
  - rewrite dom_delete_L, Hd, !list_to_set_app_L, list_to_set_cons. specialize (H2 (g f)). set_solver.
Qed.

Lemma owned_other {A} g (m : gmap positive A) fs n f f' : owned g m fs -> fs !! n = Some f -> f' ∈ delete n fs -> g f' <> g f.
Proof.
  intros H Hf Hin. destruct (owned_delete g m fs n f H Hf) as [_ Hd]. intros E.
  assert (g f' ∈ dom (delete (g f) m)) by (rewrite Hd; apply elem_of_list_to_set, list_elem_of_fmap; eauto). set_solver.
Qed.

Lemma answer_world w : exists b, answer w = (b, {| irps := irps w; urbs := urbs w; bufs := bufs w; sent := sent w; submitted := submitted w; answers := tail (answers w) |}) /\ (answers w = [] -> b = true).
Proof. unfold answer. destruct (answers w) as [|b l] eqn:E; [exists true; destruct w; cbn in *; by subst|]. exists b. done. Qed.

Lemma irp_written (i : irp) n f l : locations i !! n = Some l ->
  write_location i n f = Some {| locations := <[n := f l]> (locations i); CurrentLocation := CurrentLocation i |}.
Proof. intros H. unfold write_location. by rewrite H. Qed.

Lemma irp_not_written (i : irp) n f : locations i !! n = None -> write_location i n f = None.
Proof. intros H. unfold write_location. by rewrite H. Qed.

Section ownership.
Context (StackSize room : nat) (new_urb : urb_control) (HStackSize : (1 <= StackSize)%nat).

Abbreviation run := (run StackSize room new_urb).
Abbreviation step := (step StackSize room new_urb).

(** An IRP the driver below has: its request, and the URB where the completion routine looks for it. *)
Record irp_sent (r : irp) (u : positive) : Prop := {
  is_length : length (locations r) = (StackSize + room)%nat;
  is_current : CurrentLocation r = StackSize;
  is_behind : exists l, locations r !! StackSize = Some l /\ Argument1 l = Some u;
  is_request : locations r !! (StackSize - 1)%nat =
    Some {| MajorFunction := IRP_MJ_INTERNAL_DEVICE_CONTROL; IoControlCode := IOCTL_INTERNAL_USB_SUBMIT_URB; Argument1 := Some u; CompletionRoutine := true |} }.

Record flight_ok (w : world) (f : in_flight) : Prop := {
  fo_irp : exists r, irps w !! fl_irp f = Some r /\ irp_sent r (fl_urb f);
  fo_urb : exists r, urbs w !! fl_urb f = Some (r, fl_buf f);
  fo_buf : is_Some (bufs w !! fl_buf f) }.

(** Everything allocated belongs to an IRP that was sent, and to one only. *)
Record balanced (w : world) (fs : list in_flight) : Prop := {
  ba_sent : sent w = map fl_irp fs;
  ba_irps : owned fl_irp (irps w) fs;
  ba_urbs : owned fl_urb (urbs w) fs;
  ba_bufs : owned fl_buf (bufs w) fs;
  ba_flights : Forall (flight_ok w) fs }.

Definition new_locations : list location := replicate (StackSize + room) empty_location.
Definition sent_locations (u : positive) : list location :=
  <[(StackSize - 1)%nat := set_completion (set_argument u (set_request empty_location))]>
    (<[StackSize := set_argument u empty_location]>
      (<[(StackSize - 1)%nat := set_argument u (set_request empty_location)]>
        (<[(StackSize - 1)%nat := set_request empty_location]> new_locations))).

Lemma new_location n : (n < StackSize + room)%nat -> new_locations !! n = Some empty_location.
Proof. intros H. by apply lookup_replicate_2. Qed.

Lemma length_new : length new_locations = (StackSize + room)%nat.
Proof. apply length_replicate. Qed.

Lemma sent_irp_sent u : (1 <= room)%nat -> irp_sent {| locations := sent_locations u; CurrentLocation := StackSize |} u.
Proof.
  intros Hr. unfold sent_locations. split; cbn [locations CurrentLocation].
  - rewrite !length_insert. apply length_new.
  - done.
  - exists (set_argument u empty_location). split; [|done].
    rewrite list_lookup_insert_ne by lia. rewrite list_lookup_insert_eq; [done|]. rewrite !length_insert, length_new. lia.
  - rewrite list_lookup_insert_eq; [done|]. rewrite !length_insert, length_new. lia.
Qed.

(** What the driver below gets of the buffer [b]. *)
Definition sent_world (w : world) (b : positive) (content : transfer_buffer) (function : Z) : world :=
  let i := fresh (dom (irps w)) in
  let u := fresh (dom (urbs w)) in
  let urb := pack_request new_urb content function in
  {| irps := <[i := {| locations := sent_locations u; CurrentLocation := StackSize |}]> (irps w); urbs := <[u := (urb, b)]> (urbs w); bufs := bufs w;
     sent := sent w ++ [i]; submitted := submitted w ++ [urb]; answers := tail (tail (answers w)) |}.

Definition with_answers (w : world) (l : list bool) : world :=
  {| irps := irps w; urbs := urbs w; bufs := bufs w; sent := sent w; submitted := submitted w; answers := l |}.

Lemma fresh_lookup {A} (m : gmap positive A) : m !! fresh (dom m) = None.
Proof. apply not_elem_of_dom. apply is_fresh. Qed.

(** The request is sent, or the buffer is still the caller's and nothing else is left behind. *)
Lemma send_request_spec w b content function st : (1 <= room)%nat -> bufs w !! b = Some content ->
  (exists l, answers w <> [] /\ send_request StackSize room new_urb w b function st = Some (STATUS_INSUFFICIENT_RESOURCES, false, with_answers w l)) \/
  send_request StackSize room new_urb w b function st = Some (st, true, sent_world w b content function).
Proof.
  intros Hr Hb. unfold send_request, IoAllocateIrp. destruct (answer_world w) as (a & -> & Ha).
  destruct a; [|left; eexists; split; [intros E; by specialize (Ha E)|reflexivity]].
  unfold set_irps. cbn [irps urbs bufs sent submitted answers]. set (i := fresh (dom (irps w))).
  rewrite lookup_insert_eq. cbn [mbind option_bind]. unfold IoGetNextIrpStackLocation. cbn [CurrentLocation].
  replace (StackSize + 1 - 2)%nat with (StackSize - 1)%nat by lia. change (replicate (StackSize + room) empty_location) with new_locations.
  erewrite irp_written by (cbn [locations]; apply new_location; lia). cbn [mbind option_bind locations CurrentLocation].
  unfold USBD_UrbAllocate, set_urbs.
  set (w1 := {| irps := _; answers := _ |}). destruct (answer_world w1) as (a & Ea & Ha2). rewrite Ea. unfold w1 in *. cbn [answers] in *. clear w1 Ea.
  assert (StackSize - 1 < StackSize + room)%nat by lia. assert (StackSize < StackSize + room)%nat by lia.
  destruct a; cbn [mbind option_bind irps urbs bufs sent submitted answers].
  - right. erewrite irp_written by (cbn [locations]; rewrite list_lookup_insert_eq by (rewrite length_new; lia); reflexivity).
    cbn [mbind option_bind locations CurrentLocation]. rewrite Hb. cbn [mbind option_bind]. unfold IoGetCurrentIrpStackLocation. cbn [CurrentLocation].
    replace (StackSize + 1 - 1)%nat with StackSize by lia.
    erewrite irp_written by (cbn [locations]; rewrite !list_lookup_insert_ne by lia; apply new_location; lia). cbn [mbind option_bind locations CurrentLocation].
    erewrite irp_written by (cbn [locations]; rewrite list_lookup_insert_ne, list_lookup_insert_eq by (rewrite ?length_insert, ?length_new; lia); reflexivity).
    cbn [mbind option_bind locations CurrentLocation]. unfold set_sent. cbn [irps urbs bufs sent submitted answers].
    replace (StackSize + 1 - 1)%nat with StackSize by lia. unfold sent_world. rewrite !insert_insert_eq. reflexivity.
  - left. unfold IoFreeIrp, set_irps. cbn [irps urbs bufs sent submitted answers]. rewrite lookup_insert_eq. cbn [mbind option_bind].
    rewrite delete_insert_id by apply fresh_lookup. exists (tail (tail (answers w))). split; [|done].
    intros E. rewrite E in Ha2. by specialize (Ha2 eq_refl).
Qed.

Lemma flight_frame w w' f : irps w' !! fl_irp f = irps w !! fl_irp f -> urbs w' !! fl_urb f = urbs w !! fl_urb f -> bufs w' !! fl_buf f = bufs w !! fl_buf f ->
  flight_ok w f -> flight_ok w' f.
Proof. intros E1 E2 E3 [H1 H2 H3]. split; [rewrite E1; done|rewrite E2; done|rewrite E3; done]. Qed.

Lemma balanced_answers w fs l : balanced w fs -> balanced (with_answers w l) fs.
Proof. intros []. split; [done..|]. eapply list.Forall_impl; [done|]. intros f. by apply flight_frame. Qed.

Lemma flight_in w fs f : balanced w fs -> f ∈ fs -> flight_ok w f.
Proof. intros H. apply list.Forall_forall, ba_flights, H. Qed.

(** A buffer that was handed over belongs to the IRP that was sent. *)
Lemma balanced_sent w fs content function : (1 <= room)%nat -> balanced w fs ->
  let b := fresh (dom (bufs w)) in
  balanced (sent_world (set_bufs w (<[b := content]> (bufs w))) b content function)
    (fs ++ [{| fl_irp := fresh (dom (irps w)); fl_urb := fresh (dom (urbs w)); fl_buf := b |}]).
Proof.
  intros Hr H b. set (f := {| fl_irp := _ |}). pose proof H as [Hs Hi Hu Hb Hf]. split; cbn [sent_world set_bufs irps urbs bufs sent].
  - by rewrite Hs, map_app.
  - apply (owned_insert fl_irp _ _ f); [done|apply fresh_lookup].
  - apply (owned_insert fl_urb _ _ f); [done|apply fresh_lookup].
  - apply (owned_insert fl_buf _ _ f); [done|apply fresh_lookup].
  - apply list.Forall_app. split.
    + apply list.Forall_forall. intros f' Hf'. apply (flight_in w fs f' H) in Hf'. destruct (Hf') as [(r & E1 & _) [u E2] [x E3]]. 
      apply (flight_frame w); [| | |done]; cbn [sent_world set_bufs irps urbs bufs]; rewrite lookup_insert_ne; try done; intros E.
      * pose proof (fresh_lookup (irps w)) as Hn. rewrite E in Hn. congruence.
      * pose proof (fresh_lookup (urbs w)) as Hn. rewrite E in Hn. congruence.
      * pose proof (fresh_lookup (bufs w)) as Hn. fold b in Hn. rewrite E in Hn. congruence.
    + apply list.Forall_singleton. split; cbn [sent_world set_bufs irps urbs bufs f fl_irp fl_urb fl_buf].
      * eexists. split; [apply lookup_insert_eq|]. apply sent_irp_sent, Hr.
      * eexists. apply lookup_insert_eq.
      * rewrite lookup_insert_eq. done.
Qed.

(** A repeated URB is given to the driver below, unless memory for it could not be allocated: nothing is kept then. *)
Lemma send_urb_spec w fs copy function st : (1 <= room)%nat -> balanced w fs -> exists w' fs', send_urb StackSize room new_urb w copy function st = Some w' /\ balanced w' fs' /\
  (answers w = [] -> answers w' = [] /\ submitted w' = submitted w ++ [pack_request new_urb copy function]).
Proof.
  intros Hr H. unfold send_urb. destruct (answer_world w) as (a & -> & Ha). fold (with_answers w (tail (answers w))). set (w1 := with_answers w _).
  apply (balanced_answers w fs (tail (answers w))) in H. fold w1 in H.
  destruct a; [|exists w1, fs; split; [done|]; split; [done|]; intros E; by specialize (Ha E)].
  set (b := fresh (dom (bufs w1))). set (w2 := set_bufs w1 _).
  destruct (send_request_spec w2 b copy function st Hr) as [(l & Hl & ->)| ->].
  - apply lookup_insert_eq.
  - cbn [mbind option_bind]. unfold free_buffer, w2. cbn [with_answers set_bufs bufs]. rewrite lookup_insert_eq. cbn [mbind option_bind].
    rewrite delete_insert_id by apply fresh_lookup. eexists _, fs. split; [reflexivity|]. split; [by apply (balanced_answers w1 fs l)|].
    intros E. exfalso. apply Hl. cbn. by rewrite E.
  - cbn [mbind option_bind]. eexists _, _. split; [reflexivity|]. split; [by apply balanced_sent|]. intros E. cbn. by rewrite E.
Qed.

(** The completion routine frees what was sent, from where it was put. *)
Lemma complete_spec w fs n : balanced w fs -> exists w', complete w n = Some w' /\ balanced w' (delete n fs) /\ answers w' = answers w /\ submitted w' = submitted w.
Proof.
  intros H. pose proof H as [Hs Hi Hu Hb Hf]. unfold complete. rewrite Hs, list_lookup_fmap.
  destruct (fs !! n) as [f|] eqn:E; cbn [fmap option_fmap option_map]; cycle 1.
  { exists w. apply lookup_ge_None in E. rewrite delete_take_drop, take_ge, drop_ge, app_nil_r by lia. done. }
  destruct (flight_in w fs f H) as [(r & E1 & Hr) (urb & E2) [x E3]]; [by eapply list_elem_of_lookup_2|]. rewrite E1. cbn [mbind option_bind].
  unfold IoGetCurrentIrpStackLocation. rewrite (is_current r _ Hr), (is_request r _ Hr). cbn [mbind option_bind CompletionRoutine in_memory].
  destruct (is_behind r _ Hr) as (l & E4 & E5). unfold request_complete, set_sent, set_irps. cbn [irps urbs bufs sent submitted answers].
  rewrite lookup_insert_eq. cbn [mbind option_bind locations]. unfold IoGetCurrentIrpStackLocation. cbn [CurrentLocation].
  replace (StackSize + 1 - 1)%nat with StackSize by lia. rewrite E4. cbn [mbind option_bind]. rewrite E5. cbn [mbind option_bind]. rewrite E2. cbn [mbind option_bind].
  unfold free_buffer, USBD_UrbFree, IoFreeIrp, set_bufs, set_urbs, set_irps. cbn [irps urbs bufs sent submitted answers]. rewrite E3. cbn [mbind option_bind].
  cbn [irps urbs bufs sent submitted answers]. rewrite E2. cbn [mbind option_bind irps urbs bufs sent submitted answers].
  rewrite lookup_insert_eq. cbn [mbind option_bind]. rewrite delete_insert_eq. eexists. split; [reflexivity|]. split; [|done].
  split; cbn [irps urbs bufs sent].
  - by rewrite list_fmap_delete.
  - by apply owned_delete.
  - by apply owned_delete.
  - by apply owned_delete.
  - apply list.Forall_forall. intros f' Hin. assert (f' ∈ fs) by (eapply list_elem_of_delete_inv; eauto).
    apply (flight_frame w); [| | |by apply (flight_in w fs)]; cbn [irps urbs bufs]; rewrite lookup_delete_ne; try done; intros Eq; symmetry in Eq; revert Eq; by eapply owned_other.
Qed.

(** What passing a request makes the driver send: the URB that was carried out, when it is one of those to repeat. *)
Definition repeated (q : request) : list urb_control :=
  if rq_hub q then []
  else
    match rq_urb q with
    | None => []
    | Some r =>
        let '(context, r) := try_legacy_ctrl r in
        let back := rq_back q r in
        if (u16 context =? 0) && negb (NT_ERROR (rq_status q) || USBD_ERROR (UrbStatus back)) && is_request_function (Function back)
        then [pack_request new_urb (rq_copy q) (Function back)] else []
    end.

Definition repeated_by (o : op) : list urb_control := match o with Pass q => repeated q | Complete _ => [] end.

Lemma int_dev_ctrl_spec w fs q : (1 <= room)%nat -> balanced w fs -> exists below above w' fs', int_dev_ctrl StackSize room new_urb w q = Some (below, above, w') /\
  balanced w' fs' /\ (answers w = [] -> answers w' = [] /\ submitted w' = submitted w ++ repeated q).
Proof.
  intros Hr H. unfold int_dev_ctrl, repeated.
  assert (forall (x y : option urb_control), exists below above w' fs', Some (x, y, w) = Some (below, above, w') /\ balanced w' fs' /\
    (answers w = [] -> answers w' = [] /\ submitted w' = submitted w ++ [])) as Hnone.
  { intros x y. exists x, y, w, fs. rewrite app_nil_r. done. }
  destruct (rq_hub q); [apply Hnone|]. destruct (rq_urb q) as [r|]; [|apply Hnone]. destruct (try_legacy_ctrl r) as [context r'].
  destruct (u16 context =? 0); cbn [negb andb]; [|apply Hnone]. unfold post_process_irp.
  destruct (_ || _); cbn [negb andb]; [apply Hnone|]. unfold repeat_urb. destruct (is_request_function _); [|apply Hnone].
  destruct (send_urb_spec w fs (rq_copy q) (Function (rq_back q r')) (rq_call q) Hr H) as (w' & fs' & -> & H1 & H2). cbn [mbind option_bind].
  eexists _, _, w', fs'. done.
Qed.

Lemma step_spec w fs o : (1 <= room)%nat -> balanced w fs -> exists w' fs', step w o = Some w' /\ balanced w' fs' /\
  (answers w = [] -> answers w' = [] /\ submitted w' = submitted w ++ repeated_by o).
Proof.
  intros Hr H. destruct o as [q|n]; cbn [FilterIrp.step repeated_by].
  - destruct (int_dev_ctrl_spec w fs q Hr H) as (x & y & w' & fs' & -> & H1). exists w', fs'. done.
  - destruct (complete_spec w fs n H) as (w' & -> & H1 & H2 & H3). exists w', (delete n fs). rewrite H2, H3, app_nil_r. done.
Qed.

Lemma run_spec os : (1 <= room)%nat -> forall w fs, balanced w fs -> exists w' fs', run w os = Some w' /\ balanced w' fs' /\
  (answers w = [] -> submitted w' = submitted w ++ flat_map repeated_by os).
Proof.
  intros Hr. induction os as [|o os IH]; intros w fs H; cbn [FilterIrp.run flat_map]; [exists w, fs; rewrite app_nil_r; done|].
  destruct (step_spec w fs o Hr H) as (w1 & fs1 & -> & H1 & H2). cbn [mbind option_bind].
  destruct (IH w1 fs1 H1) as (w2 & fs2 & -> & H3 & H4). exists w2, fs2. split; [done|]. split; [done|].
  intros E. destruct (H2 E) as [E1 E2]. by rewrite (H4 E1), E2, <- app_assoc.
Qed.

(** Before the first request. *)
Definition start (l : list bool) : world := {| irps := ∅; urbs := ∅; bufs := ∅; sent := []; submitted := []; answers := l |}.

Lemma balanced_start l : balanced (start l) [].
Proof. split; try done; (split; [apply base.NoDup_nil_2|apply dom_empty_L]). Qed.

Lemma balanced_empty w fs : balanced w fs -> sent w = [] -> irps w = ∅ /\ urbs w = ∅ /\ bufs w = ∅.
Proof.
  intros [Hs [_ Hi] [_ Hu] [_ Hb] _] E. rewrite E in Hs. destruct fs; [|done]. split; [|split]; by apply dom_empty_inv_L.
Qed.

(** An IRP has as many locations as were asked for: the URB for the completion routine is written behind them. *)
Lemma no_location_behind w b content function st : room = 0%nat -> bufs w !! b = Some content -> answers w = [] ->
  send_request StackSize room new_urb w b function st = None.
Proof.
  intros Hr Hb E. unfold send_request, IoAllocateIrp, answer. rewrite E. unfold set_irps. cbn [irps urbs bufs sent submitted answers].
  rewrite lookup_insert_eq. cbn [mbind option_bind]. unfold IoGetNextIrpStackLocation. cbn [CurrentLocation].
  replace (StackSize + 1 - 2)%nat with (StackSize - 1)%nat by lia. change (replicate (StackSize + room) empty_location) with new_locations.
  erewrite irp_written by (cbn [locations]; apply new_location; lia). cbn [mbind option_bind locations CurrentLocation].
  unfold USBD_UrbAllocate, set_urbs, answer. cbn [irps urbs bufs sent submitted answers]. rewrite E. cbn [irps urbs bufs sent submitted answers].
  erewrite irp_written by (cbn [locations]; rewrite list_lookup_insert_eq by (rewrite length_new; lia); reflexivity).
  cbn [mbind option_bind locations CurrentLocation bufs]. rewrite Hb. cbn [mbind option_bind]. unfold IoGetCurrentIrpStackLocation. cbn [CurrentLocation].
  rewrite irp_not_written; [done|]. apply lookup_ge_None_2. cbn [locations]. rewrite !length_insert, length_new. lia.
Qed.

(** Without such room a driver with nothing in flight goes on only while nothing is repeated. *)
Lemma no_room_step o : room = 0%nat -> step (start []) o = if bool_decide (repeated_by o = []) then Some (start []) else None.
Proof.
  intros Hr. destruct o as [q|n]; cbn [FilterIrp.step repeated_by]; [|rewrite bool_decide_eq_true_2 by done; by destruct n].
  unfold int_dev_ctrl, repeated. destruct (rq_hub q); [rewrite bool_decide_eq_true_2 by done; done|]. destruct (rq_urb q) as [r|]; [|rewrite bool_decide_eq_true_2 by done; done].
  destruct (try_legacy_ctrl r) as [context r']. destruct (u16 context =? 0); cbn [negb andb]; [|rewrite bool_decide_eq_true_2 by done; done].
  unfold post_process_irp. destruct (_ || _); cbn [negb andb]; [rewrite bool_decide_eq_true_2 by done; done|]. unfold repeat_urb.
  destruct (is_request_function _); [|rewrite bool_decide_eq_true_2 by done; done]. rewrite bool_decide_eq_false_2 by done.
  unfold send_urb, answer. cbn [start answers]. rewrite (no_location_behind _ _ (rq_copy q)); [done..| |done]. apply lookup_insert_eq.
Qed.

Lemma no_room_run os : room = 0%nat -> run (start []) os = if bool_decide (flat_map repeated_by os = []) then Some (start []) else None.
Proof.
  intros Hr. induction os as [|o os IH]; cbn [FilterIrp.run flat_map]; [by rewrite bool_decide_eq_true_2|].
  rewrite no_room_step by done. destruct (bool_decide_reflect (repeated_by o = [])) as [Ho|Ho]; cbn [mbind option_bind].
  - rewrite Ho. exact IH.
  - rewrite bool_decide_eq_false_2; [done|]. by intros [? _]%app_eq_nil.
Qed.

(** C33: whether the requests that the filter driver makes stay in their memory depends on how much of it an IRP has: the driver writes to one stack location
    more than it asks for.  When there is room for one, then whatever passes, in whatever order the driver below completes and whatever
    allocations fail, they touch only memory that is there; every IRP, URB and buffer belongs to one request in
    flight, so nothing is left when none is; and while no allocation fails the driver below is given exactly
    the URBs to repeat, in their order.  When there is none the first URB that is repeated is written behind the IRP, and the driver works only as long as
    it has nothing to repeat. *)
Theorem filter_requests_own_memory os :
  ((1 <= room)%nat -> forall l, exists w fs,
     run (start l) os = Some w /\ balanced w fs /\ (sent w = [] -> irps w = ∅ /\ urbs w = ∅ /\ bufs w = ∅) /\
     (l = [] -> submitted w = flat_map repeated_by os)) /\
  (room = 0%nat -> run (start []) os = if bool_decide (flat_map repeated_by os = []) then Some (start []) else None).
Proof.
  split; [|by apply no_room_run]. intros Hr l. destruct (run_spec os Hr _ _ (balanced_start l)) as (w & fs & Hrun & Hb & Hsub). exists w, fs.
  split; [done|]. split; [done|]. split; [by apply (balanced_empty w fs)|exact Hsub].
Qed.

End ownership.

Module Demo.
Definition zero_urb : urb_control :=
  {| Function := 0; UrbStatus := USBD_STATUS_SUCCESS; PipeHandle := 0; TransferFlags := 0; TransferBufferLength := 0; TransferBuffer := NoBuffer; Timeout := 0;
     SetupPacket := {| bmRequestType := 0; bRequest := 0; wValue := 0; wIndex := 0; wLength := 0 |} |}.

Definition selected : urb_control :=
  {| Function := URB_FUNCTION_SELECT_INTERFACE; UrbStatus := USBD_STATUS_SUCCESS; PipeHandle := 0; TransferFlags := 0; TransferBufferLength := 0;
     TransferBuffer := NoBuffer; Timeout := 0; SetupPacket := SetupPacket zero_urb |}.
Definition vendor : urb_control :=
  {| Function := URB_FUNCTION_VENDOR_DEVICE; UrbStatus := USBD_STATUS_SUCCESS; PipeHandle := 0; TransferFlags := 0; TransferBufferLength := 0;
     TransferBuffer := NoBuffer; Timeout := 0; SetupPacket := SetupPacket zero_urb |}.
Definition pass (r : urb_control) (copy : transfer_buffer) : op :=
  Pass {| rq_hub := false; rq_urb := Some r; rq_status := STATUS_SUCCESS; rq_back := id; rq_copy := copy; rq_call := STATUS_PENDING |}.
(** Two requests are repeated, a vendor request is not; the second is completed first. *)
Definition ops : list op := [pass selected (PipeRequest 1 USBD_STATUS_SUCCESS); pass vendor NoBuffer; pass selected (PipeRequest 2 USBD_STATUS_SUCCESS); Complete 1].

Definition outcome : option (list urb_control * (nat * nat * nat)) :=
  w ← run 2 1 zero_urb (start []) ops; Some (submitted w, (size (irps w), size (urbs w), size (bufs w))).
End Demo.

Lemma filter_requests_own_memory_witness :
  Demo.outcome = Some ([pack_request Demo.zero_urb (PipeRequest 1 USBD_STATUS_SUCCESS) URB_FUNCTION_SELECT_INTERFACE; pack_request Demo.zero_urb (PipeRequest 2 USBD_STATUS_SUCCESS) URB_FUNCTION_SELECT_INTERFACE], (1, 1, 1)%nat) /\
  (exists w fs, run 2 1 Demo.zero_urb (start []) Demo.ops = Some w /\ balanced 2 1 w fs /\ (sent w = [] -> irps w = ∅ /\ urbs w = ∅ /\ bufs w = ∅) /\
    ([] = [] :> list bool -> submitted w = flat_map (repeated_by Demo.zero_urb) Demo.ops)) /\
  run 2 0 Demo.zero_urb (start []) Demo.ops = None.
Proof.
  split; [vm_compute; reflexivity|]. split.
  - destruct (filter_requests_own_memory 2 1 Demo.zero_urb ltac:(lia) Demo.ops) as [H _]. apply H. lia.
  - destruct (filter_requests_own_memory 2 0 Demo.zero_urb ltac:(lia) Demo.ops) as [_ H]. rewrite H by done. vm_compute. reflexivity.
Defined.
