(* ===== verification/Refs.v ===== *)
(** * References, handles and locks

    The owning wrappers of libdrv: wdf::ObjectRef and wdm::object_reference hold a reference to a counted object,
    generic_handle (userspace/libusbip/generic_handle_ex.h) owns a handle, wdf::WaitLock and wdf::Lock hold a lock.  [None] is a
    reference to an object that was destroyed, or a variable out of its scope. *)

From S2P Require Import Prelude.

(** ** Counted objects *)

(** What a variable holds: m_obj and m_defer_delete; ObjectRef has no such flag. *)
Record object_reference : Type := { m_obj : option positive; m_defer_delete : bool }.

(** Variables by their names; the reference counts of the objects that exist; those whose last dereference may be deferred. *)
Record heap : Type := { vars : gmap positive object_reference; refs : gmap positive positive; deferred : list positive }.

Definition set_var (s : heap) (v : positive) (x : object_reference) : heap := {| vars := <[v := x]> (vars s); refs := refs s; deferred := deferred s |}.
Definition del_var (s : heap) (v : positive) : heap := {| vars := delete v (vars s); refs := refs s; deferred := deferred s |}.

(** ObReferenceObject, ObDereferenceObject and ObDereferenceObjectDeferDelete, likewise for framework objects: the last reference destroys the object. *)
Definition reference (s : heap) (h : positive) : option heap :=
  n ← refs s !! h; Some {| vars := vars s; refs := <[h := Pos.succ n]> (refs s); deferred := deferred s |}.
Definition dereference (s : heap) (h : positive) (defer : bool) : option heap :=
  n ← refs s !! h;
  Some {| vars := vars s; refs := if decide (n = 1%positive) then delete h (refs s) else <[h := Pos.pred n]> (refs s);
          deferred := if defer then deferred s ++ [h] else deferred s |}.

Definition null : object_reference := {| m_obj := None; m_defer_delete := false |}.

(** object_reference(obj, defer_delete, add_ref) as a value. *)
Definition make_reference (s : heap) (obj : option positive) (defer add_ref : bool) : option (object_reference * heap) :=
  let x := {| m_obj := obj; m_defer_delete := defer |} in
  match obj with
  | Some h => if add_ref then s ← reference s h; Some (x, s) else Some (x, s)
  | None => Some (x, s)
  end.

(** ~object_reference of what was held. *)
Definition drop_reference (s : heap) (x : object_reference) : option heap :=
  match m_obj x with Some h => dereference s h (m_defer_delete x) | None => Some s end.

(** reset: a temporary takes what the variable held, and drops it. *)
Definition reset (s : heap) (v : positive) (obj : option positive) (defer add_ref : bool) : option heap :=
  x ← vars s !! v;
  if bool_decide (m_obj x = obj) then Some s
  else '(tmp, s) ← make_reference s obj defer add_ref; drop_reference (set_var s v tmp) x.

(** release: what the variable held is the caller's. *)
Definition release (s : heap) (v : positive) : option (option positive * heap) := x ← vars s !! v; Some (m_obj x, set_var s v null).

Definition swap (s : heap) (v w : positive) : option heap := x ← vars s !! v; y ← vars s !! w; Some (set_var (set_var s v y) w x).

(** The variable [v] is declared: with an object, as a copy, or with what [w] held. *)
Definition declare (s : heap) (v : positive) (obj : option positive) (defer add_ref : bool) : option heap :=
  if bool_decide (is_Some (vars s !! v)) then None else '(x, s) ← make_reference s obj defer add_ref; Some (set_var s v x).
Definition declare_copy (s : heap) (v w : positive) : option heap := x ← vars s !! w; declare s v (m_obj x) (m_defer_delete x) true.
Definition declare_move (s : heap) (v w : positive) : option heap :=
  if bool_decide (is_Some (vars s !! v)) then None
  else x ← vars s !! w; '(_, s) ← release s w; Some (set_var s v x).

(** The assignments. *)
Definition assign_copy (s : heap) (v w : positive) : option heap := x ← vars s !! w; reset s v (m_obj x) (m_defer_delete x) true.
Definition assign_move (s : heap) (v w : positive) : option heap :=
  x ← vars s !! w; let defer := m_defer_delete x in '(obj, s) ← release s w; reset s v obj defer false.

(** The end of the scope of [v]. *)
Definition leave (s : heap) (v : positive) : option heap := x ← vars s !! v; drop_reference (del_var s v) x.

(** wdf::ObjectRef: the same without the flag. *)
Module ObjectRef.
Definition ObjectRef (s : heap) (v : positive) (handle : option positive) (add_ref : bool) : option heap := declare s v handle false add_ref.
Definition copy (s : heap) (v w : positive) : option heap := x ← vars s !! w; ObjectRef s v (m_obj x) true.
Definition reset_handle (s : heap) (v : positive) (handle : option positive) (add_ref : bool) : option heap := reset s v handle false add_ref.
Definition assign (s : heap) (v w : positive) : option heap := x ← vars s !! w; reset_handle s v (m_obj x) true.
Definition assign_released (s : heap) (v w : positive) : option heap := '(handle, s) ← release s w; reset_handle s v handle false.
End ObjectRef.

Inductive op : Type :=
| Construct (v : positive) (obj : option positive) (defer add_ref : bool) | ConstructCopy (v w : positive) | ConstructMove (v w : positive)
| AssignCopy (v w : positive) | AssignMove (v w : positive) | Reset (v : positive) (obj : option positive) (add_ref : bool)
| Release (v : positive) | Swap (v w : positive) | Leave (v : positive).

Definition step (s : heap) (o : op) : option heap :=
  match o with
  | Construct v obj defer add_ref => declare s v obj defer add_ref
  | ConstructCopy v w => declare_copy s v w
  | ConstructMove v w => declare_move s v w
  | AssignCopy v w => assign_copy s v w
  | AssignMove v w => assign_move s v w
  | Reset v obj add_ref => reset s v obj false add_ref
  | Release v => '(_, s) ← release s v; Some s
  | Swap v w => swap s v w
  | Leave v => leave s v
  end.

Fixpoint run (s : heap) (os : list op) : option heap := match os with [] => Some s | o :: os => s ← step s o; run s os end.

(** ** Counting *)

Definition count (s : heap) (h : positive) : Z := default 0 (Z.pos <$> refs s !! h).

Definition one (obj : option positive) (h : positive) : Z := if bool_decide (obj = Some h) then 1 else 0.
Definition holds (h : positive) (x : object_reference) : Z := one (m_obj x) h.

(** How many variables hold [h], and how many references nobody holds. *)
Definition holders (s : heap) (h : positive) : Z := map_fold (fun _ x n => holds h x + n) 0 (vars s).
Definition outside (s : heap) (h : positive) : Z := count s h - holders s h.

(** Every variable holds a reference of its own. *)
Definition owned (s : heap) : Prop := forall h, 0 <= outside s h.

Lemma holders_insert s v x h : vars s !! v = None -> map_fold (fun _ x n => holds h x + n) 0 (<[v := x]> (vars s)) = holds h x + holders s h.
Proof. intros Hv. unfold holders. rewrite map_fold_insert_L; [done| |done]. intros. lia. Qed.

Lemma holders_split s v x h : vars s !! v = Some x -> holders s h = holds h x + holders (del_var s v) h.
Proof. intros Hv. unfold holders. cbn [vars del_var]. rewrite <- (insert_delete_id (vars s) v x Hv) at 1. rewrite map_fold_insert_L; [done| |apply lookup_delete_eq]. intros. lia. Qed.

Lemma holders_set s v x y h : vars s !! v = Some x -> holders (set_var s v y) h = holders s h - holds h x + holds h y.
Proof.
  intros Hv. rewrite (holders_split s v x h Hv). rewrite (holders_split (set_var s v y) v y h) by (cbn; apply lookup_insert_eq).
  assert (del_var (set_var s v y) v = del_var s v) as -> by (unfold del_var, set_var; cbn; by rewrite delete_insert_eq). lia.
Qed.

Lemma holders_new s v y h : vars s !! v = None -> holders (set_var s v y) h = holders s h + holds h y.
Proof. intros Hv. unfold holders at 1. cbn [vars set_var]. rewrite holders_insert by done. lia. Qed.

Lemma holds_range h x : 0 <= holds h x <= 1.
Proof. unfold holds, one. case_bool_decide; lia. Qed.

Lemma holders_pos s h : 0 <= holders s h.
Proof. unfold holders. apply (map_fold_weak_ind (fun n _ => 0 <= n)); [lia|]. intros v x m n _ Hn. pose proof (holds_range h x). lia. Qed.

Lemma holders_vars s s' h : vars s' = vars s -> holders s' h = holders s h.
Proof. intros E. unfold holders. by rewrite E. Qed.

Lemma one_some h h' : one (Some h) h' = if decide (h = h') then 1 else 0.
Proof. unfold one. case_bool_decide; case_decide; congruence. Qed.

Lemma one_none h : one None h = 0.
Proof. unfold one. by rewrite bool_decide_eq_false_2. Qed.

Lemma reference_spec s h : 0 < count s h -> exists s', reference s h = Some s' /\ vars s' = vars s /\ forall h', count s' h' = count s h' + one (Some h) h'.
Proof.
  unfold count, reference. intros Hc. destruct (refs s !! h) as [n|] eqn:E; [|cbn in Hc; lia]. cbn [mbind option_bind]. eexists. split; [done|]. split; [done|]. intros h'.
  rewrite one_some. cbn [refs]. case_decide as Hh; [subst h'; rewrite lookup_insert_eq, E; cbn; lia|rewrite lookup_insert_ne by done; lia].
Qed.

Lemma dereference_spec s h b : 0 < count s h -> exists s', dereference s h b = Some s' /\ vars s' = vars s /\ forall h', count s' h' = count s h' - one (Some h) h'.
Proof.
  unfold count, dereference. intros Hc. destruct (refs s !! h) as [n|] eqn:E; [|cbn in Hc; lia]. cbn [mbind option_bind]. eexists. split; [done|]. split; [done|]. intros h'.
  rewrite one_some. cbn [refs]. destruct (decide (n = 1%positive)) as [->|Hn]; case_decide as Hh; subst.
  - by rewrite lookup_delete_eq, E.
  - rewrite lookup_delete_ne by done. lia.
  - rewrite lookup_insert_eq, E. cbn. lia.
  - rewrite lookup_insert_ne by done. lia.
Qed.

Definition alive (s : heap) (obj : option positive) : Prop := forall h, obj = Some h -> 0 < count s h.

Lemma drop_spec s x : alive s (m_obj x) -> exists s', drop_reference s x = Some s' /\ vars s' = vars s /\ forall h, count s' h = count s h - holds h x.
Proof.
  unfold drop_reference, holds, alive. destruct (m_obj x) as [h|]; intros Ha.
  - apply dereference_spec. by apply Ha.
  - exists s. split; [done|]. split; [done|]. intros h. rewrite one_none. lia.
Qed.

Lemma make_spec s obj defer add_ref : (add_ref = true -> alive s obj) -> exists x s', make_reference s obj defer add_ref = Some (x, s') /\
  m_obj x = obj /\ vars s' = vars s /\ forall h, count s' h = count s h + if add_ref then one obj h else 0.
Proof.
  intros Ha. unfold make_reference. destruct obj as [h|]; [destruct add_ref|].
  - destruct (reference_spec s h) as (s' & -> & Hv & Hc); [by apply Ha|]. cbn [mbind option_bind]. by eexists _, s'.
  - eexists _, s. do 3 (split; [done|]). intros. lia.
  - eexists _, s. do 3 (split; [done|]). intros h. rewrite one_none. destruct add_ref; lia.
Qed.

(** What a variable holds exists. *)
Lemma held_alive s v x : owned s -> vars s !! v = Some x -> alive s (m_obj x).
Proof.
  intros Ho Hv h Hx. specialize (Ho h). unfold outside in Ho. rewrite (holders_split s v x h Hv) in Ho. pose proof (holders_pos (del_var s v) h) as Hp.
  unfold holds, one in Ho. rewrite bool_decide_eq_true_2 in Ho by done. lia.
Qed.

Lemma alive_outside s obj : owned s -> (forall h, obj = Some h -> 0 < outside s h) -> alive s obj.
Proof. intros Ho H h Hh. specialize (H h Hh). unfold outside in H. pose proof (holders_pos s h). lia. Qed.

(** reset: it takes the reference it is given from outside, and only then. *)
Lemma reset_spec s v x obj defer add_ref : owned s -> vars s !! v = Some x -> (add_ref = true -> alive s obj) ->
  exists s', reset s v obj defer add_ref = Some s' /\ (forall w, is_Some (vars s' !! w) <-> is_Some (vars s !! w)) /\
    forall h, outside s' h = outside s h - if bool_decide (m_obj x = obj) || add_ref then 0 else one obj h.
Proof.
  intros Ho Hv Ha. unfold reset. rewrite Hv. cbn [mbind option_bind]. case_bool_decide as E; cbn [orb].
  { exists s. split; [done|]. split; [done|]. intros. lia. }
  destruct (make_spec s obj defer add_ref Ha) as (y & s1 & -> & Hy & Hv1 & Hc1). cbn [mbind option_bind].
  destruct (drop_spec (set_var s1 v y) x) as (s2 & -> & Hv2 & Hc2).
  { intros h Hh. change (0 < count s1 h). rewrite Hc1. pose proof (held_alive s v x Ho Hv h Hh). unfold one. destruct add_ref; [case_bool_decide|]; lia. }
  exists s2. split; [done|]. rewrite Hv2. cbn [vars set_var]. rewrite Hv1. split.
  - intros w. destruct (decide (v = w)) as [<-|]; [rewrite lookup_insert_eq, Hv; by split|by rewrite lookup_insert_ne].
  - intros h. unfold outside. rewrite Hc2. change (count (set_var s1 v y) h) with (count s1 h). rewrite Hc1.
    rewrite (holders_vars (set_var s v y) s2) by (rewrite Hv2; cbn; by rewrite Hv1). rewrite (holders_set s v x y h Hv). unfold holds. rewrite Hy. destruct add_ref; lia.
Qed.

(** ** The operations *)

(** What the caller must see to: names in scope, an object that exists for a new reference, a reference nobody holds for one to adopt.
    The last case of [AssignMove] is left out. *)
Definition given (s : heap) (obj : option positive) (add_ref : bool) : Prop :=
  if add_ref then alive s obj else forall h, obj = Some h -> 0 < outside s h.

Definition held (s : heap) (v : positive) : option positive := x ← vars s !! v; m_obj x.

Definition admissible (s : heap) (o : op) : Prop :=
  match o with
  | Construct v obj defer add_ref => vars s !! v = None /\ given s obj add_ref
  | ConstructCopy v w | ConstructMove v w => vars s !! v = None /\ is_Some (vars s !! w)
  | AssignCopy v w | Swap v w => is_Some (vars s !! v) /\ is_Some (vars s !! w)
  | AssignMove v w => is_Some (vars s !! v) /\ is_Some (vars s !! w) /\ (v = w \/ held s v = None \/ held s v <> held s w)
  | Reset v obj add_ref => is_Some (vars s !! v) /\ given s obj add_ref
  | Release v | Leave v => is_Some (vars s !! v)
  end.

(** The references that an operation takes from outside, or leaves there. *)
Definition change (s : heap) (o : op) (h : positive) : Z :=
  match o with
  | Construct _ obj _ add_ref => if add_ref then 0 else - one obj h
  | Reset v obj add_ref => if bool_decide (held s v = obj) || add_ref then 0 else - one obj h
  | Release v => one (held s v) h
  | _ => 0
  end.

Lemma given_alive s obj add_ref : owned s -> given s obj add_ref -> add_ref = true -> alive s obj.
Proof. intros _ H ->. exact H. Qed.

Lemma outside_vars s s' h : vars s' = vars s -> outside s' h = outside s h + (count s' h - count s h).
Proof. intros E. unfold outside. rewrite (holders_vars s s' h E). lia. Qed.

Lemma declare_spec s v obj defer add_ref : owned s -> vars s !! v = None -> given s obj add_ref ->
  exists s', declare s v obj defer add_ref = Some s' /\ forall h, outside s' h = outside s h - if add_ref then 0 else one obj h.
Proof.
  intros Ho Hv Hg. unfold declare. rewrite Hv, bool_decide_eq_false_2 by (by intros []).
  destruct (make_spec s obj defer add_ref) as (x & s1 & -> & Hx & Hv1 & Hc1); [by apply given_alive|]. cbn [mbind option_bind]. eexists. split; [done|]. intros h.
  unfold outside. rewrite holders_new by (by rewrite Hv1). change (count (set_var s1 v x) h) with (count s1 h). rewrite Hc1, (holders_vars s s1 h Hv1).
  unfold holds. rewrite Hx. destruct add_ref; lia.
Qed.

Lemma release_spec s v x : vars s !! v = Some x -> exists s', release s v = Some (m_obj x, s') /\ s' = set_var s v null /\
  forall h, outside s' h = outside s h + one (m_obj x) h.
Proof.
  intros Hv. unfold release. rewrite Hv. cbn [mbind option_bind]. eexists. split; [done|]. split; [done|]. intros h.
  unfold outside. rewrite (holders_set s v x null h Hv). unfold holds. cbn [null m_obj]. rewrite one_none. change (count (set_var s v null) h) with (count s h). lia.
Qed.

Lemma declare_move_spec s v w : owned s -> vars s !! v = None -> is_Some (vars s !! w) -> exists s', declare_move s v w = Some s' /\ forall h, outside s' h = outside s h.
Proof.
  intros Ho Hv [x Hw]. unfold declare_move. rewrite Hv, bool_decide_eq_false_2 by (by intros []). rewrite Hw. cbn [mbind option_bind].
  destruct (release_spec s w x Hw) as (s1 & -> & -> & Hs1). cbn [mbind option_bind]. eexists. split; [done|]. intros h. specialize (Hs1 h). unfold outside in *.
  rewrite holders_new; [|cbn; rewrite lookup_insert_ne; [done|congruence]].
  change (count (set_var (set_var s w null) v x) h) with (count (set_var s w null) h). unfold holds. lia.
Qed.

Lemma assign_move_spec s v w : owned s -> admissible s (AssignMove v w) -> exists s', assign_move s v w = Some s' /\ forall h, outside s' h = outside s h.
Proof.
  intros Ho ([x Hv] & [y Hw] & Hne). unfold assign_move. rewrite Hw. cbn [mbind option_bind].
  destruct (release_spec s w y Hw) as (s1 & -> & Es1 & Hs1). cbn [mbind option_bind].
  assert (owned s1) as Ho1 by (intros h; rewrite Hs1; specialize (Ho h); unfold one; case_bool_decide; lia).
  assert (exists z, vars s1 !! v = Some z /\ (m_obj z = m_obj y -> m_obj y = None)) as (z & Hz & Hzy).
  { subst s1. cbn [vars set_var]. destruct (decide (w = v)) as [->|Hwv]; [exists null; rewrite lookup_insert_eq; done|]. exists x. rewrite lookup_insert_ne by done.
    split; [done|]. unfold held in Hne. rewrite Hv, Hw in Hne. cbn in Hne. intros E. destruct Hne as [->|[Hn|Hn]]; congruence. }
  destruct (reset_spec s1 v z (m_obj y) (m_defer_delete y) false Ho1 Hz) as (s2 & -> & _ & Hs2); [done|]. exists s2. split; [done|]. intros h. rewrite Hs2, Hs1.
  case_bool_decide as E; cbn [orb]; [|lia]. rewrite (Hzy E), one_none. lia.
Qed.

Lemma swap_spec s v w : is_Some (vars s !! v) -> is_Some (vars s !! w) -> exists s', swap s v w = Some s' /\ forall h, outside s' h = outside s h.
Proof.
  intros [x Hv] [y Hw]. unfold swap. rewrite Hv, Hw. cbn [mbind option_bind]. eexists. split; [done|]. intros h. unfold outside.
  rewrite (holders_set (set_var s v y) w y x) by (cbn; destruct (decide (v = w)) as [->|]; [apply lookup_insert_eq|by rewrite lookup_insert_ne]).
  rewrite (holders_set s v x y h Hv). change (count (set_var (set_var s v y) w x) h) with (count s h). lia.
Qed.

Lemma leave_spec s v : owned s -> is_Some (vars s !! v) -> exists s', leave s v = Some s' /\ forall h, outside s' h = outside s h.
Proof.
  intros Ho [x Hv]. unfold leave. rewrite Hv. cbn [mbind option_bind]. destruct (drop_spec (del_var s v) x) as (s' & -> & Hv' & Hc).
  - exact (held_alive s v x Ho Hv).
  - exists s'. split; [done|]. intros h. rewrite (outside_vars _ _ h Hv'), Hc. unfold outside. rewrite (holders_split s v x h Hv). change (count (del_var s v) h) with (count s h). lia.
Qed.

Lemma refs_step_spec s o : owned s -> admissible s o -> exists s', step s o = Some s' /\ owned s' /\ forall h, outside s' h = outside s h + change s o h.
Proof.
  intros Ho Ha. assert (forall s' : heap, (forall h, outside s' h = outside s h) -> owned s' /\ forall h, outside s' h = outside s h + 0) as Hsame.
  { intros s' E. split; [intros h; rewrite E; apply Ho|]. intros h. rewrite E. lia. }
  assert (forall b obj s', (b = false -> given s obj false) -> (forall h, outside s' h = outside s h - if b : bool then 0 else one obj h) -> owned s') as Htaken.
  { intros b obj s' Hg E h. rewrite E. specialize (Ho h). destruct b; [lia|]. unfold one. case_bool_decide as Eh; [|lia]. specialize (Hg eq_refl h Eh). lia. }
  destruct o as [v obj defer add_ref|v w|v w|v w|v w|v obj add_ref|v|v w|v]; cbn [step admissible change] in *.
  - destruct Ha as [Hv Hg]. destruct (declare_spec s v obj defer add_ref Ho Hv Hg) as (s' & -> & Hs). exists s'. split; [done|].
    split; [apply (Htaken add_ref obj); [by intros ->|done]|]. intros h. rewrite Hs. destruct add_ref; lia.
  - destruct Ha as [Hv [x Hw]]. unfold declare_copy. rewrite Hw. cbn [mbind option_bind].
    destruct (declare_spec s v (m_obj x) (m_defer_delete x) true Ho Hv (held_alive s w x Ho Hw)) as (s' & -> & Hs). exists s'. split; [done|]. apply Hsame. intros h. rewrite Hs. lia.
  - destruct Ha as [Hv Hw]. destruct (declare_move_spec s v w Ho Hv Hw) as (s' & -> & Hs). exists s'. split; [done|]. by apply Hsame.
  - destruct Ha as [[x Hv] [y Hw]]. unfold assign_copy. rewrite Hw. cbn [mbind option_bind].
    destruct (reset_spec s v x (m_obj y) (m_defer_delete y) true Ho Hv) as (s' & -> & _ & Hs); [intros _; by apply (held_alive s w)|]. exists s'. split; [done|].
    apply Hsame. intros h. rewrite Hs, orb_true_r. lia.
  - destruct (assign_move_spec s v w Ho Ha) as (s' & -> & Hs). exists s'. split; [done|]. by apply Hsame.
  - destruct Ha as [[x Hv] Hg]. unfold held. rewrite Hv. cbn [mbind option_bind].
    destruct (reset_spec s v x obj false add_ref Ho Hv (given_alive s obj add_ref Ho Hg)) as (s' & -> & _ & Hs). exists s'. split; [done|]. split.
    + apply (Htaken (bool_decide (m_obj x = obj) || add_ref) obj); [|done]. intros E. apply orb_false_iff in E as [_ ->]. done.
    + intros h. rewrite Hs. destruct (_ || _); lia.
  - destruct Ha as [x Hv]. unfold held. rewrite Hv. cbn [mbind option_bind]. destruct (release_spec s v x Hv) as (s' & -> & _ & Hs). cbn [mbind option_bind]. exists s'. split; [done|].
    split; [|done]. intros h. rewrite Hs. specialize (Ho h). unfold one. case_bool_decide; lia.
  - destruct Ha as [Hv Hw]. destruct (swap_spec s v w Hv Hw) as (s' & -> & Hs). exists s'. split; [done|]. by apply Hsame.
  - destruct (leave_spec s v Ho Ha) as (s' & -> & Hs). exists s'. split; [done|]. by apply Hsame.
Qed.

(** What ObjectRef does is among the operations: its flag is never set. *)
Lemma object_ref_ops s v w obj add_ref : (forall u x, vars s !! u = Some x -> m_defer_delete x = false) ->
  ObjectRef.ObjectRef s v obj add_ref = step s (Construct v obj false add_ref) /\ ObjectRef.copy s v w = step s (ConstructCopy v w) /\
  ObjectRef.reset_handle s v obj add_ref = step s (Reset v obj add_ref) /\ ObjectRef.assign s v w = step s (AssignCopy v w) /\
  ObjectRef.assign_released s v w = step s (AssignMove v w).
Proof.
  intros Hd. repeat split; try done; unfold ObjectRef.copy, ObjectRef.assign, ObjectRef.assign_released; cbn [step].
  - unfold declare_copy. destruct (vars s !! w) as [x|] eqn:E; [|done]. cbn [mbind option_bind]. by rewrite (Hd w x E).
  - unfold assign_copy. destruct (vars s !! w) as [x|] eqn:E; [|done]. cbn [mbind option_bind]. by rewrite (Hd w x E).
  - unfold assign_move, release. destruct (vars s !! w) as [x|] eqn:E; [|done]. cbn [mbind option_bind]. by rewrite (Hd w x E).
Qed.

Fixpoint admissible_run (s : heap) (os : list op) : Prop :=
  match os with [] => True | o :: os => admissible s o /\ forall s', step s o = Some s' -> admissible_run s' os end.

Fixpoint changes (s : heap) (os : list op) (h : positive) : Z :=
  match os with [] => 0 | o :: os => change s o h + match step s o with Some s' => changes s' os h | None => 0 end end.

Lemma refs_run_spec os : forall s, owned s -> admissible_run s os -> exists s', run s os = Some s' /\ owned s' /\ forall h, outside s' h = outside s h + changes s os h.
Proof.
  induction os as [|o os IH]; intros s Ho Ha; cbn [run changes].
  - exists s. split; [done|]. split; [done|]. intros. lia.
  - destruct Ha as [Ha Hr]. destruct (refs_step_spec s o Ho Ha) as (s1 & E & Ho1 & H1). rewrite E. cbn [mbind option_bind].
    destruct (IH s1 Ho1 (Hr s1 E)) as (s2 & -> & Ho2 & H2). exists s2. split; [done|]. split; [done|]. intros h. rewrite H2, H1. lia.
Qed.

Lemma count_refs s s' : (forall h, count s' h = count s h) -> refs s' = refs s.
Proof. intros H. apply map_eq. intros h. specialize (H h). unfold count in H. destruct (refs s' !! h), (refs s !! h); cbn in H; congruence. Qed.

Lemma no_holders s h : vars s = ∅ -> holders s h = 0.
Proof. intros E. unfold holders. rewrite E. apply map_fold_empty. Qed.

(** C36: the wrappers balance the references of objects. Whatever is declared, copied, moved, assigned, reset, swapped and left behind, no object is used
    after it was destroyed, each variable holds a reference of its own, and references come from outside, or
    go there, only where they are adopted or released. When all variables are out of scope and what was released was adopted, each object has the references it
    had, and those that had none left are destroyed. *)
Theorem references_balanced s os : owned s -> admissible_run s os -> exists s', run s os = Some s' /\ owned s' /\
  (forall h, outside s' h = outside s h + changes s os h) /\
  (vars s = ∅ -> vars s' = ∅ -> (forall h, changes s os h = 0) -> refs s' = refs s).
Proof.
  intros Ho Ha. destruct (refs_run_spec os s Ho Ha) as (s' & Hr & Ho' & Hs). exists s'. do 3 (split; [done|]). intros E E' Hc. apply count_refs. intros h.
  specialize (Hs h). unfold outside in Hs. rewrite (no_holders s h E), (no_holders s' h E'), Hc in Hs. lia.
Qed.

(** Moving a reference into another variable that holds one to the same object loses it. *)
Lemma assign_move_leaks s v w x y h : owned s -> v <> w -> vars s !! v = Some x -> vars s !! w = Some y -> m_obj x = Some h -> m_obj y = Some h ->
  exists s', step s (AssignMove v w) = Some s' /\ held s' w = None /\ outside s' h = outside s h + 1.
Proof.
  intros Ho Hvw Hv Hw Hx Hy. cbn [step]. unfold assign_move. rewrite Hw. cbn [mbind option_bind]. destruct (release_spec s w y Hw) as (s1 & -> & -> & Hs1). cbn [mbind option_bind].
  unfold reset. cbn [vars set_var]. rewrite lookup_insert_ne by done. rewrite Hv. cbn [mbind option_bind]. rewrite bool_decide_eq_true_2 by congruence. eexists. split; [done|]. split.
  - unfold held. cbn [vars set_var]. rewrite lookup_insert_eq. done.
  - rewrite Hs1, Hy, one_some, decide_True; done.
Qed.

(** ** Handles: objects with one reference, which closing takes *)

Inductive handle_op : Type := HandleNew (v : positive) (h : option positive) | HandleMove (v w : positive) | HandleAssign (v w : positive)
| HandleReset (v : positive) (h : option positive) | HandleRelease (v : positive) | HandleSwap (v w : positive) | HandleLeave (v : positive).

Definition as_op (o : handle_op) : op :=
  match o with
  | HandleNew v h => Construct v h false false | HandleMove v w => ConstructMove v w | HandleAssign v w => AssignMove v w
  | HandleReset v h => Reset v h false | HandleRelease v => Release v | HandleSwap v w => Swap v w | HandleLeave v => Leave v
  end.

Definition handles (s : heap) : Prop := forall h n, refs s !! h = Some n -> n = 1%positive.

(** Names in scope, and a handle that nobody owns for one that is given. *)
Definition handle_scoped (s : heap) (o : handle_op) : Prop :=
  match o with
  | HandleNew v h => vars s !! v = None /\ given s h false
  | HandleMove v w => vars s !! v = None /\ is_Some (vars s !! w)
  | HandleAssign v w | HandleSwap v w => is_Some (vars s !! v) /\ is_Some (vars s !! w)
  | HandleReset v h => is_Some (vars s !! v) /\ given s h false
  | HandleRelease v | HandleLeave v => is_Some (vars s !! v)
  end.

Lemma two_holders s v w h : v <> w -> held s v = Some h -> held s w = Some h -> 2 <= holders s h.
Proof.
  unfold held. intros Hvw Hv Hw. destruct (vars s !! v) as [x|] eqn:Ev; [|done]. destruct (vars s !! w) as [y|] eqn:Ew; [|done]. cbn in Hv, Hw.
  rewrite (holders_split s v x h Ev), (holders_split (del_var s v) w y h) by (cbn; by rewrite lookup_delete_ne).
  pose proof (holders_pos (del_var (del_var s v) w) h). unfold holds, one. rewrite !bool_decide_eq_true_2 by done. lia.
Qed.

(** No two variables own a handle. *)
Lemma handle_admissible s o : handles s -> owned s -> handle_scoped s o -> admissible s (as_op o).
Proof.
  intros Hh Ho. destruct o as [v h|v w|v w|v h|v|v w|v]; cbn [handle_scoped as_op admissible]; try done. intros [Hv Hw]. split; [done|]. split; [done|].
  destruct (decide (v = w)) as [|Hvw]; [by left|]. right. destruct (held s v) as [h|] eqn:Ev; [|by left]. right. intros E. symmetry in E.
  pose proof (two_holders s v w h Hvw Ev E) as H2. specialize (Ho h). unfold outside, count in Ho. destruct (refs s !! h) as [n|] eqn:En; cbn in Ho; [|lia].
  apply Hh in En. lia.
Qed.

Lemma drop_handles s x s' : handles s -> drop_reference s x = Some s' -> handles s'.
Proof.
  unfold drop_reference, dereference. intros Hh. destruct (m_obj x) as [h|]; [|by intros [= <-]]. destruct (refs s !! h) as [n|] eqn:E; [|done]. cbn [mbind option_bind].
  rewrite decide_True by (by apply (Hh h)). intros [= <-] h' n'. cbn [refs]. intros E'. apply lookup_delete_Some in E' as [_ E']. by apply (Hh h').
Qed.

Lemma make_handle s h defer : make_reference s h defer false = Some ({| m_obj := h; m_defer_delete := defer |}, s).
Proof. by destruct h. Qed.

Lemma reset_handles s v h defer s' : handles s -> reset s v h defer false = Some s' -> handles s'.
Proof.
  intros Hh. unfold reset. destruct (vars s !! v) as [x|]; [|done]. cbn [mbind option_bind]. case_bool_decide; [by intros [= <-]|].
  rewrite make_handle. cbn [mbind option_bind]. by apply drop_handles.
Qed.

Lemma step_handles s o s' : handles s -> step s (as_op o) = Some s' -> handles s'.
Proof.
  intros Hh. destruct o as [v h|v w|v w|v h|v|v w|v]; cbn [as_op step].
  - unfold declare. rewrite make_handle. case_bool_decide; [done|]. by intros [= <-].
  - unfold declare_move, release. case_bool_decide; [done|]. destruct (vars s !! w); [|done]. by intros [= <-].
  - unfold assign_move, release. destruct (vars s !! w) as [y|]; [|done]. cbn [mbind option_bind]. by apply reset_handles.
  - by apply reset_handles.
  - unfold release. destruct (vars s !! v); [|done]. by intros [= <-].
  - unfold swap. destruct (vars s !! v), (vars s !! w); try done. by intros [= <-].
  - unfold leave. destruct (vars s !! v) as [x|]; [|done]. cbn [mbind option_bind]. by apply drop_handles.
Qed.

(** A handle is owned by one variable at most, and closed once: what an operation does not give away or take stays as it is. *)
Lemma handle_closed_once s o : handles s -> owned s -> handle_scoped s o -> exists s', step s (as_op o) = Some s' /\ handles s' /\ owned s' /\
  (forall h, outside s' h = outside s h + change s (as_op o) h) /\ (forall v w h, v <> w -> held s' v = Some h -> held s' w <> Some h).
Proof.
  intros Hh Ho Hs. destruct (refs_step_spec s (as_op o) Ho (handle_admissible s o Hh Ho Hs)) as (s' & E & Ho' & Hc). exists s'.
  pose proof (step_handles s o s' Hh E) as Hh'. do 4 (split; [done|]). intros v w h Hvw Hv Hw. pose proof (two_holders s' v w h Hvw Hv Hw) as H2.
  specialize (Ho' h). unfold outside, count in Ho'. destruct (refs s' !! h) as [n|] eqn:En; cbn in Ho'; [|lia]. apply Hh' in En. lia.
Qed.

(** ** Locks *)

Module Locks.
Definition STATUS_SUCCESS : Z := 0.
Definition STATUS_TIMEOUT : Z := 0x102.
Definition STATUS_ALREADY_INITIALIZED : Z := 0xC0000510.
Definition NT_SUCCESS (st : Z) : bool := st <? 0x80000000.

(** The lock of a guard, and the locks that the thread holds; releasing another one is an error. *)
Record guard : Type := { m_lock : option positive; locked : gset positive }.

(** What WdfWaitLockAcquire returns: the lock is held only if it is STATUS_SUCCESS. *)
Definition WdfWaitLockAcquire (held : gset positive) (lock : positive) (answer : Z) : gset positive := if answer =? STATUS_SUCCESS then {[lock]} ∪ held else held.

(** WaitLock::acquire; [answer] is what WdfWaitLockAcquire returns. *)
Definition acquire (g : guard) (lock : positive) (answer : Z) : Z * guard :=
  let ret := match m_lock g with Some _ => STATUS_ALREADY_INITIALIZED | None => answer end in
  let held := match m_lock g with Some _ => locked g | None => WdfWaitLockAcquire (locked g) lock answer end in
  (ret, {| m_lock := if NT_SUCCESS ret then Some lock else m_lock g; locked := held |}).

(** WaitLock(lock), which waits without a limit. *)
Definition wait_lock (held : gset positive) (lock : positive) : guard := {| m_lock := Some lock; locked := {[lock]} ∪ held |}.

(** WaitLock::release, the destructor and likewise those of Lock. *)
Definition release_lock (g : guard) : option guard :=
  match m_lock g with
  | Some l => if bool_decide (l ∈ locked g) then Some {| m_lock := None; locked := locked g ∖ {[l]} |} else None
  | None => Some g
  end.

(** A lock is released once, however often that is asked for. *)
Lemma lock_released_once held lock : lock ∉ held -> release_lock (wait_lock held lock) = Some {| m_lock := None; locked := held |} /\
  (release_lock (wait_lock held lock) ≫= release_lock) = Some {| m_lock := None; locked := held |}.
Proof.
  intros Hl. assert (release_lock (wait_lock held lock) = Some {| m_lock := None; locked := held |}) as ->; [|done].
  unfold release_lock, wait_lock. cbn [m_lock locked]. rewrite bool_decide_eq_true_2 by set_solver. do 2 f_equal. set_solver.
Qed.

(** A guard releases what it acquired, if the wait does not end with a timeout. *)
Lemma acquired_released held lock answer : lock ∉ held -> answer = STATUS_SUCCESS \/ NT_SUCCESS answer = false ->
  exists g, acquire {| m_lock := None; locked := held |} lock answer = (answer, g) /\ release_lock g = Some {| m_lock := None; locked := held |}.
Proof.
  intros Hl [->|Ha]; unfold acquire, WdfWaitLockAcquire; cbn [m_lock locked]; eexists; (split; [done|]).
  - by apply lock_released_once.
  - rewrite Ha. unfold NT_SUCCESS in Ha. destruct (Z.eqb_spec answer STATUS_SUCCESS) as [->|]; [done|]. done.
Qed.

(** STATUS_TIMEOUT is a success: the guard then releases a lock that the thread does not hold. *)
Lemma timeout_releases held lock : lock ∉ held -> release_lock (acquire {| m_lock := None; locked := held |} lock STATUS_TIMEOUT).2 = None.
Proof. intros Hl. unfold release_lock, acquire. cbn. by rewrite bool_decide_eq_false_2. Qed.
End Locks.

Module Demo.
(** One object with a reference that its owner gives to a variable; it is copied, moved and left behind. *)
Definition start : heap := {| vars := ∅; refs := {[1%positive := 1%positive; 2%positive := 3%positive]}; deferred := [] |}.
Definition ops : list op :=
  [Construct 1 (Some 1%positive) true false; ConstructCopy 2 1; Construct 3 (Some 2%positive) false true; AssignMove 3 2; Swap 1 3; AssignMove 1 1; Leave 2; Reset 3 None true; Release 1; Leave 3; Leave 1].

(** The object whose references an operation takes or leaves, and how many: what [changes] adds up. *)
Definition moved (s : heap) (o : op) : option positive * Z :=
  match o with
  | Construct _ obj _ add_ref => (obj, if add_ref then 0 else -1)
  | Reset v obj add_ref => (obj, if bool_decide (held s v = obj) || add_ref then 0 else -1)
  | Release v => (held s v, 1)
  | _ => (None, 0)
  end.

Fixpoint moves (s : heap) (os : list op) : list (option positive * Z) :=
  match os with [] => [] | o :: os => moved s o :: match step s o with Some s' => moves s' os | None => [] end end.

Lemma changes_moves os h : forall s, changes s os h = fold_right (fun m n => m.2 * one m.1 h + n) 0 (moves s os).
Proof.
  induction os as [|o os IH]; intros s; [done|]. cbn [changes moves fold_right].
  assert (change s o h = (moved s o).2 * one (moved s o).1 h) as ->.
  { destruct o; cbn [change moved fst snd]; try lia; [by destruct add_ref; lia|destruct (_ || _); lia]. }
  destruct (step s o); [by rewrite IH|done].
Qed.

Ltac admit_step :=
  vm_compute; repeat match goal with
  | |- _ /\ _ => split
  | |- exists _, _ => eexists; reflexivity
  | |- _ = _ => reflexivity
  | |- forall h, _ = Some h -> _ => intros ? [= <-]; reflexivity
  | |- _ \/ _ => first [left; reflexivity|right; left; reflexivity|right; right; discriminate]
  end.
End Demo.

Lemma references_balanced_witness : owned Demo.start /\ admissible_run Demo.start Demo.ops /\
  exists s', run Demo.start Demo.ops = Some s' /\ refs s' = refs Demo.start.
Proof.
  assert (owned Demo.start) as Ho by (intros h; unfold outside, count; rewrite no_holders by done; destruct (refs Demo.start !! h); cbn; lia).
  assert (admissible_run Demo.start Demo.ops) as Ha by
    (repeat (split; [Demo.admit_step|let E := fresh in intros s' E; vm_compute in E; apply (inj Some) in E; subst s']); exact I).
  split; [done|]. split; [done|]. destruct (references_balanced Demo.start Demo.ops Ho Ha) as (s' & E & _ & _ & Hr). exists s'. split; [done|].
  vm_compute in E. apply (inj Some) in E. subst s'. apply Hr; [done|done|]. intros h. rewrite Demo.changes_moves.
  set (l := Demo.moves _ _). vm_compute in l. subst l. cbn [fold_right fst snd]. rewrite one_none. lia.
Defined.
