(* ===== verification/Controller.v ===== *)
(** * The controller as a whole

    The requests and callbacks of the controller together: what connecting to a server
    leaves behind, that a device the filter rejects is never presented to Windows, that
    every request keeps the tables of ports, notifications and attach attempts consistent,
    and what the removal of the controller stops. *)

From S2P Require Import Prelude Parser DescPatch Policy Proto Session Filter Vhci Events Attach Device Ioctl.

(** A handle the framework has not given before. *)
Definition new_handle {W} (w : world W) (d : device) : Prop :=
  dev_ctx w !! d = None /\ default 0 (refs w !! d) = 0.

Section connecting.
Context {W : Type} `{WdfLaws W} `{AttachWdf W} `{Udecx W}.
Context {N : Type} `{Net N} {R : Type} `{HR : RegistryLaws R}.
Context (unicode_to_utf8 : nat -> list Z -> ntstatus * list byte).
Context (parse : list byte -> Z -> nat -> Z -> option nat) `{!ParseDescriptors parse}.
Context (source_of : device -> Z) (reg : R) (stack : list byte).

(** ** Creating a device *)

Lemma core_new (w : world W) d c :
  hub_core w -> new_handle w d -> port c = 0 -> hub_core (set_dev w d c).
Proof.
  intros [[Hh Hs Hd Hr] He Ha] [Hnew Href] Hp. constructor; [|by destruct He; constructor|by destruct Ha; constructor].
  constructor; simpl; auto.
  - intros i e Hi. destruct (Hs i e Hi) as (ce & Hce & ?). exists ce. rewrite lookup_insert_ne by congruence. done.
  - intros e ce. destruct (decide (d = e)) as [<-|Hne].
    + rewrite lookup_insert_eq. intros [= <-]. by left.
    + rewrite lookup_insert_ne by done. apply Hd.
  - intros e ce. destruct (decide (d = e)) as [<-|Hne].
    + rewrite lookup_insert_eq. intros [= <-]. rewrite Hp. done.
    + rewrite lookup_insert_ne by done. apply Hr.
Qed.

(** The status of a spin lock that could not be created. *)
Definition lock_failure (st : ntstatus) : Prop := exists x : W, fst (spin_lock_create x) = st.

Lemma init_device_wdf n (w : world W) :
  exists st x, init_device n w = (st, set_wdf w x) /\ (st <> STATUS_SUCCESS -> lock_failure st).
Proof.
  revert w. induction n as [|n IH]; intros w; simpl; [exists STATUS_SUCCESS, (wdf w); by destruct w|].
  destruct (spin_lock_create (wdf w)) as [err x] eqn:E. destruct (decide (err = STATUS_SUCCESS)) as [->|He].
  - destruct (IH (set_wdf w x)) as (st & y & -> & Hst). by exists st, y.
  - exists err, x. split; [by destruct err|]. intros _. exists (wdf w). by rewrite E.
Qed.

Definition created (a : device_attributes) : device_ctx :=
  {| attr := a; sock_open := true; recv_thread := false; port := 0; unplugged := false; ep0_added := false |}.

Lemma create_ok (w : world W) d a p u snap :
  hub_core w -> new_handle w d -> snapshot_accepted p u snap ->
  exists st w', create w d a snap = Some (st, w') /\ hub_core w' /\ frame w w' /\
    (st <> STATUS_SUCCESS /\ dev_ctx w' = dev_ctx w \/
     trace w' = trace w ++ [DeviceCreate d (snapshot_additions snap)] /\ dev_ctx w' = <[d := created a]> (dev_ctx w) /\
       (st <> STATUS_SUCCESS -> lock_failure st)).
Proof.
  intros Hw Hd Hsnap. unfold create. destruct (init_allocate (wdf w)) as [init x1].
  destruct init; cbn [negb].
  2:{ eexists _, _. split; [reflexivity|]. split; [by apply core_wdf|]. split; [by constructor|]. by left. }
  destruct (add_snapshot_spec (add_descriptor x1) p u snap Hsnap) as (st & k & Ha & Hst & _).
  simpl. rewrite Ha. simpl. destruct (decide (st = STATUS_SUCCESS)) as [->|Hne].
  2:{ exists st, (set_wdf w x1). split; [by destruct st|]. split; [by apply core_wdf|]. split; [by constructor|]. by left. }
  rewrite (proj1 Hst eq_refl), take_ge by lia.
  destruct (usb_device_create x1) as [err x2]. destruct (decide (err = STATUS_SUCCESS)) as [->|He].
  2:{ exists err, (set_wdf (set_wdf w x1) x2). split; [by destruct err|]. split; [by do 2 apply core_wdf|].
      split; [by constructor|]. by left. }
  set (w1 := set_dev (add_action (set_wdf (set_wdf w x1) x2) (DeviceCreate d (snapshot_additions snap))) d (created a)).
  destruct (init_device_wdf 3 w1) as (st & y & Hi & Hlock).
  exists st. eexists. split; [by rewrite <- Hi|]. split; [|split; [|by right]].
  - apply core_wdf, core_new; [by apply core_action; do 2 apply core_wdf|done|done].
  - constructor; try done. by apply (silent_action _ _ (DeviceCreate d (snapshot_additions snap))).
Qed.

(** ** From a connection to a device *)

(** The device [d] was plugged in: the import of what the server sent succeeded; UdeCx was given the descriptors that
    the import published, and no others, before it was told to plug the device in; and nothing else was shown. *)
Definition presented (w w' : world W) (n : N) (a : device_attributes) (d : device) (st : ntstatus) (p : Z) : Prop :=
  exists fs reply usb20 l,
    import_remote_device parse unicode_to_utf8 reg stack (mk_state n (import_ext a) 0 []) = Some (Ok tt, fs) /\
    import_allowed parse (registry_policy reg) (mk_state n (import_ext a) 0 []) fs reply /\
    plug_ins w' = plug_ins w ++ [(d, usb20, p)] /\
    trace w' = trace w ++ [StateChanged a 0 Vhci.connected; DeviceCreate d (snapshot_additions (descriptors (ext fs)));
                           PlugIn d usb20 p] ++ l /\
    Forall (fun a => ~ presenting a) l /\
    (st = STATUS_SUCCESS -> exists c, dev_ctx w' !! d = Some c /\ attr c = with_import a (ext fs)).

(** A device whose spin locks could not be created is left as it is, and it shares the attributes [own] with the work item. *)
Definition left_behind (w : world W) (d : device) (st : ntstatus) (own : option device_attributes) : Prop :=
  exists b, own = Some b /\ dev_ctx w !! d = Some (created b) /\ lock_failure st.

Record connection (w w' : world W) (n : N) (a : device_attributes) (d : device) (st : ntstatus) (p : Z)
    (own : option device_attributes) : Prop := {
  cn_wf : hub_wf w';
  cn_fresh : forall r, fresh w' r <-> fresh w r;
  cn_others : forall e, e <> d -> dev_ctx w' !! e = dev_ctx w !! e;
  cn_success : st = STATUS_SUCCESS -> own = None /\ 1 <= p /\
      (exists c, dev_ctx w' !! d = Some c /\ port c = p /\ in_range (vhci w) (dev_speed c) (p - 1) /\
                 sock_open c = true /\ recv_thread c = true /\ unplugged c = false) /\
      devices (vhci w) !! Z.to_nat (p - 1) = Some None /\
      (forall i, devices (vhci w') !! i = if decide (Z.of_nat i + 1 = p) then Some (Some d) else devices (vhci w) !! i);
  cn_failure : st <> STATUS_SUCCESS -> (forall i, devices (vhci w') !! i = devices (vhci w) !! i) /\
      (gone w' d \/ left_behind w' d st own);
  cn_plugs : (plug_ins w' = plug_ins w /\ st <> STATUS_SUCCESS) \/ presented w w' n a d st p;
  cn_cnt : devices_cnt (vhci w') = devices_cnt (vhci w) /\ usb2_ports (vhci w') = usb2_ports (vhci w);
  cn_removing : removing (vhci w') = removing (vhci w);
  cn_attach : attach w' = attach w /\ reattach_req (vhci w') = reattach_req (vhci w) }.

(** The table of devices and the attempts are what they were. *)
Lemma connection_failed (w w' : world W) n a d st own :
  hub_wf w -> new_handle w d -> st <> STATUS_SUCCESS -> own <> None -> hub_core w' -> frame w w' ->
  (dev_ctx w' = dev_ctx w \/ exists b, own = Some b /\ lock_failure st /\ dev_ctx w' = <[d := created b]> (dev_ctx w)) ->
  connection w w' n a d st 0 own.
Proof.
  intros Hw [Hnew _] Hst Hown Hc [Hs Hcn Hrm Hat [Hp Hf]] Hdev. constructor; auto; try done.
  - constructor; [done|]. intros e ce. destruct Hdev as [->|(b & _ & _ & ->)]; [by apply Hw|].
    destruct (decide (d = e)) as [<-|Hne]; [rewrite lookup_insert_eq; intros [= <-]; done|].
    rewrite lookup_insert_ne by done. by apply Hw.
  - intros e He. destruct Hdev as [->|(b & _ & _ & ->)]; [done|]. by apply lookup_insert_ne.
  - intros _. split; [intros i; by rewrite Hs|]. destruct Hdev as [Hdev|(b & -> & Hlk & Hdev)]; unfold gone, left_behind; rewrite Hdev.
    + left. by rewrite Hnew.
    + right. exists b. by rewrite lookup_insert_eq.
Qed.

Lemma plug_ins_trace (w w' : world W) l : trace w' = trace w ++ l -> plug_ins w' = plug_ins w ++ omap plug_in_of l.
Proof. intros Ht. unfold plug_ins. by rewrite Ht, omap_app. Qed.

(** The import of what the server sent ended in the state [fs]. *)
Definition imported (n : N) (a : device_attributes) (fs : Filter.state N) : Prop :=
  import_remote_device parse unicode_to_utf8 reg stack (mk_state n (import_ext a) 0 []) = Some (Ok tt, fs) /\
  exists reply, import_allowed parse (registry_policy reg) (mk_state n (import_ext a) 0 []) fs reply.

(** What the connection made of the device until it was plugged in. *)
Record prepared (w w1 : world W) (d : device) (a : device_attributes) (fs : Filter.state N) : Prop := {
  pr_core : hub_core w1; pr_frame : frame w w1;
  pr_dev : dev_ctx w1 = <[d := created (with_import a (ext fs))]> (dev_ctx w);
  pr_trace : trace w1 = trace w ++ [StateChanged a 0 Vhci.connected; DeviceCreate d (snapshot_additions (descriptors (ext fs)))] }.

(** A device that was plugged in, whatever follows. *)
Lemma plugged_presented (w w1 w2 w' : world W) n a d fs st st' p :
  imported n a fs -> prepared w w1 d a fs -> plugged_in w1 w2 d (created (with_import a (ext fs))) st p true ->
  unpresented w2 w' -> plug_ins w' = plug_ins w2 ->
  (st' = STATUS_SUCCESS -> exists c, dev_ctx w' !! d = Some c /\ attr c = with_import a (ext fs)) ->
  presented w w' n a d st' p.
Proof.
  intros [Hx [reply Hia]] [_ [_ _ _ _ [Hp1 _]] _ Ht1] Hpl (l & Htr & Hl) Hp Hsucc. pose proof (pi_trace _ _ _ _ _ _ _ Hpl) as Ht2.
  exists fs, reply, (dev_speed (created (with_import a (ext fs))) <? USB_SPEED_SUPER), l.
  split; [done|]. split; [done|]. split; [|split; [|done]].
  - rewrite Hp. unfold plug_ins in *. by rewrite Ht2, omap_app, Hp1.
  - by rewrite Htr, Ht2, Ht1, <- !app_assoc.
Qed.

Lemma new_handle_slot (w : world W) d i : hub_wf w -> new_handle w d -> devices (vhci w) !! i <> Some (Some d).
Proof.
  intros Hw [Hd _] Hi. destruct (ports_slot w (wf_ports w (wf_core w Hw)) i d Hi) as (c & Hc & _). congruence.
Qed.

(** The attached device is announced. *)
Lemma plugin_succeeded (w w1 w2 w3 : world W) n a d fs p b :
  hub_wf w -> new_handle w d -> prepared w w1 d a fs -> imported n a fs ->
  hub_core w2 -> plugged_in w1 w2 d (created (with_import a (ext fs))) STATUS_SUCCESS p b ->
  hub_core w3 -> same_hub w2 w3 -> silent w2 w3 -> unpresented w2 w3 ->
  connection w w3 n a d STATUS_SUCCESS p None.
Proof.
  intros Hw Hd Hprep Himp Hc2 Hplug Hc3 Hs3 [Hp3 Hf3] Hun3.
  pose proof Hprep as [Hc1 [Hs1 Hn1 Hrm1 Hat1 [Hp1 Hf1]] Hdev1 Ht1].
  pose proof Hplug as [Hdev Hsl [_ [Hp0 Hrg]] Hsucc Htr Hcnt Hfree Hrm Hfr Hat].
  destruct (Hsucc eq_refl) as [Hpne ->]. destruct Hdev as (c & Hdev & Hattr & Hport & Hun & Hsock & _ & Hthr).
  destruct (frame_hub _ _ Hs3 (conj Hp3 Hf3)) as [Hs23 Hn23 Hrm23 Hat23 _].
  assert (dev_ctx w3 = <[d := c]> (dev_ctx w)) as Hd3 by (rewrite (sh_devs _ _ Hs3), Hdev, Hdev1; apply insert_insert_eq).
  assert (get_port_range (vhci w1) (dev_speed c) = get_port_range (vhci w) (dev_speed c)) as Hr.
  { unfold get_port_range. destruct Hn1 as [-> ->]. done. }
  assert (dev_speed (created (with_import a (ext fs))) = dev_speed c) as Hsp by (unfold dev_speed; by rewrite Hattr).
  specialize (Hrg Hpne). rewrite Hsp in Hrg. unfold in_range in Hrg. rewrite Hr in Hrg.
  pose proof (port_range_bounds (vhci w) (dev_speed c) (ports_hub w (wf_ports w (wf_core w Hw)))) as Hb.
  constructor; try done.
  - constructor; [done|]. rewrite Hd3. intros e ce. destruct (decide (d = e)) as [<-|Hne].
    + rewrite lookup_insert_eq. intros [= <-] Hu. by rewrite Hun in Hu.
    + rewrite lookup_insert_ne by done. by apply Hw.
  - intros r. by rewrite Hf3, Hfr, Hf1.
  - intros e He. rewrite Hd3. by apply lookup_insert_ne.
  - intros _. split; [done|]. split; [lia|]. split.
    { exists c. rewrite Hd3, lookup_insert_eq. split_and!; auto. }
    split; [rewrite <- Hs1; auto|]. intros i. by rewrite Hs23, Hsl, Hs1.
  - right. eapply (plugged_presented w w1 w2); [done..|]. intros _. exists c. by rewrite Hd3, lookup_insert_eq.
  - destruct Hn23 as [-> ->], Hcnt as [-> ->]. done.
  - congruence.
  - destruct Hat23 as [-> ->], Hat as [-> ->]. done.
Qed.

(** A device that could not be plugged in is detached again. *)
Lemma plugin_failed (w w1 w2 w3 w4 : world W) n a d fs st p b :
  hub_wf w -> new_handle w d -> prepared w w1 d a fs -> imported n a fs ->
  st <> STATUS_SUCCESS -> plugged_in w1 w2 d (created (with_import a (ext fs))) st p b ->
  hub_core w3 -> released w2 w3 d false -> unpresented w2 w3 -> w4 = (if b then w3 else object_delete w3 d) ->
  connection w w4 n a d st p None.
Proof.
  intros Hw Hd Hprep Himp Hst Hplug Hc3 [Ho Hg Hsl3 Hn3 Hrm3 Hat3 [Hp3 Hf3]] Hun3 ->.
  pose proof Hprep as [Hc1 [Hs1 Hn1 Hrm1 Hat1 [Hp1 Hf1]] Hdev1 Ht1].
  pose proof Hplug as [Hdev Hsl _ _ Htr Hcnt Hfree Hrm Hfr Hat].
  destruct (Hat3 (or_introl eq_refl)) as [Ha3 Hq3]. destruct Hdev as (c & Hdev & _).
  assert (forall e, e <> d -> dev_ctx w3 !! e = dev_ctx w !! e) as Ho3.
  { intros e He. by rewrite Ho, Hdev, lookup_insert_ne, Hdev1, lookup_insert_ne. }
  assert (forall i, devices (vhci w3) !! i = devices (vhci w) !! i) as Hslots.
  { intros i. rewrite Hsl3, Hsl, Hs1. pose proof (new_handle_slot w d i Hw Hd). case_decide as Hi.
    - destruct (decide (Z.of_nat i + 1 = p)) as [Hip|]; [|done]. rewrite <- Hs1. subst p.
      replace (Z.of_nat i + 1 - 1) with (Z.of_nat i) in Hfree by lia. rewrite Nat2Z.id in Hfree. rewrite Hfree by lia. done.
    - destruct (decide (Z.of_nat i + 1 = p)); done. }
  set (w4 := if b then w3 else _).
  assert (vhci w4 = vhci w3 /\ attach w4 = attach w3 /\ (forall r, fresh w4 r <-> fresh w3 r) /\ plug_ins w4 = plug_ins w3)
    as (Hv4 & Hat4 & Hf4 & Hp4).
  { unfold w4. destruct b; [done|]. split_and!; try done. by apply (silent_action _ _ (ObjectDelete d)). }
  assert (hub_core w4 /\ gone w4 d /\ forall e, e <> d -> dev_ctx w4 !! e = dev_ctx w3 !! e) as (Hc4 & Hg4 & Ho4).
  { unfold w4. destruct b; [done|]. unfold gone in *. destruct (dev_ctx w3 !! d) as [c3|] eqn:E.
    - split; [by apply (core_delete w3 d c3); [..|apply Hg]|]. simpl. rewrite lookup_delete_eq. split; [done|].
      intros e He. by apply lookup_delete_ne.
    - split; [|simpl; rewrite lookup_delete_eq; split; [done|]; intros e He; by apply lookup_delete_ne].
      apply (core_like (add_action w3 (ObjectDelete d))); [by apply core_action|]. constructor; try done. simpl.
      by apply delete_id. }
  constructor; rewrite ?Hv4, ?Hat4; try done.
  - constructor; [done|]. intros e ce He Hu. destruct (decide (e = d)) as [->|Hne].
    + unfold gone in Hg4. rewrite He in Hg4. tauto.
    + rewrite Ho4, Ho3 in He by done. by apply (wf_unplugged w Hw e).
  - intros r. by rewrite Hf4, Hf3, Hfr, Hf1.
  - intros e He. by rewrite Ho4, Ho3.
  - intros _. split; [done|by left].
  - destruct b; [|left; by rewrite Hp4, Hp3, (plug_ins_trace _ _ _ Htr), Hp1, app_nil_r].
    right. by apply (plugged_presented w w1 w2 w3 n a d fs st).
  - destruct Hn3 as [-> ->], Hcnt as [-> ->]. done.
  - congruence.
  - rewrite Ha3, Hq3. destruct Hat as [-> ->]. done.
Qed.

Lemma connected_ok (w : world W) (n : N) a d :
  hub_wf w -> new_handle w d ->
  exists st p n' own w', connected unicode_to_utf8 parse source_of reg stack w n a d = Some (st, p, n', own, w') /\
    connection w w' n a d st p own.
Proof.
  intros Hw Hd. unfold connected.
  destruct (device_state_changed_core unicode_to_utf8 source_of w a 0 Vhci.connected (source_of d) (wf_core w Hw))
    as (w1 & Hx1 & Hc1 & Hs1 & Hq1). rewrite Hx1. apply device_state_changed_trace in Hx1. simpl.
  pose proof (frame_hub _ _ Hs1 Hq1) as Hf1.
  destruct (import_outcome parse unicode_to_utf8 reg stack (mk_state n (import_ext a) 0 [])) as (r & fs & Himp & Hr). rewrite Himp. simpl.
  destruct r as [[]|err].
  2:{ do 5 eexists. split; [reflexivity|]. apply connection_failed; [done|done|apply Hr|done..|]. left. apply Hs1. }
  destruct Hr as (reply & u & _ & _ & _ & Hia & _ & Hsnap). assert (imported n a fs) as Hi by (split; eauto).
  destruct (create_ok w1 d (with_import a (ext fs)) (registry_policy reg) u (descriptors (ext fs)) Hc1)
    as (st & w2 & -> & Hc2 & Hf2 & Hcase); [|done|].
  { unfold new_handle. by rewrite (sh_devs _ _ Hs1), (sh_refs _ _ Hs1). }
  simpl. rewrite (sh_devs _ _ Hs1) in Hcase. pose proof (frame_trans _ _ _ Hf1 Hf2) as Hf12.
  destruct (decide (st = STATUS_SUCCESS)) as [->|Hne].
  2:{ exists st, 0, (net fs), (Some (with_import a (ext fs))), w2. split; [by destruct st|].
      apply connection_failed; [done..|]. destruct Hcase as [[_ ->]|(_ & -> & Hlk)]; [by left|].
      right. exists (with_import a (ext fs)). auto. }
  destruct Hcase as [[? _]|(Ht2 & Hdev2 & _)]; [done|].
  assert (prepared w w2 d a fs) as Hprep by (constructor; [done..|]; by rewrite Ht2, Hx1, <- app_assoc).
  destruct (plugin_core w2 d (created (with_import a (ext fs))) Hc2) as (st & p & b & w3 & -> & Hc3 & Hpl);
    [by rewrite Hdev2, lookup_insert_eq|done|]. simpl.
  destruct (pi_dev _ _ _ _ _ _ _ Hpl) as (c & Hdev3 & _ & _ & Hun & _).
  assert (dev_ctx w3 !! d = Some c) as Hl3 by (by rewrite Hdev3, lookup_insert_eq).
  destruct (decide (st = STATUS_SUCCESS)) as [->|Hne].
  - unfold dev_state_changed. rewrite Hl3. simpl.
    destruct (device_state_changed_core unicode_to_utf8 source_of w3 (attr c) (port c) plugged (source_of d) Hc3)
      as (w4 & Hx4 & Hc4 & Hs4 & Hq4). rewrite Hx4. apply device_state_changed_unpresented in Hx4. simpl.
    do 5 eexists. split; [reflexivity|]. by apply (plugin_succeeded w w2 w3 w4 n a d fs p b).
  - destruct (detach_core unicode_to_utf8 source_of w3 d c b false 1%positive Hc3 Hl3) as (w4 & Hx & Hc4 & Hrel);
      [by rewrite Hun|done|].
    exists st, p, (net fs), None, (if b then w4 else object_delete w4 d).
    split; [rewrite Hx; by destruct st|]. apply detach_unpresented in Hx. by apply (plugin_failed w w2 w3 w4 _ n a d fs st p b).
Qed.

(** ** The request's work item *)

Lemma stop_loop_frame fuel (w w' : world W) hash cnt n :
  stop_loop fuel w hash cnt = Some (n, w') ->
  trace w' = trace w /\ forall r, attach w !! r = None -> attach w' !! r = None.
Proof.
  revert w cnt. induction fuel as [|fuel IH]; intros w cnt; simpl; [done|]. unfold reattach_req_remove.
  destruct (find_location (attach w) hash (reattach_req (vhci w))) as [[r|]|]; simpl; [|by intros [= _ <-]|done].
  destruct (attach w !! r) as [c|] eqn:Er; intros Hx; apply IH in Hx as [Ht Ha]; (split; [done|]); intros q Hq; apply Ha; simpl; [|done].
  rewrite lookup_insert_ne by congruence. done.
Qed.

Lemma wf_same_ports (w w' : world W) : hub_wf w -> hub_core w' -> same_ports w w' -> hub_wf w'.
Proof. intros Hw Hc Hs. constructor; [done|]. rewrite (sp_dev _ _ Hs). apply Hw. Qed.

Lemma wf_same_hub (w w' : world W) : hub_wf w -> hub_core w' -> same_hub w w' -> hub_wf w'.
Proof. intros Hw Hc Hs. constructor; [done|]. rewrite (sh_devs _ _ Hs). apply Hw. Qed.

Lemma stop_ok (w : world W) hash :
  hub_wf w ->
  exists n w', stop_attach_attempts w hash = Some (n, w') /\ hub_wf w' /\ same_ports w w' /\ silent w w' /\
    (forall r, attach w !! r = None -> attach w' !! r = None) /\
    n = reattach_req_count w - reattach_req_count w' /\
    (forall r, r ∈ reattach_req (vhci w') <-> r ∈ reattach_req (vhci w) /\ ~ at_location (attach w) hash r).
Proof.
  intros Hw. unfold stop_attach_attempts.
  destruct (stop_loop_ok unicode_to_utf8 (S (length (reattach_req (vhci w)))) w hash 0 (wf_attempts w (wf_core w Hw)))
    as (n & w' & Hx & Ha & Hs & Hn & Hl); [lia|].
  destruct (stop_loop_frame _ _ _ _ _ _ Hx) as [Ht Hat]. exists n, w'. split; [done|].
  split; [apply (wf_same_ports w); [done| |done]; by apply (core_ports w); [apply Hw|..]|].
  split; [done|]. split; [|done]. split; [unfold plug_ins; by rewrite Ht|]. intros r. by apply same_ports_fresh.
Qed.

Lemma wf_complete (w : world W) r st info : hub_wf w -> fresh w r -> hub_wf (complete_request w r st info None).
Proof.
  intros [[Hp He Ha] Hu] Hf. constructor; [|done]. constructor; [by destruct Hp; constructor| |by destruct Ha; constructor].
  by apply events_ok_complete.
Qed.

(** The device table, the removal flag and the ports stay as they are. *)
Record same_table (w w' : world W) : Prop := {
  st_devices : devices (vhci w') = devices (vhci w);
  st_cnt : devices_cnt (vhci w') = devices_cnt (vhci w) /\ usb2_ports (vhci w') = usb2_ports (vhci w);
  st_dev : dev_ctx w' = dev_ctx w;
  st_removing : removing (vhci w') = removing (vhci w);
  st_plugs : plug_ins w' = plug_ins w }.

Lemma same_table_trans (w1 w2 w3 : world W) : same_table w1 w2 -> same_table w2 w3 -> same_table w1 w3.
Proof. intros [? [] ? ? ?] [? [] ? ? ?]. constructor; try split; congruence. Qed.

Lemma same_table_ports (w w' : world W) : same_ports w w' -> silent w w' -> same_table w w'.
Proof. intros [(l & Hv) ? ? ? ?] [? _]. constructor; rewrite ?Hv; auto. Qed.

Lemma same_table_hub (w w' : world W) : same_hub w w' -> silent w w' -> same_table w w'.
Proof. intros [(a & b & c & Hv) ? ? ?] [? _]. constructor; rewrite ?Hv; auto. Qed.

(** What every operation of the controller keeps.  Once the controller is being removed no
    device comes back, nothing is plugged in and no attach request is added. *)
Record advance (w w' : world W) : Prop := {
  ad_wf : hub_wf w';
  ad_cnt : devices_cnt (vhci w') = devices_cnt (vhci w) /\ usb2_ports (vhci w') = usb2_ports (vhci w);
  ad_removing : removing (vhci w) = true ->
      removing (vhci w') = true /\ plug_ins w' = plug_ins w /\
      (forall i, devices (vhci w') !! i = devices (vhci w) !! i \/ devices (vhci w') !! i = Some None) /\
      reattach_req (vhci w') ⊆ reattach_req (vhci w) }.

Lemma advance_refl (w : world W) : hub_wf w -> advance w w.
Proof. by constructor; auto. Qed.

Lemma advance_trans (w1 w2 w3 : world W) : advance w1 w2 -> advance w2 w3 -> advance w1 w3.
Proof using Type.
  intros [_ [Hc1 Hu1] Hr1] [Hw [Hc2 Hu2] Hr2]. constructor; [done|split; congruence|]. intros Hr.
  destruct (Hr1 Hr) as (Hr' & Hp1 & Hd1 & Hq1). destruct (Hr2 Hr') as (? & Hp2 & Hd2 & Hq2).
  split; [done|]. split; [congruence|]. split; [|by etrans]. intros i. destruct (Hd2 i) as [->|]; auto.
Qed.

Lemma advance_table (w w' : world W) :
  hub_wf w' -> same_table w w' -> (removing (vhci w) = true -> reattach_req (vhci w') ⊆ reattach_req (vhci w)) -> advance w w'.
Proof. intros Hw [Hd Hc _ Hr Hp] Hq. constructor; auto. intros Hrm. rewrite Hr, Hd. auto. Qed.

Lemma advance_hub (w w' : world W) : hub_wf w -> events_ok w' -> same_hub w w' -> plug_ins w' = plug_ins w -> advance w w'.
Proof.
  intros Hw He Hs Hp. apply advance_table.
  - apply (wf_same_hub w); [done| |done]. by apply (core_hub w); [apply Hw|..].
  - destruct Hs as [(a & b & c & Hv) ? ? ?]. constructor; rewrite ?Hv; auto.
  - destruct Hs as [(a & b & c & ->) _ _ _]. done.
Qed.

Lemma advance_wdf (w : world W) x : hub_wf w -> advance w (set_wdf w x).
Proof.
  intros Hw. apply advance_hub; auto; [by apply events_ok_wdf, Hw|by apply same_hub_eq].
Qed.

Lemma advance_changed (w : world W) a p st src :
  hub_wf w -> exists w', device_state_changed unicode_to_utf8 w a p st src = Some w' /\ advance w w' /\
                         forall q, fresh w' q <-> fresh w q.
Proof.
  intros Hw. destruct (device_state_changed_core unicode_to_utf8 source_of w a p st src (wf_core w Hw)) as (w' & -> & Hc & Hs & Hp & Hf).
  exists w'. split; [done|]. split; [|done]. apply advance_hub; [done|apply Hc|done|done].
Qed.

Lemma advance_reply (w : world W) r st info : hub_wf w -> fresh w r -> advance w (complete_request w r st info None).
Proof. intros Hw Hf. constructor; [by apply wf_complete|done|]. intros ?. split_and!; auto. Qed.

(** The same, with an exception for the devices of connections that were in progress when the removal began. *)
Record advances (P : device -> Prop) (w w' : world W) : Prop := {
  as_wf : hub_wf w';
  as_cnt : devices_cnt (vhci w') = devices_cnt (vhci w) /\ usb2_ports (vhci w') = usb2_ports (vhci w);
  as_removing : removing (vhci w) = true ->
      removing (vhci w') = true /\
      (exists l, plug_ins w' = plug_ins w ++ l /\ Forall (fun x => P (fst (fst x))) l) /\
      (forall i, devices (vhci w') !! i = devices (vhci w) !! i \/ devices (vhci w') !! i = Some None \/
                 exists d, P d /\ devices (vhci w') !! i = Some (Some d)) /\
      reattach_req (vhci w') ⊆ reattach_req (vhci w) }.

Lemma advance_advances P (w w' : world W) : advance w w' -> advances P w w'.
Proof.
  intros [Hw Hc Hr]. constructor; [done|done|]. intros Hrm. destruct (Hr Hrm) as (? & Hp & Hd & ?). split; [done|].
  split; [exists []; by rewrite app_nil_r|]. split; [|done]. intros i. destruct (Hd i); auto.
Qed.

Lemma advances_mono (P Q : device -> Prop) (w w' : world W) : (forall d, P d -> Q d) -> advances P w w' -> advances Q w w'.
Proof using Type.
  intros HPQ [Hw Hc Hr]. constructor; [done|done|]. intros Hrm. destruct (Hr Hrm) as (? & (l & Hp & Hl) & Hd & ?). split; [done|].
  split; [exists l; split; [done|]; apply (list.Forall_impl _ _ _ Hl); intros x; apply HPQ|]. split; [|done].
  intros i. destruct (Hd i) as [?|[?|(d & ? & ?)]]; [auto..|]. right; right. exists d. auto.
Qed.

Lemma advances_trans P (w1 w2 w3 : world W) : advances P w1 w2 -> advances P w2 w3 -> advances P w1 w3.
Proof using Type.
  intros [_ [Hc1 Hu1] Hr1] [Hw [Hc2 Hu2] Hr2]. constructor; [done|split; congruence|]. intros Hr.
  destruct (Hr1 Hr) as (Hr' & (l1 & Hp1 & Hl1) & Hd1 & Hq1). destruct (Hr2 Hr') as (? & (l2 & Hp2 & Hl2) & Hd2 & Hq2).
  split; [done|]. split; [exists (l1 ++ l2); split; [by rewrite Hp2, Hp1, app_assoc|by apply list.Forall_app]|].
  split; [|by etrans]. intros i. destruct (Hd2 i) as [->|[|]]; auto.
Qed.

Lemma advances_none (w w' : world W) : advances (fun _ => False) w w' -> advance w w'.
Proof using Type.
  intros [Hw Hc Hr]. constructor; [done|done|]. intros Hrm. destruct (Hr Hrm) as (? & (l & Hp & Hl) & Hd & ?). split; [done|].
  split; [destruct l; [by rewrite app_nil_r in Hp|by apply list.Forall_cons in Hl as [[] _]]|]. split; [|done].
  intros i. destruct (Hd i) as [?|[?|(d & [] & _)]]; auto.
Qed.

Lemma advances_connection (w w' : world W) n a d st p own : connection w w' n a d st p own -> advances (.= d) w w'.
Proof.
  intros [Hwf _ _ Hs Hfl Hpl Hc Hr [_ Hq]]. constructor; [done|done|]. intros Hrm. rewrite Hr, Hq. split; [done|]. split; [|split; [|done]].
  - destruct Hpl as [[-> _]|(fs & reply & b & l & _ & _ & -> & _)]; [exists []; by rewrite app_nil_r|].
    eexists. split; [reflexivity|]. by apply list.Forall_singleton.
  - intros i. destruct (decide (st = STATUS_SUCCESS)) as [Hst|Hst].
    + destruct (Hs Hst) as (_ & _ & _ & _ & ->). case_decide; eauto.
    + destruct (Hfl Hst) as [-> _]. auto.
Qed.

(** What follows the completion of the request: attempts for the location end or start. *)
Lemma after_completion (w : world W) r a st :
  hub_wf w -> attach w !! r = None -> r ∉ reattach_req (vhci w) ->
  exists w', (if NT_SUCCESS st then
                res ← stop_attach_attempts w (location_hash a); Some (snd res)
              else if NT_ERROR st then
                retry ← can_reattach w (location_hash a) st;
                if retry : bool then
                  res ← stop_attach_attempts w (location_hash a);
                  start_attach_attempts unicode_to_utf8 (snd res) r a true
                else Some w
              else Some w) = Some w' /\ advance w w' /\ same_table w w' /\ (forall q, fresh w' q <-> fresh w q).
Proof.
  intros Hw Hr Hn. destruct (stop_ok w (location_hash a) Hw) as (n & w1 & Hx & Hw1 & Hs1 & Hq1 & Ha1 & _ & Hl1).
  pose proof (same_table_ports _ _ Hs1 Hq1) as Ht1. rewrite Hx. simpl.
  assert (advance w w1) as Ha by (apply advance_table; [done|done|]; intros _ q; rewrite Hl1; tauto).
  pose proof (advance_refl w Hw).
  destruct (NT_SUCCESS st); [exists w1; split; [done|]; split; [done|]; split; [done|apply Hq1]|].
  destruct (NT_ERROR st); [|by exists w].
  destruct (can_reattach_ok w (location_hash a) st (wf_ports w (wf_core w Hw))) as (b & -> & _). simpl.
  destruct b; [|by exists w].
  destruct (start_attach_attempts_core unicode_to_utf8 w1 r a true (wf_core w1 Hw1)) as (w2 & Hx2 & Hc2 & Hs2 & Hq2);
    [auto|rewrite Hl1; tauto|].
  exists w2. split; [done|]. assert (same_table w1 w2) as Ht2 by (by apply same_table_ports). split; [|split].
  - eapply advance_trans; [exact Ha|]. apply advance_table; [by apply (wf_same_ports w1)|done|]. intros Hr1.
    unfold start_attach_attempts in Hx2. rewrite Hr1 in Hx2. by injection Hx2 as <-.
  - eapply same_table_trans; [exact Ht1|done].
  - intros q. rewrite (proj2 Hq2). apply Hq1.
Qed.

(** The step that complete makes for the attributes [a] after it read [seen]: it fails or goes on without the device, or
    the connection was made. *)
Record stepped (w w' : world W) (seen : bool) (n : N) (d : device) (wi wi' : workitem) (a : device_attributes) (st : ntstatus)
    (ext : option device_attributes) : Prop := {
  sd_same : wi_request wi' = wi_request wi /\ one_attempt wi' = one_attempt wi;
  sd_case : (w' = w /\ ext = Some a /\ st <> STATUS_SUCCESS /\ (seen = true -> st = STATUS_CANCELLED)) \/
            (seen = false /\ connection w w' n a d st (wi_port wi') (wi_ext wi') /\ ext = ext_after w' d (wi_ext wi') /\
             exists n', connected unicode_to_utf8 parse source_of reg stack w n a d = Some (st, wi_port wi', n', wi_ext wi', w')) }.

Lemma connect_shape wi addrs sock :
  exists st wi', connect wi addrs sock = (st, wi') /\ st <> STATUS_SUCCESS /\
    wi_request wi' = wi_request wi /\ one_attempt wi' = one_attempt wi.
Proof.
  unfold connect. destruct (create_socket sock) as [err has]. destruct (decide (err = STATUS_SUCCESS)) as [->|He].
  - do 2 eexists. split; [reflexivity|]. done.
  - eexists err, _. split; [destruct err; done|]. done.
Qed.

Lemma complete_step_ok (w : world W) seen (n : N) wi a addrs d st sock :
  hub_wf w -> new_handle w d -> wi_addrs wi <> Some [] ->
  exists st' wi' ext n' w',
    complete_step unicode_to_utf8 parse source_of reg stack w seen n wi a addrs d st sock = Some (st', wi', ext, n', w') /\
    stepped w w' seen n d wi wi' a st' ext.
Proof.
  intros Hw Hd Haddrs. unfold complete_step. destruct seen.
  { do 5 eexists. split; [reflexivity|]. split; [done|]. by left. }
  destruct (wi_addrs wi) as [[|x rest]|]; [done| |].
  - unfold on_connect. destruct (NT_SUCCESS st) eqn:Est.
    + destruct (connected_ok w n a d Hw Hd) as (st' & p & n' & own & w' & Hx & Hc). rewrite Hx. simpl.
      do 5 eexists. split; [reflexivity|]. split; [done|]. right. simpl. eauto.
    + assert (st <> STATUS_SUCCESS) as Hne by (intros ->; done).
      set (wi1 := set_owner wi (wi_ext wi) false (wi_port wi)).
      destruct rest as [|y rest]; [do 5 eexists; split; [reflexivity|]; split; [done|]; by left|].
      case_bool_decide; [do 5 eexists; split; [reflexivity|]; split; [done|]; by left|].
      destruct (connect_shape wi1 (y :: rest) sock) as (st' & wi' & -> & ? & ? & ?).
      do 5 eexists. split; [reflexivity|]. split; [done|]. by left.
  - destruct (NT_SUCCESS st) eqn:Est.
    + destruct (connect_shape wi addrs sock) as (st' & wi' & -> & ? & ? & ?).
      do 5 eexists. split; [reflexivity|]. split; [done|]. by left.
    + do 5 eexists. split; [reflexivity|]. split; [done|]. left. split_and!; try done. by intros ->.
Qed.

(** The device could not be plugged in and is deleted already, with its attributes; a request that may be tried
    again reads them nevertheless. *)
Definition reads_deleted (w : world W) (n : N) (wi : workitem) (a : device_attributes) (d : device) : Prop :=
  one_attempt wi = false /\
  exists st p n' w1, connected unicode_to_utf8 parse source_of reg stack w n a d = Some (st, p, n', None, w1) /\
    st <> STATUS_SUCCESS /\ dev_ctx w1 !! d = None.

(** What is known of the attributes and of the controller after the step. *)
Lemma stepped_spec (w w' : world W) seen n d wi wi' a st ext :
  hub_wf w -> stepped w w' seen n d wi wi' a st ext ->
  hub_wf w' /\ (forall q, fresh w' q <-> fresh w q) /\
  (ext = None -> one_attempt wi = false -> seen = false /\ reads_deleted w n wi a d) /\
  attach w' = attach w /\ reattach_req (vhci w') = reattach_req (vhci w) /\
  advances (fun e => e = d /\ seen = false) w w'.
Proof.
  intros Hw [_ [(-> & -> & _)|(-> & Hcn & -> & n' & Hx)]].
  - split_and!; try done. by apply advance_advances, advance_refl.
  - pose proof (advances_connection _ _ _ _ _ _ _ _ Hcn) as Hadv. destruct Hcn as [Hwf Hf _ Hs Hfl _ _ _ [Ha Hq]].
    split; [done|]. split; [done|]. split; [|split; [done|split; [done|]]].
    + unfold ext_after. destruct (wi_ext wi') eqn:Eo; [done|]. intros Hn Hone. split; [done|]. split; [done|].
      exists st, (wi_port wi'), n', w'. split; [done|]. apply fmap_None in Hn. split; [|done].
      intros ->. destruct (Hs eq_refl) as (_ & _ & (c & Hc & _) & _). congruence.
    + by eapply advances_mono; [|exact Hadv].
Qed.

(** What the status of a finished plug-in request says about the table of devices and about the device that may have been made:
    after an error it is gone again; only one whose spin locks could not be created stays, unplugged. *)
Definition finished (w w' : world W) (n : N) (a : device_attributes) (d : device) (st : ntstatus) (p : Z) : Prop :=
  (forall e, e <> d -> dev_ctx w' !! e = dev_ctx w !! e) /\
  if bool_decide (st = STATUS_SUCCESS)
  then (exists fs c, imported n a fs /\ dev_ctx w' !! d = Some c /\ attr c = with_import a (ext fs) /\ port c = p /\
          in_range (vhci w) (dev_speed c) (p - 1) /\ sock_open c = true /\ recv_thread c = true /\ unplugged c = false) /\
       forall i, devices (vhci w') !! i = if decide (Z.of_nat i + 1 = p) then Some (Some d) else devices (vhci w) !! i
  else (forall i, devices (vhci w') !! i = devices (vhci w) !! i) /\
       (gone w' d \/ exists b, dev_ctx w' !! d = Some (created b) /\ lock_failure st).

Lemma stepped_finished (w w' w'' : world W) seen n d wi wi' a st ext :
  new_handle w d -> stepped w w' seen n d wi wi' a st ext -> same_table w' w'' -> finished w w'' n a d st (wi_port wi').
Proof.
  intros [Hnew _] [_ Hcase] [Hdv _ Hdev _ _]. unfold finished, gone. rewrite Hdv, Hdev.
  destruct Hcase as [(-> & _ & Hne & _)|(_ & [_ _ Ho Hs Hfl Hpl _ _ _] & _)].
  - split; [done|]. rewrite bool_decide_false by done. split; [done|]. left. by rewrite Hnew.
  - split; [done|]. case_bool_decide as Hst.
    + destruct (Hs Hst) as (_ & _ & (c & Hc & Hp & Hrg & Hso & Hth & Hu) & _ & Hsl). split; [|done].
      destruct Hpl as [[_ ?]|(fs & reply & b & l & Himp & Hia & _ & _ & _ & Hat)]; [done|]. destruct (Hat Hst) as (c' & Hc' & Hat').
      rewrite Hc in Hc'. injection Hc' as <-. exists fs, c. split; [split; eauto|]. auto 8.
    + destruct (Hfl Hst) as [Hsl [Hg|(b & _ & Hb & Hlk)]]; split; [done|by left|done|right; eauto].
Qed.

Lemma cleanup_ok (w : world W) wi d :
  hub_wf w -> exists w', workitem_cleanup unicode_to_utf8 source_of w wi d = Some w' /\ advance w w' /\ same_table w w' /\
                         forall q, fresh w' q <-> fresh w q.
Proof.
  intros Hw. unfold workitem_cleanup. destruct (wi_ext wi) as [a|]; [|exists w; by split_and!; try apply advance_refl].
  destruct (device_state_changed_core unicode_to_utf8 source_of w a 0 disconnected (source_of d) (wf_core w Hw))
    as (w' & -> & Hc & Hs & Hq).
  exists w'. split; [done|]. split; [by apply advance_hub; [|apply Hc|..|apply Hq]|]. split; [by apply same_table_hub|apply Hq].
Qed.

(** The end of a work item. *)
Definition item_result (w : world W) (seen : bool) (n : N) (wi : workitem) (a : device_attributes) (d : device)
    (res : option (outcome * N * world W)) : Prop :=
  match res with
  | Some (Pending wi', _, w') =>
      advances (fun e => e = d /\ seen = false) w w' /\ wi_request wi' = wi_request wi /\ fresh w' (wi_request wi)
  | Some (Finished st' p, _, w') =>
      advances (fun e => e = d /\ seen = false) w w' /\ ~ fresh w' (wi_request wi) /\ finished w w' n a d st' p /\
      (seen = true -> st' = STATUS_CANCELLED)
  | None => seen = false /\ reads_deleted w n wi a d
  end.

Lemma complete_ok (w : world W) seen (n : N) wi a addrs d r st sock :
  hub_wf w -> new_handle w d -> wi_ext wi = Some a -> wi_addrs wi <> Some [] -> fresh w (wi_request wi) ->
  attach w !! r = None -> r ∉ reattach_req (vhci w) ->
  item_result w seen n wi a d (complete unicode_to_utf8 parse source_of reg stack w seen n wi addrs d r st sock).
Proof.
  intros Hw Hd Hext Haddrs Hfr Hr Hnr. unfold complete. rewrite Hext. simpl.
  destruct (complete_step_ok w seen n wi a addrs d st sock Hw Hd Haddrs) as (st' & wi' & ext & n' & w1 & -> & Hstep). simpl.
  destruct (stepped_spec _ _ _ _ _ _ _ _ _ _ Hw Hstep) as (Hw1 & Hf1 & Hnone & Ha1 & Hq1 & Hadv).
  destruct (sd_same _ _ _ _ _ _ _ _ _ _ Hstep) as [Hreq Hone].
  case_bool_decide; [split; [done|]; split; [done|by apply Hf1]|].
  assert (fresh w1 (wi_request wi')) as Hfr1 by (rewrite Hreq; by apply Hf1).
  set (w2 := complete_request w1 (wi_request wi') st' plugin_written None).
  pose proof (advance_reply w1 (wi_request wi') st' plugin_written Hw1 Hfr1) as Hadv2. fold w2 in Hadv2.
  pose proof (ad_wf _ _ Hadv2) as Hw2.
  assert (~ fresh w2 (wi_request wi)) as Hdone.
  { unfold fresh, w2. rewrite completed_requests_complete, Hreq. set_solver. }
  assert (seen = true -> st' = STATUS_CANCELLED) as Hcancel.
  { intros ->. destruct (sd_case _ _ _ _ _ _ _ _ _ _ Hstep) as [(_ & _ & _ & Hc)|(? & _)]; [auto|congruence]. }
  assert (forall w3, advance w2 w3 -> same_table w2 w3 -> (forall q, fresh w3 q <-> fresh w2 q) ->
    item_result w seen n wi a d (w' ← workitem_cleanup unicode_to_utf8 source_of w3 wi' d;
                        Some (Finished st' (wi_port wi'), n', w'))) as Hend.
  { intros w3 Hw3 Ht3 Hf3. destruct (cleanup_ok w3 wi' d (ad_wf _ _ Hw3)) as (w4 & -> & Hw4 & Ht4 & Hf4). simpl.
    split; [eapply advances_trans; [exact Hadv|]; apply advance_advances;
            exact (advance_trans _ _ _ Hadv2 (advance_trans _ _ _ Hw3 Hw4))|].
    split; [by rewrite Hf4, Hf3|]. split; [|done]. eapply stepped_finished; [exact Hd|exact Hstep|].
    eapply same_table_trans; [|exact Ht4]. eapply same_table_trans; [|exact Ht3]. by constructor. }
  rewrite Hone. destruct (one_attempt wi) eqn:E1; simpl; [by apply (Hend w2); [apply advance_refl|..]|].
  destruct ext as [b|]; simpl; [|by apply Hnone].
  destruct (after_completion w2 r b st' Hw2) as (w3 & Hx & Hw3 & Ht3 & Hf3); [simpl; by rewrite Ha1|simpl; by rewrite Hq1|].
  rewrite Hx. simpl. by apply Hend.
Qed.

(** C13: the work item of a plug-in request keeps the controller consistent, whatever the network, the
    server and the framework answer.  When it ends, its request is completed, exactly once, and the
    status tells the truth: after STATUS_SUCCESS the new device, with the attributes of the import, is at the reported port with its socket
    and receiving thread, and the other ports are as before; after any other status no port has
    changed, no other device either, and the device that may have been made is gone: deleted, or unplugged without socket,
    thread and port - unless the status is that of a spin lock that could not be created, after which that device stays.
    A request that sees the controller being removed is cancelled.  Memory that is no longer there is
    read in one case only: the device of a request that is to be tried again could not be plugged in and was deleted. *)
Theorem request_outcome (w : world W) seen (n : N) wi a addrs d r st sock :
  hub_wf w -> new_handle w d -> wi_ext wi = Some a -> wi_addrs wi <> Some [] -> fresh w (wi_request wi) ->
  attach w !! r = None -> r ∉ reattach_req (vhci w) ->
  match complete unicode_to_utf8 parse source_of reg stack w seen n wi addrs d r st sock with
  | Some (Pending wi', _, w') => hub_wf w' /\ wi_request wi' = wi_request wi /\ fresh w' (wi_request wi)
  | Some (Finished st' p, _, w') =>
      hub_wf w' /\ ~ fresh w' (wi_request wi) /\ finished w w' n a d st' p /\ (seen = true -> st' = STATUS_CANCELLED)
  | None => seen = false /\ reads_deleted w n wi a d
  end.
Proof.
  intros Hw Hd Hext Haddrs Hfr Hr Hnr. pose proof (complete_ok w seen n wi a addrs d r st sock Hw Hd Hext Haddrs Hfr Hr Hnr) as Hc.
  unfold item_result in Hc. destruct (complete _ _ _ _ _ _ _ _ _ _ _ _ _ _) as [[[[wi'|st' p] n'] w']|]; [..|done];
    destruct Hc as [Ha Hc]; (split; [apply Ha|done]).
Qed.

(** C1: connecting to a server never presents to Windows a device the filter rejects.  A device is plugged in only
    after the import of what the server sent has succeeded, which the policy in the registry allowed for exactly those bytes: the class of the
    device and of every interface of each of its configurations; and UdeCx was given the descriptors which that import published,
    all of them and no others, before it was told to plug the device in.  Success means that the device has the attributes of the import and is
    at a port that was free, in the range of its speed; after an error no port has changed, and a device that
    was created is detached again: unplugged, without socket, thread or port - only one whose spin locks could not be created stays. *)
Theorem blocked_device_never_plugged_in (w : world W) (n : N) a d :
  hub_wf w -> new_handle w d ->
  exists st p n' own w', connected unicode_to_utf8 parse source_of reg stack w n a d = Some (st, p, n', own, w') /\
    hub_wf w' /\
    (plug_ins w' = plug_ins w \/ presented w w' n a d st p) /\
    (st = STATUS_SUCCESS -> plug_ins w' <> plug_ins w /\ own = None /\
       exists c, dev_ctx w' !! d = Some c /\ port c = p /\ in_range (vhci w) (dev_speed c) (p - 1) /\
         devices (vhci w) !! Z.to_nat (p - 1) = Some None /\ devices (vhci w') !! Z.to_nat (p - 1) = Some (Some d)) /\
    (st <> STATUS_SUCCESS -> (forall i, devices (vhci w') !! i = devices (vhci w) !! i) /\ (gone w' d \/ left_behind w' d st own)).
Proof.
  intros Hw Hd. destruct (connected_ok w n a d Hw Hd) as (st & p & n' & own & w' & Hx & [Hwf _ _ Hs Hfl Hpl _ _ _]).
  exists st, p, n', own, w'. split; [done|]. split; [done|]. split; [|split; [|done]].
  - destruct Hpl as [[? _]|?]; auto.
  - intros Hst. destruct (Hs Hst) as (-> & Hp & (c & Hc & Hpc & Hr & _) & Hfree & Hsl).
    destruct Hpl as [[_ ?]|(fs & reply & usb20 & l & _ & _ & Hpl & _)]; [done|]. split.
    { rewrite Hpl. intros Heq. apply (f_equal length) in Heq. rewrite length_app in Heq. simpl in Heq. lia. }
    split; [done|]. exists c. split_and!; auto. rewrite Hsl. rewrite decide_True by lia. done.
Qed.
End connecting.

(** ** The requests *)

Section requests.
Context {W : Type} `{WdfLaws W} `{AttachWdf W} `{Udecx W} `{Controller W}.
Context {N : Type} `{Net N} {R : Type} `{HR : RegistryLaws R} {K : Type} `{PersistentKey K}.
Context (unicode_to_utf8 : nat -> list Z -> ntstatus * list byte).
Context (utf8_to_unicode_n : list byte -> ntstatus * list Z).
Context (hash_string : list Z -> ntstatus * Z) (pool : Z -> bool).
Context (parse : list byte -> Z -> nat -> Z -> option nat) `{!ParseDescriptors parse}.
Context (source_of : device -> Z) (wi_source : request -> Z).

(** *** Files *)

Lemma exec_plugs (w w' : world W) op : exec unicode_to_utf8 w op = Some w' -> plug_ins w' = plug_ins w.
Proof.
  destruct op as [f r|f|r len|r| |a p st src]; simpl.
  - intros [= <-]. unfold device_file_create. destruct (collection_create (wdf w)) as [st x]. by destruct (NT_ERROR st).
  - unfold file_cleanup. destruct (fobj_ctx w !! f); [|done]. by intros [= <-].
  - unfold device_read. destruct (negb (len =? sizeof_device_state)); [by intros [= <-]|].
    destruct (fobj_ctx w !! file_of r) as [c|]; [|done]. simpl. set (w1 := if process_events c then w else _).
    assert (trace w1 = trace w) as Ht by (unfold w1; by destruct (process_events c)).
    assert (forall v : world W, trace v = trace w -> plug_ins v = plug_ins w) as Hgen by (intros v; unfold plug_ins; by intros ->).
    destruct (events c) as [|evt l].
    + destruct (forward_to_reads (wdf w1) r) as [st x]. destruct (decide (st = STATUS_SUCCESS)) as [->|Hne].
      * intros [= <-]. by apply Hgen.
      * destruct st; try done; intros [= <-]; by apply Hgen.
    + destruct (complete_read_shape w1 r evt) as (x & st & info & o & -> & _). intros [= <-]. by apply Hgen.
  - by intros [= <-].
  - intros [= <-]. unfold purge_read_queue. generalize (reads (vhci w)). intros l. revert w.
    induction l as [|r l IH]; intros w; [done|]. simpl. by rewrite IH.
  - intros Hx. by apply device_state_changed_silent in Hx as [? _].
Qed.

Lemma advance_file (w : world W) op :
  hub_wf w -> enabled w op -> exists w', exec unicode_to_utf8 w op = Some w' /\ advance w w'.
Proof.
  intros Hw He. destruct (exec_ok unicode_to_utf8 w op (wf_events w (wf_core w Hw)) He) as (w' & Hx & He').
  exists w'. split; [done|]. apply advance_hub; auto; [|by apply (exec_plugs w w' op)].
  apply (exec_same_hub unicode_to_utf8 w op); [apply Hw|done].
Qed.

(** *** Attach attempts *)

Lemma remove_first_subset r l : remove_first r l ⊆ l.
Proof. induction l as [|x l IH]; simpl; [done|]. case_bool_decide; set_solver. Qed.

Lemma delete_request_subset (w : world W) r : reattach_req (vhci (delete_request w r)) ⊆ reattach_req (vhci w).
Proof. apply remove_first_subset. Qed.

Lemma on_plugin_hardware_frame (w w' : world W) r st :
  on_plugin_hardware w r st = Some w' -> trace w' = trace w /\ reattach_req (vhci w') ⊆ reattach_req (vhci w).
Proof.
  unfold on_plugin_hardware. destruct (attach w !! r) as [c|]; [|done]. simpl.
  set (w1 := set_attach_ctx w r _).
  assert (trace (delete_request w1 r) = trace w /\ reattach_req (vhci (delete_request w1 r)) ⊆ reattach_req (vhci w)) as Hdel
    by (split; [done|apply remove_first_subset]).
  match goal with |- (o ← ?x; _) = _ -> _ => destruct x as [retry|] end; [|done]. simpl.
  destruct (negb (retry && negb (removing (vhci w)))); [by intros [= <-]|].
  destruct (reuse_request (wdf w) r) as [err x]. destruct (decide (err = STATUS_SUCCESS)) as [->|He].
  - by intros [= <-].
  - destruct err; try done; intros [= <-]; (split; [done|apply remove_first_subset]).
Qed.

Lemma send_or_delete_frame (w w' : world W) r :
  send_or_delete w r = Some w' -> reattach_req (vhci w') ⊆ reattach_req (vhci w).
Proof.
  unfold send_or_delete, send_plugin_hardware. destruct (try_call_eq format_request w) as ([] & x & ->); simpl.
  - destruct (attach w !! r); [|done]. simpl. destruct (send_request x r) as [[] y]; intros [= <-]; [done|apply remove_first_subset].
  - intros [= <-]. apply remove_first_subset.
Qed.

Lemma exec_attach_frame (w w' : world W) op :
  hub_wf w -> exec_attach unicode_to_utf8 w op = Some w' ->
  plug_ins w' = plug_ins w /\ (removing (vhci w) = true -> reattach_req (vhci w') ⊆ reattach_req (vhci w)).
Proof.
  intros Hw. destruct op as [r a dl|r st|r|hash]; simpl.
  - intros Hx. split; [by eapply start_attach_attempts_plugs|]. intros Hr. revert Hx. unfold start_attach_attempts.
    rewrite Hr. by intros [= <-].
  - intros [Ht Hs]%on_plugin_hardware_frame. unfold plug_ins. by rewrite Ht.
  - unfold on_attach_timer. destruct (removing (vhci w)).
    + intros [= <-]. split; [done|]. intros _. apply remove_first_subset.
    + intros Hx. split; [|done]. unfold plug_ins. by rewrite (send_or_delete_trace _ _ _ Hx).
  - destruct (stop_ok unicode_to_utf8 w hash Hw) as (n & w1 & -> & _ & _ & [Hp _] & _ & _ & Hl). intros [= <-]. split; [done|].
    intros _ r Hr. by apply Hl.
Qed.

Lemma advance_attach (w : world W) op :
  hub_wf w -> attach_enabled w op -> exists w', exec_attach unicode_to_utf8 w op = Some w' /\ advance w w'.
Proof.
  intros Hw He. pose proof (wf_core w Hw) as [Hp Hev Hat].
  destruct (exec_attach_ok unicode_to_utf8 w op Hat Hp He) as (w' & Hx & Ha & Hs). exists w'. split; [done|].
  destruct (exec_attach_frame _ _ _ Hw Hx) as [Hpl Hq]. apply advance_table; auto.
  - by apply (wf_same_ports w); [|apply (core_ports w)|].
  - destruct Hs as [(l & Hv) ? ? ? ?]. constructor; rewrite ?Hv; auto.
Qed.

(** *** Plugging out *)

Lemma advance_detach (w : world W) d c plugout reattach r :
  hub_wf w -> dev_ctx w !! d = Some c -> (reattach = true -> attach w !! r = None /\ r ∉ reattach_req (vhci w)) ->
  exists w', detach unicode_to_utf8 source_of w d plugout reattach r = Some w' /\ advance w w' /\
    (forall q, fresh w' q <-> fresh w q) /\ (unplugged c = false -> gone w' d) /\
    (forall e, e <> d -> dev_ctx w' !! e = dev_ctx w !! e) /\
    (forall i, devices (vhci w') !! i =
                 if decide (devices (vhci w) !! i = Some (Some d)) then Some None else devices (vhci w) !! i).
Proof.
  intros Hw Hc Hr. destruct (detach_wf unicode_to_utf8 source_of w d c plugout reattach r Hw Hc Hr)
    as (w' & Hx & Hw' & _ & Hs & Ho & Hcn & Hg & Hrm & Hat & Hp & Hf).
  exists w'. split; [done|]. split; [|done]. constructor; [done|done|]. intros Hrem. split; [congruence|]. split; [done|]. split.
  - intros i. rewrite Hs. case_decide; auto.
  - destruct (Hat (or_intror Hrem)) as [_ ->]. done.
Qed.

Lemma advance_detach_all (w : world W) plugout :
  hub_wf w -> exists w', detach_all_devices unicode_to_utf8 source_of w plugout = Some w' /\ advance w w' /\
    (forall q, fresh w' q <-> fresh w q) /\
    forall i, (i < length (devices (vhci w)))%nat -> devices (vhci w') !! i = Some None.
Proof.
  intros Hw. pose proof (wf_ports w (wf_core w Hw)) as Hp. pose proof (ports_ok_array w Hp).
  pose proof (hub_usb2 _ (ports_hub w Hp)). pose proof (hub_usb3 _ (ports_hub w Hp)).
  destruct (detach_ports_wf unicode_to_utf8 source_of (Z.to_nat (devices_cnt (vhci w))) 1 w plugout Hw)
    as (w' & Hx & Hw' & [Hcn Hu] & Hs & Hz & Hrm & _ & Hq & Hpl & Hf); [lia|lia|].
  exists w'. split; [exact Hx|]. split; [|split; [exact Hf|]].
  - constructor; [done|done|]. intros Hrem. rewrite Hrm, Hq. done.
  - intros i Hi. apply Hz. lia.
Qed.

(** The requests a port number stands for. *)
Definition plugout_port (q : ioctl) : Z := s32 (Policy.field 4 4 (io_buf q)).

Definition plugout_input_ok (q : ioctl) : Prop := io_in q = 8%nat /\ Policy.field 0 4 (io_buf q) = 8.

Lemma plugout_hardware_ok (w : world W) q reattach r :
  hub_wf w -> attach w !! r = None -> r ∉ reattach_req (vhci w) ->
  exists rp w', plugout_hardware unicode_to_utf8 source_of w q reattach r = Some (rp, w') /\
    advance w w' /\ (forall x, fresh w' x <-> fresh w x) /\ rp_info rp = 0 /\ rp_buf rp = io_buf q /\
    (plugout_input_ok q ->
       let p := plugout_port q in
       if p <=? 0 then rp_status rp = STATUS_SUCCESS /\
            forall i, (i < length (devices (vhci w)))%nat -> devices (vhci w') !! i = Some None
       else if devices_cnt (vhci w) <? p then rp_status rp = STATUS_INVALID_PARAMETER /\ w' = w
       else match devices (vhci w) !! Z.to_nat (p - 1) with
            | Some (Some d) => rp_status rp = STATUS_SUCCESS /\ gone w' d /\
                (forall e, e <> d -> dev_ctx w' !! e = dev_ctx w !! e) /\
                forall i, devices (vhci w') !! i = if decide (Z.of_nat i + 1 = p) then Some None else devices (vhci w) !! i
            | _ => rp_status rp = STATUS_DEVICE_NOT_CONNECTED /\ w' = w
            end) /\
    (~ plugout_input_ok q -> rp_status rp <> STATUS_SUCCESS /\ w' = w).
Proof.
  intros Hw Hr Hn. pose proof (wf_ports w (wf_core w Hw)) as Hpo. pose proof (ports_ok_array w Hpo) as Hlen.
  pose proof (advance_refl w Hw) as Hrefl. unfold plugout_hardware, retrieve, plugout_input_ok.
  change (Z.to_nat sizeof_plugout_hardware) with 8%nat. rewrite (bool_decide_false (8 = 0)%nat), andb_false_r by done.
  unfold guard_err. destruct (Nat.leb_spec 8 (io_in q)) as [H8|H8].
  2:{ do 2 eexists. split; [reflexivity|]. split_and!; try done. intros [? _]. lia. }
  change sizeof_plugout_hardware with 8. destruct (Z.eqb_spec (Z.of_nat (io_in q)) 8) as [He|He]; cbn [negb].
  2:{ do 2 eexists. split; [reflexivity|]. split_and!; try done. intros [? _]. lia. }
  destruct (Z.eqb_spec (Policy.field 0 4 (io_buf q)) (Z.of_nat (io_in q))) as [Hs|Hs]; cbn [negb].
  2:{ do 2 eexists. split; [reflexivity|]. split_and!; try done. intros [? ?]. congruence. }
  fold (plugout_port q). set (p := plugout_port q). assert (io_in q = 8%nat /\ Policy.field 0 4 (io_buf q) = 8) as Hok by lia.
  destruct (Z.leb_spec p 0) as [Hp|Hp].
  { destruct (advance_detach_all w (negb (p =? PORT_ALL_CLOSEONLY)) Hw) as (w' & -> & Ha & Hf & Hz). simpl.
    do 2 eexists. split; [reflexivity|]. by split_and!. }
  unfold is_valid_port. destruct (Z.ltb_spec (devices_cnt (vhci w)) p) as [Hgt|Hle].
  { replace (0 <? p) with true by lia. replace (p <=? devices_cnt (vhci w)) with false by lia.
    do 2 eexists. split; [reflexivity|]. by split_and!. }
  replace ((0 <? p) && (p <=? devices_cnt (vhci w))) with true by lia. cbn [negb].
  destruct (lookup_lt_is_Some_2 (devices (vhci w)) (Z.to_nat (p - 1))) as [o Ho]; [lia|].
  assert (get_device w p = Some o) as ->.
  { unfold get_device, is_valid_port. by replace ((0 <? p) && (p <=? devices_cnt (vhci w))) with true by lia. }
  rewrite Ho. simpl. destruct o as [d|]; [|do 2 eexists; split; [reflexivity|]; by split_and!].
  destruct (ports_slot w Hpo _ _ Ho) as (c & Hc & Hport & _).
  destruct (advance_detach w d c true reattach r Hw Hc) as (w' & -> & Ha & Hf & Hg & Hoth & Hsl); [done|]. simpl.
  do 2 eexists. split; [reflexivity|]. split_and!; try done. intros _. split; [done|]. split; [|split; [done|]].
  - apply Hg. destruct (unplugged c) eqn:Eu; [|done]. pose proof (wf_unplugged w Hw d c Hc Eu). lia.
  - intros i. rewrite Hsl. case_decide as Hi.
    + destruct (ports_slot w Hpo _ _ Hi) as (c' & Hc' & Hport' & _). rewrite Hc in Hc'. injection Hc' as <-.
      by rewrite decide_True by lia.
    + destruct (decide (Z.of_nat i + 1 = p)) as [Hip|]; [|done]. replace (Z.to_nat (p - 1)) with i in Ho by lia. done.
Qed.

(** *** The other handlers *)

Lemma plugin_hardware_ioctl_ok (w : world W) q once :
  hub_wf w ->
  exists rp o w', plugin_hardware_ioctl unicode_to_utf8 utf8_to_unicode_n hash_string pool wi_source w q once = Some (rp, o, w') /\
    advance w w' /\ (forall x, fresh w' x <-> fresh w x) /\
    (forall wi, o = Some wi -> wi_request wi = io_request q /\ one_attempt wi = once /\ is_Some (wi_ext wi) /\ wi_addrs wi = None).
Proof.
  intros Hw. pose proof (advance_refl w Hw) as Hrefl. unfold plugin_hardware_ioctl.
  destruct (retrieve _ _) as [[]|e]; [|do 3 eexists; split; [reflexivity|]; by split_and!].
  destruct (negb (Z.of_nat (io_in q) =? _)); [do 3 eexists; split; [reflexivity|]; by split_and!|]. destruct (negb (ph_size _ =? _)); [do 3 eexists; split; [reflexivity|]; by split_and!|].
  destruct (decide (validate_serial_number (ph_serial (plugin_of_bytes (io_buf q))) = STATUS_SUCCESS)) as [->|Hv].
  2:{ destruct (validate_serial_number _); try done; do 3 eexists; (split; [reflexivity|]); by split_and!. }
  unfold plugin_hardware_start. set (ph := plugin_of_bytes (write_at _ _ _)).
  destruct (workitem_create (wdf w)) as [err x]. destruct (decide (err = STATUS_SUCCESS)) as [->|He].
  2:{ destruct err; try done; do 3 eexists; (split; [reflexivity|]); (split; [by apply advance_wdf|done]). }
  simpl. destruct (memory_create x) as [err y]. destruct (decide (err = STATUS_SUCCESS)) as [->|He].
  2:{ destruct err; try done; do 3 eexists; (split; [reflexivity|]);
      (split; [by apply (advance_wdf w y)|done]). }
  destruct (create_device_ctx_ext _ _ _ ph) as [err a]. set (w1 := set_wdf (set_wdf w x) y).
  assert (advance w w1) as Ha1 by (by apply (advance_wdf w y)).
  pose proof (ad_wf _ _ Ha1) as Hw1.
  destruct (decide (err = STATUS_SUCCESS)) as [->|He].
  - destruct (advance_changed unicode_to_utf8 source_of w1 a 0 connecting (wi_source (io_request q)) Hw1) as (w' & Hx & Ha & Hf). rewrite Hx. simpl.
    do 3 eexists. split; [reflexivity|]. split; [by eapply advance_trans|]. split; [done|]. intros wi [= <-]. simpl. eauto.
  - destruct (advance_changed unicode_to_utf8 source_of w1 a 0 disconnected (wi_source (io_request q)) Hw1) as (w' & Hx & Ha & Hf).
    rewrite Hx. destruct err; try done; do 3 eexists; (split; [reflexivity|]); (split; [by eapply advance_trans|done]).
Qed.

Lemma stop_attach_attempts_ioctl_ok (w : world W) q :
  hub_wf w ->
  exists rp w', stop_attach_attempts_ioctl utf8_to_unicode_n hash_string pool w q = Some (rp, w') /\
    advance w w' /\ forall x, fresh w' x <-> fresh w x.
Proof.
  intros Hw. pose proof (advance_refl w Hw) as Hrefl. unfold stop_attach_attempts_ioctl.
  destruct (retrieve _ _) as [[]|e]; [|do 2 eexists; split; [reflexivity|]; by split_and!].
  destruct (negb (Z.of_nat (io_in q) =? _)); [do 2 eexists; split; [reflexivity|]; by split_and!|]. destruct (negb (Policy.field _ _ _ =? _)); [do 2 eexists; split; [reflexivity|]; by split_and!|].
  match goal with |- context [let '(_, _) := ?x in _] => destruct x as [st hash] end.
  destruct (NT_SUCCESS st); [|do 2 eexists; split; [reflexivity|]; by split_and!].
  destruct (stop_ok unicode_to_utf8 w hash Hw) as (n & w' & -> & Hw' & Hs & Hq & _ & _ & Hl). simpl.
  do 2 eexists. split; [reflexivity|]. split; [|apply Hq].
  apply advance_table; [done|by apply same_table_ports|]. intros _ r. rewrite Hl. tauto.
Qed.

Lemma report_loop_total (w : world W) n p max_cnt cnt buf :
  ports_ok w -> exists r, report_loop unicode_to_utf8 n p w max_cnt cnt buf = Some r.
Proof.
  intros Hw. revert p cnt buf. induction n as [|n IH]; intros p cnt buf; simpl; [eauto|].
  destruct (get_device_spec w p Hw) as (o & -> & Ho). simpl. destruct o as [d|]; [|done].
  case_bool_decide; [eauto|]. destruct Ho as (c & -> & _). simpl. destruct (fill_entry _ _ _ _ _) as [err b].
  destruct (decide (err = STATUS_SUCCESS)) as [->|He]; [done|]. destruct err; eauto.
Qed.

Lemma get_imported_devices_total (w : world W) q :
  hub_wf w -> exists rp, get_imported_devices unicode_to_utf8 w q = Some rp.
Proof.
  intros Hw. unfold get_imported_devices. destruct (retrieve _ _) as [[]|e]; [|eauto]. destruct (negb _); [eauto|].
  match goal with |- context [report_loop _ ?n ?p ?w ?m ?c ?b] => destruct (report_loop_total w n p m c b (wf_ports w (wf_core w Hw))) as [[[st cnt] buf] ->] end.
  simpl. eauto.
Qed.

(** *** The queues *)

(** The request was completed, or it is still to be completed. *)
Definition settled (w' : world W) (q : ioctl) (h : handled) : Prop :=
  match h with
  | Replied _ => ~ fresh w' (io_request q)
  | Working wi => fresh w' (io_request q) /\ wi_request wi = io_request q /\ is_Some (wi_ext wi) /\ wi_addrs wi = None
  | Forwarded => fresh w' (io_request q)
  end.

Lemma reply_ok (w w' : world W) q rp :
  hub_wf w -> fresh w (io_request q) -> advance w w' -> (forall x, fresh w' x <-> fresh w x) ->
  advance w (reply_to w' q rp) /\ ~ fresh (reply_to w' q rp) (io_request q).
Proof.
  intros Hw Hf Ha Hq. split.
  - eapply advance_trans; [exact Ha|]. apply advance_reply; [apply Ha|by apply Hq].
  - unfold fresh, reply_to. rewrite completed_requests_complete. set_solver.
Qed.

Lemma device_control_ok (w : world W) q r :
  hub_wf w -> fresh w (io_request q) -> attach w !! r = None -> r ∉ reattach_req (vhci w) ->
  exists h w', device_control unicode_to_utf8 utf8_to_unicode_n hash_string pool source_of wi_source w q r = Some (h, w') /\
    advance w w' /\ settled w' q h.
Proof.
  intros Hw Hf Hr Hn. unfold device_control.
  assert (exists h w', (let '(handled, x) := try_handle_user_ioctl (wdf w) (io_request q) in
            let w := set_wdf w x in
            if handled : bool then Some (Forwarded, w)
            else let rp := failed STATUS_INVALID_DEVICE_REQUEST q in Some (Replied rp, reply_to w q rp)) = Some (h, w') /\
            advance w w' /\ settled w' q h) as Hother.
  { destruct (try_handle_user_ioctl (wdf w) (io_request q)) as [[] x]; do 2 eexists; (split; [reflexivity|]).
    - split; [by apply advance_wdf|exact Hf].
    - apply (reply_ok w); auto. by apply advance_wdf. }
  assert (forall once, exists h w', (res ← plugin_hardware_ioctl unicode_to_utf8 utf8_to_unicode_n hash_string pool wi_source w q once;
            let '(rp, wi, w) := res in
            match (wi : option workitem) with
            | Some wi => Some (Working wi, w)
            | None => Some (Replied rp, reply_to w q rp)
            end) = Some (h, w') /\ advance w w' /\ settled w' q h) as Hplug.
  { intros once. destruct (plugin_hardware_ioctl_ok w q once Hw) as (rp & o & w' & -> & Ha & Hq & Hwi). simpl.
    destruct o as [wi|]; do 2 eexists; (split; [reflexivity|]).
    - split; [done|]. simpl. rewrite Hq. destruct (Hwi wi eq_refl) as (? & _ & ? & ?). done.
    - by apply (reply_ok w). }
  assert (forall reattach, exists h w', (res ← plugout_hardware unicode_to_utf8 source_of w q reattach r;
            let '(rp, w) := res in Some (Replied rp, reply_to w q rp)) = Some (h, w') /\ advance w w' /\ settled w' q h) as Hout.
  { intros reattach. destruct (plugout_hardware_ok w q reattach r Hw Hr Hn) as (rp & w' & -> & Ha & Hq & _). simpl.
    do 2 eexists. split; [reflexivity|]. by apply (reply_ok w). }
  destruct (io_code q); auto.
Qed.

Lemma device_control_parallel_ok (w : world W) (reg : R) (k : K) stack pad q :
  hub_wf w -> fresh w (io_request q) ->
  exists h w' reg' k', device_control_parallel unicode_to_utf8 utf8_to_unicode_n hash_string pool w reg k stack pad q =
                         Some (h, w', reg', k') /\ advance w w' /\ settled w' q h.
Proof.
  intros Hw Hf. unfold device_control_parallel.
  assert (forall rp w', advance w w' -> (forall x, fresh w' x <-> fresh w x) ->
            advance w (reply_to w' q rp) /\ settled (reply_to w' q rp) q (Replied rp)) as Hrep by (intros; by apply (reply_ok w)).
  pose proof (Hrep) as Hself. specialize (fun rp => Hself rp w (advance_refl w Hw) (fun x => iff_refl _)).
  assert (exists h w' reg' k', (let '(st, x) := forward_to_default (wdf w) (io_request q) in
            let w := set_wdf w x in
            if NT_SUCCESS st then Some (Forwarded, w, reg, k)
            else let rp := failed st q in Some (Replied rp, reply_to w q rp, reg, k)) = Some (h, w', reg', k') /\
            advance w w' /\ settled w' q h) as Hfwd.
  { destruct (forward_to_default (wdf w) (io_request q)) as [st x].
    destruct (NT_SUCCESS st); do 4 eexists; (split; [reflexivity|]); [by split; [apply advance_wdf|]|].
    apply Hrep; [by apply advance_wdf|done]. }
  unfold get_parallel_handler. destruct (io_code q); auto; simpl.
  - destruct (get_imported_devices_total w q Hw) as [rp ->]. simpl. do 4 eexists. split; [reflexivity|]. apply Hself.
  - destruct (set_persistent k q) as [rp k']. simpl. do 4 eexists. split; [reflexivity|]. apply Hself.
  - do 4 eexists. split; [reflexivity|]. apply Hself.
  - destruct (stop_attach_attempts_ioctl_ok w q Hw) as (rp & w' & -> & Ha & Hq). simpl.
    do 4 eexists. split; [reflexivity|]. by apply Hrep.
  - destruct (Policy.set_device_filter _ _ _) as [st reg']. simpl. do 4 eexists. split; [reflexivity|]. apply Hself.
  - destruct (Policy.get_device_filter _ _ _) as [[st info] out]. simpl. do 4 eexists. split; [reflexivity|]. apply Hself.
Qed.

(** *** Detaching from elsewhere, and the removal of the controller *)

Lemma async_detach_port_ok (w : world W) r p reattach :
  hub_wf w -> exists x o, async_detach_port w r p reattach = (o, set_wdf w x) /\
    forall q, o = Some q -> io_request q = r /\
      (io_code q = if reattach then PLUGOUT_HARDWARE_AND_REATTACH else PLUGOUT_HARDWARE) /\
      plugout_input_ok q /\ plugout_port q = s32 (u32 p).
Proof.
  intros Hw. unfold async_detach_port.
  destruct (try_call_eq request_create w) as ([] & x1 & ->); simpl; [|by exists x1, None].
  destruct (try_call_eq memory_create (set_wdf w x1)) as ([] & x2 & ->); simpl; [|by exists x2, None].
  destruct (try_call_eq format_request (set_wdf (set_wdf w x1) x2)) as ([] & x3 & ->); simpl; [|by exists x3, None].
  destruct (send_request x3 r) as [[] x4]; [|by exists x4, None].
  exists x4. eexists. split; [reflexivity|]. intros q [= <-]. split; [done|]. split; [by destruct reattach|].
  unfold plugout_input_ok, plugout_port, Policy.field, create_detach_request_inbuf. cbn [io_in io_buf].
  split; [done|]. rewrite drop_app_length', take_ge, le_val_le_bytes by (by rewrite ?length_drop, ?length_le_bytes). done.
Qed.

Lemma purge_read_queue_ok (w : world W) : hub_wf w -> advance w (purge_read_queue w).
Proof.
  intros Hw. destruct (advance_file w Purge Hw I) as (w' & [= <-] & Ha). done.
Qed.

Lemma purged_reads (w : world W) : NoDup (reads (vhci w)) -> reads (vhci (purge_read_queue w)) = [].
Proof.
  unfold purge_read_queue. intros Hn.
  assert (forall l (v : world W), NoDup (reads (vhci v)) -> NoDup l -> reads (vhci v) ≡ₚ l -> reads (vhci (fold_left canceled_on_queue l v)) = []) as Hgen.
  { induction l as [|r l IH]; intros v Hv Hl Hp; simpl; [by apply Permutation_nil_r|].
    apply list.NoDup_cons in Hl as [Hr Hl]. apply IH; [|done|].
    - simpl. by apply list.NoDup_filter.
    - simpl. rewrite Hp. rewrite filter_cons_False by (intros Hne; by apply Hne). rewrite filter_all; [done|].
      apply list.Forall_forall. intros x Hx ->. done. }
  by apply Hgen.
Qed.

Lemma vhci_query_remove_ok (w : world W) r :
  hub_wf w ->
  exists o w', vhci_query_remove w r = Some (o, w') /\ hub_wf w' /\ removing (vhci w') = true /\
    reattach_req (vhci w') = [] /\ reads (vhci w') = [] /\
    devices (vhci w') = devices (vhci w) /\ (devices_cnt (vhci w') = devices_cnt (vhci w) /\ usb2_ports (vhci w') = usb2_ports (vhci w)) /\
    plug_ins w' = plug_ins w /\
    (forall q, o = Some q -> io_code q = PLUGOUT_HARDWARE /\ plugout_input_ok q /\ plugout_port q = PORT_ALL).
Proof.
  intros Hw. unfold vhci_query_remove. set (w1 := set_vhci w (with_removing (vhci w) true)).
  assert (hub_wf w1) as Hw1.
  { destruct Hw as [[[] [] []] Hu]. constructor; [|done]. constructor; [constructor; auto|constructor; auto|constructor; auto].
    by destruct ports_hub; constructor. }
  destruct (stop_ok unicode_to_utf8 w1 0 Hw1) as (n & w2 & -> & Hw2 & [(l & Hv2) Hd2 _ _ _] & [Hp2 _] & _ & _ & Hl). simpl.
  unfold async_detach_and_delete_all. destruct (async_detach_port_ok w2 r PORT_ALL false Hw2) as (x & o & -> & Ho).
  pose proof (advance_wdf w2 x Hw2) as Ha. pose proof (ad_wf _ _ Ha) as Hw3.
  assert (NoDup (reads (vhci w2))) as Hn by (pose proof (eo_once _ (wf_events _ (wf_core _ Hw2))) as [? _]%list.NoDup_app; done).
  pose proof (purge_read_queue_ok (set_wdf w2 x) Hw3) as Hpu.
  assert (removing (vhci (set_wdf w2 x)) = true) as Hr by (simpl; by rewrite Hv2).
  destruct (exec_same_hub unicode_to_utf8 (set_wdf w2 x) Purge _ (wf_events _ (wf_core _ Hw3)) eq_refl) as [(a & b & c & Hv4) _ _ _].
  exists o, (purge_read_queue (set_wdf w2 x)). split; [done|]. split; [apply Hpu|].
  assert (reattach_req (vhci w2) = []) as Hnil.
  { destruct (reattach_req (vhci w2)) as [|y ys] eqn:E; [done|]. destruct (proj1 (Hl y)) as [_ []]; [apply elem_of_cons; auto|by left]. }
  split; [by apply Hpu|]. split; [rewrite Hv4; exact Hnil|]. split; [by apply purged_reads|].
  split; [rewrite Hv4; simpl; by rewrite Hv2|]. split; [rewrite Hv4; simpl; by rewrite Hv2|].
  split; [destruct (ad_removing _ _ Hpu Hr) as (_ & Hpl & _); rewrite Hpl; exact Hp2|].
  intros q Hq. destruct (Ho q Hq) as (_ & ? & ? & Hport). split; [done|]. split; [done|]. rewrite Hport. reflexivity.
Qed.

(** A request that was sent for a device without a port any more is one for all devices: the port is
    read when the request is made, after [unplugged] was tested. *)
Lemma stale_port_detaches_all (w w' w2 w3 : world W) r r' d c q reattach h :
  hub_wf w -> dev_ctx w !! d = Some c -> port c = 0 ->
  async_detach_and_delete w r d reattach = Some (Some q, w') ->
  hub_wf w2 -> attach w2 !! r' = None -> r' ∉ reattach_req (vhci w2) ->
  plugout_hardware unicode_to_utf8 source_of w2 q reattach r' = Some (h, w3) ->
  forall i, (i < length (devices (vhci w2)))%nat -> devices (vhci w3) !! i = Some None.
Proof.
  intros Hw Hc Hp Hx Hw2 Hr Hn Hrun. unfold async_detach_and_delete in Hx. rewrite Hc in Hx. simpl in Hx. rewrite Hp in Hx.
  destruct (async_detach_port_ok w r 0 reattach Hw) as (x & o & He & Ho). rewrite He in Hx. injection Hx as -> _.
  destruct (Ho q eq_refl) as (_ & _ & Hin & Hport).
  destruct (plugout_hardware_ok w2 q reattach r' Hw2 Hr Hn) as (rp & w4 & Hx4 & _ & _ & _ & _ & Hspec & _).
  rewrite Hrun in Hx4. injection Hx4 as <- <-. specialize (Hspec Hin). cbv zeta in Hspec. rewrite Hport in Hspec. apply Hspec.
Qed.

(** ** Sequences of requests and callbacks *)

(** [sys_running] are the work items that run, by their request, with what they read of the flag [removing]: complete
    reads it first, and then may wait for the server, while other requests run. *)
Record system : Type := {
  sys_world : world W; sys_reg : R; sys_key : K; sys_net : N; sys_running : gmap request bool }.

Inductive sys_op : Type :=
| FileOp (op : event_op)                                         (* file objects and their reads *)
| AttachOp (op : attach_op)                                      (* the controller's own attach requests *)
| ControlOp (q : ioctl) (r : request)                            (* a request of the default queue *)
| ParallelOp (q : ioctl) (stack pad : list byte)                 (* a request of the parallel queue *)
| ItemBegin (wi : workitem)                                      (* a work item starts to run *)
| ItemEnd (wi : workitem) (addrs : list Z) (d : device) (r : request) (st : ntstatus)
    (sock : ntstatus * ntstatus * ntstatus) (stack : list byte)  (* and does what it has to do *)
| DetachOp (r : request) (d : device) (reattach : bool)          (* async_detach_and_delete *)
| RemoveOp (r : request).                                        (* vhci_query_remove *)

Definition set_world (s : system) (w : world W) : system :=
  {| sys_world := w; sys_reg := sys_reg s; sys_key := sys_key s; sys_net := sys_net s; sys_running := sys_running s |}.

Definition exec_sys (s : system) (op : sys_op) : option system :=
  let w := sys_world s in
  match op with
  | FileOp op => w ← exec unicode_to_utf8 w op; Some (set_world s w)
  | AttachOp op => w ← exec_attach unicode_to_utf8 w op; Some (set_world s w)
  | ControlOp q r =>
      res ← device_control unicode_to_utf8 utf8_to_unicode_n hash_string pool source_of wi_source w q r;
      Some (set_world s (snd res))
  | ParallelOp q stack pad =>
      res ← device_control_parallel unicode_to_utf8 utf8_to_unicode_n hash_string pool w (sys_reg s) (sys_key s) stack pad q;
      let '(_, w, reg, key) := res in
      Some {| sys_world := w; sys_reg := reg; sys_key := key; sys_net := sys_net s; sys_running := sys_running s |}
  | ItemBegin wi =>
      Some {| sys_world := w; sys_reg := sys_reg s; sys_key := sys_key s; sys_net := sys_net s;
              sys_running := <[wi_request wi := removing (vhci w)]> (sys_running s) |}
  | ItemEnd wi addrs d r st sock stack =>
      seen ← sys_running s !! wi_request wi;
      res ← complete unicode_to_utf8 parse source_of (sys_reg s) stack w seen (sys_net s) wi addrs d r st sock;
      let '(_, n, w) := res in
      Some {| sys_world := w; sys_reg := sys_reg s; sys_key := sys_key s; sys_net := n;
              sys_running := delete (wi_request wi) (sys_running s) |}
  | DetachOp r d reattach => res ← async_detach_and_delete w r d reattach; Some (set_world s (snd res))
  | RemoveOp r => res ← vhci_query_remove w r; Some (set_world s (snd res))
  end.

(** What the framework does in a state: requests are not completed yet, handles are new, and a
    work item that runs has its attributes and the addresses it tries. *)
Definition sys_enabled (s : system) (op : sys_op) : Prop :=
  let w := sys_world s in
  match op with
  | FileOp op => enabled w op
  | AttachOp op => attach_enabled w op
  | ControlOp q r => fresh w (io_request q) /\ attach w !! r = None /\ r ∉ reattach_req (vhci w)
  | ParallelOp q _ _ => fresh w (io_request q)
  | ItemBegin wi => sys_running s !! wi_request wi = None
  | ItemEnd wi addrs d r st sock stack =>
      is_Some (sys_running s !! wi_request wi) /\
      new_handle w d /\ is_Some (wi_ext wi) /\ wi_addrs wi <> Some [] /\ fresh w (wi_request wi) /\
      attach w !! r = None /\ r ∉ reattach_req (vhci w)
  | DetachOp _ d _ => is_Some (dev_ctx w !! d)
  | RemoveOp _ => True
  end.

(** The one operation that reads memory which is no longer there. *)
Definition reads_deleted_attributes (s : system) (op : sys_op) : Prop :=
  match op with
  | ItemEnd wi addrs d r st sock stack =>
      sys_running s !! wi_request wi = Some false /\
      exists a, wi_ext wi = Some a /\
        reads_deleted unicode_to_utf8 parse source_of (sys_reg s) stack (sys_world s) (sys_net s) wi a d
  | _ => False
  end.

(** The device of a work item that read the flag before the controller was removed. *)
Definition connecting_device (s : system) (op : sys_op) (d : device) : Prop :=
  match op with
  | ItemEnd wi addrs e r st sock stack => e = d /\ sys_running s !! wi_request wi = Some false
  | _ => False
  end.

Fixpoint exec_sys_all (s : system) (ops : list sys_op) : option system :=
  match ops with [] => Some s | op :: ops => s ← exec_sys s op; exec_sys_all s ops end.

Fixpoint sys_enabled_all (s : system) (ops : list sys_op) : Prop :=
  match ops with
  | [] => True
  | op :: ops => sys_enabled s op /\ forall s', exec_sys s op = Some s' -> sys_enabled_all s' ops
  end.

(** The operations run to their end in [s'], or one of them reads deleted attributes, in the state [s']. *)
Inductive runs : system -> list sys_op -> system -> Prop :=
| runs_all s s' ops : exec_sys_all s ops = Some s' -> runs s ops s'
| runs_until s s' ops1 op ops2 :
    exec_sys_all s ops1 = Some s' -> reads_deleted_attributes s' op -> exec_sys s' op = None -> runs s (ops1 ++ op :: ops2) s'.

Lemma exec_sys_ok (s : system) op :
  hub_wf (sys_world s) -> sys_enabled s op ->
  match exec_sys s op with
  | Some s' => advances (connecting_device s op) (sys_world s) (sys_world s')
  | None => reads_deleted_attributes s op
  end.
Proof.
  intros Hw He. destruct op as [op|op|q r|q stack pad|wi|wi addrs d r st sock stack|r d reattach|r]; simpl in He |- *.
  - destruct (advance_file _ _ Hw He) as (w' & -> & Ha). by apply advance_advances.
  - destruct (advance_attach _ _ Hw He) as (w' & -> & Ha). by apply advance_advances.
  - destruct He as (Hf & Hr & Hn). destruct (device_control_ok (sys_world s) q r Hw Hf Hr Hn) as (h & w' & -> & Ha & _).
    by apply advance_advances.
  - destruct (device_control_parallel_ok (sys_world s) (sys_reg s) (sys_key s) stack pad q Hw He) as (h & w' & reg & k & -> & Ha & _).
    by apply advance_advances.
  - by apply advance_advances, advance_refl.
  - destruct He as ([seen Hseen] & Hd & [a Ha] & Haddrs & Hf & Hr & Hn). rewrite Hseen. simpl.
    pose proof (complete_ok unicode_to_utf8 parse source_of (sys_reg s) stack (sys_world s) seen (sys_net s) wi a addrs d r st sock
                  Hw Hd Ha Haddrs Hf Hr Hn) as Hc.
    destruct (complete _ _ _ _ _ _ _ _ _ _ _ _ _ _) as [[[o n] w']|]; simpl.
    + destruct o; destruct Hc as [Hadv _]; (eapply advances_mono; [|exact Hadv]); intros e [-> ->]; done.
    + destruct Hc as [-> Hdel]. eauto.
  - destruct He as [c Hc]. unfold async_detach_and_delete. rewrite Hc. simpl.
    destruct (async_detach_port_ok (sys_world s) r (port c) reattach Hw) as (x & o & -> & _). simpl.
    by apply advance_advances, advance_wdf.
  - destruct (vhci_query_remove_ok (sys_world s) r Hw) as (o & w' & -> & Hw' & Hrm & Hq & _ & Hdv & Hc & Hp & _). simpl.
    apply advance_advances. constructor; [done|done|]. intros _. split; [done|]. split; [done|].
    split; [intros i; left; by rewrite Hdv|]. rewrite Hq. intros y Hy. by apply elem_of_nil in Hy.
Qed.

(** What a work item read does not change while it runs. *)
Lemma exec_sys_running (s s' : system) op r seen :
  exec_sys s op = Some s' -> sys_running s' !! r = Some seen ->
  sys_running s !! r = Some seen \/ (exists wi, op = ItemBegin wi) /\ seen = removing (vhci (sys_world s)).
Proof.
  destruct op; simpl; intros Hx Hr.
  all: try (match type of Hx with mbind _ ?x = Some _ => destruct x as [v|]; [|done] end; simpl in Hx).
  - injection Hx as <-. auto.
  - injection Hx as <-. auto.
  - injection Hx as <-. auto.
  - destruct v as [[[? ?] ?] ?]. injection Hx as <-. auto.
  - injection Hx as <-. simpl in Hr. apply lookup_insert_Some in Hr as [[_ <-]|[_ ?]]; eauto.
  - match type of Hx with mbind _ ?x = Some _ => destruct x as [[[? ?] ?]|]; [|done] end. injection Hx as <-. simpl in Hr.
    apply lookup_delete_Some in Hr as [_ ?]. auto.
  - injection Hx as <-. auto.
  - injection Hx as <-. auto.
Qed.

(** The work items that read the flag before the removal, and end in the operations. *)
Definition in_progress (s : system) (ops : list sys_op) (d : device) : Prop :=
  exists wi addrs r st sock stack, ItemEnd wi addrs d r st sock stack ∈ ops /\ sys_running s !! wi_request wi = Some false.

Lemma connecting_in_progress (s : system) op ops d : connecting_device s op d -> in_progress s (op :: ops) d.
Proof. destruct op; simpl; try done. intros [-> Hr]. do 6 eexists. split; [by left|done]. Qed.

Lemma reads_deleted_in_progress (s : system) op ops : reads_deleted_attributes s op -> op ∈ ops -> exists d, in_progress s ops d.
Proof. destruct op; simpl; try done. intros [Hr _] Hin. exists d. do 6 eexists. split; [exact Hin|done]. Qed.

(** In a controller that is being removed no further item comes to be in progress. *)
Lemma in_progress_back (s s' : system) op ops d :
  removing (vhci (sys_world s)) = true -> exec_sys s op = Some s' -> in_progress s' ops d -> in_progress s (op :: ops) d.
Proof.
  intros Hrm Hx (wi & addrs & r & st & sock & stack & Hin & Hr). exists wi, addrs, r, st, sock, stack. split; [by right|].
  destruct (exec_sys_running _ _ _ _ _ Hx Hr) as [?|[_ Hs]]; [done|congruence].
Qed.

Definition late (s : system) (ops : list sys_op) (d : device) : Prop := removing (vhci (sys_world s)) = true -> in_progress s ops d.

Lemma exec_sys_all_ok (s : system) ops1 ops2 :
  hub_wf (sys_world s) -> sys_enabled_all s (ops1 ++ ops2) ->
  exists ops s', exec_sys_all s ops = Some s' /\ advances (late s ops1) (sys_world s) (sys_world s') /\
    (ops = ops1 /\ sys_enabled_all s' ops2 \/
     exists op rest, ops1 = ops ++ op :: rest /\ exec_sys s' op = None /\ reads_deleted_attributes s' op /\
       (removing (vhci (sys_world s)) = true -> exists d, in_progress s ops1 d)).
Proof.
  revert s. induction ops1 as [|op ops1 IH]; intros s Hw He; simpl.
  - exists [], s. split; [done|]. split; [by apply advance_advances, advance_refl|by left].
  - destruct He as [He1 He2]. pose proof (exec_sys_ok s op Hw He1) as Hx. destruct (exec_sys s op) as [s1|] eqn:E.
    + destruct (IH s1 (as_wf _ _ _ Hx) (He2 s1 eq_refl)) as (ops & s' & Hops & Ha & Hend). exists (op :: ops), s'.
      split; [simpl; by rewrite E|]. split; [|].
      * eapply advances_trans; [eapply advances_mono; [|exact Hx]; intros d Hd _; by apply connecting_in_progress|].
        eapply advances_mono; [|exact Ha]. intros d Hd Hrm. eapply in_progress_back; [done|exact E|]. apply Hd.
        by destruct (as_removing _ _ _ Hx Hrm).
      * destruct Hend as [[-> ?]|(op' & rest & -> & ? & ? & Hd)]; [by left|]. right. exists op', rest. split; [done|].
        split; [done|]. split; [done|]. intros Hrm. destruct Hd as [d Hd]; [by destruct (as_removing _ _ _ Hx Hrm)|]. exists d.
        by eapply in_progress_back.
    + exists [], s. split; [done|]. split; [by apply advance_advances, advance_refl|]. right. exists op, ops1. split; [done|].
      split; [done|]. split; [done|]. intros _. eapply reads_deleted_in_progress; [done|by left].
Qed.

Lemma exec_sys_app (s : system) ops1 ops2 :
  exec_sys_all s (ops1 ++ ops2) = (s' ← exec_sys_all s ops1; exec_sys_all s' ops2).
Proof. revert s. induction ops1 as [|op ops IH]; intros s; simpl; [done|]. destruct (exec_sys s op); simpl; auto. Qed.

(** The default queue runs the PLUGOUT_HARDWARE of all ports. *)
Lemma plugout_all_ok (w w' : world W) q r h :
  hub_wf w -> attach w !! r = None -> r ∉ reattach_req (vhci w) ->
  io_code q = PLUGOUT_HARDWARE -> plugout_input_ok q -> plugout_port q <= 0 ->
  device_control unicode_to_utf8 utf8_to_unicode_n hash_string pool source_of wi_source w q r = Some (h, w') ->
  forall i, (i < length (devices (vhci w)))%nat -> devices (vhci w') !! i = Some None.
Proof.
  intros Hw Hr Hn Hcode Hin Hport. unfold device_control. rewrite Hcode.
  destruct (plugout_hardware_ok w q false r Hw Hr Hn) as (rp & w1 & -> & _ & _ & _ & _ & Hspec & _). simpl.
  intros [= _ <-]. specialize (Hspec Hin). cbv zeta in Hspec. rewrite (proj2 (Z.leb_le _ _) Hport) in Hspec. apply Hspec.
Qed.

Lemma nil_of_subset {A} (l : list A) : l ⊆ [] -> l = [].
Proof. destruct l as [|x l]; [done|]. intros Hs. assert (x ∈ @nil A) as Hx by (apply Hs; by left). by apply elem_of_nil in Hx. Qed.

Lemma in_progress_back_all (s s' : system) ops1 ops2 d :
  hub_wf (sys_world s) -> sys_enabled_all s ops1 -> removing (vhci (sys_world s)) = true ->
  exec_sys_all s ops1 = Some s' -> in_progress s' ops2 d -> in_progress s (ops1 ++ ops2) d.
Proof.
  revert s. induction ops1 as [|op ops1 IH]; intros s Hw He Hrm; simpl; [by intros [= <-]|].
  destruct He as [He1 He2]. pose proof (exec_sys_ok s op Hw He1) as Hx. destruct (exec_sys s op) as [s1|] eqn:E; [|done]. simpl.
  intros Hrun Hp. eapply in_progress_back; [done|exact E|]. destruct (as_removing _ _ _ Hx Hrm).
  apply IH; auto. apply Hx.
Qed.

Lemma enabled_app (s : system) ops1 ops2 : sys_enabled_all s (ops1 ++ ops2) -> sys_enabled_all s ops1.
Proof. revert s. induction ops1 as [|op ops IH]; intros s; simpl; [done|]. intros [He Hs]. split; [done|]. intros s' Hx. auto. Qed.

(** The request for all ports frees them; what comes later belongs to connections in progress. *)
Lemma freed_ports (s : system) q r ops1 ops2 s' :
  hub_wf (sys_world s) -> removing (vhci (sys_world s)) = true -> sys_enabled_all s (ops1 ++ ControlOp q r :: ops2) ->
  io_code q = PLUGOUT_HARDWARE -> plugout_input_ok q -> plugout_port q = PORT_ALL ->
  exec_sys_all s (ops1 ++ ControlOp q r :: ops2) = Some s' ->
  forall i, (i < length (devices (vhci (sys_world s))))%nat ->
    devices (vhci (sys_world s')) !! i = Some None \/
    exists d, in_progress s (ops1 ++ ControlOp q r :: ops2) d /\ devices (vhci (sys_world s')) !! i = Some (Some d).
Proof.
  intros Hw Hrm He Hcode Hin Hport Hrun i Hi. rewrite exec_sys_app in Hrun.
  destruct (exec_sys_all_ok s ops1 (ControlOp q r :: ops2) Hw He) as (opsx & s2 & Hx2 & Ha2 & Hend).
  destruct Hend as [[-> [(Hf & Hat & Hnr) He3]]|(op & rest & -> & Hno & _)].
  2:{ rewrite exec_sys_app, Hx2 in Hrun. simpl in Hrun. by rewrite Hno in Hrun. }
  rewrite Hx2 in Hrun. simpl in Hrun. pose proof (as_wf _ _ _ Ha2) as Hw2.
  destruct (device_control_ok (sys_world s2) q r Hw2 Hf Hat Hnr) as (h & w3 & Hx3 & Ha3 & _).
  pose proof (plugout_all_ok _ _ _ _ _ Hw2 Hat Hnr Hcode Hin ltac:(rewrite Hport; done) Hx3) as Hfree.
  assert (exec_sys s2 (ControlOp q r) = Some (set_world s2 w3)) as Hx3' by (simpl; by rewrite Hx3).
  rewrite Hx3 in Hrun. simpl in Hrun. specialize (He3 _ Hx3').
  destruct (exec_sys_all_ok (set_world s2 w3) ops2 [] (ad_wf _ _ Ha3)) as (opsy & s4 & Hx4 & Ha4 & Hend); [by rewrite app_nil_r|].
  destruct Hend as [[-> _]|(op & rest & -> & Hno & _)].
  2:{ rewrite exec_sys_app, Hx4 in Hrun. simpl in Hrun. by rewrite Hno in Hrun. }
  rewrite Hrun in Hx4. injection Hx4 as <-. destruct (as_removing _ _ _ Ha2 Hrm) as (Hr2 & _). destruct (ad_removing _ _ Ha3 Hr2) as (Hr3 & _).
  destruct (as_removing _ _ _ Ha4 Hr3) as (_ & _ & Hs4 & _). simpl in Hs4.
  assert ((i < length (devices (vhci (sys_world s2))))%nat) as Hi2.
  { pose proof (ports_ok_array _ (wf_ports _ (wf_core _ Hw))). pose proof (ports_ok_array _ (wf_ports _ (wf_core _ Hw2))).
    pose proof (as_cnt _ _ _ Ha2) as [Hc2 _]. lia. }
  destruct (Hs4 i) as [->|[?|(d & Hd & ?)]]; [left; by apply Hfree|by left|right; exists d; split; [|done]].
  apply (in_progress_back_all s s2 ops1); try done; [by eapply enabled_app|]. eapply in_progress_back; [done|exact Hx3'|]. by apply Hd.
Qed.

(** ** Theorems *)

(** C6: whatever applications, the framework, the network and the controller's own requests do, in any
    order, the operations run to their end and the controller stays consistent: every device in
    the table is there once, at the port its context names and in the range of its speed, with one
    reference; it is not unplugged; subscriptions and waiting reads agree, and the attach attempts are
    bounded.  There is one exception: a work item that reads the attributes of a device that was deleted because it could
    not be plugged in, for a request that is to be tried again; up to that operation the controller is consistent. *)
Theorem controller_consistent (s : system) ops :
  hub_wf (sys_world s) -> sys_enabled_all s ops ->
  exists s', runs s ops s' /\ hub_wf (sys_world s') /\
    (forall i d, devices (vhci (sys_world s')) !! i = Some (Some d) ->
       exists c, dev_ctx (sys_world s') !! d = Some c /\ port c = Z.of_nat i + 1 /\ unplugged c = false /\
                 in_range (vhci (sys_world s')) (dev_speed c) (Z.of_nat i) /\ default 0 (refs (sys_world s') !! d) = 1) /\
    reattach_req_count (sys_world s') <= 4 * devices_cnt (vhci (sys_world s')) /\
    devices_cnt (vhci (sys_world s')) = devices_cnt (vhci (sys_world s)).
Proof.
  intros Hw He. destruct (exec_sys_all_ok s ops [] Hw) as (ops' & s' & Hx & Ha & Hend); [by rewrite app_nil_r|].
  pose proof (as_wf _ _ _ Ha) as Hw'. pose proof (wf_ports _ (wf_core _ Hw')) as Hp.
  exists s'. split; [destruct Hend as [[-> _]|(op & rest & -> & ? & ? & _)]; by constructor|].
  split; [done|]. split; [|split; [apply (wf_attempts _ (wf_core _ Hw'))|apply Ha]].
  intros i d Hi. destruct (ports_slot _ Hp i d Hi) as (c & Hc & Hport & Hr). exists c. split; [done|]. split; [done|].
  split; [|split; [done|]].
  - destruct (unplugged c) eqn:Eu; [|done]. pose proof (wf_unplugged _ Hw' d c Hc Eu). lia.
  - rewrite (ports_refs _ Hp d c Hc). by destruct (Z.eqb_spec (port c) 0); [lia|].
Qed.

(** C14: removing the controller is final for all that has not begun.  vhci_query_remove stops all attach attempts and cancels all
    waiting reads; from then on, whatever is still running or arrives, no attach request is made, and a device is plugged in only by a
    work item that had read the flag before, whose connection was in progress when the removal began.  Once the PLUGOUT_HARDWARE
    that the removal sent to the default queue has run, every port is free and stays free, but for the devices of those
    work items.  When there are none, all operations run to their end, nothing is plugged in and all ports are free. *)
Theorem removal_is_final (s : system) r q w ops1 r' ops2 :
  let s0 := set_world s w in
  let ops := ops1 ++ ControlOp q r' :: ops2 in
  hub_wf (sys_world s) -> vhci_query_remove (sys_world s) r = Some (Some q, w) -> sys_enabled_all s0 ops ->
  reads (vhci w) = [] /\ reattach_req (vhci w) = [] /\
  exists s', runs s0 ops s' /\ removing (vhci (sys_world s')) = true /\ reattach_req (vhci (sys_world s')) = [] /\
    (exists l, plug_ins (sys_world s') = plug_ins (sys_world s) ++ l /\ Forall (fun x => in_progress s ops (fst (fst x))) l) /\
    (exec_sys_all s0 ops = Some s' -> forall i, (i < length (devices (vhci (sys_world s))))%nat ->
       devices (vhci (sys_world s')) !! i = Some None \/
       exists d, in_progress s ops d /\ devices (vhci (sys_world s')) !! i = Some (Some d)) /\
    ((forall d, ~ in_progress s ops d) -> exec_sys_all s0 ops = Some s').
Proof.
  intros s0 ops Hw Hrem He.
  destruct (vhci_query_remove_ok (sys_world s) r Hw) as (o & w1 & Hx & Hw1 & Hr1 & Hq1 & Hrd & Hd1 & _ & Hp1 & Ho).
  rewrite Hrem in Hx. injection Hx as <- <-. split; [done|]. split; [done|]. destruct (Ho q eq_refl) as (Hcode & Hin & Hport).
  destruct (exec_sys_all_ok s0 ops [] Hw1) as (opsx & s' & Hrun & Ha & Hend); [by rewrite app_nil_r|].
  destruct (as_removing _ _ _ Ha Hr1) as (Hr' & (l & Hpl & Hl) & _ & Hq').
  exists s'. split; [destruct Hend as [[-> _]|(op & rest & -> & ? & ? & _)]; by constructor|]. split; [done|]. split.
  { apply nil_of_subset. etrans; [exact Hq'|]. simpl. by rewrite Hq1. }
  split; [exists l; split; [by rewrite Hpl, <- Hp1|]; apply (list.Forall_impl _ _ _ Hl); intros x Hx; by apply Hx|]. split.
  - intros Hall i Hi. apply (freed_ports s0 q r' ops1 ops2 s'); try done. simpl. by rewrite Hd1.
  - intros Hnone. destruct Hend as [[-> _]|(op & rest & _ & _ & _ & Hd)]; [done|]. destruct (Hd Hr1) as [d Hd']. by destruct (Hnone d).
Qed.

(** C15: PLUGOUT_HARDWARE detaches exactly what its port number says: a positive number the device at that
    port, which loses its socket, its receiving thread and its port while the other devices and ports stay
    as they are; zero and negative numbers all devices.  A port outside of the hub and a free port are errors
    that change nothing, and so is a malformed request; no output is announced. *)
Theorem plugout_releases_ports (w : world W) q reattach r :
  hub_wf w -> attach w !! r = None -> r ∉ reattach_req (vhci w) ->
  exists rp w', plugout_hardware unicode_to_utf8 source_of w q reattach r = Some (rp, w') /\ hub_wf w' /\ rp_info rp = 0 /\
    (plugout_input_ok q ->
       let p := plugout_port q in
       if p <=? 0 then rp_status rp = STATUS_SUCCESS /\
            forall i, (i < length (devices (vhci w)))%nat -> devices (vhci w') !! i = Some None
       else if devices_cnt (vhci w) <? p then rp_status rp = STATUS_INVALID_PARAMETER /\ w' = w
       else match devices (vhci w) !! Z.to_nat (p - 1) with
            | Some (Some d) => rp_status rp = STATUS_SUCCESS /\ gone w' d /\
                (forall e, e <> d -> dev_ctx w' !! e = dev_ctx w !! e) /\
                forall i, devices (vhci w') !! i = if decide (Z.of_nat i + 1 = p) then Some None else devices (vhci w) !! i
            | _ => rp_status rp = STATUS_DEVICE_NOT_CONNECTED /\ w' = w
            end) /\
    (~ plugout_input_ok q -> rp_status rp <> STATUS_SUCCESS /\ w' = w).
Proof.
  intros Hw Hr Hn. destruct (plugout_hardware_ok w q reattach r Hw Hr Hn) as (rp & w' & Hx & Ha & _ & Hi & _ & Hs & He).
  exists rp, w'. split; [done|]. split; [apply Ha|]. auto.
Qed.
End requests.

(** ** Examples: a storage stick is attached and the controller is removed *)
#[local] Existing Instance Events.Demo.framework.
#[local] Existing Instance Events.Demo.framework_laws.
#[local] Existing Instance Attach.Demo.requests.
#[local] Existing Instance Ioctl.Demo.framework.
#[local] Existing Instance Ioctl.Demo.persistent_key.

Module Demo.

#[local] Instance usb_stack : Udecx unit := {
  init_allocate x := (true, x);
  add_descriptor _ _ := STATUS_SUCCESS;
  usb_device_create x := (STATUS_SUCCESS, x);
  spin_lock_create x := (STATUS_SUCCESS, x);
  usb_device_plug_in x := (STATUS_SUCCESS, x);
  usb_device_plug_out_and_delete x := (STATUS_SUCCESS, x);
  create_system_thread x := (STATUS_SUCCESS, x);
  socket_close x := (STATUS_SUCCESS, x) }.

Lemma start_wf : hub_wf Attach.Demo.start.
Proof.
  constructor.
  - constructor; [exact Attach.Demo.start_ports_ok| |exact Attach.Demo.start_attempts_ok].
    constructor; simpl; try done.
    + split; [by apply list.NoDup_nil|]. intros f Hf. by apply elem_of_nil in Hf.
    + intros r Hr. by apply elem_of_nil in Hr.
    + by apply list.NoDup_nil.
  - intros d c Hd. unfold Attach.Demo.start, set_vhci, Vhci.Demo.start in Hd. cbn [dev_ctx] in Hd.
    apply lookup_insert_Some in Hd as [[_ <-]|[_ Hd]]; [done|].
    by apply lookup_singleton_Some in Hd as [_ <-].
Qed.

Definition attributes : device_attributes := attr (Vhci.Demo.stick 0).

Local Abbreviation connect_stick config :=
  (connected ascii_to_utf8 parse_with_find_next (fun _ => 9) storage_registry []
    Attach.Demo.start (stick_server config) attributes 3%positive).

Lemma stick_connected :
  (fun '(st, p, _, _, w) => (st, p, plug_ins w, devices (vhci w))) <$> connect_stick storage_config =
  Some (STATUS_SUCCESS, 1, [(3%positive, true, 1)], [Some 3%positive; None; None]).
Proof. vm_compute. reflexivity. Qed.

Lemma smuggler_rejected :
  (fun '(st, p, _, _, w) => (st, p, plug_ins w, devices (vhci w))) <$> connect_stick smuggling_config =
  Some (USBIP_ERROR_DEVICE_FILTERED, 0, [], [None; None; None]).
Proof. vm_compute. reflexivity. Qed.

Lemma new_device : new_handle Attach.Demo.start 3%positive.
Proof. split; vm_compute; reflexivity. Qed.

(** The controller with the stick attached. *)
Definition attached_world : world unit :=
  match connect_stick storage_config with Some (_, _, _, _, w) => w | None => Attach.Demo.start end.

Lemma attached_wf : hub_wf attached_world.
Proof.
  destruct (connected_ok ascii_to_utf8 parse_with_find_next (fun _ => 9) storage_registry [] Attach.Demo.start
              (stick_server storage_config) attributes 3%positive start_wf new_device) as (st & p & n & own & w' & Hx & Hcn).
  unfold attached_world. rewrite Hx. by destruct Hcn.
Qed.

(** A work item whose connection to the server has been made. *)
Definition item : workitem :=
  {| wi_request := 60%positive; wi_ext := Some attributes; wi_sock := true; wi_addrs := Some [1]; one_attempt := true; wi_port := 0 |}.

Local Abbreviation finish_item n :=
  (complete ascii_to_utf8 parse_with_find_next (fun _ => 9) storage_registry [] Attach.Demo.start false n item [] 3%positive 70%positive
    STATUS_SUCCESS (STATUS_SUCCESS, STATUS_SUCCESS, STATUS_SUCCESS)).

Lemma item_finished :
  (fun '(o, _, w) => (o, devices (vhci w))) <$> finish_item (stick_server storage_config) =
  Some (Finished STATUS_SUCCESS 1, [Some 3%positive; None; None]).
Proof. vm_compute. reflexivity. Qed.

Definition plugout_request (p : Z) : ioctl :=
  {| io_request := 61%positive; io_code := PLUGOUT_HARDWARE; io_buf := create_detach_request_inbuf p; io_in := 8; io_out := 0 |}.

Lemma plugout_request_ok : plugout_input_ok (plugout_request 1) /\ plugout_port (plugout_request 1) = 1.
Proof. split; [split|]; vm_compute; reflexivity. Qed.

Definition start_system (w : world unit) : system (W := unit) (N := peer) (R := one_value_registry) (K := list byte) :=
  {| sys_world := w; sys_reg := storage_registry; sys_key := []; sys_net := stick_server storage_config; sys_running := ∅ |}.

Definition to_unicode (s : list byte) : ntstatus * list Z := (STATUS_SUCCESS, map b2z s).

(** An application listens; the connection is completed; the device is plugged out. *)
Definition script : list sys_op :=
  [FileOp (FileCreate 1%positive 1%positive); FileOp (Read 2%positive sizeof_device_state);
   ItemBegin item; ItemEnd item [] 3%positive 70%positive STATUS_SUCCESS (STATUS_SUCCESS, STATUS_SUCCESS, STATUS_SUCCESS) [];
   ControlOp (plugout_request 1) 71%positive].

Local Abbreviation run s ops :=
  (exec_sys_all Events.Demo.utf8 to_unicode Attach.Demo.hash_string (fun _ => true) parse_with_find_next (fun _ => 9) (fun _ => 8) s ops).

Local Abbreviation script_enabled :=
  (sys_enabled_all Events.Demo.utf8 to_unicode Attach.Demo.hash_string (fun _ => true) parse_with_find_next (fun _ => 9) (fun _ => 8)
    (start_system Attach.Demo.start) script).

Lemma script_runs : (fun s => (devices (vhci (sys_world s)), map (fun x => (fst (fst (fst x)), snd (fst (fst x)))) (completed (sys_world s))))
    <$> run (start_system Attach.Demo.start) script =
  Some ([None; None; None], [(1%positive, STATUS_SUCCESS); (2%positive, STATUS_SUCCESS); (60%positive, STATUS_SUCCESS); (61%positive, STATUS_SUCCESS)]).
Proof. vm_compute. reflexivity. Qed.

Lemma script_enabled_ok : script_enabled.
Proof.
  unfold script.
  split; [split; [reflexivity|apply (bool_decide_unpack _); vm_compute; exact I]|].
  intros s Hs. vm_compute in Hs. injection Hs as <-.
  split; [split; apply (bool_decide_unpack _); vm_compute; exact I|].
  intros s Hs. vm_compute in Hs. injection Hs as <-.
  split; [vm_compute; reflexivity|].
  intros s Hs. vm_compute in Hs. injection Hs as <-.
  split.
  { split; [eexists; vm_compute; reflexivity|]. split; [split; vm_compute; reflexivity|]. split; [by eexists|]. split; [discriminate|].
    split; [apply (bool_decide_unpack _); vm_compute; exact I|]. split; [vm_compute; reflexivity|].
    apply (bool_decide_unpack _); vm_compute; exact I. }
  intros s Hs. vm_compute in Hs. injection Hs as <-.
  split; [|intros; exact I]. split; [apply (bool_decide_unpack _); vm_compute; exact I|].
  split; [vm_compute; reflexivity|]. apply (bool_decide_unpack _); vm_compute; exact I.
Qed.

(** The controller with the stick is removed. *)
Local Abbreviation removing_system := (vhci_query_remove attached_world 72%positive).

Definition removal_request : ioctl :=
  {| io_request := 72%positive; io_code := PLUGOUT_HARDWARE; io_buf := create_detach_request_inbuf PORT_ALL; io_in := 8; io_out := 0 |}.

Definition removed_world : world unit := match removing_system with Some (_, w) => w | None => attached_world end.

Lemma removal_started : removing_system = Some (Some removal_request, removed_world).
Proof. vm_compute. reflexivity. Qed.

Definition removal_script : list sys_op := [ControlOp removal_request 73%positive].

Lemma removal_enabled :
  sys_enabled_all Events.Demo.utf8 to_unicode Attach.Demo.hash_string (fun _ => true) parse_with_find_next (fun _ => 9) (fun _ => 8)
    (set_world (start_system attached_world) removed_world) removal_script.
Proof.
  split; [|done]. split; [apply (bool_decide_unpack _); vm_compute; exact I|].
  split; [vm_compute; reflexivity|]. apply (bool_decide_unpack _); vm_compute; exact I.
Qed.

Lemma attached_devices : devices (vhci attached_world) = [Some 3%positive; None; None] /\ plug_ins attached_world = [(3%positive, true, 1)].
Proof. split; vm_compute; reflexivity. Qed.
(** UdeCx refuses to plug the device in: it is deleted, and a request that may be tried again
    reads its attributes nevertheless. *)
Definition refusing_stack : Udecx unit := {|
  init_allocate x := (true, x); add_descriptor _ _ := STATUS_SUCCESS; usb_device_create x := (STATUS_SUCCESS, x);
  spin_lock_create x := (STATUS_SUCCESS, x); usb_device_plug_in x := (STATUS_UNSUCCESSFUL, x);
  usb_device_plug_out_and_delete x := (STATUS_SUCCESS, x); create_system_thread x := (STATUS_SUCCESS, x);
  socket_close x := (STATUS_SUCCESS, x) |}.

Definition retried_item : workitem :=
  {| wi_request := 60%positive; wi_ext := Some attributes; wi_sock := true; wi_addrs := Some [1]; one_attempt := false; wi_port := 0 |}.

Lemma deleted_attributes_read :
  complete (H1 := refusing_stack) ascii_to_utf8 parse_with_find_next (fun _ => 9) storage_registry [] Attach.Demo.start false
    (stick_server storage_config) retried_item [] 3%positive 70%positive
    STATUS_SUCCESS (STATUS_SUCCESS, STATUS_SUCCESS, STATUS_SUCCESS) = None.
Proof. vm_compute. reflexivity. Qed.

(** The spin locks cannot be created: the device stays, and both it and the work item own the attributes. *)
Definition lockless_stack : Udecx unit := {|
  init_allocate x := (true, x); add_descriptor _ _ := STATUS_SUCCESS; usb_device_create x := (STATUS_SUCCESS, x);
  spin_lock_create x := (STATUS_INSUFFICIENT_RESOURCES, x); usb_device_plug_in x := (STATUS_SUCCESS, x);
  usb_device_plug_out_and_delete x := (STATUS_SUCCESS, x); create_system_thread x := (STATUS_SUCCESS, x);
  socket_close x := (STATUS_SUCCESS, x) |}.

Lemma attributes_owned_twice :
  (fun '(st, _, _, own, w) => (st, bool_decide (is_Some own), bool_decide (is_Some (dev_ctx w !! 3%positive)))) <$>
    connected (H1 := lockless_stack) ascii_to_utf8 parse_with_find_next (fun _ => 9) storage_registry []
      Attach.Demo.start (stick_server storage_config) attributes 3%positive =
  Some (STATUS_INSUFFICIENT_RESOURCES, true, true).
Proof. vm_compute. reflexivity. Qed.

Lemma blocked_device_never_plugged_in_witness :
  exists n w', connect_stick storage_config = Some (STATUS_SUCCESS, 1, n, None, w') /\
    presented ascii_to_utf8 parse_with_find_next storage_registry [] Attach.Demo.start w'
      (stick_server storage_config) attributes 3%positive STATUS_SUCCESS 1.
Proof.
  destruct (blocked_device_never_plugged_in ascii_to_utf8 parse_with_find_next (fun _ => 9) storage_registry [] Attach.Demo.start
              (stick_server storage_config) attributes 3%positive start_wf new_device)
    as (st & p & n & own & w' & Hx & _ & Hpl & Hs & _).
  pose proof stick_connected as Hd. rewrite Hx in Hd |- *. simpl in Hd. injection Hd as -> -> _ _.
  destruct (Hs eq_refl) as (Hne & -> & _). exists n, w'. split; [reflexivity|]. destruct Hpl as [?|?]; [contradiction|assumption].
Defined.

Lemma request_outcome_witness :
  exists n w', finish_item (stick_server storage_config) = Some (Finished STATUS_SUCCESS 1, n, w') /\ hub_wf w' /\
    ~ fresh w' 60%positive /\ devices (vhci w') = [Some 3%positive; None; None].
Proof.
  pose proof (request_outcome ascii_to_utf8 parse_with_find_next (fun _ => 9) storage_registry [] Attach.Demo.start false
                (stick_server storage_config) item attributes [] 3%positive 70%positive STATUS_SUCCESS
                (STATUS_SUCCESS, STATUS_SUCCESS, STATUS_SUCCESS) start_wf new_device eq_refl ltac:(discriminate)
                ltac:(apply (bool_decide_unpack _); vm_compute; exact I) eq_refl
                ltac:(apply (bool_decide_unpack _); vm_compute; exact I)) as Hc.
  pose proof item_finished as Hd.
  destruct (complete _ _ _ _ _ _ _ _ _ _ _ _ _ _) as [[[o n] w']|]; [|discriminate]. simpl in Hd. injection Hd as -> Hd.
  destruct Hc as (Hwf & Hf & _). exists n, w'. auto.
Defined.

(** The script ends; only a device that could not be plugged in would stop it. *)
Lemma controller_consistent_witness :
  exists s', runs Events.Demo.utf8 to_unicode Attach.Demo.hash_string (fun _ => true) parse_with_find_next (fun _ => 9) (fun _ => 8)
      (start_system Attach.Demo.start) script s' /\ hub_wf (sys_world s') /\
    (exists s'', run (start_system Attach.Demo.start) script = Some s'' /\ devices (vhci (sys_world s'')) = [None; None; None]).
Proof.
  destruct (controller_consistent Events.Demo.utf8 to_unicode Attach.Demo.hash_string (fun _ => true) parse_with_find_next
              (fun _ => 9) (fun _ => 8) (start_system Attach.Demo.start) script start_wf script_enabled_ok)
    as (s' & Hx & Hwf & _).
  exists s'. split; [exact Hx|]. split; [exact Hwf|]. pose proof script_runs as Hd.
  destruct (run (start_system Attach.Demo.start) script) as [s''|]; [|discriminate]. simpl in Hd. injection Hd as Hd _. by exists s''.
Defined.

(** Nothing was in progress, so all operations run to their end. *)
Lemma removal_is_final_witness :
  exists s', run (set_world (start_system attached_world) removed_world) removal_script = Some s' /\
    removing (vhci (sys_world s')) = true /\ devices (vhci (sys_world s')) !! 0%nat = Some None.
Proof.
  destruct (removal_is_final Events.Demo.utf8 to_unicode Attach.Demo.hash_string (fun _ => true) parse_with_find_next
              (fun _ => 9) (fun _ => 8) (start_system attached_world) 72%positive removal_request removed_world
              [] 73%positive [] attached_wf removal_started removal_enabled) as (_ & _ & s' & _ & Hr & _ & _ & Hfree & Hall).
  assert (forall d, ~ in_progress (start_system attached_world) removal_script d) as Hnone.
  { intros d (wi & addrs & r & st & sock & stack & Hin & _). by apply list_elem_of_singleton in Hin. }
  specialize (Hall Hnone). exists s'. split; [exact Hall|]. split; [exact Hr|]. destruct attached_devices as [Hd _].
  destruct (Hfree Hall 0%nat) as [?|(d & Hd' & _)]; [|done|by destruct (Hnone d)]. simpl sys_world. rewrite Hd. simpl. lia.
Defined.

(** A connection that is in progress when the removal begins: its device is plugged in after all devices were detached, and stays. *)
Definition late_script : list sys_op :=
  [ItemBegin item; RemoveOp 72%positive; ControlOp removal_request 73%positive;
   ItemEnd item [] 3%positive 70%positive STATUS_SUCCESS (STATUS_SUCCESS, STATUS_SUCCESS, STATUS_SUCCESS) []].

Lemma plugged_in_after_removal :
  (fun s => (removing (vhci (sys_world s)), devices (vhci (sys_world s)), plug_ins (sys_world s))) <$>
    run (start_system Attach.Demo.start) late_script = Some (true, [Some 3%positive; None; None], [(3%positive, true, 1)]).
Proof. vm_compute. reflexivity. Qed.

Lemma attached_quiet : devices_cnt (vhci attached_world) = 3 /\ attach attached_world !! 71%positive = None /\
  71%positive ∉ reattach_req (vhci attached_world).
Proof. split_and!; [vm_compute; reflexivity..|]. apply (bool_decide_unpack _). vm_compute. exact I. Qed.

Lemma plugout_runs :
  (fun '(rp, w) => (rp_status rp, devices (vhci w))) <$>
    plugout_hardware Events.Demo.utf8 (fun _ => 9) attached_world (plugout_request 1) false 71%positive =
  Some (STATUS_SUCCESS, [None; None; None]).
Proof. vm_compute. reflexivity. Qed.

Lemma plugout_releases_ports_witness :
  exists rp w', plugout_hardware Events.Demo.utf8 (fun _ => 9) attached_world (plugout_request 1) false 71%positive = Some (rp, w') /\
    rp_status rp = STATUS_SUCCESS /\ rp_info rp = 0 /\ hub_wf w' /\ devices (vhci w') = [None; None; None].
Proof.
  destruct attached_quiet as (_ & Ha & Hn).
  destruct (plugout_releases_ports Events.Demo.utf8 (fun _ => 9) attached_world (plugout_request 1) false 71%positive
              attached_wf Ha Hn) as (rp & w' & Hx & Hwf & Hi & _).
  pose proof plugout_runs as Hr. rewrite Hx in Hr. simpl in Hr. injection Hr as Hst Hd. exists rp, w'. auto.
Defined.
End Demo.
