(* ===== verification/UsbIds.v ===== *)
(** * Names of vendors, products and classes

    userspace/libusbip/src/usb_ids.cpp: the text of usb.ids, which the programs carry as a resource,
    becomes maps from identifiers to names, and the lookups in them.  A std::string_view is an
    offset and a length in the text; [None] is a read outside of the text or a
    prefix removed from a shorter view. *)

From Stdlib Require Import(notations) Strings.String.
From S2P Require Import Prelude.

(** ** Text *)

Record view : Type := { off : nat; len : nat }.

Definition str (s : String.string) : list byte := map (fun a => z2b (Z.of_N (Ascii.N_of_ascii a))) (String.list_ascii_of_string s).

Section text.
Context (mem : list byte).

Definition contents (v : view) : list byte := take (len v) (drop (off v) mem).

Definition remove_prefix (v : view) (n : nat) : option view :=
  if (n <=? len v)%nat then Some {| off := off v + n; len := len v - n |} else None.

Definition starts_with (v : view) (s : list byte) : bool := bool_decide (take (length s) (contents v) = s).

(** The value of a hexadecimal digit. *)
Definition hex_value (c : byte) : option Z :=
  let c := b2z c in
  if (48 <=? c) && (c <=? 57) then Some (c - 48)
  else if (97 <=? c) && (c <=? 102) then Some (c - 87)
  else if (65 <=? c) && (c <=? 70) then Some (c - 55)
  else None.

(** std::from_chars of an int in base 16: the digits among the next [cnt] bytes of memory, how
    many there are and their value. *)
Fixpoint hex_digits (cnt : nat) (p : nat) (n : nat) (val : Z) : option (nat * Z) :=
  match cnt with
  | O => Some (n, val)
  | S cnt =>
      c ← mem !! p;
      match hex_value c with
      | Some d => hex_digits cnt (S p) (S n) (16 * val + d)
      | None => Some (n, val)
      end
  end.

Definition from_chars (p : nat) (cnt : nat) : option (option Z) :=
  match cnt with
  | O => Some None
  | S cnt' =>
      c ← mem !! p;
      let minus := bool_decide (c = x2d) in
      '(n, val) ← if minus then hex_digits cnt' (S p) 0 0 else hex_digits cnt p 0 0;
      Some (if (n =? 0)%nat then None else Some (if minus then - val else val))
  end.

(** remove_prefix_hex: the value, zero when there is none. *)
Definition remove_prefix_hex (s : view) (cnt : nat) : option (Z * view) :=
  val ← from_chars (off s) cnt;
  match val with
  | None => Some (0, s)
  | Some val => s ← remove_prefix s cnt; Some (u16 val, s)
  end.

(** The position of the first newline in a list. *)
Fixpoint find_newline (l : list byte) : option nat :=
  match l with [] => None | c :: l => if bool_decide (c = x0a) then Some 0%nat else S <$> find_newline l end.

(** for_each_line: [f] gets a line and the rest of the text, and says whether to stop. *)
Fixpoint for_each_line {S : Type} (fuel : nat) (text : view) (f : view -> view -> S -> option (bool * S)) (s : S) : option S :=
  match fuel with
  | O => None
  | S fuel =>
      if (len text =? 0)%nat then Some s
      else
        match find_newline (contents text) with
        | None => '(_, s) ← f text {| off := off text + len text; len := 0 |} s; Some s
        | Some pos =>
            let line := {| off := off text; len := pos |} in
            text ← remove_prefix text (pos + 1);
            if (len line =? 0)%nat then for_each_line fuel text f s
            else '(stop, s) ← f line text s; if stop : bool then Some s else for_each_line fuel text f s
        end
  end.

(** ** UsbIds::Impl *)

Record ids : Type := {
  m_vendor : gmap Z (list byte * gmap Z (list byte));
  m_class : gmap Z (list byte * gmap Z (list byte * gmap Z (list byte))) }.

(** emplace: an element that is there stays. *)
Definition emplace {A} (m : gmap Z A) (k : Z) (a : A) : gmap Z A := match m !! k with Some _ => m | None => <[k := a]> m end.

(** operator[] of a map to pairs. *)
Definition at_pair {A B} (m : gmap Z (list A * gmap Z B)) (k : Z) : list A * gmap Z B := default ([], ∅) (m !! k).

Definition add_product (m : ids) (vid pid : Z) (name : list byte) : ids :=
  let '(n, prod) := at_pair (m_vendor m) vid in
  {| m_vendor := <[vid := (n, emplace prod pid name)]> (m_vendor m); m_class := m_class m |}.

Definition add_vendor (m : ids) (vid : Z) (name : list byte) : ids :=
  {| m_vendor := emplace (m_vendor m) vid (name, ∅); m_class := m_class m |}.

Definition add_class (m : ids) (cls : Z) (name : list byte) : ids :=
  {| m_vendor := m_vendor m; m_class := emplace (m_class m) cls (name, ∅) |}.

Definition add_subclass (m : ids) (cls subcls : Z) (name : list byte) : ids :=
  let '(n, sub) := at_pair (m_class m) cls in
  {| m_vendor := m_vendor m; m_class := <[cls := (n, emplace sub subcls (name, ∅))]> (m_class m) |}.

Definition add_protocol (m : ids) (cls subcls prot : Z) (name : list byte) : ids :=
  let '(n, sub) := at_pair (m_class m) cls in
  let '(sn, proto) := at_pair sub subcls in
  {| m_vendor := m_vendor m; m_class := <[cls := (n, <[subcls := (sn, emplace proto prot name)]> sub)]> (m_class m) |}.

(** What the parser of a part keeps from line to line: the identifiers above and the maps. *)
Record parser : Type := { upper : Z; lower : Z; maps : ids }.

Definition terminal_types : list byte := str "# List of Audio Class Terminal Types"%string.
Definition known_classes : list byte := str "# List of known device classes, subclasses and protocols"%string.

(** parse_class_sub_proto; [upper], [lower] are [cls], [subcls]. *)
Definition parse_class_sub_proto (line tail : view) (p : parser) : option (bool * parser) :=
  if starts_with line terminal_types then Some (true, p)
  else if starts_with line [x23] then Some (false, p)
  else if starts_with line [x09; x09] then
    line ← remove_prefix line 2;
    '(prot, line) ← remove_prefix_hex line 2;
    let prot := u8 prot in
    if prot =? 0 then Some (false, p)
    else
      line ← remove_prefix line 2;
      Some (false, {| upper := upper p; lower := lower p; maps := add_protocol (maps p) (upper p) (lower p) prot (contents line) |})
  else if starts_with line [x09] then
    line ← remove_prefix line 1;
    '(subcls, line) ← remove_prefix_hex line 2;
    let subcls := u8 subcls in
    if subcls =? 0 then Some (false, {| upper := upper p; lower := 0; maps := maps p |})
    else
      line ← remove_prefix line 2;
      Some (false, {| upper := upper p; lower := subcls; maps := add_subclass (maps p) (upper p) subcls (contents line) |})
  else if starts_with line (str "C "%string) then
    line ← remove_prefix line 2;
    '(cls, line) ← remove_prefix_hex line 2;
    let cls := u8 cls in
    line ← remove_prefix line 2;
    Some (false, {| upper := cls; lower := lower p; maps := add_class (maps p) cls (contents line) |})
  else Some (false, p).

(** parse_vid_pid; [upper], [lower] are [vid], [pid]. *)
Definition parse_vid_pid (line tail : view) (p : parser) : option (bool * parser) :=
  if starts_with line known_classes then
    q ← for_each_line (S (len tail)) tail parse_class_sub_proto {| upper := 0; lower := 0; maps := maps p |};
    Some (true, {| upper := upper p; lower := lower p; maps := maps q |})
  else if starts_with line [x23] then Some (false, p)
  else if starts_with line [x09; x09] then Some (false, p)
  else if starts_with line [x09] then
    line ← remove_prefix line 1;
    '(pid, line) ← remove_prefix_hex line 4;
    if pid =? 0 then Some (false, {| upper := upper p; lower := 0; maps := maps p |})
    else
      line ← remove_prefix line 2;
      Some (false, {| upper := upper p; lower := pid; maps := add_product (maps p) (upper p) pid (contents line) |})
  else
    '(vid, line) ← remove_prefix_hex line 4;
    if vid =? 0 then Some (false, {| upper := 0; lower := lower p; maps := maps p |})
    else
      line ← remove_prefix line 2;
      Some (false, {| upper := vid; lower := lower p; maps := add_vendor (maps p) vid (contents line) |}).

Definition load : option ids :=
  p ← for_each_line (S (length mem)) {| off := 0; len := length mem |} parse_vid_pid
        {| upper := 0; lower := 0; maps := {| m_vendor := ∅; m_class := ∅ |} |};
  Some (maps p).
End text.

(** find_product *)
Definition find_product (m : ids) (vid pid : Z) : list byte * list byte :=
  match m_vendor m !! vid with
  | None => ([], [])
  | Some (name, prod) => (name, default [] (prod !! pid))
  end.

(** find_class_subclass_proto *)
Definition find_class_subclass_proto (m : ids) (class_id subclass_id prot_id : Z) : list byte * list byte * list byte :=
  match m_class m !! class_id with
  | None => ([], [], [])
  | Some (c, subcls) =>
      match subcls !! subclass_id with
      | None => (c, [], [])
      | Some (s, prot) => (c, s, default [] (prot !! prot_id))
      end
  end.

(** ** The format *)

Record vendor : Type := { v_id : Z; v_name : list byte; v_products : list (Z * list byte) }.
Record subclass : Type := { s_id : Z; s_name : list byte; s_protocols : list (Z * list byte) }.
Record usb_class : Type := { c_id : Z; c_name : list byte; c_subclasses : list subclass }.

Definition hex_char (d : Z) : byte := z2b (if d <? 10 then 48 + d else 87 + d).
Definition hex2 (v : Z) : list byte := [hex_char (v / 16); hex_char (v mod 16)].
Definition hex4 (v : Z) : list byte := hex2 (v / 256) ++ hex2 (v mod 256).
Definition named (id name : list byte) : list byte := id ++ [x20; x20] ++ name.

Definition vendor_line (v : vendor) : list byte := named (hex4 (v_id v)) (v_name v).
Definition product_line (p : Z * list byte) : list byte := x09 :: named (hex4 p.1) p.2.
Definition vendor_lines (v : vendor) : list (list byte) := vendor_line v :: map product_line (v_products v).

Definition class_line (c : usb_class) : list byte := x43 :: x20 :: named (hex2 (c_id c)) (c_name c).
Definition subclass_line (s : subclass) : list byte := x09 :: named (hex2 (s_id s)) (s_name s).
Definition protocol_line (p : Z * list byte) : list byte := x09 :: x09 :: named (hex2 p.1) p.2.
Definition subclass_lines (s : subclass) : list (list byte) := subclass_line s :: map protocol_line (s_protocols s).
Definition class_lines (c : usb_class) : list (list byte) := class_line c :: (c_subclasses c ≫= subclass_lines).

Definition text_of (lines : list (list byte)) : list byte := lines ≫= (fun l => l ++ [x0a]).

Definition line_ok (l : list byte) : Prop := x0a ∉ l.

Definition comment_ok (l : list byte) : Prop :=
  l = [] \/ exists r, l = x23 :: r /\ line_ok r /\ take (length known_classes) l <> known_classes /\ take (length terminal_types) l <> terminal_types.

(** The lines [es] with comments and empty lines anywhere between them. *)
Inductive commented : list (list byte) -> list (list byte) -> Prop :=
| no_lines : commented [] []
| comment_line c ls es : comment_ok c -> commented ls es -> commented (c :: ls) es
| entry_line e ls es : commented ls es -> commented (e :: ls) (e :: es).

Lemma commented_refl ls : commented ls ls.
Proof. induction ls; by constructor. Qed.

Lemma commented_app l ls es : commented ls es -> commented (l ++ ls) (l ++ es).
Proof. induction l; intros H; [done|]. apply entry_line. auto. Qed.

(** The file: vendors, classes, and parts that are not read. *)
Definition db_text (lines1 lines2 : list (list byte)) (rest : list byte) : list byte :=
  text_of (lines1 ++ [known_classes] ++ lines2 ++ [terminal_types]) ++ rest.

(** An identifier, which may be zero, and a name. *)
Definition entry_ok (bound : Z) (p : Z * list byte) : Prop := 0 <= p.1 < bound /\ line_ok p.2.

Record vendor_ok (v : vendor) : Prop := {
  v_id_ok : entry_ok 65536 (v_id v, v_name v);
  v_id_nonzero : v_id v <> 0;
  v_products_ok : Forall (entry_ok 65536) (v_products v);
  v_products_once : NoDup (v_products v).*1 }.

Record subclass_ok (s : subclass) : Prop := {
  s_id_ok : entry_ok 256 (s_id s, s_name s);
  s_protocols_ok : Forall (entry_ok 256) (s_protocols s);
  s_protocols_once : NoDup (s_protocols s).*1 }.

Record class_ok (c : usb_class) : Prop := {
  c_id_ok : 0 <= c_id c < 256;
  c_name_ok : line_ok (c_name c);
  c_subclasses_ok : Forall subclass_ok (c_subclasses c);
  c_subclasses_once : NoDup (map s_id (c_subclasses c)) }.

(** ** Lemmas: views *)

Section lemmas.
Context (mem : list byte).

Definition view_ok (v : view) : Prop := (off v + len v <= length mem)%nat.

(** The view of [l]. *)
Definition shows (v : view) (l : list byte) : Prop := view_ok v /\ contents mem v = l.

Lemma shows_length v l : shows v l -> len v = length l.
Proof. intros [Hv <-]. unfold contents, view_ok in *. rewrite length_take, length_drop. lia. Qed.

Lemma shows_lookup v l i c : shows v l -> l !! i = Some c -> mem !! (off v + i)%nat = Some c.
Proof.
  intros [Hv <-]. unfold contents. rewrite lookup_take_Some, lookup_drop. by intros [? _].
Qed.

Lemma shows_take v l1 l2 : shows v (l1 ++ l2) -> shows {| off := off v; len := length l1 |} l1.
Proof.
  intros Hs. pose proof (shows_length _ _ Hs) as Hl. rewrite length_app in Hl. destruct Hs as [Hv Hc]. unfold view_ok, contents in *. cbn in *.
  split; [unfold view_ok; cbn; lia|]. unfold contents. cbn. apply (f_equal (take (length l1))) in Hc. rewrite take_take, take_app_length in Hc.
  rewrite <- Hc at 2. f_equal. lia.
Qed.

Lemma shows_remove v l1 l2 : shows v (l1 ++ l2) -> exists v', remove_prefix v (length l1) = Some v' /\ shows v' l2.
Proof.
  intros Hs. pose proof (shows_length _ _ Hs) as Hl. rewrite length_app in Hl. destruct Hs as [Hv Hc]. unfold remove_prefix.
  rewrite (proj2 (Nat.leb_le _ _)) by lia. eexists. split; [done|]. unfold view_ok, contents in *. cbn in *.
  split; [unfold view_ok; cbn; lia|]. unfold contents. cbn. apply (f_equal (drop (length l1))) in Hc. rewrite drop_app_length in Hc.
  by rewrite <- Hc, <- drop_drop, take_drop_commute, Nat.add_comm, (Nat.sub_add (length l1)) by lia.
Qed.

Lemma starts_with_spec v l s : shows v l -> starts_with mem v s = bool_decide (take (length s) l = s).
Proof. intros [_ <-]. done. Qed.

(** *** Identifiers *)

Lemma hex_char_spec d : 0 <= d < 16 -> hex_value (hex_char d) = Some d /\ hex_char d <> x2d /\ hex_char d <> x0a /\ hex_char d <> x23 /\ hex_char d <> x09.
Proof.
  intros Hd. assert (d = 0 \/ d = 1 \/ d = 2 \/ d = 3 \/ d = 4 \/ d = 5 \/ d = 6 \/ d = 7 \/ d = 8 \/ d = 9 \/ d = 10 \/ d = 11 \/ d = 12 \/ d = 13 \/ d = 14 \/ d = 15) as Hc by lia.
  repeat destruct Hc as [->|Hc]; subst; vm_compute; repeat split; discriminate.
Qed.

(** [l] is the image of the digits [ds]. *)
Fixpoint hex_number (ds : list Z) (val : Z) : Z := match ds with [] => val | d :: ds => hex_number ds (16 * val + d) end.

Lemma hex_digits_spec ds : forall p n val, Forall (fun d => 0 <= d < 16) ds ->
  (forall i d, ds !! i = Some d -> mem !! (p + i)%nat = Some (hex_char d)) ->
  hex_digits mem (length ds) p n val = Some ((n + length ds)%nat, hex_number ds val).
Proof.
  induction ds as [|d ds IH]; intros p n val Hd Hm; cbn [length hex_digits hex_number]; [by rewrite Nat.add_0_r|].
  apply Forall_cons_1 in Hd as [Hd Hds]. pose proof (Hm 0%nat d eq_refl) as H0. rewrite Nat.add_0_r in H0. rewrite H0. cbn [mbind option_bind].
  rewrite (proj1 (hex_char_spec d Hd)), IH; [|done|].
  - by rewrite Nat.add_succ_r.
  - intros i d' Hi. rewrite <- (Hm (S i) d' Hi). f_equal. lia.
Qed.

Lemma remove_prefix_hex_spec v ds l : shows v (map hex_char ds ++ l) -> (0 < length ds)%nat -> Forall (fun d => 0 <= d < 16) ds ->
  exists v', remove_prefix_hex mem v (length ds) = Some (u16 (hex_number ds 0), v') /\ shows v' l.
Proof.
  intros Hs Hn Hd. unfold remove_prefix_hex, from_chars.
  assert (forall i d, ds !! i = Some d -> mem !! (off v + i)%nat = Some (hex_char d)) as Hm.
  { intros i d Hi. apply (shows_lookup v _ _ _ Hs). rewrite lookup_app_l by (rewrite length_map; by apply lookup_lt_Some in Hi).
    by rewrite list_lookup_fmap, Hi. }
  pose proof (hex_digits_spec ds (off v) 0 0 Hd Hm) as Hx. destruct ds as [|d ds]; [cbn in Hn; lia|].
  destruct (length (d :: ds)) as [|cnt'] eqn:Hl; [done|]. pose proof (Hm 0%nat d eq_refl) as H0. rewrite Nat.add_0_r in H0. rewrite H0. cbn [mbind option_bind].
  apply Forall_cons_1 in Hd as [Hd0 _]. rewrite bool_decide_eq_false_2 by apply (hex_char_spec d Hd0). rewrite Hx. cbn [mbind option_bind].
  rewrite (proj2 (Nat.eqb_neq _ _)) by lia. cbn [mbind option_bind].
  destruct (shows_remove v (map hex_char (d :: ds)) l Hs) as (v' & Hr & Hv'). rewrite length_map, Hl in Hr. rewrite Hr. cbn. by exists v'.
Qed.

Definition digits2 (v : Z) : list Z := [v / 16; v mod 16].
Definition digits4 (v : Z) : list Z := digits2 (v / 256) ++ digits2 (v mod 256).

Lemma digits2_spec v : 0 <= v < 256 -> Forall (fun d => 0 <= d < 16) (digits2 v) /\ hex_number (digits2 v) 0 = v.
Proof. intros Hv. split; [repeat constructor; zdm|cbn; zdm]. Qed.

Lemma digits4_spec v : 0 <= v < 65536 -> Forall (fun d => 0 <= d < 16) (digits4 v) /\ hex_number (digits4 v) 0 = v.
Proof. intros Hv. split; [repeat constructor; zdm|cbn; zdm]. Qed.

(** An identifier and a name. *)
Lemma read_id4 v id name : shows v (named (hex4 id) name) -> 0 <= id < 65536 ->
  exists v' v'', remove_prefix_hex mem v 4 = Some (id, v') /\ remove_prefix v' 2 = Some v'' /\ contents mem v'' = name.
Proof.
  intros Hs Hid. destruct (digits4_spec id Hid) as [Hd Hn]. destruct (remove_prefix_hex_spec v (digits4 id) ([x20; x20] ++ name) Hs) as (v' & Hr & Hv'); [cbn; lia|done|].
  destruct (shows_remove v' [x20; x20] name Hv') as (v'' & Hr' & _ & Hc). exists v', v''. rewrite Hn, u16_id in Hr by (unfold is_u16; lia). done.
Qed.

Lemma read_id2 v id name : shows v (named (hex2 id) name) -> 0 <= id < 256 ->
  exists v' v'', remove_prefix_hex mem v 2 = Some (id, v') /\ remove_prefix v' 2 = Some v'' /\ contents mem v'' = name.
Proof.
  intros Hs Hid. destruct (digits2_spec id Hid) as [Hd Hn]. destruct (remove_prefix_hex_spec v (digits2 id) ([x20; x20] ++ name) Hs) as (v' & Hr & Hv'); [cbn; lia|done|].
  destruct (shows_remove v' [x20; x20] name Hv') as (v'' & Hr' & _ & Hc). exists v', v''. rewrite Hn, u16_id in Hr by (unfold is_u16; lia). done.
Qed.

(** The first character of a line that begins with an identifier. *)
Lemma named_head id name k : 0 <= id < 65536 -> (k = hex4 id \/ k = hex2 id /\ id < 256) ->
  exists c r, named k name = c :: r /\ c <> x23 /\ c <> x09 /\ c <> x0a.
Proof.
  intros Hid Hk. destruct Hk as [->|[-> Hlt]]; unfold named, hex4, hex2; cbn [app]; do 2 eexists; (split; [done|]).
  - destruct (hex_char_spec (id / 256 / 16)) as (_ & _ & ? & ? & ?); [zdm|]. done.
  - destruct (hex_char_spec (id / 16)) as (_ & _ & ? & ? & ?); [zdm|]. done.
Qed.

(** *** Lines *)

Lemma find_newline_spec l r : line_ok l -> find_newline (l ++ x0a :: r) = Some (length l).
Proof.
  unfold line_ok. induction l as [|c l IH]; intros Hl; cbn [app find_newline length]; [done|].
  rewrite bool_decide_eq_false_2 by set_solver. rewrite IH by set_solver. done.
Qed.

Context {S : Type} (f : view -> view -> S -> option (bool * S)).

(** The next line is given to [f], unless it is empty. *)
Lemma for_each_line_step fuel v l r s : line_ok l -> shows v (l ++ x0a :: r) -> exists v1 v2, shows v1 l /\ shows v2 r /\
  for_each_line mem (Datatypes.S fuel) v f s =
    if bool_decide (l = []) then for_each_line mem fuel v2 f s
    else '(stop, s) ← f v1 v2 s; if stop : bool then Some s else for_each_line mem fuel v2 f s.
Proof.
  intros Hl Hs. pose proof (shows_length _ _ Hs) as Hlen. rewrite length_app in Hlen. cbn [length] in Hlen.
  destruct (shows_remove v (l ++ [x0a]) r) as (v2 & Hr & Hv2); [by rewrite <- app_assoc|].
  exists {| off := off v; len := length l |}, v2. split; [by apply (shows_take v l (x0a :: r))|]. split; [done|].
  cbn [for_each_line]. rewrite (proj2 (Nat.eqb_neq _ _)) by lia. destruct Hs as [_ ->]. rewrite find_newline_spec by done.
  rewrite length_app in Hr. cbn [length] in Hr. rewrite Hr. cbn [mbind option_bind len]. destruct l as [|c l]; cbn [length]; [done|].
  rewrite (proj2 (Nat.eqb_neq _ _)) by lia. by rewrite bool_decide_eq_false_2.
Qed.

(** [f] does [step] on the line [l] and goes on. *)
Definition handles (l : list byte) (step : S -> S) : Prop :=
  line_ok l /\ forall v tail s, l = [] \/ shows v l -> (l = [] -> step s = s) /\ (l <> [] -> f v tail s = Some (false, step s)).

Lemma for_each_line_lines ls r : forall fuel v s, Forall (fun ls => handles ls.1 ls.2) ls -> shows v (text_of ls.*1 ++ r) ->
  exists v', shows v' r /\
    for_each_line mem (length ls + fuel) v f s = for_each_line mem fuel v' f (foldl (fun s st => st s) s ls.*2).
Proof.
  induction ls as [|[l st] ls IH]; intros fuel v s Hls Hs; [by exists v|]. apply Forall_cons_1 in Hls as [[Hl Hh] Hls]. cbn [fst snd] in *.
  cbn in Hs. fold (text_of ls.*1) in Hs. rewrite <- !app_assoc in Hs. cbn [app] in Hs.
  destruct (for_each_line_step (length ls + fuel) v l (text_of ls.*1 ++ r) s Hl Hs) as (v1 & v2 & Hv1 & Hv2 & He).
  destruct (Hh v1 v2 s (or_intror Hv1)) as [Hnil Hstep]. destruct (IH fuel v2 (st s) Hls Hv2) as (v' & Hv' & Hr). exists v'. split; [done|].
  etransitivity; [|exact Hr]. etransitivity; [exact He|]. case_bool_decide as Hcase.
  - by rewrite (Hnil Hcase).
  - by rewrite (Hstep Hcase).
Qed.
End lemmas.

(** ** Lemmas: maps *)

Section emplace.
Context {A : Type}.
Implicit Types (m : gmap Z A) (l : list (Z * A)).

Lemma emplace_new m k a : m !! k = None -> emplace m k a = <[k := a]> m.
Proof. intros H. unfold emplace. by rewrite H. Qed.

(** Elements with different keys, none of them there yet, are all added. *)
Lemma emplace_all l : forall m, NoDup l.*1 -> (forall k, k ∈ l.*1 -> m !! k = None) ->
  foldl (fun m e => emplace m e.1 e.2) m l = list_to_map l ∪ m.
Proof.
  induction l as [|[k a] l IH]; intros m Hl Hm; cbn; [by rewrite (left_id_L ∅ (∪))|]. cbn in Hl. apply list.NoDup_cons in Hl as [Hk Hl].
  rewrite emplace_new by (apply Hm; set_solver). rewrite IH; [|done|].
  - rewrite <- insert_union_l, insert_union_r; [done|]. by apply not_elem_of_list_to_map_1.
  - intros k' Hk'. rewrite lookup_insert_ne by set_solver. apply Hm. set_solver.
Qed.

Lemma emplace_all_empty l : NoDup l.*1 -> foldl (fun m e => emplace m e.1 e.2) ∅ l = list_to_map l.
Proof. intros Hl. rewrite emplace_all by (done || set_solver). apply (right_id_L ∅ (∪)). Qed.
End emplace.

(** ** Lemmas: the steps of the parser *)

Definition vendor_step (v : vendor) (p : parser) : parser :=
  {| upper := v_id v; lower := lower p; maps := add_vendor (maps p) (v_id v) (v_name v) |}.
Definition product_step (e : Z * list byte) (p : parser) : parser :=
  {| upper := upper p; lower := e.1; maps := if e.1 =? 0 then maps p else add_product (maps p) (upper p) e.1 e.2 |}.
Definition class_step (c : usb_class) (p : parser) : parser :=
  {| upper := c_id c; lower := lower p; maps := add_class (maps p) (c_id c) (c_name c) |}.
Definition subclass_step (s : subclass) (p : parser) : parser :=
  {| upper := upper p; lower := s_id s; maps := if s_id s =? 0 then maps p else add_subclass (maps p) (upper p) (s_id s) (s_name s) |}.
Definition protocol_step (e : Z * list byte) (p : parser) : parser :=
  {| upper := upper p; lower := lower p; maps := if e.1 =? 0 then maps p else add_protocol (maps p) (upper p) (lower p) e.1 e.2 |}.

(** A line that begins otherwise. *)
Lemma take_other (n : nat) (d c : byte) (l r s : list byte) : s = c :: r -> d <> c -> take n (d :: l) <> s.
Proof. intros -> Hd. destruct n as [|n]; [done|]. cbn. congruence. Qed.

Lemma named_line_ok id name k : line_ok name -> 0 <= id < 65536 -> (k = hex4 id \/ k = hex2 id /\ id < 256) -> line_ok (named k name).
Proof.
  intros Hn Hid Hk. unfold line_ok, named in *. rewrite !elem_of_app. assert (x0a ∉ k); [|set_solver].
  destruct Hk as [->|[-> Hlt]]; unfold hex4, hex2; rewrite ?elem_of_app, ?elem_of_cons.
  - destruct (hex_char_spec (id / 256 / 16)) as (_ & _ & ? & _); [zdm|]. destruct (hex_char_spec ((id / 256) mod 16)) as (_ & _ & ? & _); [zdm|].
    destruct (hex_char_spec (id mod 256 / 16)) as (_ & _ & ? & _); [zdm|]. destruct (hex_char_spec ((id mod 256) mod 16)) as (_ & _ & ? & _); [zdm|]. set_solver.
  - destruct (hex_char_spec (id / 16)) as (_ & _ & ? & _); [zdm|]. destruct (hex_char_spec (id mod 16)) as (_ & _ & ? & _); [zdm|]. set_solver.
Qed.

Section steps.
Context (mem : list byte).

Lemma comment_not (l s : list byte) : comment_ok l -> s = known_classes \/ s = terminal_types -> l <> [] -> take (length s) l <> s.
Proof. intros [->|(r & _ & _ & Hk & Ht)] [->| ->]; done. Qed.

Lemma comment_handled l : comment_ok l -> handles mem (parse_vid_pid mem) l id /\ handles mem (parse_class_sub_proto mem) l id.
Proof.
  intros Hc. assert (line_ok l) as Hl by (destruct Hc as [->|(r & -> & Hr & _)]; unfold line_ok in *; set_solver).
  assert (l <> [] -> take 1 l = [x23]) as H1 by (destruct Hc as [->|(r & -> & _)]; done).
  split; (split; [done|]); intros v tail s Hs; (split; [done|]); intros Hne; destruct Hs as [|Hs]; try done.
  - unfold parse_vid_pid. rewrite !(starts_with_spec mem v l) by done. rewrite bool_decide_eq_false_2 by (apply comment_not; auto).
    cbn [length]. by rewrite H1.
  - unfold parse_class_sub_proto. rewrite !(starts_with_spec mem v l) by done. rewrite bool_decide_eq_false_2 by (apply comment_not; auto).
    cbn [length]. by rewrite H1.
Qed.

Lemma vendor_handled v : vendor_ok v -> handles mem (parse_vid_pid mem) (vendor_line v) (vendor_step v).
Proof.
  intros [[Hid Hn] Hnz _ _]. cbn [fst snd] in *. destruct (named_head (v_id v) (v_name v) (hex4 (v_id v))) as (c & r & Hcr & H23 & H09 & _); [lia|by left|].
  split; [apply (named_line_ok (v_id v)); [done|lia|by left]|]. intros w tail s Hs. unfold vendor_line in *. split; [by rewrite Hcr|].
  intros _. destruct Hs as [Hs|Hs]; [by rewrite Hcr in Hs|]. destruct (read_id4 mem w (v_id v) (v_name v) Hs) as (w1 & w2 & E1 & E2 & E3); [lia|].
  unfold parse_vid_pid. rewrite !(starts_with_spec mem w _) by done. rewrite !Hcr.
  rewrite !bool_decide_eq_false_2 by (eapply take_other; [reflexivity|done]). rewrite E1. cbn [mbind option_bind].
  rewrite (proj2 (Z.eqb_neq _ _)) by lia. rewrite E2. cbn [mbind option_bind]. by rewrite E3.
Qed.

Lemma tab_take s n l : s <> [] -> head s <> Some x09 -> take n (x09 :: l) <> s.
Proof. intros Hs Hh He. destruct n; cbn in He; subst s; done. Qed.

Lemma product_handled e : entry_ok 65536 e -> handles mem (parse_vid_pid mem) (product_line e) (product_step e).
Proof.
  intros [Hid Hn]. destruct (named_head e.1 e.2 (hex4 e.1)) as (c & r & Hcr & H23 & H09 & _); [lia|by left|].
  split.
  { unfold line_ok, product_line. pose proof (named_line_ok e.1 e.2 (hex4 e.1) Hn). unfold line_ok in *. set_solver by lia. }
  intros w tail s Hs. split; [done|]. intros _. destruct Hs as [|Hs]; [done|].
  destruct (shows_remove mem w [x09] (named (hex4 e.1) e.2) Hs) as (w0 & E0 & Hs0).
  destruct (read_id4 mem w0 e.1 e.2 Hs0) as (w1 & w2 & E1 & E2 & E3); [lia|].
  unfold parse_vid_pid. rewrite !(starts_with_spec mem w _) by done. unfold product_line. rewrite bool_decide_eq_false_2 by (by apply tab_take).
  rewrite bool_decide_eq_false_2 by done. rewrite Hcr. cbn [length take]. rewrite bool_decide_eq_false_2 by congruence. rewrite bool_decide_eq_true_2 by done.
  cbn [length] in E0. rewrite E0. cbn [mbind option_bind]. rewrite E1. cbn [mbind option_bind].
  unfold product_step. destruct (Z.eqb_spec e.1 0) as [->|]; [done|]. rewrite E2. cbn [mbind option_bind]. by rewrite E3.
Qed.

Lemma tab_line_ok id name : line_ok name -> 0 <= id < 256 -> line_ok (x09 :: named (hex2 id) name).
Proof.
  intros Hn Hid. pose proof (named_line_ok id name (hex2 id) Hn ltac:(lia) ltac:(right; split; [done|lia])). unfold line_ok in *. set_solver.
Qed.

Lemma class_handled c : class_ok c -> handles mem (parse_class_sub_proto mem) (class_line c) (class_step c).
Proof.
  intros [Hid Hn _ _]. split.
  { pose proof (named_line_ok (c_id c) (c_name c) (hex2 (c_id c)) Hn ltac:(lia) ltac:(right; split; [done|lia])). unfold line_ok, class_line in *. set_solver. }
  intros w tail s Hs. split; [done|]. intros _. destruct Hs as [|Hs]; [done|].
  destruct (shows_remove mem w [x43; x20] (named (hex2 (c_id c)) (c_name c)) Hs) as (w0 & E0 & Hs0).
  destruct (read_id2 mem w0 (c_id c) (c_name c) Hs0) as (w1 & w2 & E1 & E2 & E3); [lia|].
  unfold parse_class_sub_proto. rewrite !(starts_with_spec mem w _) by done. unfold class_line. do 4 rewrite bool_decide_eq_false_2 by done.
  rewrite bool_decide_eq_true_2 by done. cbn [length] in E0. rewrite E0. cbn [mbind option_bind]. rewrite E1. cbn [mbind option_bind].
  rewrite u8_id by (unfold is_u8; lia). rewrite E2. cbn [mbind option_bind]. by rewrite E3.
Qed.

Lemma subclass_handled c : subclass_ok c -> handles mem (parse_class_sub_proto mem) (subclass_line c) (subclass_step c).
Proof.
  intros [[Hid Hn] _ _]. cbn [fst snd] in *. destruct (named_head (s_id c) (s_name c) (hex2 (s_id c))) as (h & r & Hcr & H23 & H09 & _); [lia|right; split; [done|lia]|].
  split; [apply tab_line_ok; [done|lia]|].
  intros w tail s Hs. split; [done|]. intros _. destruct Hs as [|Hs]; [done|].
  destruct (shows_remove mem w [x09] (named (hex2 (s_id c)) (s_name c)) Hs) as (w0 & E0 & Hs0).
  destruct (read_id2 mem w0 (s_id c) (s_name c) Hs0) as (w1 & w2 & E1 & E2 & E3); [lia|].
  unfold parse_class_sub_proto. rewrite !(starts_with_spec mem w _) by done. unfold subclass_line. rewrite bool_decide_eq_false_2 by (by apply tab_take).
  rewrite bool_decide_eq_false_2 by done. rewrite Hcr. cbn [length take]. rewrite bool_decide_eq_false_2 by congruence. rewrite bool_decide_eq_true_2 by done.
  cbn [length] in E0. rewrite E0. cbn [mbind option_bind]. rewrite E1. cbn [mbind option_bind]. rewrite u8_id by (unfold is_u8; lia).
  unfold subclass_step. destruct (Z.eqb_spec (s_id c) 0) as [->|]; [done|]. rewrite E2. cbn [mbind option_bind]. by rewrite E3.
Qed.

Lemma protocol_handled e : entry_ok 256 e -> handles mem (parse_class_sub_proto mem) (protocol_line e) (protocol_step e).
Proof.
  intros [Hid Hn]. split.
  { pose proof (tab_line_ok e.1 e.2 Hn ltac:(lia)). unfold line_ok, protocol_line in *. set_solver. }
  intros w tail s Hs. split; [done|]. intros _. destruct Hs as [|Hs]; [done|].
  destruct (shows_remove mem w [x09; x09] (named (hex2 e.1) e.2) Hs) as (w0 & E0 & Hs0).
  destruct (read_id2 mem w0 e.1 e.2 Hs0) as (w1 & w2 & E1 & E2 & E3); [lia|].
  unfold parse_class_sub_proto. rewrite !(starts_with_spec mem w _) by done. unfold protocol_line. rewrite bool_decide_eq_false_2 by (by apply tab_take).
  rewrite bool_decide_eq_false_2 by done. cbn [length take]. rewrite bool_decide_eq_true_2 by done.
  cbn [length] in E0. rewrite E0. cbn [mbind option_bind]. rewrite E1. cbn [mbind option_bind]. rewrite u8_id by (unfold is_u8; lia).
  unfold protocol_step. destruct (e.1 =? 0); [by destruct s|]. rewrite E2. cbn [mbind option_bind]. by rewrite E3.
Qed.

(** *** The steps of the parts *)

Definition vendor_steps (v : vendor) : list (list byte * (parser -> parser)) :=
  (vendor_line v, vendor_step v) :: map (fun e => (product_line e, product_step e)) (v_products v).
Definition subclass_steps (s : subclass) : list (list byte * (parser -> parser)) :=
  (subclass_line s, subclass_step s) :: map (fun e => (protocol_line e, protocol_step e)) (s_protocols s).
Definition class_steps (c : usb_class) : list (list byte * (parser -> parser)) :=
  (class_line c, class_step c) :: (c_subclasses c ≫= subclass_steps).
Lemma fst_bind {A} (f : A -> list (list byte * (parser -> parser))) (g : A -> list (list byte)) (l : list A) :
  (forall a, (f a).*1 = g a) -> (l ≫= f).*1 = l ≫= g.
Proof. intros Hf. induction l as [|a l IH]; [done|]. cbn. rewrite fmap_app, Hf. f_equal. exact IH. Qed.

Lemma fst_map {A} (f : A -> list byte) (g : A -> parser -> parser) (l : list A) : (map (fun e => (f e, g e)) l).*1 = map f l.
Proof. induction l as [|a l IH]; [done|]. cbn. f_equal. exact IH. Qed.

Lemma vendor_steps_lines v : (vendor_steps v).*1 = vendor_lines v.
Proof. unfold vendor_steps, vendor_lines. cbn. f_equal. apply fst_map. Qed.

Lemma class_steps_lines c : (class_steps c).*1 = class_lines c.
Proof.
  unfold class_steps, class_lines. cbn. f_equal. apply fst_bind. intros s. unfold subclass_steps, subclass_lines. cbn. f_equal. apply fst_map.
Qed.

Lemma vendor_steps_handled v : vendor_ok v -> Forall (fun ls => handles mem (parse_vid_pid mem) ls.1 ls.2) (vendor_steps v).
Proof.
  intros Hv. constructor; [by apply vendor_handled|]. apply list.Forall_forall. intros x Hx. apply list_elem_of_fmap in Hx as (e & -> & He).
  apply product_handled. by eapply list.Forall_forall in He; [|apply Hv].
Qed.

Lemma class_steps_handled c : class_ok c -> Forall (fun ls => handles mem (parse_class_sub_proto mem) ls.1 ls.2) (class_steps c).
Proof.
  intros Hc. constructor; [by apply class_handled|]. apply list.Forall_forall. intros x Hx. apply list_elem_of_bind in Hx as (s & Hx & Hs).
  assert (subclass_ok s) as Hok by (by eapply list.Forall_forall in Hs; [|apply Hc]). apply elem_of_cons in Hx as [->|Hx]; [by apply subclass_handled|].
  apply list_elem_of_fmap in Hx as (e & -> & He). apply protocol_handled. by eapply list.Forall_forall in He; [|apply Hok].
Qed.
End steps.

(** *** The maps they make *)

Definition run_steps (l : list (list byte * (parser -> parser))) (p : parser) : parser := foldl (fun s st => st s) p l.*2.

Lemma run_steps_app l1 l2 p : run_steps (l1 ++ l2) p = run_steps l2 (run_steps l1 p).
Proof. unfold run_steps. by rewrite fmap_app, foldl_app. Qed.

Lemma run_steps_bind {A} (f : A -> list (list byte * (parser -> parser))) l p : run_steps (l ≫= f) p = foldl (fun p a => run_steps (f a) p) p l.
Proof. revert p. induction l as [|a l IH]; intros p; [done|]. cbn [foldl]. change ((a :: l) ≫= f) with (f a ++ (l ≫= f)). by rewrite run_steps_app, IH. Qed.

(** What is kept of entries: those with an identifier that is not zero. *)
Definition kept (l : list (Z * list byte)) : list (Z * list byte) := filter (fun e => e.1 <> 0) l.

Definition vendor_entry (v : vendor) : Z * (list byte * gmap Z (list byte)) := (v_id v, (v_name v, list_to_map (kept (v_products v)))).

(** The subclass zero has no name, and is there only for its protocols. *)
Definition subclass_entry (s : subclass) : Z * (list byte * gmap Z (list byte)) :=
  (s_id s, (if s_id s =? 0 then [] else s_name s, list_to_map (kept (s_protocols s)))).
Definition subclass_entries (s : subclass) : list (Z * (list byte * gmap Z (list byte))) :=
  if (s_id s =? 0) && bool_decide (kept (s_protocols s) = []) then [] else [subclass_entry s].
Definition class_entry (c : usb_class) : Z * (list byte * gmap Z (list byte * gmap Z (list byte))) :=
  (c_id c, (c_name c, list_to_map (c_subclasses c ≫= subclass_entries))).

Lemma kept_cons e l : kept (e :: l) = if e.1 =? 0 then kept l else e :: kept l.
Proof. unfold kept. rewrite filter_cons. destruct (Z.eqb_spec e.1 0); case_decide; done. Qed.

Lemma elem_of_kept k a l : (k, a) ∈ kept l <-> k <> 0 /\ (k, a) ∈ l.
Proof. unfold kept. by rewrite list_elem_of_filter. Qed.

Lemma kept_keys k l : k ∈ (kept l).*1 -> k <> 0 /\ k ∈ l.*1.
Proof. intros ([k' a] & -> & H)%list_elem_of_fmap. apply elem_of_kept in H as [? H]. split; [done|]. by apply (list_elem_of_fmap_2 fst) in H. Qed.

Lemma kept_once l : NoDup l.*1 -> NoDup (kept l).*1.
Proof.
  induction l as [|e l IH]; intros Hl; [done|]. cbn in Hl. apply list.NoDup_cons in Hl as [He Hl]. rewrite kept_cons.
  destruct (e.1 =? 0); [by apply IH|]. cbn. apply list.NoDup_cons. split; [|by apply IH]. by intros [_ ?]%kept_keys.
Qed.

Definition with_vendors (p : parser) (m : gmap Z (list byte * gmap Z (list byte))) : ids := {| m_vendor := m; m_class := m_class (maps p) |}.
Definition with_classes (p : parser) (m : gmap Z (list byte * gmap Z (list byte * gmap Z (list byte)))) : ids :=
  {| m_vendor := m_vendor (maps p); m_class := m |}.

Lemma fold_products l : forall p n prod, m_vendor (maps p) !! upper p = Some (n, prod) ->
  let q := run_steps (map (fun e => (product_line e, product_step e)) l) p in
  upper q = upper p /\ maps q = with_vendors p (<[upper p := (n, foldl (fun m e => emplace m e.1 e.2) prod (kept l))]> (m_vendor (maps p))).
Proof.
  induction l as [|e l IH]; intros p n prod Hp.
  - cbn. split; [done|]. unfold with_vendors. rewrite insert_id by done. by destruct (maps p).
  - change (run_steps (map (fun e => (product_line e, product_step e)) (e :: l)) p)
      with (run_steps (map (fun e => (product_line e, product_step e)) l) (product_step e p)).
    rewrite kept_cons. destruct (e.1 =? 0) eqn:He.
    { destruct (IH (product_step e p) n prod) as [Hu Hq]; [cbn; by rewrite He|]. split; [exact Hu|]. rewrite Hq. unfold with_vendors. cbn. by rewrite He. }
    assert (maps (product_step e p) = with_vendors p (<[upper p := (n, emplace prod e.1 e.2)]> (m_vendor (maps p)))) as Hm.
    { cbn. rewrite He. unfold add_product, at_pair. by rewrite Hp. }
    destruct (IH (product_step e p) n (emplace prod e.1 e.2)) as [Hu Hq]; [rewrite Hm; cbn; apply lookup_insert_eq|].
    split; [exact Hu|]. rewrite Hq. cbn [upper product_step]. unfold with_vendors at 1. rewrite Hm. cbn. unfold with_vendors. by rewrite insert_insert_eq.
Qed.

Lemma run_vendor v p : vendor_ok v -> m_vendor (maps p) !! v_id v = None ->
  maps (run_steps (vendor_steps v) p) = with_vendors p (emplace (m_vendor (maps p)) (v_id v) (vendor_entry v).2).
Proof.
  intros Hv Hn. change (run_steps (vendor_steps v) p) with (run_steps (map (fun e => (product_line e, product_step e)) (v_products v)) (vendor_step v p)).
  assert (maps (vendor_step v p) = with_vendors p (<[v_id v := (v_name v, ∅)]> (m_vendor (maps p)))) as Hm.
  { cbn. unfold add_vendor. by rewrite emplace_new. }
  destruct (fold_products (v_products v) (vendor_step v p) (v_name v) ∅) as [_ ->]; [rewrite Hm; cbn; apply lookup_insert_eq|].
  unfold with_vendors at 1. rewrite Hm. cbn. rewrite insert_insert_eq, emplace_all_empty by apply kept_once, Hv. by rewrite emplace_new.
Qed.

Lemma run_vendors vs : forall p, Forall vendor_ok vs -> NoDup (map v_id vs) -> (forall v, v ∈ vs -> m_vendor (maps p) !! v_id v = None) ->
  maps (run_steps (vs ≫= vendor_steps) p) = with_vendors p (foldl (fun m e => emplace m e.1 e.2) (m_vendor (maps p)) (map vendor_entry vs)).
Proof.
  induction vs as [|v vs IH]; intros p Hvs Hnd Hn; [by destruct p as [? ? []]|]. apply Forall_cons_1 in Hvs as [Hv Hvs].
  cbn [map] in Hnd. apply list.NoDup_cons in Hnd as [Hni Hnd].
  change ((v :: vs) ≫= vendor_steps) with (vendor_steps v ++ (vs ≫= vendor_steps)). rewrite run_steps_app.
  pose proof (run_vendor v p Hv (Hn v ltac:(set_solver))) as Hm. rewrite IH; [|done|done|].
  - unfold with_vendors at 1. rewrite Hm. done.
  - intros v' Hv'. rewrite Hm. cbn. rewrite emplace_new by (apply Hn; set_solver).
    rewrite lookup_insert_ne; [apply Hn; set_solver|]. intros He. apply Hni. rewrite He. by apply (list_elem_of_fmap_2 v_id).
Qed.

Lemma fold_protocols l : forall p n sub sn prot, m_class (maps p) !! upper p = Some (n, sub) -> sub !! lower p = Some (sn, prot) ->
  let q := run_steps (map (fun e => (protocol_line e, protocol_step e)) l) p in
  upper q = upper p /\
  maps q = with_classes p (<[upper p := (n, <[lower p := (sn, foldl (fun m e => emplace m e.1 e.2) prot (kept l))]> sub)]> (m_class (maps p))).
Proof.
  induction l as [|e l IH]; intros p n sub sn prot Hp Hs.
  - cbn. split; [done|]. unfold with_classes. rewrite (insert_id sub) by done. rewrite insert_id by done. by destruct (maps p).
  - change (run_steps (map (fun e => (protocol_line e, protocol_step e)) (e :: l)) p)
      with (run_steps (map (fun e => (protocol_line e, protocol_step e)) l) (protocol_step e p)).
    rewrite kept_cons. destruct (e.1 =? 0) eqn:He.
    { destruct (IH (protocol_step e p) n sub sn prot) as [Hu Hq]; [cbn; by rewrite He|done|]. split; [exact Hu|]. rewrite Hq. unfold with_classes. cbn. by rewrite He. }
    assert (maps (protocol_step e p) = with_classes p (<[upper p := (n, <[lower p := (sn, emplace prot e.1 e.2)]> sub)]> (m_class (maps p)))) as Hm.
    { cbn. rewrite He. unfold add_protocol, at_pair. rewrite Hp. cbn. by rewrite Hs. }
    destruct (IH (protocol_step e p) n (<[lower p := (sn, emplace prot e.1 e.2)]> sub) sn (emplace prot e.1 e.2)) as [Hu Hq];
      [rewrite Hm; cbn; apply lookup_insert_eq|apply lookup_insert_eq|].
    split; [exact Hu|]. rewrite Hq. cbn [upper lower protocol_step]. unfold with_classes at 1. rewrite Hm. cbn. unfold with_classes.
    by rewrite insert_insert_eq, insert_insert_eq.
Qed.

(** The protocols of the subclass zero: the first of them makes its entry. *)
Lemma fold_protocols_zero l : forall p n sub, m_class (maps p) !! upper p = Some (n, sub) -> sub !! lower p = None -> NoDup l.*1 ->
  let q := run_steps (map (fun e => (protocol_line e, protocol_step e)) l) p in
  upper q = upper p /\
  maps q = if bool_decide (kept l = []) then maps p
           else with_classes p (<[upper p := (n, <[lower p := ([], list_to_map (kept l))]> sub)]> (m_class (maps p))).
Proof.
  induction l as [|e l IH]; intros p n sub Hp Hs Hnd; [done|]. pose proof (kept_once _ Hnd) as Hk. cbn in Hnd. apply list.NoDup_cons in Hnd as [_ Hnd].
  change (run_steps (map (fun e => (protocol_line e, protocol_step e)) (e :: l)) p)
    with (run_steps (map (fun e => (protocol_line e, protocol_step e)) l) (protocol_step e p)).
  rewrite kept_cons in *. destruct (e.1 =? 0) eqn:He.
  { destruct (IH (protocol_step e p) n sub) as [Hu Hq]; [cbn; by rewrite He|done|done|]. split; [exact Hu|]. rewrite Hq. unfold with_classes. cbn. by rewrite He. }
  assert (maps (protocol_step e p) = with_classes p (<[upper p := (n, <[lower p := ([], emplace ∅ e.1 e.2)]> sub)]> (m_class (maps p)))) as Hm.
  { cbn. rewrite He. unfold add_protocol, at_pair. rewrite Hp. cbn. by rewrite Hs. }
  destruct (fold_protocols l (protocol_step e p) n (<[lower p := ([], emplace ∅ e.1 e.2)]> sub) [] (emplace ∅ e.1 e.2)) as [Hu Hq];
    [rewrite Hm; cbn; apply lookup_insert_eq|apply lookup_insert_eq|].
  split; [exact Hu|]. rewrite Hq, (emplace_all_empty (e :: kept l) Hk : foldl _ (emplace ∅ e.1 e.2) (kept l) = _), bool_decide_eq_false_2 by done. cbn [upper lower protocol_step]. unfold with_classes at 1. rewrite Hm. cbn. unfold with_classes.
  by rewrite insert_insert_eq, insert_insert_eq.
Qed.

Lemma run_subclass s p n sub : subclass_ok s -> m_class (maps p) !! upper p = Some (n, sub) -> sub !! s_id s = None ->
  let q := run_steps (subclass_steps s) p in
  upper q = upper p /\ maps q = with_classes p (<[upper p := (n, foldl (fun m e => emplace m e.1 e.2) sub (subclass_entries s))]> (m_class (maps p))).
Proof.
  intros Hs Hp Hn. cbv zeta. change (run_steps (subclass_steps s) p) with (run_steps (map (fun e => (protocol_line e, protocol_step e)) (s_protocols s)) (subclass_step s p)).
  unfold subclass_entries, subclass_entry. destruct (s_id s =? 0) eqn:Hz; cbn [andb].
  - destruct (fold_protocols_zero (s_protocols s) (subclass_step s p) n sub) as [Hu Hq]; [cbn; by rewrite Hz|done|apply Hs|].
    split; [exact Hu|]. rewrite Hq. unfold with_classes. cbn. rewrite Hz. case_bool_decide; cbn.
    + rewrite insert_id by done. by destruct (maps p).
    + by rewrite emplace_new.
  - assert (maps (subclass_step s p) = with_classes p (<[upper p := (n, <[s_id s := (s_name s, ∅)]> sub)]> (m_class (maps p)))) as Hm.
    { cbn. rewrite Hz. unfold add_subclass, at_pair. rewrite Hp. cbn. by rewrite emplace_new. }
    destruct (fold_protocols (s_protocols s) (subclass_step s p) n (<[s_id s := (s_name s, ∅)]> sub) (s_name s) ∅) as [Hu Hq];
      [rewrite Hm; cbn; apply lookup_insert_eq|apply lookup_insert_eq|].
    split; [exact Hu|]. rewrite Hq. unfold with_classes at 1. rewrite Hm. cbn.
    rewrite !insert_insert_eq, emplace_all_empty by apply kept_once, Hs. by rewrite emplace_new.
Qed.

Lemma subclass_entries_key s k a : (k, a) ∈ subclass_entries s -> k = s_id s /\ (k, a) = subclass_entry s.
Proof. unfold subclass_entries. destruct (_ && _); intros H; [by apply elem_of_nil in H|]. apply list_elem_of_singleton in H. by injection H as -> ->. Qed.

Lemma emplace_other sub s k : k <> s_id s -> foldl (fun m e => emplace m e.1 e.2) sub (subclass_entries s) !! k = sub !! k.
Proof.
  intros Hk. unfold subclass_entries. destruct (_ && _); [done|]. cbn. unfold emplace. destruct (sub !! s_id s); [done|]. by apply lookup_insert_ne.
Qed.

Lemma run_subclasses ss : forall p n sub, Forall subclass_ok ss -> NoDup (map s_id ss) -> m_class (maps p) !! upper p = Some (n, sub) ->
  (forall s, s ∈ ss -> sub !! s_id s = None) ->
  let q := run_steps (ss ≫= subclass_steps) p in
  upper q = upper p /\ maps q = with_classes p (<[upper p := (n, foldl (fun m e => emplace m e.1 e.2) sub (ss ≫= subclass_entries))]> (m_class (maps p))).
Proof.
  induction ss as [|s ss IH]; intros p n sub Hss Hnd Hp Hn.
  { cbn. split; [done|]. unfold with_classes. rewrite insert_id by done. by destruct (maps p). }
  apply Forall_cons_1 in Hss as [Hs Hss]. cbn [map] in Hnd. apply list.NoDup_cons in Hnd as [Hni Hnd].
  change ((s :: ss) ≫= subclass_steps) with (subclass_steps s ++ (ss ≫= subclass_steps)). rewrite run_steps_app.
  change ((s :: ss) ≫= subclass_entries) with (subclass_entries s ++ (ss ≫= subclass_entries)). rewrite foldl_app.
  destruct (run_subclass s p n sub Hs Hp (Hn s ltac:(set_solver))) as [Hu Hm].
  destruct (IH (run_steps (subclass_steps s) p) n (foldl (fun m e => emplace m e.1 e.2) sub (subclass_entries s))) as [Hu2 Hm2]; [done|done| | |].
  - rewrite Hu, Hm. cbn. apply lookup_insert_eq.
  - intros s' Hs'. rewrite emplace_other; [apply Hn; set_solver|]. intros He. apply Hni. rewrite <- He. by apply (list_elem_of_fmap_2 s_id).
  - cbv zeta. rewrite Hu2, Hm2, Hu. split; [done|]. unfold with_classes at 1. rewrite Hm. cbn. by rewrite insert_insert_eq.
Qed.

(** The subclasses of a class have different identifiers. *)
Lemma subclass_entries_once ss : NoDup (map s_id ss) -> NoDup (ss ≫= subclass_entries).*1.
Proof.
  induction ss as [|s l IH]; intros Hd; [constructor|]. cbn in Hd. apply list.NoDup_cons in Hd as [H1 H2].
  change ((s :: l) ≫= subclass_entries) with (subclass_entries s ++ (l ≫= subclass_entries)). rewrite fmap_app. apply list.NoDup_app.
  split; [unfold subclass_entries; destruct (_ && _); cbn; [constructor|apply NoDup_singleton]|]. split; [|by apply IH].
  intros k Hk Hx. apply list_elem_of_fmap in Hk as ([k1 x] & -> & [-> _]%subclass_entries_key).
  apply list_elem_of_fmap in Hx as ([k2 y] & Hk2 & Hy). apply list_elem_of_bind in Hy as (s' & [-> _]%subclass_entries_key & Hs').
  apply H1. cbn in Hk2. rewrite Hk2. by apply (list_elem_of_fmap_2 s_id).
Qed.

Lemma run_class c p : class_ok c -> m_class (maps p) !! c_id c = None ->
  maps (run_steps (class_steps c) p) = with_classes p (emplace (m_class (maps p)) (c_id c) (class_entry c).2).
Proof.
  intros Hc Hn. change (run_steps (class_steps c) p) with (run_steps (c_subclasses c ≫= subclass_steps) (class_step c p)).
  assert (maps (class_step c p) = with_classes p (<[c_id c := (c_name c, ∅)]> (m_class (maps p)))) as Hm.
  { cbn. unfold add_class. by rewrite emplace_new. }
  destruct (run_subclasses (c_subclasses c) (class_step c p) (c_name c) ∅) as [_ ->]; [apply Hc|apply Hc|rewrite Hm; cbn; apply lookup_insert_eq|done|].
  unfold with_classes at 1. rewrite Hm. cbn. rewrite insert_insert_eq, emplace_all_empty, emplace_new; [done|done|].
  apply subclass_entries_once, Hc.
Qed.

Lemma run_classes cs : forall p, Forall class_ok cs -> NoDup (map c_id cs) -> (forall c, c ∈ cs -> m_class (maps p) !! c_id c = None) ->
  maps (run_steps (cs ≫= class_steps) p) = with_classes p (foldl (fun m e => emplace m e.1 e.2) (m_class (maps p)) (map class_entry cs)).
Proof.
  induction cs as [|c cs IH]; intros p Hcs Hnd Hn; [by destruct p as [? ? []]|]. apply Forall_cons_1 in Hcs as [Hc Hcs].
  cbn [map] in Hnd. apply list.NoDup_cons in Hnd as [Hni Hnd].
  change ((c :: cs) ≫= class_steps) with (class_steps c ++ (cs ≫= class_steps)). rewrite run_steps_app.
  pose proof (run_class c p Hc (Hn c ltac:(set_solver))) as Hm. rewrite IH; [|done|done|].
  - unfold with_classes at 1. rewrite Hm. done.
  - intros c' Hc'. rewrite Hm. cbn. rewrite emplace_new by (apply Hn; set_solver).
    rewrite lookup_insert_ne; [apply Hn; set_solver|]. intros He. apply Hni. rewrite He. by apply (list_elem_of_fmap_2 c_id).
Qed.

Lemma entry_keys {A B} (g : A -> Z) (h : A -> Z * B) (l : list A) : (forall a, (h a).1 = g a) -> (map h l).*1 = map g l.
Proof. intros Hg. induction l as [|a l IH]; [done|]. cbn. f_equal; [apply Hg|exact IH]. Qed.

(** *** The whole text *)

Lemma length_text_of ls : (length ls <= length (text_of ls))%nat.
Proof. induction ls as [|l ls IH]; [done|]. cbn. fold (text_of ls). rewrite !length_app. cbn. lia. Qed.

Lemma text_of_app l1 l2 : text_of (l1 ++ l2) = text_of l1 ++ text_of l2.
Proof. apply bind_app. Qed.

Lemma headers_ok : line_ok known_classes /\ line_ok terminal_types.
Proof. split; unfold line_ok; apply (bool_decide_unpack _); vm_compute; exact I. Qed.

(** The lines of a part, with a last one at which the function stops. *)
Lemma for_each_line_part mem (f : view -> view -> parser -> option (bool * parser)) ls last r v p fuel q :
  Forall (fun ls => handles mem f ls.1 ls.2) ls -> line_ok last -> last <> [] -> shows mem v (text_of (ls.*1 ++ [last]) ++ r) ->
  (length ls < fuel)%nat ->
  (forall v1 v2, shows mem v1 last -> shows mem v2 r -> f v1 v2 (run_steps ls p) = Some (true, q)) ->
  for_each_line mem fuel v f p = Some q.
Proof.
  intros Hls Hlast Hne Hs Hfuel Hq. rewrite text_of_app, <- app_assoc in Hs.
  destruct (for_each_line_lines mem f ls (text_of [last] ++ r) (fuel - length ls) v p Hls Hs) as (v' & Hv' & He).
  replace (length ls + (fuel - length ls))%nat with fuel in He by lia. rewrite He. destruct (fuel - length ls)%nat as [|n] eqn:Hn; [lia|].
  change (text_of [last] ++ r) with (((last ++ [x0a]) ++ []) ++ r) in Hv'. rewrite app_nil_r, <- app_assoc in Hv'.
  destruct (for_each_line_step mem f n v' last r (run_steps ls p) Hlast Hv') as (v1 & v2 & H1 & H2 & Hf). unfold run_steps in Hf, Hq. rewrite Hf.
  rewrite bool_decide_eq_false_2 by done. by rewrite (Hq v1 v2 H1 H2).
Qed.

(** Comments and empty lines do nothing, wherever they are. *)
Lemma commented_steps (P : list byte * (parser -> parser) -> Prop) ls es : commented ls es -> forall steps, steps.*1 = es ->
  Forall P steps -> (forall c, comment_ok c -> P (c, id)) ->
  exists steps', steps'.*1 = ls /\ Forall P steps' /\ forall p, run_steps steps' p = run_steps steps p.
Proof.
  intros Hc. induction Hc as [|c ls es Hok Hc IH|e ls es Hc IH]; intros steps He HP Hid.
  - by exists steps.
  - destruct (IH steps He HP Hid) as (steps' & Hl & HP' & Hr). exists ((c, id) :: steps'). split; [cbn; by rewrite Hl|]. split; [constructor; auto|].
    intros p. exact (Hr p).
  - destruct steps as [|[e' f] steps]; [done|]. cbn in He. injection He as -> He. apply Forall_cons_1 in HP as [H1 HP].
    destruct (IH steps He HP Hid) as (steps' & Hl & HP' & Hr). exists ((e, f) :: steps'). split; [cbn; by rewrite Hl|]. split; [by constructor|].
    intros p. exact (Hr (f p)).
Qed.

Lemma Forall_bind_steps {A} (P : list byte * (parser -> parser) -> Prop) (f : A -> list (list byte * (parser -> parser))) l :
  (forall a, a ∈ l -> Forall P (f a)) -> Forall P (l ≫= f).
Proof.
  intros H. apply list.Forall_forall. intros x Hx. apply list_elem_of_bind in Hx as (a & Hx & Ha). specialize (H a Ha).
  by apply list.Forall_forall with (x := x) in H.
Qed.

Definition database (vs : list vendor) (cs : list usb_class) : ids :=
  {| m_vendor := list_to_map (map vendor_entry vs); m_class := list_to_map (map class_entry cs) |}.

Lemma classes_read mem vs cs lines2 r v : commented lines2 (cs ≫= class_lines) -> Forall class_ok cs -> NoDup (map c_id cs) ->
  shows mem v (text_of (lines2 ++ [terminal_types]) ++ r) ->
  exists q, for_each_line mem (S (len v)) v (parse_class_sub_proto mem)
      {| upper := 0; lower := 0; maps := database vs [] |} = Some q /\ maps q = database vs cs.
Proof.
  intros Hc Hcs Hnd Hs. set (p := {| upper := 0; lower := 0; maps := database vs [] |}).
  destruct (commented_steps (fun ls => handles mem (parse_class_sub_proto mem) ls.1 ls.2) lines2 _ Hc (cs ≫= class_steps)) as (ls & Hlines & Hall & Hrun).
  { apply fst_bind, class_steps_lines. }
  { apply Forall_bind_steps. intros c Hin. apply class_steps_handled. by apply list.Forall_forall with (x := c) in Hcs. }
  { intros c Hok. by apply comment_handled. }
  exists (run_steps ls p). split.
  - apply (for_each_line_part mem _ ls terminal_types r v p); [done|apply headers_ok|done|by rewrite Hlines| |].
    + rewrite (shows_length mem v _ Hs), length_app. pose proof (length_text_of (ls.*1 ++ [terminal_types])) as Hl.
      rewrite length_app, length_fmap, Hlines in Hl. cbn [length] in Hl. lia.
    + intros v1 v2 H1 _. unfold parse_class_sub_proto. rewrite (starts_with_spec mem v1 terminal_types) by done. by rewrite firstn_all, bool_decide_eq_true_2.
  - rewrite Hrun, run_classes; [|done|done|done].
    cbn [maps p m_class database]. change (list_to_map (map class_entry [])) with (∅ : gmap Z (list byte * gmap Z (list byte * gmap Z (list byte)))).
    rewrite emplace_all_empty; [done|]. by rewrite (entry_keys c_id).
Qed.

Lemma load_database lines1 vs lines2 cs r : commented lines1 (vs ≫= vendor_lines) -> commented lines2 (cs ≫= class_lines) ->
  Forall vendor_ok vs -> NoDup (map v_id vs) -> Forall class_ok cs -> NoDup (map c_id cs) ->
  load (db_text lines1 lines2 r) = Some (database vs cs).
Proof.
  intros Hc1 Hc2 Hvs Hnv Hcs Hnc. set (mem := db_text lines1 lines2 r). unfold load.
  set (p := {| upper := 0; lower := 0; maps := _ |}).
  destruct (commented_steps (fun ls => handles mem (parse_vid_pid mem) ls.1 ls.2) lines1 _ Hc1 (vs ≫= vendor_steps)) as (ls & Hlines & Hall & Hrun).
  { apply fst_bind, vendor_steps_lines. }
  { apply Forall_bind_steps. intros v Hin. apply vendor_steps_handled. by apply list.Forall_forall with (x := v) in Hvs. }
  { intros c Hok. by apply comment_handled. }
  set (r1 := text_of (lines2 ++ [terminal_types]) ++ r).
  assert (mem = text_of (ls.*1 ++ [known_classes]) ++ r1) as Hmem.
  { unfold mem, r1, db_text. rewrite Hlines, !text_of_app, <- !app_assoc. done. }
  assert (shows mem {| off := 0; len := length mem |} (text_of (ls.*1 ++ [known_classes]) ++ r1)) as Hs.
  { split; [unfold view_ok; cbn; lia|]. unfold contents. cbn [off len drop]. by rewrite firstn_all. }
  assert (maps (run_steps ls p) = database vs []) as Hm.
  { rewrite Hrun, run_vendors; [|done|done|done]. cbn [maps p m_vendor].
    rewrite emplace_all_empty; [done|]. by rewrite (entry_keys v_id). }
  enough (exists q, for_each_line mem (S (length mem)) {| off := 0; len := length mem |} (parse_vid_pid mem) p = Some q /\ maps q = database vs cs) as (q & -> & Hq).
  { cbn. by rewrite Hq. }
  eexists {| upper := upper (run_steps ls p); lower := lower (run_steps ls p); maps := database vs cs |}. split; [|done].
  apply (for_each_line_part mem _ ls known_classes r1 _ p); [done|apply headers_ok|done|exact Hs| |].
  - rewrite Hmem, length_app. pose proof (length_text_of (ls.*1 ++ [known_classes])) as Hl. rewrite length_app, length_fmap in Hl. cbn [length] in Hl. lia.
  - intros v1 v2 H1 H2. unfold parse_vid_pid. rewrite (starts_with_spec mem v1 known_classes) by done. rewrite firstn_all, bool_decide_eq_true_2 by done.
    rewrite Hm. destruct (classes_read mem vs cs lines2 r v2 Hc2 Hcs Hnc H2) as (q & -> & Hq). cbn. by rewrite Hq.
Qed.

Lemma find_list_to_map {A} (l : list (Z * A)) k a : NoDup l.*1 -> (k, a) ∈ l -> (list_to_map l : gmap Z A) !! k = Some a.
Proof. intros Hl Hin. by apply elem_of_list_to_map_1. Qed.

Lemma find_entry {A B} (g : A -> Z) (h : A -> B) (l : list A) a : NoDup (map g l) -> a ∈ l ->
  (list_to_map (map (fun x => (g x, h x)) l) : gmap Z B) !! g a = Some (h a).
Proof.
  intros Hl Ha. apply elem_of_list_to_map_1; [by rewrite (entry_keys g)|]. by apply (list_elem_of_fmap_2 (fun x => (g x, h x))).
Qed.

Lemma find_no_entry {A B} (g : A -> Z) (h : A -> B) (l : list A) k : k ∉ map g l -> (list_to_map (map (fun x => (g x, h x)) l) : gmap Z B) !! k = None.
Proof. intros Hk. apply not_elem_of_list_to_map_1. by rewrite (entry_keys g). Qed.

Lemma find_vendor vs v : NoDup (map v_id vs) -> v ∈ vs -> (list_to_map (map vendor_entry vs) : gmap Z _) !! v_id v = Some (v_name v, list_to_map (kept (v_products v))).
Proof. exact (find_entry v_id (fun v => (v_name v, list_to_map (kept (v_products v)))) vs v). Qed.

Lemma find_class cs c : NoDup (map c_id cs) -> c ∈ cs ->
  (list_to_map (map class_entry cs) : gmap Z _) !! c_id c = Some (c_name c, list_to_map (c_subclasses c ≫= subclass_entries)).
Proof. exact (find_entry c_id (fun c => (c_name c, list_to_map (c_subclasses c ≫= subclass_entries))) cs c). Qed.

Lemma find_no_vendor vs k : k ∉ map v_id vs -> (list_to_map (map vendor_entry vs) : gmap Z _) !! k = None.
Proof. exact (find_no_entry v_id (fun v => (v_name v, list_to_map (kept (v_products v)))) vs k). Qed.

Lemma find_no_class cs k : k ∉ map c_id cs -> (list_to_map (map class_entry cs) : gmap Z _) !! k = None.
Proof. exact (find_no_entry c_id (fun c => (c_name c, list_to_map (c_subclasses c ≫= subclass_entries))) cs k). Qed.

(** A subclass that is not there, like the subclass zero without protocols, and its protocols have empty names. *)
Lemma find_subclass ss s prot : NoDup (map s_id ss) -> s ∈ ss ->
  match (list_to_map (ss ≫= subclass_entries) : gmap Z (list byte * gmap Z (list byte))) !! s_id s with
  | None => ([], [])
  | Some (sn, m) => (sn, default [] (m !! prot))
  end = (if s_id s =? 0 then [] else s_name s, default [] ((list_to_map (kept (s_protocols s)) : gmap Z (list byte)) !! prot)).
Proof.
  intros Hnd Hs. pose proof (subclass_entries_once ss Hnd) as Ho. destruct ((s_id s =? 0) && bool_decide (kept (s_protocols s) = [])) eqn:E.
  - rewrite not_elem_of_list_to_map_1; [by apply andb_true_iff in E as [-> ->%bool_decide_eq_true]|].
    intros ([k x] & Hk & Hx)%list_elem_of_fmap. apply list_elem_of_bind in Hx as (s' & Hx & Hs'). pose proof (subclass_entries_key _ _ _ Hx) as [Hk' _].
    cbn in Hk. assert (s' = s) as ->; [|unfold subclass_entries in Hx; rewrite E in Hx; by apply elem_of_nil in Hx].
    apply list_elem_of_lookup in Hs as [i Hi]. apply list_elem_of_lookup in Hs' as [j Hj].
    assert (i = j) as <-; [|congruence]. apply (list.NoDup_lookup (map s_id ss) i j (s_id s) Hnd); rewrite list_lookup_fmap; [by rewrite Hi|rewrite Hj; cbn; congruence].
  - rewrite (elem_of_list_to_map_1 _ (s_id s) (if s_id s =? 0 then [] else s_name s, list_to_map (kept (s_protocols s)))); [done|done|]. apply list_elem_of_bind. exists s. split; [|done]. unfold subclass_entries. rewrite E. by left.
Qed.

Lemma find_no_subclass ss k : k ∉ map s_id ss -> (list_to_map (ss ≫= subclass_entries) : gmap Z (list byte * gmap Z (list byte))) !! k = None.
Proof.
  intros Hk. apply not_elem_of_list_to_map_1. intros ([k' x] & -> & Hx)%list_elem_of_fmap. apply list_elem_of_bind in Hx as (s & [-> _]%subclass_entries_key & Hs).
  apply Hk. by apply (list_elem_of_fmap_2 s_id).
Qed.

Lemma find_kept (l : list (Z * list byte)) k name : NoDup l.*1 -> k <> 0 -> (k, name) ∈ l -> (list_to_map (kept l) : gmap Z (list byte)) !! k = Some name.
Proof. intros Hl Hk Hin. apply find_list_to_map; [by apply kept_once|]. by apply elem_of_kept. Qed.

Lemma find_not_kept (l : list (Z * list byte)) k : k = 0 \/ k ∉ l.*1 -> (list_to_map (kept l) : gmap Z (list byte)) !! k = None.
Proof. intros Hk. apply not_elem_of_list_to_map_1. intros [? ?]%kept_keys. by destruct Hk. Qed.

(** ** Names of identifiers *)

(** C32: for every text of vendors with their products and classes with their subclasses and protocols, whose identifiers do not
    repeat, with comments and empty lines anywhere, any names, and anything after the part that is read: loading it reads nothing outside of the text
    and ends, and the lookups give exactly the names in it, empty ones for what is not in it. The names of products, subclasses and
    protocols with the identifier zero are lost: for those the lookups give empty ones, too (of a subclass zero the protocols are found).
    Only a vendor must not have the identifier zero. *)
Theorem names_found lines1 vs lines2 cs rest :
  commented lines1 (vs ≫= vendor_lines) -> commented lines2 (cs ≫= class_lines) ->
  Forall vendor_ok vs -> NoDup (map v_id vs) -> Forall class_ok cs -> NoDup (map c_id cs) ->
  exists m, load (db_text lines1 lines2 rest) = Some m /\
    (forall v pid name, v ∈ vs -> pid <> 0 -> (pid, name) ∈ v_products v -> find_product m (v_id v) pid = (v_name v, name)) /\
    (forall v pid, v ∈ vs -> pid = 0 \/ pid ∉ (v_products v).*1 -> find_product m (v_id v) pid = (v_name v, [])) /\
    (forall vid pid, vid ∉ map v_id vs -> find_product m vid pid = ([], [])) /\
    (forall c s prot name, c ∈ cs -> s ∈ c_subclasses c -> prot <> 0 -> (prot, name) ∈ s_protocols s ->
      find_class_subclass_proto m (c_id c) (s_id s) prot = (c_name c, if s_id s =? 0 then [] else s_name s, name)) /\
    (forall c s prot, c ∈ cs -> s ∈ c_subclasses c -> prot = 0 \/ prot ∉ (s_protocols s).*1 ->
      find_class_subclass_proto m (c_id c) (s_id s) prot = (c_name c, if s_id s =? 0 then [] else s_name s, [])) /\
    (forall c sub prot, c ∈ cs -> sub ∉ map s_id (c_subclasses c) -> find_class_subclass_proto m (c_id c) sub prot = (c_name c, [], [])) /\
    (forall cls sub prot, cls ∉ map c_id cs -> find_class_subclass_proto m cls sub prot = ([], [], [])).
Proof.
  intros Hl1 Hl2 Hvs Hnv Hcs Hnc. exists (database vs cs). split; [by apply load_database|].
  assert (forall v, v ∈ vs -> vendor_ok v) as Hv by (intros v Hin; by apply list.Forall_forall with (x := v) in Hvs).
  assert (forall c, c ∈ cs -> class_ok c) as Hc by (intros c Hin; by apply list.Forall_forall with (x := c) in Hcs).
  assert (forall c s, c ∈ cs -> s ∈ c_subclasses c -> subclass_ok s) as Hs.
  { intros c s Hin Hin2. pose proof (c_subclasses_ok c (Hc c Hin)) as H. by apply list.Forall_forall with (x := s) in H. }
  assert (forall c s prot, c ∈ cs -> s ∈ c_subclasses c -> find_class_subclass_proto (database vs cs) (c_id c) (s_id s) prot =
    (c_name c, if s_id s =? 0 then [] else s_name s, default [] ((list_to_map (kept (s_protocols s)) : gmap Z (list byte)) !! prot))) as Hfind.
  { intros c s prot Hin Hin2. unfold find_class_subclass_proto, database. cbn [m_class]. rewrite find_class by done.
    pose proof (find_subclass (c_subclasses c) s prot (c_subclasses_once c (Hc c Hin)) Hin2) as Hf. destruct (_ !! s_id s) as [[sn m]|]; injection Hf as <- <-; done. }
  unfold find_product. split; [|split; [|split; [|split; [|split; [|split]]]]].
  - intros v pid name Hin Hz Hp. cbn [m_vendor database]. rewrite find_vendor by done. f_equal. rewrite (find_kept _ pid name); [done|apply (Hv v Hin)|done|done].
  - intros v pid Hin Hp. cbn [m_vendor database]. rewrite find_vendor by done. by rewrite find_not_kept.
  - intros vid pid Hn. cbn [m_vendor database]. by rewrite find_no_vendor.
  - intros c s prot name Hin Hin2 Hz Hp. rewrite Hfind by done. rewrite (find_kept _ prot name); [done|apply (Hs c s Hin Hin2)|done|done].
  - intros c s prot Hin Hin2 Hp. rewrite Hfind by done. by rewrite find_not_kept.
  - intros c sub prot Hin Hp. unfold find_class_subclass_proto. cbn [m_class database]. rewrite find_class by done. by rewrite find_no_subclass.
  - intros cls sub prot Hn. unfold find_class_subclass_proto. cbn [m_class database]. by rewrite find_no_class.
Qed.

(** ** strings.cpp of the command line tool *)

Definition get_speed_str (speed : Z) : list byte :=
  if (0 <=? speed) && (speed <? 4) then
    nth (Z.to_nat speed) (map str ["Low Speed(1.5Mbps)"; "Full Speed(12Mbps)"; "High Speed(480Mbps)"; "Super Speed(5000Mbps)"]%string) []
  else str "Unknown Speed"%string.

Definition or_else (s alt : list byte) : list byte := if bool_decide (s = []) then alt else s.

Definition get_product (m : ids) (vendor product : Z) : list byte :=
  let '(vend, prod) := find_product m vendor product in
  or_else vend (str "unknown vendor"%string) ++ str " : "%string ++ or_else prod (str "unknown product"%string) ++
  str " ("%string ++ hex4 vendor ++ str ":"%string ++ hex4 product ++ str ")"%string.

Definition get_class (m : ids) (class_ subclass protocol : Z) : list byte :=
  if negb (negb (class_ =? 0) && negb (subclass =? 0) && negb (protocol =? 0)) then str "(Defined at Interface level) (00/00/00)"%string
  else
    let '(c, s, p) := find_class_subclass_proto m class_ subclass protocol in
    let q := str "?"%string in let sep := str "/"%string in
    or_else c q ++ sep ++ or_else s q ++ sep ++ or_else p q ++
    str " ("%string ++ hex2 class_ ++ sep ++ hex2 subclass ++ sep ++ hex2 protocol ++ str ")"%string.

(** ** Witnesses *)

Module Demo.
Definition wacom : vendor := {| v_id := 0x056a; v_name := str "Wacom"%string; v_products := [(0, str "PenPartner"%string); (0x10, str "Graphire"%string)] |}.
Definition storage : usb_class :=
  {| c_id := 8; c_name := str "Mass Storage"%string;
     c_subclasses := [{| s_id := 6; s_name := str "SCSI"%string; s_protocols := [(0x50, str "Bulk-Only"%string)] |}] |}.
Definition hub : usb_class :=
  {| c_id := 9; c_name := str "Hub"%string;
     c_subclasses := [{| s_id := 0; s_name := str "Unused"%string; s_protocols := [(0, str "Full speed"%string); (1, str "Single TT"%string)] |}] |}.
Definition remark : list byte := str "# a remark"%string.

(** With a comment and an empty line among the entries. *)
Definition lines1 : list (list byte) := [remark; vendor_line wacom; remark] ++ map product_line (v_products wacom).
Definition lines2 : list (list byte) := class_lines storage ++ [] :: class_lines hub.

Lemma remark_ok : comment_ok remark.
Proof.
  right. eexists. split; [reflexivity|]. split; [unfold line_ok; apply (bool_decide_unpack _); vm_compute; exact I|]. split; vm_compute; discriminate.
Qed.

Lemma lines_commented : commented lines1 ([wacom] ≫= vendor_lines) /\ commented lines2 ([storage; hub] ≫= class_lines).
Proof.
  split.
  - change ([wacom] ≫= vendor_lines) with ((vendor_line wacom :: map product_line (v_products wacom)) ++ []). rewrite app_nil_r.
    apply comment_line, entry_line, comment_line, commented_refl; exact remark_ok.
  - change ([storage; hub] ≫= class_lines) with (class_lines storage ++ class_lines hub ++ []). rewrite app_nil_r.
    apply commented_app, comment_line, commented_refl. by left.
Qed.

Lemma line_ok_decided l : bool_decide (x0a ∉ l) = true -> line_ok l.
Proof. intros H. by apply bool_decide_eq_true in H. Qed.

Lemma parts_ok : vendor_ok wacom /\ Forall class_ok [storage; hub].
Proof.
  split; [|repeat constructor]; cbn; try done; try lia; repeat constructor; cbn; try done; try lia;
    try (apply line_ok_decided; vm_compute; reflexivity); try (apply (bool_decide_unpack _); vm_compute; exact I).
Qed.

(** The names are found, but for those of the product zero and the subclass zero. *)
Lemma names_found_witness : exists m, load (db_text lines1 lines2 []) = Some m /\
  find_product m 0x056a 0x10 = (str "Wacom"%string, str "Graphire"%string) /\ find_product m 0x056a 0 = (str "Wacom"%string, []) /\
  find_class_subclass_proto m 8 6 0x50 = (str "Mass Storage"%string, str "SCSI"%string, str "Bulk-Only"%string) /\
  find_class_subclass_proto m 9 0 1 = (str "Hub"%string, [], str "Single TT"%string).
Proof.
  destruct parts_ok as [H1 H2]. destruct lines_commented as [H3 H4].
  destruct (names_found lines1 [wacom] lines2 [storage; hub] [] H3 H4 ltac:(by constructor) ltac:(repeat constructor; set_solver)
    H2 ltac:(apply (bool_decide_unpack _); vm_compute; exact I)) as (m & Hm & Hp & Hpz & _ & Hc & _).
  exists m. split; [exact Hm|]. split; [|split; [|split]].
  - apply (Hp wacom 0x10); [by left|done|right; by left].
  - apply (Hpz wacom 0); [by left|by left].
  - apply (Hc storage {| s_id := 6; s_name := str "SCSI"%string; s_protocols := [(0x50, str "Bulk-Only"%string)] |}); [by left|by left|done|by left].
  - apply (Hc hub {| s_id := 0; s_name := str "Unused"%string; s_protocols := [(0, str "Full speed"%string); (1, str "Single TT"%string)] |});
      [right; by left|by left|done|right; by left].
Defined.

(** Products, subclasses and protocols with the identifier zero, of which usb.ids has several, are not found. *)
Lemma zero_not_found : exists m, load (db_text lines1 lines2 []) = Some m /\
  find_product m 0x56a 0 = (str "Wacom"%string, []) /\ find_class_subclass_proto m 9 0 0 = (str "Hub"%string, [], []).
Proof.
  destruct (load _) as [m|] eqn:H; [|exfalso; revert H; vm_compute; discriminate]. exists m. split; [done|]. revert H. vm_compute. by intros [= <-].
Qed.

(** A hub, whose subclass is zero, is shown as a device that leaves its class to the interfaces. *)
Lemma hub_class_not_shown m : get_class m 9 0 1 = get_class m 0 0 0.
Proof. done. Qed.

(** A line that ends early at the end of the text makes the parser read past it. *)
Lemma short_line_overruns : load (str "12"%string) = None.
Proof. vm_compute. reflexivity. Qed.
End Demo.
