(* ===== verification/Client.v ===== *)
(** * The user-space library

    userspace/libusbip/src/vhci.cpp and device_speed.cpp: what applications call, down to the
    IOCTLs of the driver.  The driver behind a handle is an interface, [DeviceIoControl]; [driver_control] is the I/O manager with the handlers of
    the controller behind it.  Listing the imported devices is proved against it here. *)

From stdpp Require Import strings.
From S2P Require Import Prelude Parser DescPatch Policy Session Filter Vhci Events Attach Device Ioctl Controller.

(** ** Errors: GetLastError() *)

Inductive win_error : Type :=
| ERROR_SUCCESS | ERROR_FILE_NOT_FOUND | ERROR_HANDLE_EOF | ERROR_INVALID_PARAMETER | ERROR_SEM_TIMEOUT
| ERROR_INSUFFICIENT_BUFFER | ERROR_MORE_DATA | ERROR_NOT_FOUND | ERROR_NO_MATCH
| WSAHOST_NOT_FOUND | WSAETIMEDOUT
| Usbip (st : ntstatus)            (* a USBIP_ERROR code of the driver *)
| USBIP_ERROR_DRIVER_RESPONSE
| WinError (code : positive).

#[global] Instance win_error_eq_dec : EqDecision win_error.
Proof. solve_decision. Defined.

Definition map_attach_error (err : win_error) : win_error :=
  match err with
  | ERROR_NOT_FOUND | ERROR_NO_MATCH => WSAHOST_NOT_FOUND
  | ERROR_SEM_TIMEOUT => WSAETIMEDOUT
  | err => err
  end.

(** ** Data of the library (libusbip/vhci.h) *)

Record device_location : Type := { hostname : list byte; service : list byte; busid : list byte }.

Inductive usb_speed : Type := UsbLowSpeed | UsbFullSpeed | UsbHighSpeed | UsbSuperSpeed.

Record imported_device : Type := {
  location : device_location; port : Z; devid : Z; speed : usb_speed;
  vendor : Z; product : Z; serial : list byte }.

Record device_state : Type := { ds_device : imported_device; ds_state : Z; ds_source : Z }.

Record attach_args : Type := { aa_location : device_location; aa_serial : list byte; aa_once : bool }.

Inductive filter_mode : Type := disabled | whitelist.

Record device_filter_policy : Type := { mode : filter_mode; entries : list device_filter_entry }.

(** win_speed; a number outside of the enumeration is taken for a slow device. *)
Definition win_speed (s : Z) : usb_speed :=
  if (s =? USB_SPEED_SUPER_PLUS) || (s =? USB_SPEED_SUPER) then UsbSuperSpeed
  else if (s =? USB_SPEED_WIRELESS) || (s =? USB_SPEED_HIGH) then UsbHighSpeed
  else if s =? USB_SPEED_FULL then UsbFullSpeed
  else UsbLowSpeed.

(** ** Strings *)

Definition get_device_serial_maxlen : Z := Z.of_nat SERIAL_BUFSZ - 1.

Definition validate_device_serial (s : list byte) : bool :=
  let sz := Z.of_nat (length s) in
  (sz <=? get_device_serial_maxlen) && (let len := is_ascii_alnum s in (0 <=? len) && (len =? sz)).

(** generate_device_serial: [dist] are the numbers drawn, 0 to 61. *)
Definition serial_chars : list byte :=
  map (fun n => z2b (97 + Z.of_nat n)) (seq 0 26) ++ map (fun n => z2b (65 + Z.of_nat n)) (seq 0 26) ++
  map (fun n => z2b (48 + Z.of_nat n)) (seq 0 10).

Definition generate_device_serial (dist : nat -> nat) : option (list byte) :=
  mapM (fun i => serial_chars !! dist i) (seq 0 (Z.to_nat get_device_serial_maxlen)).

(** strncpy_s into a zeroed array: the characters up to a terminator and a terminator,
    [None] when there is no room. *)
Definition strncpy_s (dst src : list byte) : option (list byte) :=
  let str := c_string src in
  if (length str <? length dst)%nat then Some (str ++ x00 :: drop (length str + 1) dst) else None.

(** ** Filling the requests *)

Definition sizeof_plugin : Z := 1116.

Definition zero_plugin : plugin_hardware :=
  {| ph_size := sizeof_plugin; ph_location := zero_location; ph_serial := replicate SERIAL_BUFSZ x00 |}.

(** assign(plugin_hardware&, serial) *)
Definition assign_serial (r : plugin_hardware) (s : list byte) : win_error * plugin_hardware :=
  let set buf := {| ph_size := ph_size r; ph_location := ph_location r; ph_serial := buf |} in
  if negb (validate_device_serial s) then
    (Usbip USBIP_ERROR_SERIAL_NUMBER, set (write_at 0 [x00] (ph_serial r)))
  else
    match strncpy_s (ph_serial r) s with
    | Some buf => (ERROR_SUCCESS, set buf)
    | None => (Usbip USBIP_ERROR_SERIAL_NUMBER, r)
    end.

(** assign(imported_device_location&, device_location) *)
Definition assign_location (dst : imported_device_location) (src : device_location)
  : win_error * imported_device_location :=
  match strncpy_s (loc_busid dst) (busid src) with
  | None => (ERROR_INVALID_PARAMETER, dst)
  | Some b =>
      let dst := {| loc_port := loc_port dst; loc_busid := b; loc_service := loc_service dst; loc_host := loc_host dst |} in
      match strncpy_s (loc_service dst) (service src) with
      | None => (ERROR_INVALID_PARAMETER, dst)
      | Some s =>
          let dst := {| loc_port := loc_port dst; loc_busid := loc_busid dst; loc_service := s; loc_host := loc_host dst |} in
          match strncpy_s (loc_host dst) (hostname src) with
          | None => (ERROR_INVALID_PARAMETER, dst)
          | Some h =>
              (ERROR_SUCCESS,
               {| loc_port := loc_port dst; loc_busid := loc_busid dst; loc_service := loc_service dst; loc_host := h |})
          end
      end
  end.

(** assign(plugin_hardware&, attach_args) *)
Definition assign_args (r : plugin_hardware) (args : attach_args) : win_error * plugin_hardware :=
  let '(err, r) := assign_serial r (aa_serial args) in
  match err with
  | ERROR_SUCCESS =>
      let '(err, loc) := assign_location (ph_location r) (aa_location args) in
      (err, {| ph_size := ph_size r; ph_location := loc; ph_serial := ph_serial r |})
  | err => (err, r)
  end.

(** The structures in memory, with the padding after host. *)
Definition plugin_bytes (r : plugin_hardware) : list byte :=
  le_bytes 4 (ph_size r) ++ location_bytes (ph_location r) ++ replicate 3 x00 ++ ph_serial r.

(** stop_attach_attempts: base, imported_device_location, count *)
Definition stop_bytes (loc : imported_device_location) (count : Z) : list byte :=
  le_bytes 4 sizeof_stop_attach_attempts ++ location_bytes loc ++ replicate 3 x00 ++ le_bytes 4 count.

(** ** Reading the answers *)

(** A std::string of a buffer, cut at the terminator or at its end. *)
Definition make_device_location (src : imported_device_location) : device_location :=
  {| hostname := c_string (loc_host src); service := c_string (loc_service src); busid := c_string (loc_busid src) |}.

Definition make_imported_device (l : imported_device_location) (p : imported_device_properties) : imported_device :=
  {| location := make_device_location l; port := loc_port l; devid := Vhci.devid p; speed := win_speed (Vhci.speed p);
     vendor := Vhci.vendor p; product := Vhci.product p; serial := c_string (Vhci.serial p) |}.

(** make_imported_devices of the first [n] elements of the array in [buf]. *)
Definition make_imported_devices (n : nat) (buf : list byte) : list imported_device :=
  map (fun i => make_imported_device (location_at (entry_offset i) buf) (properties_at (entry_offset i + 1096) buf)) (seq 0 n).

(** get_device_state of the bytes read from the device: size, imported_device, state, source_id *)
Definition get_device_state (data : list byte) : win_error * option device_state :=
  if negb (Z.of_nat (length data) =? sizeof_device_state) then (ERROR_INVALID_PARAMETER, None)
  else if negb (Policy.field 0 4 data =? sizeof_device_state) then (Usbip USBIP_ERROR_ABI, None)
  else
    (ERROR_SUCCESS,
     Some {| ds_device := make_imported_device (location_at 4 data) (properties_at 1100 data);
             ds_state := s32 (Policy.field 1132 4 data); ds_source := Policy.field 1136 4 data |}).

(** ** Calls of the driver *)

(** What DeviceIoControl leaves: whether it succeeded, GetLastError(), the caller's output
    buffer and the number of bytes returned. *)
Record call_result : Type := { cr_ok : bool; cr_error : win_error; cr_out : list byte; cr_bytes : Z }.

Section client.
Context {D : Type} (DeviceIoControl : D -> code -> list byte -> list byte -> option (call_result * D)).

(** vector::resize *)
Definition resize {A} (zero : A) (n : nat) (l : list A) : list A := take n l ++ replicate (n - length l) zero.

(** *** Imported devices *)

(** The loop that doubles the buffer; [fuel] attempts. *)
Fixpoint imported_devices_loop (fuel : nat) (cnt : nat) (buf : list byte) (s : D)
  : option (win_error * list byte * D) :=
  match fuel with
  | O => None
  | S fuel =>
      let buf := write_at 0 (le_bytes 4 sizeof_get_imported_devices) (resize x00 (entry_offset cnt) buf) in
      '(r, s) ← DeviceIoControl s GET_IMPORTED_DEVICES (take 4 buf) buf;
      if cr_ok r then
        if cr_bytes r <? imported_devices_offset then Some (USBIP_ERROR_DRIVER_RESPONSE, cr_out r, s)
        else Some (ERROR_SUCCESS, resize x00 (Z.to_nat (cr_bytes r)) (cr_out r), s)
      else
        match cr_error r with
        | ERROR_INSUFFICIENT_BUFFER => imported_devices_loop fuel (2 * cnt) (cr_out r) s
        | err => Some (err, cr_out r, s)
        end
  end.

Definition get_imported_devices (fuel : nat) (s : D) : option (win_error * option (list imported_device) * D) :=
  '(err, buf, s) ← imported_devices_loop fuel 4 [] s;
  match err with
  | ERROR_SUCCESS =>
      let devices_size := Z.of_nat (length buf) - imported_devices_offset in
      if negb (devices_size mod sizeof_imported_device =? 0) then Some (USBIP_ERROR_DRIVER_RESPONSE, None, s)
      else
        let cnt := Z.to_nat (devices_size / sizeof_imported_device) in
        Some (ERROR_SUCCESS, Some (make_imported_devices cnt buf), s)
  | err => Some (err, None, s)
  end.

(** *** The filter policy *)

Fixpoint device_filter_loop (fuel : nat) (cnt : nat) (buf : list byte) (s : D)
  : option (win_error * list byte * D) :=
  match fuel with
  | O => None
  | S fuel =>
      let buf := write_at 0 (le_bytes 4 sizeof_device_filter) (resize x00 (12 + 4 * cnt) buf) in
      '(r, s) ← DeviceIoControl s GET_DEVICE_FILTER (take 4 buf) buf;
      if cr_ok r then
        if cr_bytes r <? device_filter_entries_offset then Some (USBIP_ERROR_DRIVER_RESPONSE, cr_out r, s)
        else Some (ERROR_SUCCESS, resize x00 (Z.to_nat (cr_bytes r)) (cr_out r), s)
      else
        match cr_error r with
        | ERROR_INSUFFICIENT_BUFFER => device_filter_loop fuel (2 * cnt) (cr_out r) s
        | err => Some (err, cr_out r, s)
        end
  end.

Definition get_device_filter (fuel : nat) (s : D) : option (win_error * option device_filter_policy * D) :=
  '(err, buf, s) ← device_filter_loop fuel 16 [] s;
  match err with
  | ERROR_SUCCESS =>
      let avail := (Z.of_nat (length buf) - device_filter_entries_offset) / entry_size in
      let cnt := Z.min (Policy.field 8 4 buf) avail in
      Some (ERROR_SUCCESS,
            Some {| mode := if bool_decide (nth 4 buf x00 = disabled_byte) then disabled else whitelist;
                    entries := entries_of_bytes (Z.to_nat cnt) (drop 12 buf) |}, s)
  | err => Some (err, None, s)
  end.

(** The buffer of SET_DEVICE_FILTER; it has room for one entry at least. *)
Definition device_filter_bytes (p : device_filter_policy) : list byte :=
  le_bytes 4 sizeof_device_filter ++
  [match mode p with disabled => disabled_byte | whitelist => whitelist_byte end; x00; x00; x00] ++
  le_bytes 4 (Z.of_nat (length (entries p))) ++ concat (map entry_bytes (entries p)) ++
  (if bool_decide (entries p = []) then replicate 4 x00 else []).

Definition set_device_filter (p : device_filter_policy) (s : D) : option (win_error * bool * D) :=
  if (MAX_DEVICE_FILTER_ENTRIES <? length (entries p))%nat then Some (ERROR_INVALID_PARAMETER, false, s)
  else
    let needed := device_filter_entries_offset + Z.of_nat (length (entries p)) * entry_size in
    let inlen := if needed <? sizeof_device_filter then sizeof_device_filter else needed in
    '(r, s) ← DeviceIoControl s SET_DEVICE_FILTER (take (Z.to_nat inlen) (device_filter_bytes p)) [];
    Some (cr_error r, cr_ok r, s).

(** *** Attaching and detaching *)

(** attach: the port, or zero. *)
Definition attach (args : attach_args) (s : D) : option (win_error * Z * D) :=
  let '(err, r) := assign_args zero_plugin args in
  match err with
  | ERROR_SUCCESS =>
      let ctl := if aa_once args then PLUGIN_HARDWARE_ONCE else PLUGIN_HARDWARE in
      '(res, s) ← DeviceIoControl s ctl (plugin_bytes r) (take 8 (plugin_bytes r));
      if cr_ok res then
        if negb (cr_bytes res =? plugin_written) then Some (map_attach_error USBIP_ERROR_DRIVER_RESPONSE, 0, s)
        else Some (ERROR_SUCCESS, s32 (Policy.field 4 4 (cr_out res)), s)
      else Some (map_attach_error (cr_error res), 0, s)
  | err => Some (err, 0, s)
  end.

(** stop_attach_attempts: the number of cancelled requests, or -1; [assign] returns an
    error code, and the code takes a zero for a failure. *)
Definition stop_attach_attempts (loc : option device_location) (s : D) : option (win_error * Z * D) :=
  let '(err, dst) := match loc with Some l => assign_location zero_location l | None => (ERROR_INVALID_PARAMETER, zero_location) end in
  if bool_decide (is_Some loc) && bool_decide (err = ERROR_SUCCESS) then Some (ERROR_INVALID_PARAMETER, -1, s)
  else
    let buf := stop_bytes dst 0 in
    '(r, s) ← DeviceIoControl s STOP_ATTACH_ATTEMPTS buf buf;
    if negb (cr_ok r) then Some (cr_error r, -1, s)
    else if negb (cr_bytes r =? sizeof_stop_attach_attempts) then Some (USBIP_ERROR_DRIVER_RESPONSE, -1, s)
    else Some (ERROR_SUCCESS, s32 (Policy.field 1100 4 (cr_out r)), s).

Definition detach (port : Z) (s : D) : option (win_error * bool * D) :=
  '(r, s) ← DeviceIoControl s PLUGOUT_HARDWARE (le_bytes 4 sizeof_plugout_hardware ++ le_bytes 4 port) [];
  Some (cr_error r, cr_ok r, s).
End client.

(** ** The I/O manager and the driver behind a handle *)

(** RtlNtStatusToDosError on the statuses the library looks at. *)
Class DosErrors (dos_error : ntstatus -> win_error) : Prop := {
  dos_too_small : dos_error STATUS_BUFFER_TOO_SMALL = ERROR_INSUFFICIENT_BUFFER;
  dos_overflow : dos_error STATUS_BUFFER_OVERFLOW = ERROR_MORE_DATA }.

Section io_manager.
Context (dos_error : ntstatus -> win_error) (junk : nat -> list byte).

(** METHOD_BUFFERED: one buffer for the input and the output of a request, of the larger of
    the two lengths; past the input it holds what the pool held. *)
Definition system_buffer (inb out : list byte) : list byte :=
  inb ++ drop (length inb) (junk (Nat.max (length inb) (length out))).

Definition make_request (r : request) (c : code) (inb out : list byte) : ioctl :=
  {| io_request := r; io_code := c; io_buf := system_buffer inb out; io_in := length inb; io_out := length out |}.

(** Completion: Information bytes are copied unless the status is an error; more of them than
    the caller's buffer has is memory corruption. *)
Definition io_complete (out : list byte) (rp : reply) : option call_result :=
  let st := rp_status rp in
  if NT_ERROR st then Some {| cr_ok := false; cr_error := dos_error st; cr_out := out; cr_bytes := 0 |}
  else if Z.of_nat (length out) <? rp_info rp then None
  else
    let n := Z.to_nat (rp_info rp) in
    Some {| cr_ok := NT_SUCCESS st; cr_error := dos_error st; cr_out := take n (rp_buf rp) ++ drop n out;
            cr_bytes := rp_info rp |}.

Context {W : Type} `{Wdf W} `{AttachWdf W} `{Udecx W} `{Controller W}.
Context {R : Type} `{Policy.Registry R} {K : Type} `{PersistentKey K}.
Context (unicode_to_utf8 : nat -> list Z -> ntstatus * list byte).
Context (utf8_to_unicode_n : list byte -> ntstatus * list Z).
Context (hash_string : list Z -> ntstatus * Z) (pool : Z -> bool).
Context (source_of : device -> Z) (wi_source : request -> Z).
Context (stack pad : list byte).

(** The driver's state; [new_request] gives the handles of new requests. *)
Record driver : Type := { d_world : world W; d_reg : R; d_key : K }.

Context (new_request : world W -> request).

(** A request of an application: the parallel queue first, the default queue when it is
    forwarded; [None] for those that are not answered by their handler. *)
Definition driver_control (s : driver) (c : code) (inb out : list byte) : option (call_result * driver) :=
  let w := d_world s in
  let q := make_request (new_request w) c inb out in
  res ← device_control_parallel unicode_to_utf8 utf8_to_unicode_n hash_string pool w (d_reg s) (d_key s) stack pad q;
  let '(h, w, reg, key) := res in
  match h with
  | Replied rp => cr ← io_complete out rp; Some (cr, {| d_world := w; d_reg := reg; d_key := key |})
  | Forwarded =>
      res ← device_control unicode_to_utf8 utf8_to_unicode_n hash_string pool source_of wi_source w q (new_request w);
      match res with
      | (Replied rp, w) => cr ← io_complete out rp; Some (cr, {| d_world := w; d_reg := reg; d_key := key |})
      | _ => None
      end
  | Working _ => None
  end.
End io_manager.

(** ** Lemmas: calls and buffers *)

Lemma length_resize {A} (z : A) n l : length (resize z n l) = n.
Proof. unfold resize. rewrite length_app, length_take, length_replicate. lia. Qed.

Lemma resize_le {A} (z : A) n l : (n <= length l)%nat -> resize z n l = take n l.
Proof. intros. unfold resize. replace (n - length l)%nat with 0%nat by lia. apply app_nil_r. Qed.

Lemma take_write_prefix (a b buf : list byte) : take (length a) (write_at 0 (a ++ b) buf) = a.
Proof. unfold write_at. simpl. rewrite <- app_assoc. apply take_app_length. Qed.

Lemma take_write_head (bs buf : list byte) : take (length bs) (write_at 0 bs buf) = bs.
Proof. unfold write_at. simpl. apply take_app_length. Qed.

Lemma field_write_head z buf : is_u32 z -> Policy.field 0 4 (write_at 0 (le_bytes 4 z) buf) = z.
Proof.
  intros Hz. unfold Policy.field. rewrite drop_0. rewrite <- (length_le_bytes 4 z) at 1.
  rewrite take_write_head, le_val_le_bytes. apply Z.mod_small, Hz.
Qed.

(** *** Serial numbers *)

Lemma is_ascii_alnum_loop_zeros s n i : 0 <= i ->
  is_ascii_alnum_loop i s = i + Z.of_nat (length s) -> x00 ∉ s ->
  is_ascii_alnum_loop i (s ++ replicate n x00) = i + Z.of_nat (length s).
Proof.
  revert i. induction s as [|b s IH]; intros i Hi Hs Hz.
  - destruct n; simpl; lia.
  - cbn [is_ascii_alnum_loop app length] in *. apply not_elem_of_cons in Hz as [Hb Hz].
    destruct (Z.eqb_spec (b2z b) 0) as [He|_]; [exfalso; apply Hb; symmetry; by apply b2z_inj|].
    destruct (_ || _); [|lia]. rewrite IH; auto; lia.
Qed.

Lemma is_ascii_alnum_loop_nul s i : 0 <= i -> is_ascii_alnum_loop i s = i + Z.of_nat (length s) -> x00 ∉ s.
Proof.
  revert i. induction s as [|b s IH]; intros i Hi Hs; [apply not_elem_of_nil|].
  cbn [is_ascii_alnum_loop length] in Hs. destruct (Z.eqb_spec (b2z b) 0) as [He|He]; [lia|].
  destruct (_ || _); [|lia]. apply not_elem_of_cons. split; [intros Hb; apply He; by rewrite <- Hb|]. apply (IH (i + 1)); lia.
Qed.

Lemma valid_serial s : validate_device_serial s = true ->
  (length s <= 15)%nat /\ (x00 ∉ s) /\ validate_serial_number (s ++ replicate (16 - length s) x00) = STATUS_SUCCESS.
Proof.
  unfold validate_device_serial, get_device_serial_maxlen, is_ascii_alnum. change (Z.of_nat SERIAL_BUFSZ - 1) with 15.
  intros [H1 [H2 H3]%andb_prop]%andb_prop. apply Z.leb_le in H1. apply Z.eqb_eq in H3.
  pose proof (is_ascii_alnum_loop_nul s 0 ltac:(lia) H3) as Hz. split; [lia|]. split; [done|].
  unfold validate_serial_number, is_ascii_alnum. rewrite is_ascii_alnum_loop_zeros by (auto; lia).
  change (Z.of_nat SERIAL_BUFSZ) with 16. by replace ((0 <=? 0 + Z.of_nat (length s)) && (0 + Z.of_nat (length s) <? 16)) with true by lia.
Qed.

(** A generated serial number is always a valid one. *)
Lemma is_ascii_alnum_loop_serial s i : Forall (.∈ serial_chars) s -> is_ascii_alnum_loop i s = i + Z.of_nat (length s).
Proof.
  intros Hs. revert i. induction Hs as [|b s Hb Hs IH]; intros i; cbn [is_ascii_alnum_loop length]; [lia|].
  assert (Forall (fun b => (b2z b =? 0) = false /\
    (((b2z b <=? 122) && (97 <=? b2z b)) || ((b2z b <=? 90) && (65 <=? b2z b)) || ((b2z b <=? 57) && (48 <=? b2z b))) = true) serial_chars)
    as Hall by (repeat constructor).
  rewrite list.Forall_forall in Hall. destruct (Hall b Hb) as [-> ->]. rewrite IH. lia.
Qed.

Lemma generated_serial_valid (dist : nat -> nat) :
  (forall i, (dist i < 62)%nat) ->
  exists s, generate_device_serial dist = Some s /\ length s = 15%nat /\ validate_device_serial s = true.
Proof.
  intros Hd. destruct (mapM_is_Some_2 (fun i => serial_chars !! dist i) (seq 0 15)) as [s Hs].
  { apply list.Forall_forall. intros i _. by apply lookup_lt_is_Some_2. }
  exists s. split; [exact Hs|]. pose proof (length_mapM _ _ _ Hs) as Hl. rewrite length_seq in Hl. split; [done|].
  apply mapM_Some_1 in Hs. unfold validate_device_serial, is_ascii_alnum. rewrite is_ascii_alnum_loop_serial.
  - rewrite <- Hl. done.
  - apply list.Forall_forall. intros b [i Hb]%list_elem_of_lookup. destruct (Forall2_lookup_r _ _ _ _ _ Hs Hb) as (x & _ & Hx).
    by apply list_elem_of_lookup_2 in Hx.
Qed.

(** *** Calls *)

Section calls.
Context (dos_error : ntstatus -> win_error) `{!DosErrors dos_error} (junk : nat -> list byte).
Context (junk_length : forall n, length (junk n) = n).

Lemma length_system_buffer inb out : length (system_buffer junk inb out) = Nat.max (length inb) (length out).
Proof. unfold system_buffer. rewrite length_app, length_drop, junk_length. lia. Qed.

Lemma take_system_buffer inb out n : (n <= length inb)%nat -> take n (system_buffer junk inb out) = take n inb.
Proof. intros Hn. unfold system_buffer. by rewrite take_app_le. Qed.

Lemma io_complete_small out rp :
  rp_status rp = STATUS_BUFFER_TOO_SMALL ->
  io_complete dos_error out rp =
    Some {| cr_ok := false; cr_error := ERROR_INSUFFICIENT_BUFFER; cr_out := out; cr_bytes := 0 |}.
Proof. intros Hs. unfold io_complete. rewrite Hs. simpl. by rewrite dos_too_small. Qed.

Lemma io_complete_success out rp :
  rp_status rp = STATUS_SUCCESS -> 0 <= rp_info rp <= Z.of_nat (length out) ->
  io_complete dos_error out rp =
    Some {| cr_ok := true; cr_error := dos_error STATUS_SUCCESS;
            cr_out := take (Z.to_nat (rp_info rp)) (rp_buf rp) ++ drop (Z.to_nat (rp_info rp)) out; cr_bytes := rp_info rp |}.
Proof. intros Hs Hi. unfold io_complete. rewrite Hs. simpl. by replace (Z.of_nat (length out) <? rp_info rp) with false by lia. Qed.
End calls.

(** ** Listing the devices *)

Section listing.
Context {W : Type} `{Wdf W} `{AttachWdf W} `{Udecx W} `{Controller W}.
Context {R : Type} `{Policy.Registry R} {K : Type} `{PersistentKey K}.
Context (dos_error : ntstatus -> win_error) `{!DosErrors dos_error} (junk : nat -> list byte).
Context (junk_length : forall n, length (junk n) = n).
Context (unicode_to_utf8 : nat -> list Z -> ntstatus * list byte).
Context (utf8_to_unicode_n : list byte -> ntstatus * list Z).
Context (hash_string : list Z -> ntstatus * Z) (pool : Z -> bool).
Context (source_of : device -> Z) (wi_source : request -> Z) (stack pad : list byte) (new_request : world W -> request).

#[local] Abbreviation control := (driver_control dos_error junk unicode_to_utf8 utf8_to_unicode_n hash_string pool source_of wi_source
                       stack pad new_request).

(** What the library tells of a device, whose names the driver has as wide strings. *)
Record describes (i : imported_device) (c : device_ctx) : Prop := {
  de_host : unicode_to_utf8 1025 (node_name (attr c)) = (STATUS_SUCCESS, hostname (location i));
  de_service : unicode_to_utf8 32 (service_name (attr c)) = (STATUS_SUCCESS, service (location i));
  de_busid : unicode_to_utf8 32 (Vhci.busid (attr c)) = (STATUS_SUCCESS, busid (location i));
  de_port : port i = Vhci.port c;
  de_devid : devid i = Vhci.devid (properties (attr c));
  de_speed : speed i = win_speed (Vhci.speed (properties (attr c)));
  de_ids : vendor i = Vhci.vendor (properties (attr c)) /\ product i = Vhci.product (properties (attr c));
  de_serial : serial i = c_string (Vhci.serial (properties (attr c))) }.

(** The tables a listing reads. *)
Definition same_devices (w w' : world W) : Prop := vhci w' = vhci w /\ dev_ctx w' = dev_ctx w.

Definition listable (w : world W) : Prop :=
  ports_ok w /\ (forall c, c ∈ attached w -> properties_ok (properties (attr c))) /\
  Forall (reportable unicode_to_utf8) (attached w).

Lemma same_devices_listable w w' : same_devices w w' -> refs w' = refs w -> listable w -> listable w' /\ attached w' = attached w.
Proof.
  intros [Hv Hd] Hr (Hp & Hpr & Hrep). assert (attached w' = attached w) as Hat by (unfold attached, attached_in; by rewrite Hv, Hd).
  split; [|done]. unfold listable. rewrite Hat. split; [|done]. destruct Hp. by constructor; rewrite ?Hv, ?Hd, ?Hr.
Qed.

(** One call: too small, or the array of all devices. *)
Lemma list_call (s : driver) (cnt : nat) (buf : list byte) :
  listable (d_world s) -> (1 <= cnt)%nat -> length buf = entry_offset cnt -> Policy.field 0 4 buf = 1132 ->
  let n := length (attached (d_world s)) in
  exists r s', control s GET_IMPORTED_DEVICES (take 4 buf) buf = Some (r, s') /\
    same_devices (d_world s) (d_world s') /\ refs (d_world s') = refs (d_world s) /\ d_reg s' = d_reg s /\ d_key s' = d_key s /\
    length (cr_out r) = length buf /\
    if decide (n <= cnt)%nat then
      cr_ok r = true /\ cr_bytes r = Z.of_nat (entry_offset n) /\
      forall i c, attached (d_world s) !! i = Some c -> reports unicode_to_utf8 (take (entry_offset n) (cr_out r)) i c
    else cr_ok r = false /\ cr_error r = ERROR_INSUFFICIENT_BUFFER /\ cr_out r = buf.
Proof.
  intros (Hp & Hpr & Hrep) Hcnt Hlen Hsize n. unfold driver_control, device_control_parallel.
  cbn [make_request io_code get_parallel_handler]. set (q := make_request junk _ GET_IMPORTED_DEVICES (take 4 buf) buf).
  pose proof (entry_offset_Z cnt) as Hoff.
  destruct (get_imported_devices_ok unicode_to_utf8 (d_world s) q Hp Hpr) as (rp & -> & Hl & Hi & _ & Hs & Hst).
  { cbn [q make_request io_out io_buf]. rewrite length_system_buffer by done. lia. }
  { cbn [q make_request io_buf]. unfold Policy.field in *. rewrite drop_0 in *.
    rewrite take_system_buffer by (rewrite length_take; lia). by rewrite take_take. }
  cbn [mbind option_bind]. specialize (Hst Hrep). cbn [q make_request io_out] in Hst, Hi. fold n in Hst.
  pose proof (entry_offset_Z n) as Hn. case_decide as Hd.
  - assert (rp_status rp = STATUS_SUCCESS) as Hok
      by (rewrite Hst; by destruct (Z.ltb_spec (Z.of_nat (length buf)) (4 + 1128 * Z.of_nat n)); [lia|]).
    destruct (Hs Hok) as [Hinfo Hr]. fold n in Hinfo. rewrite io_complete_success by (auto; lia). cbn [mbind option_bind].
    eexists _, _. split; [reflexivity|]. cbn [d_world d_reg d_key cr_out cr_ok cr_bytes].
    assert (Z.to_nat (rp_info rp) = entry_offset n) as Hnat by lia.
    assert (entry_offset n <= length (rp_buf rp))%nat.
    { rewrite Hl. cbn [q make_request io_buf]. rewrite length_system_buffer by done. lia. }
    rewrite Hnat. split_and!; try done; [rewrite length_app, length_take, length_drop; lia|lia|].
    intros i c Hi'. rewrite take_app_length' by (rewrite length_take; lia).
    apply (reports_slice _ (rp_buf rp)); [|apply Hr; [done|]].
    + intros a k _ Ha. unfold slice. rewrite <- (take_drop (entry_offset n) (rp_buf rp)) at 2.
      apply lookup_lt_Some in Hi'. fold n in Hi'. pose proof (entry_offset_le (S i) n ltac:(lia)) as Hle.
      rewrite drop_app_le by (rewrite length_take; lia).
      rewrite take_app_le; [done|]. rewrite length_drop, length_take. lia.
    + rewrite Forall_lookup in Hrep. eauto.
  - assert (rp_status rp = STATUS_BUFFER_TOO_SMALL) as Hok
      by (rewrite Hst; destruct (Z.ltb_spec (Z.of_nat (length buf)) (4 + 1128 * Z.of_nat n)); [done|lia]).
    rewrite io_complete_small by done. cbn [mbind option_bind]. eexists _, _. split; [reflexivity|]. by split_and!.
Qed.

Lemma imported_devices_loop_ok fuel (s : driver) (cnt : nat) (buf : list byte) :
  listable (d_world s) -> (1 <= cnt)%nat -> let n := length (attached (d_world s)) in (n <= cnt * 2 ^ fuel)%nat ->
  exists buf' s', imported_devices_loop control (S fuel) cnt buf s = Some (ERROR_SUCCESS, buf', s') /\
    same_devices (d_world s) (d_world s') /\ d_reg s' = d_reg s /\ d_key s' = d_key s /\
    length buf' = entry_offset n /\
    forall i c, attached (d_world s) !! i = Some c -> reports unicode_to_utf8 buf' i c.
Proof.
  revert s cnt buf. induction fuel as [|fuel IH]; intros s cnt buf Hl Hcnt n Hn; cbn [imported_devices_loop].
  all: set (b := write_at 0 (le_bytes 4 sizeof_get_imported_devices) (resize x00 (entry_offset cnt) buf)).
  all: pose proof (entry_offset_Z cnt) as Hoff.
  all: assert (length b = entry_offset cnt) as Hb
    by (unfold b; rewrite length_write_at; rewrite length_resize; [done|rewrite length_le_bytes; lia]).
  all: destruct (list_call s cnt b Hl Hcnt Hb) as (r & s1 & -> & Hsame & Hrefs & Hreg & Hkey & Hout & Hres);
    [by apply field_write_head|].
  all: cbn [mbind option_bind]; fold n in Hres; pose proof (entry_offset_Z n) as HnZ.
  all: assert (cr_ok r = true -> cr_bytes r = Z.of_nat (entry_offset n) -> (n <= cnt)%nat ->
               (forall i c, attached (d_world s) !! i = Some c -> reports unicode_to_utf8 (take (entry_offset n) (cr_out r)) i c) ->
               exists buf' s', (if cr_bytes r <? imported_devices_offset then Some (USBIP_ERROR_DRIVER_RESPONSE, cr_out r, s1)
                 else Some (ERROR_SUCCESS, resize x00 (Z.to_nat (cr_bytes r)) (cr_out r), s1)) = Some (ERROR_SUCCESS, buf', s') /\
                 same_devices (d_world s) (d_world s') /\ d_reg s' = d_reg s /\ d_key s' = d_key s /\ length buf' = entry_offset n /\
                 forall i c, attached (d_world s) !! i = Some c -> reports unicode_to_utf8 buf' i c) as Hdone.
  1, 3: intros _ Hbytes Hle Hrep; rewrite Hbytes, Nat2Z.id; unfold imported_devices_offset;
    replace (Z.of_nat (entry_offset n) <? 4) with false by lia; pose proof (entry_offset_le n cnt Hle);
    rewrite resize_le by lia; eexists _, _; (split; [reflexivity|]); rewrite length_take; split_and!; auto; lia.
  - rewrite decide_True in Hres by (simpl in Hn; lia). destruct Hres as (Hok & Hbytes & Hrep). rewrite Hok.
    apply Hdone; auto. simpl in Hn. lia.
  - case_decide as Hd.
    + destruct Hres as (Hok & Hbytes & Hrep). rewrite Hok. by apply Hdone.
    + destruct Hres as (-> & -> & Hbuf). clear Hdone.
      destruct (same_devices_listable _ _ Hsame Hrefs Hl) as [Hl1 Hat]. simpl in Hn.
      destruct (IH s1 (2 * cnt)%nat (cr_out r) Hl1 ltac:(lia)) as (buf' & s2 & Hx & [Hs1 Hs2] & Hr2 & Hk2 & Hlen & Hrep).
      { rewrite Hat. fold n. lia. }
      exists buf', s2. split; [exact Hx|]. rewrite Hat in *. fold n in Hlen. destruct Hsame.
      split; [split; congruence|]. split_and!; auto; congruence.
Qed.

Lemma reports_describes buf i c :
  reports unicode_to_utf8 buf i c ->
  describes (make_imported_device (location_at (entry_offset i) buf) (properties_at (entry_offset i + 1096) buf)) c.
Proof. intros [Hp Hh Hs Hb Hpr]. unfold make_imported_device. rewrite Hpr. by constructor. Qed.

Lemma attached_bound (w : world W) : ports_ok w -> (length (attached w) <= 255)%nat.
Proof.
  intros Hp. assert (forall l, length (attached_in w l) <= length l)%nat as Hle.
  { unfold attached_in. induction l as [|o l IH]; simpl; [done|]. unfold omap in IH.
    destruct o as [d|]; simpl; [|lia]. destruct (dev_ctx w !! d); simpl; lia. }
  specialize (Hle (devices (vhci w))). unfold attached. pose proof (ports_ok_array w Hp). pose proof (hub_total _ (ports_hub w Hp)). lia.
Qed.

Lemma get_imported_devices_all (s : driver) (fuel : nat) :
  listable (d_world s) -> (7 <= fuel)%nat ->
  exists l s', get_imported_devices control fuel s = Some (ERROR_SUCCESS, Some l, s') /\
    Forall2 describes l (attached (d_world s)) /\ same_devices (d_world s) (d_world s') /\
    d_reg s' = d_reg s /\ d_key s' = d_key s.
Proof.
  intros Hl Hf. pose proof (attached_bound _ (proj1 Hl)) as Hn. destruct fuel as [|fuel]; [lia|].
  destruct (imported_devices_loop_ok fuel s 4 [] Hl) as (buf & s' & Hx & Hsame & Hr & Hk & Hlen & Hrep); [lia| |].
  { assert (2 ^ 6 <= 2 ^ fuel)%nat by (apply Nat.pow_le_mono_r; lia). simpl in *. lia. }
  unfold get_imported_devices. rewrite Hx. cbn [mbind option_bind].
  set (n := length (attached (d_world s))) in *. pose proof (entry_offset_Z n) as HnZ.
  replace (Z.of_nat (length buf) - imported_devices_offset) with (Z.of_nat n * sizeof_imported_device)
    by (unfold imported_devices_offset, sizeof_imported_device; lia).
  rewrite Z.mod_mul, Z.div_mul, Nat2Z.id by done. eexists _, s'. split; [reflexivity|]. split; [|done].
  apply Forall2_same_length_lookup. unfold make_imported_devices. rewrite length_map, length_seq. split; [done|].
  intros i d c Hd Hc. rewrite list_lookup_fmap in Hd. pose proof (lookup_lt_Some _ _ _ Hc) as Hi.
  rewrite lookup_seq_lt in Hd by done. injection Hd as <-. by apply reports_describes, Hrep.
Qed.

(** C23: asking for the imported devices ends, after seven calls of the driver at most, with exactly the
    devices that sit on the ports, in the order of the ports: names, port number, ids, speed and
    serial number are those of the driver's tables, which stay as they are. *)
Theorem listed_devices_are_attached (s : driver) (fuel : nat) :
  listable (d_world s) -> (7 <= fuel)%nat ->
  exists l s', get_imported_devices control fuel s = Some (ERROR_SUCCESS, Some l, s') /\
    Forall2 describes l (attached (d_world s)) /\ same_devices (d_world s) (d_world s') /\
    d_reg s' = d_reg s /\ d_key s' = d_key s.
Proof. apply get_imported_devices_all. Qed.
End listing.

(** ** Examples *)
#[local] Existing Instance Events.Demo.framework.
#[local] Existing Instance Events.Demo.framework_laws.
#[local] Existing Instance Attach.Demo.requests.
#[local] Existing Instance Ioctl.Demo.framework.
#[local] Existing Instance Ioctl.Demo.persistent_key.
#[local] Existing Instance Controller.Demo.usb_stack.

Module Demo.

Definition dos_error (st : ntstatus) : win_error :=
  if bool_decide (st = STATUS_SUCCESS) then ERROR_SUCCESS
  else if bool_decide (st = STATUS_BUFFER_TOO_SMALL) then ERROR_INSUFFICIENT_BUFFER
  else if bool_decide (st = STATUS_BUFFER_OVERFLOW) then ERROR_MORE_DATA
  else WinError 31.

#[local] Instance dos_errors : DosErrors dos_error.
Proof. by constructor. Qed.

Definition junk (n : nat) : list byte := replicate n x55.

Lemma junk_length n : length (junk n) = n.
Proof. apply length_replicate. Qed.

(** A handle above all those in use. *)
Definition used (w : world unit) : list request :=
  reads (vhci w) ++ completed_requests w ++ reattach_req (vhci w) ++ map fst (map_to_list (Vhci.attach w)).

Definition new_request (w : world unit) : request := (fold_right Pos.max 1 (used w) + 1)%positive.

Lemma new_request_unused w : new_request w ∉ used w.
Proof.
  unfold new_request. assert (forall l x, x ∈ l -> (x <= fold_right Pos.max 1 l)%positive) as Hle.
  { induction l as [|y l IH]; intros x Hx; [by apply elem_of_nil in Hx|]. apply elem_of_cons in Hx as [->|Hx]; simpl; [lia|].
    specialize (IH x Hx). lia. }
  intros Hx%Hle. lia.
Qed.

Lemma new_request_fresh w :
  fresh w (new_request w) /\ Vhci.attach w !! new_request w = None /\ (new_request w ∉ reattach_req (vhci w)).
Proof.
  pose proof (new_request_unused w) as Hu. unfold used in Hu. unfold fresh.
  apply not_elem_of_app in Hu as [H1 Hu]. apply not_elem_of_app in Hu as [H2 Hu]. apply not_elem_of_app in Hu as [H3 H4].
  split; [by apply not_elem_of_app|]. split; [|done]. destruct (Vhci.attach w !! new_request w) as [c|] eqn:E; [|done]. exfalso. apply H4.
  apply elem_of_map_to_list in E. apply (list_elem_of_fmap_2 fst) in E. exact E.
Qed.

(** The driver with one stick attached and a policy that admits storage. *)
Definition stick_driver (w : world unit) : driver (W := unit) (R := one_value_registry) (K := list byte) :=
  {| d_world := w; d_reg := storage_registry; d_key := [] |}.

Definition control :=
  driver_control (R := one_value_registry) (K := list byte) dos_error junk Events.Demo.utf8 Controller.Demo.to_unicode
    Attach.Demo.hash_string (fun _ => true) (fun _ => 9) (fun _ => 8) (replicate 268 x55) [x00; x00; x00] new_request.

Lemma claimed_listable : listable Events.Demo.utf8 Ioctl.Demo.claimed.
Proof.
  split; [exact Ioctl.Demo.claimed_ok|]. split; [exact Ioctl.Demo.claimed_properties|exact Ioctl.Demo.claimed_reportable].
Qed.

Lemma listed_devices_are_attached_witness :
  exists l s', get_imported_devices control 7 (stick_driver Ioctl.Demo.claimed) = Some (ERROR_SUCCESS, Some l, s') /\
    map port l = [3] /\ map devid l = [65538] /\ map (fun i => busid (location i)) l = [[x31; x2d; x31]].
Proof.
  destruct (listed_devices_are_attached dos_error junk junk_length Events.Demo.utf8 Controller.Demo.to_unicode Attach.Demo.hash_string
              (fun _ => true) (fun _ => 9) (fun _ => 8) (replicate 268 x55) [x00; x00; x00] new_request
              (stick_driver Ioctl.Demo.claimed) 7 claimed_listable (le_n 7)) as (l & s' & Hx & Hl & _).
  exists l, s'. split; [exact Hx|]. cbn [stick_driver d_world] in Hl. rewrite Ioctl.Demo.attached_claimed in Hl.
  inversion Hl as [|i c ? ? Hd Hn]; subst. inversion Hn; subst. destruct Hd as [_ _ Hb Hp Hdv _ _ _].
  assert (busid (location i) = [x31; x2d; x31]) as Hbus by (symmetry; exact (f_equal snd Hb)).
  cbn [map]. rewrite Hp, Hdv, Hbus. split; [reflexivity|]. split; reflexivity.
Defined.
End Demo.
