(* ===== verification/FilterCmd.v ===== *)
(** * The filter command

    cmd_filter of userspace/usbip/filter.cpp on top of the library: the categories of device
    types, the policy a command makes of them, and what the driver then admits. *)

From stdpp Require Import strings.
From S2P Require Import Prelude Parser DescPatch Policy Session Filter Vhci Events Attach Device Ioctl Client.

(** ** The filter command of the command-line tool *)

Record device_type_category : Type := { cat_id : string; cat_name : string; cat_entries : list device_filter_entry }.

Definition class_entry (cls : byte) : device_filter_entry :=
  {| bClass := cls; bSubClass := x00; bProtocol := x00; match_flags := x01 |}.

Definition device_type_categories : list device_type_category :=
  [ {| cat_id := "hid"; cat_name := "HID / input (keyboard, mouse)"; cat_entries := [class_entry x03] |};
    {| cat_id := "mass_storage"; cat_name := "Mass storage (USB drives)"; cat_entries := [class_entry x08] |};
    {| cat_id := "network"; cat_name := "Network adapter (CDC/RNDIS/NCM/ECM)"; cat_entries := [class_entry x02; class_entry x0a] |};
    {| cat_id := "wireless"; cat_name := "Wireless / Bluetooth radio"; cat_entries := [class_entry xe0] |};
    {| cat_id := "audio"; cat_name := "Audio"; cat_entries := [class_entry x01] |};
    {| cat_id := "video"; cat_name := "Video / webcam"; cat_entries := [class_entry x0e] |};
    {| cat_id := "printer"; cat_name := "Printer"; cat_entries := [class_entry x07] |};
    {| cat_id := "image"; cat_name := "Imaging / scanner (PTP/MTP)"; cat_entries := [class_entry x06] |};
    {| cat_id := "smartcard"; cat_name := "Smart card"; cat_entries := [class_entry x0b] |};
    {| cat_id := "hub"; cat_name := "Hub"; cat_entries := [class_entry x09] |};
    {| cat_id := "vendor"; cat_name := "Vendor-specific"; cat_entries := [class_entry xff] |} ]%string.

#[global] Instance device_filter_entry_eq_dec : EqDecision device_filter_entry.
Proof. solve_decision. Defined.

Definition find_category (id : string) : option device_type_category :=
  head (filter (fun c => cat_id c = id) device_type_categories).

Definition contains (v : list device_filter_entry) (e : device_filter_entry) : bool := bool_decide (e ∈ v).

Definition category_enabled (p : device_filter_policy) (c : device_type_category) : bool :=
  negb (bool_decide (cat_entries c = [])) && forallb (contains (entries p)) (cat_entries c).

(** The loops over the categories given and their entries; [None] is an unknown category. *)
Definition add_entries (es add : list device_filter_entry) : list device_filter_entry :=
  fold_left (fun es e => if contains es e then es else es ++ [e]) add es.

Fixpoint add_categories (es : list device_filter_entry) (ids : list string) : option (list device_filter_entry) :=
  match ids with
  | [] => Some es
  | id :: ids => c ← find_category id; add_categories (add_entries es (cat_entries c)) ids
  end.

(** filter_args with the options that change the policy; the parser lets at most one of
    them through. *)
Record filter_args : Type := { fa_disable : bool; fa_deny_all : bool; fa_categories : list string }.

Definition filter_policy (args : filter_args) : option device_filter_policy :=
  if fa_disable args then Some {| mode := disabled; entries := [] |}
  else if fa_deny_all args then Some {| mode := whitelist; entries := [] |}
  else es ← add_categories [] (fa_categories args); Some {| mode := whitelist; entries := es |}.

(** cmd_filter after the device was opened: whether it succeeded, the policy it prints. *)
Definition cmd_filter {D} (DeviceIoControl : D -> code -> list byte -> list byte -> option (call_result * D))
    (fuel : nat) (args : filter_args) (s : D) : option (bool * option device_filter_policy * D) :=
  let modify := fa_disable args || fa_deny_all args || negb (bool_decide (fa_categories args = [])) in
  if negb modify then
    res ← get_device_filter DeviceIoControl fuel s;
    let '(_, p, s) := res in Some (bool_decide (is_Some p), p, s)
  else
    match filter_policy args with
    | None => Some (false, None, s)
    | Some p =>
        res ← set_device_filter DeviceIoControl p s;
        let '(_, stored, s) := res in
        Some (stored, if stored : bool then Some p else None, s)
    end.

(** ** The filter command *)

(** The class codes a command lets in. *)
Definition chosen (args : filter_args) (cls : Z) : bool :=
  fa_disable args ||
  (negb (fa_deny_all args) &&
   existsb (fun c => bool_decide (cat_id c ∈ fa_categories args) && existsb (fun e => b2z (bClass e) =? cls) (cat_entries c))
     device_type_categories).

Lemma elem_of_add_entries es add e : e ∈ add_entries es add <-> e ∈ es \/ e ∈ add.
Proof.
  unfold add_entries. revert es. induction add as [|a add IH]; intros es; cbn [fold_left].
  - rewrite elem_of_nil. tauto.
  - rewrite IH, elem_of_cons. unfold contains. case_bool_decide as Ha; [|rewrite elem_of_app, list_elem_of_singleton; tauto].
    split; [tauto|]. intros [?|[->|?]]; auto.
Qed.

Lemma find_category_Some id c : find_category id = Some c -> c ∈ device_type_categories /\ cat_id c = id.
Proof.
  unfold find_category. destruct (filter _ _) as [|x l] eqn:E; [done|]. intros [= ->].
  assert (c ∈ filter (fun c => cat_id c = id) device_type_categories) as Hc by (rewrite E; apply list_elem_of_here).
  apply list_elem_of_filter in Hc. tauto.
Qed.

Lemma find_category_is (c : device_type_category) : c ∈ device_type_categories -> find_category (cat_id c) = Some c.
Proof.
  intros Hc. unfold device_type_categories in Hc. rewrite !elem_of_cons, elem_of_nil in Hc.
  repeat (destruct Hc as [->|Hc]; [vm_compute; reflexivity|]). done.
Qed.

Lemma elem_of_add_categories es ids es' e :
  add_categories es ids = Some es' ->
  e ∈ es' <-> e ∈ es \/ exists c, c ∈ device_type_categories /\ cat_id c ∈ ids /\ e ∈ cat_entries c.
Proof.
  revert es. induction ids as [|id ids IH]; intros es; simpl.
  - intros [= ->]. split; [auto|]. intros [?|(c & _ & Hc & _)]; [done|]. by apply elem_of_nil in Hc.
  - destruct (find_category id) as [c|] eqn:Hf; [|done]. simpl. intros Hx. rewrite (IH _ Hx), elem_of_add_entries.
    destruct (find_category_Some _ _ Hf) as [Hc Hid]. setoid_rewrite (elem_of_cons ids). split.
    + intros [[?|?]|(x & ? & ? & ?)]; [by left|right; exists c; auto|right; exists x; auto].
    + intros [?|(x & Hx1 & [Hx2|Hx2] & Hx3)]; eauto 6.
      pose proof (find_category_is x Hx1) as Hx4. rewrite Hx2, Hf in Hx4. injection Hx4 as <-. auto.
Qed.

(** Every entry of a category constrains the class alone. *)
Lemma category_entry_admits c e cls sub proto :
  c ∈ device_type_categories -> e ∈ cat_entries c -> entry_admits e cls sub proto <-> b2z (bClass e) = cls.
Proof.
  intros Hc He. assert (match_flags e = x01) as Hf.
  { assert (Forall (fun c => Forall (fun e => match_flags e = x01) (cat_entries c)) device_type_categories) as Hall
      by (repeat constructor).
    rewrite list.Forall_forall in Hall. specialize (Hall c Hc). rewrite list.Forall_forall in Hall. by apply Hall. }
  unfold entry_admits. rewrite Hf. change (b2z x01) with 1. split; [intros [H _]; by apply H|]. intros ?.
  split; [done|]. by split.
Qed.

(** The driver's policy record of a library policy. *)
Definition driver_policy (p : device_filter_policy) : policy :=
  {| Policy.mode := match mode p with disabled => disabled_byte | whitelist => whitelist_byte end;
     count := Z.of_nat (length (entries p));
     Policy.entries := entries p ++ replicate (MAX_DEVICE_FILTER_ENTRIES - length (entries p)) zero_entry |}.

Lemma filter_policy_admits args p cls sub proto :
  filter_policy args = Some p -> policy_admits (driver_policy p) cls sub proto <-> chosen args cls = true.
Proof.
  unfold filter_policy, chosen, policy_admits. destruct (fa_disable args).
  { intros [= <-]. simpl. split; [done|]. by left. }
  destruct (fa_deny_all args).
  { intros [= <-]. simpl. split; [|done]. intros [?|(i & e & Hi & _)]; [done|]. lia. }
  destruct (add_categories [] (fa_categories args)) as [es|] eqn:He; [|done]. cbn [mbind option_bind]. intros [= <-].
  cbn [driver_policy Policy.mode mode entries Policy.entries count]. change (b2z whitelist_byte) with 1. unfold mode_disabled.
  cbn [orb negb andb]. rewrite existsb_exists. setoid_rewrite andb_true_iff. setoid_rewrite existsb_exists. setoid_rewrite bool_decide_eq_true.
  setoid_rewrite Z.eqb_eq. split.
  - intros [?|(i & e & Hi & Hlk & Ha)]; [done|]. rewrite lookup_app_l in Hlk by lia. apply list_elem_of_lookup_2 in Hlk.
    apply (elem_of_add_categories _ _ _ _ He) in Hlk as [Hlk|(c & Hc & Hid & Hin)]; [by apply elem_of_nil in Hlk|].
    exists c. rewrite <- list_elem_of_In. split; [done|]. split; [done|]. exists e. rewrite <- list_elem_of_In.
    split; [done|]. by apply (proj1 (category_entry_admits c e cls sub proto Hc Hin)).
  - intros (c & Hc & Hid & e & Hin & Hcls). right. rewrite <- list_elem_of_In in Hc. rewrite <- list_elem_of_In in Hin.
    assert (e ∈ es) as Hes by (apply (elem_of_add_categories _ _ _ _ He); right; eauto).
    apply list_elem_of_lookup_1 in Hes as [i Hi]. exists i, e. pose proof (lookup_lt_Some _ _ _ Hi).
    split; [lia|]. rewrite lookup_app_l by done. split; [done|]. by apply (proj2 (category_entry_admits c e cls sub proto Hc Hin)).
Qed.

(** *** The requests of the filter policy *)

Definition filter_input (p : device_filter_policy) : list byte :=
  let needed := device_filter_entries_offset + Z.of_nat (length (entries p)) * entry_size in
  take (Z.to_nat (if needed <? sizeof_device_filter then sizeof_device_filter else needed)) (device_filter_bytes p).

Lemma filter_input_shape p : exists t,
  filter_input p = le_bytes 4 16 ++ [match mode p with disabled => disabled_byte | whitelist => whitelist_byte end; x00; x00; x00] ++
                   le_bytes 4 (Z.of_nat (length (entries p))) ++ concat (map entry_bytes (entries p)) ++ t /\
  length (filter_input p) = Nat.max 16 (12 + 4 * length (entries p)).
Proof.
  unfold filter_input, device_filter_bytes, device_filter_entries_offset, entry_size, sizeof_device_filter.
  set (n := length (entries p)). pose proof (length_concat_entry_bytes (entries p)) as Hc. fold n in Hc.
  case_bool_decide as He.
  - exists (replicate 4 x00). assert (n = 0%nat) as -> by (unfold n; by rewrite He). rewrite He. simpl. done.
  - exists []. assert (n <> 0%nat) by (unfold n; by intros ?%length_zero_iff_nil).
    replace (12 + Z.of_nat n * 4 <? 16) with false by lia. cbn match. rewrite !app_nil_r.
    rewrite take_ge by (rewrite !length_app, !length_le_bytes, Hc; cbn [length]; lia). split; [done|].
    rewrite !length_app, !length_le_bytes, Hc. simpl. lia.
Qed.

Lemma filter_input_fields p : (length (entries p) <= 64)%nat ->
  Policy.field 0 4 (filter_input p) = 16 /\ Policy.field 8 4 (filter_input p) = Z.of_nat (length (entries p)) /\
  nth 4 (filter_input p) x00 = match mode p with disabled => disabled_byte | whitelist => whitelist_byte end /\
  entries_of_bytes (length (entries p)) (drop 12 (filter_input p)) = entries p.
Proof.
  intros Hn. destruct (filter_input_shape p) as (t & -> & _). set (m := match mode p with disabled => _ | _ => _ end).
  unfold Policy.field. split_and!.
  - rewrite drop_0. apply (le_val_le_bytes 4 16).
  - rewrite app_assoc. rewrite drop_app_length' by done. rewrite take_app_length' by (by rewrite length_le_bytes).
    rewrite le_val_le_bytes. apply Z.mod_small. lia.
  - done.
  - rewrite (app_assoc [m; x00; x00; x00]), app_assoc. rewrite drop_app_length' by done. apply entries_of_entry_bytes.
Qed.

Lemma set_device_filter_input {R} `{Policy.Registry R} (r : R) pad p : (length (entries p) <= 64)%nat ->
  Policy.set_device_filter r pad (filter_input p) = store r pad (driver_policy p).
Proof.
  intros Hn. destruct (filter_input_fields p Hn) as (H0 & H8 & H4 & He). destruct (filter_input_shape p) as (_ & _ & Hl).
  unfold Policy.set_device_filter, retrieve_buffer, avail_entries. rewrite H0, H8, Hl, H4, Nat2Z.id, He.
  unfold sizeof_device_filter, device_filter_entries_offset, entry_size, guard_err.
  replace (16 <=? Z.of_nat (Nat.max 16 (12 + 4 * length (entries p)))) with true by lia. cbn [negb Z.eqb].
  replace (_ <? Z.of_nat (length (entries p))) with false by (symmetry; apply Z.ltb_ge; zdm).
  by replace (Z.of_nat MAX_DEVICE_FILTER_ENTRIES <? _) with false by (unfold MAX_DEVICE_FILTER_ENTRIES; lia).
Qed.

(** The handler's answer for a loaded policy. *)
Lemma get_device_filter_answer {R} `{Policy.Registry R} (r : R) stack outbuf q n :
  load r stack = q -> count q = Z.of_nat n -> (n <= 64)%nat -> (n <= length (Policy.entries q))%nat ->
  (16 <= length outbuf)%nat -> Policy.field 0 4 outbuf = 16 ->
  Policy.get_device_filter r stack outbuf =
    if decide (12 + 4 * n <= length outbuf)%nat then
      (STATUS_SUCCESS, Z.of_nat (12 + 4 * n),
       take 4 outbuf ++ [Policy.mode q; x00; x00; x00] ++ le_bytes 4 (Z.of_nat n) ++
       concat (map entry_bytes (take n (Policy.entries q))) ++ drop (12 + 4 * n) outbuf)
    else (STATUS_BUFFER_TOO_SMALL, 0, outbuf).
Proof.
  intros Hq Hc Hn Hle Hlen Hsz. unfold Policy.get_device_filter, retrieve_buffer. rewrite Hsz, Hq, Hc, Nat2Z.id.
  unfold sizeof_device_filter, avail_entries, device_filter_entries_offset, entry_size, guard_err.
  replace (16 <=? Z.of_nat (length outbuf)) with true by lia. cbn [negb Z.eqb].
  case_decide as Hd; destruct (Z.ltb_spec ((Z.of_nat (length outbuf) - 12) / 4) (Z.of_nat n)); try done; try zdm.
  f_equal; [f_equal; lia|]. rewrite <- !app_assoc. do 4 f_equal.
  rewrite !length_app, length_concat_entry_bytes, length_le_bytes, !length_take. f_equal. cbn [length]. lia.
Qed.

(** Opening the key for writing and assigning a value: success has one status. *)
Class RegistryStatuses (R : Type) `{Policy.Registry R} : Prop := {
  open_for_set_status : forall r, NT_SUCCESS (reg_open_for_set r) = true -> reg_open_for_set r = STATUS_SUCCESS;
  assign_status : forall r ty bs, NT_SUCCESS (fst (reg_assign r ty bs)) = true -> fst (reg_assign r ty bs) = STATUS_SUCCESS }.

Section filtering.
Context {W : Type} `{Wdf W} `{AttachWdf W} `{Udecx W} `{Controller W}.
Context {R : Type} `{HR : RegistryLaws R} `{!RegistryStatuses R} {K : Type} `{PersistentKey K}.
Context (dos_error : ntstatus -> win_error) `{!DosErrors dos_error} (junk : nat -> list byte).
Context (junk_length : forall n, length (junk n) = n).
Context (unicode_to_utf8 : nat -> list Z -> ntstatus * list byte).
Context (utf8_to_unicode_n : list byte -> ntstatus * list Z).
Context (hash_string : list Z -> ntstatus * Z) (pool : Z -> bool).
Context (source_of : device -> Z) (wi_source : request -> Z) (stack pad : list byte) (new_request : world W -> request).

#[local] Abbreviation control := (driver_control dos_error junk unicode_to_utf8 utf8_to_unicode_n hash_string pool source_of wi_source
                       stack pad new_request).

Lemma set_filter_call (s : driver) (p : device_filter_policy) : (length (entries p) <= 64)%nat ->
  exists r s', control s SET_DEVICE_FILTER (filter_input p) [] = Some (r, s') /\
    d_reg s' = snd (store (d_reg s) pad (driver_policy p)) /\
    cr_ok r = NT_SUCCESS (fst (store (d_reg s) pad (driver_policy p))).
Proof.
  intros Hn. unfold driver_control, device_control_parallel. cbn [make_request io_code get_parallel_handler io_in io_buf].
  unfold system_buffer. rewrite take_app_length, set_device_filter_input by done.
  destruct (store (d_reg s) pad (driver_policy p)) as [st r']. cbn [mbind option_bind fst snd].
  unfold io_complete, failed. cbn [rp_status rp_info length]. destruct (NT_ERROR st) eqn:He; cbn [mbind option_bind];
    eexists _, _; (split; [reflexivity|]); (split; [done|]); [|done]. simpl. by rewrite (NT_ERROR_not_success st He).
Qed.

Lemma get_filter_call (s : driver) (q : policy) (n cnt : nat) (buf : list byte) :
  load (d_reg s) stack = q -> count q = Z.of_nat n -> (n <= 64)%nat -> (n <= length (Policy.entries q))%nat ->
  (1 <= cnt)%nat -> length buf = (12 + 4 * cnt)%nat -> Policy.field 0 4 buf = 16 ->
  exists r s', control s GET_DEVICE_FILTER (take 4 buf) buf = Some (r, s') /\ d_reg s' = d_reg s /\ length (cr_out r) = length buf /\
    if decide (n <= cnt)%nat then
      cr_ok r = true /\ cr_bytes r = Z.of_nat (12 + 4 * n) /\
      take (12 + 4 * n) (cr_out r) = take 4 buf ++ [Policy.mode q; x00; x00; x00] ++ le_bytes 4 (Z.of_nat n) ++
                                     concat (map entry_bytes (take n (Policy.entries q)))
    else cr_ok r = false /\ cr_error r = ERROR_INSUFFICIENT_BUFFER /\ cr_out r = buf.
Proof.
  intros Hq Hc Hn Hle Hcnt Hlen Hsz. unfold driver_control, device_control_parallel.
  cbn [make_request io_code get_parallel_handler io_out io_buf]. set (sys := system_buffer junk (take 4 buf) buf).
  assert (length sys = length buf) as Hsys by (unfold sys; rewrite length_system_buffer by done; rewrite length_take; lia).
  assert (take 4 (take (length buf) sys) = take 4 buf) as Ht4.
  { rewrite take_take, Nat.min_l by lia. unfold sys. rewrite take_system_buffer by (rewrite length_take; lia).
    by rewrite take_take. }
  rewrite (get_device_filter_answer (d_reg s) stack (take (length buf) sys) q n Hq Hc Hn Hle).
  2: rewrite length_take; lia.
  2: unfold Policy.field in *; by rewrite drop_0, Ht4 in *.
  rewrite length_take, Hsys, Nat.min_id, Ht4. destruct (decide (n <= cnt)%nat) as [Hd|Hd];
    [rewrite decide_True by lia|rewrite decide_False by lia]; cbn [mbind option_bind].
  - rewrite io_complete_success; [|done|cbn [rp_info]; lia].
    cbn [mbind option_bind rp_info rp_buf]. eexists _, _. split; [reflexivity|]. cbn [d_reg cr_out cr_ok cr_bytes].
    rewrite Nat2Z.id. split; [done|].
    match goal with |- context [write_at 0 (?x ++ ?y ++ ?z ++ ?v ++ ?rest) sys] => set (out := x ++ y ++ z ++ v); set (tail := rest) end.
    assert (length out = 12 + 4 * n)%nat as Hout.
    { unfold out. rewrite !length_app, length_concat_entry_bytes, length_le_bytes, !length_take. cbn [length]. lia. }
    match goal with |- context [write_at 0 ?l sys] =>
      replace l with (out ++ tail) by (unfold out; by rewrite <- !app_assoc) end.
    assert (take (12 + 4 * n) (write_at 0 (out ++ tail) sys) = out) as Ht by (rewrite <- Hout; apply take_write_prefix).
    rewrite Ht. split; [rewrite length_app, length_drop; lia|]. split; [done|]. split; [done|].
    rewrite take_app_length' by done. done.
  - rewrite io_complete_small by done. cbn [mbind option_bind].
    eexists _, _. split; [reflexivity|]. by split_and!.
Qed.

Lemma device_filter_loop_ok fuel (s : driver) (q : policy) (n cnt : nat) (buf : list byte) :
  load (d_reg s) stack = q -> count q = Z.of_nat n -> (n <= 64)%nat -> (n <= length (Policy.entries q))%nat ->
  (1 <= cnt)%nat -> (n <= cnt * 2 ^ fuel)%nat ->
  exists buf' s', device_filter_loop control (S fuel) cnt buf s = Some (ERROR_SUCCESS, buf', s') /\ d_reg s' = d_reg s /\
    exists size, length size = 4%nat /\
      buf' = size ++ [Policy.mode q; x00; x00; x00] ++ le_bytes 4 (Z.of_nat n) ++ concat (map entry_bytes (take n (Policy.entries q))).
Proof.
  revert s cnt buf. induction fuel as [|fuel IH]; intros s cnt buf Hq Hc Hn Hle Hcnt Hfuel; cbn [device_filter_loop].
  all: set (b := write_at 0 (le_bytes 4 sizeof_device_filter) (resize x00 (12 + 4 * cnt) buf)).
  all: assert (length b = 12 + 4 * cnt)%nat as Hb
    by (unfold b; rewrite length_write_at; rewrite length_resize; [done|rewrite length_le_bytes; lia]).
  all: assert (exists size, length size = 4%nat /\ take 4 b = size) as (size & Hsize & Hb4)
    by (eexists; split; [|reflexivity]; rewrite length_take; lia).
  all: destruct (get_filter_call s q n cnt b Hq Hc Hn Hle Hcnt Hb) as (r & s1 & -> & Hreg & Hout & Hres);
    [by apply field_write_head|].
  all: cbn [mbind option_bind].
  all: assert ((n <= cnt)%nat -> cr_bytes r = Z.of_nat (12 + 4 * n) ->
    (if cr_bytes r <? device_filter_entries_offset then Some (USBIP_ERROR_DRIVER_RESPONSE, cr_out r, s1)
     else Some (ERROR_SUCCESS, resize x00 (Z.to_nat (cr_bytes r)) (cr_out r), s1)) =
     Some (ERROR_SUCCESS, take (12 + 4 * n) (cr_out r), s1)) as Hdone.
  1, 3: intros Hle' ->; unfold device_filter_entries_offset; replace (Z.of_nat (12 + 4 * n) <? 12) with false by lia;
    rewrite Nat2Z.id, resize_le by lia; done.
  - rewrite decide_True in Hres by (simpl in Hfuel; lia). destruct Hres as (Hok & Hbytes & Hrep). rewrite Hok, Hdone, Hrep, Hb4;
      [|simpl in Hfuel; lia|done]. eauto 10.
  - destruct (decide (n <= cnt)%nat) as [Hd|Hd].
    + destruct Hres as (Hok & Hbytes & Hrep). rewrite Hok, Hdone, Hrep, Hb4 by done. eauto 10.
    + destruct Hres as (-> & -> & Hbuf). simpl in Hfuel. rewrite <- Hreg in Hq |- *. apply IH; auto; lia.
Qed.

(** Reading back a policy whose normal form the registry has. *)
Lemma get_device_filter_ok fuel (s : driver) (p : device_filter_policy) :
  (length (entries p) <= 64)%nat -> registry_policy (d_reg s) = normal_policy (driver_policy p) -> (3 <= fuel)%nat ->
  exists s', get_device_filter control fuel s = Some (ERROR_SUCCESS, Some p, s') /\ d_reg s' = d_reg s.
Proof.
  intros Hn Hreg Hf. set (n := length (entries p)) in *. set (q := normal_policy (driver_policy p)) in *.
  assert (count q = Z.of_nat n) as Hc.
  { unfold q, normal_policy, driver_policy. cbn [count]. fold n. unfold MAX_DEVICE_FILTER_ENTRIES. lia. }
  assert (take n (Policy.entries q) = entries p) as He.
  { unfold q, normal_policy, driver_policy. cbn [Policy.entries count]. fold n. rewrite Nat2Z.id.
    unfold MAX_DEVICE_FILTER_ENTRIES. rewrite Nat.min_l by lia.
    rewrite take_app_le by (rewrite length_take, length_app; lia). rewrite take_take, Nat.min_id. by apply take_app_length. }
  assert (n <= length (Policy.entries q))%nat as Hle.
  { rewrite <- (take_drop n (Policy.entries q)), length_app, He. fold n. lia. }
  destruct fuel as [|fuel]; [lia|].
  destruct (device_filter_loop_ok fuel s q n 16 []) as (buf & s' & Hx & Hr & size & Hsize & ->); auto; [|lia| |].
  { by rewrite load_registry_policy, Hreg. }
  { assert (2 ^ 2 <= 2 ^ fuel)%nat by (apply Nat.pow_le_mono_r; lia). simpl in *. lia. }
  exists s'. split; [|done]. unfold get_device_filter. rewrite Hx. cbn [mbind option_bind]. rewrite He.
  assert (Policy.field 8 4 (size ++ [Policy.mode q; x00; x00; x00] ++ le_bytes 4 (Z.of_nat n) ++ concat (map entry_bytes (entries p)))
          = Z.of_nat n) as ->.
  { unfold Policy.field. rewrite app_assoc, drop_app_length' by (rewrite length_app, Hsize; done).
    rewrite take_app_length' by (by rewrite length_le_bytes). rewrite le_val_le_bytes. apply Z.mod_small. lia. }
  rewrite !length_app, Hsize, length_concat_entry_bytes, length_le_bytes. fold n. cbn [length].
  unfold device_filter_entries_offset, entry_size.
  replace ((Z.of_nat (4 + (4 + (4 + 4 * n))) - 12) / 4) with (Z.of_nat n) by zdm. rewrite Z.min_id, Nat2Z.id.
  replace (nth 4 _ x00) with (Policy.mode q) by (rewrite app_nth2, Hsize by lia; done).
  replace (drop 12 _) with (concat (map entry_bytes (entries p)) ++ [])
    by (rewrite (app_assoc [Policy.mode q; x00; x00; x00]), app_assoc, app_nil_r, drop_app_length'; [done|];
        rewrite !length_app, Hsize; done).
  unfold n. rewrite entries_of_entry_bytes. do 3 f_equal. destruct p as [m es]. cbn [entries mode]. f_equal. 
  unfold q, normal_policy, driver_policy. cbn [Policy.mode mode]. destruct m; done.
Qed.

(** C12: what the user asks for with the filter command is what the driver enforces: when the command
    succeeds, the driver admits exactly the classes of the chosen categories (all of them after
    --disable, none after --deny-all), whatever subclass and protocol, and the policy read back is
    the one that was set.  An unknown category changes nothing. *)
Theorem filter_command_enforced (s : driver) (args : filter_args) (fuel : nat) :
  reg_open (d_reg s) = STATUS_SUCCESS ->
  fa_disable args || fa_deny_all args || negb (bool_decide (fa_categories args = [])) = true -> (3 <= fuel)%nat ->
  exists stored p s', cmd_filter control fuel args s = Some (stored, p, s') /\
    (filter_policy args = None -> stored = false /\ s' = s) /\
    (stored = true ->
       (forall mem cls sub proto, is_allowed (load (d_reg s') mem) cls sub proto = Some (chosen args cls)) /\
       exists pol s'', filter_policy args = Some pol /\ get_device_filter control fuel s' = Some (ERROR_SUCCESS, Some pol, s'')).
Proof.
  intros Hopen Hmod Hfuel. unfold cmd_filter. rewrite Hmod. cbn [negb].
  destruct (filter_policy args) as [pol|] eqn:Hpol; [|by do 3 eexists].
  unfold set_device_filter. unfold MAX_DEVICE_FILTER_ENTRIES.
  destruct (Nat.ltb_spec 64 (length (entries pol))) as [Hgt|Hn]; [by do 3 eexists|].
  destruct (set_filter_call s pol Hn) as (r & s' & Hx & Hreg & Hok). unfold filter_input in Hx. rewrite Hx.
  cbn [mbind option_bind]. do 3 eexists. split; [reflexivity|]. split; [done|]. rewrite Hok. intros Hsucc.
  destruct (store (d_reg s) pad (driver_policy pol)) as [st r'] eqn:Hst. cbn [fst snd] in *.
  assert (st = STATUS_SUCCESS) as ->.
  { unfold store in Hst. case_decide as Hset.
    - pose proof (assign_status (d_reg s) REG_BINARY) as Hs. rewrite (surjective_pairing (reg_assign _ _ _)) in Hst.
      injection Hst as Hst _. rewrite <- Hst in *. by apply Hs.
    - injection Hst as <- _. by apply open_for_set_status. }
  assert (policy_ok (driver_policy pol)) as Hpok.
  { split; cbn [driver_policy Policy.entries count]; [|unfold is_u32; lia]. rewrite length_app, length_replicate.
    unfold MAX_DEVICE_FILTER_ENTRIES in *. lia. }
  assert (policy_sane (driver_policy pol)) as Hsane.
  { split; [done|]. cbn [driver_policy Policy.mode count]. unfold MAX_DEVICE_FILTER_ENTRIES. split; [lia|].
    destruct (mode pol); [by left|by right]. }
  pose proof (store_registry_policy _ _ _ _ Hpok Hopen Hst) as Hrp. rewrite <- Hreg in Hrp. split.
  - intros mem cls sub proto. rewrite load_registry_policy, Hrp.
    destruct (is_allowed_sane (normal_policy (driver_policy pol)) cls sub proto) as (b & -> & Hb); [by apply normal_policy_sane|].
    f_equal. apply eq_true_iff_eq. rewrite Hb, policy_admits_normal by done. by apply filter_policy_admits.
  - destruct (get_device_filter_ok fuel s' pol Hn Hrp Hfuel) as (s'' & Hget & _). eauto.
Qed.
End filtering.

(** ** Examples: storage and smart cards only *)
#[local] Existing Instance Events.Demo.framework.
#[local] Existing Instance Events.Demo.framework_laws.
#[local] Existing Instance Attach.Demo.requests.
#[local] Existing Instance Ioctl.Demo.framework.
#[local] Existing Instance Ioctl.Demo.persistent_key.
#[local] Existing Instance Controller.Demo.usb_stack.
#[local] Existing Instance Client.Demo.dos_errors.

Module Demo.
#[local] Instance registry_statuses : RegistryStatuses one_value_registry.
Proof. split; [|done]. intros r. simpl. by destruct (rv_writable r). Qed.

Definition allow_storage : filter_args :=
  {| fa_disable := false; fa_deny_all := false; fa_categories := ["mass_storage"; "smartcard"; "mass_storage"]%string |}.

Definition driver0 := Client.Demo.stick_driver Ioctl.Demo.claimed.

Lemma allow_storage_runs :
  (fun '(stored, p, _) => (stored, match p with Some p => length (entries p) | None => 0%nat end)) <$>
    cmd_filter Client.Demo.control 3 allow_storage driver0 = Some (true, 2%nat).
Proof. vm_compute. reflexivity. Qed.

Lemma filter_command_enforced_witness :
  exists s' p, cmd_filter Client.Demo.control 3 allow_storage driver0 = Some (true, p, s') /\
    is_allowed (load (d_reg s') []) 8 6 80 = Some true /\ is_allowed (load (d_reg s') []) 3 1 1 = Some false.
Proof.
  destruct (filter_command_enforced (HR := one_value_registry_laws) Client.Demo.dos_error Client.Demo.junk Client.Demo.junk_length
              Events.Demo.utf8 Controller.Demo.to_unicode Attach.Demo.hash_string (fun _ => true) (fun _ => 9) (fun _ => 8)
              (replicate 268 x55) [x00; x00; x00] Client.Demo.new_request driver0 allow_storage 3 ltac:(reflexivity) ltac:(reflexivity) (le_n 3))
    as (stored & p & s' & Hx & _ & Hok).
  pose proof allow_storage_runs as Hr. unfold Client.Demo.control in Hr |- *. rewrite Hx in Hr. cbn [fmap option_fmap option_map] in Hr.
  injection Hr as -> _. exists s', p. split; [exact Hx|]. destruct (Hok eq_refl) as [Ha _].
  split; rewrite Ha; reflexivity.
Defined.
End Demo.
