(* ===== verification/Persist.v ===== *)
(** * Persistent devices of the library

    userspace/libusbip/src/persistent.cpp and split_multi_sz of strconv.cpp: the list of
    devices the driver attaches when it starts, written and read through the driver. *)

From stdpp Require Import strings.
From S2P Require Import Prelude Parser DescPatch Policy Session Filter Vhci Events Attach Device Ioctl Client.

(** ** Lists of wide strings *)

(** A wide string is a list of UTF-16 units. *)
Fixpoint wide_bytes (s : list Z) : list byte := match s with [] => [] | c :: s => le_bytes 2 c ++ wide_bytes s end.

Fixpoint wide_of_bytes (n : nat) (bs : list byte) : list Z :=
  match n with O => [] | S n => le_val (take 2 bs) :: wide_of_bytes n (drop 2 bs) end.

(** wcsnlen_s *)
Fixpoint wcsnlen (s : list Z) : nat := match s with [] => O | c :: s => if c =? 0 then O else S (wcsnlen s) end.

(** split_multi_sz: each round removes at least one unit. *)
Fixpoint split_multi_sz_loop (fuel : nat) (str : list Z) : option (list (list Z)) :=
  match fuel with
  | O => None
  | S fuel =>
      match wcsnlen str with
      | O => Some []
      | len => rest ← split_multi_sz_loop fuel (drop (Nat.min (len + 1) (length str)) str); Some (take len str :: rest)
      end
  end.

Definition split_multi_sz (str : list Z) : option (list (list Z)) := split_multi_sz_loop (S (length str)) str.

(** ** Persistent devices (persistent.cpp) *)

Record persistent_device : Type := { pd_location : device_location; pd_serial : list byte }.

Definition comma_byte : byte := x2c.

Definition is_malformed (d : persistent_device) : bool :=
  let l := pd_location d in
  bool_decide (hostname l = []) || bool_decide (service l = []) || bool_decide (busid l = []) ||
  negb (validate_device_serial (pd_serial d)).

(** std::format("{},{},{},{}", ...) *)
Definition format_device (d : persistent_device) : list byte :=
  let l := pd_location d in
  hostname l ++ comma_byte :: service l ++ comma_byte :: busid l ++ comma_byte :: pd_serial d.

(** The part before the first comma, and what follows it if there is one: the elements of
    views::split are taken off one by one. *)
Fixpoint next_field (s : list byte) : list byte * option (list byte) :=
  match s with
  | [] => ([], None)
  | c :: s =>
      if bool_decide (c = comma_byte) then ([], Some s)
      else let '(f, rest) := next_field s in (c :: f, rest)
  end.

(** parse_persistent_device; splitting an empty string gives no element at all. *)
Definition parse_persistent_device (str : list byte) : persistent_device :=
  let start := match str with [] => None | _ => Some str end in
  let take_field (o : option (list byte)) := match o with None => ([], None) | Some s => next_field s end in
  let '(host, rest) := take_field start in
  let '(srv, rest) := take_field rest in
  let '(bus, rest) := take_field rest in
  {| pd_location := {| hostname := host; service := srv; busid := bus |}; pd_serial := default [] rest |}.

Section persistent.
Context {D : Type} (DeviceIoControl : D -> code -> list byte -> list byte -> option (call_result * D)).

(** MultiByteToWideChar, WideCharToMultiByte; an empty string is an error. *)
Context (utf8_to_wchar : list byte -> option (list Z)) (wchar_to_utf8 : list Z -> option (list byte)).

Fixpoint multi_sz_loop (devices : list persistent_device) (multi_sz : list Z) : option (list Z) :=
  match devices with
  | [] => Some multi_sz
  | d :: devices =>
      if is_malformed d then None
      else ws ← utf8_to_wchar (format_device d); multi_sz_loop devices (multi_sz ++ ws ++ [0])
  end.

(** make_multi_sz: a second terminator when there are no devices. *)
Definition make_multi_sz (devices : list persistent_device) : option (list Z) :=
  multi_sz ← multi_sz_loop devices [];
  Some (multi_sz ++ replicate (if bool_decide (devices = []) then 2 else 1) 0).

Definition set_persistent (devices : list persistent_device) (s : D) : option (win_error * bool * D) :=
  match make_multi_sz devices with
  | None => Some (ERROR_INVALID_PARAMETER, false, s)
  | Some val =>
      '(r, s) ← DeviceIoControl s SET_PERSISTENT (wide_bytes val) [];
      Some (cr_error r, cr_ok r, s)
  end.

(** get_persistent_devices: the buffer takes the size the driver reports. *)
Fixpoint get_persistent_devices (fuel : nat) (val : list Z) (s : D) : option (win_error * option (list Z) * D) :=
  match fuel with
  | O => None
  | S fuel =>
      '(r, s) ← DeviceIoControl s GET_PERSISTENT [] (wide_bytes val);
      let val := resize 0 (Z.to_nat (cr_bytes r / 2)) (wide_of_bytes (length val) (cr_out r)) in
      if cr_ok r then Some (ERROR_SUCCESS, Some val, s)
      else
        match cr_error r with
        | ERROR_MORE_DATA => get_persistent_devices fuel val s
        | err => Some (err, None, s)
        end
  end.

(** The devices of the strings that convert and are not malformed. *)
Definition parse_strings (strings : list (list Z)) : list persistent_device :=
  omap (fun ws => s ← wchar_to_utf8 ws; let d := parse_persistent_device s in if is_malformed d then None else Some d) strings.

Definition get_persistent (fuel : nat) (s : D) : option (win_error * option (list persistent_device) * D) :=
  '(err, val, s) ← get_persistent_devices fuel (replicate 512 0) s;
  match val with
  | Some multi_sz => strings ← split_multi_sz multi_sz; Some (err, Some (parse_strings strings), s)
  | None => Some (err, match err with ERROR_FILE_NOT_FOUND => Some [] | _ => None end, s)
  end.
End persistent.

(** ** Persistent devices *)

(** UTF-8 and UTF-16: [wide] is the string a valid UTF-8 string stands for. *)
Class Codec (wide : list byte -> option (list Z)) : Prop := {
  wide_nil : wide [] = Some [];
  wide_app : forall a b x y, wide a = Some x -> wide b = Some y -> wide (a ++ b) = Some (x ++ y);
  wide_ascii : forall c, b2z c < 128 -> wide [c] = Some [b2z c];
  wide_ascii_in : forall a x c, wide a = Some x -> b2z c < 128 -> b2z c ∈ x -> c ∈ a;
  wide_units : forall a x, wide a = Some x -> Forall is_u16 x }.

(** The library's calls and the driver's agree with it; none is asked about empty strings. *)
Class Conversions (wide : list byte -> option (list Z)) (utf8_to_wchar : list byte -> option (list Z))
    (wchar_to_utf8 : list Z -> option (list byte)) (unicode_to_utf8 : nat -> list Z -> ntstatus * list byte) : Prop := {
  to_wchar : forall a, a <> [] -> utf8_to_wchar a = wide a;
  to_utf8 : forall a x, a <> [] -> wide a = Some x -> wchar_to_utf8 x = Some a;
  driver_to_utf8 : forall n a x, a <> [] -> wide a = Some x -> (length a <= n)%nat -> unicode_to_utf8 n x = (STATUS_SUCCESS, a) }.

(** The key of the persistent devices: an assigned value is what is queried, and the size of
    one that does not fit is told. *)
Class PersistentKeyLaws (K : Type) `{PersistentKey K} : Prop := {
  key_open_for_set_status : forall k, NT_SUCCESS (key_open_for_set k) = true -> key_open_for_set k = STATUS_SUCCESS;
  key_assign_status : forall k ty bs, NT_SUCCESS (fst (key_assign k ty bs)) = true -> fst (key_assign k ty bs) = STATUS_SUCCESS;
  key_assign_open : forall k k' ty bs, key_assign k ty bs = (STATUS_SUCCESS, k') -> key_open k' = key_open k;
  key_assign_query : forall k k' ty bs len, key_assign k ty bs = (STATUS_SUCCESS, k') -> Z.of_nat (length bs) <= len ->
      key_query k' len = (STATUS_SUCCESS, bs, Z.of_nat (length bs), ty);
  key_assign_overflow : forall k k' ty bs len, key_assign k ty bs = (STATUS_SUCCESS, k') -> len < Z.of_nat (length bs) ->
      exists data, key_query k' len = (STATUS_BUFFER_OVERFLOW, data, Z.of_nat (length bs), ty) }.

(** A list of strings in memory: each one and a terminator, and one more. *)
Definition multi_sz (strs : list (list Z)) : list Z := concat (map (fun s => s ++ [0]) strs) ++ [0].

Definition wide_string (s : list Z) : Prop := s <> [] /\ (0 ∉ s) /\ Forall is_u16 s.

(** *** Strings *)

Lemma length_wide_bytes s : length (wide_bytes s) = (2 * length s)%nat.
Proof. induction s as [|c s IH]; [done|]. cbn [wide_bytes length]. rewrite length_app, length_le_bytes, IH. lia. Qed.

Lemma wide_of_bytes_app s t n : Forall is_u16 s -> wide_of_bytes (length s + n) (wide_bytes s ++ t) = s ++ wide_of_bytes n t.
Proof.
  induction 1 as [|c s Hc Hs IH]; [done|]. cbn [length Nat.add wide_bytes wide_of_bytes].
  rewrite <- app_assoc, take_app_length' by (by rewrite length_le_bytes).
  rewrite drop_app_length' by (by rewrite length_le_bytes). rewrite le_val_le_bytes. change (256 ^ Z.of_nat 2) with (2 ^ 16).
  rewrite Z.mod_small by done. simpl. by f_equal.
Qed.

Lemma wcsnlen_terminated s t : 0 ∉ s -> wcsnlen (s ++ 0 :: t) = length s.
Proof.
  induction s as [|c s IH]; intros Hn; simpl; [done|]. apply not_elem_of_cons in Hn as [Hc Hs].
  destruct (Z.eqb_spec c 0); [congruence|]. f_equal. auto.
Qed.

Lemma split_multi_sz_loop_ok strs t fuel : Forall wide_string strs -> (length strs < fuel)%nat ->
  split_multi_sz_loop fuel (multi_sz strs ++ t) = Some strs.
Proof.
  intros Hs. revert fuel. induction Hs as [|s strs (Hne & Hz & _) Hs IH]; intros [|fuel] Hf; try (simpl in Hf; lia); [done|].
  cbn [split_multi_sz_loop]. unfold multi_sz in *. cbn [map concat]. rewrite <- !app_assoc. cbn [app].
  rewrite wcsnlen_terminated by done. destruct (length s) as [|l] eqn:El; [by apply length_zero_iff_nil in El|].
  rewrite <- El. rewrite length_app. cbn [length]. rewrite Nat.min_l by lia.
  rewrite (cons_middle 0 s), app_assoc, drop_app_length' by (rewrite length_app; done).
  specialize (IH fuel ltac:(simpl in Hf; lia)). rewrite <- app_assoc in IH. cbn [app] in IH. rewrite IH. cbn [mbind option_bind].
  by rewrite <- (app_assoc s), take_app_length.
Qed.

Lemma length_multi_sz strs : (length strs < length (multi_sz strs))%nat.
Proof.
  unfold multi_sz. rewrite length_app. induction strs as [|s strs IH]; simpl; [lia|].
  rewrite !length_app in *. simpl in *. lia.
Qed.

Lemma split_multi_sz_ok strs t : Forall wide_string strs -> split_multi_sz (multi_sz strs ++ t) = Some strs.
Proof.
  intros Hs. apply split_multi_sz_loop_ok; [done|]. pose proof (length_multi_sz strs). rewrite length_app. lia.
Qed.

Lemma next_field_comma f s : comma_byte ∉ f -> next_field (f ++ comma_byte :: s) = (f, Some s).
Proof.
  induction f as [|c f IH]; intros Hf; cbn [app next_field]; [by rewrite bool_decide_true|].
  apply not_elem_of_cons in Hf as [Hc Hf]. rewrite bool_decide_false by congruence. by rewrite IH.
Qed.

Definition comma_free (l : device_location) : Prop :=
  (comma_byte ∉ hostname l) /\ (comma_byte ∉ service l) /\ (comma_byte ∉ busid l).

Lemma parse_format_device d : comma_free (pd_location d) -> parse_persistent_device (format_device d) = d.
Proof.
  intros (Hh & Hs & Hb). unfold parse_persistent_device, format_device. destruct d as [[h sv b] srl].
  cbn [pd_location pd_serial hostname service busid] in *.
  assert (match h ++ comma_byte :: sv ++ comma_byte :: b ++ comma_byte :: srl with [] => None | _ => Some (h ++ comma_byte :: sv ++ comma_byte :: b ++ comma_byte :: srl) end
          = Some (h ++ comma_byte :: sv ++ comma_byte :: b ++ comma_byte :: srl)) as -> by (by destruct h).
  rewrite !next_field_comma by done. done.
Qed.

(** The driver's [split] at the first comma. *)
Lemma split_at_comma f s : no_sep comma f -> split (f ++ comma :: s) comma = (f, s).
Proof. intros Hf. rewrite split_fields, fields_app by done. cbn [hd tl]. by rewrite join_fields. Qed.

Section persistence.
Context {W : Type} `{Wdf W} `{AttachWdf W} `{Udecx W} `{Controller W}.
Context {R : Type} `{Policy.Registry R} {K : Type} `{HK : PersistentKeyLaws K}.
Context (dos_error : ntstatus -> win_error) `{!DosErrors dos_error} (junk : nat -> list byte).
Context (junk_length : forall n, length (junk n) = n).
Context (unicode_to_utf8 : nat -> list Z -> ntstatus * list byte).
Context (utf8_to_unicode_n : list byte -> ntstatus * list Z).
Context (hash_string : list Z -> ntstatus * Z) (pool : Z -> bool).
Context (source_of : device -> Z) (wi_source : request -> Z) (stack pad : list byte) (new_request : world W -> request).
Context (wide : list byte -> option (list Z)) `{!Codec wide}.
Context (utf8_to_wchar : list byte -> option (list Z)) (wchar_to_utf8 : list Z -> option (list byte)).
Context `{!Conversions wide utf8_to_wchar wchar_to_utf8 unicode_to_utf8}.

#[local] Abbreviation control := (driver_control dos_error junk unicode_to_utf8 utf8_to_unicode_n hash_string pool source_of wi_source
                       stack pad new_request).

(** A device whose names are valid UTF-8 without commas and terminators. *)
Record plain_device (d : persistent_device) (host srv bus srl : list Z) : Prop := {
  pl_commas : comma_free (pd_location d);
  pl_nuls : x00 ∉ format_device d;
  pl_host : wide (hostname (pd_location d)) = Some host;
  pl_service : wide (service (pd_location d)) = Some srv;
  pl_busid : wide (busid (pd_location d)) = Some bus;
  pl_serial : wide (pd_serial d) = Some srl }.

Definition device_units (host srv bus srl : list Z) : list Z := host ++ comma :: srv ++ comma :: bus ++ comma :: srl.

Lemma wide_cons_comma a x : wide a = Some x -> wide (comma_byte :: a) = Some (comma :: x).
Proof.
  intros Ha. change (comma_byte :: a) with ([comma_byte] ++ a). change (comma :: x) with ([comma] ++ x).
  apply wide_app; [by apply (wide_ascii comma_byte)|done].
Qed.

Lemma wide_format d host srv bus srl :
  plain_device d host srv bus srl -> wide (format_device d) = Some (device_units host srv bus srl).
Proof.
  intros [_ _ Hh Hs Hb Hr]. unfold format_device, device_units.
  apply wide_app; [done|]. apply wide_cons_comma, wide_app; [done|]. apply wide_cons_comma, wide_app; [done|].
  by apply wide_cons_comma.
Qed.

Lemma format_not_nil d : format_device d <> [].
Proof. unfold format_device. by destruct (hostname (pd_location d)). Qed.

(** What the strings of a list of devices are. *)
Definition stored_string (d : persistent_device) (ws : list Z) : Prop :=
  exists host srv bus srl, plain_device d host srv bus srl /\ ws = device_units host srv bus srl.

Lemma stored_string_wide d ws : stored_string d ws -> wide_string ws /\ utf8_to_wchar (format_device d) = Some ws /\ wchar_to_utf8 ws = Some (format_device d).
Proof.
  intros (host & srv & bus & srl & Hp & ->). pose proof (wide_format _ _ _ _ _ Hp) as Hw. pose proof (format_not_nil d) as Hn.
  split; [|by split; [rewrite to_wchar|apply to_utf8]]. split; [|split].
  - unfold device_units. by destruct host.
  - intros Hz. apply (pl_nuls _ _ _ _ _ Hp). by apply (wide_ascii_in _ _ x00 Hw).
  - by eapply wide_units.
Qed.

Lemma multi_sz_loop_ok devs strs acc :
  Forall2 stored_string devs strs -> Forall (fun d => is_malformed d = false) devs ->
  multi_sz_loop utf8_to_wchar devs acc = Some (acc ++ concat (map (fun s => s ++ [0]) strs)).
Proof.
  intros Hs. revert acc. induction Hs as [|d ws devs strs Hd Hs IH]; intros acc Hm; simpl; [by rewrite app_nil_r|].
  apply list.Forall_cons in Hm as [-> Hm]. destruct (stored_string_wide _ _ Hd) as (_ & -> & _). simpl. rewrite IH by done.
  f_equal. by rewrite <- !app_assoc.
Qed.

Lemma parse_strings_ok devs strs :
  Forall2 stored_string devs strs -> Forall (fun d => is_malformed d = false) devs -> parse_strings wchar_to_utf8 strs = devs.
Proof.
  intros Hs. induction Hs as [|d ws devs strs Hd Hs IH]; intros Hm; [done|]. apply list.Forall_cons in Hm as [Hmd Hm].
  unfold parse_strings in *. cbn [omap list_omap]. destruct (stored_string_wide _ _ Hd) as (_ & _ & ->). cbn [mbind option_bind].
  destruct Hd as (? & ? & ? & ? & Hp & _). rewrite parse_format_device by apply Hp. rewrite Hmd. f_equal. by apply IH.
Qed.

(** What the driver makes of a stored string when it attaches persistent devices. *)
Definition driver_reads (d : persistent_device) (ws : list Z) : Prop :=
  exists a, parse_device_str unicode_to_utf8 hash_string pool ws = Ok a /\
    wide (hostname (pd_location d)) = Some (node_name a) /\ wide (service (pd_location d)) = Some (service_name a) /\
    wide (busid (pd_location d)) = Some (Vhci.busid a) /\ c_string (Vhci.serial (properties a)) = pd_serial d.

Lemma no_sep_wide a x : comma_byte ∉ a -> wide a = Some x -> no_sep comma x.
Proof. intros Ha Hx Hc. apply Ha. by apply (wide_ascii_in _ _ comma_byte Hx). Qed.

Lemma empty_wide a x : a <> [] -> (x00 ∉ a) -> wide a = Some x -> empty x = false.
Proof.
  intros Ha Hz Hx. destruct x as [|c x]; simpl.
  - exfalso. apply Ha. pose proof (to_utf8 a [] Ha Hx) as E1. destruct a as [|b a]; [done|].
    pose proof (driver_to_utf8 (length (b :: a)) (b :: a) [] Ha Hx (le_n _)) as _.
    pose proof (wide_app _ _ _ _ Hx Hx) as E2. simpl in E2. pose proof (to_utf8 (b :: a ++ b :: a) [] ltac:(done) E2) as E3.
    rewrite E1 in E3. injection E3 as E3. apply (f_equal length) in E3. simpl in E3. rewrite length_app in E3. simpl in E3. lia.
  - destruct (Z.eqb_spec c 0) as [->|]; [|done]. exfalso. apply Hz. apply (wide_ascii_in _ _ x00 Hx); [done|]. apply list_elem_of_here.
Qed.

Lemma utf8_into_serial srl x :
  validate_device_serial srl = true -> wide srl = Some x -> (srl <> [] \/ unicode_to_utf8 16 [] = (STATUS_SUCCESS, [])) ->
  utf8_into unicode_to_utf8 (replicate SERIAL_BUFSZ x00) x = (STATUS_SUCCESS, srl ++ replicate (16 - length srl) x00).
Proof.
  intros Hv Hx Hne. destruct (valid_serial srl Hv) as (Hl & _ & _). unfold utf8_into. rewrite length_replicate.
  change SERIAL_BUFSZ with 16%nat.
  assert (unicode_to_utf8 16 x = (STATUS_SUCCESS, srl)) as ->.
  { destruct (decide (srl = [])) as [->|Hs]; [|by apply driver_to_utf8; [..|lia]].
    destruct Hne as [?|Hne]; [done|]. rewrite wide_nil in Hx. by injection Hx as <-. }
  replace (length srl <? 16)%nat with true by lia. f_equal. rewrite drop_replicate.
  change ([x00] ++ ?l) with (x00 :: l). replace (16 - (length srl + 1))%nat with (15 - length srl)%nat by lia.
  replace (16 - length srl)%nat with (S (15 - length srl)) by lia. cbn [replicate app].
  apply take_ge. rewrite length_app. simpl. rewrite length_replicate. lia.
Qed.

Lemma not_malformed d : is_malformed d = false ->
  hostname (pd_location d) <> [] /\ service (pd_location d) <> [] /\ busid (pd_location d) <> [] /\
  validate_device_serial (pd_serial d) = true.
Proof. unfold is_malformed. repeat case_bool_decide; try done. destruct (validate_device_serial _); done. Qed.

Lemma nul_free_fields d : x00 ∉ format_device d ->
  (x00 ∉ hostname (pd_location d)) /\ (x00 ∉ service (pd_location d)) /\ (x00 ∉ busid (pd_location d)).
Proof.
  unfold format_device. intros Hz. apply not_elem_of_app in Hz as [Hh [_ Hz]%not_elem_of_cons].
  apply not_elem_of_app in Hz as [Hs [_ Hz]%not_elem_of_cons]. by apply not_elem_of_app in Hz as [Hb _].
Qed.

Lemma stored_string_read d ws :
  (forall n, pool n = true) -> (forall s, exists h, hash_string s = (STATUS_SUCCESS, h)) ->
  stored_string d ws -> is_malformed d = false -> (pd_serial d <> [] \/ unicode_to_utf8 16 [] = (STATUS_SUCCESS, [])) ->
  (length ws <= 512)%nat -> driver_reads d ws.
Proof.
  intros Hpool Hhash (host & srv & bus & srl & [(Ch & Cs & Cb) Hz Hh Hs Hb Hr] & ->) Hm Hne Hlen.
  apply not_malformed in Hm as (Nh & Ns & Nb & Hv). apply nul_free_fields in Hz as (Zh & Zs & Zb).
  unfold driver_reads, parse_device_str, device_units in *. rewrite !length_app in Hlen. cbn [length] in Hlen.
  rewrite !length_app in Hlen. cbn [length] in Hlen. rewrite length_app in Hlen.
  rewrite (split_at_comma _ _ (no_sep_wide _ _ Ch Hh)), (split_at_comma _ _ (no_sep_wide _ _ Cs Hs)).
  rewrite (split_at_comma _ _ (no_sep_wide _ _ Cb Hb)), (utf8_into_serial _ _ Hv Hr Hne).
  destruct (valid_serial _ Hv) as (Hl & Hnul & ->).
  rewrite (empty_wide _ _ Nh Zh Hh), (empty_wide _ _ Ns Zs Hs), (empty_wide _ _ Nb Zb Hb). cbn [orb].
  unfold hash_location. rewrite Hpool. cbn [node_name service_name Vhci.busid with_names]. rewrite !length_app. cbn [length].
  match goal with |- context [?a <=? u16 ?b] => replace (a <=? u16 b) with true; [|unfold u16; rewrite Z.mod_small; lia] end.
  destruct (Hhash (host ++ [comma] ++ srv ++ [comma] ++ bus)) as [h ->]. simpl.
  eexists. split; [reflexivity|]. cbn [node_name service_name Vhci.busid with_hash with_names properties Vhci.serial].
  split_and!; auto. replace (16 - length (pd_serial d))%nat with (S (15 - length (pd_serial d))) by lia.
  by apply c_string_nul_free.
Qed.

(** *** The requests *)

Lemma set_persistent_call (s : driver) (val : list Z) : val <> [] ->
  exists r s', control s SET_PERSISTENT (wide_bytes val) [] = Some (r, s') /\
    same_devices (d_world s) (d_world s') /\ d_reg s' = d_reg s /\
    (cr_ok r = true -> key_assign (d_key s) REG_MULTI_SZ (wide_bytes val) = (STATUS_SUCCESS, d_key s')).
Proof.
  intros Hv. unfold driver_control, device_control_parallel. cbn [make_request io_code get_parallel_handler].
  unfold Ioctl.set_persistent, retrieve. cbn [make_request io_in io_buf]. unfold system_buffer.
  rewrite take_app_length, length_wide_bytes. rewrite bool_decide_false by (destruct val; simpl; lia || done).
  cbn [andb guard_err Nat.leb negb].
  destruct (key_open_for_set (d_key s)) eqn:Ho.
  all: try (destruct (key_assign _ _ _) as [st k] eqn:Ha).
  all: cbn [mbind option_bind]; unfold io_complete, failed; cbn [rp_status rp_info length];
    match goal with |- context [NT_ERROR ?e] => destruct (NT_ERROR e) eqn:He end; cbn [mbind option_bind];
    eexists _, _; (split; [reflexivity|]); (split; [by split|]); (split; [done|]); cbn [cr_ok d_key]; try done; intros Hs.
  all: try (pose proof (key_open_for_set_status (d_key s)) as Hx; rewrite Ho in Hx; by specialize (Hx Hs)).
  pose proof (key_assign_status (d_key s) REG_MULTI_SZ (wide_bytes val)) as Hx. rewrite Ha in *. f_equal. by apply Hx.
Qed.

Lemma get_persistent_call (s : driver) (ty : Z) (val : list Z) (n : nat) k :
  key_assign k REG_MULTI_SZ (wide_bytes val) = (STATUS_SUCCESS, d_key s) -> key_open k = STATUS_SUCCESS ->
  Forall is_u16 val -> (length val <= n)%nat -> n <> 0%nat ->
  exists r s', control s GET_PERSISTENT [] (wide_bytes (replicate n 0)) = Some (r, s') /\
    same_devices (d_world s) (d_world s') /\ d_reg s' = d_reg s /\ d_key s' = d_key s /\
    cr_ok r = true /\ resize 0 (Z.to_nat (cr_bytes r / 2)) (wide_of_bytes n (cr_out r)) = val.
Proof.
  intros Ha Ho Hu Hn Hn0. unfold driver_control, device_control_parallel. cbn [make_request io_code get_parallel_handler].
  unfold Ioctl.get_persistent, retrieve. cbn [make_request io_out io_buf]. rewrite length_wide_bytes, length_replicate.
  rewrite bool_decide_false by lia. cbn [andb guard_err Nat.leb negb].
  rewrite (key_assign_open _ _ _ _ Ha), Ho.
  rewrite (key_assign_query _ _ _ _ (Z.of_nat (2 * n)) Ha) by (rewrite length_wide_bytes; lia).
  cbn [negb]. change (negb (REG_MULTI_SZ =? REG_MULTI_SZ)) with false. cbn match. cbn [mbind option_bind].
  rewrite io_complete_success; [|done|cbn [rp_info]; rewrite !length_wide_bytes, length_replicate; lia].
  cbn [mbind option_bind rp_info rp_buf cr_ok cr_bytes cr_out]. eexists _, _. split; [reflexivity|].
  split_and!; [by split|done..|]. cbn [cr_ok cr_bytes cr_out]. rewrite Nat2Z.id, take_write_head, length_wide_bytes.
  replace (Z.of_nat (2 * length val) / 2) with (Z.of_nat (length val)) by zdm. rewrite Nat2Z.id.
  replace n with (length val + (n - length val))%nat by lia. rewrite wide_of_bytes_app by done.
  rewrite resize_le by (rewrite length_app; lia). apply take_app_length.
Qed.

Lemma make_multi_sz_ok devs strs :
  Forall2 stored_string devs strs -> Forall (fun d => is_malformed d = false) devs ->
  make_multi_sz utf8_to_wchar devs = Some (multi_sz strs ++ if bool_decide (devs = []) then [0] else []).
Proof.
  intros Hs Hm. unfold make_multi_sz. rewrite (multi_sz_loop_ok _ _ [] Hs Hm). cbn [mbind option_bind app].
  unfold multi_sz. f_equal. rewrite <- app_assoc. f_equal. by case_bool_decide.
Qed.

Lemma malformed_multi_sz devs acc :
  Exists (fun d => is_malformed d = true) devs -> multi_sz_loop utf8_to_wchar devs acc = None.
Proof.
  intros He. revert acc. induction He as [d devs Hd|d devs _ IH]; intros acc; simpl; [by rewrite Hd|].
  destruct (is_malformed d); [done|]. destruct (utf8_to_wchar _); [apply IH|done].
Qed.

Lemma multi_sz_units strs t : Forall wide_string strs -> Forall is_u16 t -> Forall is_u16 (multi_sz strs ++ t).
Proof.
  intros Hs Ht. unfold multi_sz. repeat (apply Forall_app; split); [|by constructor|done].
  induction Hs as [|s strs (_ & _ & Hu) Hs IH]; simpl; [constructor|]. repeat (apply Forall_app; split); auto. by constructor.
Qed.

Lemma multi_sz_parts strs ws : ws ∈ strs -> (length ws <= length (multi_sz strs))%nat.
Proof.
  unfold multi_sz. induction strs as [|s strs IH]; [by intros ?%elem_of_nil|]. rewrite elem_of_cons.
  simpl. rewrite !length_app in *. cbn [length] in *. intros [->|Hw]; [|specialize (IH Hw)]; lia.
Qed.

(** What a list of devices is stored as. *)
Definition stored_value (devs : list persistent_device) (strs : list (list Z)) : list Z :=
  multi_sz strs ++ if bool_decide (devs = []) then [0] else [].

Lemma stored_value_units devs strs : Forall2 stored_string devs strs -> Forall is_u16 (stored_value devs strs).
Proof.
  intros Hs. apply multi_sz_units; [|case_bool_decide; by repeat constructor].
  clear -Hs Conversions0 Codec0. induction Hs; constructor; [by eapply stored_string_wide|done].
Qed.

(** Storing: a malformed device is refused before the driver is asked. *)
Lemma set_persistent_spec (s : driver) devs strs : Forall2 stored_string devs strs ->
  exists err stored s', set_persistent control utf8_to_wchar devs s = Some (err, stored, s') /\
    same_devices (d_world s) (d_world s') /\ d_reg s' = d_reg s /\
    (Exists (fun d => is_malformed d = true) devs -> stored = false /\ err = ERROR_INVALID_PARAMETER /\ s' = s) /\
    (stored = true -> Forall (fun d => is_malformed d = false) devs /\
       key_assign (d_key s) REG_MULTI_SZ (wide_bytes (stored_value devs strs)) = (STATUS_SUCCESS, d_key s')).
Proof.
  intros Hstrs. destruct (decide (Forall (fun d => is_malformed d = false) devs)) as [Hm|Hm].
  - unfold set_persistent. rewrite (make_multi_sz_ok _ _ Hstrs Hm). fold (stored_value devs strs).
    destruct (set_persistent_call s (stored_value devs strs)) as (r & s' & -> & Hsame & Hreg & Hkey); [by unfold stored_value, multi_sz; destruct (concat _)|].
    cbn [mbind option_bind]. do 3 eexists. split; [reflexivity|]. do 2 (split; [done|]). split; [|by split; [|apply Hkey]].
    intros He. exfalso. apply list.Exists_exists in He as (d & Hd & Hx). rewrite list.Forall_forall in Hm. specialize (Hm d Hd).
    cbn in Hm. congruence.
  - assert (Exists (fun d => is_malformed d = true) devs) as He.
    { apply not_Forall_Exists in Hm; [|solve_decision]. apply list.Exists_exists in Hm as (d & Hd & Hm). apply list.Exists_exists. exists d. split; [done|].
      cbn in Hm. by destruct (is_malformed d). }
    unfold set_persistent, make_multi_sz. rewrite malformed_multi_sz by done. cbn [mbind option_bind]. do 3 eexists.
    split; [reflexivity|]. split; [done|]. split; [done|]. by split.
Qed.

(** Reading it back, at any time later while the key is as it was. *)
Lemma get_persistent_spec (s : driver) k devs strs fuel : Forall2 stored_string devs strs -> Forall (fun d => is_malformed d = false) devs ->
  key_assign k REG_MULTI_SZ (wide_bytes (stored_value devs strs)) = (STATUS_SUCCESS, d_key s) -> key_open k = STATUS_SUCCESS ->
  (length (multi_sz strs) <= 511)%nat -> (1 <= fuel)%nat ->
  exists err s', get_persistent control wchar_to_utf8 fuel s = Some (err, Some devs, s') /\
    same_devices (d_world s) (d_world s') /\ d_reg s' = d_reg s /\ d_key s' = d_key s.
Proof.
  intros Hstrs Hm Hkey Hopen Hlen Hfuel.
  assert (length (stored_value devs strs) <= 512)%nat as Hvl by (unfold stored_value; rewrite length_app; case_bool_decide; simpl; lia).
  destruct (get_persistent_call s 7 (stored_value devs strs) 512 k Hkey Hopen) as (r2 & s2 & Hx & Hs2 & Hr2 & Hk2 & Hok & Hv);
    [by apply stored_value_units|lia..|].
  do 2 eexists. split; [|done].
  unfold get_persistent. destruct fuel as [|fuel]; [lia|]. cbn [get_persistent_devices]. rewrite Hx. cbn [mbind option_bind].
  rewrite Hok, length_replicate, Hv. cbn [mbind option_bind]. unfold stored_value. rewrite split_multi_sz_ok.
  - cbn [mbind option_bind]. rewrite (parse_strings_ok _ _ Hstrs Hm). reflexivity.
  - clear -Hstrs Conversions0 Codec0. induction Hstrs; constructor; [by eapply stored_string_wide|done].
Qed.

(** What the driver reads in the strings. *)
Lemma stored_strings_read devs strs : (forall n, pool n = true) -> (forall x, exists h, hash_string x = (STATUS_SUCCESS, h)) ->
  Forall2 stored_string devs strs -> Forall (fun d => is_malformed d = false) devs ->
  Forall (fun d => pd_serial d <> [] \/ unicode_to_utf8 16 [] = (STATUS_SUCCESS, [])) devs -> (length (multi_sz strs) <= 511)%nat ->
  Forall2 driver_reads devs strs.
Proof.
  intros Hpool Hhash Hstrs Hm Hempty Hlen. apply Forall2_same_length_lookup. split; [by apply Forall2_length in Hstrs|]. intros i d ws Hd Hws.
  apply stored_string_read; auto; [by eapply Forall2_lookup_lr|by apply (Forall_lookup_1 _ _ _ _ Hm Hd)|by apply (Forall_lookup_1 _ _ _ _ Hempty Hd)|].
  apply list_elem_of_lookup_2, multi_sz_parts in Hws. lia.
Qed.

(** C19: persistent devices round-trip.  What set_persistent stored is what get_persistent returns,
    and the driver, which reads the same value when it starts, gets from each of its strings a
    device with the same host, service, bus id and serial number; a malformed device is refused
    before the driver is asked.  It holds for names without commas and terminators, and for a
    value of at most 512 units, the room get_persistent starts with. *)
Theorem persistent_devices_roundtrip (s : driver) (devs : list persistent_device) (strs : list (list Z)) (fuel : nat) :
  key_open (d_key s) = STATUS_SUCCESS -> (1 <= fuel)%nat ->
  (forall n, pool n = true) -> (forall x, exists h, hash_string x = (STATUS_SUCCESS, h)) ->
  Forall (fun d => pd_serial d <> [] \/ unicode_to_utf8 16 [] = (STATUS_SUCCESS, [])) devs ->
  Forall2 stored_string devs strs -> (length (multi_sz strs) <= 511)%nat ->
  exists err stored s', set_persistent control utf8_to_wchar devs s = Some (err, stored, s') /\
    (Exists (fun d => is_malformed d = true) devs -> stored = false /\ err = ERROR_INVALID_PARAMETER /\ s' = s) /\
    (stored = true ->
       exists err' s'', get_persistent control wchar_to_utf8 fuel s' = Some (err', Some devs, s'') /\
         same_devices (d_world s) (d_world s'') /\ Forall2 driver_reads devs strs /\
         exists t size, key_query (d_key s') 1024 = (STATUS_SUCCESS, wide_bytes (multi_sz strs ++ t), size, REG_MULTI_SZ)).
Proof.
  intros Hopen Hfuel Hpool Hhash Hempty Hstrs Hlen.
  destruct (set_persistent_spec s devs strs Hstrs) as (err & stored & s' & Hset & Hsame & _ & Hbad & Hgood). exists err, stored, s'.
  split; [done|]. split; [done|]. intros Hstored. destruct (Hgood Hstored) as [Hm Hkey].
  destruct (get_persistent_spec s' (d_key s) devs strs fuel Hstrs Hm Hkey Hopen Hlen Hfuel) as (err' & s2 & Hget & Hs2 & _ & _).
  exists err', s2. split; [done|]. split; [destruct Hsame, Hs2; split; congruence|]. split; [by apply stored_strings_read|].
  eexists _, _. apply (key_assign_query _ _ _ _ 1024 Hkey). unfold stored_value. rewrite length_wide_bytes, length_app. case_bool_decide; simpl; lia.
Qed.

(** A value of more than 512 units cannot be read back: the driver reports its whole size with a
    warning, and that many bytes are copied over the end of the buffer. *)
Lemma long_list_overruns (s : driver) (val : list Z) k fuel :
  key_assign k REG_MULTI_SZ (wide_bytes val) = (STATUS_SUCCESS, d_key s) -> key_open k = STATUS_SUCCESS ->
  (512 < length val)%nat -> get_persistent control wchar_to_utf8 fuel s = None.
Proof.
  intros Ha Ho Hlen. unfold get_persistent. destruct fuel as [|fuel]; [done|]. cbn [get_persistent_devices].
  assert (control s GET_PERSISTENT [] (wide_bytes (replicate 512 0)) = None) as ->; [|done].
  unfold driver_control, device_control_parallel. cbn [make_request io_code get_parallel_handler].
  unfold Ioctl.get_persistent, retrieve. cbn [make_request io_out io_buf]. rewrite length_wide_bytes, length_replicate.
  rewrite bool_decide_false by done. cbn [andb guard_err]. change (guard_err (0 <=? 2 * 512)%nat STATUS_BUFFER_TOO_SMALL) with (Ok tt). cbn match.
  rewrite (key_assign_open _ _ _ _ Ha), Ho.
  destruct (key_assign_overflow _ _ _ _ (Z.of_nat (2 * 512)) Ha) as [data ->]; [rewrite length_wide_bytes; lia|].
  cbn [mbind option_bind]. unfold STATUS_BUFFER_OVERFLOW, io_complete. cbn [rp_status rp_info].
  change (NT_ERROR (NT_OS 0x80000005)) with false. cbn match. rewrite !length_wide_bytes, length_replicate.
  destruct (Z.ltb_spec (Z.of_nat (2 * 512)) (Z.of_nat (2 * length val))); [done|lia].
Qed.
End persistence.

(** ** Examples: two servers *)
#[local] Existing Instance Events.Demo.framework.
#[local] Existing Instance Attach.Demo.requests.
#[local] Existing Instance Ioctl.Demo.framework.
#[local] Existing Instance Controller.Demo.usb_stack.
#[local] Existing Instance Client.Demo.dos_errors.

Module Demo.

(** One value with its type. *)
#[local] Instance one_value_key : PersistentKey (option (Z * list byte)) := {
  key_open _ := STATUS_SUCCESS;
  key_open_for_set _ := STATUS_SUCCESS;
  key_query k len :=
    match k with
    | None => (NT_OS 0xC0000034, [], 0, 0)
    | Some (ty, bs) => if Z.of_nat (length bs) <=? len then (STATUS_SUCCESS, bs, Z.of_nat (length bs), ty)
                       else (STATUS_BUFFER_OVERFLOW, [], Z.of_nat (length bs), ty)
    end;
  key_assign _ ty bs := (STATUS_SUCCESS, Some (ty, bs)) }.

#[local] Instance one_value_key_laws : PersistentKeyLaws (option (Z * list byte)).
Proof.
  split; try done.
  - intros k k' ty bs len Ha Hl. injection Ha as <-. cbn. destruct (Z.leb_spec (Z.of_nat (length bs)) len); [done|lia].
  - intros k k' ty bs len Ha Hl. injection Ha as <-. cbn. destruct (Z.leb_spec (Z.of_nat (length bs)) len); [lia|eauto].
Qed.

(** ASCII only; the conversions of the library refuse empty strings. *)
Definition wide (s : list byte) : option (list Z) :=
  if decide (Forall (fun b => b2z b < 128) s) then Some (map b2z s) else None.

Definition utf8_to_wchar (s : list byte) : option (list Z) := if bool_decide (s = []) then None else wide s.

Definition wchar_to_utf8 (s : list Z) : option (list byte) := if bool_decide (s = []) then None else Some (map z2b s).

#[local] Instance ascii : Codec wide.
Proof.
  split; unfold wide.
  - done.
  - intros a b x y. do 2 (case_decide; [|done]). intros [= <-] [= <-]. rewrite decide_True by (by apply Forall_app). by rewrite map_app.
  - intros c Hc. by rewrite decide_True by (by repeat constructor).
  - intros a x c. case_decide; [|done]. intros [= <-] _ Hx. apply list_elem_of_fmap in Hx as (b & Hb & Hin). by apply b2z_inj in Hb as ->.
  - intros a x. case_decide as Ha; [|done]. intros [= <-]. apply Forall_fmap. refine (list.Forall_impl _ _ _ Ha _). intros b Hb. cbn.
    pose proof (b2z_range b). unfold is_u16, is_u8 in *. lia.
Qed.

Lemma map_z2b_b2z s : map z2b (map b2z s) = s.
Proof. induction s as [|b s IH]; simpl; [done|]. by rewrite z2b_b2z, IH. Qed.

#[local] Instance conversions : Conversions wide utf8_to_wchar wchar_to_utf8 Events.Demo.utf8.
Proof.
  split; unfold utf8_to_wchar, wchar_to_utf8, Events.Demo.utf8, wide.
  - intros a Ha. by rewrite bool_decide_false.
  - intros a x Ha. case_decide; [|done]. intros [= <-]. rewrite bool_decide_false by (by destruct a). by rewrite map_z2b_b2z.
  - intros n a x Ha. case_decide; [|done]. intros [= <-] _. by rewrite map_z2b_b2z.
Qed.

Definition two_servers : list persistent_device :=
  [{| pd_location := {| hostname := [x70; x63]; service := [x33]; busid := [x31; x2d; x31] |}; pd_serial := [x41; x37] |};
   {| pd_location := {| hostname := [x3a; x3a; x31]; service := [x34]; busid := [x32] |}; pd_serial := [] |}].

Definition two_strings : list (list Z) := map (fun d => map b2z (format_device d)) two_servers.

Lemma two_servers_strings : Forall2 (stored_string wide) two_servers two_strings.
Proof.
  unfold two_strings, two_servers. repeat constructor.
  - exists [112; 99], [51], [49; 45; 49], [65; 55]. split; [|reflexivity].
    split; [repeat split; apply (bool_decide_unpack _); exact I|apply (bool_decide_unpack _); exact I|reflexivity..].
  - exists [58; 58; 49], [52], [50], []. split; [|reflexivity].
    split; [repeat split; apply (bool_decide_unpack _); exact I|apply (bool_decide_unpack _); exact I|reflexivity..].
Qed.

Definition driver0 : driver (W := unit) (R := one_value_registry) (K := option (Z * list byte)) :=
  {| d_world := Ioctl.Demo.claimed; d_reg := storage_registry; d_key := None |}.

Definition control :=
  driver_control (R := one_value_registry) (K := option (Z * list byte)) Client.Demo.dos_error Client.Demo.junk Events.Demo.utf8
    Controller.Demo.to_unicode Attach.Demo.hash_string (fun _ => true) (fun _ => 9) (fun _ => 8) (replicate 268 x55) [x00; x00; x00]
    Client.Demo.new_request.

Lemma two_servers_stored : (fun r => snd (fst r)) <$> set_persistent control utf8_to_wchar two_servers driver0 = Some true.
Proof. vm_compute. reflexivity. Qed.

Lemma persistent_devices_roundtrip_witness :
  exists err s' err' s'', set_persistent control utf8_to_wchar two_servers driver0 = Some (err, true, s') /\
    get_persistent control wchar_to_utf8 1 s' = Some (err', Some two_servers, s'') /\
    Forall2 (driver_reads Events.Demo.utf8 Attach.Demo.hash_string (fun _ => true) wide) two_servers two_strings.
Proof.
  destruct (persistent_devices_roundtrip (R := one_value_registry) (HK := one_value_key_laws) Client.Demo.dos_error Client.Demo.junk
              Events.Demo.utf8 Controller.Demo.to_unicode Attach.Demo.hash_string (fun _ => true) (fun _ => 9) (fun _ => 8)
              (replicate 268 x55) [x00; x00; x00] Client.Demo.new_request wide utf8_to_wchar wchar_to_utf8 driver0 two_servers two_strings 1
              ltac:(reflexivity) (le_n 1) ltac:(reflexivity) ltac:(intros x; eexists; reflexivity)
              ltac:(repeat constructor; by right) two_servers_strings ltac:(vm_compute; lia))
    as (err & stored & s' & Hx & _ & Hok).
  pose proof two_servers_stored as Hr. unfold control in Hr |- *. rewrite Hx in Hr. injection Hr as ->.
  destruct (Hok eq_refl) as (err' & s'' & Hg & _ & Hd & _). exists err, s', err', s''. split; [exact Hx|]. split; [exact Hg|exact Hd].
Defined.

(** A bus id with a comma is accepted, and another device is read back. *)
Lemma comma_not_kept :
  let d := {| pd_location := {| hostname := [x70; x63]; service := [x33]; busid := [x31; x2c; x32] |}; pd_serial := [x41] |} in
  is_malformed d = false /\ parse_persistent_device (format_device d) <> d /\ is_malformed (parse_persistent_device (format_device d)) = true.
Proof. vm_compute. repeat split. discriminate. Qed.
End Demo.
