(* ===== verification/Connect.v ===== *)
(** * Attaching and detaching from an application

    attach and detach of userspace/libusbip/src/vhci.cpp against the handlers of the
    controller: what the driver makes of an attach request, what an application is told
    when it is done, and what is listed after a detach. *)

From stdpp Require Import strings.
From S2P Require Import Prelude Parser DescPatch Policy Session Filter Vhci Events Attach Device Ioctl Controller Client.

(** ** Filling the request *)

Lemma c_string_no_nul s : x00 ∉ c_string s.
Proof.
  induction s as [|b s IH]; simpl; [apply not_elem_of_nil|]. case_bool_decide; [apply not_elem_of_nil|].
  by apply not_elem_of_cons.
Qed.

Lemma strncpy_s_spec dst src :
  if decide (length (c_string src) < length dst)%nat then
    exists buf, strncpy_s dst src = Some buf /\ length buf = length dst /\ c_string buf = c_string src /\ (x00 ∈ buf)
  else strncpy_s dst src = None.
Proof.
  unfold strncpy_s. case_decide as Hd; [|by destruct (Nat.ltb_spec (length (c_string src)) (length dst)); [lia|]].
  destruct (Nat.ltb_spec (length (c_string src)) (length dst)); [|lia]. eexists. split; [reflexivity|]. split_and!.
  - rewrite length_app. cbn [length]. rewrite length_drop. lia.
  - apply c_string_nul_free, c_string_no_nul.
  - apply elem_of_app. right. apply list_elem_of_here.
Qed.

(** The names fit in the structure of the request. *)
Definition location_fits (l : device_location) : bool :=
  (length (c_string (busid l)) <? 32)%nat && (length (c_string (service l)) <? 32)%nat &&
  (length (c_string (hostname l)) <? 1025)%nat.

Record location_of (l : device_location) (r : imported_device_location) : Prop := {
  lo_port : loc_port r = 0;
  lo_sized : location_sized r;
  lo_host : c_string (loc_host r) = c_string (hostname l) /\ (x00 ∈ loc_host r);
  lo_service : c_string (loc_service r) = c_string (service l) /\ (x00 ∈ loc_service r);
  lo_busid : c_string (loc_busid r) = c_string (busid l) /\ (x00 ∈ loc_busid r) }.

Lemma assign_location_spec l :
  if location_fits l then exists r, assign_location zero_location l = (ERROR_SUCCESS, r) /\ location_of l r
  else fst (assign_location zero_location l) = ERROR_INVALID_PARAMETER.
Proof.
  unfold assign_location, location_fits. cbn [zero_location loc_busid loc_service loc_host loc_port].
  pose proof (strncpy_s_spec (replicate 32 x00) (busid l)) as Hb. rewrite length_replicate in Hb.
  pose proof (strncpy_s_spec (replicate 32 x00) (service l)) as Hs. rewrite length_replicate in Hs.
  pose proof (strncpy_s_spec (replicate 1025 x00) (hostname l)) as Hh. rewrite length_replicate in Hh.
  destruct (Nat.ltb_spec (length (c_string (busid l))) 32);
    [rewrite decide_True in Hb by done; destruct Hb as (b & -> & ? & ? & ?)|rewrite decide_False in Hb by lia; by rewrite Hb].
  destruct (Nat.ltb_spec (length (c_string (service l))) 32);
    [rewrite decide_True in Hs by done; destruct Hs as (v & -> & ? & ? & ?)|rewrite decide_False in Hs by lia; by rewrite Hs].
  destruct (Nat.ltb_spec (length (c_string (hostname l))) 1025);
    [rewrite decide_True in Hh by done; destruct Hh as (h & -> & ? & ? & ?)|rewrite decide_False in Hh by lia; by rewrite Hh].
  eexists. split; [reflexivity|]. by constructor.
Qed.

Definition args_fit (args : attach_args) : bool :=
  validate_device_serial (aa_serial args) && location_fits (aa_location args).

Record plugin_for (args : attach_args) (r : plugin_hardware) : Prop := {
  pf_size : ph_size r = sizeof_plugin;
  pf_location : location_of (aa_location args) (ph_location r);
  pf_length : length (ph_serial r) = SERIAL_BUFSZ;
  pf_serial : c_string (ph_serial r) = aa_serial args;
  pf_short : (length (aa_serial args) < SERIAL_BUFSZ)%nat;
  pf_valid : validate_serial_number (ph_serial r) = STATUS_SUCCESS }.

Lemma assign_args_spec args :
  if args_fit args then exists r, assign_args zero_plugin args = (ERROR_SUCCESS, r) /\ plugin_for args r
  else fst (assign_args zero_plugin args) <> ERROR_SUCCESS.
Proof.
  unfold assign_args, assign_serial, args_fit. destruct (validate_device_serial (aa_serial args)) eqn:Hv; [|done].
  destruct (valid_serial _ Hv) as (Hl & Hz & Hs). cbn [negb andb zero_plugin ph_serial ph_size ph_location].
  assert (strncpy_s (replicate SERIAL_BUFSZ x00) (aa_serial args) = Some (aa_serial args ++ replicate (16 - length (aa_serial args)) x00)) as ->.
  { unfold strncpy_s. rewrite c_string_full, length_replicate by done. change SERIAL_BUFSZ with 16%nat.
    replace (length (aa_serial args) <? 16)%nat with true by lia. rewrite drop_replicate.
    by replace (16 - length (aa_serial args))%nat with (S (16 - (length (aa_serial args) + 1))) by lia. }
  pose proof (assign_location_spec (aa_location args)) as Ha. cbn [ph_location]. destruct (location_fits (aa_location args)).
  - destruct Ha as (r & -> & Hr). eexists. split; [reflexivity|].
    constructor; cbn [ph_size ph_location ph_serial]; [done|done| | |unfold SERIAL_BUFSZ; lia|done].
    + rewrite length_app, length_replicate. unfold SERIAL_BUFSZ. lia.
    + replace (16 - length (aa_serial args))%nat with (S (15 - length (aa_serial args))) by lia. by apply c_string_nul_free.
  - destruct (assign_location zero_location (aa_location args)) as [err r]. cbn [fst] in *. by rewrite Ha.
Qed.

(** The driver reads the structure the library wrote. *)
Lemma length_plugin_bytes args r : plugin_for args r -> length (plugin_bytes r) = 1116%nat.
Proof.
  intros [_ [_ Hl _ _ _] Hs _ _ _]. unfold plugin_bytes.
  rewrite !length_app, length_le_bytes, length_location_bytes, length_replicate, Hs by done. done.
Qed.

Lemma plugin_of_plugin_bytes args r t : plugin_for args r -> plugin_of_bytes (plugin_bytes r ++ t) = r.
Proof.
  intros [Hsz [Hp Hl _ _ _] Hs _ _ _]. unfold plugin_of_bytes, plugin_bytes. pose proof (length_location_bytes _ Hl) as Hll.
  rewrite <- !app_assoc. set (buf := le_bytes 4 (ph_size r) ++ _).
  assert (location_of_bytes buf = ph_location r) as ->.
  { change (location_of_bytes buf) with (location_at 4 buf). apply location_at_written; [done|done|by rewrite Hp|].
    unfold slice, buf. rewrite drop_app_length' by done. rewrite <- Hll. apply take_app_length. }
  assert (Policy.field 0 4 buf = ph_size r) as ->.
  { unfold Policy.field, buf. rewrite drop_0, take_app_length' by done. by rewrite Hsz. }
  assert (take 16 (drop 1100 buf) = ph_serial r) as ->.
  { unfold buf. rewrite (app_assoc _ (location_bytes _)), (app_assoc _ (replicate 3 x00)).
    rewrite drop_app_length' by (rewrite !length_app, length_le_bytes, Hll; done). by apply take_app_length'. }
  by destruct r.
Qed.

Lemma write_at_same (x y z : list byte) : write_at (length x) y (x ++ y ++ z) = x ++ y ++ z.
Proof.
  unfold write_at. rewrite take_app_length. do 2 f_equal. rewrite app_assoc, drop_app_length' by (by rewrite length_app). done.
Qed.

Lemma plugin_port_cleared args r t : plugin_for args r ->
  write_at 4 (le_bytes 4 0) (plugin_bytes r ++ t) = plugin_bytes r ++ t.
Proof.
  intros [_ [Hp _ _ _ _] _ _ _ _]. unfold plugin_bytes, location_bytes. rewrite Hp, <- !app_assoc.
  apply (write_at_same (le_bytes 4 (ph_size r))).
Qed.

(** ** The request in the driver *)

Section attributes.
Context (utf8_to_unicode_n : list byte -> ntstatus * list Z).
Context (hash_string : list Z -> ntstatus * Z) (pool : Z -> bool).
Context (pool_total : forall n, pool n = true) (hash_total : forall s, exists h, hash_string s = (STATUS_SUCCESS, h)).

(** The wide string of a name; an empty name is not converted. *)
Definition name_of (s : list byte) (ws : list Z) : Prop :=
  if bool_decide (s = []) then ws = [] else utf8_to_unicode_n s = (STATUS_SUCCESS, ws).

Lemma save_one_name src ws : x00 ∈ src -> name_of (c_string src) ws -> save_one utf8_to_unicode_n pool [] src = (STATUS_SUCCESS, ws).
Proof.
  intros Hz. unfold save_one, name_of. destruct src as [|b src]; [by apply elem_of_nil in Hz|]. cbn [hd c_string].
  destruct (decide (b = x00)) as [->|Hb]; [rewrite (bool_decide_true (x00 = x00)) by done; by intros ->|].
  rewrite (bool_decide_false (b = x00)), (bool_decide_false (_ :: _ = [])) by done. intros Hn.
  unfold utf8_to_unicode. rewrite bool_decide_true by done. cbn [negb c_string]. rewrite bool_decide_false, Hn by done.
  by rewrite pool_total.
Qed.

(** What the driver keeps of a plug-in request. *)
Record attributes_of (args : attach_args) (a : device_attributes) : Prop := {
  ao_host : name_of (c_string (hostname (aa_location args))) (node_name a);
  ao_service : name_of (c_string (service (aa_location args))) (service_name a);
  ao_busid : name_of (c_string (busid (aa_location args))) (Vhci.busid a);
  ao_hash : hash_location hash_string pool a = Ok (location_hash a);
  ao_serial : c_string (Vhci.serial (properties a)) = aa_serial args }.

Definition names (args : attach_args) (host srv bus : list Z) : Prop :=
  name_of (c_string (hostname (aa_location args))) host /\ name_of (c_string (service (aa_location args))) srv /\
  name_of (c_string (busid (aa_location args))) bus /\ Z.of_nat (length host + length srv + length bus) <= 32764.

Lemma create_device_ctx_ext_for args r host srv bus : plugin_for args r -> names args host srv bus ->
  exists a, create_device_ctx_ext utf8_to_unicode_n hash_string pool r = (STATUS_SUCCESS, a) /\ attributes_of args a.
Proof.
  intros [_ [_ _ [Eh Zh] [Es Zs] [Eb Zb]] Hl Hsr Hsh _] (Nh & Ns & Nb & Hlen). unfold create_device_ctx_ext, init_device_attributes, save_device_location.
  cbn [zero_attributes node_name service_name Vhci.busid with_location].
  rewrite (save_one_name (loc_host _) host) by (by rewrite ?Eh). cbn [with_location node_name service_name Vhci.busid].
  rewrite (save_one_name (loc_service _) srv) by (by rewrite ?Es). cbn [with_location node_name service_name Vhci.busid].
  rewrite (save_one_name (loc_busid _) bus) by (by rewrite ?Eb).
  assert (forall h p, hash_location hash_string pool
     {| node_name := host; service_name := srv; Vhci.busid := bus; location_hash := h; properties := p |} =
       Ok (snd (hash_string (host ++ [comma] ++ srv ++ [comma] ++ bus)))) as Hh.
  { intros h p. unfold hash_location. cbn [node_name service_name Vhci.busid]. rewrite pool_total, !length_app. cbn [length].
    match goal with |- context [?a <=? u16 ?b] => replace (a <=? u16 b) with true; [|unfold u16; rewrite Z.mod_small; lia] end.
    by destruct (hash_total (host ++ [comma] ++ srv ++ [comma] ++ bus)) as [x ->]. }
  unfold with_location. cbn [node_name service_name Vhci.busid location_hash properties]. rewrite Hh.
  unfold copy_string. rewrite Hsr. replace (length (aa_serial args) <? SERIAL_BUFSZ)%nat with true by lia.
  eexists. split; [reflexivity|]. unfold with_names, with_hash. cbn [node_name service_name Vhci.busid properties location_hash].
  constructor; cbn [node_name service_name Vhci.busid properties Vhci.serial location_hash]; [done|done|done|apply Hh|].
  replace (SERIAL_BUFSZ - length (aa_serial args))%nat with (S (SERIAL_BUFSZ - length (aa_serial args) - 1)) by lia.
  apply c_string_nul_free. rewrite <- Hsr. apply c_string_no_nul.
Qed.
End attributes.

Section plugging.
Context {W : Type} `{WdfLaws W} `{AttachWdf W} `{Udecx W} `{Controller W}.
Context {R : Type} `{Policy.Registry R} {K : Type} `{PersistentKey K}.
Context (dos_error : ntstatus -> win_error) (junk : nat -> list byte).
Context (unicode_to_utf8 : nat -> list Z -> ntstatus * list byte).
Context (utf8_to_unicode_n : list byte -> ntstatus * list Z).
Context (hash_string : list Z -> ntstatus * Z) (pool : Z -> bool).
Context (source_of : device -> Z) (wi_source : request -> Z).

Definition plugin_code (args : attach_args) : code := if aa_once args then PLUGIN_HARDWARE_ONCE else PLUGIN_HARDWARE.

(** The request of attach as the queue of the controller sees it. *)
Definition plugin_request (q : request) (args : attach_args) (r : plugin_hardware) : ioctl :=
  make_request junk q (plugin_code args) (plugin_bytes r) (take 8 (plugin_bytes r)).

Lemma plugin_request_buffer q args r : exists t, io_buf (plugin_request q args r) = plugin_bytes r ++ t.
Proof. eexists. reflexivity. Qed.

Lemma plugin_accepted (w : world W) q args r a x y :
  (forall n, pool n = true) -> events_ok w -> plugin_for args r ->
  workitem_create (wdf w) = (STATUS_SUCCESS, x) -> memory_create x = (STATUS_SUCCESS, y) ->
  create_device_ctx_ext utf8_to_unicode_n hash_string pool r = (STATUS_SUCCESS, a) ->
  exists rp w', plugin_hardware_ioctl unicode_to_utf8 utf8_to_unicode_n hash_string pool wi_source w (plugin_request q args r) (aa_once args) =
    Some (rp, Some {| wi_request := q; wi_ext := Some a; wi_sock := false; wi_addrs := None; one_attempt := aa_once args; wi_port := 0 |}, w') /\
    events_ok w' /\ rp_info rp = plugin_written /\ io_buf (plugin_request q args r) = rp_buf rp.
Proof.
  intros Hpool Hw Hr Hx Hy Ha. unfold plugin_hardware_ioctl. cbn [plugin_request make_request io_in].
  rewrite (length_plugin_bytes args r Hr). unfold retrieve. change (Z.to_nat sizeof_plugin_hardware) with 1116%nat.
  cbn [bool_decide andb guard_err]. rewrite (bool_decide_false (1116 = 0)%nat) by done. cbn [andb]. rewrite Nat.leb_refl. cbn [guard_err].
  destruct (plugin_request_buffer q args r) as [t Ht]. cbn [plugin_request make_request io_buf] in Ht. unfold plugin_request. cbn [make_request io_buf io_request].
  rewrite Ht, (plugin_of_plugin_bytes args r t Hr), (plugin_port_cleared args r t Hr), (plugin_of_plugin_bytes args r t Hr).
  change (Z.of_nat 1116) with 1116. rewrite (pf_size args r Hr). change (negb (1116 =? sizeof_plugin_hardware)) with false.
  change (negb (sizeof_plugin =? 1116)) with false. cbn match. rewrite (pf_valid args r Hr).
  unfold plugin_hardware_start. rewrite Hx. cbn [wdf set_wdf]. rewrite Hy. rewrite Ha.
  destruct (device_state_changed_ok unicode_to_utf8 (set_wdf (set_wdf w x) y) a 0 connecting (wi_source q)) as (w' & -> & Hw' & _);
    [by apply (events_ok_wdf w y)|].
  cbn [mbind option_bind]. do 2 eexists. split; [reflexivity|]. done.
Qed.

Lemma plugin_queued (w : world W) q args q' r wi rp w' :
  plugin_hardware_ioctl unicode_to_utf8 utf8_to_unicode_n hash_string pool wi_source w (plugin_request q args r) (aa_once args) = Some (rp, Some wi, w') ->
  device_control unicode_to_utf8 utf8_to_unicode_n hash_string pool source_of wi_source w (plugin_request q args r) q' = Some (Working wi, w').
Proof.
  unfold device_control, plugin_request, plugin_code. cbn [make_request io_code]. destruct (aa_once args); by intros ->.
Qed.
End plugging.

(** *** The answer *)

(** Completion of the plug-in request with the status [st] and the port [p]. *)
Definition plugin_done (dos_error : ntstatus -> win_error) (r : plugin_hardware) (buf : list byte) (st : ntstatus) (p : Z)
  : option call_result :=
  io_complete dos_error (take 8 (plugin_bytes r)) {| rp_status := st; rp_info := plugin_written; rp_buf := write_at 4 (le_bytes 4 p) buf |}.

Lemma attach_told {D} dos_error (DeviceIoControl : D -> code -> list byte -> list byte -> option (call_result * D))
    (args : attach_args) (r : plugin_hardware) (s s' : D) buf cr st p :
  assign_args zero_plugin args = (ERROR_SUCCESS, r) -> plugin_for args r -> is_s32 p -> (8 <= length buf)%nat ->
  DeviceIoControl s (plugin_code args) (plugin_bytes r) (take 8 (plugin_bytes r)) = Some (cr, s') ->
  plugin_done dos_error r buf st p = Some cr ->
  Client.attach DeviceIoControl args s =
    Some (if NT_SUCCESS st then (ERROR_SUCCESS, p, s') else (map_attach_error (dos_error st), 0, s')).
Proof.
  intros Ha Hr Hp Hl Hx Hd. unfold Client.attach. rewrite Ha. unfold plugin_code in Hx. rewrite Hx. cbn [mbind option_bind].
  unfold plugin_done, io_complete in Hd. cbn [rp_status rp_info rp_buf] in Hd. destruct (NT_ERROR st) eqn:He.
  { injection Hd as <-. cbn [cr_ok cr_error]. by rewrite (NT_ERROR_not_success st He). }
  rewrite length_take, (length_plugin_bytes args r Hr) in Hd. change (Z.of_nat (8 `min` 1116) <? plugin_written) with false in Hd.
  injection Hd as <-. cbn [cr_ok cr_bytes cr_error cr_out]. destruct (NT_SUCCESS st); [|done].
  change (negb (plugin_written =? plugin_written)) with false. cbn match. do 3 f_equal.
  unfold write_at, Policy.field. change (Z.to_nat plugin_written) with 8%nat.
  rewrite (app_assoc _ (le_bytes 4 p)), take_app_length' by (rewrite length_app, length_take, length_le_bytes; lia).
  rewrite <- app_assoc, drop_app_length', take_app_length' by (rewrite ?length_take, ?length_le_bytes; lia).
  rewrite le_val_le_bytes. change (256 ^ Z.of_nat 4) with (2 ^ 32). by apply s32_u32.
Qed.

Section attaching.
Context {W : Type} `{WdfLaws W} `{AttachWdf W} `{Udecx W} `{Controller W}.
Context (dos_error : ntstatus -> win_error) (junk : nat -> list byte).
Context (unicode_to_utf8 : nat -> list Z -> ntstatus * list byte).
Context (utf8_to_unicode_n : list byte -> ntstatus * list Z).
Context (hash_string : list Z -> ntstatus * Z) (pool : Z -> bool).
Context (pool_total : forall n, pool n = true) (hash_total : forall s, exists h, hash_string s = (STATUS_SUCCESS, h)).
Context (source_of : device -> Z) (wi_source : request -> Z).
Context {N : Type} `{Net N} {R : Type} `{HR : RegistryLaws R}.
Context (parse : list byte -> Z -> nat -> Z -> option nat) `{!ParseDescriptors parse}.

(** *** The work item runs *)

(** The controller when the work item runs: its request is not completed yet, and handles are new. *)
Record item_ready (w : world W) (wi : workitem) (d : device) (r : request) : Prop := {
  ir_wf : hub_wf w; ir_new : new_handle w d; ir_addrs : wi_addrs wi <> Some []; ir_fresh : fresh w (wi_request wi);
  ir_attempt : Vhci.attach w !! r = None /\ r ∉ reattach_req (vhci w) }.

(** The work item runs again until it completes its request with [st] and the port [p]; its last run takes the controller from [w]
    to [w'], talks to the server [n] and may create the device [d].  Other operations may come between two runs.  Only the
    connection of a socket is pending: importing and plugging in are not, as on_connect asserts. *)
Inductive item_ends (w : world W) (n : N) (d : device) (st : ntstatus) (p : Z) (w' : world W) : workitem -> Prop :=
| item_ends_now seen reg stk addrs r answer sock n' wi :
    item_ready w wi d r ->
    complete unicode_to_utf8 parse source_of reg stk w seen n wi addrs d r answer sock = Some (Finished st p, n', w') ->
    item_ends w n d st p w' wi
| item_ends_later v seen m reg stk addrs e r answer sock m' v' wi wi' :
    complete unicode_to_utf8 parse source_of reg stk v seen m wi addrs e r answer sock = Some (Pending wi', m', v') ->
    wi_ext wi' = wi_ext wi -> item_ends w n d st p w' wi' -> item_ends w n d st p w' wi.

(** The device of a finished work item: imported from the server with the attributes of the request, and at the port. *)
Definition attached_at (w w' : world W) (n : N) (a : device_attributes) (d : device) (p : Z) : Prop :=
  1 <= p <= devices_cnt (vhci w') /\ devices (vhci w') !! Z.to_nat (p - 1) = Some (Some d) /\
  exists reg stk fs c, imported unicode_to_utf8 parse reg stk n a fs /\
    dev_ctx w' !! d = Some c /\ attr c = with_import a (ext fs) /\ Vhci.port c = p.

Lemma item_ends_spec (w w' : world W) n d st p wi a : item_ends w n d st p w' wi -> wi_ext wi = Some a ->
  hub_wf w' /\
  (st = STATUS_SUCCESS -> attached_at w w' n a d p) /\
  (st <> STATUS_SUCCESS -> forall i, devices (vhci w') !! i = devices (vhci w) !! i).
Proof.
  induction 1 as [seen reg stk addrs r answer sock n' wi [Hw Hnew Haddrs Hf [Hr Hnr]] Hx|v seen m reg stk addrs e r answer sock m' v' wi wi' _ Hext _ IH];
    intros Ha; [|apply IH; congruence].
  pose proof (complete_ok unicode_to_utf8 parse source_of reg stk w seen n wi a addrs d r answer sock Hw Hnew Ha Haddrs Hf Hr Hnr) as Hc.
  rewrite Hx in Hc. destruct Hc as ([Hw' [Hcnt _] _] & _ & [_ Hfin] & _). split; [done|]. split.
  - intros ->. rewrite bool_decide_true in Hfin by done. destruct Hfin as [(fs & c & Hi & Hc & Hat & Hp & Hrg & _) Hsl].
    unfold in_range in Hrg.
    pose proof (port_range_bounds (vhci w) (dev_speed c) (ports_hub w (wf_ports w (wf_core w Hw)))) as Hb.
    assert (1 <= p <= devices_cnt (vhci w')) as Hpb by lia. split; [done|].
    split; [rewrite Hsl, decide_True by lia; done|]. by exists reg, stk, fs, c.
  - intros Hne. rewrite bool_decide_false in Hfin by done. apply Hfin.
Qed.

(** C17: attach makes the driver import and plug in the device that its caller asks for, and tells its port.  Arguments that are not valid, a serial
    number that is not of 15 letters and digits at most or a name that does not fit, are refused without a
    call.  From the request of any others the driver makes a work item for the same host, service,
    bus id and serial number, for one attempt only if the caller said so.  When that item has run until it
    completed its request, attach returns the outcome: after success there is, at the port that attach returns, the
    device which was imported with the attributes of the request; after an error no port has changed. *)
Theorem attach_as_asked (args : attach_args) :
  if args_fit args then
    exists r, assign_args zero_plugin args = (ERROR_SUCCESS, r) /\
      forall (w : world W) q q' host srv bus x y,
         events_ok w -> workitem_create (wdf w) = (STATUS_SUCCESS, x) -> memory_create x = (STATUS_SUCCESS, y) ->
         names utf8_to_unicode_n args host srv bus ->
         exists wi w' a, device_control unicode_to_utf8 utf8_to_unicode_n hash_string pool source_of wi_source w
                           (plugin_request junk q args r) q' = Some (Working wi, w') /\
           wi_request wi = q /\ one_attempt wi = aa_once args /\ wi_ext wi = Some a /\ events_ok w' /\
           attributes_of utf8_to_unicode_n hash_string pool args a /\
           forall v n d st p v', item_ends v n d st p v' wi -> is_s32 p ->
             hub_wf v' /\
             (st = STATUS_SUCCESS -> attached_at v v' n a d p) /\
             (st <> STATUS_SUCCESS -> forall i, devices (vhci v') !! i = devices (vhci v) !! i) /\
             forall D (DeviceIoControl : D -> code -> list byte -> list byte -> option (call_result * D)) s s' cr,
               DeviceIoControl s (plugin_code args) (plugin_bytes r) (take 8 (plugin_bytes r)) = Some (cr, s') ->
               plugin_done dos_error r (io_buf (plugin_request junk q args r)) st p = Some cr ->
               Client.attach DeviceIoControl args s =
                 Some (if NT_SUCCESS st then (ERROR_SUCCESS, p, s') else (map_attach_error (dos_error st), 0, s'))
  else
    forall D (DeviceIoControl : D -> code -> list byte -> list byte -> option (call_result * D)) s,
      exists err, Client.attach DeviceIoControl args s = Some (err, 0, s) /\ err <> ERROR_SUCCESS.
Proof using All.
  pose proof (assign_args_spec args) as Ha. destruct (args_fit args).
  - destruct Ha as (r & Ha & Hr). exists r. split; [done|]. intros w q q' host srv bus x y Hw Hx Hy Hn.
    destruct (create_device_ctx_ext_for utf8_to_unicode_n hash_string pool pool_total hash_total args r host srv bus Hr Hn) as (a & Hc & Hattr).
    destruct (plugin_accepted junk unicode_to_utf8 utf8_to_unicode_n hash_string pool wi_source w q args r a x y pool_total Hw Hr Hx Hy Hc)
      as (rp & w' & Hp & Hw' & _).
    eexists _, w', a. split; [by apply (plugin_queued _ _ _ _ _ _ _ _ _ _ q' r _ rp w' Hp)|].
    do 5 (split; [done|]). intros v n d st p v' Hends Hps. destruct (item_ends_spec _ _ _ _ _ _ _ a Hends eq_refl) as (Hv & Hs & Hf).
    do 3 (split; [done|]). intros. eapply attach_told; try done. destruct (plugin_request_buffer junk q args r) as [t Ht].
    cbn [plugin_request make_request io_buf] in Ht |- *. rewrite Ht, length_app, (length_plugin_bytes args r Hr). lia.
  - intros D ctl s. unfold Client.attach. destruct (assign_args zero_plugin args) as [err r]. cbn [fst] in Ha.
    exists err. split; [by destruct err|done].
Qed.
End attaching.

(** ** Detaching *)

Lemma attached_in_without {W} (w w' : world W) (l l' : list (option device)) (off p : Z) :
  length l' = length l ->
  (forall i, (i < length l)%nat -> l' !! i = if decide (off + Z.of_nat i + 1 = p) then Some None else l !! i) ->
  (forall i d, l !! i = Some (Some d) ->
     exists c, dev_ctx w !! d = Some c /\ Vhci.port c = off + Z.of_nat i + 1 /\ (Vhci.port c <> p -> dev_ctx w' !! d = Some c)) ->
  attached_in w' l' = filter (fun c => Vhci.port c <> p) (attached_in w l).
Proof.
  revert l' off. induction l as [|o l IH]; intros l' off Hlen Hl Hd; destruct l' as [|o' l']; simpl in Hlen; try lia; [done|].
  assert (attached_in w' l' = filter (fun c => Vhci.port c <> p) (attached_in w l)) as Htl.
  { apply (IH l' (off + 1)); [lia| |].
    - intros i Hi. specialize (Hl (S i) ltac:(simpl; lia)). simpl in Hl. rewrite Hl. by replace (off + 1 + Z.of_nat i + 1) with (off + Z.of_nat (S i) + 1) by lia.
    - intros i d Hi. destruct (Hd (S i) d Hi) as (c & Hc & Hp & Hk). exists c. split_and!; auto; lia. }
  specialize (Hl 0%nat ltac:(simpl; lia)). simpl in Hl. unfold attached_in in *. cbn [omap list_omap]. unfold omap in Htl.
  destruct o as [d|]; cbn [mbind option_bind].
  - destruct (Hd 0%nat d eq_refl) as (c & Hc & Hp & Hk). rewrite Hc. cbn [mbind option_bind].
    destruct (decide (Vhci.port c = p)) as [He|Hne].
    + rewrite decide_True in Hl by lia. injection Hl as ->. cbn [mbind option_bind]. rewrite filter_cons_False by tauto. exact Htl.
    + rewrite decide_False in Hl by lia. injection Hl as ->. cbn [mbind option_bind]. rewrite (Hk Hne). cbn [mbind option_bind].
      rewrite filter_cons_True by done. f_equal. exact Htl.
  - assert (o' = None) as -> by (by case_decide; injection Hl). exact Htl.
Qed.

Lemma attached_in_free {W} (w : world W) l : (forall o, o ∈ l -> o = None) -> attached_in w l = [].
Proof.
  unfold attached_in. induction l as [|o l IH]; intros Hl; [done|]. cbn [omap list_omap].
  rewrite (Hl o) by apply list_elem_of_here. cbn [mbind option_bind]. apply IH. intros x Hx. apply Hl, elem_of_cons. by right.
Qed.

Section detaching.
Context {W : Type} `{WdfLaws W} `{AttachWdf W} `{Udecx W} `{Controller W}.
Context {R : Type} `{Policy.Registry R} {K : Type} `{PersistentKey K}.
Context (dos_error : ntstatus -> win_error) `{!DosErrors dos_error} (junk : nat -> list byte).
Context (junk_length : forall n, length (junk n) = n).
Context (unicode_to_utf8 : nat -> list Z -> ntstatus * list byte).
Context (utf8_to_unicode_n : list byte -> ntstatus * list Z).
Context (hash_string : list Z -> ntstatus * Z) (pool : Z -> bool).
Context (source_of : device -> Z) (wi_source : request -> Z) (stack pad : list byte) (new_request : world W -> request).

(** Handles of new requests are not in use. *)
Context (new_request_fresh : forall w, fresh w (new_request w) /\ Vhci.attach w !! new_request w = None /\ (new_request w ∉ reattach_req (vhci w))).

#[local] Abbreviation control := (driver_control dos_error junk unicode_to_utf8 utf8_to_unicode_n hash_string pool source_of wi_source
                       stack pad new_request).

(** The devices a detach of port [p] leaves; every number below one stands for all ports. *)
Definition left_attached (p : Z) (l : list device_ctx) : list device_ctx :=
  if p <=? 0 then [] else filter (fun c => Vhci.port c <> p) l.

Definition detachable (p : Z) (l : list device_ctx) : bool := (p <=? 0) || existsb (fun c => Vhci.port c =? p) l.

Lemma detach_request_input p : is_s32 p ->
  let buf := le_bytes 4 sizeof_plugout_hardware ++ le_bytes 4 p in
  forall q, plugout_input_ok (make_request junk q PLUGOUT_HARDWARE buf []) /\ plugout_port (make_request junk q PLUGOUT_HARDWARE buf []) = p.
Proof.
  intros Hp buf q. unfold plugout_input_ok, plugout_port. cbn [make_request io_in io_buf]. unfold system_buffer, Policy.field.
  split; [split; [done|]|].
  - rewrite drop_0. unfold buf. rewrite <- app_assoc, take_app_length' by done. done.
  - unfold buf. rewrite <- app_assoc, drop_app_length', take_app_length' by done. rewrite le_val_le_bytes.
    change (256 ^ Z.of_nat 4) with (2 ^ 32). by apply s32_u32.
Qed.

Lemma existsb_port (w : world W) p : hub_wf w -> 0 < p <= devices_cnt (vhci w) ->
  (exists d, devices (vhci w) !! Z.to_nat (p - 1) = Some (Some d)) <-> existsb (fun c => Vhci.port c =? p) (attached w) = true.
Proof.
  intros Hw Hp. pose proof (wf_ports w (wf_core w Hw)) as Hpo. rewrite existsb_exists. setoid_rewrite <- list_elem_of_In. split.
  - intros [d Hd]. destruct (ports_slot w Hpo _ _ Hd) as (c & Hc & Hpc & _). exists c. split; [by eapply attached_lookup|]. lia.
  - intros (c & Hc & Hpc). apply list_elem_of_omap in Hc as (o & Ho & Hc). destruct o as [d|]; [|done]. cbn [mbind option_bind] in Hc.
    apply list_elem_of_lookup in Ho as [i Hi]. destruct (ports_slot w Hpo _ _ Hi) as (c' & Hc' & Hpc' & _).
    rewrite Hc in Hc'. injection Hc' as <-. exists d. rewrite <- Hi. f_equal. lia.
Qed.

Lemma plugout_attached (w : world W) q reattach r p :
  hub_wf w -> Vhci.attach w !! r = None -> r ∉ reattach_req (vhci w) -> plugout_input_ok q -> plugout_port q = p ->
  exists rp w', plugout_hardware unicode_to_utf8 source_of w q reattach r = Some (rp, w') /\
    hub_wf w' /\ (forall x, fresh w' x <-> fresh w x) /\ rp_info rp = 0 /\
    (if detachable p (attached w) then rp_status rp = STATUS_SUCCESS else NT_ERROR (rp_status rp) = true) /\
    attached w' = if detachable p (attached w) then left_attached p (attached w) else attached w.
Proof.
  intros Hw Hr Hn Hin Hp. destruct (plugout_hardware_ok unicode_to_utf8 source_of w q reattach r Hw Hr Hn)
    as (rp & w' & Hx & Ha & Hf & Hi & _ & Hs & _). specialize (Hs Hin). rewrite Hp in Hs. cbv zeta in Hs.
  pose proof (wf_ports w (wf_core w Hw)) as Hpo. pose proof (ports_ok_array w Hpo) as Hlen.
  pose proof (ports_ok_array w' (wf_ports w' (wf_core w' (ad_wf _ _ Ha)))) as Hlen'. destruct (ad_cnt _ _ Ha) as [Hcnt _].
  exists rp, w'. split; [done|]. split; [apply Ha|]. split; [done|]. split; [done|]. unfold detachable, left_attached.
  destruct (Z.leb_spec p 0) as [Hle|Hgt]; cbn [orb].
  { destruct Hs as [-> Hz]. split; [done|]. apply attached_in_free. intros o [j Hj]%list_elem_of_lookup.
    pose proof (lookup_lt_Some _ _ _ Hj). rewrite Hz in Hj by lia. by injection Hj as <-. }
  pose proof (existsb_port w p Hw) as He. destruct (Z.ltb_spec (devices_cnt (vhci w)) p) as [Hout|Hin'].
  { destruct Hs as [-> ->]. destruct (existsb _ _) eqn:E; [|done]. exfalso. apply existsb_exists in E as (c & Hc & Hpc).
    rewrite <- list_elem_of_In in Hc. apply list_elem_of_omap in Hc as (o & Ho & Hc). destruct o as [d|]; [|done].
    cbn [mbind option_bind] in Hc. apply list_elem_of_lookup in Ho as [j Hj]. destruct (ports_slot w Hpo _ _ Hj) as (c' & Hc' & Hpc' & _).
    rewrite Hc in Hc'. injection Hc' as <-. apply lookup_lt_Some in Hj. lia. }
  specialize (He ltac:(lia)). destruct (devices (vhci w) !! Z.to_nat (p - 1)) as [[d|]|] eqn:Ed.
  - destruct He as [He _]. rewrite He by eauto. destruct Hs as (-> & Hg & Hoth & Hsl). split; [done|].
    apply (attached_in_without w w' _ _ 0); [lia| |].
    + intros j Hj. rewrite Hsl. by rewrite Z.add_0_l.
    + intros j e Hj. destruct (ports_slot w Hpo _ _ Hj) as (c & Hc & Hpc & _). exists c. split; [done|]. split; [lia|].
      intros Hne. rewrite Hoth; [done|]. intros ->. destruct (ports_slot w Hpo _ _ Ed) as (c' & Hc' & Hpc' & _).
      rewrite Hc in Hc'. injection Hc' as <-. lia.
  - destruct Hs as [-> ->]. destruct (existsb _ _); [destruct He as [_ He]; destruct He; done|done].
  - destruct Hs as [-> ->]. destruct (existsb _ _); [destruct He as [_ He]; destruct He; done|done].
Qed.

(** The request through the queues. *)
Lemma detach_call (s : driver) (p : Z) x :
  hub_wf (d_world s) -> is_s32 p ->
  forward_to_default (wdf (d_world s)) (new_request (d_world s)) = (STATUS_SUCCESS, x) ->
  exists r s', control s PLUGOUT_HARDWARE (le_bytes 4 sizeof_plugout_hardware ++ le_bytes 4 p) [] = Some (r, s') /\
    hub_wf (d_world s') /\ d_reg s' = d_reg s /\ d_key s' = d_key s /\
    cr_ok r = detachable p (attached (d_world s)) /\
    attached (d_world s') = if detachable p (attached (d_world s)) then left_attached p (attached (d_world s)) else attached (d_world s).
Proof.
  intros Hw Hp Hf. unfold driver_control, device_control_parallel. cbn [make_request io_code get_parallel_handler io_request].
  rewrite Hf. change (NT_SUCCESS STATUS_SUCCESS) with true. cbn match. cbn [mbind option_bind].
  set (w := set_wdf (d_world s) x). assert (hub_wf w) as Hw1 by (apply (ad_wf (d_world s)), advance_wdf, Hw).
  unfold device_control. cbn [make_request io_code]. set (q := make_request junk _ PLUGOUT_HARDWARE _ []).
  destruct (detach_request_input p Hp (new_request (d_world s))) as [Hin Hport]. fold q in Hin, Hport.
  destruct (new_request_fresh w) as (_ & Hn1 & Hn2). destruct (new_request_fresh (d_world s)) as (Hn3 & _ & _).
  destruct (plugout_attached w q false (new_request w) p Hw1 Hn1 Hn2 Hin Hport) as (rp & w' & -> & Hw' & Hfr & Hi & Hst & Hat).
  cbn [mbind option_bind].
  assert (hub_wf (reply_to w' q rp)) as Hw2 by (apply wf_complete; [done|by apply Hfr]).
  change (attached w) with (attached (d_world s)) in *. unfold io_complete. rewrite Hi. cbn [length]. change (Z.of_nat 0 <? 0) with false.
  destruct (detachable p (attached (d_world s))).
  - rewrite Hst. change (NT_ERROR STATUS_SUCCESS) with false. cbn match. cbn [mbind option_bind].
    do 2 eexists. split; [reflexivity|]. by split_and!.
  - rewrite Hst. cbn [mbind option_bind]. do 2 eexists. split; [reflexivity|]. by split_and!.
Qed.

Lemma left_attached_subset p l c : c ∈ left_attached p l -> c ∈ l.
Proof. unfold left_attached. case_match; [by intros ?%elem_of_nil|]. by intros [_ ?]%list_elem_of_filter. Qed.

(** C18: detach takes a device from the list.  It succeeds exactly when the port has a device (zero and
    negative numbers, which stand for all ports, always do), and asking for the imported devices after that
    ends with all devices that were attached before except the one at the port, in the same order. *)
Theorem detached_device_not_listed (s : driver) (p : Z) (fuel : nat) x :
  hub_wf (d_world s) -> is_s32 p -> (7 <= fuel)%nat ->
  (forall c, c ∈ attached (d_world s) -> properties_ok (properties (attr c)) /\ reportable unicode_to_utf8 c) ->
  forward_to_default (wdf (d_world s)) (new_request (d_world s)) = (STATUS_SUCCESS, x) ->
  let before := attached (d_world s) in
  exists err s', detach control p s = Some (err, detachable p before, s') /\
    exists l s'', get_imported_devices control fuel s' = Some (ERROR_SUCCESS, Some l, s'') /\
      Forall2 (describes unicode_to_utf8) l (if detachable p before then left_attached p before else before).
Proof.
  intros Hw Hp Hfuel Hall Hf before. destruct (detach_call s p x Hw Hp Hf) as (r & s' & Hx & Hw' & _ & _ & Hok & Hat).
  unfold detach. rewrite Hx. cbn [mbind option_bind]. rewrite Hok. do 2 eexists. split; [reflexivity|]. fold before in Hat |- *.
  assert (forall c, c ∈ attached (d_world s') -> c ∈ before) as Hsub.
  { intros c. rewrite Hat. case_match; [apply left_attached_subset|done]. }
  destruct (get_imported_devices_all dos_error junk junk_length unicode_to_utf8 utf8_to_unicode_n hash_string pool source_of wi_source
              stack pad new_request s' fuel) as (l & s'' & Hl & Hd & _); [|done|].
  { split; [apply Hw'|]. split; [intros c Hc; by apply Hall, Hsub|]. apply list.Forall_forall. intros c Hc. by apply Hall, Hsub. }
  exists l, s''. split; [done|]. by rewrite Hat in Hd.
Qed.
End detaching.
(** ** Stopping attach attempts *)

(** A location that is fine is refused: no attempts are ever stopped for a location.  Only one that
    does not fit is sent to the driver, as far as it was copied. *)
Lemma stop_attempts_of_location {D} (DeviceIoControl : D -> code -> list byte -> list byte -> option (call_result * D)) l (s : D) :
  if location_fits l then stop_attach_attempts DeviceIoControl (Some l) s = Some (ERROR_INVALID_PARAMETER, -1, s)
  else forall r s', DeviceIoControl s STOP_ATTACH_ATTEMPTS (stop_bytes (snd (assign_location zero_location l)) 0)
                      (stop_bytes (snd (assign_location zero_location l)) 0) = Some (r, s') ->
         exists err n, stop_attach_attempts DeviceIoControl (Some l) s = Some (err, n, s').
Proof.
  pose proof (assign_location_spec l) as Ha. unfold stop_attach_attempts. destruct (location_fits l).
  - by destruct Ha as (r & -> & _).
  - destruct (assign_location zero_location l) as [err dst]. cbn [fst snd] in *. subst err. intros r s' Hx.
    rewrite (bool_decide_false (ERROR_INVALID_PARAMETER = ERROR_SUCCESS)), andb_false_r by done. rewrite Hx. cbn [mbind option_bind].
    destruct (cr_ok r); cbn [negb]; [destruct (negb _)|]; eauto.
Qed.

(** ** Examples *)
#[local] Existing Instance Events.Demo.framework.
#[local] Existing Instance Events.Demo.framework_laws.
#[local] Existing Instance Attach.Demo.requests.
#[local] Existing Instance Ioctl.Demo.framework.
#[local] Existing Instance Ioctl.Demo.persistent_key.
#[local] Existing Instance Controller.Demo.usb_stack.
#[local] Existing Instance Client.Demo.dos_errors.

Module Demo.

(** One attempt for device 1-1 of server pc. *)
Definition args : attach_args :=
  {| aa_location := {| hostname := [x70; x63]; service := [x33]; busid := [x31; x2d; x31] |}; aa_serial := [x41; x37]; aa_once := true |}.

Lemma args_names : names Controller.Demo.to_unicode args [112; 99] [51] [49; 45; 49].
Proof. repeat split; vm_compute; discriminate. Qed.

(** The request that libusbip sends, and the driver with the work item it makes of it. *)
Definition asked : plugin_hardware := snd (assign_args zero_plugin args).

Local Abbreviation ask :=
  (device_control Events.Demo.utf8 Controller.Demo.to_unicode Attach.Demo.hash_string (fun _ => true) (fun _ => 9) (fun _ => 8)
     Attach.Demo.start (plugin_request Client.Demo.junk 60%positive args asked) 61%positive).

Definition asked_world : world unit := match ask with Some (_, w) => w | None => Attach.Demo.start end.
Definition asked_item : workitem := match ask with Some (Working wi, _) => wi | _ => Controller.Demo.item end.

Local Abbreviation run_item w wi addrs :=
  (complete Events.Demo.utf8 parse_with_find_next (fun _ => 9) storage_registry [] w false (stick_server storage_config) wi addrs
     3%positive 70%positive STATUS_SUCCESS (STATUS_SUCCESS, STATUS_SUCCESS, STATUS_SUCCESS)).

Definition connecting_item : workitem := match run_item asked_world asked_item [1] with Some (Pending wi, _, _) => wi | _ => asked_item end.

Definition connected_world : world unit := match run_item asked_world connecting_item [] with Some (_, _, w) => w | None => asked_world end.

Lemma asked_wf : hub_wf asked_world.
Proof.
  destruct (device_control_ok Events.Demo.utf8 Controller.Demo.to_unicode Attach.Demo.hash_string (fun _ => true) parse_with_find_next (fun _ => 9) (fun _ => 8)
              Attach.Demo.start (plugin_request Client.Demo.junk 60%positive args asked) 61%positive Controller.Demo.start_wf)
    as (h & w & Hx & Ha & _); [apply (bool_decide_unpack _); vm_compute; exact I|reflexivity|apply (bool_decide_unpack _); vm_compute; exact I|].
  unfold asked_world. rewrite Hx. apply Ha.
Qed.

(** The address is found, the socket is connected, the stick is imported and plugged in. *)
Lemma asked_item_ends : item_ends Events.Demo.utf8 (fun _ => 9) parse_with_find_next asked_world (stick_server storage_config) 3%positive
  STATUS_SUCCESS 1 connected_world asked_item.
Proof.
  apply (item_ends_later _ _ _ _ _ _ _ _ _ asked_world false (stick_server storage_config) storage_registry [] [1] 3%positive 70%positive STATUS_SUCCESS
           (STATUS_SUCCESS, STATUS_SUCCESS, STATUS_SUCCESS) (stick_server storage_config) asked_world asked_item connecting_item);
    [vm_compute; reflexivity|vm_compute; reflexivity|].
  eapply (item_ends_now _ _ _ _ _ _ _ _ _ false storage_registry [] [] 70%positive STATUS_SUCCESS
           (STATUS_SUCCESS, STATUS_SUCCESS, STATUS_SUCCESS) _ connecting_item).
  - split; [exact asked_wf|split; vm_compute; reflexivity|discriminate|apply (bool_decide_unpack _); vm_compute; exact I|].
    split; [vm_compute; reflexivity|]. apply (bool_decide_unpack _). vm_compute. exact I.
  - vm_compute. reflexivity.
Qed.

Lemma attach_as_asked_witness :
  args_fit args = true /\ asked_item = {| wi_request := 60%positive; wi_ext := wi_ext asked_item; wi_sock := false; wi_addrs := None; one_attempt := true; wi_port := 0 |} /\
  exists a, wi_ext asked_item = Some a /\ c_string (Vhci.serial (properties a)) = aa_serial args /\
    attached_at Events.Demo.utf8 parse_with_find_next asked_world connected_world (stick_server storage_config) a 3%positive 1.
Proof.
  split; [reflexivity|]. split; [vm_compute; reflexivity|].
  pose proof (attach_as_asked (W := unit) Client.Demo.dos_error Client.Demo.junk Events.Demo.utf8 Controller.Demo.to_unicode
                Attach.Demo.hash_string (fun _ => true) ltac:(reflexivity) ltac:(intros x; eexists; reflexivity) (fun _ => 9) (fun _ => 8)
                parse_with_find_next args) as Ha.
  destruct (args_fit args) eqn:E; [|discriminate E]. destruct Ha as (r & Hr & Hw).
  assert (r = asked) as -> by (unfold asked; by rewrite Hr).
  destruct (Hw Attach.Demo.start 60%positive 61%positive [112; 99] [51] [49; 45; 49] tt tt
              (wf_events _ (wf_core _ Controller.Demo.start_wf)) eq_refl eq_refl args_names) as (wi & w' & a & Hx & _ & _ & Hext & _ & Ha & Hends).
  assert (wi = asked_item) as -> by (unfold asked_item; by rewrite Hx).
  exists a. split; [exact Hext|]. split; [apply Ha|]. destruct (Hends _ _ _ _ _ _ asked_item_ends ltac:(split; vm_compute; congruence)) as (_ & Hs & _).
  exact (Hs eq_refl).
Defined.

Lemma stick_detachable : detachable 1 (attached (d_world (Client.Demo.stick_driver Controller.Demo.attached_world))) = true.
Proof. vm_compute. reflexivity. Qed.

Lemma nothing_left : left_attached 1 (attached (d_world (Client.Demo.stick_driver Controller.Demo.attached_world))) = [].
Proof. vm_compute. reflexivity. Qed.

Lemma detach_forwarded :
  forward_to_default (wdf (d_world (Client.Demo.stick_driver Controller.Demo.attached_world)))
    (Client.Demo.new_request (d_world (Client.Demo.stick_driver Controller.Demo.attached_world))) = (STATUS_SUCCESS, tt).
Proof. vm_compute. reflexivity. Qed.

Lemma stick_listable c : c ∈ attached Controller.Demo.attached_world -> properties_ok (properties (attr c)) /\ reportable Events.Demo.utf8 c.
Proof.
  intros Hc. assert (Forall (fun c => properties_ok (properties (attr c)) /\ reportable Events.Demo.utf8 c) (attached Controller.Demo.attached_world)) as Hall.
  { remember (attached Controller.Demo.attached_world) as l eqn:El. vm_compute in El. subst l. repeat constructor; try done.
    all: (eexists; split; [reflexivity|]; split; [simpl; lia|]; apply (bool_decide_unpack _); vm_compute; exact I). }
  rewrite list.Forall_forall in Hall. by apply Hall.
Qed.

Lemma detached_device_not_listed_witness :
  exists err s' s'', detach Client.Demo.control 1 (Client.Demo.stick_driver Controller.Demo.attached_world) = Some (err, true, s') /\
    get_imported_devices Client.Demo.control 7 s' = Some (ERROR_SUCCESS, Some [], s'').
Proof.
  destruct (detached_device_not_listed (R := one_value_registry) (K := list byte) Client.Demo.dos_error Client.Demo.junk Client.Demo.junk_length
              Events.Demo.utf8 Controller.Demo.to_unicode Attach.Demo.hash_string (fun _ => true) (fun _ => 9) (fun _ => 8)
              (replicate 268 x55) [x00; x00; x00] Client.Demo.new_request Client.Demo.new_request_fresh
              (Client.Demo.stick_driver Controller.Demo.attached_world) 1 7 tt Controller.Demo.attached_wf ltac:(split; vm_compute; [discriminate|reflexivity])
              (le_n 7) stick_listable detach_forwarded) as (err & s' & Hx & l & s'' & Hl & Hd).
  exists err, s', s''. split; [exact (eq_trans Hx (f_equal (fun b => Some (err, b, s')) stick_detachable))|].
  cbv zeta in Hd. rewrite stick_detachable, nothing_left in Hd. apply Forall2_nil_inv_r in Hd as ->. exact Hl.
Defined.
End Demo.
