(* ===== verification/Remote.v ===== *)
(** * Talking to a server from an application

    userspace/libusbip/src/remote.cpp with last_error.h and win_socket.h: connecting to a
    server, which an asynchronous procedure call can cancel, and asking it for the devices
    it exports (OP_REQ_DEVLIST).  The calls of Winsock are interfaces; what is proved about
    them holds for every answer they give, or says what it needs of them. *)

From S2P Require Import Prelude Policy Session Vhci Events Attach Ioctl Client.

(** ** The thread's last error *)

(** What a thread has besides the network: GetLastError(). *)
Record thread (N : Type) : Type := { net : N; last_error : win_error }.
Arguments net {_} _.
Arguments last_error {_} _.

Definition with_error {N} (t : thread N) (err : win_error) : thread N := {| net := net t; last_error := err |}.
Definition with_net {N} (t : thread N) (n : N) : thread N := {| net := n; last_error := last_error t |}.

(** ** Sending and receiving *)

(** ::recv with MSG_WAITALL: an error, or the bytes, fewer than asked for when the server
    closed the connection; ::send: an error, or the number of bytes taken. *)
Class Transport (N : Type) : Type := {
  sock_recv : N -> nat -> (win_error + list byte) * N;
  sock_send : N -> list byte -> (win_error + nat) * N }.

Definition OP_REQ_DEVLIST : Z := 0x8005.
Definition OP_REP_DEVLIST : Z := 0x0005.

Record usb_interface : Type := { bInterfaceClass : byte; bInterfaceSubClass : byte; bInterfaceProtocol : byte; padding : byte }.

(** usb_device of libusbip/remote.h *)
Record usb_device : Type := {
  u_path : list byte; u_busid : list byte; u_busnum : Z; u_devnum : Z; u_speed : usb_speed;
  u_idVendor : Z; u_idProduct : Z; u_bcdDevice : Z;
  u_class : Z; u_subclass : Z; u_protocol : Z; u_configuration : Z; u_configurations : Z; u_interfaces : Z }.

(** The calls of on_dev_cnt, on_dev and on_intf. *)
Inductive callback : Type :=
| OnDevCnt (count : Z)
| OnDev (idx : Z) (dev : usb_device)
| OnIntf (dev_idx : Z) (dev : usb_device) (idx : Z) (intf : usb_interface).

Definition usbip_error (st : ntstatus) : win_error := match st with STATUS_SUCCESS => ERROR_SUCCESS | st => Usbip st end.

(** std::string of a char array: the characters up to the first terminator, which may be in
    the memory after the array; [None] when there is none up to the end of the structure. *)
Definition std_string (mem : list byte) : option (list byte) :=
  if bool_decide (x00 ∈ mem) then Some (c_string mem) else None.

Definition as_usb_device (d : usbip_usb_device) : option usb_device :=
  let mem := usb_device_bytes d in
  p ← std_string mem;
  b ← std_string (drop DEV_PATH_MAX mem);
  Some {| u_path := p; u_busid := b; u_busnum := busnum d; u_devnum := devnum d; u_speed := win_speed (s32 (udev_speed d));
          u_idVendor := idVendor d; u_idProduct := idProduct d; u_bcdDevice := bcdDevice d;
          u_class := bDeviceClass d; u_subclass := bDeviceSubClass d; u_protocol := bDeviceProtocol d;
          u_configuration := bConfigurationValue d; u_configurations := bNumConfigurations d; u_interfaces := bNumInterfaces d |}.

Definition interface_of_bytes (bs : list byte) : usb_interface :=
  {| bInterfaceClass := nth 0 bs x00; bInterfaceSubClass := nth 1 bs x00; bInterfaceProtocol := nth 2 bs x00; padding := nth 3 bs x00 |}.

Definition interface_bytes (i : usb_interface) : list byte :=
  [bInterfaceClass i; bInterfaceSubClass i; bInterfaceProtocol i; padding i].

Section exchange.
Context {N : Type} `{Transport N}.

(** recv: whether all bytes came, what came, the thread. *)
Definition recv (t : thread N) (len : nat) : bool * list byte * thread N :=
  match sock_recv (net t) len with
  | (inl err, n) => (false, [], with_error (with_net t n) err)
  | (inr bs, n) => (bool_decide (length bs = len), bs, with_net t n)
  end.

(** send; [None] when [fuel] calls did not take everything. *)
Fixpoint send (fuel : nat) (t : thread N) (buf : list byte) : option (bool * thread N) :=
  match buf with
  | [] => Some (true, t)
  | _ =>
      match fuel with
      | O => None
      | S fuel =>
          match sock_send (net t) buf with
          | (inl err, n) => Some (false, with_error (with_net t n) err)
          | (inr ret, n) => send fuel (with_net t n) (drop ret buf)
          end
      end
  end.

Definition send_op_common (t : thread N) (code : Z) : option (bool * thread N) :=
  let r := byteswap_op_common {| version := USBIP_VERSION; Session.code := code; status := 0 |} in
  send (length (op_common_bytes r)) t (op_common_bytes r).

(** recv_op_common: when not all bytes come it returns the last error, whatever that is. *)
Definition recv_op_common (t : thread N) (expected_code : Z) : win_error * thread N :=
  let '(good, data, t) := recv t 8 in
  if negb good then (last_error t, t)
  else
    let r := byteswap_op_common (op_common_of_bytes data) in
    if negb (version r =? USBIP_VERSION) then (Usbip USBIP_ERROR_VERSION, t)
    else if negb (Session.code r =? expected_code) then (Usbip USBIP_ERROR_PROTOCOL, t)
    else (usbip_error (op_status_error (s32 (status r))), t).

(** The loop over the interfaces of a device. *)
Fixpoint interfaces_loop (n : nat) (i : Z) (d : usb_device) (j : Z) (t : thread N) (evs : list callback)
  : bool * list callback * thread N :=
  match n with
  | O => (true, evs, t)
  | S n =>
      let '(good, data, t) := recv t 4 in
      if good then interfaces_loop n i d (j + 1) t (evs ++ [OnIntf (s32 i) d j (interface_of_bytes data)])
      else (false, evs, t)
  end.

(** The loop over the devices; [None] when a name is read past the end of the reply. *)
Fixpoint devices_loop (n : nat) (i : Z) (t : thread N) (evs : list callback) : option (bool * list callback * thread N) :=
  match n with
  | O => Some (true, evs, t)
  | S n =>
      let '(good, data, t) := recv t 312 in
      if negb good then Some (false, evs, t)
      else
        d ← as_usb_device (byteswap_usb_device (usb_device_of_bytes data));
        let '(good, evs, t) := interfaces_loop (Z.to_nat (u_interfaces d)) i d 0 t (evs ++ [OnDev (s32 i) d]) in
        if good : bool then devices_loop n (i + 1) t evs else Some (false, evs, t)
  end.

(** enum_exportable_devices: the result, the calls of the callbacks, the thread. *)
Definition enum_exportable_devices (t : thread N) (count_wanted : bool) : option (bool * list callback * thread N) :=
  '(good, t) ← send_op_common t OP_REQ_DEVLIST;
  if negb (good : bool) then Some (false, [], t)
  else
    let '(err, t) := recv_op_common t OP_REP_DEVLIST in
    match err with
    | ERROR_SUCCESS =>
        let '(good, data, t) := recv t 4 in
        if negb good then Some (false, [], t)
        else
          let ndev := bswap32 (le_val data) in
          devices_loop (Z.to_nat ndev) 0 t (if count_wanted then [OnDevCnt (s32 ndev)] else [])
    | err => Some (false, [], with_error t err)
    end.
End exchange.

(** ** Connecting *)

(** A socket and what is asked of it. *)
Inductive sock_option : Type := KeepAliveValues | NoDelay | Ipv6OnlyOff | ConnectContext.

(** The calls made on sockets, in order; those that connect with what Winsock answered: connect, and
    WSAEnumNetworkEvents (its error, or that of the connection). *)
Inductive sock_action : Type :=
| Opened (s : positive) | Closed (s : positive) | OptionSet (s : positive) (o : sock_option)
| ConnectAnswered (s : positive) (err : win_error) | EventAnswered (s : positive) (r : win_error + win_error) | ConnectedByName (s : positive) | EventsSelected (s : positive) | EventsUnselected (s : positive)
| NonblockingOff (s : positive).

(** WSAWaitForMultipleEvents, WaitForSingleObjectEx: the event, an asynchronous procedure
    call, or an error. *)
Inductive wait_result : Type := WaitEvent | WaitApc | WaitFailed (err : win_error).

Definition ERROR_CANCELLED : win_error := WinError 1223.
Definition WSAEWOULDBLOCK : win_error := WinError 10035.
Definition WSA_IO_PENDING : win_error := WinError 997.

(** Calls of Winsock; ERROR_SUCCESS is success, [addr] an entry of the resolver's list. *)
Class Sockets (N addr : Type) : Type := {
  new_socket : N -> addr -> (win_error + positive) * N;
  new_socket_of_family : N -> bool -> (win_error + positive) * N;      (* AF_INET6 or AF_INET *)
  set_option : N -> positive -> sock_option -> win_error * N;
  connect_by_name : N -> positive -> list Z -> list Z -> win_error * N;
  reset_event : N -> win_error * N;
  select_events : N -> positive -> bool -> win_error * N;              (* FD_CONNECT or nothing *)
  set_blocking : N -> positive -> win_error * N;
  connect_address : N -> positive -> addr -> win_error * N;
  wait_events : N -> wait_result * N;
  connect_event : N -> positive -> (win_error + win_error) * N;        (* WSAEnumNetworkEvents *)
  create_event : N -> win_error * N;
  get_addr_info : N -> list Z -> list Z -> (win_error * list addr) * N;
  wait_resolved : N -> bool -> wait_result * N;
  overlapped_result : N -> win_error * N;
  cancel_resolve : N -> win_error * N }.

(** The network and the actions so far. *)
Record connecting (N : Type) : Type := { cn : N; actions : list sock_action }.
Arguments cn {_} _.
Arguments actions {_} _.

Definition act {N} (c : connecting N) (n : N) (acts : list sock_action) : connecting N :=
  {| cn := n; actions := actions c ++ acts |}.

Section connecting.
Context {N addr : Type} `{Sockets N addr}.
Context (utf8_to_wchar : list byte -> win_error + list Z).

Definition no_error (err : win_error) : bool := bool_decide (err = ERROR_SUCCESS).

Definition do_setsockopt (c : connecting N) (s : positive) (o : sock_option) : win_error * connecting N :=
  let '(err, n) := set_option (cn c) s o in (err, act c n (if no_error err then [OptionSet s o] else [])).

(** set_options: set_keepalive(timeout, interval) && set_nodelay *)
Definition set_options (c : connecting N) (s : positive) : win_error * connecting N :=
  let '(err, c) := do_setsockopt c s KeepAliveValues in
  if no_error err then do_setsockopt c s NoDelay else (err, c).

(** WSAEventSelect, with FD_CONNECT or to cancel it *)
Definition event_select (c : connecting N) (s : positive) (connect : bool) : win_error * connecting N :=
  let '(err, n) := select_events (cn c) s connect in
  (err, act c n (if no_error err then [if connect then EventsSelected s else EventsUnselected s] else [])).

Definition prepare_event (c : connecting N) (s : positive) : win_error * connecting N :=
  let '(err, n) := reset_event (cn c) in
  if no_error err then event_select (act c n []) s true else (err, act c n []).

(** set_nonblock(false) *)
Definition set_nonblock_off (c : connecting N) (s : positive) : win_error * connecting N :=
  let '(err, n) := set_blocking (cn c) s in (err, act c n (if no_error err then [NonblockingOff s] else [])).

Definition try_connect (c : connecting N) (s : positive) (a : addr) : win_error * connecting N :=
  let '(err, n) := connect_address (cn c) s a in
  let c := act c n [ConnectAnswered s err] in
  if no_error err then (ERROR_SUCCESS, c)
  else if negb (bool_decide (err = WSAEWOULDBLOCK)) then (err, c)
  else
    let '(w, n) := wait_events (cn c) in
    match w with
    | WaitEvent =>
        let '(r, n) := connect_event n s in
        (match r with inl err => err | inr err => err end, act c n [EventAnswered s r])
    | WaitApc => (ERROR_CANCELLED, act c n [])
    | WaitFailed err => (err, act c n [])
    end.

(** wait_for_resolve; [fuel] waits. *)
Fixpoint wait_for_resolve (fuel : nat) (n : N) (alertable : bool) : option (win_error * N) :=
  match fuel with
  | O => None
  | S fuel =>
      let '(w, n) := wait_resolved n alertable in
      match w with
      | WaitEvent => Some (overlapped_result n)
      | WaitApc =>
          let '(err, n) := cancel_resolve n in
          if no_error err then wait_for_resolve fuel n false else Some (err, n)
      | WaitFailed err => Some (err, n)
      end
  end.

Definition host_and_service (hostname service : list byte) : win_error + (list Z * list Z) :=
  match utf8_to_wchar hostname, utf8_to_wchar service with
  | inr h, inr s => inr (h, s)
  | inl err, _ => inl err
  | _, inl err => inl err
  end.

(** resolve: the last error and the addresses. *)
Definition resolve (fuel : nat) (n : N) (hostname service : list byte) : option (win_error * list addr * N) :=
  match host_and_service hostname service with
  | inl err => Some (err, [], n)
  | inr (host, svc) =>
      let '(err, n) := create_event n in
      if no_error err then
        let '(res, n) := get_addr_info n host svc in
        let '(err, result) := res in
        if bool_decide (err = WSA_IO_PENDING) then
          '(err, n) ← wait_for_resolve fuel n true;
          Some (err, if no_error err then result else [], n)
        else Some (err, if no_error err then result else [], n)
      else Some (err, [], n)
  end.

(** Socket::reset closes the handle it had, Socket::close too. *)
Definition closing (sock : option positive) : list sock_action := match sock with Some s => [Closed s] | None => [] end.

(** One round of the loop of connect: the socket afterwards, the last error (unchanged when
    [None]), whether the socket is returned or the loop goes on. *)
Inductive round_result : Type := Return | Continue | Break.

Definition connect_round (c : connecting N) (sock : option positive) (a : addr)
  : option positive * option win_error * round_result * connecting N :=
  let '(r, n) := new_socket (cn c) a in
  match r with
  | inl err => (None, Some err, Continue, act c n (closing sock))
  | inr s =>
      let c := act c n (Opened s :: closing sock) in
      let '(err, c) := set_options c s in
      if negb (no_error err) then (Some s, Some err, Continue, c)
      else
        let '(err, c) := prepare_event c s in
        if negb (no_error err) then (Some s, Some err, Continue, c)
        else
          let '(err, c) := try_connect c s a in
          if negb (no_error err) then
            (Some s, Some err, if bool_decide (err = ERROR_CANCELLED) then Break else Continue, c)
          else
            let '(err, c) := event_select c s false in
            if negb (no_error err) then (Some s, Some err, Continue, c)
            else
              let '(err, c) := set_nonblock_off c s in
              if no_error err then (Some s, None, Return, c) else (Some s, Some err, Continue, c)
  end.

Fixpoint connect_loop (addrs : list addr) (last : win_error) (sock : option positive) (c : connecting N)
  : option positive * win_error * connecting N :=
  match addrs with
  | [] => (None, last, act c (cn c) (closing sock))
  | a :: addrs =>
      let '(sock, err, r, c) := connect_round c sock a in
      let last := default last err in
      match r with
      | Return => (sock, last, c)
      | Continue => connect_loop addrs last sock c
      | Break => (None, last, act c (cn c) (closing sock))
      end
  end.

(** connect with options *)
Definition connect_cancellable (fuel : nat) (c : connecting N) (hostname service : list byte) (options : Z)
  : option (option positive * win_error * connecting N) :=
  if negb (options =? 1) then Some (None, ERROR_INVALID_PARAMETER, c)
  else
    '(err, addrs, n) ← resolve fuel (cn c) hostname service;
    let c := act c n [] in
    match addrs with
    | [] => Some (None, err, c)
    | _ =>
        let '(e, n) := create_event (cn c) in
        let c := act c n [] in
        if no_error e then Some (connect_loop addrs err None c) else Some (None, e, c)
    end.

(** connect: by name, over IPv4 and, when a socket for that cannot be made, over both. *)
Definition family_round (c : connecting N) (sock : option positive) (ipv6 : bool) (host svc : list Z)
  : option positive * option win_error * round_result * connecting N :=
  let '(r, n) := new_socket_of_family (cn c) ipv6 in
  match r with
  | inl err => (None, Some err, Continue, act c n (closing sock))
  | inr s =>
      let c := act c n (Opened s :: closing sock) in
      let '(err, c) := if ipv6 then do_setsockopt c s Ipv6OnlyOff else (ERROR_SUCCESS, c) in
      if negb (no_error err) then (Some s, Some err, Continue, c)
      else
        let '(err, c) := set_options c s in
        if negb (no_error err) then (Some s, Some err, Continue, c)
        else
          let '(err, n) := connect_by_name (cn c) s host svc in
          let c := act c n (if no_error err then [ConnectedByName s] else []) in
          if negb (no_error err) then (Some s, Some err, Break, c)
          else
            let '(err, c) := do_setsockopt c s ConnectContext in
            if no_error err then (Some s, None, Return, c) else (Some s, Some err, Break, c)
  end.

Fixpoint family_loop (families : list bool) (host svc : list Z) (last : win_error) (sock : option positive) (c : connecting N)
  : option positive * win_error * connecting N :=
  match families with
  | [] => (None, last, act c (cn c) (closing sock))
  | f :: families =>
      let '(sock, err, r, c) := family_round c sock f host svc in
      let last := default last err in
      match r with
      | Return => (sock, last, c)
      | Continue => family_loop families host svc last sock c
      | Break => (None, last, act c (cn c) (closing sock))
      end
  end.

Definition connect_named (c : connecting N) (hostname service : list byte) : option positive * win_error * connecting N :=
  match host_and_service hostname service with
  | inl err => (None, err, c)
  | inr (host, svc) => family_loop [false; true] host svc ERROR_SUCCESS None c
  end.
End connecting.

(** ** The exchange on a connection that works until the server closes it *)

Class Stream (N : Type) `{Transport N} : Type := {
  incoming : N -> list byte;      (* what the server sends from now on *)
  outgoing : N -> list byte;      (* what it was sent *)
  recv_stream : forall n len, exists n', sock_recv n len = (inr (take len (incoming n)), n') /\
      incoming n' = drop len (incoming n) /\ outgoing n' = outgoing n;
  send_stream : forall n buf, buf <> [] -> exists ret n', sock_send n buf = (inr ret, n') /\
      (0 < ret <= length buf)%nat /\ outgoing n' = outgoing n ++ take ret buf /\ incoming n' = incoming n }.

(** The reply, as it is on the wire. *)
Definition wire_device (d : usbip_usb_device * list usb_interface) : list byte :=
  usb_device_bytes (byteswap_usb_device (fst d)) ++ concat (map interface_bytes (snd d)).

Definition wire_devices (devs : list (usbip_usb_device * list usb_interface)) : list byte := concat (map wire_device devs).

Definition wire_reply (devs : list (usbip_usb_device * list usb_interface)) : list byte :=
  wire_op_common USBIP_VERSION OP_REP_DEVLIST 0 ++ be_bytes 4 (Z.of_nat (length devs)) ++ wire_devices devs.

Definition device_ok (d : usbip_usb_device * list usb_interface) : Prop :=
  usb_device_ok (fst d) /\ Z.of_nat (length (snd d)) = bNumInterfaces (fst d).

(** The calls of the callbacks; [None] when a name has no terminator. *)
Fixpoint interface_events (i : Z) (d : usb_device) (j : Z) (intfs : list usb_interface) : list callback :=
  match intfs with [] => [] | x :: intfs => OnIntf (s32 i) d j x :: interface_events i d (j + 1) intfs end.

Fixpoint device_events (i : Z) (devs : list (usbip_usb_device * list usb_interface)) : option (list callback) :=
  match devs with
  | [] => Some []
  | (d, intfs) :: devs =>
      u ← as_usb_device d;
      evs ← device_events (i + 1) devs;
      Some ((OnDev (s32 i) u :: interface_events i u 0 intfs) ++ evs)
  end.

Section stream.
Context {N : Type} `{Stream N}.

Lemma recv_take (t : thread N) len : exists n', recv t len = (bool_decide (length (take len (incoming (net t))) = len), take len (incoming (net t)), with_net t n') /\
  incoming n' = drop len (incoming (net t)) /\ outgoing n' = outgoing (net t).
Proof. unfold recv. destruct (recv_stream (net t) len) as (n' & -> & Hi & Ho). eauto. Qed.

(** All the bytes asked for, or a short read. *)
Lemma recv_app (t : thread N) len bs rest : length bs = len -> incoming (net t) = bs ++ rest ->
  exists n', recv t len = (true, bs, with_net t n') /\ incoming n' = rest /\ outgoing n' = outgoing (net t).
Proof.
  intros Hl Hi. destruct (recv_take t len) as (n' & Hx & Hi' & Ho). rewrite Hi in *.
  rewrite take_app_length', drop_app_length' in * by done. rewrite bool_decide_true in Hx by done. eauto.
Qed.

Lemma recv_true (t t' : thread N) len bs : recv t len = (true, bs, t') ->
  length bs = len /\ incoming (net t) = bs ++ incoming (net t') /\ outgoing (net t') = outgoing (net t).
Proof.
  destruct (recv_take t len) as (n' & -> & Hi & Ho). intros [= Hl <- <-]. apply bool_decide_eq_true in Hl. split; [done|].
  cbn [net with_net]. rewrite Hi. split; [by rewrite take_drop|done].
Qed.

Lemma send_all fuel (t : thread N) buf : (length buf <= fuel)%nat ->
  exists n', send fuel t buf = Some (true, with_net t n') /\ incoming n' = incoming (net t) /\ outgoing n' = outgoing (net t) ++ buf.
Proof.
  revert t buf. induction fuel as [|fuel IH]; intros t buf Hl.
  - destruct buf; [|simpl in Hl; lia]. exists (net t). rewrite app_nil_r. by destruct t.
  - destruct buf as [|b buf]; [exists (net t); rewrite app_nil_r; by destruct t|].
    destruct (send_stream (net t) (b :: buf)) as (ret & n1 & Hx & Hr & Ho & Hi); [done|]. cbn [send]. rewrite Hx.
    destruct (IH (with_net t n1) (drop ret (b :: buf))) as (n2 & -> & Hi2 & Ho2); [rewrite length_drop; lia|].
    exists n2. split; [done|]. cbn [net with_net] in *. split; [congruence|]. by rewrite Ho2, Ho, <- app_assoc, take_drop.
Qed.

(** *** Interfaces *)

Lemma interface_of_interface_bytes i : interface_of_bytes (interface_bytes i) = i.
Proof. by destruct i. Qed.

Lemma interface_bytes_of_bytes bs : length bs = 4%nat -> interface_bytes (interface_of_bytes bs) = bs.
Proof. intros Hl. destruct bs as [|a [|b [|c [|d [|]]]]]; done. Qed.

Lemma interfaces_loop_wire intfs i d j (t : thread N) evs rest :
  incoming (net t) = concat (map interface_bytes intfs) ++ rest ->
  exists n', interfaces_loop (length intfs) i d j t evs = (true, evs ++ interface_events i d j intfs, with_net t n') /\
    incoming n' = rest /\ outgoing n' = outgoing (net t).
Proof.
  revert j t evs. induction intfs as [|x intfs IH]; intros j t evs Hi.
  - exists (net t). cbn [length interfaces_loop interface_events]. rewrite app_nil_r. by destruct t.
  - cbn [map concat] in Hi. rewrite <- app_assoc in Hi. cbn [length interfaces_loop].
    destruct (recv_app t 4 (interface_bytes x) _ eq_refl Hi) as (n1 & -> & Hi1 & Ho1). cbn [negb].
    destruct (IH (j + 1) (with_net t n1) (evs ++ [OnIntf (s32 i) d j (interface_of_bytes (interface_bytes x))]) Hi1) as (n2 & -> & Hi2 & Ho2).
    exists n2. cbn [net with_net] in *. rewrite interface_of_interface_bytes, <- app_assoc. split; [done|]. split; [done|]. congruence.
Qed.

Lemma interfaces_loop_true n i d j (t t' : thread N) evs evs' :
  interfaces_loop n i d j t evs = (true, evs', t') ->
  exists intfs, length intfs = n /\ incoming (net t) = concat (map interface_bytes intfs) ++ incoming (net t').
Proof.
  revert j t evs. induction n as [|n IH]; intros j t evs; cbn [interfaces_loop].
  - intros [= <- <-]. by exists [].
  - destruct (recv t 4) as [[[] data] t1] eqn:Er; [|done]. apply recv_true in Er as (Hl & Hi & _). intros Hx.
    destruct (IH _ _ _ Hx) as (intfs & Hn & Hi'). exists (interface_of_bytes data :: intfs). split; [simpl; lia|].
    cbn [map concat]. rewrite interface_bytes_of_bytes, Hi, Hi', <- app_assoc by done. done.
Qed.

(** *** Devices *)

Lemma usb_device_wire d : usb_device_ok d ->
  length (usb_device_bytes (byteswap_usb_device d)) = 312%nat /\
  byteswap_usb_device (usb_device_of_bytes (usb_device_bytes (byteswap_usb_device d))) = d.
Proof.
  intros Hd. pose proof (byteswap_usb_device_ok d Hd) as Hb. split; [by apply length_usb_device_bytes|].
  by rewrite usb_device_of_usb_device_bytes, byteswap_usb_device_involutive.
Qed.

Lemma usb_device_of_wire bs : length bs = 312%nat ->
  let d := byteswap_usb_device (usb_device_of_bytes bs) in usb_device_ok d /\ usb_device_bytes (byteswap_usb_device d) = bs.
Proof.
  intros Hl d. pose proof (usb_device_of_bytes_ok bs Hl) as Hok. split; [by apply byteswap_usb_device_ok|].
  unfold d. rewrite byteswap_usb_device_involutive by done. by apply usb_device_bytes_of_bytes.
Qed.

Lemma as_usb_device_interfaces d u : as_usb_device d = Some u -> u_interfaces u = bNumInterfaces d.
Proof.
  unfold as_usb_device. destruct (std_string (usb_device_bytes d)); cbn [mbind option_bind]; [|done].
  destruct (std_string (drop _ _)); cbn [mbind option_bind]; [|done]. by intros [= <-].
Qed.

Lemma devices_loop_wire devs i (t : thread N) evs rest :
  Forall device_ok devs -> incoming (net t) = wire_devices devs ++ rest ->
  match device_events i devs with
  | Some es => exists n', devices_loop (length devs) i t evs = Some (true, evs ++ es, with_net t n') /\
                 incoming n' = rest /\ outgoing n' = outgoing (net t)
  | None => devices_loop (length devs) i t evs = None
  end.
Proof.
  intros Hall. revert i t evs. induction Hall as [|[d intfs] devs [Hd Hn] Hall IH]; intros i t evs Hi.
  - exists (net t). cbn [length devices_loop]. rewrite app_nil_r. by destruct t.
  - cbn [fst snd] in *. unfold wire_devices in Hi. cbn [map concat] in Hi. unfold wire_device at 1 in Hi. cbn [fst snd] in Hi.
    rewrite <- !app_assoc in Hi. destruct (usb_device_wire d Hd) as [Hl Hbs]. cbn [length devices_loop device_events].
    destruct (recv_app t 312 _ _ Hl Hi) as (n1 & -> & Hi1 & Ho1). cbn [negb]. rewrite Hbs.
    destruct (as_usb_device d) as [u|] eqn:Eu; cbn [mbind option_bind]; [|done].
    rewrite (as_usb_device_interfaces d u Eu), <- Hn, Nat2Z.id.
    destruct (interfaces_loop_wire intfs i u 0 (with_net t n1) (evs ++ [OnDev (s32 i) u]) _ Hi1) as (n2 & -> & Hi2 & Ho2).
    specialize (IH (i + 1) (with_net t n2) ((evs ++ [OnDev (s32 i) u]) ++ interface_events i u 0 intfs) Hi2).
    cbn [net with_net] in *. change (with_net (with_net t n1) n2) with (with_net t n2).
    destruct (device_events (i + 1) devs) as [es|]; cbn [mbind option_bind].
    + destruct IH as (n3 & -> & Hi3 & Ho3). exists n3. rewrite <- !app_assoc. cbn [app]. split; [done|]. split; [done|]. congruence.
    + exact IH.
Qed.

Lemma devices_loop_true n i (t t' : thread N) evs evs' :
  devices_loop n i t evs = Some (true, evs', t') ->
  exists devs, length devs = n /\ Forall device_ok devs /\ incoming (net t) = wire_devices devs ++ incoming (net t').
Proof.
  revert i t evs. induction n as [|n IH]; intros i t evs; cbn [devices_loop].
  - intros [= <- <-]. by exists [].
  - destruct (recv t 312) as [[[] data] t1] eqn:Er; [|done]. cbn [negb]. apply recv_true in Er as (Hl & Hi & _).
    destruct (usb_device_of_wire data Hl) as [Hok Hbs]. set (d := byteswap_usb_device (usb_device_of_bytes data)) in *.
    destruct (as_usb_device d) as [u|] eqn:Eu; [|done]. cbn [mbind option_bind].
    destruct (interfaces_loop _ i u 0 t1 _) as [[[] evs1] t2] eqn:El; [|done]. intros Hx.
    apply interfaces_loop_true in El as (intfs & Hn & Hi1). destruct (IH _ _ _ Hx) as (devs & Hlen & Hall & Hi2).
    exists ((d, intfs) :: devs). split; [simpl; lia|]. split.
    + constructor; [|done]. split; [exact Hok|]. cbn [fst snd]. rewrite Hn, (as_usb_device_interfaces d u Eu).
      destruct Hok as (_ & _ & _ & _ & H8). rewrite !List.Forall_cons_iff in H8. unfold is_u8 in H8. lia.
    + unfold wire_devices. cbn [map concat]. unfold wire_device at 1. cbn [fst snd]. rewrite Hbs, Hi, Hi1, Hi2.
      unfold wire_devices. by rewrite <- !app_assoc.
Qed.

(** *** The header *)

Lemma recv_op_common_wire (t : thread N) code rest : 0 <= code < 2 ^ 16 ->
  incoming (net t) = wire_op_common USBIP_VERSION code 0 ++ rest ->
  exists n', recv_op_common t code = (ERROR_SUCCESS, with_net t n') /\ incoming n' = rest /\ outgoing n' = outgoing (net t).
Proof.
  intros Hc Hi. unfold recv_op_common.
  destruct (recv_app t 8 (wire_op_common USBIP_VERSION code 0) rest eq_refl Hi) as (n' & -> & Hi' & Ho). cbn [negb].
  rewrite (op_common_wire code Hc). cbn [version Session.code status]. rewrite !Z.eqb_refl. cbn [negb]. eauto.
Qed.

Lemma usbip_error_success st : usbip_error st = ERROR_SUCCESS <-> st = STATUS_SUCCESS.
Proof. by destruct st. Qed.

(** A short read is an error only when the last error was set before. *)
Lemma recv_op_common_true (t t' : thread N) code : 0 <= code < 2 ^ 16 ->
  recv_op_common t code = (ERROR_SUCCESS, t') ->
  incoming (net t) = wire_op_common USBIP_VERSION code 0 ++ incoming (net t') \/
  last_error t = ERROR_SUCCESS /\ incoming (net t') = [].
Proof.
  intros Hc. unfold recv_op_common. destruct (recv_take t 8) as (n' & Hx & Hin & _).
  destruct (recv t 8) as [[[] data] t1] eqn:Er; cbn [negb].
  2:{ injection Hx as Hb _ ->. intros [= He <-]. right. split; [exact He|]. cbn [net with_net]. rewrite Hin. apply drop_ge.
      symmetry in Hb. apply bool_decide_eq_false in Hb. rewrite length_take in Hb. lia. }
  apply recv_true in Er as (Hl & Hi & _). set (r := byteswap_op_common (op_common_of_bytes data)) in *.
  destruct (Z.eqb_spec (version r) USBIP_VERSION) as [Hv|]; [|done]. destruct (Z.eqb_spec (Session.code r) code) as [Hco|]; [|done].
  cbn [negb]. intros [= Hs <-]. apply usbip_error_success, op_status_error_ok in Hs.
  change (s32 (status r) = 0) in Hs.
  assert (status r = 0) as Hst by (rewrite <- (s32_nonneg (status r)); [done|apply bswap32_range|by rewrite Hs]).
  left. rewrite Hi. f_equal. rewrite <- Hv, <- Hco, <- Hst. by apply op_common_of_wire.
Qed.

Lemma send_request (t : thread N) : exists n', send_op_common t OP_REQ_DEVLIST = Some (true, with_net t n') /\
  incoming n' = incoming (net t) /\ outgoing n' = outgoing (net t) ++ wire_op_common USBIP_VERSION OP_REQ_DEVLIST 0.
Proof.
  unfold send_op_common.
  pose proof (byteswap_op_common_wire {| version := USBIP_VERSION; Session.code := OP_REQ_DEVLIST; status := 0 |}) as Hw.
  cbn [version Session.code status] in Hw. rewrite Hw. by apply send_all.
Qed.

Lemma ndev_wire n : 0 <= n < 2 ^ 32 -> bswap32 (le_val (be_bytes 4 n)) = n.
Proof.
  intros Hn. rewrite <- le_bytes_bswap32, le_val_le_bytes. rewrite Z.mod_small by (apply bswap32_range). by apply bswap32_involutive.
Qed.

Lemma wire_ndev data : length data = 4%nat -> be_bytes 4 (bswap32 (le_val data)) = data.
Proof.
  intros Hl. rewrite <- le_bytes_bswap32, bswap32_involutive.
  - rewrite <- Hl. apply le_bytes_le_val.
  - pose proof (le_val_range data) as Hr. rewrite Hl in Hr. exact Hr.
Qed.

(** C21: asking a server for its devices.  On a connection that works until the server closes it, the
    request is sent once, and when the server's answer is the list of some devices and their
    interfaces, the callbacks get the count, then every device followed by its interfaces, in the order of
    the list, and not a byte more is read.  Success is never reported for anything else: neither
    for a reply that ends early, nor for another version, another code or a status that is an error. *)
Theorem exported_devices_enumerated (t : thread N) (count_wanted : bool) :
  (forall devs rest, Forall device_ok devs -> Z.of_nat (length devs) < 2 ^ 32 -> incoming (net t) = wire_reply devs ++ rest ->
     match device_events 0 devs with
     | Some evs => exists t', enum_exportable_devices t count_wanted =
           Some (true, (if count_wanted then [OnDevCnt (s32 (Z.of_nat (length devs)))] else []) ++ evs, t') /\
         incoming (net t') = rest /\ outgoing (net t') = outgoing (net t) ++ wire_op_common USBIP_VERSION OP_REQ_DEVLIST 0
     | None => enum_exportable_devices t count_wanted = None
     end) /\
  (forall evs t', enum_exportable_devices t count_wanted = Some (true, evs, t') ->
     exists devs, Forall device_ok devs /\ Z.of_nat (length devs) < 2 ^ 32 /\ incoming (net t) = wire_reply devs ++ incoming (net t')).
Proof.
  destruct (send_request t) as (n1 & Hs & Hi1 & Ho1). split.
  - intros devs rest Hall Hlen Hi. unfold enum_exportable_devices. rewrite Hs. cbn [mbind option_bind negb].
    unfold wire_reply in Hi. rewrite <- !app_assoc, <- Hi1 in Hi.
    destruct (recv_op_common_wire (with_net t n1) OP_REP_DEVLIST _ ltac:(unfold OP_REP_DEVLIST; lia) Hi) as (n2 & -> & Hi2 & Ho2).
    destruct (recv_app (with_net (with_net t n1) n2) 4 (be_bytes 4 (Z.of_nat (length devs))) _ (length_be_bytes 4 _) Hi2) as (n3 & -> & Hi3 & Ho3).
    cbn [negb]. rewrite ndev_wire, Nat2Z.id by lia.
    pose proof (devices_loop_wire devs 0 (with_net t n3) (if count_wanted then [OnDevCnt (s32 (Z.of_nat (length devs)))] else []) rest Hall Hi3) as Hd.
    destruct (device_events 0 devs) as [evs|]; [|exact Hd]. destruct Hd as (n4 & Hx & Hi4 & Ho4). exists (with_net t n4).
    split; [exact Hx|]. cbn [net with_net] in *. split; [done|]. congruence.
  - intros evs t'. unfold enum_exportable_devices. rewrite Hs. cbn [mbind option_bind negb].
    destruct (recv_op_common (with_net t n1) OP_REP_DEVLIST) as [err t2] eqn:Er.
    destruct (decide (err = ERROR_SUCCESS)) as [->|Hne]; [|destruct err; try done; congruence].
    destruct (recv t2 4) as [[[] data] t3] eqn:Ed; [|done]. cbn [negb]. apply recv_true in Ed as (Hl & Hi3 & _). intros Hx.
    apply devices_loop_true in Hx as (devs & Hlen & Hall & Hi4).
    apply recv_op_common_true in Er; [|unfold OP_REP_DEVLIST; lia].
    pose proof (bswap32_range (le_val data)) as Hr. unfold is_u32 in Hr. exists devs. split; [done|]. split; [lia|].
    destruct Er as [Hi2|[_ Hi2]]; [|rewrite Hi3 in Hi2; by destruct data].
    cbn [net with_net] in Hi2. rewrite <- Hi1, Hi2, Hi3, Hi4. unfold wire_reply. rewrite Hlen, Z2Nat.id, wire_ndev by lia.
    by rewrite <- !app_assoc.
Qed.
End stream.

(** ** Sockets are not lost *)

(** The sockets open after the actions. *)
Fixpoint open_sockets (open : list positive) (acts : list sock_action) : list positive :=
  match acts with
  | [] => open
  | Opened s :: acts => open_sockets (open ++ [s]) acts
  | Closed s :: acts => open_sockets (remove_first s open) acts
  | _ :: acts => open_sockets open acts
  end.

Definition held (sock : option positive) : list positive := match sock with Some s => [s] | None => [] end.

Lemma open_sockets_app open a b : open_sockets open (a ++ b) = open_sockets (open_sockets open a) b.
Proof. revert open. induction a as [|x a IH]; intros open; [done|]. destruct x; cbn [app open_sockets]; apply IH. Qed.

Lemma open_sockets_closing sock : open_sockets (held sock) (closing sock) = [].
Proof. destruct sock; simpl; [by rewrite bool_decide_true|done]. Qed.

Lemma open_sockets_reset sock s : open_sockets (held sock) (Opened s :: closing sock) = [s].
Proof. destruct sock as [p|]; simpl; [|done]. by rewrite bool_decide_true. Qed.

(** Winsock has said that the connection is made: at once, or with the event that was waited for. *)
Definition connected (s : positive) (acts : list sock_action) : Prop :=
  acts = [ConnectAnswered s ERROR_SUCCESS] \/ acts = [ConnectAnswered s WSAEWOULDBLOCK; EventAnswered s (inr ERROR_SUCCESS)].

(** What is done with a socket that is returned. *)
Definition made_ready (s : positive) (acts : list sock_action) : Prop :=
  exists conn, connected s conn /\
    acts = [OptionSet s KeepAliveValues; OptionSet s NoDelay; EventsSelected s] ++ conn ++ [EventsUnselected s; NonblockingOff s].

Definition made_ready_named (ipv6 : bool) (s : positive) (acts : list sock_action) : Prop := acts =
  (if ipv6 then [OptionSet s Ipv6OnlyOff] else []) ++
  [OptionSet s KeepAliveValues; OptionSet s NoDelay; ConnectedByName s; OptionSet s ConnectContext].

(** The rounds of both loops: the socket of the round before is closed, and the one that is
    returned has been prepared. *)
Record round_ok {N} (c : connecting N) (sock : option positive) (ready : positive -> list sock_action -> Prop)
    (sock' : option positive) (err : option win_error) (r : round_result) (c' : connecting N) : Prop := {
  ro_acts : exists acts, actions c' = actions c ++ acts /\ open_sockets (held sock) acts = held sock' /\
      (r = Return -> exists s body, sock' = Some s /\ acts = Opened s :: closing sock ++ body /\ ready s body);
  ro_error : match err with None => r = Return | Some e => r <> Return /\ e <> ERROR_SUCCESS end }.

(** Actions that open and close nothing. *)
Definition quiet (acts : list sock_action) : Prop := forall open, open_sockets open acts = open.

(** A call that fails tells an error. *)
Class SocketErrors (N addr : Type) `{Sockets N addr} : Prop := {
  new_socket_error : forall n a e n', new_socket n a = (inl e, n') -> e <> ERROR_SUCCESS;
  new_socket_of_family_error : forall n f e n', new_socket_of_family n f = (inl e, n') -> e <> ERROR_SUCCESS;
  connect_event_error : forall n s e n', connect_event n s = (inl e, n') -> e <> ERROR_SUCCESS;
  wait_events_error : forall n e n', wait_events n = (WaitFailed e, n') -> e <> ERROR_SUCCESS }.

Section sockets.
Context {N addr : Type} `{SocketErrors N addr}.

Lemma no_error_false err : no_error err = false -> err <> ERROR_SUCCESS.
Proof. intros He%bool_decide_eq_false. exact He. Qed.

Lemma option_acts c s o err c' : do_setsockopt c s o = (err, c') ->
  actions c' = actions c ++ if no_error err then [OptionSet s o] else [].
Proof. unfold do_setsockopt. destruct (set_option (cn c) s o) as [e n]. by intros [= <- <-]. Qed.

Lemma options_acts c s err c' : set_options c s = (err, c') ->
  exists acts, actions c' = actions c ++ acts /\ quiet acts /\
    (no_error err = true -> acts = [OptionSet s KeepAliveValues; OptionSet s NoDelay]).
Proof.
  unfold set_options. destruct (do_setsockopt c s KeepAliveValues) as [e c1] eqn:E1. apply option_acts in E1.
  destruct (no_error e) eqn:He.
  - intros E2%option_acts. exists (OptionSet s KeepAliveValues :: if no_error err then [OptionSet s NoDelay] else []).
    rewrite E2, E1, <- app_assoc. split; [done|]. split; [by destruct (no_error err)|]. by intros ->.
  - intros [= <- <-]. exists []. split; [done|]. split; [done|]. congruence.
Qed.

Lemma select_acts c s b err c' : event_select c s b = (err, c') ->
  actions c' = actions c ++ if no_error err then [if b then EventsSelected s else EventsUnselected s] else [].
Proof. unfold event_select. destruct (select_events (cn c) s b) as [e n]. by intros [= <- <-]. Qed.

Lemma prepare_acts c s err c' : prepare_event c s = (err, c') ->
  actions c' = actions c ++ if no_error err then [EventsSelected s] else [].
Proof.
  unfold prepare_event. destruct (reset_event (cn c)) as [e n]. destruct (no_error e) eqn:He.
  - intros Hx%select_acts. cbn [act actions] in Hx. by rewrite app_nil_r in Hx.
  - intros [= <- <-]. by rewrite He.
Qed.

Lemma blocking_acts c s err c' : set_nonblock_off c s = (err, c') ->
  actions c' = actions c ++ if no_error err then [NonblockingOff s] else [].
Proof. unfold set_nonblock_off. destruct (set_blocking (cn c) s) as [e n]. by intros [= <- <-]. Qed.

(** Only an answer that says so is taken for a connection, when the events can be read. *)
Lemma try_connect_acts c s a err c' : try_connect c s a = (err, c') ->
  exists conn, actions c' = actions c ++ conn /\ quiet conn /\ (no_error err = true -> connected s conn).
Proof.
  unfold try_connect. destruct (connect_address (cn c) s a) as [e n]. unfold no_error. case_bool_decide as He.
  { intros [= <- <-]. eexists. split; [reflexivity|]. split; [done|]. intros _. left. by rewrite He. }
  case_bool_decide as Hw; cbn [negb]; [|intros [= <- <-]; eexists; split; [reflexivity|]; split; [done|]; by intros ?%bool_decide_eq_true].
  subst e. destruct (wait_events _) as [w n1] eqn:Ew. destruct w as [| |e].
  - destruct (connect_event n1 s) as [r n2] eqn:Er. intros [= <- <-]. cbn [act actions]. eexists. split; [by rewrite <- app_assoc|].
    split; [done|]. intros Hr%bool_decide_eq_true. right. destruct r as [e|e]; [|by rewrite Hr]. by apply connect_event_error in Er.
  - intros [= <- <-]. cbn [act actions]. eexists. split; [by rewrite <- app_assoc|]. by split.
  - intros [= <- <-]. cbn [act actions]. eexists. split; [by rewrite <- app_assoc|]. split; [done|].
    intros He2%bool_decide_eq_true. by apply wait_events_error in Ew.
Qed.

Lemma quiet_app a b : quiet a -> quiet b -> quiet (a ++ b).
Proof. intros Ha Hb open. by rewrite open_sockets_app, Ha, Hb. Qed.

Lemma opened_round (c c1 : connecting N) sock s acts : actions c1 = actions c ++ (Opened s :: closing sock) ++ acts -> quiet acts ->
  exists acts, actions c1 = actions c ++ acts /\ open_sockets (held sock) acts = held (Some s).
Proof.
  intros -> Hq. eexists. split; [reflexivity|]. rewrite open_sockets_app, open_sockets_reset. apply Hq.
Qed.

(** A round that goes on or breaks off with its socket and an error. *)
Lemma round_failed (c : connecting N) sock ready s err r (c' : connecting N) acts :
  actions c' = actions c ++ (Opened s :: closing sock) ++ acts -> quiet acts -> r <> Return -> no_error err = false ->
  round_ok c sock ready (Some s) (Some err) r c'.
Proof.
  intros Ha Hq Hr He. destruct (opened_round c c' sock s acts Ha Hq) as (acts' & Ha' & Ho). constructor; [|split; [done|by apply no_error_false]].
  exists acts'. split; [done|]. by split.
Qed.

Lemma round_not_opened (c : connecting N) sock ready err n : err <> ERROR_SUCCESS -> round_ok c sock ready None (Some err) Continue (act c n (closing sock)).
Proof. intros He. constructor; [|done]. exists (closing sock). split; [done|]. split; [apply open_sockets_closing|done]. Qed.

Lemma round_returned (c : connecting N) sock (ready : positive -> list sock_action -> Prop) s (c' : connecting N) body :
  actions c' = actions c ++ (Opened s :: closing sock) ++ body -> quiet body -> ready s body -> round_ok c sock ready (Some s) None Return c'.
Proof.
  intros Ha Hq Hr. constructor; [|done]. eexists. split; [exact Ha|]. split; [|by exists s, body].
  rewrite open_sockets_app, open_sockets_reset. apply Hq.
Qed.

Lemma connect_round_ok c sock a :
  let '(sock', err, r, c') := connect_round c sock a in round_ok c sock made_ready sock' err r c'.
Proof.
  unfold connect_round. destruct (new_socket (cn c) a) as [[e|s] n] eqn:En; [by eapply round_not_opened, new_socket_error|].
  destruct (set_options _ s) as [e1 c1] eqn:E1. apply options_acts in E1 as (a1 & E1 & Q1 & K1). cbn [act actions] in E1.
  destruct (no_error e1) eqn:N1; cbn [negb]; [specialize (K1 eq_refl) as ->|].
  2:{ eapply round_failed; [by rewrite E1, <- app_assoc|done|done|done]. }
  destruct (prepare_event c1 s) as [e2 c2] eqn:E2. apply prepare_acts in E2.
  destruct (no_error e2) eqn:N2; cbn [negb].
  2:{ eapply round_failed; [by rewrite E2, E1, <- !app_assoc|by apply quiet_app|done|done]. }
  destruct (try_connect c2 s a) as [e3 c3] eqn:E3. apply try_connect_acts in E3 as (conn & E3 & Qc & Kc).
  assert (actions c3 = actions c ++ (Opened s :: closing sock) ++
            [OptionSet s KeepAliveValues; OptionSet s NoDelay; EventsSelected s] ++ conn) as E3' by (by rewrite E3, E2, E1, <- !app_assoc).
  destruct (no_error e3) eqn:N3; cbn [negb].
  2:{ eapply round_failed; [exact E3'|by apply quiet_app|by case_bool_decide|done]. }
  destruct (event_select c3 s false) as [e4 c4] eqn:E4. apply select_acts in E4. rewrite E3' in E4.
  destruct (no_error e4) eqn:N4; cbn [negb].
  2:{ eapply round_failed; [by rewrite E4, <- !app_assoc|by repeat apply quiet_app|done|done]. }
  destruct (set_nonblock_off c4 s) as [e5 c5] eqn:E5. apply blocking_acts in E5. rewrite E4 in E5.
  destruct (no_error e5) eqn:N5.
  - eapply round_returned; [by rewrite E5, <- !app_assoc|by repeat apply quiet_app|]. exists conn. split; [by apply Kc|done].
  - eapply round_failed; [by rewrite E5, <- !app_assoc|by repeat apply quiet_app|done|done].
Qed.

Lemma family_round_ok c sock ipv6 host svc :
  let '(sock', err, r, c') := family_round c sock ipv6 host svc in round_ok c sock (made_ready_named ipv6) sock' err r c'.
Proof.
  unfold family_round. destruct (new_socket_of_family (cn c) ipv6) as [[e|s] n] eqn:En; [by eapply round_not_opened, new_socket_of_family_error|].
  set (c0 := act c n (Opened s :: closing sock)).
  destruct (if ipv6 then do_setsockopt c0 s Ipv6OnlyOff else (ERROR_SUCCESS, c0)) as [e0 c1] eqn:E0.
  assert (actions c1 = actions c ++ (Opened s :: closing sock) ++ (if ipv6 then if no_error e0 then [OptionSet s Ipv6OnlyOff] else [] else [])) as E1.
  { destruct ipv6; [apply option_acts in E0; rewrite E0; unfold c0; cbn [act actions]; by rewrite <- app_assoc|].
    injection E0 as _ <-. by rewrite app_nil_r. }
  assert (quiet (if ipv6 then if no_error e0 then [OptionSet s Ipv6OnlyOff] else [] else [])) as Q1 by (by destruct ipv6, (no_error e0)).
  destruct (no_error e0) eqn:N0; cbn [negb]; [|by eapply round_failed].
  destruct (set_options c1 s) as [e2 c2] eqn:E2. apply options_acts in E2 as (a2 & E2 & Q2 & K2). rewrite E1 in E2.
  destruct (no_error e2) eqn:N2; cbn [negb]; [specialize (K2 eq_refl) as ->|].
  2:{ eapply round_failed; [by rewrite E2, <- !app_assoc|by apply quiet_app|done|done]. }
  destruct (connect_by_name (cn c2) s host svc) as [e3 n3]. destruct (no_error e3) eqn:N3; cbn [negb].
  2:{ eapply round_failed; [cbn [act actions]; by rewrite E2, <- !app_assoc, app_nil_r|by apply quiet_app|done|done]. }
  destruct (do_setsockopt _ s ConnectContext) as [e4 c4] eqn:E4. apply option_acts in E4. cbn [act actions] in E4. rewrite E2 in E4.
  destruct (no_error e4) eqn:N4.
  - eapply round_returned; [by rewrite E4, <- !app_assoc| |reflexivity]. by destruct ipv6.
  - eapply round_failed; [by rewrite E4, <- !app_assoc|repeat apply quiet_app; done|done|done].
Qed.

(** The loops. *)
Record loop_ok (c : connecting N) (sock : option positive) (ready : positive -> list sock_action -> Prop)
    (sock' : option positive) (c' : connecting N) : Prop := {
  lk_acts : exists acts, actions c' = actions c ++ acts /\ open_sockets (held sock) acts = held sock' /\
      forall s, sock' = Some s -> exists pre tail, acts = pre ++ tail /\ ready s tail }.

Lemma loop_after_round c sock ready1 (ready : positive -> list sock_action -> Prop) sock1 err c1 sock' c' :
  round_ok c sock ready1 sock1 err Continue c1 -> loop_ok c1 sock1 ready sock' c' -> loop_ok c sock ready sock' c'.
Proof.
  intros [(a1 & E1 & O1 & _) _] [(a2 & E2 & O2 & R2)]. constructor. exists (a1 ++ a2). rewrite E2, E1, <- app_assoc. split; [done|].
  rewrite open_sockets_app, O1. split; [done|]. intros s Hs. destruct (R2 s Hs) as (pre & tail & -> & Hr).
  exists (a1 ++ pre), tail. by rewrite app_assoc.
Qed.

Lemma loop_closed (c : connecting N) sock ready n : loop_ok c sock ready None (act c n (closing sock)).
Proof. constructor. exists (closing sock). split; [done|]. split; [apply open_sockets_closing|done]. Qed.

Lemma loop_broken c sock ready1 ready sock1 err r c1 n : round_ok c sock ready1 sock1 err r c1 ->
  loop_ok c sock ready None (act c1 n (closing sock1)).
Proof.
  intros [(a1 & E1 & O1 & _) _]. constructor. exists (a1 ++ closing sock1). cbn [act actions]. rewrite E1, <- app_assoc. split; [done|].
  rewrite open_sockets_app, O1. split; [apply open_sockets_closing|done].
Qed.

(** The end of the actions when a socket is returned. *)
Definition ends_ready (ready : positive -> list sock_action -> Prop) (s : positive) (tail : list sock_action) : Prop :=
  exists old body, tail = Opened s :: closing old ++ body /\ ready s body.

Lemma loop_returned c sock ready (P : positive -> list sock_action -> Prop) sock1 err c1 : round_ok c sock ready sock1 err Return c1 ->
  (forall s tail, ends_ready ready s tail -> P s tail) -> loop_ok c sock P sock1 c1.
Proof.
  intros [(a1 & E1 & O1 & R1) _] HP. constructor. exists a1. split; [done|]. split; [done|]. intros s ->.
  destruct (R1 eq_refl) as (s' & body & [= <-] & -> & Hb). exists [], (Opened s :: closing sock ++ body). split; [done|]. apply HP. by exists sock, body.
Qed.

Lemma connect_loop_ok addrs last sock c :
  let '(sock', last', c') := connect_loop addrs last sock c in
  loop_ok c sock (ends_ready made_ready) sock' c' /\ (sock' = None -> addrs <> [] -> last' <> ERROR_SUCCESS).
Proof.
  revert last sock c. induction addrs as [|a addrs IH]; intros last sock c; cbn [connect_loop]; [split; [apply loop_closed|done]|].
  pose proof (connect_round_ok c sock a) as Hr. destruct (connect_round c sock a) as [[[sock1 err] r] c1].
  pose proof (ro_error _ _ _ _ _ _ _ Hr) as He. destruct r.
  - split; [by eapply loop_returned|]. destruct (ro_acts _ _ _ _ _ _ _ Hr) as (acts & _ & _ & Hret).
    destruct (Hret eq_refl) as (s & _ & -> & _). done.
  - destruct err as [e|]; [|done]. destruct He as [_ He]. change (default last (Some e)) with e. specialize (IH e sock1 c1).
    destruct (connect_loop addrs e sock1 c1) as [[sock' last'] c'] eqn:El. destruct IH as [IH Hlast].
    split; [by eapply loop_after_round|]. intros Hn _. destruct addrs; [|by apply Hlast].
    simpl in El. by injection El as _ <- _.
  - destruct err as [e|]; [|done]. destruct He as [_ He]. split; [by eapply loop_broken|done].
Qed.

Lemma family_loop_ok families host svc last sock c :
  let '(sock', last', c') := family_loop families host svc last sock c in
  loop_ok c sock (fun s tail => exists ipv6, ends_ready (made_ready_named ipv6) s tail) sock' c' /\
  (sock' = None -> families <> [] -> last' <> ERROR_SUCCESS).
Proof.
  revert last sock c. induction families as [|f families IH]; intros last sock c; cbn [family_loop]; [split; [apply loop_closed|done]|].
  pose proof (family_round_ok c sock f host svc) as Hr. destruct (family_round c sock f host svc) as [[[sock1 err] r] c1].
  pose proof (ro_error _ _ _ _ _ _ _ Hr) as He. destruct r.
  - split; [by eapply loop_returned; eauto|]. destruct (ro_acts _ _ _ _ _ _ _ Hr) as (acts & _ & _ & Hret).
    destruct (Hret eq_refl) as (s & _ & -> & _). done.
  - destruct err as [e|]; [|done]. destruct He as [_ He]. change (default last (Some e)) with e. specialize (IH e sock1 c1).
    destruct (family_loop families host svc e sock1 c1) as [[sock' last'] c'] eqn:El. destruct IH as [IH Hlast].
    split; [by eapply loop_after_round|]. intros Hn _. destruct families; [|by apply Hlast].
    simpl in El. by injection El as _ <- _.
  - destruct err as [e|]; [|done]. destruct He as [_ He]. split; [by eapply loop_broken|done].
Qed.

Lemma connect_named_ok utf8_to_wchar c hostname service :
  (forall s e, utf8_to_wchar s = inl e -> e <> ERROR_SUCCESS) ->
  let '(sock, last, c') := connect_named utf8_to_wchar c hostname service in
  loop_ok c None (fun s tail => exists ipv6, ends_ready (made_ready_named ipv6) s tail) sock c' /\
  (sock = None -> last <> ERROR_SUCCESS).
Proof.
  intros Hu. unfold connect_named, host_and_service.
  assert (forall ready, loop_ok c None ready None c) as Hc by (intros ready; constructor; exists []; by rewrite app_nil_r).
  destruct (utf8_to_wchar hostname) as [e|h] eqn:Eh; [by split; [apply Hc|intros _; eapply Hu]|].
  destruct (utf8_to_wchar service) as [e|v] eqn:Ev; [by split; [apply Hc|intros _; eapply Hu]|].
  pose proof (family_loop_ok [false; true] h v ERROR_SUCCESS None c) as Hf. destruct (family_loop _ _ _ _ _ _) as [[sock last] c'].
  destruct Hf as [Hf He]. split; [exact Hf|]. intros Hs. by apply He.
Qed.

(** A wait that is not alertable is not ended by a procedure call. *)
Lemma wait_for_resolve_total n alertable :
  (forall m m', wait_resolved m false <> (WaitApc, m')) -> exists err n', wait_for_resolve 2 n alertable = Some (err, n').
Proof.
  intros Hl. cbn [wait_for_resolve]. destruct (wait_resolved n alertable) as [[] n1]; [destruct (overlapped_result n1); eauto| |eauto].
  destruct (cancel_resolve n1) as [e n2]. destruct (no_error e); [|eauto].
  destruct (wait_resolved n2 false) as [[] n3] eqn:Ew; [destruct (overlapped_result n3); eauto|by apply Hl in Ew|eauto].
Qed.

Lemma resolve_total utf8_to_wchar n hostname service :
  (forall m m', wait_resolved m false <> (WaitApc, m')) -> exists res, resolve utf8_to_wchar 2 n hostname service = Some res.
Proof.
  intros Hl. unfold resolve. destruct (host_and_service _ _ _) as [e|[h v]]; [eauto|]. destruct (create_event n) as [e n1].
  destruct (no_error e); [|eauto]. destruct (get_addr_info n1 h v) as [[err result] n2]. case_bool_decide; [|eauto].
  destruct (wait_for_resolve_total n2 true Hl) as (e2 & n3 & ->). cbn [mbind option_bind]. eauto.
Qed.

(** C22: connecting ends and loses no socket, whatever the calls it makes answer: the socket it returns
    is the only one it leaves open; it has its keep-alive and no-delay options, Winsock has answered that it is connected, at once
    or with the event that was waited for, and it was put back into
    blocking mode (or was connected by name, successfully), in that order, after the sockets tried before were closed;
    when it returns none, everything it opened is closed again, and a connection by name tells an error.
    Unknown options are refused without a call. *)
Theorem connect_owns_one_socket (utf8_to_wchar : list byte -> win_error + list Z) (c : connecting N) (hostname service : list byte) (options : Z) :
  (forall s e, utf8_to_wchar s = inl e -> e <> ERROR_SUCCESS) ->
  (forall m m', wait_resolved m false <> (WaitApc, m')) ->
  (exists sock last c', connect_cancellable utf8_to_wchar 2 c hostname service options = Some (sock, last, c') /\
     loop_ok c None (ends_ready made_ready) sock c' /\ (options <> 1 -> sock = None /\ last = ERROR_INVALID_PARAMETER /\ c' = c)) /\
  (let '(sock, last, c') := connect_named utf8_to_wchar c hostname service in
     loop_ok c None (fun s tail => exists ipv6, ends_ready (made_ready_named ipv6) s tail) sock c' /\
     (sock = None -> last <> ERROR_SUCCESS)).
Proof.
  intros Hu Hl. split; [|by apply connect_named_ok].
  assert (forall n, loop_ok c None (ends_ready made_ready) None (act (act c (cn c) []) n [])) as Hc
    by (intros n; constructor; exists []; cbn [act actions]; by rewrite !app_nil_r).
  unfold connect_cancellable. destruct (Z.eqb_spec options 1) as [->|Hne]; cbn [negb].
  2:{ do 3 eexists. split; [reflexivity|]. split; [|done]. constructor. exists []. by rewrite app_nil_r. }
  destruct (resolve_total utf8_to_wchar (cn c) hostname service Hl) as [[[err addrs] n] ->]. cbn [mbind option_bind].
  destruct addrs as [|a addrs].
  { do 3 eexists. split; [reflexivity|]. split; [|done]. constructor. exists []. cbn [act actions]. by rewrite app_nil_r. }
  destruct (create_event _) as [e n1]. destruct (no_error e).
  - set (c1 := act (act c n []) n1 []). pose proof (connect_loop_ok (a :: addrs) err None c1) as Hx.
    destruct (connect_loop (a :: addrs) err None c1) as [[sock last] c']. destruct Hx as [[(acts & Ha & Ho)] _].
    do 3 eexists. split; [reflexivity|]. split; [|done]. constructor. exists acts. split; [|exact Ho].
    rewrite Ha. unfold c1. cbn [act actions]. by rewrite !app_nil_r.
  - do 3 eexists. split; [reflexivity|]. split; [|done]. constructor. exists []. cbn [act actions]. by rewrite !app_nil_r.
Qed.

(** A procedure call while a connection is being made ends the loop with its socket closed. *)
Lemma cancelled_at_wait c s a n n1 err : connect_address (cn c) s a = (err, n) -> err = WSAEWOULDBLOCK -> wait_events n = (WaitApc, n1) ->
  fst (try_connect c s a) = ERROR_CANCELLED.
Proof.
  intros Hc -> Hw. unfold try_connect, no_error. rewrite Hc. rewrite bool_decide_false by done. rewrite bool_decide_true by done.
  cbn [negb act cn]. by rewrite Hw.
Qed.
End sockets.

(** A server that closes the connection at once: the enumeration fails, and whatever the last
    error was before remains. *)
Lemma closed_without_error {N} `{Stream N} (t : thread N) count_wanted :
  incoming (net t) = [] -> last_error t = ERROR_SUCCESS ->
  exists t', enum_exportable_devices t count_wanted = Some (false, [], t') /\ last_error t' = ERROR_SUCCESS.
Proof.
  intros Hi He. destruct (send_request t) as (n1 & Hs & Hi1 & _). unfold enum_exportable_devices. rewrite Hs. cbn [mbind option_bind negb].
  rewrite Hi in Hi1. unfold recv_op_common.
  destruct (recv_take (with_net t n1) 8) as (n2 & -> & Hi2 & _). cbn [net with_net] in *. rewrite Hi1, take_nil in *.
  rewrite bool_decide_false by done. cbn [negb last_error with_net]. rewrite He.
  destruct (recv_take (with_net (with_net t n1) n2) 4) as (n3 & -> & _). cbn [net with_net]. rewrite Hi2, drop_nil, take_nil.
  rewrite bool_decide_false by done. exists (with_net t n3). split; [reflexivity|done].
Qed.

(** ** Examples: a server with one keyboard, behind two addresses *)
Module Demo.

(** The bytes to come and the bytes sent; at most five bytes are taken at a time. *)
#[local] Instance pipe : Transport (list byte * list byte) := {
  sock_recv n len := (inr (take len (fst n)), (drop len (fst n), snd n));
  sock_send n buf := (inr (Nat.min 5 (length buf)), (fst n, snd n ++ take 5 buf)) }.

#[local] Instance pipe_stream : Stream (list byte * list byte).
Proof.
  refine {| incoming := fst; outgoing := snd |}.
  - intros n len. by exists (drop len (fst n), snd n).
  - intros n buf Hb. exists (Nat.min 5 (length buf)), (fst n, snd n ++ take 5 buf). split; [done|].
    assert (length buf <> 0%nat) by (by intros ?%length_zero_iff_nil). split; [lia|]. split; [|done]. cbn [snd]. f_equal.
    destruct (Nat.min_spec 5 (length buf)) as [[_ ->]|[? ->]]; [done|]. by rewrite !take_ge by lia.
Defined.

Definition keyboard : usbip_usb_device :=
  {| path := [x2f; x73] ++ replicate 254 x00; udev_busid := [x31; x2d; x31] ++ replicate 29 x00;
     busnum := 1; devnum := 2; udev_speed := 1; idVendor := 0x46d; idProduct := 0xc31c; bcdDevice := 0x110;
     bDeviceClass := 0; bDeviceSubClass := 0; bDeviceProtocol := 0; bConfigurationValue := 1;
     bNumConfigurations := 1; bNumInterfaces := 1 |}.

Definition hid_interface : usb_interface := {| bInterfaceClass := x03; bInterfaceSubClass := x01; bInterfaceProtocol := x01; padding := x00 |}.

Definition exported : list (usbip_usb_device * list usb_interface) := [(keyboard, [hid_interface])].

Definition client_thread (bs : list byte) : thread (list byte * list byte) := {| net := (bs, []); last_error := WinError 5 |}.

Lemma exported_ok : Forall device_ok exported.
Proof. repeat constructor; vm_compute; discriminate. Qed.

Lemma exported_devices_enumerated_witness :
  exists u t', enum_exportable_devices (client_thread (wire_reply exported ++ [x55])) true =
    Some (true, [OnDevCnt 1; OnDev 0 u; OnIntf 0 u 0 hid_interface], t') /\
    u_busid u = [x31; x2d; x31] /\ u_idProduct u = 0xc31c /\ incoming (net t') = [x55] /\ outgoing (net t') = [x01; x11; x80; x05; x00; x00; x00; x00].
Proof.
  destruct (exported_devices_enumerated (client_thread (wire_reply exported ++ [x55])) true) as [Hx _].
  specialize (Hx exported [x55] exported_ok ltac:(vm_compute; reflexivity) eq_refl).
  destruct (device_events 0 exported) as [evs|] eqn:Ee; [|vm_compute in Ee; discriminate Ee].
  destruct Hx as (t' & Hx & Hi & Ho). vm_compute in Ee. injection Ee as <-. do 2 eexists. split; [exact Hx|].
  split; [reflexivity|]. split; [reflexivity|]. split; [exact Hi|exact Ho].
Defined.

(** A path that fills its array continues with the bus id; names without any terminator are read
    past the end of the structure. *)
Definition long_path (bus : list byte) (rest : Z) : usbip_usb_device :=
  {| path := replicate 256 x41; udev_busid := bus;
     busnum := rest; devnum := rest; udev_speed := rest; idVendor := rest mod 2 ^ 16; idProduct := rest mod 2 ^ 16; bcdDevice := rest mod 2 ^ 16;
     bDeviceClass := 1; bDeviceSubClass := 1; bDeviceProtocol := 1; bConfigurationValue := 1; bNumConfigurations := 1; bNumInterfaces := 1 |}.

Lemma unterminated_names :
  (u_path <$> as_usb_device (long_path ([x31; x2d; x31] ++ replicate 29 x00) 0)) = Some (replicate 256 x41 ++ [x31; x2d; x31]) /\
  as_usb_device (long_path (replicate 32 x31) 0x01010101) = None.
Proof. vm_compute. split; reflexivity. Qed.

(** The first address refuses; the connection to the second is waited for. *)
#[local] Instance two_addresses : Sockets positive bool := {
  new_socket n _ := (inr n, Pos.succ n);
  new_socket_of_family n _ := (inr n, Pos.succ n);
  set_option n _ _ := (ERROR_SUCCESS, n);
  connect_by_name n _ _ _ := (WinError 11001, n);
  reset_event n := (ERROR_SUCCESS, n);
  select_events n _ _ := (ERROR_SUCCESS, n);
  set_blocking n _ := (ERROR_SUCCESS, n);
  connect_address n _ good := (if good then WSAEWOULDBLOCK else WinError 10061, n);
  wait_events n := (WaitEvent, n);
  connect_event n _ := (inr ERROR_SUCCESS, n);
  create_event n := (ERROR_SUCCESS, n);
  get_addr_info n _ _ := ((WSA_IO_PENDING, [false; true]), n);
  wait_resolved n alertable := (WaitEvent, n);
  overlapped_result n := (ERROR_SUCCESS, n);
  cancel_resolve n := (ERROR_SUCCESS, n) }.

#[local] Instance two_addresses_errors : SocketErrors positive bool.
Proof. by split. Qed.

Definition to_wchar (s : list byte) : win_error + list Z := if bool_decide (s = []) then inl ERROR_INVALID_PARAMETER else inr (map b2z s).

Definition idle : connecting positive := {| cn := 1%positive; actions := [] |}.

Lemma connects_to_second :
  (fun '(sock, last, c) => (sock, last, actions c)) <$> connect_cancellable to_wchar 2 idle [x70; x63] [x33] 1 =
  Some (Some 2%positive, WinError 10061,
        [Opened 1; OptionSet 1 KeepAliveValues; OptionSet 1 NoDelay; EventsSelected 1; ConnectAnswered 1 (WinError 10061);
         Opened 2; Closed 1; OptionSet 2 KeepAliveValues; OptionSet 2 NoDelay; EventsSelected 2; ConnectAnswered 2 WSAEWOULDBLOCK; EventAnswered 2 (inr ERROR_SUCCESS);
         EventsUnselected 2; NonblockingOff 2]%positive).
Proof. vm_compute. reflexivity. Qed.

Lemma connect_owns_one_socket_witness :
  exists last c', connect_cancellable to_wchar 2 idle [x70; x63] [x33] 1 = Some (Some 2%positive, last, c') /\
    loop_ok idle None (ends_ready made_ready) (Some 2%positive) c'.
Proof.
  destruct (connect_owns_one_socket to_wchar idle [x70; x63] [x33] 1) as [(sock & last & c' & Hx & Hok & _) _].
  - intros s e. unfold to_wchar. destruct (bool_decide (s = [])); [intros [= <-]; discriminate|discriminate].
  - discriminate.
  - pose proof connects_to_second as Hc. rewrite Hx in Hc. injection Hc as -> _ _. eauto.
Defined.
End Demo.
