(* ===== verification/Text.v ===== *)
(** * Numbers in texts

    The decimal and hexadecimal numbers that std::format and wxString::Format write, as lists of character codes, for the
    command-line tool and the window of devices. *)

From S2P Require Import Prelude.

(** The digits of a number, most significant first. *)
Fixpoint digits (fuel : nat) (base v : Z) (acc : list Z) : list Z :=
  match fuel with
  | O => acc
  | S fuel => if v <? base then v :: acc else digits fuel base (v / base) (v mod base :: acc)
  end.

Definition digit_char (d : Z) : Z := if d <? 10 then 48 + d else 87 + d.
Definition to_text (base v : Z) : list Z := map digit_char (digits 32 base v []).
Definition pad (n : nat) (s : list Z) : list Z := replicate (n - length s) 48 ++ s.

(** A number in [n] places, filled with zeros. *)
Definition format_0d (n : nat) (v : Z) : list Z := if v <? 0 then 45 :: pad (n - 1) (to_text 10 (- v)) else pad n (to_text 10 v).

(** wxString::Format of "%lx", "%08x", "%d" and "%03d". *)
Definition format_lx (v : Z) : list Z := to_text 16 v.
Definition format_08x (v : Z) : list Z := pad 8 (to_text 16 v).
Definition format_d (v : Z) : list Z := if v <? 0 then 45 :: to_text 10 (- v) else to_text 10 v.
Definition format_03d (v : Z) : list Z := format_0d 3 v.

(** ** Lemmas: numbers in texts *)

Definition digits_value (base : Z) (ds : list Z) (v : Z) : Z := fold_left (fun x d => base * x + d) ds v.

Lemma digits_spec fuel base v acc : 2 <= base -> 0 <= v < base ^ Z.of_nat fuel -> (0 < fuel)%nat ->
  exists ds, digits fuel base v acc = ds ++ acc /\ digits_value base ds 0 = v /\ Forall (fun d => 0 <= d < base) ds /\ ds <> [].
Proof.
  revert v acc. induction fuel as [|fuel IH]; intros v acc Hb Hv Hf; [lia|]. cbn [digits].
  destruct (Z.ltb_spec v base) as [Hlt|Hge].
  - exists [v]. split; [done|]. split; [unfold digits_value; cbn; lia|]. split; [repeat constructor; lia|done].
  - assert (0 < fuel)%nat as Hf2. { destruct fuel; [|lia]. change (Z.of_nat 1) with 1 in Hv. rewrite Z.pow_1_r in Hv. lia. }
    destruct (IH (v / base) (v mod base :: acc)) as (ds & -> & Hval & Hall & Hne); [done| |done|].
    + split; [apply Z.div_pos; lia|]. apply Z.div_lt_upper_bound; [lia|]. rewrite Nat2Z.inj_succ, Z.pow_succ_r in Hv by lia. lia.
    + exists (ds ++ [v mod base]). split; [by rewrite <- app_assoc|]. split; [|split].
      * unfold digits_value in *. rewrite fold_left_app, Hval. cbn. pose proof (Z.div_mod v base). lia.
      * apply list.Forall_app. split; [done|]. constructor; [|constructor]. apply Z.mod_pos_bound. lia.
      * by destruct ds.
Qed.

Lemma digit_char_inj a b : 0 <= a < 16 -> 0 <= b < 16 -> digit_char a = digit_char b -> a = b.
Proof. unfold digit_char. intros Ha Hb. destruct (Z.ltb_spec a 10), (Z.ltb_spec b 10); lia. Qed.

Lemma map_digit_char_inj l1 l2 : Forall (fun d => 0 <= d < 16) l1 -> Forall (fun d => 0 <= d < 16) l2 -> map digit_char l1 = map digit_char l2 -> l1 = l2.
Proof.
  revert l2. induction l1 as [|a l1 IH]; intros [|b l2] H1 H2; try done. cbn. intros [= Hd Hl].
  apply Forall_cons_1 in H1 as [? H1], H2 as [? H2]. f_equal; [by apply digit_char_inj|by apply IH].
Qed.

Lemma to_text_inj base v w : 2 <= base <= 16 -> 0 <= v < 2 ^ 32 -> 0 <= w < 2 ^ 32 -> to_text base v = to_text base w -> v = w.
Proof.
  intros Hb Hv Hw. unfold to_text.
  assert (2 ^ 32 <= base ^ Z.of_nat 32) as Hp by (change (Z.of_nat 32) with 32; apply Z.pow_le_mono_l; lia).
  destruct (digits_spec 32 base v []) as (d1 & -> & V1 & F1 & _); [lia|lia|lia|].
  destruct (digits_spec 32 base w []) as (d2 & -> & V2 & F2 & _); [lia|lia|lia|]. rewrite !app_nil_r. intros Hm.
  assert (forall ds, Forall (fun d => 0 <= d < base) ds -> Forall (fun d => 0 <= d < 16) ds) as Hi.
  { intros ds. apply List.Forall_impl. intros. lia. }
  apply map_digit_char_inj in Hm; [congruence|by apply Hi..].
Qed.

Lemma to_text_nonempty base v : 2 <= base -> 0 <= v < 2 ^ 32 -> to_text base v <> [].
Proof.
  intros Hb Hv. unfold to_text.
  assert (2 ^ 32 <= base ^ Z.of_nat 32) as Hp by (change (Z.of_nat 32) with 32; apply Z.pow_le_mono_l; lia).
  destruct (digits_spec 32 base v []) as (ds & -> & _ & _ & Hne); [lia|lia|lia|]. by destruct ds.
Qed.

Lemma format_d_inj a b : 0 <= a < 2 ^ 32 -> 0 <= b < 2 ^ 32 -> format_d a = format_d b -> a = b.
Proof. unfold format_d. intros Ha Hb. rewrite !(proj2 (Z.ltb_ge _ 0)) by lia. by apply to_text_inj. Qed.

Lemma format_08x_nonempty v : format_08x v <> [].
Proof.
  unfold format_08x, pad. destruct (to_text 16 v) as [|x l]; [done|]. by destruct (replicate (8 - length (x :: l)) 48).
Qed.

Lemma format_03d_nonempty v : format_03d v <> [].
Proof.
  unfold format_03d, format_0d. destruct (v <? 0); [done|]. unfold pad. destruct (to_text 10 v) as [|x l]; [done|].
  by destruct (replicate (3 - length (x :: l)) 48).
Qed.
