(* ===== verification/Commands.v ===== *)
(** * Commands of the command-line tool

    userspace/usbip: attach.cpp, detach.cpp, list.cpp, port.cpp and the output of filter.cpp, on top of the library.
    A command gives whether it succeeded and what it wrote to the standard output; messages about errors go elsewhere. *)

From Stdlib Require Import(notations) Strings.String.
From S2P Require Import Prelude Policy Session Vhci Events Attach Device Ioctl Client FilterCmd Persist Remote Text.
From S2P Require UsbIds.

#[local] Abbreviation str := UsbIds.str.

(** ** Text *)

Definition println (s : list byte) : list byte := s ++ [x0a].

(** "{:^n}" and "{:<n}" of a text, "{:n}" of an empty one. *)
Definition center (n : nat) (s : list byte) : list byte :=
  let fill := (n - length s)%nat in replicate (fill / 2) x20 ++ s ++ replicate (fill - fill / 2) x20.
Definition left_aligned (n : nat) (s : list byte) : list byte := s ++ replicate (n - length s) x20.

(** "{:0n}", "{:n}" and "{:#04x}" of a number. *)
Definition format_zeros (n : nat) (v : Z) : list byte := map z2b (format_0d n v).
Definition format_dec (v : Z) : list byte := map z2b (format_d v).
Definition format_width (n : nat) (v : Z) : list byte := replicate (n - length (format_dec v)) x20 ++ format_dec v.
Definition format_0x (v : Z) : list byte := str "0x"%string ++ map z2b (pad 2 (to_text 16 v)).

(** A location and a serial number, as they are listed. *)
Definition persistent_line (d : persistent_device) : list byte :=
  println (hostname (pd_location d) ++ str ":"%string ++ service (pd_location d) ++ str "/"%string ++ busid (pd_location d) ++ str " "%string ++ pd_serial d).

(** ** Imported devices (port.cpp) *)

Definition speed_value (s : usb_speed) : Z :=
  match s with UsbLowSpeed => 0 | UsbFullSpeed => 1 | UsbHighSpeed => 2 | UsbSuperSpeed => 3 end.

(** print *)
Definition print_imported (ids : UsbIds.ids) (d : imported_device) : list byte :=
  let product := UsbIds.get_product ids (vendor d) (product d) in
  let bus := u16 (Z.shiftr (devid d) 16) in
  let dev := u16 (Z.land (devid d) 0xFFFF) in
  let loc := location d in
  println (str "Port "%string ++ format_zeros 2 (port d) ++ str ": device in use at "%string ++ UsbIds.get_speed_str (speed_value (speed d))) ++
  println (str "         "%string ++ product) ++
  println (str "           -> usbip://"%string ++ hostname loc ++ str ":"%string ++ service loc ++ str "/"%string ++ busid loc) ++
  println (str "           -> remote bus/dev "%string ++ format_zeros 3 bus ++ str "/"%string ++ format_zeros 3 dev) ++
  println (str "           -> serial '"%string ++ serial d ++ str "'"%string).

Record port_args : Type := { pa_ports : list Z; pa_persistent : bool }.

Definition stash_of (d : imported_device) : persistent_device := {| pd_location := location d; pd_serial := serial d |}.

(** The loop over the devices: whether one was listed, the output, those to stash. *)
Fixpoint port_loop (ids : UsbIds.ids) (ports : list Z) (devices : list imported_device) (found : bool) (out : list byte)
    (stash : list persistent_device) : bool * list byte * list persistent_device :=
  match devices with
  | [] => (found, out, stash)
  | d :: devices =>
      if bool_decide (ports = []) || bool_decide (port d ∈ ports) then
        let out := if found then out else out ++ println (str "Imported USB devices"%string) ++ println (str "===================="%string) in
        port_loop ids ports devices true (out ++ print_imported ids d) (stash ++ [stash_of d])
      else port_loop ids ports devices found out stash
  end.

(** The arguments of attach. *)
Record attach_cmd_args : Type := {
  ac_remote : list byte; ac_busid : list byte; ac_serial : list byte; ac_terse : bool; ac_stop : bool; ac_once : bool;
  ac_persistent : bool; ac_stop_all : bool }.

(** ** Commands *)

Section commands.
Context {D : Type} (DeviceIoControl : D -> code -> list byte -> list byte -> option (call_result * D)).
Context (utf8_to_wchar : list byte -> option (list Z)) (wchar_to_utf8 : list Z -> option (list byte)).

(** The names of vendors and products, global_args.tcp_port, whether vhci::open gave a handle. *)
Context (ids : UsbIds.ids) (tcp_port : list byte) (opened : bool).

Definition cmd_port (fuel : nat) (args : port_args) (s : D) : option (bool * list byte * D) :=
  if negb opened then Some (false, [], s)
  else
    '(_, devices, s) ← get_imported_devices DeviceIoControl fuel s;
    match devices with
    | None => Some (false, [], s)
    | Some devices =>
        let '(found, out, stash) := port_loop ids (pa_ports args) devices false [] [] in
        let done := found || bool_decide (pa_ports args = []) in
        if pa_persistent args then
          '(_, stored, s) ← set_persistent DeviceIoControl utf8_to_wchar stash s;
          Some (done && stored, out, s)
        else Some (done, out, s)
    end.

(** What a persistent device is attached with. *)
Definition attach_args_for (d : persistent_device) : attach_args :=
  {| aa_location := pd_location d; aa_serial := pd_serial d; aa_once := false |}.

(** attach_persistent_devices: the loop, which goes on when an attach fails. *)
Fixpoint attach_loop (devices : list persistent_device) (out : list byte) (s : D) : option (bool * list byte * D) :=
  match devices with
  | [] => Some (true, out, s)
  | d :: devices =>
      '(_, _, s) ← attach DeviceIoControl (attach_args_for d) s;
      attach_loop devices (out ++ persistent_line d) s
  end.

Definition attach_persistent_devices (fuel : nat) (s : D) : option (bool * list byte * D) :=
  '(_, v, s) ← get_persistent DeviceIoControl wchar_to_utf8 fuel s;
  match v with
  | None => Some (false, [], s)
  | Some v => attach_loop v [] s
  end.

Definition stop_attempts (loc : option device_location) (s : D) : option (bool * list byte * D) :=
  '(_, cnt, s) ← stop_attach_attempts DeviceIoControl loc s;
  Some (0 <=? cnt, [], s).

Definition cmd_attach (fuel : nat) (args : attach_cmd_args) (s : D) : option (bool * list byte * D) :=
  if negb opened then Some (false, [], s)
  else if ac_persistent args then attach_persistent_devices fuel s
  else
    let cmd_args :=
      {| aa_location := {| hostname := ac_remote args; service := tcp_port; busid := ac_busid args |};
         aa_serial := ac_serial args; aa_once := ac_once args |} in
    if ac_stop args || ac_stop_all args then
      stop_attempts (if ac_stop args then Some (aa_location cmd_args) else None) s
    else
      '(_, p, s) ← attach DeviceIoControl cmd_args s;
      if p =? 0 then Some (false, [], s)
      else
        Some (true, println (if ac_terse args then format_dec p else str "succesfully attached to port "%string ++ format_dec p), s).

Definition cmd_detach (p : Z) (s : D) : option (bool * list byte * D) :=
  if negb opened then Some (false, [], s)
  else
    '(_, done, s) ← detach DeviceIoControl p s;
    Some (done,
      if negb done then []
      else if p <=? 0 then println (str "all ports are detached"%string)
      else println (str "port "%string ++ format_dec p ++ str " is succesfully detached"%string), s).

(** list_persistent_devices *)
Definition list_persistent_devices (fuel : nat) (s : D) : option (bool * list byte * D) :=
  if negb opened then Some (false, [], s)
  else
    '(_, v, s) ← get_persistent DeviceIoControl wchar_to_utf8 fuel s;
    Some (match v with None => (false, []) | Some v => (true, concat (map persistent_line v)) end, s).

End commands.

(** ** Exportable devices (list.cpp) *)

Definition on_device_count (count : Z) : list byte :=
  if count =? 0 then [] else println (str "Exportable USB devices"%string) ++ println (str "======================"%string).

Definition on_device (ids : UsbIds.ids) (d : usb_device) : list byte :=
  let prod := UsbIds.get_product ids (u_idVendor d) (u_idProduct d) in
  let csp := UsbIds.get_class ids (u_class d) (u_subclass d) (u_protocol d) in
  println (center 11 (u_busid d) ++ str ": "%string ++ prod) ++
  println (left_aligned 11 [] ++ str ": "%string ++ u_path d) ++
  println (left_aligned 11 [] ++ str ": "%string ++ csp) ++
  (if u_interfaces d =? 0 then [x0a] else []).

Definition on_interface (ids : UsbIds.ids) (d : usb_device) (idx : Z) (r : usb_interface) : list byte :=
  let csp := UsbIds.get_class ids (b2z (bInterfaceClass r)) (b2z (bInterfaceSubClass r)) (b2z (bInterfaceProtocol r)) in
  println (left_aligned 11 [] ++ str ": "%string ++ format_width 2 idx ++ str " - "%string ++ csp) ++
  (if idx + 1 =? u_interfaces d then [x0a] else []).

Definition print_callback (ids : UsbIds.ids) (cb : callback) : list byte :=
  match cb with
  | OnDevCnt count => on_device_count count
  | OnDev _ d => on_device ids d
  | OnIntf _ d idx r => on_interface ids d idx r
  end.

(** cmd_list of a server, after connect: [None] when it failed. *)
Definition cmd_list_remote {N} `{Transport N} (ids : UsbIds.ids) (sock : option (thread N)) : option (bool * list byte) :=
  match sock with
  | None => Some (false, [])
  | Some t => '(good, cbs, _) ← enum_exportable_devices t true; Some (good, concat (map (print_callback ids) cbs))
  end.

(** ** The filter policy (filter.cpp) *)

Definition print_entry (e : device_filter_entry) : list byte :=
  let fields :=
    (if Z.land (b2z (match_flags e)) 1 =? 0 then [] else str " class="%string ++ format_0x (b2z (bClass e))) ++
    (if Z.land (b2z (match_flags e)) 2 =? 0 then [] else str " subclass="%string ++ format_0x (b2z (bSubClass e))) ++
    (if Z.land (b2z (match_flags e)) 4 =? 0 then [] else str " protocol="%string ++ format_0x (b2z (bProtocol e))) in
  println (str "    -"%string ++ if bool_decide (fields = []) then str " (matches any)"%string else fields).

Definition category_line (p : device_filter_policy) (c : device_type_category) : list byte :=
  println (str "  ["%string ++ (if category_enabled p c then str "x"%string else str " "%string) ++ str "] "%string ++
           left_aligned 14 (str (cat_id c)) ++ str " "%string ++ str (cat_name c)).

(** Entries of the categories that are enabled. *)
Definition covered (p : device_filter_policy) : list device_filter_entry :=
  concat (map (fun c => if category_enabled p c then cat_entries c else []) device_type_categories).

Fixpoint additional_loop (covered es : list device_filter_entry) (first : bool) (out : list byte) : list byte :=
  match es with
  | [] => out
  | e :: es =>
      if contains covered e then additional_loop covered es first out
      else
        additional_loop covered es false (out ++ (if first then println (str "Additional entries:"%string) else []) ++ print_entry e)
  end.

Definition print_policy (p : device_filter_policy) : list byte :=
  match mode p with
  | disabled => println (str "Device-type filter: DISABLED (all device types are allowed)"%string)
  | whitelist =>
      println (str "Device-type filter: WHITELIST"%string ++ if bool_decide (entries p = []) then str " (empty => every device is denied)"%string else []) ++
      println (str "Categories:"%string) ++ concat (map (category_line p) device_type_categories) ++
      additional_loop (covered p) (entries p) true []
  end.

(** ** Lemmas: listing and stashing *)

Definition device_listed (ports : list Z) (d : imported_device) : Prop := ports = [] \/ port d ∈ ports.

#[global] Instance device_listed_dec ports d : Decision (device_listed ports d).
Proof. unfold device_listed. apply _. Defined.

Definition imported_header : list byte := println (str "Imported USB devices"%string) ++ println (str "===================="%string).

(** What port writes for the devices it lists. *)
Definition listing (ids : UsbIds.ids) (l : list imported_device) : list byte :=
  (if bool_decide (l = []) then [] else imported_header) ++ concat (map (print_imported ids) l).

Lemma port_loop_found ids ports devices out stash :
  port_loop ids ports devices true out stash =
    let l := filter (device_listed ports) devices in (true, out ++ concat (map (print_imported ids) l), stash ++ map stash_of l).
Proof.
  revert out stash. induction devices as [|d devices IH]; intros out stash; cbn [port_loop]; [by rewrite !app_nil_r|].
  destruct (decide (device_listed ports d)) as [Hd|Hd].
  - rewrite filter_cons_True by done. replace (_ || _) with true; [|destruct Hd as [Hd|Hd]; rewrite (bool_decide_eq_true_2 _ Hd); by rewrite ?orb_true_r].
    rewrite IH. cbv zeta. cbn [map concat]. by rewrite <- !app_assoc.
  - rewrite filter_cons_False by done. assert (ports <> [] /\ port d ∉ ports) as [H1 H2] by (unfold device_listed in Hd; tauto).
    rewrite (bool_decide_eq_false_2 _ H1), (bool_decide_eq_false_2 _ H2). apply IH.
Qed.

Lemma port_loop_listing ids ports devices :
  port_loop ids ports devices false [] [] =
    let l := filter (device_listed ports) devices in (negb (bool_decide (l = [])), listing ids l, map stash_of l).
Proof.
  induction devices as [|d devices IH]; cbn [port_loop]; [done|].
  destruct (decide (device_listed ports d)) as [Hd|Hd].
  - rewrite filter_cons_True by done. replace (_ || _) with true; [|destruct Hd as [Hd|Hd]; rewrite (bool_decide_eq_true_2 _ Hd); by rewrite ?orb_true_r].
    rewrite port_loop_found. cbv zeta. unfold listing. rewrite !bool_decide_eq_false_2 by done. unfold imported_header. cbn [map concat app negb]. by rewrite <- !app_assoc.
  - rewrite filter_cons_False by done. assert (ports <> [] /\ port d ∉ ports) as [H1 H2] by (unfold device_listed in Hd; tauto).
    rewrite (bool_decide_eq_false_2 _ H1), (bool_decide_eq_false_2 _ H2). exact IH.
Qed.

Lemma Forall2_filter {A B} (R : A -> B -> Prop) (P : A -> Prop) (Q : B -> Prop) `{forall x, Decision (P x)} `{forall x, Decision (Q x)} l k :
  (forall x y, R x y -> P x <-> Q y) -> Forall2 R l k -> Forall2 R (filter P l) (filter Q k).
Proof.
  intros HPQ HR. induction HR as [|x y l k Hxy _ IH]; [constructor|]. destruct (decide (P x)) as [Hp|Hp].
  - rewrite filter_cons_True, filter_cons_True by (try done; by apply (HPQ x y)). by constructor.
  - rewrite filter_cons_False, filter_cons_False by (try done; by rewrite <- (HPQ x y)). done.
Qed.

(** ** Stashing and attaching *)

Section stash.
Context {W : Type} `{Wdf W} `{AttachWdf W} `{Udecx W} `{Controller W}.
Context {R : Type} `{Policy.Registry R} {K : Type} `{HK : PersistentKeyLaws K}.
Context (dos_error : ntstatus -> win_error) `{!DosErrors dos_error} (junk : nat -> list byte).
Context (junk_length : forall n, length (junk n) = n).
Context (unicode_to_utf8 : nat -> list Z -> ntstatus * list byte).
Context (utf8_to_unicode_n : list byte -> ntstatus * list Z).
Context (hash_string : list Z -> ntstatus * Z) (pool : Z -> bool).
Context (source_of : device -> Z) (wi_source : request -> Z) (stack pad : list byte) (new_request : world W -> request).
Context (wide : list byte -> option (list Z)) `{!Codec wide}.
Context (utf8_to_wchar : list byte -> option (list Z)) (wchar_to_utf8 : list Z -> option (list byte)).
Context `{!Conversions wide utf8_to_wchar wchar_to_utf8 unicode_to_utf8}.
Context (ids : UsbIds.ids) (tcp_port : list byte).

#[local] Abbreviation control := (driver_control dos_error junk unicode_to_utf8 utf8_to_unicode_n hash_string pool source_of wi_source
                       stack pad new_request).
#[local] Abbreviation describes := (Client.describes unicode_to_utf8).

(** A device of applications that asks for the persistent devices as the driver answers; what it does with other requests is left open. *)
Definition reads_key {D} (io : D -> code -> list byte -> list byte -> option (call_result * D)) (view : D -> driver) : Prop :=
  forall s inb out r v, control (view s) GET_PERSISTENT inb out = Some (r, v) ->
    exists s', io s GET_PERSISTENT inb out = Some (r, s') /\ view s' = v.

Lemma get_persistent_reads {D} io (view : D -> driver) fuel s err v sv : reads_key io view ->
  get_persistent control wchar_to_utf8 fuel (view s) = Some (err, v, sv) ->
  exists s', get_persistent io wchar_to_utf8 fuel s = Some (err, v, s') /\ view s' = sv.
Proof.
  intros Hio. unfold get_persistent.
  assert (forall val e r sv, get_persistent_devices control fuel val (view s) = Some (e, r, sv) ->
    exists s', get_persistent_devices io fuel val s = Some (e, r, s') /\ view s' = sv) as Hloop.
  { clear err v sv. revert s. induction fuel as [|fuel IH]; intros s val e r sv; [done|]. cbn [get_persistent_devices].
    destruct (control (view s) GET_PERSISTENT [] (wide_bytes val)) as [[cr v]|] eqn:Hc; [|done].
    destruct (Hio _ _ _ _ _ Hc) as (s' & -> & Hv). cbn [mbind option_bind].
    destruct (cr_ok cr); [intros [= <- <- <-]; by exists s'|].
    destruct (cr_error cr); try (intros [= <- <- <-]; by exists s'). subst v. apply IH. }
  destruct (get_persistent_devices control fuel _ (view s)) as [[[e r] sv']|] eqn:Hg; [|done].
  destruct (Hloop _ _ _ _ Hg) as (s' & -> & Hv). cbn [mbind option_bind]. destruct r as [multi_sz|].
  - destruct (split_multi_sz multi_sz); [|done]. cbn [mbind option_bind]. intros [= <- <- <-]. by exists s'.
  - intros [= <- <- <-]. by exists s'.
Qed.

(** The device on a port that the arguments name, or any. *)
Definition port_chosen (ports : list Z) (c : device_ctx) : Prop := ports = [] \/ Vhci.port c ∈ ports.

#[global] Instance port_chosen_dec ports c : Decision (port_chosen ports c).
Proof. unfold port_chosen. apply _. Defined.

(** The string a device of the driver is stashed as. *)
Definition stashable (c : device_ctx) (ws : list Z) : Prop := forall i, describes i c ->
  stored_string wide (stash_of i) ws /\ (serial i <> [] \/ unicode_to_utf8 16 [] = (STATUS_SUCCESS, [])).

Definition stashed_args : attach_cmd_args :=
  {| ac_remote := []; ac_busid := []; ac_serial := []; ac_terse := false; ac_stop := false; ac_once := false; ac_persistent := true; ac_stop_all := false |}.

(** C20: what "port --stash" lists is what "attach --stashed" attaches: the command ends, writes the text of exactly the devices on the ports it was given, in the order of the ports, and
    changes no device; when it succeeds some device was listed, unless no port was given, and from then on, as long as the value is kept, also after
    the driver was started again, "list --stashed" writes those devices and "attach --stashed" calls attach for each of them
    with its host, service, bus id and serial number; and the driver reads the same devices in the value.  The texts of the
    devices have no commas and terminators inside, and the value they make has at most 511 units: longer ones are written, but not read back. *)
Theorem stashed_devices_are_attached (s : driver) (args : port_args) (strs : list (list Z)) (fuel : nat) :
  pa_persistent args = true -> listable unicode_to_utf8 (d_world s) -> (7 <= fuel)%nat -> key_open (d_key s) = STATUS_SUCCESS ->
  (forall n, pool n = true) -> (forall x, exists h, hash_string x = (STATUS_SUCCESS, h)) ->
  Forall2 stashable (filter (port_chosen (pa_ports args)) (attached (d_world s))) strs -> (length (multi_sz strs) <= 511)%nat ->
  exists done out s', cmd_port control utf8_to_wchar ids true fuel args s = Some (done, out, s') /\ same_devices (d_world s) (d_world s') /\
    exists l, Forall2 describes l (filter (port_chosen (pa_ports args)) (attached (d_world s))) /\ out = listing ids l /\
      (done = true -> (pa_ports args = [] \/ l <> []) /\
        Forall2 (driver_reads unicode_to_utf8 hash_string pool wide) (map stash_of l) strs /\
        forall D io (view : D -> driver) s2, reads_key io view -> d_key (view s2) = d_key s' ->
          exists s3, d_key (view s3) = d_key s' /\
            list_persistent_devices io wchar_to_utf8 true fuel s2 = Some (true, concat (map (persistent_line ∘ stash_of) l), s3) /\
            cmd_attach io wchar_to_utf8 tcp_port true fuel stashed_args s2 = attach_loop io (map stash_of l) [] s3).
Proof.
  intros Hpers Hlist Hfuel Hopen Hpool Hhash Hst Hlen.
  destruct (get_imported_devices_all dos_error junk junk_length unicode_to_utf8 utf8_to_unicode_n hash_string pool source_of wi_source stack pad new_request s fuel Hlist Hfuel)
    as (all & s1 & Hget & Hdesc & Hsame1 & _ & Hkey1).
  set (l := filter (device_listed (pa_ports args)) all).
  assert (Forall2 describes l (filter (port_chosen (pa_ports args)) (attached (d_world s)))) as Hl.
  { apply Forall2_filter; [|done]. intros i c Hi. unfold device_listed, port_chosen. by rewrite (de_port _ _ _ Hi). }
  assert (Forall2 (stored_string wide) (map stash_of l) strs /\ Forall (fun d => pd_serial d <> [] \/ unicode_to_utf8 16 [] = (STATUS_SUCCESS, [])) (map stash_of l)) as [Hstrs Hempty].
  { clear -Hl Hst. revert strs Hst. induction Hl as [|i c l cs Hic _ IH]; intros strs Hst; [inversion Hst; by split; constructor|].
    inversion Hst as [|? ws ? strs' H1 H2]; subst. destruct (IH _ H2). destruct (H1 i Hic). split; by constructor. }
  destruct (set_persistent_spec dos_error junk unicode_to_utf8 utf8_to_unicode_n hash_string pool source_of wi_source stack pad new_request wide utf8_to_wchar wchar_to_utf8 s1 (map stash_of l) strs Hstrs)
    as (err & stored & s' & Hset & Hsame & _ & _ & Hgood).
  exists ((negb (bool_decide (l = [])) || bool_decide (pa_ports args = [])) && stored), (listing ids l), s'.
  split. { unfold cmd_port. cbn [negb]. rewrite Hget. cbn [mbind option_bind]. rewrite port_loop_listing. cbv zeta. fold l. rewrite Hpers, Hset. done. }
  split; [destruct Hsame1, Hsame; split; congruence|]. exists l. split; [done|]. split; [done|].
  intros [Hdone Hstored]%andb_true_iff. destruct (Hgood Hstored) as [Hm Hkey]. rewrite Hkey1 in Hkey. split.
  { apply orb_true_iff in Hdone as [Hd|Hd]; [right; by apply negb_true_iff, bool_decide_eq_false in Hd|left; by apply bool_decide_eq_true in Hd]. }
  split; [by apply (stored_strings_read unicode_to_utf8 hash_string pool wide utf8_to_wchar wchar_to_utf8)|].
  intros D io view s2 Hio Hv. rewrite <- Hv in Hkey.
  destruct (get_persistent_spec dos_error junk unicode_to_utf8 utf8_to_unicode_n hash_string pool source_of wi_source stack pad new_request wide utf8_to_wchar wchar_to_utf8 (view s2) (d_key s) (map stash_of l) strs fuel
    Hstrs Hm Hkey Hopen Hlen ltac:(lia)) as (err' & sv & Hread & _ & _ & Hk).
  destruct (get_persistent_reads io view fuel s2 err' _ sv Hio Hread) as (s3 & Hgp & Hv3). exists s3. split; [by rewrite Hv3, Hk|].
  split; [unfold list_persistent_devices; cbn [negb]; rewrite Hgp; cbn [mbind option_bind]; by rewrite map_map|].
  unfold cmd_attach, attach_persistent_devices. cbn [negb stashed_args ac_persistent]. by rewrite Hgp.
Qed.
End stash.

(** ** The policy as it is shown *)

Lemma additional_loop_spec cov es first out :
  additional_loop cov es first out =
    let extra := filter (fun e => contains cov e = false) es in
    out ++ (if first && negb (bool_decide (extra = [])) then println (str "Additional entries:"%string) else []) ++ concat (map print_entry extra).
Proof.
  revert first out. induction es as [|e es IH]; intros first out; cbn [additional_loop].
  - cbv zeta. cbn [filter list_filter map concat]. rewrite andb_false_r. by rewrite !app_nil_r.
  - destruct (contains cov e) eqn:He.
    + rewrite filter_cons_False by congruence. apply IH.
    + rewrite filter_cons_True by done. rewrite IH. cbv zeta. cbn [map concat]. rewrite (bool_decide_eq_false_2 (e :: _ = [])) by done.
      cbn [andb negb]. rewrite andb_true_r. cbn [app]. by rewrite <- !app_assoc.
Qed.

Lemma elem_of_covered p e : e ∈ covered p <-> exists c, c ∈ device_type_categories /\ category_enabled p c = true /\ e ∈ cat_entries c.
Proof.
  unfold covered. rewrite list_elem_of_In, in_concat. setoid_rewrite in_map_iff. split.
  - intros (x & (c & <- & Hc) & He). destruct (category_enabled p c) eqn:E; [|done]. exists c. rewrite !list_elem_of_In. done.
  - intros (c & Hc & E & He). rewrite !list_elem_of_In in *. exists (cat_entries c). split; [|done]. exists c. by rewrite E.
Qed.

(** What is shown is the whole policy: an entry is in it exactly when its category is checked or it is among the additional ones. *)
Lemma policy_shown p : mode p = whitelist ->
  let extra := filter (fun e => contains (covered p) e = false) (entries p) in
  print_policy p =
    println (str "Device-type filter: WHITELIST"%string ++ if bool_decide (entries p = []) then str " (empty => every device is denied)"%string else []) ++
    println (str "Categories:"%string) ++ concat (map (category_line p) device_type_categories) ++
    (if bool_decide (extra = []) then [] else println (str "Additional entries:"%string)) ++ concat (map print_entry extra) /\
  forall e, e ∈ entries p <-> e ∈ extra \/ exists c, c ∈ device_type_categories /\ category_enabled p c = true /\ e ∈ cat_entries c.
Proof.
  intros Hm extra. split.
  - unfold print_policy. rewrite Hm, additional_loop_spec. cbv zeta. fold extra. cbn [app andb]. by destruct (bool_decide (extra = [])).
  - intros e. unfold extra. rewrite list_elem_of_filter, <- elem_of_covered. unfold contains. rewrite bool_decide_eq_false. split.
    + intros He. destruct (decide (e ∈ covered p)); tauto.
    + intros [[_ He]|He]; [done|]. apply elem_of_covered in He as (c & Hc & Hen & He). unfold category_enabled in Hen. apply andb_true_iff in Hen as [_ Hall].
      rewrite forallb_forall in Hall. specialize (Hall e (proj1 (list_elem_of_In _ _) He)). unfold contains in Hall. by apply bool_decide_eq_true in Hall.
Qed.

(** ** Examples *)
#[local] Existing Instance Events.Demo.framework.
#[local] Existing Instance Attach.Demo.requests.
#[local] Existing Instance Ioctl.Demo.framework.
#[local] Existing Instance Controller.Demo.usb_stack.
#[local] Existing Instance Client.Demo.dos_errors.
#[local] Existing Instance Persist.Demo.one_value_key.
#[local] Existing Instance Persist.Demo.one_value_key_laws.
#[local] Existing Instance Persist.Demo.ascii.
#[local] Existing Instance Persist.Demo.conversions.

Module Demo.

Definition no_ids : UsbIds.ids := {| UsbIds.m_vendor := ∅; UsbIds.m_class := ∅ |}.
Definition all_ports : port_args := {| pa_ports := []; pa_persistent := true |}.

(** "p,3,1-1," *)
Definition stick_string : list Z := [112; 44; 51; 44; 49; 45; 49; 44].

Lemma stick_stashable : Forall2 (stashable Events.Demo.utf8 Persist.Demo.wide) (filter (port_chosen []) (attached (d_world Persist.Demo.driver0))) [stick_string].
Proof.
  assert (filter (port_chosen []) (attached (d_world Persist.Demo.driver0)) = [with_port (Vhci.Demo.stick USB_SPEED_SUPER) 3]) as -> by (vm_compute; reflexivity).
  constructor; [|constructor]. intros i [Hh Hs Hb _ _ _ _ Hr]. vm_compute in Hh, Hs, Hb, Hr. injection Hh as Hh. injection Hs as Hs. injection Hb as Hb. split; [|by right].
  exists [112], [51], [49; 45; 49], []. split; [|reflexivity].
  destruct i as [[h v b] p d sp ve pr sr]. cbn [location hostname service busid serial] in *. subst. unfold stash_of. cbn [location serial].
  split; [repeat split; apply (bool_decide_unpack _); exact I|apply (bool_decide_unpack _); exact I|reflexivity..].
Qed.

Lemma stick_stashed : (fun r => fst (fst r)) <$> cmd_port Persist.Demo.control Persist.Demo.utf8_to_wchar no_ids true 7 all_ports Persist.Demo.driver0 = Some true.
Proof. vm_compute. reflexivity. Qed.

Lemma stashed_devices_are_attached_witness : exists out s' l s3,
  cmd_port Persist.Demo.control Persist.Demo.utf8_to_wchar no_ids true 7 all_ports Persist.Demo.driver0 = Some (true, out, s') /\
  list_persistent_devices Persist.Demo.control Persist.Demo.wchar_to_utf8 true 7 s' = Some (true, concat (map (persistent_line ∘ stash_of) l), s3) /\
  map port l = [3].
Proof.
  destruct (stashed_devices_are_attached (R := one_value_registry) (HK := Persist.Demo.one_value_key_laws) Client.Demo.dos_error Client.Demo.junk Client.Demo.junk_length
              Events.Demo.utf8 Controller.Demo.to_unicode Attach.Demo.hash_string (fun _ => true) (fun _ => 9) (fun _ => 8)
              (replicate 268 x55) [x00; x00; x00] Client.Demo.new_request Persist.Demo.wide Persist.Demo.utf8_to_wchar Persist.Demo.wchar_to_utf8 no_ids []
              Persist.Demo.driver0 all_ports [stick_string] 7 eq_refl Client.Demo.claimed_listable (le_n 7) eq_refl ltac:(reflexivity)
              ltac:(intros x; eexists; reflexivity) stick_stashable ltac:(vm_compute; lia))
    as (res & out & s' & Hx & _ & l & Hl & _ & Hok).
  pose proof stick_stashed as Hr. unfold Persist.Demo.control in Hr |- *. rewrite Hx in Hr. cbn in Hr. injection Hr as ->.
  destruct (Hok eq_refl) as (_ & _ & Hlater).
  destruct (Hlater _ (driver_control (R := one_value_registry) (K := option (Z * list byte)) Client.Demo.dos_error Client.Demo.junk Events.Demo.utf8
    Controller.Demo.to_unicode Attach.Demo.hash_string (fun _ => true) (fun _ => 9) (fun _ => 8) (replicate 268 x55) [x00; x00; x00] Client.Demo.new_request)
    (fun s => s) s' ltac:(intros s inb o r v Hc; exists v; by split) eq_refl) as (s3 & _ & Hlist & _).
  exists out, s', l, s3. split; [exact Hx|]. split; [exact Hlist|].
  assert (filter (port_chosen (pa_ports all_ports)) (attached (d_world Persist.Demo.driver0)) = [with_port (Vhci.Demo.stick USB_SPEED_SUPER) 3]) as Hc by (vm_compute; reflexivity).
  rewrite Hc in Hl. inversion Hl as [|i c ? ? Hd Hn]; subst. inversion Hn; subst. cbn. rewrite (de_port _ _ _ Hd). reflexivity.
Defined.

(** Stashing the device of a port on which there is none fails, and forgets the devices that were stashed. *)
Lemma stash_of_no_port_erases :
  ('(_, stored, s) ← set_persistent Persist.Demo.control Persist.Demo.utf8_to_wchar Persist.Demo.two_servers Persist.Demo.driver0;
   '(done, out, s) ← cmd_port Persist.Demo.control Persist.Demo.utf8_to_wchar no_ids true 7 {| pa_ports := [200]; pa_persistent := true |} s;
   '(_, v, _) ← get_persistent Persist.Demo.control Persist.Demo.wchar_to_utf8 1 s;
   Some (stored, done, out, v)) = Some (true, false, [], Some []).
Proof. vm_compute. reflexivity. Qed.

(** What is written for a keyboard that a server exports. *)
Lemma keyboard_listed : exists cbs, device_events 0 Remote.Demo.exported = Some cbs /\
  concat (map (print_callback no_ids) cbs) = str "    1-1    : unknown vendor : unknown product (046d:c31c)
           : /s
           : (Defined at Interface level) (00/00/00)
           :  0 - ?/?/? (03/01/01)

"%string.
Proof. eexists. split; [vm_compute; reflexivity|]. vm_compute. reflexivity. Qed.
End Demo.
