(* ===== verification/Tree.v ===== *)
(** * The window of devices

    userspace/wusbip: the tree of servers and their devices that the GUI shows, in wusbip.cpp, with
    device_columns.cpp, utils.cpp and filter_dialog.cpp.  A wxString is a list of character codes; a device is a row of the texts of its columns.
    [None] is an assertion that fails. *)

From Stdlib Require Import(notations) Strings.String.
From S2P Require Import Prelude Policy Proto Session Filter Client Persist FilterCmd Remote Text.
From S2P Require UsbIds.

(** ** Columns (device_columns.h) *)

Definition COL_BUSID : nat := 0.
Definition COL_PORT : nat := 1.
Definition COL_SPEED : nat := 2.
Definition COL_VENDOR : nat := 3.
Definition COL_PRODUCT : nat := 4.
Definition COL_STATE : nat := 5.
Definition COL_PERSISTENT : nat := 6.
Definition COL_NOTES : nat := 7.
Definition COL_DEVID : nat := 8.
Definition COL_SERIAL : nat := 9.
Definition COL_SOURCE_ID : nat := 10.
Definition UPD_COL_FIRST : nat := COL_PORT.
Definition UPD_COL_LAST : nat := COL_SOURCE_ID.
Definition DEV_COL_URL : nat := 11.
Definition DEV_COL_CNT : nat := 12.

(** device_columns: an array of [DEV_COL_CNT] texts; a row of the tree has those up to
    [COL_SOURCE_ID]. *)
Definition get (dc : list (list Z)) (col : nat) : list Z := nth col dc [].
Definition set (dc : list (list Z)) (col : nat) (v : list Z) : list (list Z) := <[col := v]> dc.
Definition no_columns : list (list Z) := replicate DEV_COL_CNT [].

#[global] Arguments get : simpl never.
#[global] Arguments set : simpl never.

Definition get_url (dc : list (list Z)) : list Z := get dc DEV_COL_URL.

Definition mkflag (col : nat) : Z := Z.shiftl 1 (Z.of_nat col).
Definition mkflags (cols : list nat) : Z := fold_left (fun flags col => Z.lor flags (mkflag col)) cols 0.
Definition has_flag (flags : Z) (col : nat) : bool := negb (Z.land flags (mkflag col) =? 0).

(** operator == of device_columns *)
Definition same_key (a b : list (list Z)) : bool := bool_decide (get_url a = get_url b) && bool_decide (get a COL_BUSID = get b COL_BUSID).

#[global] Instance device_location_eq_dec : EqDecision device_location.
Proof. solve_decision. Defined.

Definition wx_assert (b : bool) : option unit := if b then Some tt else None.

(** ** Texts *)

(** enum class state *)
Definition unplugged : Z := 0.
Definition connecting : Z := 1.
Definition connected : Z := 2.
Definition plugged : Z := 3.
Definition disconnected : Z := 4.
Definition unplugging : Z := 5.

(** vhci::get_state_str *)
Definition get_state_str (st : Z) : list Z :=
  if (0 <=? st) && (st <? 6) then
    nth (Z.to_nat st) (map wide ["unplugged"; "connecting"; "connected"; "plugged"; "disconnected"; "unplugging"]%string) []
  else [].

(** to_string(state): squares for the states that last. *)
Definition to_string (st : Z) : list Z :=
  if st =? unplugged then [0x25FB] else if st =? plugged then [0x25A3] else get_state_str st.

Definition g_persistent_mark : list Z := [0x2713].

(** get_speed_str of the GUI *)
Definition get_speed_str (s : usb_speed) : list Z :=
  match s with
  | UsbLowSpeed => wide "Low"%string
  | UsbFullSpeed => wide "Full"%string
  | UsbHighSpeed => wide "High"%string
  | UsbSuperSpeed => wide "Super"%string
  end.

(** to_wxstring(source_id) *)
Definition to_wxstring (source_id : Z) : list Z := if source_id =? 0 then [] else format_lx source_id.

Definition make_devid (busnum devnum : Z) : Z := u32 (Z.lor (u32 (Z.shiftl busnum 16)) (Z.land devnum 65535)).

Definition is_empty_device (d : imported_device) : bool := devid d =? 0.

(** split_server_url: at the last colon. *)
Fixpoint find_last_of (c : Z) (s : list Z) : option nat :=
  match s with
  | [] => None
  | x :: s => match find_last_of c s with Some n => Some (S n) | None => if x =? c then Some 0%nat else None end
  end.

Definition split_server_url (url : list Z) : option (list Z * list Z) :=
  pos ← find_last_of 58 url; Some (take pos url, drop (S pos) url).

(** is_port_residual *)
Definition is_port_residual (st : Z) : bool := (st =? unplugged) || (st =? connecting) || (st =? connected).

(** get_saved_keys *)
Definition get_saved_keys : list (list Z * nat) :=
  [(wide "busid", COL_BUSID); (wide "devid", COL_DEVID); (wide "speed", COL_SPEED); (wide "vendor", COL_VENDOR);
   (wide "product", COL_PRODUCT); (wide "serial", COL_SERIAL); (wide "notes", COL_NOTES)]%string.

Definition get_saved_flags : Z := mkflags (map snd get_saved_keys).

Definition set_saved_columns (dc saved : list (list Z)) : list (list Z) :=
  fold_left (fun dc k => set dc (snd k) (get saved (snd k))) get_saved_keys dc.

Section gui.
(** wxString::FromUTF8, FromAscii and utf8_string. *)
Context (from_utf8 from_ascii : list byte -> list Z) (to_utf8 : list Z -> list byte).

(** The names of vendors and products. *)
Context (ids : UsbIds.ids).

Definition make_server_url (loc : device_location) : list Z := from_utf8 (hostname loc ++ [x3a] ++ service loc).

Definition make_device_url (loc : device_location) : list Z := from_utf8 (hostname loc ++ [x3a] ++ service loc ++ [x2f] ++ busid loc).

Definition make_cmp_key (loc : device_location) : list (list Z) :=
  set (set no_columns DEV_COL_URL (make_server_url loc)) COL_BUSID (from_utf8 (busid loc)).

(** set_vendor_product *)
Definition set_id (dc : list (list Z)) (col : nat) (id : Z) (str : list byte) : list (list Z) :=
  if id =? 0 then dc else set dc col (if bool_decide (str = []) then format_08x id else from_ascii str).

Definition set_vendor_product (dc : list (list Z)) (vendor_id product_id : Z) : list (list Z) :=
  let '(vendor, product) := UsbIds.find_product ids vendor_id product_id in
  set_id (set_id dc COL_VENDOR vendor_id vendor) COL_PRODUCT product_id product.

(** make_persistent_device; without a colon the names stay empty. *)
Definition make_persistent_device (url busid serial : list Z) : persistent_device :=
  let '(hostname, service) := default ([], []) (split_server_url url) in
  {| pd_location := {| Client.hostname := to_utf8 hostname; Client.service := to_utf8 service; Client.busid := to_utf8 busid |};
     pd_serial := to_utf8 serial |}.

Definition persistent_of (dc : list (list Z)) : persistent_device := make_persistent_device (get_url dc) (get dc COL_BUSID) (get dc COL_SERIAL).

(** make_device_columns(imported_device) *)
Definition imported_columns (d : imported_device) : option (list (list Z) * Z) :=
  let dc := make_cmp_key (location d) in
  if is_empty_device d then
    _ ← wx_assert (match speed d with UsbLowSpeed => true | _ => false end);
    _ ← wx_assert (vendor d =? 0); _ ← wx_assert (product d =? 0); _ ← wx_assert (port d =? 0);
    Some (dc, 0)
  else
    let dc := set dc COL_DEVID (format_08x (devid d)) in
    let dc := set dc COL_SPEED (get_speed_str (speed d)) in
    let dc := set_vendor_product dc (vendor d) (product d) in
    let flags := Z.lor 0 (mkflags [COL_DEVID; COL_SPEED; COL_VENDOR; COL_PRODUCT]) in
    let '(dc, flags) := if port d =? 0 then (dc, flags) else (set dc COL_PORT (format_03d (port d)), Z.lor flags (mkflag COL_PORT)) in
    let '(dc, flags) :=
      if bool_decide (serial d = []) then (dc, flags) else (set dc COL_SERIAL (from_utf8 (serial d)), Z.lor flags (mkflag COL_SERIAL)) in
    Some (dc, flags).

(** make_device_columns(device_state) *)
Definition make_device_columns (st : device_state) : option (list (list Z) * Z) :=
  '(dc, flags) ← imported_columns (ds_device st);
  let dc := set dc COL_STATE (to_string (ds_state st)) in
  let flags := Z.lor flags (mkflag COL_STATE) in
  let dc := set dc COL_SOURCE_ID (to_wxstring (ds_source st)) in
  Some (dc, Z.lor flags (mkflag COL_SOURCE_ID)).

(** Sets: std::set of devices compares the locations, that of saved devices the server and the
    bus id; of equal elements the first is kept. *)
Definition contains_persistent (persistent : list persistent_device) (pd : persistent_device) : bool :=
  existsb (fun x => bool_decide (pd_location x = pd_location pd)) persistent.

Definition find_saved (saved : list (list (list Z))) (dc : list (list Z)) : option (list (list Z)) := head (filter (fun s => same_key s dc = true) saved).

(** update_from_saved *)
Definition update_from_saved (dc : list (list Z)) (flags : Z) (persistent : list persistent_device)
    (saved : option (list (list (list Z)))) (notes_only : bool) : option (list (list Z) * Z) :=
  '(dc, flags) ←
    match saved ≫= (fun saved => find_saved saved dc) with
    | None => Some (dc, flags)
    | Some i =>
        if notes_only then
          _ ← wx_assert (negb (has_flag flags COL_NOTES));
          Some (set dc COL_NOTES (get i COL_NOTES), Z.lor flags (mkflag COL_NOTES))
        else Some (set_saved_columns dc i, Z.lor flags get_saved_flags)
    end;
  if contains_persistent persistent (persistent_of dc) then
    _ ← wx_assert (negb (has_flag flags COL_PERSISTENT));
    Some (set dc COL_PERSISTENT g_persistent_mark, Z.lor flags (mkflag COL_PERSISTENT))
  else Some (dc, flags).

(** ** The tree *)

Record server : Type := { url : list Z; rows : list (list (list Z)) }.

(** An item is the position of its server and its own among the children. *)
Fixpoint find_index {A} (p : A -> bool) (l : list A) : option nat :=
  match l with [] => None | x :: l => if p x then Some 0%nat else S <$> find_index p l end.

Definition find_or_add_server (tree : list server) (u : list Z) : nat * list server :=
  match find_index (fun s => bool_decide (url s = u)) tree with
  | Some i => (i, tree)
  | None => (length tree, tree ++ [{| url := u; rows := [] |}])
  end.

(** The row of a device that is added: its bus id. *)
Definition new_row (busid : list Z) : list (list Z) := set (replicate DEV_COL_URL []) COL_BUSID busid.

Definition with_rows (s : server) (r : list (list (list Z))) : server := {| url := url s; rows := r |}.

Definition find_or_add_device (tree : list server) (u busid : list Z) : option ((nat * nat) * bool * list server) :=
  let '(i, tree) := find_or_add_server tree u in
  s ← tree !! i;
  match find_index (fun r => bool_decide (get r COL_BUSID = busid)) (rows s) with
  | Some j => Some ((i, j), false, tree)
  | None => Some ((i, length (rows s)), true, <[i := with_rows s (rows s ++ [new_row busid])]> tree)
  end.

Definition row_at (tree : list server) (dev : nat * nat) : option (list (list Z)) := s ← tree !! dev.1; rows s !! dev.2.

Definition set_row (tree : list server) (dev : nat * nat) (r : list (list Z)) : list server :=
  match tree !! dev.1 with Some s => <[dev.1 := with_rows s (<[dev.2 := r]> (rows s))]> tree | None => tree end.

(** remove_device: a server without devices goes too. *)
Definition remove_device (tree : list server) (dev : nat * nat) : option (list server) :=
  s ← tree !! dev.1;
  let r := delete dev.2 (rows s) in
  Some (if bool_decide (r = []) then delete dev.1 tree else <[dev.1 := with_rows s r]> tree).

(** update_device: the loop over the columns. *)
Fixpoint update_columns (n : nat) (i : nat) (r dc : list (list Z)) (flags : Z) : list (list Z) :=
  match n with
  | O => r
  | S n => update_columns n (S i) (if has_flag flags i && negb (bool_decide (get dc i = get r i)) then set r i (get dc i) else r) dc flags
  end.

Definition update_device (tree : list server) (dev : nat * nat) (dc : list (list Z)) (flags : Z) : option (list server) :=
  s ← tree !! dev.1;
  r ← rows s !! dev.2;
  _ ← wx_assert (bool_decide (get r COL_BUSID = get dc COL_BUSID));
  _ ← wx_assert (bool_decide (url s = get_url dc));
  if flags =? 0 then Some tree
  else Some (set_row tree dev (update_columns (UPD_COL_LAST - UPD_COL_FIRST + 1) UPD_COL_FIRST r dc flags)).

(** is_empty of an item *)
Definition is_empty (r : list (list Z)) : bool := bool_decide (get r COL_DEVID = []).

(** on_device_state, after the event was not skipped: the columns and which of them are set. *)
Definition event_columns (st : device_state) (added : bool) (persistent : list persistent_device) (saved : list (list (list Z)))
    : option (list (list Z) * Z) :=
  let st :=
    if (ds_state st =? disconnected) || (ds_state st =? unplugged) then
      {| ds_device := ds_device st; ds_state := ds_state st; ds_source := 0 |}
    else st in
  '(dc, flags) ← make_device_columns st;
  _ ← wx_assert (negb (flags =? 0));
  let '(dc, flags) :=
    if negb (bool_decide (get dc COL_PORT = [])) && is_port_residual (ds_state st) then
      (set dc COL_PORT [], Z.lor flags (mkflag COL_PORT))
    else (dc, flags) in
  if added || is_empty_device (ds_device st) then update_from_saved dc flags persistent (Some saved) false else Some (dc, flags).

(** An event of another source than the one the row shows. *)
Definition skipped (r : list (list Z)) (st : device_state) : bool :=
  let cur_id := get r COL_SOURCE_ID in
  negb (bool_decide (cur_id = []) || (ds_state st =? plugged)) && negb (bool_decide (to_wxstring (ds_source st) = cur_id)).

(** on_device_state; [persistent], [saved] are what get_persistent and get_saved return. *)
Definition on_device_state (tree : list server) (st : device_state) (persistent : list persistent_device) (saved : list (list (list Z)))
    : option (list server) :=
  let loc := location (ds_device st) in
  '(dev, added, tree) ← find_or_add_device tree (make_server_url loc) (from_utf8 (busid loc));
  r ← row_at tree dev;
  if (ds_state st =? disconnected) && is_empty r then remove_device tree dev
  else if skipped r st then Some tree
  else
    '(dc, flags) ← event_columns st added persistent saved;
    update_device tree dev dc flags.

(** on_reload: the loop over the devices the driver has; on_load follows once. *)
Fixpoint reload_loop (tree : list server) (devices : list imported_device) (persistent : list persistent_device) (saved : list (list (list Z)))
    : option (list server) :=
  match devices with
  | [] => Some tree
  | d :: devices =>
      let loc := location d in
      '(item, added, tree) ← find_or_add_device tree (make_server_url loc) (from_utf8 (busid loc));
      _ ← wx_assert added;
      '(dc, flags) ← make_device_columns {| ds_device := d; ds_state := plugged; ds_source := 0 |};
      '(dc, flags) ← update_from_saved dc flags persistent (Some saved) true;
      tree ← update_device tree item dc flags;
      reload_loop tree devices persistent saved
  end.

(** on_load: saved devices that are not in the tree, or only as an attempt to attach. *)
Fixpoint load_loop (tree : list server) (saved : list (list (list Z))) (persistent : list persistent_device) : option (list server) :=
  match saved with
  | [] => Some tree
  | dc :: saved =>
      '(dev, added, tree) ← find_or_add_device tree (get_url dc) (get dc COL_BUSID);
      r ← row_at tree dev;
      if negb ((added : bool) || is_empty r) then load_loop tree saved persistent
      else
        let dc := set dc COL_STATE (to_string unplugged) in
        '(dc, flags) ← update_from_saved dc (Z.lor get_saved_flags (mkflag COL_STATE)) persistent None true;
        tree ← update_device tree dev dc flags;
        load_loop tree saved persistent
  end.

Definition on_load (tree : list server) (saved : list (list (list Z))) (persistent : list persistent_device) : option (list server) :=
  load_loop tree saved persistent.

(** [devices] are those of get_imported_devices, [None] when it failed; [once] is whether
    on_load was run already. *)
Definition on_reload (devices : option (list imported_device)) (persistent : list persistent_device) (saved : list (list (list Z))) (once : bool)
    : option (list server) :=
  match devices with
  | None => Some []
  | Some devices =>
      tree ← reload_loop [] devices persistent saved;
      if once then Some tree else on_load tree saved persistent
  end.

(** ** The devices a server exports *)

(** make_imported_device of utils.cpp *)
Definition make_imported_device (host service : list byte) (d : usb_device) : imported_device :=
  {| location := {| Client.hostname := host; Client.service := service; Client.busid := u_busid d |}; port := 0;
     devid := make_devid (u_busnum d) (u_devnum d); speed := u_speed d; vendor := u_idVendor d; product := u_idProduct d; serial := [] |}.

(** pending_dev *)
Record pending_dev : Type := { pd_dc : list (list Z); pd_cls : Z; pd_sub : Z; pd_proto : Z; ifaces : list (Z * Z * Z) }.

(** The callbacks of enum_exportable_devices. *)
Definition on_dev (host service : list byte) (persistent : list persistent_device) (saved : list (list (list Z)))
    (tree : list server) (pend : list pending_dev) (d : usb_device) : option (list server * list pending_dev) :=
  '(dc, flags) ← make_device_columns {| ds_device := make_imported_device host service d; ds_state := unplugged; ds_source := 0 |};
  '(dc, flags) ← update_from_saved dc flags persistent (Some saved) true;
  '(item, added, tree) ← find_or_add_device tree (get_url dc) (get dc COL_BUSID);
  let flags := if added : bool then flags else Z.ldiff flags (mkflag COL_STATE) in
  tree ← update_device tree item dc flags;
  Some (tree, pend ++ [{| pd_dc := dc; pd_cls := u_class d; pd_sub := u_subclass d; pd_proto := u_protocol d; ifaces := [] |}]).

Definition on_intf (pend : list pending_dev) (dev_idx : Z) (i : usb_interface) : list pending_dev :=
  if 0 <=? dev_idx then
    alter (fun p => {| pd_dc := pd_dc p; pd_cls := pd_cls p; pd_sub := pd_sub p; pd_proto := pd_proto p;
                       ifaces := ifaces p ++ [(b2z (bInterfaceClass i), b2z (bInterfaceSubClass i), b2z (bInterfaceProtocol i))] |}) (Z.to_nat dev_idx) pend
  else pend.

Fixpoint run_callbacks (host service : list byte) (persistent : list persistent_device) (saved : list (list (list Z)))
    (cbs : list callback) (tree : list server) (pend : list pending_dev) : option (list server * list pending_dev) :=
  match cbs with
  | [] => Some (tree, pend)
  | OnDevCnt _ :: cbs => run_callbacks host service persistent saved cbs tree pend
  | OnDev _ d :: cbs =>
      '(tree, pend) ← on_dev host service persistent saved tree pend d;
      run_callbacks host service persistent saved cbs tree pend
  | OnIntf dev_idx _ _ i :: cbs => run_callbacks host service persistent saved cbs tree (on_intf pend dev_idx i)
  end.

(** [allowed]: the loop over the entries of the policy. *)
Definition skips (e : device_filter_entry) (c s pr : Z) : bool :=
  (negb (Z.land (b2z (match_flags e)) 1 =? 0) && negb (b2z (bClass e) =? c)) ||
  (negb (Z.land (b2z (match_flags e)) 2 =? 0) && negb (b2z (bSubClass e) =? s)) ||
  (negb (Z.land (b2z (match_flags e)) 4 =? 0) && negb (b2z (bProtocol e) =? pr)).

Definition allowed (p : device_filter_policy) (c s pr : Z) : bool := existsb (fun e => negb (skips e c s pr)) (Client.entries p).

Definition format_02X (v : Z) : list Z := map (fun c => if 97 <=? c then c - 32 else c) (pad 2 (to_text 16 v)).

(** The reason a device would be blocked for, empty when there is none. *)
Definition blocked_reason (p : device_filter_policy) (d : pending_dev) : list Z :=
  if negb (pd_cls d =? 0) && negb (pd_cls d =? 0xEF) && negb (allowed p (pd_cls d) (pd_sub d) (pd_proto d)) then
    wide "Blocked: device class "%string ++ format_02X (pd_cls d)
  else
    match head (filter (fun i => allowed p i.1.1 i.1.2 i.2 = false) (ifaces d)) with
    | Some i => wide "Blocked: interface class "%string ++ format_02X i.1.1
    | None => []
    end.

Fixpoint flag_blocked (p : device_filter_policy) (pend : list pending_dev) (tree : list server) : option (list server) :=
  match pend with
  | [] => Some tree
  | d :: pend =>
      let reason := blocked_reason p d in
      if bool_decide (reason = []) then flag_blocked p pend tree
      else
        let dc := set (pd_dc d) COL_NOTES reason in
        '(item, _, tree) ← find_or_add_device tree (get_url dc) (get dc COL_BUSID);
        tree ← update_device tree item dc (mkflag COL_NOTES);
        flag_blocked p pend tree
  end.

(** add_exported_devices once it is connected: [cbs] are the calls enum_exportable_devices makes, [ok] is its
    result, [policy] what get_device_filter returned. *)
Definition add_exported_devices (tree : list server) (host service : list byte) (persistent : list persistent_device) (saved : list (list (list Z)))
    (policy : option device_filter_policy) (cbs : list callback) (ok : bool) : option (list server) :=
  '(tree, pend) ← run_callbacks host service persistent saved cbs tree [];
  if negb ok then Some tree
  else
    match policy with
    | Some p => match Client.mode p with whitelist => flag_blocked p pend tree | disabled => Some tree end
    | None => Some tree
    end.

(** ** Commands on devices *)

(** SetItemText *)
Definition set_item_text (tree : list server) (dev : nat * nat) (col : nat) (v : list Z) : list server :=
  match row_at tree dev with Some r => set_row tree dev (set r col v) | None => tree end.

Definition is_persistent (r : list (list Z)) : bool := negb (bool_decide (get r COL_PERSISTENT = [])).

Definition set_persistent_mark (tree : list server) (dev : nat * nat) (persistent : bool) : list server :=
  set_item_text tree dev COL_PERSISTENT (if persistent then g_persistent_mark else []).

(** get_devices, get_selected_devices: the items, in the order of the tree, except for empty ones. *)
Fixpoint items_from (i : nat) (tree : list server) : list (nat * nat) :=
  match tree with [] => [] | s :: tree => map (pair i) (seq 0 (length (rows s))) ++ items_from (S i) tree end.

Definition all_items (tree : list server) : list (nat * nat) := items_from 0 tree.

Definition get_devices (tree : list server) : list (nat * nat) :=
  filter (fun dev => match row_at tree dev with Some r => is_empty r | None => true end = false) (all_items tree).

(** on_toggle_auto *)
Definition on_toggle_auto (tree : list server) (selected : list (nat * nat)) : list server :=
  fold_left (fun tree dev => match row_at tree dev with Some r => set_persistent_mark tree dev (negb (is_persistent r)) | None => tree end) selected tree.

(** edit_column_dlg of the texts entered until one is valid, for the only selected device. *)
Fixpoint edit_column_dlg (tree : list server) (dev : nat * nat) (col : nat) (validator : list Z -> bool) (entered : list (list Z)) : list server :=
  match entered with
  | [] => tree
  | v :: entered => if validator v then set_item_text tree dev col v else edit_column_dlg tree dev col validator entered
  end.

Definition on_edit_notes (tree : list server) (dev : nat * nat) (entered : list (list Z)) : list server :=
  edit_column_dlg tree dev COL_NOTES (fun _ => true) entered.

Definition on_edit_serial (tree : list server) (dev : nat * nat) (entered : list (list Z)) : list server :=
  edit_column_dlg tree dev COL_SERIAL (fun s => validate_device_serial (to_utf8 s)) entered.

Definition on_edit_gen_serial (tree : list server) (dev : nat * nat) (dist : nat -> nat) : option (list server) :=
  s ← generate_device_serial dist; Some (set_item_text tree dev COL_SERIAL (from_ascii s)).

(** What attach and detach ask the library for. *)
Definition attach_args_of (url busid serial : list Z) (once : bool) : option attach_args :=
  '(hostname, service) ← split_server_url url;
  Some {| aa_location := {| Client.hostname := to_utf8 hostname; Client.service := to_utf8 service; Client.busid := to_utf8 busid |};
          aa_serial := to_utf8 serial; aa_once := once |}.
End gui.

(** ** The configuration

    wxConfig: groups of keys with their texts; a text that is read has its environment variables expanded. *)
Class Config (C : Type) : Type := {
  delete_devices : C -> C;
  write : C -> list Z -> list Z -> list Z -> C;      (* group, key, value *)
  groups : C -> list (list Z);
  read : C -> list Z -> list Z -> list Z }.

Definition g_key_url : list Z := wide "url"%string.

Section config.
Context {C : Type} `{Config C}.
Context (to_utf8 : list Z -> list byte).

(** get_saved *)
Definition get_saved_device (cfg : C) (name : list Z) : option (list (list Z)) :=
  let u := read cfg name g_key_url in
  if bool_decide (u = []) then None
  else
    let dc := fold_left (fun dc k => set dc (snd k) (read cfg name (fst k))) get_saved_keys (set no_columns DEV_COL_URL u) in
    if bool_decide (get dc COL_BUSID = []) then None else Some dc.

Definition get_saved (cfg : C) : list (list (list Z)) := omap (get_saved_device cfg) (groups cfg).

(** save: the group of a device is its number. *)
Definition save_device (cfg : C) (name : list Z) (u : list Z) (r : list (list Z)) : C :=
  fold_left (fun cfg k => write cfg name (fst k) (get r (snd k))) get_saved_keys (write cfg name g_key_url u).

Fixpoint save_loop (cfg : C) (cnt : Z) (devices : list (list Z * list (list Z))) : C :=
  match devices with
  | [] => cfg
  | (u, r) :: devices => save_loop (save_device cfg (format_d (cnt + 1)) u r) (cnt + 1) devices
  end.

(** The configuration and the devices set_persistent gets. *)
Definition save (cfg : C) (devices : list (list Z * list (list Z))) : C * list persistent_device :=
  (save_loop (delete_devices cfg) 0 devices,
   map (fun '(u, r) => make_persistent_device to_utf8 u (get r COL_BUSID) (get r COL_SERIAL)) (filter (fun d => is_persistent d.2 = true) devices)).

Definition item_device (tree : list server) (dev : nat * nat) : option (list Z * list (list Z)) :=
  s ← tree !! dev.1; r ← rows s !! dev.2; Some (url s, r).

Definition on_save (cfg : C) (tree : list server) : C * list persistent_device := save cfg (omap (item_device tree) (get_devices tree)).
End config.

(** ** The dialog of the device types (filter_dialog.cpp) *)

(** The boxes the dialog opens with: whether filtering is enabled, and each category. *)
Definition dialog_boxes (p : device_filter_policy) : bool * list bool :=
  (match Client.mode p with disabled => false | whitelist => true end, map (category_enabled p) device_type_categories).

(** FilterDialog::policy *)
Definition dialog_policy (enabled : bool) (checked : list bool) : device_filter_policy :=
  if negb enabled then {| Client.mode := disabled; Client.entries := [] |}
  else {| Client.mode := whitelist;
          Client.entries := fold_left (fun es c => if snd c : bool then add_entries es (cat_entries (fst c)) else es) (zip device_type_categories checked) [] |}.

(** ** Lemmas: columns *)

Lemma length_set dc col v : length (set dc col v) = length dc.
Proof. apply length_insert. Qed.

Lemma get_set_eq dc col v : (col < length dc)%nat -> get (set dc col v) col = v.
Proof. intros H. unfold get, set. apply nth_lookup_Some. by apply list_lookup_insert_eq. Qed.

Lemma get_set_ne dc col col' v : col <> col' -> get (set dc col v) col' = get dc col'.
Proof. intros H. unfold get, set. rewrite !nth_lookup. by rewrite list_lookup_insert_ne. Qed.

Lemma has_flag_bit flags col : has_flag flags col = Z.testbit flags (Z.of_nat col).
Proof. unfold has_flag, mkflag. rewrite Z.shiftl_1_l, land_bit_set by lia. apply negb_involutive. Qed.

Lemma has_flag_lor f g col : has_flag (Z.lor f g) col = has_flag f col || has_flag g col.
Proof. rewrite !has_flag_bit. apply Z.lor_spec. Qed.

Lemma has_flag_mkflag a b : has_flag (mkflag a) b = bool_decide (a = b).
Proof.
  rewrite has_flag_bit. unfold mkflag. rewrite Z.shiftl_1_l, Z.pow2_bits_eqb by lia.
  case_bool_decide as H; [subst; apply Z.eqb_refl|apply Z.eqb_neq; lia].
Qed.

Lemma has_flag_zero_lor f col : Z.lor f (mkflag col) <> 0.
Proof.
  intros H. assert (has_flag (Z.lor f (mkflag col)) col = false) as Hf by (rewrite H, has_flag_bit; apply Z.bits_0).
  rewrite has_flag_lor, has_flag_mkflag, bool_decide_eq_true_2, orb_true_r in Hf by done. done.
Qed.

(** The columns update_device copies are those of the flags. *)
Lemma update_columns_spec n i r dc flags : (i + n <= length r)%nat ->
  length (update_columns n i r dc flags) = length r /\
  forall j, get (update_columns n i r dc flags) j = if bool_decide (i <= j < i + n)%nat && has_flag flags j then get dc j else get r j.
Proof.
  revert i r. induction n as [|n IH]; intros i r Hl; cbn [update_columns].
  - split; [done|]. intros j. rewrite bool_decide_eq_false_2 by lia. done.
  - set (r' := if _ && _ then _ else r). assert (length r' = length r) as Hr' by (unfold r'; case_match; [apply length_set|done]).
    destruct (IH (S i) r') as [H1 H2]; [lia|]. split; [lia|]. intros j. rewrite H2.
    assert (get r' j = if bool_decide (i = j) && has_flag flags j then get dc j else get r j) as ->.
    { unfold r'. destruct (decide (i = j)) as [->|Hne].
      - rewrite (bool_decide_eq_true_2 (j = j)) by done. cbn [andb]. destruct (has_flag flags j); cbn [andb]; [|done].
        case_bool_decide as He; cbn [negb]; [done|]. apply get_set_eq. lia.
      - rewrite (bool_decide_eq_false_2 (i = j)) by done. cbn [andb]. case_match; [by apply get_set_ne|done]. }
    destruct (has_flag flags j); rewrite ?andb_false_r, ?andb_true_r; [|done].
    repeat case_bool_decide; (done || lia).
Qed.

(** ** Lemmas: the tree as a list of rows *)

Abbreviation row := (list (list Z)).

Definition flat (tree : list server) : list (list Z * row) := tree ≫= (fun s => map (fun r => (url s, r)) (rows s)).
Definition key (e : list Z * row) : list Z * list Z := (e.1, get e.2 COL_BUSID).

Fixpoint find_row (l : list (list Z * row)) (k : list Z * list Z) : option row :=
  match l with [] => None | e :: l => if bool_decide (key e = k) then Some e.2 else find_row l k end.

(** The row of a device. *)
Definition row_of (tree : list server) (k : list Z * list Z) : option row := find_row (flat tree) k.

(** Servers have different addresses and at least one device, devices of a server different
    bus ids. *)
Record tree_ok (tree : list server) : Prop := {
  t_urls : NoDup (map url tree);
  t_keys : NoDup (map key (flat tree));
  t_rows : Forall (fun s => rows s <> []) tree;
  t_length : Forall (fun e => length e.2 = DEV_COL_URL) (flat tree) }.

Lemma tree_ok_nil : tree_ok [].
Proof. split; constructor. Qed.

Lemma find_row_absent l k : k ∉ map key l -> find_row l k = None.
Proof.
  induction l as [|e l IH]; [done|]. cbn. intros Hk. rewrite bool_decide_eq_false_2 by set_solver. apply IH. set_solver.
Qed.

Lemma find_row_mid A e B k : key e ∉ map key (A ++ B) -> find_row (A ++ e :: B) k = if decide (k = key e) then Some e.2 else find_row (A ++ B) k.
Proof.
  induction A as [|a A IH]; cbn; intros Hk.
  - case_bool_decide as H; [by rewrite decide_True|]. by rewrite decide_False.
  - case_bool_decide as H; [rewrite decide_False; [done|]; intros ->; apply Hk; rewrite <- H; left|]. apply IH. intros Hin. apply Hk. by right.
Qed.

Lemma flat_app t1 t2 : flat (t1 ++ t2) = flat t1 ++ flat t2.
Proof. apply bind_app. Qed.

Lemma flat_cons s t : flat (s :: t) = map (fun r => (url s, r)) (rows s) ++ flat t.
Proof. done. Qed.

(** An item splits the list of rows; writing and deleting it change it there. *)
Lemma item_split tree i j s r : tree !! i = Some s -> rows s !! j = Some r ->
  exists A B, flat tree = A ++ (url s, r) :: B /\
    (forall r', flat (set_row tree (i, j) r') = A ++ (url s, r') :: B) /\
    exists tree', remove_device tree (i, j) = Some tree' /\ flat tree' = A ++ B.
Proof.
  intros Hs Hr. apply take_drop_middle in Hr as Hrr. apply take_drop_middle in Hs as Hts.
  set (t1 := take i tree) in *. set (t2 := drop (S i) tree) in *. set (r1 := take j (rows s)) in *. set (r2 := drop (S j) (rows s)) in *.
  assert (length t1 = i) as Hi by (unfold t1; rewrite length_take; apply lookup_lt_Some in Hs; lia).
  assert (length r1 = j) as Hj by (unfold r1; rewrite length_take; apply lookup_lt_Some in Hr; lia).
  exists (flat t1 ++ map (fun r => (url s, r)) r1), (map (fun r => (url s, r)) r2 ++ flat t2).
  assert (forall x, <[j := x]> (rows s) = r1 ++ x :: r2) as Hins by (intros x; rewrite <- Hrr, <- Hj, insert_app_r_alt, Nat.sub_diag by lia; done).
  assert (delete j (rows s) = r1 ++ r2) as Hdel by (rewrite <- Hrr, <- Hj, delete_middle; done).
  assert (forall x, <[i := x]> tree = t1 ++ x :: t2) as Hins2 by (intros x; rewrite <- Hts, <- Hi, insert_app_r_alt, Nat.sub_diag by lia; done).
  assert (delete i tree = t1 ++ t2) as Hdel2 by (rewrite <- Hts, <- Hi, delete_middle; done).
  split; [|split].
  - rewrite <- Hts at 1. rewrite flat_app, flat_cons, <- Hrr, map_app. cbn [map]. by rewrite <- !app_assoc.
  - intros r'. unfold set_row. cbn [fst snd]. rewrite Hs, Hins2, flat_app, flat_cons. cbn [url rows with_rows].
    rewrite Hins, map_app. cbn [map]. by rewrite <- !app_assoc.
  - unfold remove_device. cbn [fst snd]. rewrite Hs. cbn [mbind option_bind]. eexists. split; [done|]. rewrite Hdel.
    case_bool_decide as He.
    + apply app_eq_nil in He as [E1 E2]. rewrite Hdel2, flat_app, E1, E2. cbn. by rewrite app_nil_r.
    + rewrite Hins2, flat_app, flat_cons. cbn [url rows with_rows]. rewrite map_app. by rewrite <- !app_assoc.
Qed.

Lemma map_url_insert tree i s r : tree !! i = Some s -> map url (<[i := with_rows s r]> tree) = map url tree.
Proof.
  intros Hs. change (map url) with (fmap (M := list) url). rewrite list_fmap_insert. apply list_insert_id. by rewrite list_lookup_fmap, Hs.
Qed.

Lemma Forall_insert_2 {A} (P : A -> Prop) l i x : Forall P l -> P x -> Forall P (<[i := x]> l).
Proof. intros Hl Hx. by apply Forall_insert. Qed.

Lemma NoDup_delete {A} (l : list A) i : NoDup l -> NoDup (delete i l).
Proof. intros Hl. eapply sublist_NoDup; [exact Hl|]. apply sublist_delete. Qed.

Lemma set_row_spec tree i j s r r' : tree_ok tree -> tree !! i = Some s -> rows s !! j = Some r ->
  get r' COL_BUSID = get r COL_BUSID -> length r' = DEV_COL_URL ->
  tree_ok (set_row tree (i, j) r') /\
  forall k, row_of (set_row tree (i, j) r') k = if decide (k = (url s, get r COL_BUSID)) then Some r' else row_of tree k.
Proof.
  intros Ht Hs Hr Hb Hl. destruct (item_split tree i j s r Hs Hr) as (A & B & Hf & Hset & _).
  destruct Ht as [H1 H2 H3 H4]. rewrite Hf in H2, H4.
  assert (NoDup (key (url s, r) :: map key (A ++ B))) as Hk.
  { rewrite map_app in H2. cbn [map] in H2. rewrite map_app. by rewrite Permutation_middle. }
  apply list.NoDup_cons in Hk as [Hk _].
  split.
  - split; rewrite ?Hset; try done.
    + unfold set_row. cbn [fst snd]. rewrite Hs. by rewrite map_url_insert.
    + rewrite map_app in *. cbn [map] in *. unfold key at 2. cbn [fst snd]. rewrite Hb. exact H2.
    + unfold set_row. cbn [fst snd]. rewrite Hs. apply Forall_insert_2; [done|]. cbn. intros He.
      apply (f_equal length) in He. rewrite length_insert in He. apply lookup_lt_Some in Hr. cbn in He. lia.
    + apply list.Forall_app in H4 as [H4 H5]. apply Forall_cons_1 in H5 as [_ H5]. apply list.Forall_app. split; [done|]. by constructor.
  - intros k. unfold row_of. rewrite Hset, Hf, !find_row_mid; [|done|unfold key at 1; cbn [fst snd]; by rewrite Hb].
    unfold key. cbn [fst snd]. rewrite Hb. by case_decide.
Qed.

Lemma remove_row_spec tree i j s r : tree_ok tree -> tree !! i = Some s -> rows s !! j = Some r ->
  exists tree', remove_device tree (i, j) = Some tree' /\ tree_ok tree' /\
    forall k, row_of tree' k = if decide (k = (url s, get r COL_BUSID)) then None else row_of tree k.
Proof.
  intros Ht Hs Hr. destruct (item_split tree i j s r Hs Hr) as (A & B & Hf & _ & tree' & Hrem & Hf').
  exists tree'. split; [done|]. destruct Ht as [H1 H2 H3 H4]. rewrite Hf in H2, H4.
  assert (NoDup (key (url s, r) :: map key (A ++ B))) as Hk.
  { rewrite map_app in H2. cbn [map] in H2. rewrite map_app. by rewrite Permutation_middle. }
  apply list.NoDup_cons in Hk as [Hk Hk2].
  unfold remove_device in Hrem. cbn [fst snd] in Hrem. rewrite Hs in Hrem. cbn in Hrem. injection Hrem as Hrem.
  split.
  - split; rewrite ?Hf'; try done.
    + rewrite <- Hrem. case_bool_decide; [|by rewrite map_url_insert].
      change (map url) with (fmap (M := list) url). rewrite list_fmap_delete. by apply NoDup_delete.
    + rewrite <- Hrem. case_bool_decide; [by apply Forall_delete|]. by apply Forall_insert_2.
    + apply list.Forall_app in H4 as [H4 H5]. apply Forall_cons_1 in H5 as [_ H5]. by apply list.Forall_app.
  - intros k. unfold row_of. rewrite Hf', Hf, find_row_mid by done. unfold key at 1. cbn [fst snd].
    case_decide as Hd; [|by rewrite decide_False]. apply find_row_absent. subst k. exact Hk.
Qed.

Lemma find_index_Some {A} (p : A -> bool) l i : find_index p l = Some i -> exists x, l !! i = Some x /\ p x = true.
Proof.
  revert i. induction l as [|x l IH]; intros i; cbn; [done|]. destruct (p x) eqn:Hp; [intros [= <-]; by exists x|].
  destruct (find_index p l) as [n|]; [|done]. cbn. intros [= <-]. apply IH. done.
Qed.

Lemma find_index_None {A} (p : A -> bool) l x : find_index p l = None -> x ∈ l -> p x = false.
Proof.
  induction l as [|y l IH]; cbn; [intros _ H; by apply elem_of_nil in H|]. destruct (p y) eqn:Hp; [done|].
  destruct (find_index p l); [done|]. intros _ Hx. apply elem_of_cons in Hx as [->|Hx]; [done|by apply IH].
Qed.

Lemma elem_of_flat tree u r : (u, r) ∈ flat tree <-> exists s, s ∈ tree /\ url s = u /\ r ∈ rows s.
Proof.
  unfold flat. rewrite list_elem_of_bind. split.
  - intros (s & Hs & Hin). apply list_elem_of_fmap in Hs as (r' & [= -> ->] & Hr). by exists s.
  - intros (s & Hin & <- & Hr). exists s. split; [|done]. by apply (list_elem_of_fmap_2 (fun r => (url s, r))).
Qed.

Lemma length_new_row b : length (new_row b) = DEV_COL_URL.
Proof. unfold new_row. by rewrite length_set, length_replicate. Qed.

Lemma get_new_row b col : get (new_row b) col = if bool_decide (col = COL_BUSID) then b else [].
Proof.
  unfold new_row. case_bool_decide as H; [subst; apply get_set_eq; rewrite length_replicate; unfold COL_BUSID, DEV_COL_URL; lia|].
  rewrite get_set_ne by done. unfold get. destruct (decide (col < DEV_COL_URL)%nat); [by rewrite nth_lookup, lookup_replicate_2|].
  apply nth_overflow. rewrite length_replicate. lia.
Qed.

(** Adding a row somewhere in the list of rows. *)
Lemma add_row_spec tree tree' u b A B : tree_ok tree -> flat tree = A ++ B -> flat tree' = A ++ (u, new_row b) :: B ->
  (forall r, (u, r) ∈ flat tree -> get r COL_BUSID <> b) -> NoDup (map url tree') -> Forall (fun s => rows s <> []) tree' ->
  tree_ok tree' /\ row_of tree (u, b) = None /\ forall k, row_of tree' k = if decide (k = (u, b)) then Some (new_row b) else row_of tree k.
Proof.
  intros Ht HA HB Hno Hu Hr. assert ((u, b) ∉ map key (A ++ B)) as Hk.
  { rewrite <- HA. intros Hin. apply list_elem_of_fmap in Hin as ([u' r] & [= -> ->] & Hin). by apply (Hno r). }
  assert (key (u, new_row b) = (u, b)) as Hkey by (unfold key; cbn [fst snd]; by rewrite get_new_row).
  destruct Ht as [H1 H2 H3 H4]. rewrite HA in H2, H4. split; [|split].
  - split; [done| |done|].
    + rewrite HB, map_app. cbn [map]. rewrite Hkey, <- Permutation_middle, <- map_app. by apply list.NoDup_cons.
    + rewrite HB. apply list.Forall_app in H4 as [H4 H5]. apply list.Forall_app. split; [done|]. constructor; [apply length_new_row|done].
  - unfold row_of. rewrite HA. by apply find_row_absent.
  - intros k. unfold row_of. rewrite HB, find_row_mid by (by rewrite Hkey). by rewrite Hkey, HA.
Qed.

(** find_or_add_device: the row of the device, new if there was none. *)
Lemma find_or_add_device_spec tree u b : tree_ok tree -> exists i j added tree' s r,
  find_or_add_device tree u b = Some ((i, j), added, tree') /\ tree_ok tree' /\
  tree' !! i = Some s /\ url s = u /\ rows s !! j = Some r /\ get r COL_BUSID = b /\
  added = bool_decide (row_of tree (u, b) = None) /\ r = default (new_row b) (row_of tree (u, b)) /\
  forall k, row_of tree' k = if decide (k = (u, b)) then Some r else row_of tree k.
Proof.
  intros Ht. unfold find_or_add_device, find_or_add_server.
  destruct (find_index (fun s => bool_decide (url s = u)) tree) as [i|] eqn:Hi.
  - apply find_index_Some in Hi as (s & Hs & Hu). apply bool_decide_eq_true in Hu. rewrite Hs. cbn [mbind option_bind].
    destruct (find_index (fun r => bool_decide (get r COL_BUSID = b)) (rows s)) as [j|] eqn:Hj.
    + apply find_index_Some in Hj as (r & Hr & Hb). apply bool_decide_eq_true in Hb.
      destruct (item_split tree i j s r Hs Hr) as (A & B & Hf & _).
      assert (row_of tree (u, b) = Some r) as Hrow.
      { unfold row_of. rewrite Hf, find_row_mid; [unfold key; cbn [fst snd]; by rewrite Hu, Hb, decide_True|].
        pose proof (t_keys _ Ht) as Hk. rewrite Hf, map_app in Hk. cbn [map] in Hk. rewrite <- Permutation_middle, <- map_app in Hk. by apply list.NoDup_cons in Hk as [? _]. }
      exists i, j, false, tree, s, r. rewrite Hrow. do 6 (split; [done|]). split; [by rewrite bool_decide_eq_false_2|]. split; [done|].
      intros k. case_decide; [by subst k|done].
    + apply take_drop_middle in Hs as Hts. set (t1 := take i tree) in *. set (t2 := drop (S i) tree) in *.
      assert (length t1 = i) as Hli by (unfold t1; rewrite length_take; apply lookup_lt_Some in Hs; lia).
      set (s' := with_rows s (rows s ++ [new_row b])). assert (<[i := s']> tree = t1 ++ s' :: t2) as Hins by (rewrite <- Hts, <- Hli, insert_app_r_alt, Nat.sub_diag by lia; done).
      destruct (add_row_spec tree (<[i := s']> tree) u b (flat t1 ++ map (fun r => (u, r)) (rows s)) (flat t2)) as (H1 & H2 & H3); [done|..].
      * rewrite <- Hts, flat_app, flat_cons, Hu. by rewrite <- app_assoc.
      * rewrite Hins, flat_app, flat_cons. unfold s'. cbn [url rows with_rows]. rewrite map_app, Hu, <- !app_assoc. done.
      * intros r Hin Hb. apply elem_of_flat in Hin as (s2 & Hs2 & Hu2 & Hr).
        assert (s2 = s) as ->.
        { apply list_elem_of_lookup in Hs2 as [i2 Hs2]. assert (i2 = i) as ->; [|congruence].
          apply (NoDup_lookup (map url tree) i2 i u (t_urls _ Ht)); change (map url) with (fmap (M := list) url); rewrite list_lookup_fmap; [by rewrite Hs2; cbn; rewrite Hu2|by rewrite Hs; cbn; rewrite Hu]. }
        pose proof (find_index_None _ _ r Hj Hr) as Hf. cbv beta in Hf. by rewrite bool_decide_eq_true_2 in Hf.
      * unfold s'. rewrite map_url_insert by done. apply Ht.
      * apply Forall_insert_2; [apply Ht|]. cbn. by destruct (rows s).
      * exists i, (length (rows s)), true, (<[i := s']> tree), s', (new_row b). rewrite H2. split; [done|]. split; [done|].
        split; [apply list_lookup_insert_eq; by apply lookup_lt_Some in Hs|]. split; [done|].
        split; [unfold s'; cbn; by rewrite lookup_app_r, Nat.sub_diag by lia|]. split; [by rewrite get_new_row|]. split; [done|]. by split.
  - set (s' := {| url := u; rows := [new_row b] |}).
    assert (<[length tree := s']> (tree ++ [{| url := u; rows := [] |}]) = tree ++ [s']) as Hins by (rewrite insert_app_r_alt, Nat.sub_diag by lia; done).
    rewrite lookup_app_r, Nat.sub_diag by lia. cbn -[new_row]. change (with_rows _ _) with s'. rewrite Hins.
    assert (forall r, (u, r) ∈ flat tree -> False) as Hno.
    { intros r Hin. apply elem_of_flat in Hin as (s & Hs & Hu & _). pose proof (find_index_None _ _ s Hi Hs) as Hf. cbv beta in Hf. by rewrite bool_decide_eq_true_2 in Hf. }
    destruct (add_row_spec tree (tree ++ [s']) u b (flat tree) []) as (H1 & H2 & H3); [done|..].
    + by rewrite app_nil_r.
    + by rewrite flat_app.
    + intros r Hin. by destruct (Hno r).
    + rewrite map_app. apply list.NoDup_app. split; [apply Ht|]. split; [|apply list.NoDup_singleton].
      intros x Hx Hin. apply list_elem_of_singleton in Hin. cbn in Hin. apply list_elem_of_fmap in Hx as (s & -> & Hs).
      pose proof (find_index_None _ _ s Hi Hs) as Hf. cbv beta in Hf. by rewrite bool_decide_eq_true_2 in Hf.
    + apply list.Forall_app. split; [apply Ht|]. by repeat constructor.
    + exists (length tree), 0%nat, true, (tree ++ [s']), s', (new_row b). rewrite H2. split; [done|]. split; [done|].
      split; [by rewrite lookup_app_r, Nat.sub_diag by lia|]. do 2 (split; [done|]). split; [by rewrite get_new_row|]. split; [done|]. by split.
Qed.

(** ** What events do to a row

    The row of a device as events of the device change it, without a tree; [None] inside is no row. *)

Definition update_row (r dc : row) (flags : Z) : row := update_columns (UPD_COL_LAST - UPD_COL_FIRST + 1) UPD_COL_FIRST r dc flags.

(** An event with what get_persistent and get_saved return when it is handled. *)
Record event : Type := { e_state : device_state; e_persistent : list persistent_device; e_saved : list row }.

Section row.
Context (from_utf8 from_ascii : list byte -> list Z) (to_utf8 : list Z -> list byte) (ids : UsbIds.ids).

(** The row of a location: the server and the bus id. *)
Definition loc_key (loc : device_location) : list Z * list Z := (make_server_url from_utf8 loc, from_utf8 (busid loc)).
Definition event_key (e : event) : list Z * list Z := loc_key (location (ds_device (e_state e))).

Definition row_step (old : option row) (e : event) : option (option row) :=
  let st := e_state e in
  let r := default (new_row (event_key e).2) old in
  if (ds_state st =? disconnected) && is_empty r then Some None
  else if skipped r st then Some (Some r)
  else
    '(dc, flags) ← event_columns from_utf8 from_ascii to_utf8 ids st (bool_decide (old = None)) (e_persistent e) (e_saved e);
    Some (Some (update_row r dc flags)).

Fixpoint row_after (old : option row) (es : list event) : option (option row) :=
  match es with [] => Some old | e :: es => r ← row_step old e; row_after r es end.

Definition step_event (tree : list server) (e : event) : option (list server) :=
  on_device_state from_utf8 from_ascii to_utf8 ids tree (e_state e) (e_persistent e) (e_saved e).

Fixpoint run_events (tree : list server) (es : list event) : option (list server) :=
  match es with [] => Some tree | e :: es => tree ← step_event tree e; run_events tree es end.
End row.

(** ** Specification: what an event says of a row

    Column by column, for the row of the device: [added] when the device was not in the tree before. *)

Section says.
Context (from_utf8 from_ascii : list byte -> list Z) (to_utf8 : list Z -> list byte) (ids : UsbIds.ids).

(** The saved columns of the device, when the event consults them: for a device that is new, or that the event does not describe. *)
Definition saved_for (added : bool) (e : event) : option row :=
  if added || bool_decide (devid (ds_device (e_state e)) = 0) then
    head (filter (fun s => get_url s = (event_key from_utf8 e).1 /\ get s COL_BUSID = (event_key from_utf8 e).2) (e_saved e))
  else None.

(** The name of a vendor or of a product, its number, or nothing. *)
Definition named (id : Z) (name : list byte) : list Z :=
  if bool_decide (id = 0) then [] else if bool_decide (name = []) then format_08x id else from_ascii name.

(** The text an event gives a column; [None] leaves the column as it is. *)
Definition event_says (added : bool) (e : event) (col : nat) : option (list Z) :=
  let st := ds_state (e_state e) in
  let d := ds_device (e_state e) in
  let described (v : list Z) :=
    match saved_for added e with
    | Some s => Some (get s col)
    | None => if bool_decide (devid d = 0) then None else Some v
    end in
  let kept := get <$> saved_for added e in
  let names := UsbIds.find_product ids (vendor d) (product d) in
  if bool_decide (col = COL_STATE) then Some (to_string st)
  else if bool_decide (col = COL_SOURCE_ID) then
    Some (if bool_decide (st = disconnected \/ st = unplugged) then [] else to_wxstring (ds_source (e_state e)))
  else if bool_decide (col = COL_PORT) then
    if bool_decide (port d = 0) then None
    else Some (if bool_decide (st = unplugged \/ st = connecting \/ st = connected) then [] else format_03d (port d))
  else if bool_decide (col = COL_DEVID) then described (format_08x (devid d))
  else if bool_decide (col = COL_SPEED) then described (get_speed_str (speed d))
  else if bool_decide (col = COL_VENDOR) then described (named (vendor d) names.1)
  else if bool_decide (col = COL_PRODUCT) then described (named (product d) names.2)
  else if bool_decide (col = COL_SERIAL) then
    match kept with
    | Some kept => Some (kept col)
    | None => if bool_decide (devid d = 0 \/ serial d = []) then None else Some (from_utf8 (serial d))
    end
  else if bool_decide (col = COL_NOTES) then kept ≫= (fun kept => Some (kept col))
  else if bool_decide (col = COL_PERSISTENT) then
    if (added || bool_decide (devid d = 0)) &&
       bool_decide (pd_location (make_persistent_device to_utf8 (event_key from_utf8 e).1 (event_key from_utf8 e).2 []) ∈ map pd_location (e_persistent e))
    then Some g_persistent_mark else None
  else None.

(** What becomes of the row [old] of a device by an event of the device; the row of a new device has its bus id only. *)
Inductive event_effect (old : option row) (e : event) : option row -> Prop :=
| effect_removed :                          (* an attempt that failed, for a device the tree knows nothing of *)
    ds_state (e_state e) = disconnected -> get (default (new_row (event_key from_utf8 e).2) old) COL_DEVID = [] -> event_effect old e None
| effect_ignored r :                        (* another source than that of the row, unless the device was plugged in *)
    old = Some r -> get r COL_SOURCE_ID <> [] -> get r COL_SOURCE_ID <> to_wxstring (ds_source (e_state e)) ->
    ds_state (e_state e) <> plugged -> (ds_state (e_state e) = disconnected -> get r COL_DEVID <> []) -> event_effect old e (Some r)
| effect_shown r' :
    length r' = DEV_COL_URL ->
    (forall col, get r' col = default (get (default (new_row (event_key from_utf8 e).2) old) col) (event_says (bool_decide (old = None)) e col)) ->
    (ds_state (e_state e) = disconnected -> get (default (new_row (event_key from_utf8 e).2) old) COL_DEVID <> []) ->
    (forall r, old = Some r -> get r COL_SOURCE_ID <> [] -> ds_state (e_state e) <> plugged -> get r COL_SOURCE_ID = to_wxstring (ds_source (e_state e))) ->
    event_effect old e (Some r').

(** The same for a sequence of events of the device. *)
Inductive follows (old : option row) : list event -> option row -> Prop :=
| follows_nil : follows old [] old
| follows_snoc es e r r' : follows old es r -> event_effect r e r' -> follows old (es ++ [e]) r'.
End says.

(** ** Lemmas: what is written to a row *)

(** Columns for the device [k], whose flags leave notes and mark alone. *)
Record columns_for (k : list Z * list Z) (dc : row) (flags : Z) : Prop := {
  f_length : length dc = DEV_COL_CNT;
  f_url : get_url dc = k.1;
  f_busid : get dc COL_BUSID = k.2;
  f_notes : has_flag flags COL_NOTES = false;
  f_persistent : has_flag flags COL_PERSISTENT = false }.

(** An event says nothing of a device that is not known yet. *)
Definition device_ok (d : imported_device) : Prop :=
  is_empty_device d = true -> speed d = UsbLowSpeed /\ vendor d = 0 /\ product d = 0 /\ port d = 0.

Lemma columns_set k dc flags col v f : columns_for k dc flags -> col <> COL_BUSID -> col <> DEV_COL_URL ->
  f <> COL_NOTES -> f <> COL_PERSISTENT -> columns_for k (set dc col v) (Z.lor flags (mkflag f)).
Proof.
  intros [H1 H2 H3 H4 H5] Hb Hu Hn Hp. split.
  - by rewrite length_set.
  - unfold get_url. by rewrite get_set_ne.
  - by rewrite get_set_ne.
  - by rewrite has_flag_lor, has_flag_mkflag, H4, bool_decide_eq_false_2.
  - by rewrite has_flag_lor, has_flag_mkflag, H5, bool_decide_eq_false_2.
Qed.

Lemma columns_text k dc flags col v : columns_for k dc flags -> col <> COL_BUSID -> col <> DEV_COL_URL -> columns_for k (set dc col v) flags.
Proof. intros [H1 H2 H3 H4 H5] Hb Hu. split; try done; [by rewrite length_set|unfold get_url; by rewrite get_set_ne|by rewrite get_set_ne]. Qed.

Section lemmas.
Context (from_utf8 from_ascii : list byte -> list Z) (to_utf8 : list Z -> list byte) (ids : UsbIds.ids).

Abbreviation loc_key := (loc_key from_utf8).

Lemma cmp_key_columns loc flags : has_flag flags COL_NOTES = false -> has_flag flags COL_PERSISTENT = false ->
  columns_for (loc_key loc) (make_cmp_key from_utf8 loc) flags.
Proof.
  intros Hn Hp. unfold make_cmp_key. by split.
Qed.

Lemma set_id_columns k dc flags col id str : columns_for k dc flags -> col <> COL_BUSID -> col <> DEV_COL_URL ->
  columns_for k (set_id from_ascii dc col id str) flags.
Proof. intros Hc Hb Hu. unfold set_id. case_match; [done|]. by apply columns_text. Qed.

Lemma imported_columns_spec d : device_ok d ->
  exists dc flags, imported_columns from_utf8 from_ascii ids d = Some (dc, flags) /\ columns_for (loc_key (location d)) dc flags.
Proof.
  intros Hd. unfold imported_columns. destruct (is_empty_device d) eqn:He.
  - destruct (Hd He) as (-> & -> & -> & ->). cbn. eexists _, _. split; [done|]. by apply cmp_key_columns.
  - set (dc0 := set_vendor_product _ _ _ _ _). set (f0 := Z.lor 0 _).
    assert (columns_for (loc_key (location d)) dc0 f0) as H0.
    { unfold dc0, set_vendor_product. destruct (UsbIds.find_product ids (vendor d) (product d)) as [v p].
      repeat (apply set_id_columns; [|done|done]). do 2 (apply columns_text; [|done|done]). by apply cmp_key_columns. }
    destruct (port d =? 0), (bool_decide (serial d = [])); (eexists _, _; split; [done|]); repeat (apply columns_set; [|done..]); done.
Qed.

Lemma make_device_columns_spec st : device_ok (ds_device st) ->
  exists dc flags, make_device_columns from_utf8 from_ascii ids st = Some (dc, flags) /\ columns_for (loc_key (location (ds_device st))) dc flags /\ flags <> 0.
Proof.
  intros Hd. unfold make_device_columns. destruct (imported_columns_spec _ Hd) as (dc & flags & -> & Hc). cbn [mbind option_bind].
  eexists _, _. split; [done|]. split; [|apply has_flag_zero_lor]. do 2 (apply columns_set; [|done..]). done.
Qed.

Lemma find_saved_key saved dc i : find_saved saved dc = Some i -> get_url i = get_url dc /\ get i COL_BUSID = get dc COL_BUSID.
Proof.
  unfold find_saved. intros Hi. assert (i ∈ filter (fun s => same_key s dc = true) saved) as Hin.
  { destruct (filter _ saved); [done|]. injection Hi as ->. left. }
  apply list_elem_of_filter in Hin as [Hk _]. unfold same_key in Hk. apply andb_true_iff in Hk as [H1 H2].
  by apply bool_decide_eq_true in H1, H2.
Qed.

Lemma length_set_saved_columns dc saved : length (set_saved_columns dc saved) = length dc.
Proof. unfold set_saved_columns. revert dc. induction get_saved_keys as [|k ks IH]; intros dc; [done|]. cbn. by rewrite IH, length_set. Qed.

Lemma get_set_saved_columns dc saved col : length dc = DEV_COL_CNT ->
  get (set_saved_columns dc saved) col = if has_flag get_saved_flags col then get saved col else get dc col.
Proof.
  intros Hl. unfold set_saved_columns. cbn [fold_left get_saved_keys snd].
  do 13 (destruct dc as [|? dc]; try done). destruct (decide (col < DEV_COL_CNT)%nat) as [Hc|Hc].
  - unfold DEV_COL_CNT in Hc. do 12 (destruct col as [|col]; [done|]). lia.
  - replace (has_flag get_saved_flags col) with false; [|symmetry; rewrite has_flag_bit; apply Z.bits_above_log2; [done|unfold DEV_COL_CNT in Hc; change (Z.log2 get_saved_flags) with 9; lia]].
    unfold get. rewrite !nth_overflow; [done|rewrite ?length_set; unfold DEV_COL_CNT in *; cbn; lia..].
Qed.

Lemma update_from_saved_spec k dc flags persistent saved notes_only : columns_for k dc flags ->
  exists dc' flags', update_from_saved to_utf8 dc flags persistent saved notes_only = Some (dc', flags') /\
    length dc' = DEV_COL_CNT /\ get_url dc' = k.1 /\ get dc' COL_BUSID = k.2.
Proof.
  intros [H1 H2 H3 H4 H5]. unfold update_from_saved.
  assert (exists dc1 flags1, (match saved ≫= (fun saved => find_saved saved dc) with
    | None => Some (dc, flags)
    | Some i => if notes_only then _ ← wx_assert (negb (has_flag flags COL_NOTES)); Some (set dc COL_NOTES (get i COL_NOTES), Z.lor flags (mkflag COL_NOTES))
        else Some (set_saved_columns dc i, Z.lor flags get_saved_flags) end = Some (dc1, flags1)) /\
    length dc1 = DEV_COL_CNT /\ get_url dc1 = k.1 /\ get dc1 COL_BUSID = k.2 /\ has_flag flags1 COL_PERSISTENT = false) as (dc1 & flags1 & -> & L1 & U1 & B1 & P1).
  { destruct (saved ≫= _) as [i|] eqn:Hs; [|by exists dc, flags]. destruct notes_only.
    - rewrite H4. cbn. eexists _, _. split; [done|]. split; [by rewrite length_set|]. unfold get_url. rewrite !get_set_ne by done.
      split; [done|]. split; [done|]. by rewrite has_flag_lor, H5.
    - eexists _, _. split; [done|]. split; [by rewrite length_set_saved_columns|].
      unfold get_url. rewrite !get_set_saved_columns by done. split; [done|]. split; [|by rewrite has_flag_lor, H5].
      destruct saved as [saved|]; [|done]. apply find_saved_key in Hs as [_ Hb]. change (has_flag get_saved_flags COL_BUSID) with true. cbv iota. by rewrite Hb. }
  cbn [mbind option_bind]. case_match; [|by exists dc1, flags1]. rewrite P1. cbn. eexists _, _. split; [done|].
  split; [by rewrite length_set|]. unfold get_url. by rewrite !get_set_ne.
Qed.

Lemma event_columns_spec st added persistent saved : device_ok (ds_device st) ->
  exists dc flags, event_columns from_utf8 from_ascii to_utf8 ids st added persistent saved = Some (dc, flags) /\
    length dc = DEV_COL_CNT /\ get_url dc = (loc_key (location (ds_device st))).1 /\ get dc COL_BUSID = (loc_key (location (ds_device st))).2.
Proof.
  intros Hd. unfold event_columns. set (st' := if _ || _ then _ else st).
  assert (ds_device st' = ds_device st) as Hdev by (unfold st'; by case_match).
  destruct (make_device_columns_spec st') as (dc & flags & -> & Hc & Hf); [by rewrite Hdev|]. cbn [mbind option_bind].
  rewrite (proj2 (Z.eqb_neq flags 0)) by done. cbn [negb wx_assert mbind option_bind]. rewrite Hdev in Hc |- *.
  set (p := if _ && _ then _ else (dc, flags)). assert (exists dc1 flags1, p = (dc1, flags1) /\ columns_for (loc_key (location (ds_device st))) dc1 flags1) as (dc1 & flags1 & -> & Hc1).
  { unfold p. case_match; [|by eexists _, _]. eexists _, _. split; [done|]. by apply columns_set. }
  destruct (added || _); [by apply (update_from_saved_spec (loc_key (location (ds_device st))))|]. exists dc1, flags1. split; [done|].
  destruct Hc1. by rewrite f_length0.
Qed.

(** *** The texts an event writes *)

Definition texts (dc : row) (flags : Z) (j : nat) : option (list Z) := if has_flag flags j then Some (get dc j) else None.

Lemma texts_set dc flags c v j : length dc = DEV_COL_CNT -> (c < DEV_COL_CNT)%nat ->
  texts (set dc c v) (Z.lor flags (mkflag c)) j = if bool_decide (j = c) then Some v else texts dc flags j.
Proof.
  intros Hl Hc. unfold texts. rewrite has_flag_lor, has_flag_mkflag. destruct (decide (j = c)) as [->|Hne].
  - rewrite !bool_decide_eq_true_2 by done. rewrite orb_true_r, get_set_eq by lia. done.
  - rewrite (bool_decide_eq_false_2 (j = c)), (bool_decide_eq_false_2 (c = j)) by congruence. by rewrite orb_false_r, get_set_ne by congruence.
Qed.

Lemma imported_texts d : device_ok d -> exists dc flags, imported_columns from_utf8 from_ascii ids d = Some (dc, flags) /\
  columns_for (loc_key (location d)) dc flags /\ get dc COL_PORT = (if bool_decide (port d = 0) then [] else format_03d (port d)) /\
  forall j, (1 <= j <= 10)%nat -> texts dc flags j = if bool_decide (devid d = 0) then None else
    let names := UsbIds.find_product ids (vendor d) (product d) in
    if bool_decide (j = COL_PORT) then if bool_decide (port d = 0) then None else Some (format_03d (port d))
    else if bool_decide (j = COL_DEVID) then Some (format_08x (devid d))
    else if bool_decide (j = COL_SPEED) then Some (get_speed_str (speed d))
    else if bool_decide (j = COL_VENDOR) then Some (named from_ascii (vendor d) names.1)
    else if bool_decide (j = COL_PRODUCT) then Some (named from_ascii (product d) names.2)
    else if bool_decide (j = COL_SERIAL) then if bool_decide (serial d = []) then None else Some (from_utf8 (serial d))
    else None.
Proof.
  intros Hd. destruct (imported_columns_spec d Hd) as (dc & flags & Hx & Hc). exists dc, flags. split; [done|]. split; [done|]. clear Hc. revert Hx.
  unfold imported_columns, is_empty_device. destruct (Z.eqb_spec (devid d) 0) as [He|He].
  - destruct (Hd (proj2 (Z.eqb_eq _ _) He)) as (-> & -> & -> & ->). cbn [wx_assert mbind option_bind Z.eqb]. intros [= <- <-].
    rewrite !bool_decide_eq_true_2 by done. split; [done|]. intros j Hj. unfold texts. by rewrite has_flag_bit, Z.bits_0.
  - rewrite (bool_decide_eq_false_2 (devid d = 0)) by done. unfold set_vendor_product, set_id, named.
    destruct (UsbIds.find_product ids (vendor d) (product d)) as [v p].
    destruct (Z.eqb_spec (vendor d) 0) as [Hv|Hv]; [rewrite (bool_decide_eq_true_2 (vendor d = 0)) by done|rewrite (bool_decide_eq_false_2 (vendor d = 0)) by done];
    (destruct (Z.eqb_spec (product d) 0) as [Hp|Hp]; [rewrite (bool_decide_eq_true_2 (product d = 0)) by done|rewrite (bool_decide_eq_false_2 (product d = 0)) by done]);
    (destruct (Z.eqb_spec (port d) 0) as [Hpo|Hpo]; [rewrite (bool_decide_eq_true_2 (port d = 0)) by done|rewrite (bool_decide_eq_false_2 (port d = 0)) by done]);
    destruct (bool_decide (serial d = [])); intros [= <- <-]; (split; [done|]); intros j Hj;
    (do 11 (destruct j as [|j]; [try lia; reflexivity|])); lia.
Qed.

Lemma contains_persistent_in l pd : contains_persistent l pd = bool_decide (pd_location pd ∈ map pd_location l).
Proof.
  unfold contains_persistent. induction l as [|x l IH]; cbn [existsb map].
  - symmetry. apply bool_decide_eq_false_2, not_elem_of_nil.
  - rewrite IH. destruct (decide (pd_location x = pd_location pd)) as [He|He].
    + rewrite (bool_decide_eq_true_2 (_ = _)) by done. symmetry. apply bool_decide_eq_true_2. rewrite He. by left.
    + rewrite (bool_decide_eq_false_2 (pd_location x = pd_location pd)) by done. cbn [orb]. apply bool_decide_ext.
      rewrite elem_of_cons. split; [by right|]. intros [?|?]; [congruence|done].
Qed.

Lemma find_saved_for dc e : get_url dc = (event_key from_utf8 e).1 -> get dc COL_BUSID = (event_key from_utf8 e).2 ->
  find_saved (e_saved e) dc =
  head (filter (fun s => get_url s = (event_key from_utf8 e).1 /\ get s COL_BUSID = (event_key from_utf8 e).2) (e_saved e)).
Proof.
  intros Hu Hb. unfold find_saved. f_equal. apply list_filter_iff. intros s. unfold same_key.
  rewrite andb_true_iff, !bool_decide_eq_true, Hu, Hb. done.
Qed.

(** update_from_saved, when it takes all columns. *)
Lemma saved_texts dc flags e : columns_for (event_key from_utf8 e) dc flags -> exists dc' flags',
  update_from_saved to_utf8 dc flags (e_persistent e) (Some (e_saved e)) false = Some (dc', flags') /\
  forall j, texts dc' flags' j =
    if bool_decide (j = COL_PERSISTENT) && bool_decide (pd_location (make_persistent_device to_utf8 (event_key from_utf8 e).1 (event_key from_utf8 e).2 []) ∈ map pd_location (e_persistent e))
    then Some g_persistent_mark
    else match saved_for from_utf8 true e with
         | Some s => if has_flag get_saved_flags j then Some (get s j) else texts dc flags j
         | None => texts dc flags j
         end.
Proof.
  intros Hc. pose proof Hc as [H1 H2 H3 H4 H5]. unfold update_from_saved, saved_for. cbn [orb mbind option_bind]. rewrite (find_saved_for dc e H2 H3).
  set (o := head _). assert (forall s, o = Some s -> get s COL_BUSID = (event_key from_utf8 e).2) as Ho.
  { intros s Hs. unfold o in Hs. rewrite <- (find_saved_for dc e H2 H3) in Hs. apply find_saved_key in Hs as [_ ->]. done. }
  set (p := match o with Some _ => _ | None => Some (dc, flags) end).
  assert (exists dc1 flags1, p = Some (dc1, flags1) /\ columns_for (event_key from_utf8 e) dc1 (Z.land flags1 0) /\ has_flag flags1 COL_PERSISTENT = false /\
    forall j, texts dc1 flags1 j = match o with Some s => if has_flag get_saved_flags j then Some (get s j) else texts dc flags j | None => texts dc flags j end)
    as (dc1 & flags1 & -> & [L1 U1 B1 _ _] & P1 & Ht1).
  { unfold p. destruct o as [s|].
    - eexists _, _. split; [done|]. split; [split|split].
      + by rewrite length_set_saved_columns.
      + unfold get_url. by rewrite get_set_saved_columns.
      + rewrite get_set_saved_columns by done. change (has_flag get_saved_flags COL_BUSID) with true. by apply Ho.
      + by rewrite Z.land_0_r, has_flag_bit, Z.bits_0.
      + by rewrite Z.land_0_r, has_flag_bit, Z.bits_0.
      + by rewrite has_flag_lor, H5.
      + intros j. unfold texts. rewrite has_flag_lor, get_set_saved_columns by done. destruct (has_flag get_saved_flags j); [by rewrite orb_true_r|by rewrite orb_false_r].
    - exists dc, flags. split; [done|]. split; [|done]. split; [done..| |]; by rewrite Z.land_0_r, has_flag_bit, Z.bits_0. }
  cbn [mbind option_bind]. rewrite contains_persistent_in.
  replace (pd_location (persistent_of to_utf8 dc1)) with (pd_location (make_persistent_device to_utf8 (event_key from_utf8 e).1 (event_key from_utf8 e).2 []))
    by (unfold persistent_of; rewrite U1, B1; unfold make_persistent_device; by destruct (default ([], []) _)).
  case_bool_decide.
  - rewrite P1. cbn [negb wx_assert mbind option_bind]. eexists _, _. split; [done|]. intros j.
    rewrite texts_set by (done || (unfold COL_PERSISTENT, DEV_COL_CNT; lia)). rewrite andb_true_r. case_bool_decide; [done|]. apply Ht1.
  - exists dc1, flags1. split; [done|]. intros j. rewrite andb_false_r. apply Ht1.
Qed.

(** What on_device_state writes is what the event says. *)
Lemma event_columns_says e added : device_ok (ds_device (e_state e)) ->
  exists dc flags, event_columns from_utf8 from_ascii to_utf8 ids (e_state e) added (e_persistent e) (e_saved e) = Some (dc, flags) /\
    forall j, (1 <= j <= 10)%nat -> texts dc flags j = event_says from_utf8 from_ascii to_utf8 ids added e j.
Proof.
  intros Hd. unfold event_columns. set (last := (ds_state (e_state e) =? disconnected) || _).
  set (st' := if last then _ else _). assert (ds_device st' = ds_device (e_state e)) as Hdev by (unfold st'; by destruct last).
  assert (ds_state st' = ds_state (e_state e)) as Hst by (unfold st'; by destruct last).
  assert (to_wxstring (ds_source st') = if bool_decide (ds_state (e_state e) = disconnected \/ ds_state (e_state e) = unplugged) then []
          else to_wxstring (ds_source (e_state e))) as Hsrc.
  { unfold st', last. case_bool_decide as Hl; [|rewrite !(proj2 (Z.eqb_neq _ _)) by tauto; done].
    destruct Hl as [->| ->]; done. }
  destruct (make_device_columns_spec st') as (dc & flags & Hmk & Hc & Hf); [by rewrite Hdev|].
  destruct (imported_texts (ds_device (e_state e)) Hd) as (dc0 & flags0 & Him & Hc0 & Hpo & Ht0).
  assert (length dc0 = DEV_COL_CNT) as Hl0 by apply Hc0.
  pose proof Hmk as Hmk'. unfold make_device_columns in Hmk'. rewrite Hdev, Him, Hst, Hsrc in Hmk'. cbn [mbind option_bind] in Hmk'.
  rewrite Hmk. cbn [mbind option_bind]. rewrite (proj2 (Z.eqb_neq flags 0)) by done. cbn [negb wx_assert mbind option_bind]. rewrite Hdev in Hc.
  injection Hmk' as Hdc Hfl.
  assert (get dc COL_PORT = if bool_decide (port (ds_device (e_state e)) = 0) then [] else format_03d (port (ds_device (e_state e)))) as Hport
    by (rewrite <- Hdc, !get_set_ne by done; exact Hpo).
  assert (forall j, texts dc flags j = if bool_decide (j = COL_SOURCE_ID) then
      Some (if bool_decide (ds_state (e_state e) = disconnected \/ ds_state (e_state e) = unplugged) then [] else to_wxstring (ds_source (e_state e)))
    else if bool_decide (j = COL_STATE) then Some (to_string (ds_state (e_state e))) else texts dc0 flags0 j) as Ht.
  { intros j. rewrite <- Hdc, <- Hfl. rewrite texts_set by (rewrite ?length_set; done || (unfold COL_SOURCE_ID, DEV_COL_CNT; lia)).
    destruct (bool_decide (j = COL_SOURCE_ID)); [done|]. by rewrite texts_set by (done || (unfold COL_STATE, DEV_COL_CNT; lia)). }
  clear Hdc Hfl Hmk.
  set (res := bool_decide (ds_state (e_state e) = unplugged \/ ds_state (e_state e) = connecting \/ ds_state (e_state e) = connected)).
  assert (is_port_residual (ds_state st') = res) as ->.
  { rewrite Hst. unfold is_port_residual, res. apply eq_true_iff_eq. rewrite !orb_true_iff, !Z.eqb_eq, bool_decide_eq_true. tauto. }
  change (columns_for (event_key from_utf8 e) dc flags) in Hc.
  set (p := if negb _ && res then _ else (dc, flags)).
  assert (exists dc2 flags2, p = (dc2, flags2) /\ columns_for (event_key from_utf8 e) dc2 flags2 /\ forall j, texts dc2 flags2 j =
    if bool_decide (j = COL_PORT) && (negb (bool_decide (port (ds_device (e_state e)) = 0)) && res) then Some [] else texts dc flags j) as (dc2 & flags2 & -> & Hc2 & Ht2).
  { assert (negb (bool_decide (get dc COL_PORT = [])) = negb (bool_decide (port (ds_device (e_state e)) = 0))) as Hne.
    { rewrite Hport. f_equal. destruct (bool_decide (port (ds_device (e_state e)) = 0)); [done|].
      apply bool_decide_eq_false_2, format_03d_nonempty. }
    unfold p. rewrite Hne. destruct (negb (bool_decide (port (ds_device (e_state e)) = 0)) && res).
    - eexists _, _. split; [done|]. split; [by apply columns_set|]. intros j. rewrite texts_set by (apply Hc || (unfold COL_PORT, DEV_COL_CNT; lia)).
      by rewrite andb_true_r.
    - exists dc, flags. split; [done|]. split; [done|]. intros j. by rewrite andb_false_r. }
  cbv zeta. rewrite Hdev. unfold is_empty_device. assert (added || (devid (ds_device (e_state e)) =? 0) = added || bool_decide (devid (ds_device (e_state e)) = 0)) as ->.
  { f_equal. apply eq_true_iff_eq. by rewrite Z.eqb_eq, bool_decide_eq_true. }
  assert (bool_decide (devid (ds_device (e_state e)) = 0) = true -> bool_decide (port (ds_device (e_state e)) = 0) = true) as Hzero.
  { intros Hz%bool_decide_eq_true. apply bool_decide_eq_true. apply Hd. by apply Z.eqb_eq. }
  set (mark := bool_decide (pd_location (make_persistent_device to_utf8 (event_key from_utf8 e).1 (event_key from_utf8 e).2 []) ∈ map pd_location (e_persistent e))).
  assert (forall j, (1 <= j <= 10)%nat ->
    (if bool_decide (j = COL_PERSISTENT) && ((added || bool_decide (devid (ds_device (e_state e)) = 0)) && mark) then Some g_persistent_mark
     else match saved_for from_utf8 added e with
          | Some s => if has_flag get_saved_flags j then Some (get s j) else texts dc2 flags2 j
          | None => texts dc2 flags2 j
          end) = event_says from_utf8 from_ascii to_utf8 ids added e j) as Hsays.
  { intros j Hj. rewrite Ht2, Ht, Ht0 by done. unfold event_says. rewrite (bool_decide_or (devid (ds_device (e_state e)) = 0) (serial (ds_device (e_state e)) = [])). fold res mark. cbv zeta. clearbody res mark. clear - Hj Hzero.
    destruct (UsbIds.find_product ids _ _) as [vn pn]. cbn [fst snd].
    generalize (if bool_decide (ds_state (e_state e) = disconnected \/ ds_state (e_state e) = unplugged) then [] else to_wxstring (ds_source (e_state e))).
    intros src. generalize dependent (bool_decide (devid (ds_device (e_state e)) = 0)). intros b_dev Hzero.
    generalize dependent (bool_decide (port (ds_device (e_state e)) = 0)). intros b_port Hzero.
    generalize (bool_decide (serial (ds_device (e_state e)) = [])). intros b_ser.
    generalize (saved_for from_utf8 added e). intros [kept|]; cbn [fmap option_fmap option_map mbind option_bind];
      (do 11 (destruct j as [|j]; [try lia; destruct b_dev, b_port, b_ser, res, added, mark; try reflexivity; by (discriminate (Hzero eq_refl))|])); lia. }
  assert (saved_for from_utf8 added e = if added || bool_decide (devid (ds_device (e_state e)) = 0) then saved_for from_utf8 true e else None) as Hsv
    by (unfold saved_for; by destruct (added || _)).
  destruct (added || bool_decide (devid (ds_device (e_state e)) = 0)); rewrite Hsv in Hsays.
  - destruct (saved_texts dc2 flags2 e Hc2) as (dc3 & flags3 & -> & Ht3). exists dc3, flags3. split; [done|].
    intros j Hj. rewrite Ht3. by apply Hsays.
  - exists dc2, flags2. split; [done|]. intros j Hj. rewrite <- Hsays by done. by rewrite andb_false_r.
Qed.

Lemma update_columns_zero n i r dc : update_columns n i r dc 0 = r.
Proof. revert i r. induction n as [|n IH]; intros i r; [done|]. cbn [update_columns]. rewrite has_flag_bit, Z.bits_0. apply IH. Qed.

Lemma update_row_spec r dc flags : length r = DEV_COL_URL -> length (update_row r dc flags) = DEV_COL_URL /\
  get (update_row r dc flags) COL_BUSID = get r COL_BUSID /\
  forall j, (1 <= j <= 10)%nat -> get (update_row r dc flags) j = if has_flag flags j then get dc j else get r j.
Proof.
  intros Hl. destruct (update_columns_spec (UPD_COL_LAST - UPD_COL_FIRST + 1) UPD_COL_FIRST r dc flags) as [H1 H2]; [by rewrite Hl|].
  split; [by rewrite <- Hl|]. split; [unfold update_row; by rewrite H2|]. intros j Hj. unfold update_row. rewrite H2. rewrite bool_decide_eq_true_2; [done|]. unfold UPD_COL_FIRST, UPD_COL_LAST, COL_PORT, COL_SOURCE_ID. lia.
Qed.

Lemma row_length tree i j s r : tree_ok tree -> tree !! i = Some s -> rows s !! j = Some r -> length r = DEV_COL_URL.
Proof.
  intros Ht Hs Hr. assert ((url s, r) ∈ flat tree) as Hin.
  { apply elem_of_flat. exists s. split; [by apply list_elem_of_lookup; exists i|]. split; [done|]. by apply list_elem_of_lookup; exists j. }
  pose proof (t_length _ Ht) as H. by apply list.Forall_forall with (x := (url s, r)) in H.
Qed.

Lemma update_device_spec tree i j s r dc flags : tree_ok tree -> tree !! i = Some s -> rows s !! j = Some r ->
  get dc COL_BUSID = get r COL_BUSID -> get_url dc = url s ->
  exists tree', update_device tree (i, j) dc flags = Some tree' /\ tree_ok tree' /\
    forall k, row_of tree' k = if decide (k = (url s, get r COL_BUSID)) then Some (update_row r dc flags) else row_of tree k.
Proof.
  intros Ht Hs Hr Hb Hu. unfold update_device. cbn [fst snd]. rewrite Hs. cbn [mbind option_bind]. rewrite Hr. cbn [mbind option_bind].
  rewrite !bool_decide_eq_true_2 by congruence. cbn [wx_assert mbind option_bind]. fold (update_row r dc flags).
  pose proof (row_length tree i j s r Ht Hs Hr) as Hl. destruct (update_row_spec r dc flags Hl) as (H1 & H2 & _).
  destruct (set_row_spec tree i j s r (update_row r dc flags) Ht Hs Hr H2 H1) as [H3 H4].
  destruct (Z.eqb_spec flags 0) as [->|Hf]; [|by eexists]. exists tree. split; [done|]. split; [done|].
  intros k. rewrite <- (H4 k). unfold update_row, row_of. rewrite update_columns_zero. unfold set_row. cbn [fst snd]. rewrite Hs.
  rewrite (list_insert_id (rows s) j r Hr). rewrite (list_insert_id tree i (with_rows s (rows s))); [done|]. rewrite Hs. by destruct s.
Qed.

Lemma step_event_spec tree e : tree_ok tree -> device_ok (ds_device (e_state e)) ->
  exists tree' r', step_event from_utf8 from_ascii to_utf8 ids tree e = Some tree' /\ tree_ok tree' /\
    row_step from_utf8 from_ascii to_utf8 ids (row_of tree (event_key from_utf8 e)) e = Some r' /\
    forall k, row_of tree' k = if decide (k = event_key from_utf8 e) then r' else row_of tree k.
Proof.
  intros Ht Hd. unfold step_event, on_device_state, row_step.
  destruct (find_or_add_device_spec tree (event_key from_utf8 e).1 (event_key from_utf8 e).2 Ht) as (i & j & added & t1 & s & r & Hf & Ht1 & Hs & Hu & Hr & Hb & Ha & Hrd & Hrow).
  rewrite <- surjective_pairing in Ha, Hrd, Hrow. cbn [event_key loc_key fst snd] in Hf. rewrite Hf. cbn [mbind option_bind].
  unfold row_at. cbn [fst snd]. rewrite Hs. cbn [mbind option_bind]. rewrite Hr. cbn [mbind option_bind].
  rewrite <- Hrd.
  destruct ((ds_state (e_state e) =? disconnected) && is_empty r).
  { destruct (remove_row_spec t1 i j s r Ht1 Hs Hr) as (t2 & Ht2 & Hok & Hrow2). exists t2, None. split; [done|]. split; [done|]. split; [done|].
    intros k. rewrite Hrow2, Hrow. rewrite Hu, Hb, <- surjective_pairing. by case_decide. }
  destruct (skipped r (e_state e)).
  { exists t1, (Some r). split; [done|]. split; [done|]. split; [done|]. done. }
  rewrite <- Ha.
  destruct (event_columns_spec (e_state e) added (e_persistent e) (e_saved e) Hd) as (dc & flags & -> & Hl & Hurl & Hbus).
  cbn [mbind option_bind].
  destruct (update_device_spec t1 i j s r dc flags Ht1 Hs Hr) as (t2 & Hupd & Hok & Hrow2); [by rewrite Hbus, Hb|by rewrite Hurl, Hu|].
  exists t2, (Some (update_row r dc flags)). split; [done|]. split; [done|]. split; [done|].
  intros k. rewrite Hrow2, Hrow. rewrite Hu, Hb, <- surjective_pairing. by case_decide.
Qed.
End lemmas.

(** ** Lemmas: the texts of sources *)

Lemma to_wxstring_inj s t : 0 <= s < 2 ^ 32 -> 0 <= t < 2 ^ 32 -> to_wxstring s = to_wxstring t -> s = t.
Proof.
  intros Hs Ht. unfold to_wxstring, format_lx. destruct (Z.eqb_spec s 0) as [->|], (Z.eqb_spec t 0) as [->|]; try done.
  - intros H. symmetry in H. by apply to_text_nonempty in H.
  - intros H. by apply to_text_nonempty in H.
  - apply to_text_inj; lia.
Qed.

(** ** Events and rows *)

Lemma find_row_In l k r : find_row l k = Some r -> (k.1, r) ∈ l /\ get r COL_BUSID = k.2.
Proof.
  induction l as [|e l IH]; [done|]. cbn. case_bool_decide as H; [intros [= <-]; subst k; destruct e; split; [left|done]|].
  intros Hf. destruct (IH Hf). split; [by right|done].
Qed.

Lemma row_of_length tree k r : tree_ok tree -> row_of tree k = Some r -> length r = DEV_COL_URL.
Proof.
  intros Ht Hr. apply find_row_In in Hr as [Hr _]. pose proof (t_length _ Ht) as H. by apply list.Forall_forall with (x := (k.1, r)) in H.
Qed.

Section theorems.
Context (from_utf8 from_ascii : list byte -> list Z) (to_utf8 : list Z -> list byte) (ids : UsbIds.ids).

(** The row of a device changes as the specification says. *)
Lemma row_step_effect old e x : device_ok (ds_device (e_state e)) -> (forall r, old = Some r -> length r = DEV_COL_URL) ->
  row_step from_utf8 from_ascii to_utf8 ids old e = Some x -> event_effect from_utf8 from_ascii to_utf8 ids old e x.
Proof.
  intros Hd Ho. unfold row_step. set (r := default _ old).
  assert (length r = DEV_COL_URL) as Hl by (unfold r; destruct old as [r0|]; [by apply Ho|apply length_new_row]).
  destruct ((ds_state (e_state e) =? disconnected) && is_empty r) eqn:Hrem.
  { intros [= <-]. apply andb_true_iff in Hrem as [H1%Z.eqb_eq H2]. apply bool_decide_eq_true in H2. by apply effect_removed. }
  destruct (skipped r (e_state e)) eqn:Hsk.
  { intros [= <-]. unfold skipped in Hsk. apply andb_true_iff in Hsk as [H1 H2]. apply negb_true_iff in H1, H2.
    apply orb_false_iff in H1 as [H1 H3]. apply bool_decide_eq_false in H1, H2. apply Z.eqb_neq in H3.
    destruct old as [r0|]; [|exfalso; apply H1; unfold r; cbn [default]; by rewrite get_new_row].
    apply effect_ignored; auto. intros Hst He. apply (proj2 (Z.eqb_eq _ _)) in Hst. rewrite Hst in Hrem. unfold is_empty in Hrem.
    change (get r) with (get r0) in Hrem. by rewrite bool_decide_eq_true_2 in Hrem. }
  destruct (event_columns_says from_utf8 from_ascii to_utf8 ids e (bool_decide (old = None)) Hd) as (dc & flags & -> & Hsays).
  cbn [mbind option_bind]. intros [= <-]. destruct (update_row_spec r dc flags Hl) as (H1 & H2 & H3).
  apply effect_shown; fold r; [done| | |].
  - intros col. destruct (decide (1 <= col <= 10)%nat) as [Hc|Hc].
    + rewrite H3, <- Hsays by done. unfold texts. by destruct (has_flag flags col).
    + assert (event_says from_utf8 from_ascii to_utf8 ids (bool_decide (old = None)) e col = None) as ->.
      { unfold event_says. rewrite !(bool_decide_eq_false_2 (col = _))
          by (unfold COL_STATE, COL_SOURCE_ID, COL_PORT, COL_DEVID, COL_SPEED, COL_VENDOR, COL_PRODUCT, COL_SERIAL, COL_NOTES, COL_PERSISTENT; lia). done. }
      destruct (decide (col = 0%nat)) as [->|Hne]; [exact H2|].
      unfold get. rewrite !nth_overflow; [done|rewrite Hl; unfold DEV_COL_URL; lia|rewrite H1; unfold DEV_COL_URL; lia].
  - intros Hst He. apply (proj2 (Z.eqb_eq _ _)) in Hst. rewrite Hst in Hrem. unfold is_empty in Hrem. by rewrite bool_decide_eq_true_2 in Hrem.
  - intros r0 -> Hne Hst. unfold skipped in Hsk. change (get r0) with (get r) in *. rewrite (bool_decide_eq_false_2 _ Hne), (proj2 (Z.eqb_neq _ _) Hst) in Hsk.
    cbn [orb negb andb] in Hsk. apply negb_false_iff, bool_decide_eq_true in Hsk. done.
Qed.

Lemma run_events_spec es tree : tree_ok tree -> Forall (fun e => device_ok (ds_device (e_state e))) es ->
  exists tree', run_events from_utf8 from_ascii to_utf8 ids tree es = Some tree' /\ tree_ok tree' /\
    forall k, row_after from_utf8 from_ascii to_utf8 ids (row_of tree k) (filter (fun e => event_key from_utf8 e = k) es) = Some (row_of tree' k).
Proof.
  revert tree. induction es as [|e es IH]; intros tree Ht Hes; [by exists tree|]. apply Forall_cons_1 in Hes as [He Hes].
  destruct (step_event_spec from_utf8 from_ascii to_utf8 ids tree e Ht He) as (t1 & r1 & Hstep & Ht1 & Hr1 & Hrow).
  destruct (IH t1 Ht1 Hes) as (t2 & Hrun & Ht2 & Hafter). exists t2. cbn [run_events]. rewrite Hstep. split; [done|]. split; [done|].
  intros k. rewrite <- (Hafter k), Hrow. destruct (decide (event_key from_utf8 e = k)) as [Hk|Hk].
  - rewrite filter_cons_True by done. cbn [row_after]. subst k. rewrite decide_True by done. by rewrite Hr1.
  - rewrite filter_cons_False by done. by rewrite decide_False by congruence.
Qed.

(** What a row shows after the event that its device was plugged in. *)
Record shows_plugged (d : imported_device) (source : Z) (r : row) : Prop := {
  sp_length : length r = DEV_COL_URL;
  sp_port : get r COL_PORT = format_03d (port d);
  sp_devid : get r COL_DEVID = format_08x (devid d);
  sp_speed : get r COL_SPEED = get_speed_str (speed d);
  sp_state : get r COL_STATE = to_string plugged;
  sp_source : get r COL_SOURCE_ID = to_wxstring source }.

Lemma row_step_length old e r : device_ok (ds_device (e_state e)) -> (forall r0, old = Some r0 -> length r0 = DEV_COL_URL) ->
  row_step from_utf8 from_ascii to_utf8 ids old e = Some (Some r) -> length r = DEV_COL_URL.
Proof.
  intros Hd Ho. unfold row_step. set (r0 := default _ old).
  assert (length r0 = DEV_COL_URL) as Hl by (unfold r0; destruct old as [x|]; [by apply Ho|apply length_new_row]).
  destruct (_ && _); [done|]. destruct (skipped _ _); [by intros [= <-]|].
  destruct (event_columns_spec from_utf8 from_ascii to_utf8 ids (e_state e) (bool_decide (old = None)) (e_persistent e) (e_saved e) Hd) as (dc & flags & -> & _).
  cbn [mbind option_bind]. intros Hx. assert (r = update_row r0 dc flags) as -> by congruence. by apply update_row_spec.
Qed.

Lemma row_after_length es old r : Forall (fun e => device_ok (ds_device (e_state e))) es -> (forall r0, old = Some r0 -> length r0 = DEV_COL_URL) ->
  row_after from_utf8 from_ascii to_utf8 ids old es = Some (Some r) -> length r = DEV_COL_URL.
Proof.
  revert old. induction es as [|e es IH]; intros old Hes Ho; cbn [row_after]; [intros [= ->]; by apply Ho|].
  apply Forall_cons_1 in Hes as [He Hes]. destruct (row_step _ _ _ _ old e) as [r1|] eqn:Hs; [|done]. cbn [mbind option_bind].
  apply IH; [done|]. intros r0 ->. by apply (row_step_length old e).
Qed.

Lemma row_after_app es1 es2 old : row_after from_utf8 from_ascii to_utf8 ids old (es1 ++ es2) =
  row_after from_utf8 from_ascii to_utf8 ids old es1 ≫= (fun r => row_after from_utf8 from_ascii to_utf8 ids r es2).
Proof. revert old. induction es1 as [|e es1 IH]; intros old; [done|]. cbn. destruct (row_step _ _ _ _ old e); [apply IH|done]. Qed.

(** The columns of a device that is plugged in. *)
Lemma plugged_columns d source : is_empty_device d = false -> port d <> 0 -> exists dc flags,
  make_device_columns from_utf8 from_ascii ids {| ds_device := d; ds_state := plugged; ds_source := source |} = Some (dc, flags) /\
  get dc COL_PORT = format_03d (port d) /\ get dc COL_DEVID = format_08x (devid d) /\ get dc COL_SPEED = get_speed_str (speed d) /\
  get dc COL_STATE = to_string plugged /\ get dc COL_SOURCE_ID = to_wxstring source /\ flags <> 0 /\
  Forall (fun col => has_flag flags col = true) [COL_PORT; COL_DEVID; COL_SPEED; COL_STATE; COL_SOURCE_ID].
Proof.
  intros He Hp. unfold make_device_columns, imported_columns. cbn [ds_device ds_state ds_source]. rewrite He, (proj2 (Z.eqb_neq (port d) 0)) by done.
  unfold set_vendor_product. destruct (UsbIds.find_product ids (vendor d) (product d)) as [v p]. unfold set_id.
  destruct (vendor d =? 0), (product d =? 0), (bool_decide (serial d = [])); (eexists _, _; split; [reflexivity|]; do 6 (split; [done|]); by repeat constructor).
Qed.

Lemma plugged_step r0 e : let d := ds_device (e_state e) in
  length r0 = DEV_COL_URL -> ds_state (e_state e) = plugged -> is_empty_device d = false -> port d <> 0 ->
  exists r, row_step from_utf8 from_ascii to_utf8 ids (Some r0) e = Some (Some r) /\ shows_plugged d (ds_source (e_state e)) r.
Proof.
  intros d Hl Hst He Hp. unfold row_step, event_columns, skipped. rewrite Hst. change (default (new_row (event_key from_utf8 e).2) (Some r0)) with r0. rewrite (bool_decide_eq_false_2 (Some r0 = None)) by done.
  destruct (plugged_columns d (ds_source (e_state e)) He Hp) as (dc & flags & Hmk & H1 & H2 & H3 & H4 & H5 & Hf & Hall).
  change (plugged =? disconnected) with false. change (plugged =? plugged) with true. change (plugged =? unplugged) with false.
  rewrite orb_true_r. cbn [andb orb negb mbind option_bind].
  replace (make_device_columns from_utf8 from_ascii ids (e_state e)) with (Some (dc, flags)) by (rewrite <- Hmk; unfold d; rewrite <- Hst; by destruct (e_state e)).
  cbn [mbind option_bind]. rewrite (proj2 (Z.eqb_neq flags 0)) by done. cbn [negb wx_assert mbind option_bind].
  rewrite Hst. change (is_port_residual plugged) with false. rewrite andb_false_r. fold d. rewrite He. cbn [mbind option_bind].
  eexists. split; [done|]. destruct (update_row_spec r0 dc flags Hl) as (Hl2 & _ & Hg).
  repeat (apply Forall_cons_1 in Hall as [? Hall]).
  split; [done|..]; rewrite Hg by (unfold COL_PORT, COL_DEVID, COL_SPEED, COL_STATE, COL_SOURCE_ID; lia); by match goal with H : has_flag flags ?c = true |- context [has_flag flags ?c] => rewrite H end.
Qed.

(** A row that shows a source ignores the others. *)
Lemma other_source_step r d source e : shows_plugged d source r -> 0 < source < 2 ^ 32 ->
  ds_state (e_state e) <> plugged -> 0 <= ds_source (e_state e) < 2 ^ 32 -> ds_source (e_state e) <> source ->
  row_step from_utf8 from_ascii to_utf8 ids (Some r) e = Some (Some r).
Proof.
  intros [_ _ Hd _ _ Hs] Hsrc Hst Ht Hne. unfold row_step, is_empty. change (default (new_row (event_key from_utf8 e).2) (Some r)) with r.
  rewrite Hd, (bool_decide_eq_false_2 (format_08x (devid d) = [])) by apply format_08x_nonempty. rewrite andb_false_r.
  unfold skipped. rewrite Hs, (proj2 (Z.eqb_neq _ plugged)) by done.
  rewrite (bool_decide_eq_false_2 (to_wxstring source = [])); [|change [] with (to_wxstring 0); intros H; apply to_wxstring_inj in H; lia].
  rewrite bool_decide_eq_false_2; [done|]. intros H. by apply to_wxstring_inj in H; [|lia..].
Qed.

Definition other_sources (source : Z) (es : list event) : Prop :=
  Forall (fun e => ds_state (e_state e) <> plugged /\ 0 <= ds_source (e_state e) < 2 ^ 32 /\ ds_source (e_state e) <> source) es.

Lemma other_sources_after r d source es : shows_plugged d source r -> 0 < source < 2 ^ 32 -> other_sources source es ->
  row_after from_utf8 from_ascii to_utf8 ids (Some r) es = Some (Some r).
Proof.
  intros Hr Hs. induction es as [|e es IH]; [done|]. intros Hes. apply Forall_cons_1 in Hes as [(H1 & H2 & H3) Hes]. cbn [row_after].
  rewrite (other_source_step r d source e) by done. by apply IH.
Qed.

Lemma row_after_follows es old x : Forall (fun e => device_ok (ds_device (e_state e))) es -> (forall r, old = Some r -> length r = DEV_COL_URL) ->
  row_after from_utf8 from_ascii to_utf8 ids old es = Some x -> follows from_utf8 from_ascii to_utf8 ids old es x.
Proof.
  revert x. induction es as [|e es IH] using rev_ind; intros x Hes Ho; [intros [= <-]; constructor|].
  apply list.Forall_app in Hes as [Hes He]. apply Forall_cons_1 in He as [He _]. rewrite row_after_app.
  destruct (row_after _ _ _ _ old es) as [y|] eqn:Hy; [|done]. cbn [mbind option_bind row_after].
  destruct (row_step _ _ _ _ y e) as [z|] eqn:Hz; [|done]. cbn [mbind option_bind]. intros [= <-].
  eapply follows_snoc; [by apply IH|]. apply row_step_effect; [done| |done]. intros r ->. by apply (row_after_length es old).
Qed.

Lemma rows_eq (a b : row) : length a = length b -> (forall col, get a col = get b col) -> a = b.
Proof.
  intros Hl Hg. apply list_eq. intros i. destruct (decide (i < length a)%nat) as [Hi|Hi].
  - destruct (lookup_lt_is_Some_2 a i Hi) as [x Hx]. destruct (lookup_lt_is_Some_2 b i) as [y Hy]; [lia|].
    rewrite Hx, Hy. f_equal. specialize (Hg i). unfold get in Hg. apply (nth_lookup_Some _ _ []) in Hx. apply (nth_lookup_Some _ _ []) in Hy. congruence.
  - rewrite !lookup_ge_None_2 by lia. done.
Qed.

Lemma event_effect_det old e x y : event_effect from_utf8 from_ascii to_utf8 ids old e x -> event_effect from_utf8 from_ascii to_utf8 ids old e y -> x = y.
Proof.
  intros [H1 H2|r -> H1 H2 H3 H4|r H1 H2 H3 H4] [G1 G2|r' -> G1 G2 G3 G4|r' G1 G2 G3 G4]; try done.
  - exfalso. by apply (G4 H1).
  - exfalso. by apply (G3 H1).
  - exfalso. by apply (H4 G1).
  - destruct (H2 (G4 r eq_refl H1 H3)).
  - exfalso. by apply (H3 G1).
  - destruct (G2 (H4 r' eq_refl G1 G3)).
  - f_equal. apply rows_eq; [congruence|]. intros col. by rewrite H2, G2.
Qed.

Lemma follows_det old es x y : follows from_utf8 from_ascii to_utf8 ids old es x -> follows from_utf8 from_ascii to_utf8 ids old es y -> x = y.
Proof.
  intros Hx. revert y. induction Hx as [|es e r r' Hf IH He]; intros y Hy; inversion Hy as [Hn|es2 e2 r2 r2' Hf2 He2 Hn]; subst.
  - done.
  - by destruct es2.
  - by destruct es.
  - apply app_inj_tail in Hn as [-> ->]. apply IH in Hf2 as ->. by eapply event_effect_det.
Qed.

(** C34: for every sequence of device states handled by the window, with any saved and persistent devices: no assertion fails, the tree keeps one row per
    device under one item per server, and each row changes as [event_says] describes for the events of its own device, in their order,
    whatever happens to others in between: which texts an event writes, from the device, from the saved columns or to clear the port and
    the source, which events are passed over, and when the row is removed.  A row that was there when its device was plugged in, by whatever source, goes on showing that
    port, number, speed and state through all states that other sources report, until a device is plugged in again. *)
Theorem rows_follow_events tree es : tree_ok tree -> Forall (fun e => device_ok (ds_device (e_state e))) es ->
  exists tree', run_events from_utf8 from_ascii to_utf8 ids tree es = Some tree' /\ tree_ok tree' /\
    (forall k, follows from_utf8 from_ascii to_utf8 ids (row_of tree k) (filter (fun e => event_key from_utf8 e = k) es) (row_of tree' k)) /\
    (forall k es1 e es2 r0, filter (fun e => event_key from_utf8 e = k) es = es1 ++ e :: es2 ->
       follows from_utf8 from_ascii to_utf8 ids (row_of tree k) es1 (Some r0) ->
       ds_state (e_state e) = plugged -> is_empty_device (ds_device (e_state e)) = false -> port (ds_device (e_state e)) <> 0 ->
       0 < ds_source (e_state e) < 2 ^ 32 -> other_sources (ds_source (e_state e)) es2 ->
       exists r, row_of tree' k = Some r /\ shows_plugged (ds_device (e_state e)) (ds_source (e_state e)) r).
Proof.
  intros Ht Hes. destruct (run_events_spec es tree Ht Hes) as (tree' & Hrun & Ht' & Hafter). exists tree'. do 2 (split; [done|]).
  assert (forall k, Forall (fun e => device_ok (ds_device (e_state e))) (filter (fun e => event_key from_utf8 e = k) es)) as Hesk.
  { intros k. apply list.Forall_forall. intros x Hx. apply list_elem_of_filter in Hx as [_ Hx]. by apply list.Forall_forall with (x := x) in Hes. }
  assert (forall k r, row_of tree k = Some r -> length r = DEV_COL_URL) as Hlen by (intros k r; by apply row_of_length).
  split; [intros k; by apply row_after_follows; [|apply Hlen|]|].
  intros k es1 e es2 r0 Hf H1 Hst He Hp Hs Ho. specialize (Hafter k). specialize (Hesk k). rewrite Hf in Hesk. apply list.Forall_app in Hesk as [Hes1 _].
  rewrite Hf, row_after_app in Hafter. destruct (row_after _ _ _ _ (row_of tree k) es1) as [y|] eqn:Hy; [|done].
  pose proof Hy as Hy'. apply row_after_follows in Hy'; [|done|by apply Hlen]. pose proof (follows_det _ _ _ _ H1 Hy') as <-.
  cbn [mbind option_bind row_after] in Hafter.
  assert (length r0 = DEV_COL_URL) as Hl by (apply (row_after_length es1 (row_of tree k)); [done|apply Hlen|done]).
  destruct (plugged_step r0 e Hl Hst He Hp) as (r & Hr & Hshow). rewrite Hr in Hafter. cbn [mbind option_bind] in Hafter.
  rewrite (other_sources_after r (ds_device (e_state e)) (ds_source (e_state e))) in Hafter by done. injection Hafter as Hafter. by exists r.
Qed.
End theorems.

(** ** What the user does *)

Inductive gui_op : Type :=
| DeviceState (e : event)
| Reload (devices : option (list imported_device)) (persistent : list persistent_device) (saved : list row) (once : bool)
| Load (saved : list row) (persistent : list persistent_device)
| AddExported (host service : list byte) (persistent : list persistent_device) (saved : list row) (policy : option device_filter_policy)
    (cbs : list callback) (done : bool)
| ToggleAuto (selected : list (nat * nat))
| EditNotes (dev : nat * nat) (entered : list (list Z))
| EditSerial (dev : nat * nat) (entered : list (list Z))
| EditGenSerial (dev : nat * nat) (dist : nat -> nat).

Section operations.
Context (from_utf8 from_ascii : list byte -> list Z) (to_utf8 : list Z -> list byte) (ids : UsbIds.ids).

Definition gui_step (tree : list server) (o : gui_op) : option (list server) :=
  match o with
  | DeviceState e => step_event from_utf8 from_ascii to_utf8 ids tree e
  | Reload devices persistent saved once => on_reload from_utf8 from_ascii to_utf8 ids devices persistent saved once
  | Load saved persistent => on_load to_utf8 tree saved persistent
  | AddExported host service persistent saved policy cbs done =>
      add_exported_devices from_utf8 from_ascii to_utf8 ids tree host service persistent saved policy cbs done
  | ToggleAuto selected => Some (on_toggle_auto tree selected)
  | EditNotes dev entered => Some (on_edit_notes tree dev entered)
  | EditSerial dev entered => Some (on_edit_serial to_utf8 tree dev entered)
  | EditGenSerial dev dist => on_edit_gen_serial from_ascii tree dev dist
  end.

Fixpoint gui_run (tree : list server) (os : list gui_op) : option (list server) :=
  match os with [] => Some tree | o :: os => tree ← gui_step tree o; gui_run tree os end.

(** What the driver and the servers answer: a device without a number has nothing else, the driver has each
    location once, a saved device has all its columns. *)
Definition op_ok (o : gui_op) : Prop :=
  match o with
  | DeviceState e => device_ok (ds_device (e_state e))
  | Reload devices _ saved _ =>
      Forall (fun dc => length dc = DEV_COL_CNT) saved /\
      match devices with
      | Some devices => Forall device_ok devices /\ NoDup (map (fun d => loc_key from_utf8 (location d)) devices)
      | None => True
      end
  | Load saved _ => Forall (fun dc => length dc = DEV_COL_CNT) saved
  | AddExported host service _ _ _ cbs _ =>
      Forall (fun cb => match cb with OnDev _ d => device_ok (make_imported_device host service d) | _ => True end) cbs
  | EditGenSerial _ dist => forall i, (dist i < 62)%nat
  | _ => True
  end.

Lemma row_at_Some tree dev r : row_at tree dev = Some r -> exists s, tree !! dev.1 = Some s /\ rows s !! dev.2 = Some r.
Proof. unfold row_at. destruct (tree !! dev.1) as [s|]; [|done]. intros H. by exists s. Qed.

Lemma set_item_text_ok tree dev col v : tree_ok tree -> col <> COL_BUSID -> tree_ok (set_item_text tree dev col v).
Proof.
  intros Ht Hc. unfold set_item_text. destruct (row_at tree dev) as [r|] eqn:Hr; [|done]. apply row_at_Some in Hr as (s & Hs & Hr).
  destruct dev as [i j]. apply (set_row_spec tree i j s r); [done..|by rewrite get_set_ne|]. rewrite length_set. by apply (row_length tree i j s).
Qed.

Lemma on_toggle_auto_ok tree selected : tree_ok tree -> tree_ok (on_toggle_auto tree selected).
Proof.
  revert tree. induction selected as [|dev l IH]; intros tree Ht; [done|]. apply IH. case_match; [|done]. by apply set_item_text_ok.
Qed.

Lemma edit_column_dlg_ok tree dev col validator entered : tree_ok tree -> col <> COL_BUSID -> tree_ok (edit_column_dlg tree dev col validator entered).
Proof. intros Ht Hc. induction entered as [|v l IH]; [done|]. cbn. case_match; [by apply set_item_text_ok|done]. Qed.

(** Adding or finding the row of some columns and copying them to it. *)
Lemma find_update tree dc : tree_ok tree -> exists i j added tree1 r,
  find_or_add_device tree (get_url dc) (get dc COL_BUSID) = Some ((i, j), added, tree1) /\ tree_ok tree1 /\ row_at tree1 (i, j) = Some r /\
  added = bool_decide (row_of tree (get_url dc, get dc COL_BUSID) = None) /\ r = default (new_row (get dc COL_BUSID)) (row_of tree (get_url dc, get dc COL_BUSID)) /\
  (forall k, row_of tree1 k = if decide (k = (get_url dc, get dc COL_BUSID)) then Some r else row_of tree k) /\
  (forall dc' flags', get_url dc' = get_url dc -> get dc' COL_BUSID = get dc COL_BUSID -> exists tree', update_device tree1 (i, j) dc' flags' = Some tree' /\ tree_ok tree' /\
     forall k, row_of tree' k = if decide (k = (get_url dc, get dc COL_BUSID)) then Some (update_row r dc' flags') else row_of tree k).
Proof.
  intros Ht. destruct (find_or_add_device_spec tree (get_url dc) (get dc COL_BUSID) Ht) as (i & j & added & t1 & s & r & Hf & Ht1 & Hs & Hu & Hr & Hb & Ha & Hrd & Hrow).
  assert (forall dc' flags', get_url dc' = get_url dc -> get dc' COL_BUSID = get dc COL_BUSID -> exists tree', update_device t1 (i, j) dc' flags' = Some tree' /\ tree_ok tree' /\
     forall k, row_of tree' k = if decide (k = (get_url dc, get dc COL_BUSID)) then Some (update_row r dc' flags') else row_of tree k) as Hupd.
  { intros dc' flags' E1 E2. destruct (update_device_spec t1 i j s r dc' flags' Ht1 Hs Hr) as (t2 & H1 & H2 & H3); [congruence..|].
    exists t2. split; [done|]. split; [done|]. intros k. rewrite H3, Hrow, Hu, Hb. by case_decide. }
  exists i, j, added, t1, r. split; [done|]. split; [done|]. split; [unfold row_at; cbn; by rewrite Hs|]. done.
Qed.

(** What on_load makes of a row for the saved columns [dc]. *)
Definition loaded_row (r dc : row) (persistent : list persistent_device) : row :=
  let flags := Z.lor get_saved_flags (mkflag COL_STATE) in
  let dc := set dc COL_STATE (to_string unplugged) in
  if contains_persistent persistent (persistent_of to_utf8 dc) then
    update_row r (set dc COL_PERSISTENT g_persistent_mark) (Z.lor flags (mkflag COL_PERSISTENT))
  else update_row r dc flags.

Definition dc_key (dc : row) : list Z * list Z := (get_url dc, get dc COL_BUSID).

(** One round of the loop of on_load. *)
Lemma load_step tree dc saved persistent : tree_ok tree -> exists tree',
  load_loop to_utf8 tree (dc :: saved) persistent = load_loop to_utf8 tree' saved persistent /\ tree_ok tree' /\
  forall k, row_of tree' k =
    if decide (k = dc_key dc) then
      match row_of tree k with
      | Some r => if is_empty r then Some (loaded_row r dc persistent) else Some r
      | None => Some (loaded_row (new_row (get dc COL_BUSID)) dc persistent)
      end
    else row_of tree k.
Proof.
  intros Ht. destruct (find_update tree dc Ht) as (i & j & added & t1 & r & Hf & Ht1 & Hr & Ha & Hrd & Hrow & Hupd).
  cbn [load_loop]. rewrite Hf. cbn [mbind option_bind]. rewrite Hr. cbn [mbind option_bind].
  assert (added || is_empty r = match row_of tree (dc_key dc) with Some r => is_empty r | None => true end) as Hc.
  { subst added r. unfold dc_key. by destruct (row_of tree _) as [r|]. }
  destruct (added || is_empty r) eqn:Hae; cbn [negb].
  - unfold update_from_saved. cbn [mbind option_bind]. set (dc1 := set dc COL_STATE (to_string unplugged)).
    assert (get_url dc1 = get_url dc /\ get dc1 COL_BUSID = get dc COL_BUSID) as [Hu Hb] by (unfold get_url, dc1; by rewrite !get_set_ne).
    assert (exists t2, (let '(dc2, flags2) := if contains_persistent persistent (persistent_of to_utf8 dc1) then
        (set dc1 COL_PERSISTENT g_persistent_mark, Z.lor (Z.lor get_saved_flags (mkflag COL_STATE)) (mkflag COL_PERSISTENT))
      else (dc1, Z.lor get_saved_flags (mkflag COL_STATE)) in update_device t1 (i, j) dc2 flags2) = Some t2 /\ tree_ok t2 /\
      forall k, row_of t2 k = if decide (k = dc_key dc) then Some (loaded_row r dc persistent) else row_of tree k) as (t2 & H2 & Hok & Hrow2).
    { unfold loaded_row. fold dc1. destruct (contains_persistent persistent (persistent_of to_utf8 dc1)).
      - apply Hupd; [unfold get_url; by rewrite get_set_ne|by rewrite get_set_ne].
      - by apply Hupd. }
    exists t2. split; [|split; [done|]].
    + destruct (contains_persistent persistent (persistent_of to_utf8 dc1)).
      * change (has_flag _ COL_PERSISTENT) with false. cbn [negb wx_assert mbind option_bind]. by rewrite H2.
      * cbn [mbind option_bind]. by rewrite H2.
    + intros k. rewrite Hrow2. case_decide as Hk; [|done]. subst k. rewrite Hrd. fold (dc_key dc). destruct (row_of tree (dc_key dc)) as [r1|]; [by rewrite <- Hc|done].
  - exists t1. split; [done|]. split; [done|]. intros k. rewrite Hrow. fold (dc_key dc). case_decide as Hk; [|done]. subst k. rewrite Hrd. fold (dc_key dc).
    destruct (row_of tree (dc_key dc)) as [r1|]; [by rewrite <- Hc|done].
Qed.

Lemma load_loop_ok tree saved persistent : tree_ok tree -> exists tree', load_loop to_utf8 tree saved persistent = Some tree' /\ tree_ok tree'.
Proof.
  revert tree. induction saved as [|dc saved IH]; intros tree Ht; [by exists tree|].
  destruct (load_step tree dc saved persistent Ht) as (t1 & -> & Ht1 & _). by apply IH.
Qed.

Lemma reload_loop_ok tree devices persistent saved : tree_ok tree -> Forall device_ok devices ->
  NoDup (map (fun d => loc_key from_utf8 (location d)) devices) ->
  (forall d, d ∈ devices -> row_of tree (loc_key from_utf8 (location d)) = None) ->
  exists tree', reload_loop from_utf8 from_ascii to_utf8 ids tree devices persistent saved = Some tree' /\ tree_ok tree'.
Proof.
  revert tree. induction devices as [|d devices IH]; intros tree Ht Hd Hn Hnew; [by exists tree|].
  apply Forall_cons_1 in Hd as [Hd Hds]. cbn [map] in Hn. apply list.NoDup_cons in Hn as [Hn1 Hn2]. cbn [reload_loop].
  destruct (make_device_columns_spec from_utf8 from_ascii ids {| ds_device := d; ds_state := plugged; ds_source := 0 |} Hd) as (dc & flags & Hmk & Hc & _).
  pose proof (find_update tree (make_cmp_key from_utf8 (location d)) Ht) as (i & j & added & t1 & r & Hf & Ht1 & Hr & Ha & Hrd & Hrow & Hupd).
  destruct (cmp_key_columns from_utf8 (location d) 0) as [_ Hu Hb _ _]; [done..|].
  rewrite Hu, Hb in Hf, Ha, Hrow, Hupd. cbn [loc_key fst snd] in Hf. rewrite Hf. cbn [mbind option_bind].
  rewrite <- surjective_pairing in Ha, Hrow, Hupd. rewrite (Hnew d) in Ha by left. subst added. cbn [bool_decide decide_rel wx_assert].
  rewrite bool_decide_eq_true_2 by done. cbn [wx_assert mbind option_bind]. rewrite Hmk. cbn [mbind option_bind].
  destruct (update_from_saved_spec to_utf8 (loc_key from_utf8 (location d)) dc flags persistent (Some saved) true Hc) as (dc1 & f1 & Hs & _ & Hu1 & Hb1).
  rewrite Hs. cbn [mbind option_bind]. destruct (Hupd dc1 f1) as (t2 & -> & Ht2 & Hrow2); [done..|]. cbn [mbind option_bind].
  apply IH; [done..|]. intros d2 Hd2. rewrite Hrow2. rewrite decide_False; [by apply Hnew; right|]. intros He. apply Hn1. rewrite <- He.
  by apply (list_elem_of_fmap_2 (fun d => loc_key from_utf8 (location d))).
Qed.

(** The notes of a device that is listed: those saved for it, else those its row has. *)
Definition listed_notes (saved : list row) (k : list Z * list Z) (old : option row) : list Z :=
  match find (fun s => bool_decide (dc_key s = k)) saved with
  | Some s => get s COL_NOTES
  | None => match old with Some r => get r COL_NOTES | None => [] end
  end.

(** The row of a device that a server exports. *)
Definition dev_key (host service : list byte) (u : usb_device) : list Z * list Z :=
  loc_key from_utf8 (location (make_imported_device host service u)).

Lemma find_saved_find saved dc : find_saved saved dc = find (fun s => bool_decide (dc_key s = dc_key dc)) saved.
Proof.
  unfold find_saved. induction saved as [|x l IH]; [done|]. cbn [find].
  assert (same_key x dc = bool_decide (dc_key x = dc_key dc)) as Hk.
  { unfold same_key, dc_key. repeat case_bool_decide; cbn; congruence. }
  rewrite <- Hk. destruct (same_key x dc) eqn:E; [by rewrite filter_cons_True|]. rewrite filter_cons_False by congruence. exact IH.
Qed.

(** Listing touches the notes of a row only for saved devices. *)
Lemma listed_columns k dc flags persistent saved dc1 f1 : columns_for k dc flags -> update_from_saved to_utf8 dc flags persistent (Some saved) true = Some (dc1, f1) ->
  has_flag f1 COL_NOTES = bool_decide (is_Some (find (fun s => bool_decide (dc_key s = k)) saved)) /\
  forall s, find (fun s => bool_decide (dc_key s = k)) saved = Some s -> get dc1 COL_NOTES = get s COL_NOTES.
Proof.
  intros [Hl Hu Hb Hn Hp] Hupd. unfold update_from_saved in Hupd. cbn [mbind option_bind] in Hupd. rewrite find_saved_find in Hupd.
  replace (dc_key dc) with k in Hupd by (unfold dc_key; rewrite Hu, Hb; by destruct k).
  destruct (find _ saved) as [x|] eqn:Hf.
  - rewrite Hn in Hupd. cbn [negb wx_assert mbind option_bind] in Hupd.
    destruct (contains_persistent _ _); [destruct (negb (has_flag (Z.lor flags (mkflag COL_NOTES)) COL_PERSISTENT)); [|done]|]; cbn [wx_assert mbind option_bind] in Hupd;
      injection Hupd as <- <-; rewrite ?has_flag_lor, ?has_flag_mkflag, ?Hn, ?get_set_ne by done;
      (split; [done|]); intros s [= <-]; apply get_set_eq; rewrite Hl; unfold COL_NOTES, DEV_COL_CNT; lia.
  - cbn [mbind option_bind] in Hupd. destruct (contains_persistent _ _); [destruct (negb (has_flag flags COL_PERSISTENT)); [|done]|]; cbn [wx_assert mbind option_bind] in Hupd;
      injection Hupd as <- <-; rewrite ?has_flag_lor, ?has_flag_mkflag, ?Hn; by split.
Qed.

Lemma on_dev_spec tree host service persistent saved pend d : tree_ok tree -> device_ok (make_imported_device host service d) ->
  let k := dev_key host service d in exists tree' dc r,
  on_dev from_utf8 from_ascii to_utf8 ids host service persistent saved tree pend d =
    Some (tree', pend ++ [{| pd_dc := dc; pd_cls := u_class d; pd_sub := u_subclass d; pd_proto := u_protocol d; ifaces := [] |}]) /\
  tree_ok tree' /\ length dc = DEV_COL_CNT /\ dc_key dc = k /\ get r COL_NOTES = listed_notes saved k (row_of tree k) /\
  forall k', row_of tree' k' = if decide (k' = k) then Some r else row_of tree k'.
Proof.
  intros Ht Hd k. unfold on_dev.
  destruct (make_device_columns_spec from_utf8 from_ascii ids {| ds_device := make_imported_device host service d; ds_state := unplugged; ds_source := 0 |} Hd) as (dc & flags & -> & Hc & _).
  cbn [mbind option_bind ds_device] in *. fold (dev_key host service d) in Hc. fold k in Hc.
  destruct (update_from_saved_spec to_utf8 _ dc flags persistent (Some saved) true Hc) as (dc1 & f1 & Hs & Hl1 & Hu1 & Hb1). rewrite Hs. cbn [mbind option_bind].
  destruct (listed_columns k dc flags persistent saved dc1 f1 Hc Hs) as [Hfl Hnotes].
  assert ((get_url dc1, get dc1 COL_BUSID) = k) as Hk by (rewrite Hu1, Hb1; by destruct k).
  destruct (find_update tree dc1 Ht) as (i & j & added & t1 & r & Hf & Ht1 & Hr & Ha & Hrd & _ & Hupd). rewrite Hf. cbn [mbind option_bind].
  set (f2 := if added then f1 else Z.ldiff f1 (mkflag COL_STATE)).
  destruct (Hupd dc1 f2) as (t2 & -> & Ht2 & Hrow); [done..|]. cbn [mbind option_bind]. rewrite Hk in *.
  exists t2, dc1, (update_row r dc1 f2). do 3 (split; [done|]). split; [done|]. split; [|done].
  assert (length r = DEV_COL_URL) as Hlr. { rewrite Hrd. destruct (row_of tree k) as [x|] eqn:E; [by apply (row_of_length tree k)|apply length_new_row]. }
  destruct (update_row_spec r dc1 f2 Hlr) as (_ & _ & ->); [|unfold COL_NOTES; lia].
  assert (has_flag f2 COL_NOTES = has_flag f1 COL_NOTES) as ->.
  { unfold f2. destruct added; [done|]. rewrite !has_flag_bit, Z.ldiff_spec. unfold mkflag. rewrite Z.shiftl_1_l, Z.pow2_bits_eqb by done. cbn. apply andb_true_r. }
  rewrite Hfl. unfold listed_notes. destruct (find _ saved) as [s|].
  - rewrite bool_decide_eq_true_2; [by apply Hnotes|by exists s].
  - rewrite bool_decide_eq_false_2 by (by intros []). rewrite Hrd. destruct (row_of tree k); [done|]. cbn [default]. by rewrite get_new_row.
Qed.

Lemma run_callbacks_ok host service persistent saved cbs tree pend : tree_ok tree ->
  Forall (fun cb => match cb with OnDev _ d => device_ok (make_imported_device host service d) | _ => True end) cbs ->
  exists tree' pend', run_callbacks from_utf8 from_ascii to_utf8 ids host service persistent saved cbs tree pend = Some (tree', pend') /\ tree_ok tree'.
Proof.
  revert tree pend. induction cbs as [|cb cbs IH]; intros tree pend Ht Hc; [by exists tree, pend|]. apply Forall_cons_1 in Hc as [H1 H2].
  destruct cb as [n|idx d|idx d j i]; cbn [run_callbacks]; [by apply IH| |by apply IH].
  destruct (on_dev_spec tree host service persistent saved pend d Ht H1) as (t1 & dc & r & -> & Ht1 & _). cbn [mbind option_bind]. by apply IH.
Qed.

(** One round of the loop over the devices that were listed. *)
Lemma flag_step p d pend tree : tree_ok tree -> exists tree',
  flag_blocked p (d :: pend) tree = flag_blocked p pend tree' /\ tree_ok tree' /\
  forall k, row_of tree' k =
    if decide (k = dc_key (pd_dc d) /\ blocked_reason p d <> []) then
      Some (update_row (default (new_row k.2) (row_of tree k)) (set (pd_dc d) COL_NOTES (blocked_reason p d)) (mkflag COL_NOTES))
    else row_of tree k.
Proof.
  intros Ht. cbn [flag_blocked]. case_bool_decide as Hr.
  { exists tree. split; [done|]. split; [done|]. intros k. by rewrite decide_False by naive_solver. }
  set (dc := set (pd_dc d) COL_NOTES (blocked_reason p d)).
  assert ((get_url dc, get dc COL_BUSID) = dc_key (pd_dc d)) as Hk by (unfold dc_key, get_url, dc; by rewrite !get_set_ne).
  destruct (find_update tree dc Ht) as (i & j & added & t1 & r & -> & _ & _ & _ & Hrd & _ & Hupd). cbn [mbind option_bind].
  destruct (Hupd dc (mkflag COL_NOTES)) as (t2 & -> & Ht2 & Hrow); [done..|]. cbn [mbind option_bind]. exists t2. split; [done|]. split; [done|].
  intros k. rewrite Hrow, Hrd, Hk. destruct (decide (k = dc_key (pd_dc d))) as [->|Hne].
  - rewrite decide_True by done. by rewrite <- Hk.
  - by rewrite decide_False by naive_solver.
Qed.

Lemma flag_blocked_ok p pend tree : tree_ok tree -> exists tree', flag_blocked p pend tree = Some tree' /\ tree_ok tree'.
Proof.
  revert tree. induction pend as [|d pend IH]; intros tree Ht; [by exists tree|].
  destruct (flag_step p d pend tree Ht) as (t1 & -> & Ht1 & _). by apply IH.
Qed.

(** The rows after it, of different devices. *)
Lemma flag_blocked_spec p pend tree : tree_ok tree -> NoDup (map (fun d => dc_key (pd_dc d)) pend) -> Forall (fun d => length (pd_dc d) = DEV_COL_CNT) pend ->
  exists tree', flag_blocked p pend tree = Some tree' /\ tree_ok tree' /\
    Forall (fun d => let k := dc_key (pd_dc d) in
      if bool_decide (blocked_reason p d = []) then row_of tree' k = row_of tree k
      else exists r, row_of tree' k = Some r /\ get r COL_NOTES = blocked_reason p d) pend /\
    forall k, k ∉ map (fun d => dc_key (pd_dc d)) pend -> row_of tree' k = row_of tree k.
Proof.
  revert tree. induction pend as [|d pend IH]; intros tree Ht Hn Hl; [by exists tree|].
  cbn [map] in *. apply list.NoDup_cons in Hn as [Hn1 Hn2]. apply Forall_cons_1 in Hl as [Hl1 Hl2].
  destruct (flag_step p d pend tree Ht) as (t1 & -> & Ht1 & Hrow). destruct (IH t1 Ht1 Hn2 Hl2) as (t2 & -> & Ht2 & Hall & Hother).
  exists t2. split; [done|]. split; [done|]. split.
  - constructor.
    + cbv zeta. rewrite Hother, Hrow by done. case_bool_decide as Hr; [by rewrite decide_False by naive_solver|].
      rewrite decide_True by done. eexists. split; [done|].
      assert (length (default (new_row (dc_key (pd_dc d)).2) (row_of tree (dc_key (pd_dc d)))) = DEV_COL_URL) as Hlr.
      { destruct (row_of tree (dc_key (pd_dc d))) as [x|] eqn:E; [by apply (row_of_length tree (dc_key (pd_dc d)))|apply length_new_row]. }
      destruct (update_row_spec _ (set (pd_dc d) COL_NOTES (blocked_reason p d)) (mkflag COL_NOTES) Hlr) as (_ & _ & ->); [|unfold COL_NOTES; lia].
      change (has_flag (mkflag COL_NOTES) COL_NOTES) with true. cbv iota. apply get_set_eq. rewrite Hl1. unfold COL_NOTES, DEV_COL_CNT. lia.
    + apply list.Forall_forall. intros x Hx. rewrite list.Forall_forall in Hall. specialize (Hall x Hx). cbv beta zeta in *.
      rewrite Hrow, decide_False in Hall; [done|]. intros [He _]. apply Hn1. rewrite <- He. by apply (list_elem_of_fmap_2 (fun d => dc_key (pd_dc d))).
  - intros k Hk. rewrite Hother, Hrow by set_solver. apply decide_False. set_solver.
Qed.

Lemma generate_device_serial_Some dist : (forall i, (dist i < 62)%nat) -> exists s, generate_device_serial dist = Some s.
Proof.
  intros Hd. assert (is_Some (generate_device_serial dist)) as [s Hs]; [|by exists s]. apply mapM_is_Some_2.
  apply list.Forall_forall. intros i _. apply lookup_lt_is_Some_2. apply Hd.
Qed.

Lemma gui_step_ok tree o : tree_ok tree -> op_ok o -> exists tree', gui_step tree o = Some tree' /\ tree_ok tree'.
Proof.
  intros Ht Ho. destruct o as [e|devices persistent saved once|saved persistent|host service persistent saved policy cbs res|selected|dev entered|dev entered|dev dist]; cbn [gui_step op_ok] in *.
  - destruct (step_event_spec from_utf8 from_ascii to_utf8 ids tree e Ht Ho) as (t1 & r1 & H1 & H2 & _). by exists t1.
  - destruct Ho as [Hs Hd]. unfold on_reload. destruct devices as [devices|]; [|exists []; split; [done|apply tree_ok_nil]]. destruct Hd as [Hd Hn].
    destruct (reload_loop_ok [] devices persistent saved tree_ok_nil Hd Hn) as (t1 & -> & Ht1); [done|]. cbn [mbind option_bind].
    destruct once; [by exists t1|]. by apply load_loop_ok.
  - by apply load_loop_ok.
  - unfold add_exported_devices. destruct (run_callbacks_ok host service persistent saved cbs tree [] Ht Ho) as (t1 & p1 & -> & Ht1). cbn [mbind option_bind].
    destruct res; [|by exists t1]. destruct policy as [p|]; [|by exists t1]. destruct (Client.mode p); [by exists t1|]. by apply flag_blocked_ok.
  - eexists. split; [done|]. by apply on_toggle_auto_ok.
  - eexists. split; [done|]. by apply edit_column_dlg_ok.
  - eexists. split; [done|]. by apply edit_column_dlg_ok.
  - unfold on_edit_gen_serial. destruct (generate_device_serial_Some dist Ho) as [s ->]. cbn. eexists. split; [done|]. by apply set_item_text_ok.
Qed.

(** Whatever the user does, the driver reports and the servers answer, in any order: no assertion of the window fails,
    every server is in the tree once and has at least one device, and every device of a server is there once. *)
Theorem window_consistent os tree : tree_ok tree -> Forall op_ok os -> exists tree', gui_run tree os = Some tree' /\ tree_ok tree'.
Proof.
  revert tree. induction os as [|o os IH]; intros tree Ht Ho; [by exists tree|]. apply Forall_cons_1 in Ho as [Ho Hos]. cbn [gui_run].
  destruct (gui_step_ok tree o Ht Ho) as (t1 & -> & Ht1). cbn [mbind option_bind]. by apply IH.
Qed.
End operations.

(** ** Devices the driver would block *)

Definition intf_class (i : usb_interface) : Z * Z * Z := (b2z (bInterfaceClass i), b2z (bInterfaceSubClass i), b2z (bInterfaceProtocol i)).

(** What is pending for a device that was listed. *)
Definition pending_of (dc : row) (u : usb_device * list usb_interface) : pending_dev :=
  {| pd_dc := dc; pd_cls := u_class u.1; pd_sub := u_subclass u.1; pd_proto := u_protocol u.1; ifaces := map intf_class u.2 |}.

(** The calls for devices that are read already. *)
Fixpoint usb_events (i : Z) (us : list (usb_device * list usb_interface)) : list callback :=
  match us with [] => [] | u :: us => (OnDev (s32 i) u.1 :: interface_events i u.1 0 u.2) ++ usb_events (i + 1) us end.

(** What the server exports, as the library reads it. *)
Definition reads_as (d : usbip_usb_device * list usb_interface) (u : usb_device * list usb_interface) : Prop :=
  as_usb_device d.1 = Some u.1 /\ u.2 = d.2.

Lemma device_events_usb i devs us : Forall2 reads_as devs us -> device_events i devs = Some (usb_events i us).
Proof.
  intros H. revert i. induction H as [|[d intfs] [u intfs'] devs us [Hu Hi] _ IH]; intros i; [done|]. cbn in Hu, Hi. subst intfs'.
  cbn [device_events usb_events fst snd]. rewrite Hu. cbn [mbind option_bind]. rewrite IH. done.
Qed.

(** The policy of the driver lets an interface in. *)
Definition interface_admitted (p : policy) (i : usb_interface) : Prop :=
  policy_admits p (b2z (bInterfaceClass i)) (b2z (bInterfaceSubClass i)) (b2z (bInterfaceProtocol i)).

Lemma skips_admits e c s pr : negb (skips e c s pr) = true <-> entry_admits e c s pr.
Proof.
  rewrite <- entry_matches_admits. unfold skips, entry_matches, flag_set. change FILTER_MATCH_CLASS with 1. change FILTER_MATCH_SUBCLASS with 2. change FILTER_MATCH_PROTOCOL with 4.
  repeat match goal with |- context [?a =? ?b] => destruct (a =? b) end; done.
Qed.

(** The loop over the entries decides as the driver does. *)
Lemma allowed_admits p c s pr : Client.mode p = whitelist -> allowed p c s pr = true <-> policy_admits (driver_policy p) c s pr.
Proof.
  intros Hm. unfold allowed, policy_admits, driver_policy. rewrite Hm. cbn [Policy.mode Policy.entries count]. rewrite existsb_exists. split.
  - intros (e & He & Hs). apply skips_admits in Hs. right. apply list_elem_of_In, list_elem_of_lookup in He as [i He]. exists i, e.
    split; [apply lookup_lt_Some in He; lia|]. split; [by apply lookup_app_l_Some|done].
  - intros [Hd|(i & e & Hi & He & Ha)]; [done|]. exists e. rewrite lookup_app_l in He by lia. split; [|by apply skips_admits].
    by apply list_elem_of_lookup_2, list_elem_of_In in He.
Qed.

(** The reason names the class of the device or else the first interface that is not let in. *)
Lemma blocked_reason_spec p dc d u : Client.mode p = whitelist -> reads_as d u ->
  (class_admitted (driver_policy p) d.1 -> Forall (interface_admitted (driver_policy p)) d.2 -> blocked_reason p (pending_of dc u) = []) /\
  (~ class_admitted (driver_policy p) d.1 -> blocked_reason p (pending_of dc u) = wide "Blocked: device class "%string ++ format_02X (bDeviceClass d.1)) /\
  (class_admitted (driver_policy p) d.1 -> forall l1 i l2, d.2 = l1 ++ i :: l2 -> Forall (interface_admitted (driver_policy p)) l1 ->
     ~ interface_admitted (driver_policy p) i -> blocked_reason p (pending_of dc u) = wide "Blocked: interface class "%string ++ format_02X (b2z (bInterfaceClass i))).
Proof.
  intros Hm [Hu Hi]. unfold blocked_reason, pending_of. cbn [pd_cls pd_sub pd_proto ifaces]. rewrite Hi.
  assert (u_class u.1 = bDeviceClass d.1 /\ u_subclass u.1 = bDeviceSubClass d.1 /\ u_protocol u.1 = bDeviceProtocol d.1) as (-> & -> & ->).
  { unfold as_usb_device in Hu. cbv zeta in Hu. destruct (std_string (usb_device_bytes d.1)); cbn [mbind option_bind] in Hu; [|done]. destruct (std_string (drop _ _)); cbn [mbind option_bind] in Hu; [|done]. by injection Hu as <-. }
  assert (forall i, allowed p (intf_class i).1.1 (intf_class i).1.2 (intf_class i).2 = true <-> interface_admitted (driver_policy p) i) as Hint by (intros i; by apply allowed_admits).
  assert (negb (bDeviceClass d.1 =? 0) && negb (bDeviceClass d.1 =? 0xEF) && negb (allowed p (bDeviceClass d.1) (bDeviceSubClass d.1) (bDeviceProtocol d.1)) = true <->
    ~ class_admitted (driver_policy p) d.1) as Hcls.
  { unfold class_admitted. rewrite <- (allowed_admits p _ _ _ Hm). destruct (Z.eqb_spec (bDeviceClass d.1) 0), (Z.eqb_spec (bDeviceClass d.1) 0xEF), (allowed p _ _ _); cbn; naive_solver. }
  destruct (negb _ && negb _ && negb _) eqn:Hb.
  - pose proof (proj1 Hcls eq_refl) as Hno. split; [done|]. split; [done|]. done.
  - assert (forall l1, Forall (interface_admitted (driver_policy p)) l1 -> filter (fun i => allowed p i.1.1 i.1.2 i.2 = false) (map intf_class l1) = []) as Hpre.
    { intros l1 Hl. induction Hl as [|i l1 Hx _ IH]; [done|]. cbn [map]. apply Hint in Hx. by rewrite filter_cons_False by congruence. }
    split; [intros _ Hall; by rewrite Hpre|]. split; [intros Hno; by apply Hcls in Hno|]. intros _ l1 i l2 -> Hl1 Hno.
    rewrite map_app, list.filter_app, Hpre by done. cbn [map app]. rewrite filter_cons_True; [done|].
    apply not_true_is_false. by rewrite Hint.
Qed.

Section listing.
Context (from_utf8 from_ascii : list byte -> list Z) (to_utf8 : list Z -> list byte) (ids : UsbIds.ids).
Context (host service : list byte) (persistent : list persistent_device) (saved : list row).

Abbreviation run := (run_callbacks from_utf8 from_ascii to_utf8 ids host service persistent saved).
Abbreviation ukey u := (dev_key from_utf8 host service u.1).

Lemma run_app cbs1 cbs2 tree pend : run (cbs1 ++ cbs2) tree pend = ('(tree, pend) ← run cbs1 tree pend; run cbs2 tree pend).
Proof.
  revert tree pend. induction cbs1 as [|cb cbs1 IH]; intros tree pend; [done|]. destruct cb; cbn [app run_callbacks]; [apply IH| |apply IH].
  destruct (on_dev _ _ _ _ _ _ _ _ _ _ _) as [[t p]|]; [apply IH|done].
Qed.

Lemma run_interfaces i u j intfs tree pend x : Z.of_nat (length pend) = i -> i < 2 ^ 31 ->
  run (interface_events i u j intfs) tree (pend ++ [x]) =
  Some (tree, pend ++ [{| pd_dc := pd_dc x; pd_cls := pd_cls x; pd_sub := pd_sub x; pd_proto := pd_proto x; ifaces := ifaces x ++ map intf_class intfs |}]).
Proof.
  intros Hi Hlt. revert j x. induction intfs as [|y intfs IH]; intros j x; cbn [interface_events run_callbacks map].
  - rewrite app_nil_r. by destruct x.
  - unfold on_intf. rewrite s32_id by (unfold is_s32; lia). rewrite (proj2 (Z.leb_le 0 i)) by lia. replace (Z.to_nat i) with (length pend) by lia.
    rewrite alter_app_r_alt, Nat.sub_diag by lia. cbn [alter list_alter]. rewrite IH. cbn [pd_dc pd_cls pd_sub pd_proto ifaces]. by rewrite <- app_assoc.
Qed.

Lemma run_devices us i tree pend : tree_ok tree -> Z.of_nat (length pend) = i -> i + Z.of_nat (length us) < 2 ^ 31 ->
  Forall (fun u => device_ok (make_imported_device host service u.1)) us -> NoDup (map (fun u => ukey u) us) ->
  exists tree' dcs, run (usb_events i us) tree pend = Some (tree', pend ++ zip_with pending_of dcs us) /\ tree_ok tree' /\
    Forall2 (fun u dc => length dc = DEV_COL_CNT /\ dc_key dc = ukey u) us dcs /\
    Forall (fun u => exists r, row_of tree' (ukey u) = Some r /\ get r COL_NOTES = listed_notes saved (ukey u) (row_of tree (ukey u))) us /\
    forall k, k ∉ map (fun u => ukey u) us -> row_of tree' k = row_of tree k.
Proof.
  revert i tree pend. induction us as [|u us IH]; intros i tree pend Ht Hi Hlen Hd Hn; [exists tree, []; split; [cbn; by rewrite app_nil_r|]; done|].
  cbn [map length usb_events] in *. apply Forall_cons_1 in Hd as [Hd1 Hd2]. apply list.NoDup_cons in Hn as [Hn1 Hn2].
  destruct (on_dev_spec from_utf8 from_ascii to_utf8 ids tree host service persistent saved pend u.1 Ht Hd1) as (t1 & dc & r & Hdev & Ht1 & Hl & Hk & Hnotes & Hrow).
  rewrite run_app. cbn [run_callbacks]. rewrite Hdev. cbn [mbind option_bind]. rewrite run_interfaces by lia. cbn [mbind option_bind pd_dc pd_cls pd_sub pd_proto ifaces app].
  fold (pending_of dc u).
  destruct (IH (i + 1) t1 (pend ++ [pending_of dc u])) as (t2 & dcs & -> & Ht2 & Hdcs & Hall & Hother); [done|rewrite length_app; cbn; lia|lia|done..|].
  exists t2, (dc :: dcs). cbn [zip_with]. rewrite <- app_assoc. split; [done|]. split; [done|]. split; [by constructor|]. split.
  - constructor.
    + exists r. rewrite Hother by done. by rewrite Hrow, decide_True.
    + apply list.Forall_forall. intros x Hx. rewrite list.Forall_forall in Hall. destruct (Hall x Hx) as (rx & Hrx & Hnx). exists rx. split; [done|].
      rewrite Hnx, Hrow, decide_False; [done|]. intros He. apply Hn1. rewrite <- He. by apply (list_elem_of_fmap_2 (fun u => ukey u)).
  - intros k Hk2. rewrite Hother, Hrow by set_solver. apply decide_False. set_solver.
Qed.

(** The list of a server's devices shows beforehand what the driver's policy would reject: for every list of devices with their interfaces that the
    library reports, while filtering is on, each gets a row, and its notes name the class of the device when the driver would reject that,
    else the class of the first interface it would reject; the notes of the devices it lets in are those saved or those there were, and the rows of no other
    device change. *)
Theorem blocked_devices_are_marked p devs us tree : tree_ok tree -> Client.mode p = whitelist -> Forall2 reads_as devs us ->
  Z.of_nat (length us) < 2 ^ 31 -> Forall (fun u => device_ok (make_imported_device host service u.1)) us -> NoDup (map (fun u => ukey u) us) ->
  exists cbs tree', device_events 0 devs = Some cbs /\
    add_exported_devices from_utf8 from_ascii to_utf8 ids tree host service persistent saved (Some p) cbs true = Some tree' /\ tree_ok tree' /\
    Forall2 (fun d u => exists r, row_of tree' (ukey u) = Some r /\
      (class_admitted (driver_policy p) d.1 -> Forall (interface_admitted (driver_policy p)) d.2 ->
         get r COL_NOTES = listed_notes saved (ukey u) (row_of tree (ukey u))) /\
      (~ class_admitted (driver_policy p) d.1 -> get r COL_NOTES = wide "Blocked: device class "%string ++ format_02X (bDeviceClass d.1)) /\
      (class_admitted (driver_policy p) d.1 -> forall l1 i l2, d.2 = l1 ++ i :: l2 -> Forall (interface_admitted (driver_policy p)) l1 ->
         ~ interface_admitted (driver_policy p) i -> get r COL_NOTES = wide "Blocked: interface class "%string ++ format_02X (b2z (bInterfaceClass i)))) devs us /\
    forall k, k ∉ map (fun u => ukey u) us -> row_of tree' k = row_of tree k.
Proof.
  intros Ht Hm Hus Hlen Hd Hn. exists (usb_events 0 us).
  destruct (run_devices us 0 tree [] Ht eq_refl Hlen Hd Hn) as (t1 & dcs & Hrun & Ht1 & Hdcs & Hall & Hother). cbn [app] in Hrun.
  assert (length dcs = length us) as Hlen2 by (symmetry; by apply Forall2_length in Hdcs).
  assert (map (fun d => dc_key (pd_dc d)) (zip_with pending_of dcs us) = map (fun u => ukey u) us) as Hkeys.
  { clear -Hdcs. induction Hdcs as [|u dc us dcs [_ H] _ IH]; [done|]. cbn. by rewrite H, IH. }
  destruct (flag_blocked_spec p (zip_with pending_of dcs us) t1 Ht1) as (t2 & Hflag & Ht2 & Hflags & Hother2).
  - by rewrite Hkeys.
  - clear -Hdcs. induction Hdcs as [|u dc us dcs [H _] _ IH]; [done|]. cbn. by constructor.
  - exists t2. split; [by apply device_events_usb|]. split; [unfold add_exported_devices; rewrite Hrun; cbn [mbind option_bind negb]; by rewrite Hm|].
    split; [done|]. split; [|intros k Hk; rewrite Hother2 by (by rewrite Hkeys); by apply Hother].
    clear Hrun Hflag Hother Hother2 Hkeys Hn Hd Hlen Hlen2. revert dcs Hdcs Hflags. induction Hus as [|d u devs us Hdu _ IH]; intros dcs Hdcs Hflags; [constructor|].
    destruct dcs as [|dc dcs]; [by inversion Hdcs|]. apply Forall2_cons_1 in Hdcs as [[_ Hk] Hdcs]. cbn [zip_with] in Hflags.
    apply Forall_cons_1 in Hflags as [Hf Hflags]. apply Forall_cons_1 in Hall as [(r & Hr & Hnotes) Hall]. constructor; [|by apply (IH Hall dcs)].
    cbv zeta in Hf. cbn [pending_of pd_dc] in Hf. rewrite Hk in Hf. destruct (blocked_reason_spec p dc d u Hm Hdu) as (H1 & H2 & H3).
    case_bool_decide as Hb.
    + exists r. rewrite Hf. split; [done|]. split; [done|]. split.
      * intros Hno. rewrite (H2 Hno) in Hb. done.
      * intros Hc l1 i l2 He Hl Hno. rewrite (H3 Hc l1 i l2 He Hl Hno) in Hb. done.
    + destruct Hf as (r2 & Hr2 & Hn2). exists r2. split; [done|]. rewrite Hn2. split; [intros Hc Hi; by destruct (Hb (H1 Hc Hi))|]. by split.
Qed.
End listing.

(** ** Saving and loading *)

(** What the configuration does: groups are there once something is written to them, in any order, and a text read is
    what was written with its variables expanded. *)
Class ConfigLaws (C : Type) `{Config C} (expand : list Z -> list Z) : Prop := {
  groups_deleted : forall c, groups (delete_devices c) = [];
  read_deleted : forall c g k, read (delete_devices c) g k = [];
  groups_written : forall c g k v, groups (write c g k v) ≡ₚ (if bool_decide (g ∈ groups c) then groups c else g :: groups c);
  read_written : forall c g k v g' k', read (write c g k v) g' k' = if bool_decide (g' = g /\ k' = k) then expand v else read c g' k' }.

(** The columns that come back of a row. *)
Definition saved_row (e : list Z * row) : row := set_saved_columns (set no_columns DEV_COL_URL e.1) e.2.

Section saving.
Context {C : Type} `{Config C} (expand : list Z -> list Z) `{!ConfigLaws C expand}.

(** The configuration keeps the texts of the device. *)
Definition kept (e : list Z * row) : Prop :=
  e.1 <> [] /\ get e.2 COL_BUSID <> [] /\ expand e.1 = e.1 /\ Forall (fun k => expand (get e.2 (snd k)) = get e.2 (snd k)) get_saved_keys.

Definition device_texts (e : list Z * row) : list (list Z * list Z) := (g_key_url, e.1) :: map (fun k => (fst k, get e.2 (snd k))) get_saved_keys.

Lemma save_device_writes cfg name e : save_device cfg name e.1 e.2 = fold_left (fun cfg kv => write cfg name (fst kv) (snd kv)) (device_texts e) cfg.
Proof. reflexivity. Qed.

Lemma writes_groups kvs cfg name : kvs <> [] ->
  groups (fold_left (fun cfg kv => write cfg name (fst kv) (snd kv)) kvs cfg) ≡ₚ (if bool_decide (name ∈ groups cfg) then groups cfg else name :: groups cfg).
Proof.
  intros Hne. destruct kvs as [|kv kvs]; [done|]. clear Hne. revert cfg kv. induction kvs as [|kv2 kvs IH]; intros cfg kv; cbn [fold_left].
  - apply groups_written.
  - change (fold_left ?f kvs (write (write cfg name (fst kv) (snd kv)) name (fst kv2) (snd kv2))) with (fold_left f (kv2 :: kvs) (write cfg name (fst kv) (snd kv))).
    rewrite IH. pose proof (groups_written cfg name (fst kv) (snd kv)) as Hg.
    rewrite bool_decide_eq_true_2; [done|]. rewrite Hg. case_bool_decide; [done|]. left.
Qed.

Lemma writes_read kvs cfg name g k : NoDup (map fst kvs) ->
  read (fold_left (fun cfg kv => write cfg name (fst kv) (snd kv)) kvs cfg) g k =
    if bool_decide (g = name) then match head (filter (fun kv => fst kv = k) kvs) with Some kv => expand (snd kv) | None => read cfg g k end else read cfg g k.
Proof.
  revert cfg. induction kvs as [|kv kvs IH]; intros cfg Hn; cbn [fold_left]; [by case_bool_decide|].
  cbn [map] in Hn. apply list.NoDup_cons in Hn as [Hk Hn]. rewrite IH by done. rewrite read_written.
  destruct (decide (g = name)) as [->|Hg]; [|rewrite !(bool_decide_eq_false_2 (g = name)) by done; rewrite bool_decide_eq_false_2; [done|by intros []]].
  rewrite !(bool_decide_eq_true_2 (name = name)) by done. destruct (decide (fst kv = k)) as [Hkk|Hkk].
  - rewrite filter_cons_True by done. cbn. subst k.
    assert (filter (fun kv0 => fst kv0 = fst kv) kvs = []) as ->.
    { destruct (filter _ kvs) as [|x l] eqn:E; [done|]. assert (x ∈ filter (fun kv0 => fst kv0 = fst kv) kvs) as Hx by (rewrite E; left).
      apply list_elem_of_filter in Hx as [Hx Hin]. exfalso. apply Hk. rewrite <- Hx. by apply (list_elem_of_fmap_2 fst). }
    cbn. by rewrite bool_decide_eq_true_2.
  - rewrite filter_cons_False by done. destruct (list.head _); [done|]. rewrite bool_decide_eq_false_2; [done|]. intros []. congruence.
Qed.

Lemma device_texts_NoDup e : NoDup (map fst (device_texts e)).
Proof. apply (bool_decide_unpack _). vm_compute. exact I. Qed.

Lemma save_device_read cfg name e g k : read (save_device cfg name e.1 e.2) g k =
  if bool_decide (g = name) then match head (filter (fun kv => fst kv = k) (device_texts e)) with Some kv => expand (snd kv) | None => read cfg g k end else read cfg g k.
Proof. rewrite save_device_writes. apply writes_read, device_texts_NoDup. Qed.

(** The names of the groups of [n] devices after the first [cnt]. *)
Definition group_names (cnt : Z) (n : nat) : list (list Z) := map (fun i => format_d (cnt + 1 + Z.of_nat i)) (seq 0 n).

Lemma group_names_S cnt n : group_names cnt (S n) = format_d (cnt + 1) :: group_names (cnt + 1) n.
Proof.
  unfold group_names. cbn [seq map]. f_equal; [f_equal; lia|]. rewrite <- seq_shift, map_map. apply map_ext. intros i. f_equal. lia.
Qed.

Lemma group_names_fresh cnt n i : 0 <= cnt -> cnt + Z.of_nat n < 2 ^ 32 -> 0 <= i <= cnt -> format_d i ∉ group_names cnt n.
Proof.
  intros Hc Hn Hi Hin. unfold group_names in Hin. apply list_elem_of_fmap in Hin as (j & Hj & Hin). apply elem_of_seq in Hin.
  apply format_d_inj in Hj; lia.
Qed.

Lemma save_loop_other devices cfg cnt g k : g ∉ group_names cnt (length devices) -> read (save_loop cfg cnt devices) g k = read cfg g k.
Proof.
  revert cfg cnt. induction devices as [|[u r] devices IH]; intros cfg cnt Hg; [done|]. cbn [length save_loop] in *. rewrite group_names_S in Hg.
  rewrite IH by set_solver. rewrite (save_device_read cfg _ (u, r)). rewrite bool_decide_eq_false_2; [done|]. set_solver.
Qed.

Lemma save_loop_read devices cfg cnt i e k v : 0 <= cnt -> cnt + Z.of_nat (length devices) < 2 ^ 32 -> devices !! i = Some e ->
  head (filter (fun kv => fst kv = k) (device_texts e)) = Some (k, v) -> read (save_loop cfg cnt devices) (format_d (cnt + 1 + Z.of_nat i)) k = expand v.
Proof.
  revert cfg cnt i. induction devices as [|[u r] devices IH]; intros cfg cnt i Hc Hn Hi Hk; [done|]. cbn [length save_loop] in *.
  destruct i as [|i]; cbn in Hi.
  - injection Hi as <-. replace (cnt + 1 + Z.of_nat 0) with (cnt + 1) by lia.
    rewrite save_loop_other by (apply group_names_fresh; lia). rewrite (save_device_read cfg _ (u, r)), bool_decide_eq_true_2 by done. by rewrite Hk.
  - replace (cnt + 1 + Z.of_nat (S i)) with (cnt + 1 + 1 + Z.of_nat i) by lia. apply IH; [lia|lia|done|done].
Qed.

Lemma save_loop_groups devices cfg cnt : 0 <= cnt -> cnt + Z.of_nat (length devices) < 2 ^ 32 ->
  (forall g, g ∈ groups cfg -> exists i, 0 <= i <= cnt /\ g = format_d i) -> groups (save_loop cfg cnt devices) ≡ₚ groups cfg ++ group_names cnt (length devices).
Proof.
  revert cfg cnt. induction devices as [|[u r] devices IH]; intros cfg cnt Hc Hn Hg; [by rewrite app_nil_r|]. cbn [length save_loop] in *.
  assert (groups (save_device cfg (format_d (cnt + 1)) u r) ≡ₚ format_d (cnt + 1) :: groups cfg) as Hd.
  { rewrite (save_device_writes cfg _ (u, r)), writes_groups by done. rewrite bool_decide_eq_false_2; [done|].
    intros Hin. destruct (Hg _ Hin) as (i & Hi & He). apply format_d_inj in He; lia. }
  rewrite IH; [|lia|lia|].
  - rewrite Hd, group_names_S. cbn. apply Permutation_middle.
  - intros g. rewrite Hd, elem_of_cons. intros [->|Hin]; [exists (cnt + 1); split; [lia|done]|]. destruct (Hg g Hin) as (i & Hi & ->). exists i. split; [lia|done].
Qed.

(** What is saved is what get_saved finds. *)
Lemma get_saved_save cfg devices : Z.of_nat (length devices) < 2 ^ 32 -> Forall kept devices ->
  get_saved (save_loop (delete_devices cfg) 0 devices) ≡ₚ map saved_row devices.
Proof.
  intros Hn Hk. unfold get_saved. set (cfg' := save_loop _ _ _).
  assert (groups cfg' ≡ₚ group_names 0 (length devices)) as Hg.
  { unfold cfg'. rewrite save_loop_groups; [by rewrite groups_deleted|lia|lia|]. rewrite groups_deleted. intros g Hin. by apply elem_of_nil in Hin. }
  rewrite Hg. assert (forall i e, devices !! i = Some e -> get_saved_device cfg' (format_d (0 + 1 + Z.of_nat i)) = Some (saved_row e)) as Hone.
  { intros i e Hi. pose proof Hk as Hke. apply list.Forall_lookup_1 with (i := i) (x := e) in Hke as (H1 & H2 & H3 & H4); [|done].
    assert (forall k v, head (filter (fun kv => fst kv = k) (device_texts e)) = Some (k, v) -> read cfg' (format_d (0 + 1 + Z.of_nat i)) k = expand v) as Hr.
    { intros k v Hkv. unfold cfg'. by apply (save_loop_read devices _ 0 i e); [lia|lia|..]. }
    unfold get_saved_device. rewrite (Hr g_key_url e.1 eq_refl), H3, (bool_decide_eq_false_2 (e.1 = [])) by done.
    repeat (apply Forall_cons_1 in H4 as [? H4]). cbn [snd] in *.
    assert (fold_left (fun dc k => set dc (snd k) (read cfg' (format_d (0 + 1 + Z.of_nat i)) (fst k))) get_saved_keys (set no_columns DEV_COL_URL e.1) = saved_row e) as ->.
    { unfold saved_row, set_saved_columns, get_saved_keys. cbn [fold_left fst snd].
      rewrite (Hr (wide "busid"%string) (get e.2 COL_BUSID) eq_refl), (Hr (wide "devid"%string) (get e.2 COL_DEVID) eq_refl), (Hr (wide "speed"%string) (get e.2 COL_SPEED) eq_refl), (Hr (wide "vendor"%string) (get e.2 COL_VENDOR) eq_refl),
        (Hr (wide "product"%string) (get e.2 COL_PRODUCT) eq_refl), (Hr (wide "serial"%string) (get e.2 COL_SERIAL) eq_refl), (Hr (wide "notes"%string) (get e.2 COL_NOTES) eq_refl). congruence. }
    rewrite bool_decide_eq_false_2; [done|]. unfold saved_row. by rewrite get_set_saved_columns. }
  clear Hg Hk. unfold group_names. clearbody cfg'.
  assert (forall n, (forall i e, devices !! i = Some e -> get_saved_device cfg' (format_d (n + 1 + Z.of_nat i)) = Some (saved_row e)) ->
    omap (get_saved_device cfg') (map (fun i => format_d (n + 1 + Z.of_nat i)) (seq 0 (length devices))) = map saved_row devices) as Hmap; [|by rewrite Hmap].
  clear. induction devices as [|e devices IH]; intros n Hone; [done|]. cbn [length seq map]. cbn [omap list_omap]. rewrite (Hone 0%nat e eq_refl). f_equal.
  rewrite <- seq_shift, map_map. rewrite <- (IH (n + 1)).
  - f_equal. apply map_ext. intros i. f_equal. lia.
  - intros i e2 Hi. rewrite <- (Hone (S i) e2 Hi). f_equal. f_equal. lia.
Qed.
End saving.

Lemma item_device_row tree dev : row_at tree dev = snd <$> item_device tree dev.
Proof. unfold row_at, item_device. destruct (tree !! dev.1) as [s|]; [|done]. cbn. by destruct (rows s !! dev.2). Qed.

Lemma items_rows t1 s t2 : omap (item_device (t1 ++ s :: t2)) (map (pair (length t1)) (seq 0 (length (rows s)))) = map (fun r => (url s, r)) (rows s).
Proof.
  unfold item_device. assert ((t1 ++ s :: t2) !! length t1 = Some s) as Hs by (by rewrite lookup_app_r, Nat.sub_diag by lia).
  assert (forall r1 r2, rows s = r1 ++ r2 -> omap (fun dev : nat * nat => s ← (t1 ++ s :: t2) !! dev.1; r ← rows s !! dev.2; Some (url s, r)) (map (pair (length t1)) (seq (length r1) (length r2)))
    = map (fun r => (url s, r)) r2) as H; [|exact (H [] (rows s) eq_refl)].
  intros r1 r2. revert r1. induction r2 as [|r r2 IH]; intros r1 Hr; [done|]. cbn [length seq map]. cbn [omap list_omap fst snd].
  rewrite Hs. cbn [mbind option_bind]. rewrite Hr at 1. rewrite lookup_app_r, Nat.sub_diag by lia. cbn [lookup list_lookup mbind option_bind]. f_equal.
  specialize (IH (r1 ++ [r])). rewrite length_app, Nat.add_comm in IH. apply IH. by rewrite <- app_assoc.
Qed.

Lemma items_flat tree : omap (item_device tree) (all_items tree) = flat tree.
Proof.
  assert (forall t1 t2, omap (item_device (t1 ++ t2)) (items_from (length t1) t2) = flat t2) as H; [|exact (H [] tree)].
  intros t1 t2. revert t1. induction t2 as [|s t2 IH]; intros t1; [done|]. cbn [items_from]. rewrite omap_app, flat_cons, items_rows. f_equal.
  specialize (IH (t1 ++ [s])). rewrite length_app, Nat.add_comm, <- app_assoc in IH. exact IH.
Qed.

(** The devices on_save takes. *)
Lemma get_devices_flat tree : omap (item_device tree) (get_devices tree) = filter (fun e => is_empty e.2 = false) (flat tree).
Proof.
  rewrite <- items_flat. unfold get_devices. induction (all_items tree) as [|dev l IH]; [done|].
  cbn [omap list_omap]. destruct (item_device tree dev) as [e|] eqn:He.
  - assert (row_at tree dev = Some e.2) as Hr by (by rewrite item_device_row, He). destruct (is_empty e.2) eqn:Hem.
    + rewrite filter_cons_False by (rewrite Hr; congruence). rewrite filter_cons_False by congruence. exact IH.
    + rewrite filter_cons_True by (by rewrite Hr). rewrite filter_cons_True by done. cbn [omap list_omap]. rewrite He. by f_equal.
  - assert (row_at tree dev = None) as Hr by (by rewrite item_device_row, He). rewrite filter_cons_False by (by rewrite Hr). exact IH.
Qed.

Lemma find_last_of_spec c s n : find_last_of c s = Some n -> s = take n s ++ c :: drop (S n) s.
Proof.
  revert n. induction s as [|x s IH]; intros n; [done|]. cbn [find_last_of]. destruct (find_last_of c s) as [m|].
  - intros [= <-]. cbn. f_equal. by apply IH.
  - destruct (Z.eqb_spec x c) as [->|]; [|done]. intros [= <-]. cbn. by rewrite drop_0.
Qed.

Lemma split_server_url_join u h s : split_server_url u = Some (h, s) -> u = h ++ 58 :: s.
Proof. unfold split_server_url. destruct (find_last_of 58 u) as [n|] eqn:Hn; [|done]. cbn. intros [= <- <-]. by apply find_last_of_spec. Qed.

Lemma row_eq (r1 r2 : row) : length r1 = DEV_COL_URL -> length r2 = DEV_COL_URL -> (forall j, (j <= 10)%nat -> get r1 j = get r2 j) -> r1 = r2.
Proof.
  intros H1 H2 Hg. apply list_eq_same_length with (n := DEV_COL_URL); [done|done|]. intros i x y Hi Hx Hy.
  specialize (Hg i). unfold get in Hg. rewrite !nth_lookup, Hx, Hy in Hg. apply Hg. unfold DEV_COL_URL in Hi. lia.
Qed.

(** The row of a device that was saved and loaded again. *)
Definition restored (r : row) : row :=
  [get r COL_BUSID; []; get r COL_SPEED; get r COL_VENDOR; get r COL_PRODUCT; to_string unplugged;
   if is_persistent r then g_persistent_mark else []; get r COL_NOTES; get r COL_DEVID; get r COL_SERIAL; []].

Section restoring.
Context (to_utf8 : list Z -> list byte) `{!Inj (=) (=) to_utf8}.

Lemma saved_row_get e col : get (saved_row e) col = if has_flag get_saved_flags col then get e.2 col else get (set no_columns DEV_COL_URL e.1) col.
Proof. unfold saved_row. apply get_set_saved_columns. by rewrite length_set. Qed.

Lemma saved_row_key e : dc_key (saved_row e) = key e.
Proof. unfold dc_key, key, get_url. by rewrite !saved_row_get. Qed.

Lemma loaded_restored e persistent :
  contains_persistent persistent (persistent_of to_utf8 (set (saved_row e) COL_STATE (to_string unplugged))) = is_persistent e.2 ->
  loaded_row to_utf8 (new_row (get e.2 COL_BUSID)) (saved_row e) persistent = restored e.2.
Proof.
  intros Hp. unfold loaded_row. rewrite Hp. pose proof (length_new_row (get e.2 COL_BUSID)) as Hl.
  assert (length (saved_row e) = DEV_COL_CNT) as Hsl by (unfold saved_row; by rewrite length_set_saved_columns, length_set).
  unfold restored. destruct (is_persistent e.2).
  all: match goal with |- update_row ?r ?dc ?f = _ => destruct (update_row_spec r dc f Hl) as (H1 & H2 & H3) end.
  all: apply row_eq; [done|done|]; intros j Hj; destruct j as [|j]; [change 0%nat with COL_BUSID; rewrite H2, get_new_row; done|].
  all: rewrite H3 by lia; do 10 (destruct j as [|j]; [match goal with |- context [has_flag ?f ?c] => let b := eval vm_compute in (has_flag f c) in change (has_flag f c) with b end; cbv iota;
    first [by rewrite get_new_row | rewrite ?get_set_ne by done; first [rewrite saved_row_get; reflexivity | rewrite get_set_eq by (rewrite ?length_set, Hsl; unfold DEV_COL_CNT, COL_STATE, COL_PERSISTENT; lia); reflexivity]]|]); lia.
Qed.

(** on_load with devices that are not in the tree. *)
Lemma load_fresh tree saved persistent : tree_ok tree -> NoDup (map dc_key saved) -> Forall (fun dc => row_of tree (dc_key dc) = None) saved ->
  exists tree', load_loop to_utf8 tree saved persistent = Some tree' /\ tree_ok tree' /\
    Forall (fun dc => row_of tree' (dc_key dc) = Some (loaded_row to_utf8 (new_row (get dc COL_BUSID)) dc persistent)) saved /\
    forall k, k ∉ map dc_key saved -> row_of tree' k = row_of tree k.
Proof.
  revert tree. induction saved as [|dc saved IH]; intros tree Ht Hn Hf; [exists tree; split; [done|]; split; [done|]; by split|].
  cbn [map] in *. apply list.NoDup_cons in Hn as [Hn1 Hn2]. apply Forall_cons_1 in Hf as [Hf1 Hf2].
  destruct (load_step to_utf8 tree dc saved persistent Ht) as (t1 & -> & Ht1 & Hrow).
  destruct (IH t1 Ht1 Hn2) as (t2 & -> & Ht2 & Hall & Hother).
  - apply list.Forall_forall. intros x Hx. rewrite Hrow. rewrite decide_False.
    + by apply list.Forall_forall with (x := x) in Hf2.
    + intros He. apply Hn1. rewrite <- He. by apply (list_elem_of_fmap_2 dc_key).
  - exists t2. split; [done|]. split; [done|]. split.
    + constructor; [|done]. by rewrite Hother, Hrow, decide_True, Hf1 by done.
    + intros k Hk. rewrite Hother, Hrow by set_solver. apply decide_False. set_solver.
Qed.

Lemma find_row_elem l e : NoDup (map key l) -> e ∈ l -> find_row l (key e) = Some e.2.
Proof.
  induction l as [|x l IH]; intros Hn He; [by apply elem_of_nil in He|]. cbn [map] in Hn. apply list.NoDup_cons in Hn as [Hx Hn]. cbn [find_row].
  apply elem_of_cons in He as [->|He]; [by rewrite bool_decide_eq_true_2|]. rewrite bool_decide_eq_false_2; [by apply IH|].
  intros Hk. apply Hx. rewrite Hk. by apply (list_elem_of_fmap_2 key).
Qed.

Definition pd_of (e : list Z * row) : persistent_device := make_persistent_device to_utf8 e.1 (get e.2 COL_BUSID) (get e.2 COL_SERIAL).

(** Devices of the tree have the same location only when they are the same. *)
Lemma pd_location_key e1 e2 : is_Some (split_server_url e1.1) -> is_Some (split_server_url e2.1) ->
  pd_location (pd_of e1) = pd_location (pd_of e2) -> key e1 = key e2.
Proof.
  intros [[h1 s1] H1] [[h2 s2] H2]. unfold pd_of, make_persistent_device. rewrite H1, H2. cbn. intros [= Hh Hs Hb].
  apply (inj to_utf8) in Hh, Hs, Hb. apply split_server_url_join in H1, H2. unfold key. congruence.
Qed.

Lemma contains_saved l e : NoDup (map key l) -> Forall (fun e => is_Some (split_server_url e.1)) l -> e ∈ l ->
  contains_persistent (map pd_of (filter (fun e => is_persistent e.2 = true) l)) (pd_of e) = is_persistent e.2.
Proof.
  intros Hn Hs He. unfold contains_persistent. apply eq_true_iff_eq. rewrite existsb_exists. split.
  - intros (x & Hx & Heq). apply bool_decide_eq_true in Heq. apply list_elem_of_In, list_elem_of_fmap in Hx as (e' & -> & Hin).
    apply list_elem_of_filter in Hin as [Hp Hin]. apply pd_location_key in Heq; [|by apply list.Forall_forall with (x := e') in Hs|by apply list.Forall_forall with (x := e) in Hs].
    pose proof (find_row_elem l e Hn He) as F1. pose proof (find_row_elem l e' Hn Hin) as F2. rewrite Heq in F2. congruence.
  - intros Hp. exists (pd_of e). rewrite bool_decide_eq_true_2 by done. split; [|done]. apply list_elem_of_In, (list_elem_of_fmap_2 pd_of).
    by apply list_elem_of_filter.
Qed.

Lemma find_row_filter (P : row -> bool) l k : NoDup (map key l) ->
  find_row (filter (fun e => P e.2 = false) l) k = (r ← find_row l k; if P r then None else Some r).
Proof.
  induction l as [|e l IH]; intros Hn; [done|]. cbn [map] in Hn. apply list.NoDup_cons in Hn as [Hx Hn]. cbn [find_row].
  destruct (P e.2) eqn:Hp.
  - rewrite filter_cons_False by congruence. case_bool_decide as Hk; [|by apply IH]. cbn. rewrite Hp. rewrite IH by done. subst k. by rewrite find_row_absent.
  - rewrite filter_cons_True by done. cbn [find_row]. case_bool_decide; [cbn; by rewrite Hp|by apply IH].
Qed.

Lemma key_filter_NoDup (P : list Z * row -> Prop) `{forall e, Decision (P e)} l : NoDup (map key l) -> NoDup (map key (filter P l)).
Proof. intros Hn. eapply sublist_NoDup; [exact Hn|]. apply (fmap_sublist key), sublist_filter. Qed.


Lemma pd_of_saved e : persistent_of to_utf8 (set (saved_row e) COL_STATE (to_string unplugged)) = pd_of e.
Proof. unfold persistent_of, pd_of, get_url. by rewrite !get_set_ne, !saved_row_get by done. Qed.

Section configured.
Context {C : Type} `{Config C} (expand : list Z -> list Z) `{!ConfigLaws C expand}.

(** After on_save, on_load of an empty tree makes a row for every device that was not empty, and none else.
    The row has the texts that are saved, the state unplugged, no port and no source, and it is marked persistent exactly when the row was,
    in whatever order the configuration lists its groups. *)
Lemma saved_devices_restored (cfg : C) tree : tree_ok tree -> Forall (fun s => is_Some (split_server_url (url s))) tree ->
  Forall (kept expand) (filter (fun e => is_empty e.2 = false) (flat tree)) -> Z.of_nat (length (flat tree)) < 2 ^ 32 ->
  forall saved, saved ≡ₚ get_saved (on_save to_utf8 cfg tree).1 -> exists tree', on_load to_utf8 [] saved (on_save to_utf8 cfg tree).2 = Some tree' /\ tree_ok tree' /\
    forall k, row_of tree' k = (r ← row_of tree k; if is_empty r then None else Some (restored r)).
Proof.
  intros Ht Hu Hk Hlen saved Hsaved. unfold on_save, save in *. rewrite get_devices_flat in *. cbn [fst snd] in *.
  set (l := filter (fun e => is_empty e.2 = false) (flat tree)) in *.
  assert (NoDup (map key l)) as Hn by (apply key_filter_NoDup, t_keys, Ht).
  assert (Forall (fun e => is_Some (split_server_url e.1)) l) as Hs.
  { apply list.Forall_forall. intros [u r] He. apply list_elem_of_filter in He as [_ He]. apply elem_of_flat in He as (s & Hin & <- & _).
    by apply list.Forall_forall with (x := s) in Hu. }
  rewrite (get_saved_save expand cfg l) in Hsaved; [|eapply Z.le_lt_trans; [|exact Hlen]; apply inj_le, length_filter|done].
  assert (NoDup (map dc_key saved)) as Hns.
  { assert (map dc_key saved ≡ₚ map key l) as ->; [|done]. rewrite Hsaved, map_map. erewrite map_ext; [done|]. apply saved_row_key. }
  destruct (load_fresh [] saved (map pd_of (filter (fun e => is_persistent e.2 = true) l))) as (t & Hload & Hok & Hall & Hother); [apply tree_ok_nil|done|by apply list.Forall_forall|].
  exists t. assert (map (fun '(u, r) => make_persistent_device to_utf8 u (get r COL_BUSID) (get r COL_SERIAL)) (filter (fun d => is_persistent d.2 = true) l) =
    map pd_of (filter (fun e => is_persistent e.2 = true) l)) as -> by (apply map_ext; by intros []).
  split; [done|]. split; [done|]. intros k. assert ((r ← row_of tree k; if is_empty r then None else Some (restored r)) = restored <$> find_row l k) as ->.
  { unfold l. rewrite (find_row_filter is_empty (flat tree) k (t_keys _ Ht)). fold (row_of tree k). destruct (row_of tree k) as [r|]; [cbn; by destruct (is_empty r)|done]. }
  destruct (decide (k ∈ map key l)) as [Hin|Hin].
  - apply list_elem_of_fmap in Hin as (e & -> & He). rewrite (find_row_elem l e Hn He). rewrite <- saved_row_key.
    apply list.Forall_forall with (x := saved_row e) in Hall; [|rewrite Hsaved; by apply (list_elem_of_fmap_2 saved_row)].
    rewrite Hall, saved_row_get. cbn [fmap option_fmap option_map]. f_equal. apply (loaded_restored e). rewrite pd_of_saved. by apply contains_saved.
  - rewrite find_row_absent by done. rewrite Hother; [done|]. intros Hx. apply Hin.
    apply list_elem_of_fmap in Hx as (dc & -> & Hdc). rewrite Hsaved in Hdc. apply list_elem_of_fmap in Hdc as (e & -> & He).
    rewrite saved_row_key. by apply (list_elem_of_fmap_2 key).
Qed.
End configured.
End restoring.

(** ** The dialog *)

Lemma dialog_boxes_computed : forall a b c d e f g h i j k,
  dialog_boxes (dialog_policy true [a; b; c; d; e; f; g; h; i; j; k]) = (true, [a; b; c; d; e; f; g; h; i; j; k]).
Proof. intros [] [] [] [] [] [] [] [] [] [] []; vm_compute; reflexivity. Qed.

(** The dialog opens with the boxes it was closed with, while filtering is enabled. *)
Lemma dialog_reopened checked : length checked = length device_type_categories -> dialog_boxes (dialog_policy true checked) = (true, checked).
Proof. intros H. do 12 (destruct checked as [|? checked]; try discriminate H). apply dialog_boxes_computed. Qed.

(** ** Examples *)

Module Demo.

(** An encoding of texts by bytes. *)
Fixpoint bits (p : positive) : list byte := match p with xH => [] | xO p => x30 :: bits p | xI p => x31 :: bits p end.
Definition to_utf8 (s : list Z) : list byte := bits (encode s).
Definition from_utf8 (s : list byte) : list Z := map b2z s.

Lemma bits_inj p q : bits p = bits q -> p = q.
Proof. revert q. induction p as [p IH|p IH|]; intros [q|q|]; cbn; try done; intros [= H]; f_equal; by apply IH. Qed.

#[local] Instance to_utf8_inj : Inj (=) (=) to_utf8.
Proof. intros a b H. apply bits_inj in H. by apply (inj encode) in H. Qed.

Definition no_ids : UsbIds.ids := {| UsbIds.m_vendor := ∅; UsbIds.m_class := ∅ |}.

(** A configuration is the list of what was written to it. *)
Definition cfg : Type := list (list Z * list Z * list Z).

#[local] Instance cfg_config : Config cfg := {
  delete_devices c := [];
  write c g k v := (g, k, v) :: c;
  groups c := remove_dups (map (fun x => x.1.1) c);
  read c g k := match find (fun x => bool_decide (x.1 = (g, k))) c with Some x => x.2 | None => [] end }.

#[local] Instance cfg_laws : ConfigLaws cfg (fun v => v).
Proof.
  split; [done|done| |].
  - intros c g k v. cbn. destruct (decide_rel (∈) g (map (fun x => x.1.1) c)) as [H|H].
    + by rewrite bool_decide_eq_true_2 by (by apply elem_of_remove_dups).
    + by rewrite bool_decide_eq_false_2 by (by rewrite elem_of_remove_dups).
  - intros c g k v g' k'. cbn. repeat case_bool_decide; naive_solver.
Qed.

Definition host : list byte := [x70; x63].
Definition port_name : list byte := [x33; x32; x34; x30].
Definition place : device_location := {| Client.hostname := host; Client.service := port_name; Client.busid := [x31; x2d; x31] |}.

Definition unknown_device : imported_device :=
  {| location := place; port := 0; devid := 0; speed := UsbLowSpeed; vendor := 0; product := 0; serial := [] |}.
Definition mouse : imported_device :=
  {| location := place; port := 1; devid := 0x10002; speed := UsbHighSpeed; vendor := 0x46d; product := 0xc077; serial := [] |}.

Definition event_of (d : imported_device) (st source : Z) : event :=
  {| e_state := {| ds_device := d; ds_state := st; ds_source := source |}; e_persistent := []; e_saved := [] |}.

(** An attempt, its success, and a late report of another attempt. *)
Definition attempts : list event := [event_of unknown_device connecting 7; event_of mouse plugged 7; event_of unknown_device disconnected 5].

Lemma attempts_ok : Forall (fun e => device_ok (ds_device (e_state e))) attempts.
Proof. repeat constructor; done. Qed.

Lemma rows_follow_events_witness : exists tree r, run_events from_utf8 from_utf8 to_utf8 no_ids [] attempts = Some tree /\
  row_of tree (loc_key from_utf8 place) = Some r /\ shows_plugged mouse 7 r.
Proof.
  destruct (rows_follow_events from_utf8 from_utf8 to_utf8 no_ids [] attempts tree_ok_nil attempts_ok) as (tree & Hrun & _ & _ & Hp).
  destruct (Hp (loc_key from_utf8 place) [event_of unknown_device connecting 7] (event_of mouse plugged 7) [event_of unknown_device disconnected 5]
    (default [] (default None (row_after from_utf8 from_utf8 to_utf8 no_ids None [event_of unknown_device connecting 7])))) as (r & Hr & Hs);
    [vm_compute; reflexivity|apply row_after_follows; [repeat constructor; discriminate|discriminate|vm_compute; reflexivity]
    |reflexivity|reflexivity|discriminate|cbn; lia| |].
  - constructor; [|constructor]. split; [discriminate|]. cbn. split; [lia|discriminate].
  - exists tree, r. split; [exact Hrun|]. split; [exact Hr|exact Hs].
Defined.

Definition session : list gui_op :=
  [DeviceState (event_of unknown_device connecting 7); Reload (Some [mouse]) [] [] true; ToggleAuto [(0, 0)%nat]; EditNotes (0, 0)%nat [wide "mine"%string]].

Lemma window_consistent_witness : exists tree, gui_run from_utf8 from_utf8 to_utf8 no_ids [] session = Some tree /\ tree_ok tree /\
  ((fun r => get r COL_NOTES) <$> row_of tree (loc_key from_utf8 place)) = Some (wide "mine"%string).
Proof.
  destruct (window_consistent from_utf8 from_utf8 to_utf8 no_ids session [] tree_ok_nil) as (tree & Hrun & Hok).
  - constructor; [done|]. constructor; [|by repeat constructor]. split; [constructor|]. split; [by repeat constructor|apply list.NoDup_singleton].
  - exists tree. split; [exact Hrun|]. split; [exact Hok|]. vm_compute in Hrun. injection Hrun as <-. vm_compute. reflexivity.
Defined.

(** The tree of that session: one device, marked, with a note. *)
Definition shown : list server := default [] (gui_run from_utf8 from_utf8 to_utf8 no_ids [] session).

Definition storage_only : device_filter_policy := {| Client.mode := whitelist; Client.entries := [class_entry x08] |}.

Definition exported_keyboard : usb_device :=
  {| u_path := [x2f; x73]; u_busid := [x31; x2d; x31]; u_busnum := 1; u_devnum := 2; u_speed := UsbLowSpeed; u_idVendor := 0x46d; u_idProduct := 0xc31c;
     u_bcdDevice := 0x110; u_class := 0; u_subclass := 0; u_protocol := 0; u_configuration := 1; u_configurations := 1; u_interfaces := 1 |}.

Lemma blocked_devices_are_marked_witness : exists cbs tree r, device_events 0 Remote.Demo.exported = Some cbs /\
  add_exported_devices from_utf8 from_utf8 to_utf8 no_ids [] host port_name [] [] (Some storage_only) cbs true = Some tree /\
  row_of tree (loc_key from_utf8 place) = Some r /\ get r COL_NOTES = wide "Blocked: interface class 03"%string.
Proof.
  destruct (blocked_devices_are_marked from_utf8 from_utf8 to_utf8 no_ids host port_name [] [] storage_only Remote.Demo.exported [(exported_keyboard, [Remote.Demo.hid_interface])] [])
    as (cbs & tree & Hcbs & Hadd & _ & Hrows & _).
  - apply tree_ok_nil.
  - reflexivity.
  - constructor; [|constructor]. split; vm_compute; reflexivity.
  - vm_compute. reflexivity.
  - repeat constructor; done.
  - apply list.NoDup_singleton.
  - apply Forall2_cons_1 in Hrows as [(r & Hr & _ & _ & Hi) _]. exists cbs, tree, r. split; [exact Hcbs|]. split; [exact Hadd|]. split; [exact Hr|].
    rewrite (Hi ltac:(left; reflexivity) [] Remote.Demo.hid_interface [] eq_refl ltac:(constructor)); [vm_compute; reflexivity|].
    unfold interface_admitted. rewrite <- (allowed_admits storage_only _ _ _ eq_refl). vm_compute. discriminate.
Defined.

(** A row that is only an attempt goes when another source reports a disconnection. *)
Lemma attempt_removed_by_other_source : exists tree,
  run_events from_utf8 from_utf8 to_utf8 no_ids [] [event_of unknown_device connecting 7; event_of unknown_device disconnected 5] = Some tree /\
  row_of tree (loc_key from_utf8 place) = None.
Proof. eexists. split; vm_compute; reflexivity. Qed.

(** A device that is plugged in, but new to the tree, is shown with the texts saved earlier, not its own. *)
Lemma saved_texts_hide_live_ones : exists tree r,
  run_events from_utf8 from_utf8 to_utf8 no_ids []
    [{| e_state := {| ds_device := mouse; ds_state := plugged; ds_source := 7 |}; e_persistent := [];
        e_saved := [set (set (make_cmp_key from_utf8 place) COL_SPEED (wide "Low"%string)) COL_DEVID (wide "00030004"%string)] |}] = Some tree /\
  row_of tree (loc_key from_utf8 place) = Some r /\ get r COL_SPEED = wide "Low"%string /\ get r COL_DEVID = wide "00030004"%string /\
  speed mouse = UsbHighSpeed /\ devid mouse = 0x10002.
Proof. do 2 eexists. split; [vm_compute; reflexivity|]. split; [vm_compute; reflexivity|]. vm_compute. done. Qed.

(** The note that a device would be blocked stays when the list is read again after the policy was changed. *)
Lemma blocked_note_stays : exists cbs tree1 tree2 r, device_events 0 Remote.Demo.exported = Some cbs /\
  add_exported_devices from_utf8 from_utf8 to_utf8 no_ids [] host port_name [] [] (Some storage_only) cbs true = Some tree1 /\
  add_exported_devices from_utf8 from_utf8 to_utf8 no_ids tree1 host port_name [] [] (Some {| Client.mode := whitelist; Client.entries := [class_entry x03] |}) cbs true = Some tree2 /\
  row_of tree2 (loc_key from_utf8 place) = Some r /\ get r COL_NOTES = wide "Blocked: interface class 03"%string.
Proof. do 4 eexists. split; [vm_compute; reflexivity|]. split; [vm_compute; reflexivity|]. split; [vm_compute; reflexivity|]. split; vm_compute; reflexivity. Qed.

(** Listing the devices of a server clears the source of a row it did not add. *)
Lemma listing_clears_source : exists cbs tree1 tree2 r1 r2, device_events 0 Remote.Demo.exported = Some cbs /\
  run_events from_utf8 from_utf8 to_utf8 no_ids [] [event_of unknown_device connecting 7] = Some tree1 /\
  row_of tree1 (loc_key from_utf8 place) = Some r1 /\ get r1 COL_SOURCE_ID = wide "7"%string /\
  add_exported_devices from_utf8 from_utf8 to_utf8 no_ids tree1 host port_name [] [] None cbs true = Some tree2 /\
  row_of tree2 (loc_key from_utf8 place) = Some r2 /\ get r2 COL_STATE = get r1 COL_STATE /\ get r2 COL_SOURCE_ID = [].
Proof.
  do 5 eexists. split; [vm_compute; reflexivity|]. split; [vm_compute; reflexivity|]. split; [vm_compute; reflexivity|]. split; [vm_compute; reflexivity|].
  split; [vm_compute; reflexivity|]. split; [vm_compute; reflexivity|]. split; vm_compute; reflexivity.
Qed.
End Demo.
