(* ===== verification/Restore.v ===== *)
(** * Saving the window's devices and loading them again

    on_save and on_load of userspace/wusbip together with the driver, which keeps the list of the persistent devices:
    what the window stores with set_persistent is what it reads with get_persistent when it is started again. *)

From S2P Require Import Prelude Parser DescPatch Policy Session Filter Vhci Events Attach Device Ioctl Client Persist Tree.

Section restoring.
Context {W : Type} `{Wdf W} `{AttachWdf W} `{Udecx W} `{Controller W}.
Context {R : Type} `{Policy.Registry R} {K : Type} `{HK : PersistentKeyLaws K}.
Context (dos_error : ntstatus -> win_error) (junk : nat -> list byte).
Context (unicode_to_utf8 : nat -> list Z -> ntstatus * list byte).
Context (utf8_to_unicode_n : list byte -> ntstatus * list Z).
Context (hash_string : list Z -> ntstatus * Z) (pool : Z -> bool).
Context (source_of : device -> Z) (wi_source : request -> Z) (stack pad : list byte) (new_request : world W -> request).
Context (wide : list byte -> option (list Z)) `{!Codec wide}.
Context (utf8_to_wchar : list byte -> option (list Z)) (wchar_to_utf8 : list Z -> option (list byte)).
Context `{!Conversions wide utf8_to_wchar wchar_to_utf8 unicode_to_utf8}.
Context (to_utf8 : list Z -> list byte) `{!Inj (=) (=) to_utf8}.
Context {C : Type} `{Config C} (expand : list Z -> list Z) `{!ConfigLaws C expand}.

#[local] Abbreviation control := (driver_control dos_error junk unicode_to_utf8 utf8_to_unicode_n hash_string pool source_of wi_source
                       stack pad new_request).

(** C35: devices that are saved come back.  on_save writes the devices of the window, but for those nothing is known of, to the configuration and gives those that are marked persistent
    to the driver; when the driver has stored them, get_persistent returns them, and on_load of an empty tree makes a row for every device that was saved, and none else.
    The row has the texts that were saved, the state unplugged, no port and no source, and it is marked persistent exactly when the row was,
    in whatever order the configuration lists its groups.  The texts must be ones the configuration gives back as they were written - it expands
    environment variables in what it reads -, and the names and serial numbers of the marked devices free of commas and terminators, in a value of at most 511 units. *)
Theorem saved_devices_come_back (cfg : C) (tree : list server) (s : driver) (strs : list (list Z)) (fuel : nat) :
  let '(cfg', marked) := on_save to_utf8 cfg tree in
  tree_ok tree -> Forall (fun s => is_Some (split_server_url (url s))) tree ->
  Forall (kept expand) (filter (fun e => is_empty e.2 = false) (flat tree)) -> Z.of_nat (length (flat tree)) < 2 ^ 32 ->
  key_open (d_key s) = STATUS_SUCCESS -> (1 <= fuel)%nat -> Forall2 (stored_string wide) marked strs -> (length (multi_sz strs) <= 511)%nat ->
  exists err stored s', set_persistent control utf8_to_wchar marked s = Some (err, stored, s') /\
    (stored = true -> exists err' persistent s'', get_persistent control wchar_to_utf8 fuel s' = Some (err', Some persistent, s'') /\
       forall saved, saved ≡ₚ get_saved cfg' -> exists tree', on_load to_utf8 [] saved persistent = Some tree' /\ tree_ok tree' /\
         forall k, row_of tree' k = (r ← row_of tree k; if is_empty r then None else Some (restored r))).
Proof.
  destruct (on_save to_utf8 cfg tree) as [cfg' marked] eqn:Hsave. intros Ht Hu Hk Hlen Hopen Hfuel Hstrs Hmax.
  edestruct (set_persistent_spec dos_error junk unicode_to_utf8 utf8_to_unicode_n hash_string pool source_of wi_source stack pad new_request wide
    utf8_to_wchar wchar_to_utf8 s marked strs Hstrs) as (err & stored & s' & Hset & _ & _ & _ & Hgood).
  exists err, stored, s'. split; [exact Hset|]. intros Hstored. destruct (Hgood Hstored) as [Hm Hkey].
  destruct (get_persistent_spec dos_error junk unicode_to_utf8 utf8_to_unicode_n hash_string pool source_of wi_source stack pad new_request wide
    utf8_to_wchar wchar_to_utf8 s' (d_key s) marked strs fuel Hstrs Hm Hkey Hopen Hmax Hfuel) as (err' & s2 & Hget & _).
  exists err', marked, s2. split; [exact Hget|]. intros saved Hsaved.
  destruct (saved_devices_restored to_utf8 expand cfg tree Ht Hu Hk Hlen saved) as (tree' & Hload & Hrest); [by rewrite Hsave|].
  rewrite Hsave in Hload. exists tree'. split; [exact Hload|exact Hrest].
Qed.
End restoring.

Module Demo.
#[local] Existing Instances Events.Demo.framework Attach.Demo.requests Ioctl.Demo.framework Controller.Demo.usb_stack
  Tree.Demo.to_utf8_inj Tree.Demo.cfg_config Tree.Demo.cfg_laws Persist.Demo.one_value_key Persist.Demo.one_value_key_laws
  Persist.Demo.ascii Persist.Demo.conversions.
Import Tree.Demo.

(** The window with the device of Tree.Demo, which is marked and has a note. *)
Definition saved : cfg * list persistent_device := on_save to_utf8 ([] : cfg) shown.

Definition strings : list (list Z) := map (fun d => map b2z (format_device d)) saved.2.

Lemma marked_strings : Forall2 (stored_string Persist.Demo.wide) saved.2 strings.
Proof.
  unfold strings. assert (exists d, saved.2 = [d]) as [d Hd] by (eexists; vm_compute; reflexivity). rewrite Hd. constructor; [|constructor].
  vm_compute in Hd. injection Hd as <-. match goal with |- stored_string _ ?d _ =>
    exists (map b2z (Client.hostname (pd_location d))), (map b2z (Client.service (pd_location d))), (map b2z (Client.busid (pd_location d))), (map b2z (pd_serial d)) end.
  split; [|vm_compute; reflexivity].
  split; [repeat split; apply (bool_decide_unpack _); exact I|apply (bool_decide_unpack _); exact I|vm_compute; reflexivity..].
Qed.

Lemma marked_stored :
  (fun r => snd (fst r)) <$> set_persistent Persist.Demo.control Persist.Demo.utf8_to_wchar saved.2 Persist.Demo.driver0 = Some true.
Proof. vm_compute. reflexivity. Qed.

Lemma saved_devices_come_back_witness : exists err s' err' persistent s'' tree' r,
  set_persistent Persist.Demo.control Persist.Demo.utf8_to_wchar saved.2 Persist.Demo.driver0 = Some (err, true, s') /\
  get_persistent Persist.Demo.control Persist.Demo.wchar_to_utf8 1 s' = Some (err', Some persistent, s'') /\
  on_load to_utf8 [] (get_saved saved.1) persistent = Some tree' /\
  row_of tree' (loc_key from_utf8 place) = Some r /\ get r COL_NOTES = map b2z [x6d; x69; x6e; x65] /\ get r COL_STATE = to_string unplugged /\ is_persistent r = true.
Proof.
  pose proof (saved_devices_come_back (R := one_value_registry) (HK := Persist.Demo.one_value_key_laws) Client.Demo.dos_error Client.Demo.junk
    Events.Demo.utf8 Controller.Demo.to_unicode Attach.Demo.hash_string (fun _ => true) (fun _ => 9) (fun _ => 8) (replicate 268 x55) [x00; x00; x00]
    Client.Demo.new_request Persist.Demo.wide Persist.Demo.utf8_to_wchar Persist.Demo.wchar_to_utf8 to_utf8 (fun v => v) ([] : cfg) shown
    Persist.Demo.driver0 strings 1) as Hx.
  change (on_save to_utf8 ([] : cfg) shown) with saved in Hx. rewrite (surjective_pairing saved) in Hx.
  destruct Hx as (err & stored & s' & Hset & Hback).
  - split.
    + vm_compute. apply list.NoDup_singleton.
    + vm_compute. apply list.NoDup_singleton.
    + vm_compute. by repeat constructor.
    + vm_compute. by repeat constructor.
  - vm_compute. constructor; [by eexists|constructor].
  - vm_compute. repeat constructor; try done.
  - vm_compute. reflexivity.
  - reflexivity.
  - exact (le_n 1).
  - exact marked_strings.
  - vm_compute. lia.
  - pose proof marked_stored as Hr. unfold Persist.Demo.control in Hr |- *. rewrite Hset in Hr. injection Hr as ->.
    destruct (Hback eq_refl) as (err' & persistent & s'' & Hget & Hload).
    destruct (Hload (get_saved saved.1) (Permutation_refl _)) as (tree' & Htree & _ & Hrow).
    exists err, s', err', persistent, s'', tree'. eexists. split; [exact Hset|]. split; [exact Hget|]. split; [exact Htree|].
    rewrite Hrow. split; [vm_compute; reflexivity|]. split; [vm_compute; reflexivity|]. split; vm_compute; reflexivity.
Defined.
End Demo.
