(* ===== verification/Devnode.v ===== *)
(** * The tool that creates the device node

    userspace/devnode/main.cpp: [install] creates the root-enumerated device node of the emulated controller and installs its
    driver, [remove] uninstalls the devices with a hardware identifier.  SetupAPI is an interface; messages
    about errors go to the standard error and are not modelled. *)

From Stdlib Require Import(notations) Strings.String.
From S2P Require Import Prelude Client Persist.

(** REG_MULTI_SZ with one string. *)
Definition make_hwid (hwid : list Z) : list Z := (hwid ++ [0]) ++ [0].

Definition ERROR_NO_MORE_ITEMS : win_error := WinError 259.

Inductive devpropkey : Type := DEVPKEY_Device_HardwareIds | DEVPKEY_Device_InstanceId.

(** SetupDiGetDeviceProperty: the property, the size of the buffer it needs, or another error. *)
Inductive property_answer : Type := PropertyDone (bs : list byte) | PropertyMore (actual : nat) | PropertyFailed (err : win_error).

(** SetupAPI over the devices of the machine, [S]: [D] is SP_DEVINFO_DATA, [H] an HDEVINFO. *)
Class SetupApi (S D H : Type) : Type := {
  SetupDiGetINFClass : S -> list Z -> option (Z * list Z);
  SetupDiCreateDeviceInfoList : S -> Z -> option H;
  SetupDiCreateDeviceInfo : S -> H -> list Z -> Z -> option D * S;
  SetupDiSetDeviceRegistryProperty : S -> D -> list byte -> bool * S;
  SetupDiCallClassInstaller : S -> D -> bool * S;
  SetupDiGetDeviceInstallParams : S -> D -> option Z;
  UpdateDriverForPlugAndPlayDevices : S -> list Z -> list Z -> bool * bool * S;
  SetupDiGetClassDevs : S -> option (list Z) -> option H;
  SetupDiEnumDeviceInfo : S -> H -> nat -> D + win_error;
  SetupDiGetDeviceProperty : S -> D -> devpropkey -> nat -> property_answer;
  DiUninstallDevice : S -> D -> option bool * S }.

Record devnode_install_args : Type := { in_infpath : list Z; in_hwid : list Z }.
Record devnode_remove_args : Type := { rm_hwid : list Z; rm_enumerator : list Z; rm_dry_run : bool }.

Definition GUID_NULL : Z := 0.
Definition DI_NEEDRESTART : Z := 0x80.
Definition DI_NEEDREBOOT : Z := 0x100.

Definition remind_reboot : list Z := wide "Reboot is requied to finish setup."%string ++ [10].

Definition as_wstring_view (v : list byte) : list Z := wide_of_bytes (length v / 2) v.

(** wprintf("%s\n") of an array of characters: [None] when no zero ends it. *)
Definition print_line (s : list Z) : option (list Z) := if bool_decide (0 ∈ s) then Some (take (wcsnlen s) s ++ [10]) else None.

(** enum_device_info, from the [i]-th element of the set: the visitor [func] says whether to stop; [st] is what it works on. *)
Fixpoint enum_device_info {D St : Type} (fuel : nat) (next : St -> nat -> D + win_error) (func : D -> St -> option (bool * St)) (i : nat) (st : St)
  : option (win_error * St) :=
  match fuel with
  | O => None
  | S fuel =>
      match next st i with
      | inl d => '(stop, st) ← func d st; if stop : bool then Some (ERROR_SUCCESS, st) else enum_device_info fuel next func (S i) st
      | inr err => Some (if bool_decide (err = ERROR_NO_MORE_ITEMS) then ERROR_SUCCESS else err, st)
      end
  end.

Section tool.
Context {S D H : Type} `{SetupApi S D H}.

(** REGSTR_VAL_MAX_HCID_LEN and MAX_DEVICE_ID_LEN of the SDK: sizes of the first buffer for a property. *)
Context (max_hcid max_id : nat).

(** ** Installing *)

Definition get_class_guid (s : S) (infname : list Z) : Z * list Z :=
  match SetupDiGetINFClass s infname with Some (guid, name) => (guid, name) | None => (GUID_NULL, []) end.

(** Whether it succeeded, and what it printed. *)
Definition install_devnode_and_driver (r : devnode_install_args) (s : S) : bool * list Z * S :=
  let '(class_guid, class_name) := get_class_guid s (in_infpath r) in
  if class_guid =? GUID_NULL then (false, [], s)
  else
    match SetupDiCreateDeviceInfoList s class_guid with
    | None => (false, [], s)
    | Some dev_list =>
        match SetupDiCreateDeviceInfo s dev_list class_name class_guid with
        | (None, s) => (false, [], s)
        | (Some dev_data, s) =>
            let '(set, s) := SetupDiSetDeviceRegistryProperty s dev_data (wide_bytes (make_hwid (in_hwid r))) in
            if negb set then (false, [], s)
            else
              let '(registered, s) := SetupDiCallClassInstaller s dev_data in
              if negb registered then (false, [], s)
              else
                match SetupDiGetDeviceInstallParams s dev_data with
                | None => (false, [], s)
                | Some flags =>
                    let reboot := negb (Z.land flags (Z.lor DI_NEEDREBOOT DI_NEEDRESTART) =? 0) in
                    let '(done, RebootRequired, s) := UpdateDriverForPlugAndPlayDevices s (in_hwid r) (in_infpath r) in
                    (done, if reboot || RebootRequired then remind_reboot else [], s)
                end
        end
    end.

(** ** Removing *)

(** The loop of get_device_property; [prop] is the size of the buffer. *)
Fixpoint get_device_property (fuel : nat) (s : S) (dd : D) (key : devpropkey) (prop : nat) : option (win_error * list byte) :=
  match fuel with
  | O => None
  | Datatypes.S fuel =>
      match SetupDiGetDeviceProperty s dd key prop with
      | PropertyDone bs => Some (ERROR_SUCCESS, bs)
      | PropertyMore actual => get_device_property fuel s dd key actual
      | PropertyFailed err => Some (err, [])
      end
  end.

(** What a removal works on: the devices, whether a restart is needed, the output. *)
Definition removal : Type := S * bool * list Z.

(** uninstall_device: it never stops the enumeration. *)
Definition uninstall_device (fuel : nat) (r : devnode_remove_args) (dd : D) (st : removal) : option (bool * removal) :=
  let '(s, reboot, out) := st in
  '(err, prop) ← get_device_property fuel s dd DEVPKEY_Device_HardwareIds max_hcid;
  if negb (bool_decide (err = ERROR_SUCCESS)) || bool_decide (prop = []) then Some (false, (s, reboot, out))
  else if negb (bool_decide (as_wstring_view prop = rm_hwid r)) then Some (false, (s, reboot, out))
  else if rm_dry_run r then
    '(err, prop) ← get_device_property fuel s dd DEVPKEY_Device_InstanceId max_id;
    if bool_decide (err = ERROR_SUCCESS) && negb (bool_decide (prop = [])) then
      line ← print_line (as_wstring_view prop); Some (false, (s, reboot, out ++ line))
    else Some (false, (s, reboot, out))
  else
    match DiUninstallDevice s dd with
    | (None, s) => Some (false, (s, reboot, out))
    | (Some NeedReboot, s) => Some (false, (s, if NeedReboot then true else reboot, out))
    end.

(** remove_devnode; [fuel] of the loop over the devices and of that for a property. *)
Definition remove_devnode (fuel fuel_property : nat) (r : devnode_remove_args) (s : S) : option (bool * list Z * S) :=
  let enumerator := if bool_decide (rm_enumerator r = []) then None else Some (rm_enumerator r) in
  match SetupDiGetClassDevs s enumerator with
  | None => Some (false, [], s)
  | Some di =>
      let r := {| rm_hwid := make_hwid (rm_hwid r); rm_enumerator := rm_enumerator r; rm_dry_run := rm_dry_run r |} in
      '(_, (s, reboot, out)) ← enum_device_info fuel (fun (st : removal) i => SetupDiEnumDeviceInfo st.1.1 di i) (uninstall_device fuel_property r) 0 (s, false, []);
      Some (true, out ++ (if reboot : bool then remind_reboot else []), s)
  end.
End tool.

(** ** What SetupAPI promises *)

(** A set of devices is a fixed list, and reading a property takes a buffer as long as it is.  Uninstalling a device leaves the others as they are. *)
Class SetupApiLaws (S D H : Type) `{SetupApi S D H} : Type := {
  members : H -> list D;
  property : S -> D -> devpropkey -> option (list byte);
  members_once : forall h, NoDup (members h);
  enum_members : forall s h i, SetupDiEnumDeviceInfo s h i = match members h !! i with Some d => inl d | None => inr ERROR_NO_MORE_ITEMS end;
  get_property : forall s d key n bs, property s d key = Some bs ->
    SetupDiGetDeviceProperty s d key n = if (length bs <=? n)%nat then PropertyDone bs else PropertyMore (length bs);
  get_no_property : forall s d key n, property s d key = None -> exists err, SetupDiGetDeviceProperty s d key n = PropertyFailed err /\ err <> ERROR_SUCCESS;
  instance_id_ends : forall s d bs, property s d DEVPKEY_Device_InstanceId = Some bs -> bs <> [] -> 0 ∈ as_wstring_view bs;
  uninstall_others : forall s d d' key, d' <> d -> property (DiUninstallDevice s d).2 d' key = property s d' key }.

(** A root-enumerated device node that was registered is in the sets of the devices, and keeps its identifiers; it is gone when uninstalling it succeeds, and uninstalling makes none. *)
Class InstallLaws (S D H : Type) `{SetupApiLaws S D H} : Type := {
  node : S -> D -> Prop;
  set_hwid : forall s d bs s', SetupDiSetDeviceRegistryProperty s d bs = (true, s') -> property s' d DEVPKEY_Device_HardwareIds = Some bs;
  registers : forall s d s', SetupDiCallClassInstaller s d = (true, s') ->
    node s' d /\ property s' d DEVPKEY_Device_HardwareIds = property s d DEVPKEY_Device_HardwareIds;
  update_keeps : forall s hwid inf b1 b2 s' d, UpdateDriverForPlugAndPlayDevices s hwid inf = (b1, b2, s') -> node s d ->
    node s' d /\ property s' d DEVPKEY_Device_HardwareIds = property s d DEVPKEY_Device_HardwareIds;
  uninstall_gone : forall s d reboot s', DiUninstallDevice s d = (Some reboot, s') -> ~ node s' d;
  uninstall_node : forall s d d', node (DiUninstallDevice s d).2 d' -> node s d';
  root_devs : forall s e h d, SetupDiGetClassDevs s e = Some h -> e ∈ [None; Some (wide "root"%string)] -> node s d -> d ∈ members h }.

Section removing.
Context {S D H : Type} `{SetupApiLaws S D H}.
Context (max_hcid max_id : nat).

(** The devices with exactly one hardware identifier, which is [hwid]. *)
Definition has_hwid (s : S) (hwid : list Z) (d : D) : bool :=
  match property s d DEVPKEY_Device_HardwareIds with
  | Some bs => negb (bool_decide (bs = [])) && bool_decide (as_wstring_view bs = make_hwid hwid)
  | None => false
  end.

(** Uninstalling devices one after another, and whether one asked for a restart. *)
Definition uninstalled (ds : list D) (s : S) (reboot : bool) : S * bool :=
  fold_left (fun '(s, reboot) d => let '(asked, s) := DiUninstallDevice s d in (s, if asked is Some true then true else reboot)) ds (s, reboot).

(** The line with the identifier of a device instance. *)
Definition instance_line (s : S) (d : D) : list Z :=
  match property s d DEVPKEY_Device_InstanceId with
  | Some bs => if bool_decide (bs = []) then [] else let id := as_wstring_view bs in take (wcsnlen id) id ++ [10]
  | None => []
  end.

(** Two calls are enough for a property. *)
Lemma property_read fuel s d key n : (2 <= fuel)%nat -> exists err,
  get_device_property fuel s d key n = Some (err, default [] (property s d key)) /\ (err = ERROR_SUCCESS <-> is_Some (property s d key)).
Proof.
  intros Hf. destruct fuel as [|[|fuel]]; [lia..|]. cbn [get_device_property]. destruct (property s d key) as [bs|] eqn:E.
  - exists ERROR_SUCCESS. rewrite (get_property _ _ _ _ _ E). destruct (_ <=? _)%nat; [by eauto|].
    rewrite (get_property _ _ _ _ _ E), Nat.leb_refl. by eauto.
  - destruct (get_no_property s d key n E) as (err & -> & He). exists err. split; [done|]. split; [done|]. by intros [? ?].
Qed.

(** One device of a removal. *)
Lemma uninstall_device_spec fuel r s d reboot out : (2 <= fuel)%nat ->
  uninstall_device max_hcid max_id fuel {| rm_hwid := make_hwid (rm_hwid r); rm_enumerator := rm_enumerator r; rm_dry_run := rm_dry_run r |} d (s, reboot, out) =
    Some (false, if has_hwid s (rm_hwid r) d then
      if rm_dry_run r then (s, reboot, out ++ instance_line s d) else (uninstalled [d] s reboot, out)
    else (s, reboot, out)).
Proof.
  intros Hf. unfold uninstall_device, has_hwid. cbn [rm_hwid rm_dry_run].
  destruct (property_read fuel s d DEVPKEY_Device_HardwareIds max_hcid Hf) as (err & -> & He). cbn [mbind option_bind].
  destruct (property s d DEVPKEY_Device_HardwareIds) as [bs|]; cbn [default from_option]; unfold id.
  2: { rewrite bool_decide_eq_false_2; [done|]. intros E. apply He in E. by destruct E. }
  rewrite (bool_decide_eq_true_2 (err = _)) by (apply He; eauto). cbn [negb orb andb]. repeat case_bool_decide; try done; cbn [negb andb].
  destruct (rm_dry_run r).
  - destruct (property_read fuel s d DEVPKEY_Device_InstanceId max_id Hf) as (err2 & -> & He2). cbn [mbind option_bind]. unfold instance_line.
    destruct (property s d DEVPKEY_Device_InstanceId) as [iid|] eqn:E; cbn [default from_option]; unfold id.
    + rewrite (bool_decide_eq_true_2 (err2 = _)) by (apply He2; eauto). case_bool_decide as Hid; cbn [negb andb]; [by rewrite app_nil_r|].
      unfold print_line. rewrite bool_decide_eq_true_2 by (by eapply instance_id_ends). done.
    + rewrite bool_decide_eq_false_2, app_nil_r; [done|]. intros Es. apply He2 in Es. by destruct Es.
  - cbn. by destruct (DiUninstallDevice s d) as [[[]|] s'].
Qed.
(** An enumeration that is not stopped visits every device of the set, in order. *)
Lemma enum_all {St : Type} (ds : list D) (next : St -> nat -> D + win_error) func step fuel :
  (forall st i, next st i = match ds !! i with Some d => inl d | None => inr ERROR_NO_MORE_ITEMS end) -> (forall d st, func d st = Some (false, step st d)) ->
  forall i st, (length ds - i < fuel)%nat -> enum_device_info fuel next func i st = Some (ERROR_SUCCESS, fold_left step (drop i ds) st).
Proof.
  intros Hn Hf. induction fuel as [|fuel IH]; intros i st Hl; [lia|]. cbn [enum_device_info]. rewrite Hn. destruct (ds !! i) as [d|] eqn:E.
  - rewrite Hf. cbn [mbind option_bind]. apply lookup_lt_Some in E as Hi. rewrite IH by lia. by rewrite (drop_S _ _ _ E).
  - apply lookup_ge_None in E. by rewrite drop_ge by lia.
Qed.

Definition remove_step (r : devnode_remove_args) (st : removal) (d : D) : removal :=
  let '(s, reboot, out) := st in
  if has_hwid s (rm_hwid r) d then if rm_dry_run r then (s, reboot, out ++ instance_line s d) else (uninstalled [d] s reboot, out) else st.

Lemma has_hwid_others s hwid d d' : d' <> d -> has_hwid (DiUninstallDevice s d).2 hwid d' = has_hwid s hwid d'.
Proof. intros Hd. unfold has_hwid. by rewrite uninstall_others. Qed.

(** The loop uninstalls those that had the identifier before it began. *)
Lemma removed_in_order r s0 ds : rm_dry_run r = false -> NoDup ds -> forall s reboot out, (forall d, d ∈ ds -> has_hwid s (rm_hwid r) d = has_hwid s0 (rm_hwid r) d) ->
  fold_left (remove_step r) ds (s, reboot, out) = (uninstalled (List.filter (has_hwid s0 (rm_hwid r)) ds) s reboot, out).
Proof.
  intros Hr. induction 1 as [|d ds Hd Hds IH]; intros s reboot out Hs; [done|]. cbn [fold_left List.filter]. unfold remove_step at 2.
  rewrite (Hs d) by left. destruct (has_hwid s0 (rm_hwid r) d); [|apply IH; intros; apply Hs; by right]. rewrite Hr. unfold uninstalled. cbn [fold_left].
  destruct (DiUninstallDevice s d) as [asked s'] eqn:E. apply IH. intros d' Hd'. rewrite <- (Hs d') by by right.
  rewrite <- (has_hwid_others s (rm_hwid r) d d') by set_solver. by rewrite E.
Qed.

Lemma listed_in_order r ds : rm_dry_run r = true -> forall s reboot out,
  fold_left (remove_step r) ds (s, reboot, out) = (s, reboot, out ++ flat_map (instance_line s) (List.filter (has_hwid s (rm_hwid r)) ds)).
Proof.
  intros Hr. induction ds as [|d ds IH]; intros s reboot out; cbn [fold_left List.filter flat_map]; [by rewrite app_nil_r|]. unfold remove_step at 2.
  destruct (has_hwid s (rm_hwid r) d); [|apply IH]. rewrite Hr, IH. cbn [flat_map]. by rewrite <- app_assoc.
Qed.

(** What [remove] does: it uninstalls each device that has the identifier once, and says when a restart is needed; a dry run prints their instances. *)
Lemma remove_devnode_spec fuel r s di : SetupDiGetClassDevs s (if bool_decide (rm_enumerator r = []) then None else Some (rm_enumerator r)) = Some di ->
  (length (members di) < fuel)%nat -> let ds := List.filter (has_hwid s (rm_hwid r)) (members di) in
  remove_devnode max_hcid max_id fuel 2 r s =
    Some (if rm_dry_run r then (true, flat_map (instance_line s) ds, s)
    else let '(s, reboot) := uninstalled ds s false in (true, if reboot then remind_reboot else [], s)).
Proof.
  intros Hd Hf. unfold remove_devnode. rewrite Hd.
  rewrite (enum_all (members di) _ _ (remove_step r)); [|intros; apply enum_members| |lia].
  2: { intros d [[s' reboot] out]. rewrite uninstall_device_spec by lia. done. }
  cbn [mbind option_bind]. rewrite drop_0. destruct (rm_dry_run r) eqn:Er.
  - rewrite listed_in_order by done. by rewrite app_nil_r.
  - rewrite (removed_in_order r s) by (done || apply members_once). by destruct (uninstalled _ _ _) as [s' []].
Qed.
End removing.

Section installing.
Context {S D H : Type} `{InstallLaws S D H}.
Context (max_hcid max_id : nat).

Lemma wide_of_wide_bytes ws : Forall is_u16 ws -> as_wstring_view (wide_bytes ws) = ws.
Proof.
  intros Hw. unfold as_wstring_view. rewrite length_wide_bytes. replace (2 * length ws / 2)%nat with (length ws + 0)%nat by (rewrite Nat.mul_comm, Nat.div_mul; lia).
  rewrite <- (app_nil_r (wide_bytes ws)), wide_of_bytes_app by done. apply app_nil_r.
Qed.

(** A successful installation leaves a node of the root enumerator with the identifier. *)
Lemma installed_node r s out s' : install_devnode_and_driver r s = (true, out, s') -> Forall is_u16 (in_hwid r) ->
  exists d, node s' d /\ has_hwid s' (in_hwid r) d = true.
Proof.
  unfold install_devnode_and_driver. destruct (get_class_guid s (in_infpath r)) as [guid name]. destruct (guid =? GUID_NULL); [done|].
  destruct (SetupDiCreateDeviceInfoList s guid) as [h|]; [|done]. destruct (SetupDiCreateDeviceInfo s h name guid) as [[d|] s1]; [|done].
  destruct (SetupDiSetDeviceRegistryProperty s1 d _) as [[] s2] eqn:E2; [|done]. cbn [negb].
  destruct (SetupDiCallClassInstaller s2 d) as [[] s3] eqn:E3; [|done]. cbn [negb]. destruct (SetupDiGetDeviceInstallParams s3 d) as [flags|]; [|done].
  destruct (UpdateDriverForPlugAndPlayDevices s3 (in_hwid r) (in_infpath r)) as [[done' reboot] s4] eqn:E4. intros E Hw. injection E as -> _ <-.
  apply set_hwid in E2. apply registers in E3 as [Hnode Hp]. destruct (update_keeps _ _ _ _ _ _ _ E4 Hnode) as [Hnode2 Hp2].
  exists d. split; [done|]. unfold has_hwid. rewrite Hp2, Hp, E2. rewrite wide_of_wide_bytes.
  - rewrite bool_decide_eq_false_2, bool_decide_eq_true_2; [done|done|]. unfold make_hwid. by destruct (in_hwid r).
  - unfold make_hwid. rewrite !list.Forall_app, !list.Forall_singleton. by repeat split.
Qed.
Lemma uninstalled_keeps ds s reboot d key : d ∉ ds -> property (uninstalled ds s reboot).1 d key = property s d key.
Proof.
  unfold uninstalled. revert s reboot. induction ds as [|d' ds IH]; intros s reboot Hd; [done|]. apply not_elem_of_cons in Hd as [Hd Hds].
  cbn [fold_left]. pose proof (uninstall_others s d' d key Hd) as Hu. destruct (DiUninstallDevice s d') as [asked s']. by rewrite IH.
Qed.

Lemma uninstalled_app ds ds' s reboot : uninstalled (ds ++ ds') s reboot = let '(s, reboot) := uninstalled ds s reboot in uninstalled ds' s reboot.
Proof. unfold uninstalled. rewrite fold_left_app. by destruct (fold_left _ ds _). Qed.

Lemma uninstalled_makes_none ds s reboot d : node (uninstalled ds s reboot).1 d -> node s d.
Proof.
  unfold uninstalled. revert s reboot. induction ds as [|d' ds IH]; intros s reboot; [done|]. cbn [fold_left].
  pose proof (uninstall_node s d' d) as Hu. destruct (DiUninstallDevice s d') as [asked s']. eauto.
Qed.

(** A device whose uninstallation succeeds is gone at the end. *)
Lemma uninstalled_gone pre d post s reboot : is_Some (DiUninstallDevice (uninstalled pre s reboot).1 d).1 ->
  ~ node (uninstalled (pre ++ d :: post) s reboot).1 d.
Proof.
  rewrite uninstalled_app. destruct (uninstalled pre s reboot) as [s1 reboot1]. cbn [fst]. intros [b Hb].
  replace (d :: post) with ([d] ++ post) by done. rewrite uninstalled_app. change (uninstalled [d] s1 reboot1) with (let '(asked, s) := DiUninstallDevice s1 d in (s, if asked is Some true then true else reboot1)).
  destruct (DiUninstallDevice s1 d) as [asked s2] eqn:E. cbn [fst] in Hb. subst asked. intros Hn. apply (uninstalled_makes_none post s2 (if b then true else reboot1)) in Hn. by apply (uninstall_gone s1 d b s2).
Qed.

(** C37: a device node that [install] created is found by [remove] with the same identifier, in all devices or in those of the root enumerator.
    Of the devices whose only hardware identifier is that one it calls DiUninstallDevice for each, once; those for which the call
    succeeds are gone then (the command succeeds also when a call fails, [failed_removal_succeeds], and a device with a second identifier is
    not found, [second_identifier_hides]); the others are left as they were. A dry run prints their instances and changes nothing. *)
Theorem installed_node_is_removed (r : devnode_install_args) (e : list Z) (s s1 : S) out di :
  install_devnode_and_driver r s = (true, out, s1) -> Forall is_u16 (in_hwid r) -> e ∈ [[]; wide "root"%string] ->
  SetupDiGetClassDevs s1 (if bool_decide (e = []) then None else Some e) = Some di ->
  let remove dry := remove_devnode max_hcid max_id (Datatypes.S (length (members di))) 2 {| rm_hwid := in_hwid r; rm_enumerator := e; rm_dry_run := dry |} s1 in
  exists d ds s2 reboot, remove false = Some (true, if reboot : bool then remind_reboot else [], s2) /\ (s2, reboot) = uninstalled ds s1 false /\
    node s1 d /\ d ∈ ds /\ NoDup ds /\ (forall d', d' ∈ ds <-> d' ∈ members di /\ has_hwid s1 (in_hwid r) d' = true) /\
    (forall pre d' post, ds = pre ++ d' :: post -> is_Some (DiUninstallDevice (uninstalled pre s1 false).1 d').1 -> ~ node s2 d') /\
    (forall d' key, d' ∉ ds -> property s2 d' key = property s1 d' key) /\ remove true = Some (true, flat_map (instance_line s1) ds, s1).
Proof.
  intros Hi Hw He Hd remove. destruct (installed_node r s out s1 Hi Hw) as (d & Hn & Hh). set (ds := List.filter (has_hwid s1 (in_hwid r)) (members di)).
  assert (forall d', d' ∈ ds <-> d' ∈ members di /\ has_hwid s1 (in_hwid r) d' = true) as Hds by (intros d'; unfold ds; rewrite !list_elem_of_In; apply filter_In).
  exists d, ds, (uninstalled ds s1 false).1, (uninstalled ds s1 false).2.
  assert (forall dry, remove dry = Some (if dry then (true, flat_map (instance_line s1) ds, s1)
    else let '(s, reboot) := uninstalled ds s1 false in (true, if reboot then remind_reboot else [], s))) as Hr.
  { intros dry. apply (remove_devnode_spec max_hcid max_id _ {| rm_hwid := in_hwid r; rm_enumerator := e; rm_dry_run := dry |} s1 di Hd). lia. }
  rewrite !Hr.
  assert (d ∈ members di) as Hm.
  { apply (root_devs s1 (if bool_decide (e = []) then None else Some e)); [done| |done].
    case_bool_decide; [by left|]. apply list_elem_of_In. apply list_elem_of_In in He. destruct He as [E|[E|[]]]; [by subst e|]. right. left. by rewrite E. }
  repeat split.
  - by destruct (uninstalled ds s1 false).
  - by destruct (uninstalled ds s1 false).
  - done.
  - by apply Hds.
  - apply NoDup_ListNoDup, List.NoDup_filter, NoDup_ListNoDup, members_once.
  - by apply Hds.
  - by apply Hds.
  - intros [H1' H2']. by apply Hds.
  - intros pre d' post ->. apply uninstalled_gone.
  - intros d' key. apply uninstalled_keeps.
Qed.
End installing.

(** ** Limits of [remove] *)

Section limits.
Context {S D H : Type} `{SetupApiLaws S D H}.
Context (max_hcid max_id : nat).

(** A device with a second identifier is not removed by its first. *)
Lemma second_identifier_hides s d hwid other : Forall is_u16 (make_hwid hwid) -> Forall is_u16 other -> other <> [] ->
  property s d DEVPKEY_Device_HardwareIds = Some (wide_bytes (hwid ++ [0] ++ other ++ [0; 0])) -> has_hwid s hwid d = false.
Proof.
  intros Hh Ho Hne Hp. unfold has_hwid. rewrite Hp, wide_of_wide_bytes.
  - rewrite (bool_decide_eq_false_2 (_ = make_hwid hwid)); [apply andb_false_r|]. unfold make_hwid. rewrite <- app_assoc. intros E.
    apply (f_equal length) in E. rewrite !length_app in E. cbn in E. destruct other; [done|cbn in E; lia].
  - unfold make_hwid in Hh. rewrite !list.Forall_app in *. destruct Hh as [[Hh _] _]. repeat split; [done|by constructor|done|by repeat constructor].
Qed.

(** The command succeeds also when a device could not be uninstalled. *)
Lemma failed_removal_succeeds fuel r s di d : SetupDiGetClassDevs s (if bool_decide (rm_enumerator r = []) then None else Some (rm_enumerator r)) = Some di ->
  (length (members di) < fuel)%nat -> rm_dry_run r = false -> members di = [d] -> has_hwid s (rm_hwid r) d = true -> DiUninstallDevice s d = (None, s) ->
  remove_devnode max_hcid max_id fuel 2 r s = Some (true, [], s).
Proof.
  intros Hd Hf Hr Hm Hh Hu. rewrite (remove_devnode_spec max_hcid max_id fuel r s di Hd Hf), Hr, Hm. cbn [List.filter]. rewrite Hh. unfold uninstalled. cbn [fold_left]. by rewrite Hu.
Qed.
End limits.

Module Demo.
(** A device by its index: its hardware identifiers, and whether it is registered. *)
Abbreviation machine := (list (option (list byte) * bool)).

Definition instance_id (d : nat) : list Z := wide "ROOT\USB\000"%string ++ [48 + Z.of_nat d mod 10; 0].

Definition prop (s : machine) (d : nat) (key : devpropkey) : option (list byte) :=
  match key with
  | DEVPKEY_Device_HardwareIds => '(bs, _) ← s !! d; bs
  | DEVPKEY_Device_InstanceId => Some (wide_bytes (instance_id d))
  end.

Definition set_registered (b : bool) (s : machine) (d : nat) : machine := alter (fun x => (x.1, b)) d s.

#[local] Instance setup : SetupApi machine nat (list nat) := {
  SetupDiGetINFClass s inf := Some (1, wide "USB"%string);
  SetupDiCreateDeviceInfoList s guid := Some [];
  SetupDiCreateDeviceInfo s h name guid := (Some (length s), s ++ [(None, false)]);
  SetupDiSetDeviceRegistryProperty s d bs := if decide (d < length s)%nat then (true, alter (fun x => (Some bs, x.2)) d s) else (false, s);
  SetupDiCallClassInstaller s d := if decide (d < length s)%nat then (true, set_registered true s d) else (false, s);
  SetupDiGetDeviceInstallParams s d := Some DI_NEEDREBOOT;
  UpdateDriverForPlugAndPlayDevices s hwid inf := (true, false, s);
  SetupDiGetClassDevs s e := Some (List.filter (fun d => if s !! d is Some (_, b) then b else false) (seq 0 (length s)));
  SetupDiEnumDeviceInfo s h i := match remove_dups h !! i with Some d => inl d | None => inr ERROR_NO_MORE_ITEMS end;
  SetupDiGetDeviceProperty s d key n :=
    match prop s d key with Some bs => if (length bs <=? n)%nat then PropertyDone bs else PropertyMore (length bs) | None => PropertyFailed (WinError 1) end;
  DiUninstallDevice s d := (Some false, set_registered false s d) }.

Lemma prop_set_registered b s d d' key : prop (set_registered b s d) d' key = prop s d' key.
Proof.
  destruct key; [|done]. unfold prop, set_registered. destruct (decide (d = d')) as [<-|Hd].
  - rewrite list_lookup_alter_eq. by destruct (s !! d) as [[]|].
  - by rewrite list_lookup_alter_ne.
Qed.

#[local] Instance setup_laws : SetupApiLaws machine nat (list nat).
Proof.
  refine {| members := remove_dups; property := prop |}.
  - intros h. apply NoDup_remove_dups.
  - done.
  - intros s d key n bs E. cbn. by rewrite E.
  - intros s d key n E. cbn. rewrite E. by eexists.
  - intros s d bs E _. change (Some (wide_bytes (instance_id d)) = Some bs) in E. apply (inj Some) in E. rewrite <- E, wide_of_wide_bytes.
    + unfold instance_id. rewrite !elem_of_app. right. right. by left.
    + unfold instance_id. apply list.Forall_app. split; [by repeat constructor|]. constructor; [|by repeat constructor].
      pose proof (Z.mod_pos_bound (Z.of_nat d) 10). unfold is_u16. lia.
  - intros s d d' key _. apply prop_set_registered.
Defined.

#[local] Instance install_laws : InstallLaws machine nat (list nat).
Proof.
  refine {| node := fun s d => exists bs, s !! d = Some (bs, true) |}.
  - intros s d bs s' E. cbn in E. case_decide as Hd; [|done]. injection E as <-. cbn [property setup_laws]. unfold prop. rewrite list_lookup_alter_eq.
    apply lookup_lt_is_Some in Hd as [[x b] ->]. done.
  - intros s d s' E. cbn in E. case_decide as Hd; [|done]. injection E as <-. split; [|apply prop_set_registered].
    unfold set_registered. rewrite list_lookup_alter_eq. apply lookup_lt_is_Some in Hd as [[x b] ->]. by eexists.
  - intros s hwid inf b1 b2 s' d E Hn. cbn in E. by injection E as _ _ <-.
  - intros s d b s' E [bs Hd]. cbn in E. injection E as _ <-. unfold set_registered in Hd. rewrite list_lookup_alter_eq in Hd. by destruct (s !! d).
  - intros s d d' [bs Hd]. cbn in Hd. unfold set_registered in Hd. destruct (decide (d = d')) as [<-|Hne].
    + rewrite list_lookup_alter_eq in Hd. by destruct (s !! d).
    + rewrite list_lookup_alter_ne in Hd by done. by exists bs.
  - intros s e h d E _ [bs Hd]. cbn in E. injection E as <-. cbn. apply elem_of_remove_dups, list_elem_of_In, filter_In.
    rewrite Hd. split; [|done]. apply in_seq. apply lookup_lt_Some in Hd. lia.
Defined.

Definition hwid : list Z := wide "ROOT\USBIP"%string.
(** A machine with another device. *)
Definition before : machine := [(Some (wide_bytes (make_hwid (wide "PCI"%string))), true)].
Definition args : devnode_install_args := {| in_infpath := wide "usbip.inf"%string; in_hwid := hwid |}.
Definition after : machine := before ++ [(Some (wide_bytes (make_hwid hwid)), true)].
End Demo.

Lemma installed_node_is_removed_witness :
  install_devnode_and_driver (H0 := Demo.setup) Demo.args Demo.before = (true, remind_reboot, Demo.after) /\
  exists d ds s2 reboot, remove_devnode (H0 := Demo.setup) 4 4 3 2 {| rm_hwid := Demo.hwid; rm_enumerator := []; rm_dry_run := false |} Demo.after =
      Some (true, if reboot : bool then remind_reboot else [], s2) /\
    d ∈ ds /\ node (InstallLaws := Demo.install_laws) Demo.after d /\ (s2, reboot) = uninstalled (H0 := Demo.setup) ds Demo.after false.
Proof.
  split; [vm_compute; reflexivity|].
  destruct (installed_node_is_removed (H2 := Demo.install_laws) 4 4 Demo.args [] Demo.before Demo.after remind_reboot [0%nat; 1%nat])
    as (d & ds & s2 & reboot & H1 & H2 & H3 & H4 & _); [vm_compute; reflexivity|by repeat constructor|by left|vm_compute; reflexivity|].
  exists d, ds, s2, reboot. done.
Defined.
